(* ===== verification/_CoqProject ===== *)
-Q . S2P
Prelude.v
GoStrings.v
ErrorCollector.v
Oplog.v
OplogFacts.v
Journal.v
JournalFacts.v
Ancestors.v
Dsref.v
DsrefParse.v
DsrefFacts.v
NameGen.v
Access.v
Refstore.v
Paging.v
History.v
HistoryFacts.v
Logbook.v
LogbookFacts.v
LogbookEdits.v
Instances.v
Bus.v
TransformRun.v
Revisions.v
KeyStores.v
ProfileStores.v
ProfileStoreFacts.v
Registry.v
RegistryHttp.v
Logsync.v
LogsyncFacts.v
LogsyncHttp.v
SyncInstances.v
LogsyncP2p.v
StatsCache.v
Preprocess.v
Dscache.v
Fill.v
FillFacts.v
PathValue.v
Changes.v
Friendly.v
Commit.v
ComputeFields.v
DatasetFiles.v
Disk.v
Components.v
WorkingDir.v
Links.v
Library.v
Repository.v
Datasets.v
Remote.v
Client.v
OplogSpec.v
LogbookSpec.v
LogbookInit.v
LogbookSession.v
TransformRunSpec.v
RefstoreSpec.v
LogsyncSpec.v
LogsyncP2pSpec.v
StatsCacheSpec.v
PreprocessSpec.v
RegistrySpec.v
ProfileStoreSpec.v
DscacheSpec.v
FillSpec.v
PathValueSpec.v
ChangesSpec.v
CommitSpec.v
DatasetFilesSpec.v
WorkingDirSpec.v
LinksSpec.v
LibrarySpec.v
RepositorySpec.v
RepositoryLog.v
DatasetsSpec.v
RemoteSpec.v
ClientSpec.v
