(* ===== verification/Prelude.v ===== *)
(** * qri: a verification development

    qri versions datasets. Its logbook is the record of what happened: who
    created which dataset, how it was renamed, which versions were saved,
    amended, deleted and pushed. References name datasets and resolve to
    versions through it, and are synchronized between nodes. This development
    models that core, the synchronization, and the smaller parts around them,
    as executable functions, and proves what they promise.

    ** The parts of the program and the files that model them

    - The operation log (logbook/oplog/log.go). [Oplog] has operations, logs
      and the methods of [Log]: a log is a list of operations with child logs,
      identified by the hash of its first operation. [Journal] has the store:
      lookups by identifier and by name, merging, removal, the flatbuffer form
      and its encryption, and the walk to a log's ancestors. A Go pointer to a
      log inside the store is an address, the path of child positions to it;
      reading and writing through the pointer are [deref] and [store_at], so
      that sharing and in-place mutation behave as in the code.
    - The logbook (logbook/logbook.go, logbook/types.go). [History] has the
      readers of one branch: the fold [branchToVersionInfos], the latest path,
      the referenced paths, the log entries. [Logbook] has [Book] with its
      write and read operations, in a state monad over the book and the world
      behind it (clock, nonces, filesystem, publisher). A failing call keeps
      what it changed before it failed.
    - Dataset references (dsref/ref.go, parse.go, version_info.go, resolve.go,
      mem_resolver.go). [Dsref] has references and resolvers, [DsrefParse] the
      grammar: the regular expressions as scanners and the parsers on them.
    - Name generation (dsref/generate.go): [NameGen], the word state machine.
    - Access control (remote/access/access.go): [Access].
    - The reference store (repo/mem_refstore.go, repo/refstore.go,
      repo/ref): [Refstore].
    - Pages and orderings (api/util): [Paging].
    - The event bus (event/event.go): [Bus]; transform runs
      (transform/run/run.go): [TransformRun], a state fed by the bus.
    - Revisions (dsref/rev.go, base/revisions.go): [Revisions], the walk that
      gathers components from a history.
    - Log synchronization (logbook/logsync). [Logsync] has a node: put, get and
      delete with their hooks, and push and pull against a remote. [LogsyncHttp]
      has the HTTP handler and client, on base64 ([GoStrings]) and the parser of
      deprecated references (repo/parse.go, [Refstore]); [LogsyncP2p] the
      handlers over peer-to-peer streams, and a stream between two ends as a
      transition system.
    - The registry (registry, registry/regserver/handlers,
      registry/regclient). [Registry] has profiles, the rules of registration
      and the store in memory; [RegistryHttp] its handlers, their protection,
      and the client.
    - Profile stores (profile/store.go, profile.go, type.go). [ProfileStores]
      has profiles, their plain form for files, and the two stores, in memory
      and in a file; [KeyStores] the key stores behind them (auth/key).
    - The cache of statistics (stats): [StatsCache].
    - The preprocessor of SQL queries (sql/preprocess): [Preprocess].
    - The dataset cache (dscache). [Dscache] has the flatbuffer as records, its
      builder and mutator, lookups, the handler of dataset events, and the
      cache rebuilt from a logbook, profiles and references.
    - Filling structures from decoded data (base/fill). [ErrorCollector] has
      the errors of a walk, [Fill] the filling by reflection over types and
      places, [PathValue] what is set and read at a dotted path.
    - Change reports (changes/changes.go): [Changes].
    - Dataset storage (base/dsfs). [Friendly] tells of differences in a title
      and a message (base/friendly); [Commit] has what the hook of the commit
      file does: the check for changes, the descriptions, the references to
      files (commit.go, dataset.go, package.go); [ComputeFields] the fields
      computed from a body in batches (compute_fields.go); [DatasetFiles] the
      loading of a dataset with its references, and the files that a dataset
      is written as, with what each of them waits for.
    - Working directories (base/component, fsi). [Disk] has the paths of Unix
      and the disk, a map of clean paths, with the calls of os the code makes.
      [Components] has components of datasets, loaded when they are needed,
      compared and written; [WorkingDir] the listing of a directory, datasets
      written to directories and read from them, and status; [Links] the links
      between directories and references, and creating a dataset in a directory,
      with what is undone when that fails.
    - The library of working directories (lib/resolve.go, load.go, fsi.go):
      [Library], the instance that resolves references, loads datasets, and
      checks out, restores and links directories.
    - The repository (base/ref.go, remove.go, log.go). [Repository] has its state
      as one record, [Repo]: the stored references, the logbook, and the
      filesystem of versions behind the class [VersionFS]; publishing, renaming,
      replacing and rewinding references, removing versions, and the log of a
      dataset from its logbook or from its versions.
    - The library of datasets (lib/datasets.go): [Datasets], renaming and
      removing, over an instance with that filesystem ([World]).
    - The remote (remote/remote.go, signature.go, profile/key.go). [Remote] has
      the node that takes datasets of others: its policy, hooks and limit, the
      checks that dsync and the log synchronization call, removal, the
      handlers as what they write, and the signed parameters of requests.
    - The client of remotes (remote/client.go): [Client], what a node asks of
      remotes: feeds and previews, resolving, pushing, pulling and removing.

    [GoStrings] holds the parts of Go's standard library the code uses on
    strings. Definitions keep the names of the code; where two types have a
    method of the same name, the type's name comes first ([Ref_String],
    [DatasetRef_String]).

    ** How the parts interact

    [Book] holds a [Journal] and calls it through addresses. It publishes to
    whatever satisfies the class [Publisher]; [Bus.bus_publisher] shows that
    the event bus does. It is itself an instance of the class [Resolver], as
    is the in-memory resolver, and the parallel resolver combines any of them.
    The history fold yields the version infos of [Dsref]; names are checked
    with [IsValidName] of [DsrefParse].

    What a push asks of the other side is the class [Remote]: a node is one,
    and so is the HTTP client over any [HttpTransport]. [PutCarrier] states
    what a transport promises about the node it leads to; the theorem that
    pushes deliver is proved against it, and
    [LogsyncHttp.served_carrier] shows that the client over a node behind
    its handler keeps the promise. The rules of the registry are written
    against the class [Profiles] and proved against [ProfilesLaws], which the
    store in memory satisfies in every order of walking a map ([MapOrder]); its
    client runs over any [RegTransport], of which a server with the handlers
    ([served_registry]) is one. A profile store works over any [KeyStore];
    [KeyStoreLaws] is what both key stores promise and what the theorem that
    profile stores agree is proved against. A directory is linked from its side
    by a file on the [Disk] that reads as a reference ([DsrefParse]) and from
    the other by the path in the reference store ([Refstore]); [Links.FSI] is
    both with the logbook, which creates datasets and whose publisher is told
    of links. [Library.Instance] adds the dataset cache in front of the logbook
    as resolvers in sequence. [Repository.Repo] joins references, logbook and
    versions, with [on_repo_refs], [on_repo_book] and [on_repo_store] as the
    calls into each; [Datasets.World] sees an instance as such a repository
    ([on_repo]), and [Remote.Node] has one beside the world of its hooks. The
    hooks a remote gives its log synchronization are [remote_logsync], a
    [Logsync] of the file of that name. A client acts on a repository and a
    network ([Client.Side]); [served_network] is the network of one address
    with a remote behind it: its requests arrive as they were sent, and logs go
    through the HTTP client and the handler of [LogsyncHttp]. Components are
    filled from data by [Fill], and [FillSpec.Struct_form] is what both the
    exact answer of filling and the clean checkout use.

    ** What is taken from elsewhere

    Code that is not in the repository is a class, with the laws the theorems
    use: [OpDigest] (flatbuffer bytes of an operation, blake2b), [BookCipher]
    (AES-GCM, MD5, flatbuffer bytes of a book; a sealed text opens, a finished
    buffer reads back), [Filesystem] (qfs; what was put is read), [Entropy]
    (clock and nonces), [ProfileIDs] (base 58), [TextTransform] (accent
    removal). [ProfileStore] is what completing a reference asks of the
    profiles. [LogSigning] and [KeyBytes] are the key library as logs use it,
    [Keys] as the registry does; [MultihashLib] base 58 and multihashes;
    [P2PMessages] the messages of streams; [RegistryJSON] JSON on both sides of
    the registry; [KeyLib], [Multiaddrs], [LockedFile], [KeyJSON] and [PodJSON]
    what the profile and key stores write and where; [StatsCache.Disk] and [StatsEncoding]
    the files and the JSON of the cache; [DscacheBytes] the bytes of a dataset
    cache; [FillEnv] the texts of values and times, and conversions Go leaves
    open; [CommitEnv], [RowEnv] and [DatasetStore] what the dataset, deepdiff and
    dsio packages and the filesystem do for stored datasets; [ReportEnv] the loader, the statistics and the JSON of change reports;
    [OS] what the operating system refuses besides, and times; [ComponentLib] the
    values of components and the readers and writers of their files, with
    [ComponentLaws] for the data that is read of what was written; [LinkPublisher]
    the second event of a link; [Network] and [DatasetFilesLib] the resolvers of
    other nodes and the opening of stored files; [VersionFS] the filesystem
    that versions are deleted from, with [VersionFSLaws]; [KeyHash] the
    multihash of a key; [RemoteNetwork], [ClientJSON] and [RemotePublisher] the
    requests and transfers of clients, the JSON of responses, and the events;
    [MapWalk] the order in which Go walks a map. [Instances.Demo], [SyncInstances.SyncDemo], [RegistrySpec.RegistryDemo]
    and [ProfileStoreSpec.demo] give each a small computing instance; the
    witnesses of the theorems run on them. No law says that hashes do not
    collide: where identifiers must be distinct a theorem says so.

    ** What the theorems show

    - [LogbookSession]: a branch is a stack of versions. [session_history] is
      the refinement: saving, amending and deleting through the logbook lists
      what the abstract stack specifies. [overdelete_unreadable] is its limit.
    - [LogbookSpec]: writers touch their own logs only
      ([foreign_logs_untouched]), logs only grow
      ([history_append_only]), a saved version is recorded, announced and
      resolved ([WriteVersionSave_records], [ResolveRef_after_save]).
    - [LogbookInit]: a created dataset is found by name and by identifier.
    - [LogbookSpec], of remotes: a push can be rolled back, and always ends; the event of
      a delete names the wrong head.
    - [LogbookInit], of storage: a saved book reopens as it was; a failing write is lost
      silently.
    - [LogsyncSpec]: a push delivers every operation to the node and loses
      nothing there ([Push_delivers]); one that is refused leaves no trace
      ([Push_refused]); a node merges only what the sender has signed and the
      reference names ([put_authorised]). [stale_author_sent] is a limit: a
      sent log keeps its author as it was at the first push.
    - [LogsyncP2pSpec]: every run of a stream ends, and how
      ([stream_outcome]); puts over it are never answered ([p2p_put_hangs]),
      gets are ([p2p_get_returns]).
    - [RegistrySpec]: over any sequence of requests every entry is signed by its
      key ([registry_verified]); a free name can be had and is then found
      ([CreateProfile_registers]), one that is taken is refused
      ([CreateProfile_taken]); but whoever wants can remove it first
      ([name_taken_over]), and renaming keeps the old name
      ([rename_keeps_old_name]).
    - [ProfileStoreSpec]: the store in memory and the store in a file answer as
      one map of profiles and one book of keys does, up to the error of a missing
      profile and what a file leaves out ([stores_agree]); a new store in a file does not have its owner, and a
      file that does not parse is lost.
    - [StatsCacheSpec]: the cache keeps its bound, what was put is found, and
      which entry goes is left to the order of a walk.
    - [PreprocessSpec]: the preprocessor ends on every query, its mapping names
      tables legally, the scanner keeps the text but for stars and tabs.
    - [OplogSpec]: merging replicas is a least upper bound and converges; the
      caches never show; lookups are sound and complete; the encrypted form
      and deep copies read back.
    - [HistoryFacts]: the listing, its pages, the referenced paths and the
      latest path against one reference reading, [live], and where the latest
      path departs from it.
    - [DsrefFacts]: printing and parsing are inverse; resolvers answer the same
      in any order of arrival.
    - [TransformRunSpec]: the state of a run is what its transcript describes,
      whatever other sessions publish.
    - [Revisions]: revisions select what a count along the history says,
      except for whole datasets, of which they load nothing.
    - [DscacheSpec]: over any sequence of saves, deletes and links the cache is
      the list of its entries ([events_refined]); after a save it resolves the
      name as the logbook does ([cache_follows_save]); rebuilt from the logbook
      it has the newest version listed ([rebuild_listed]). Creating a dataset
      forgets others ([init_forgets]), and pushes mislead a rebuild.
    - [FillSpec]: on clean data filling sets each field, whatever the case of
      its name, and otherwise reports all that does not fit, unknown keys among
      it ([Struct_exact]); it reads back what a structure is written as
      ([Struct_dump]).
    - [PathValueSpec]: what is set at a path is read there
      ([SetPathValue_GetPathValue]), by composing walks ([path_twice]); a path
      into a value that is not addressable can panic.
    - [ChangesSpec]: columns are joined by title ([matchColumns_join]), a version
      against itself has not changed ([Report_self]), but changes that cancel
      pass for none ([changes_cancel]).
    - [CommitSpec]: an unforced save is refused exactly when nothing changed
      ([confirmByteChangesExist_exact]); every commit has a title and a message
      ([commit_described]), made of the components that changed
      ([DiffDescriptions_told]), but a body too big to be compared may change
      unnoticed ([large_body_unnoticed]).
    - [ComputeFields]: fields are computed from every entry, errors from
      batches of bounded size that make up the body ([handleRows_computes]).
    - [DatasetFilesSpec]: loading reads the references of a dataset and changes
      nothing else ([LoadDataset_reads]); the files of a dataset can be written
      in the order in which they are listed ([plan_files_ordered]).
    - [WorkingDirSpec]: what is listed after components were written to a
      directory, and that it compares as unmodified ([written_clean]); a body
      inlined in the file of a dataset is not read from its field.
    - [LinksSpec]: a link is found from both ends ([CreateLink_links]); a
      dataset that cannot be created leaves its directory as it was
      ([InitDataset_restores_disk]), unless events or removals are refused.
    - [LibrarySpec]: a checkout is linked from both ends and clean
      ([Checkout_clean]).
    - [RepositorySpec]: removing versions keeps filesystem, references and
      logbook in step ([RemoveNVersionsFromStore_rewinds]), unless all of them
      are removed ([RemoveNVersionsFromStore_all]); [RenameDatasetRef_run] and
      [remove_loop_chain] are the parts the clients use.
    - [RepositoryLog]: the stored history is read page by page
      ([stored_history_reads]); a log that is made of it is upside down
      ([constructed_reversed]).
    - [DatasetsSpec]: renaming moves the log, the reference and the link
      together ([Rename_moves]); a directory with changes is not removed
      ([Remove_refuses_dirty]); removing everything removes no version
      ([Remove_all_keeps_versions]).
    - [RemoteSpec]: what the policy guards and what it does not, and the limit ([policy_guards],
      [dsPushPreCheck_accepts]); signed parameters read back
      ([sigParams_read_back]), but nothing asks for the signature
      ([unsigned_obeyed]); a removal of another's dataset stops half way
      ([RemoveDataset_half_done]).
    - [ClientSpec]: the log that is removed by a name is the first that had it
      ([RemoveLog_first]); a reference resolves over the network as it does at
      the remote ([resolve_served]); a pull leaves the newer version, and loses
      the directory of the one it replaces ([PullDataset_keeps_newest]); and
      removing a dataset from a remote removes its log, its reference and its
      versions ([client_RemoveDataset_removes]).
    - [NameGen], [Access], [RefstoreSpec], [Paging], [TransformRunSpec]:
      generated names are valid; policies allow exactly what a rule covers;
      put and get agree; pages tile; events reach their subscribers.

    [OplogFacts], [JournalFacts], [Ancestors], [LogbookFacts],
    [LogbookEdits], [LogsyncFacts], [FillFacts] and [ProfileStoreFacts] hold
    the lemmas the others share, as do [HistoryFacts], [DsrefFacts], [KeyStores],
    [LogsyncHttp] and [RegistryHttp] beside their own. The main
    ones: [Ancestors.linked], the invariant that every log names its parent;
    [LogbookFacts.edits], what any write leaves of the store; and
    [LogbookEdits.run_edit_spec], every outcome of every write.

    ** Bounds, fuel and widths

    [sparse_ancestors] takes a unit of fuel per ancestor, where the code has a
    loop without a bound; [Ancestors.sparse_ancestors_linked] shows that in a
    linked store this is enough, and a run short of fuel is a [Panic], never an
    answer. [load_loop] takes one per version, where the code walks until the
    history ends; [Revisions.LoadRevs_selects] shows that the length of
    the history is enough. [trim_left] and [order_loop] take as much fuel as
    their input is long ([trim_left_fuel], [order_loop_fuel]: more changes nothing).
    The passes of [Preprocess] take two units per character of their input and
    [newTableName] one per alias in use; [PreprocessSpec.Query_ends] shows that
    no query runs short of either. [purge] takes a unit per entry of the cache,
    which [StatsCacheSpec.addAndPurgeExpired_bounded] shows to be enough.
    [remove_loop] and [stored_history] take one per version, and
    [remove_loop_chain], [remove_loop_all] and [stored_history_reads] show that
    the length of the history is enough.
    [walk_files] goes as deep as the disk has entries. All other recursion is structural. Streams take steps without a bound in the
    model; [stream_outcome] gives one. Page arithmetic wraps at 64 bits ([wrap64]);
    sizes and times elsewhere are integers, sizes counted against the lengths
    of lists. Times are nanoseconds since the epoch, and Go's zero time is 0.
    [Dscache] keeps seconds, as the flatbuffer does, with the zero time as Go's
    year 1. Floats are binary64, by the specification of the Standard Library
    ([SpecFloat]). What [sort.Slice] does with equal elements is to keep them.
    Slicing panics outside the length of the slice; Go also allows up to the
    capacity, which only a negative count in an operation would reach.

    ** What is not modelled

    The feeds and previews a remote makes of its repository, the progress of
    transfers, dsync and the query engine, which are of other repositories, the library methods but those of
    working directories and the renaming and removing of datasets, and the HTTP
    API and commands that compose all these; peer-to-peer handlers but those of
    logs, tokens, the configuration, the Starlark bindings, and whatever is
    input and output only. Deadlines of lookups are not modelled; a version that
    is not found in time is one that is not there. Of working directories, the page of a body and the
    watching of directories; a disk has no permissions or links, and nobody else
    writes to it. Of dataset storage, writing files with their hooks,
    the pipe through which a body is read while it is stored, and signatures. Of paths into structures, embedded fields and the
    private fields of times.
    [src/remote/registry] is a copy of [src/registry], which is modelled once.
    A book has no lock: its calls are modelled one after the other. The bus and
    the sets of profiles take a lock around each of their calls, so that a call
    is one step; a handler of the registry that makes several is modelled
    without another between them. Texts are bytes; where Go reads runes, as the
    preprocessor does, bytes that are no rune become the rune for that, and
    letters change case in ASCII. *)
From Stdlib Require Export Ascii.
From Stdlib Require String.
From stdpp Require Export base gmap strings list fin_maps.
From Stdlib Require Export ZArith Lia.

Declare Scope qri_scope.
Delimit Scope qri_scope with qri.
Global Open Scope string_scope.
Global Open Scope list_scope.
Global Open Scope nat_scope.
#[global] Arguments String.append : simpl nomatch.

(** ** Errors

    Go errors as the code builds and compares them: a sentinel ([var ErrX =
    fmt.Errorf(..)], compared by identity), an error formatted at the point of
    failure ([fmt.Errorf(fmt, args)]), and a wrapped error ([%w]). *)
Inductive error : Type :=
| ErrSentinel (name : string)
| Errorf (fmt : string) (args : list string)
| ErrWrap (fmt : string) (args : list string) (inner : error).

#[export] Instance error_eq_dec : EqDecision error.
Proof. solve_decision. Defined.

(** [errors.Is(err, target)] against a sentinel: walks the wrapping chain. *)
Fixpoint errors_Is (e : error) (target : string) : bool :=
  match e with
  | ErrSentinel n => bool_decide (n = target)
  | Errorf _ _ => false
  | ErrWrap _ _ e' => errors_Is e' target
  end.

(** ** Outcomes of a Go call: a value, an error value, or a run-time panic
    (index out of range, nil dereference, failed type assertion). *)
Inductive outcome (A : Type) : Type :=
| Ok (a : A)
| Error (e : error)
| Panic.
Arguments Ok {A} a.
Arguments Error {A} e.
Arguments Panic {A}.

#[export] Instance outcome_eq_dec {A} `{EqDecision A} : EqDecision (outcome A).
Proof. solve_decision. Defined.

#[export] Instance outcome_ret : MRet outcome := @Ok.
#[export] Instance outcome_bind : MBind outcome := λ A B f m,
  match m with
  | Ok a => f a
  | Error e => Error e
  | Panic => Panic
  end.
#[export] Instance outcome_fmap : FMap outcome := λ A B f m,
  match m with
  | Ok a => Ok (f a)
  | Error e => Error e
  | Panic => Panic
  end.

(** [of_option d o]: the value, or the outcome [d] when there is none. *)
Definition of_option {A} (d : outcome A) (o : option A) : outcome A :=
  match o with Some a => Ok a | None => d end.

Definition is_Ok {A} (m : outcome A) : bool :=
  match m with Ok _ => true | _ => false end.

Definition is_Panic {A} (m : outcome A) : bool :=
  match m with Panic => true | _ => false end.

Lemma outcome_bind_Ok {A B} (f : A → outcome B) (m : outcome A) b :
  m ≫= f = Ok b ↔ ∃ a, m = Ok a ∧ f a = Ok b.
Proof. destruct m; cbn; naive_solver. Qed.

Lemma outcome_bind_no_panic {A B} (f : A → outcome B) (m : outcome A) :
  m ≠ Panic → (∀ a, m = Ok a → f a ≠ Panic) → m ≫= f ≠ Panic.
Proof. destruct m; cbn; naive_solver. Qed.

Lemma outcome_bind_assoc {A B C} (m : outcome A) (f : A → outcome B) (g : B → outcome C) :
  (m ≫= f) ≫= g = m ≫= (λ a, f a ≫= g).
Proof. by destruct m. Qed.

(** ** State-passing computations: every call returns its outcome together
    with the state it leaves, so that a failing call keeps the changes it made
    before it failed. *)
Definition stM (S A : Type) : Type := S → outcome A * S.

#[export] Instance stM_ret {S} : MRet (stM S) := λ A a s, (Ok a, s).
#[export] Instance stM_bind {S} : MBind (stM S) := λ A B f m s,
  match m s with
  | (Ok a, s') => f a s'
  | (Error e, s') => (Error e, s')
  | (Panic, s') => (Panic, s')
  end.

Definition st_get {S} : stM S S := λ s, (Ok s, s).
Definition st_modify {S} (f : S → S) : stM S unit := λ s, (Ok tt, f s).
Definition st_read {S A} (f : S → outcome A) : stM S A := λ s, (f s, s).
Definition st_lift {S A} (m : outcome A) : stM S A := λ s, (m, s).
Definition st_fail {S A} (e : error) : stM S A := λ s, (Error e, s).

Lemma stM_bind_Ok {S A B} (f : A → stM S B) (m : stM S A) s s' b :
  (m ≫= f) s = (Ok b, s') ↔ ∃ a s1, m s = (Ok a, s1) ∧ f a s1 = (Ok b, s').
Proof.
  unfold mbind, stM_bind. destruct (m s) as [[a|e|] s1]; naive_solver.
Qed.

(** [wp m Q s]: whatever [m] answers from [s], and the state it leaves,
    satisfy [Q]. Every run ends, so this is total correctness. *)
Definition wp {S A} (m : stM S A) (Q : outcome A → S → Prop) (s : S) : Prop :=
  Q (m s).1 (m s).2.

Lemma wp_bind {S A B} (m : stM S A) (f : A → stM S B) Q s :
  wp m (λ r s', match r with
                | Ok a => wp (f a) Q s'
                | Error e => Q (Error e) s'
                | Panic => Q Panic s'
                end) s → wp (m ≫= f) Q s.
Proof. unfold wp, mbind, stM_bind. by destruct (m s) as [[a|e|] s']. Qed.

Lemma wp_ret {S A} (a : A) Q (s : S) : Q (Ok a) s → wp (mret a) Q s.
Proof. done. Qed.

Lemma wp_lift {S A} (m : outcome A) Q (s : S) : Q m s → wp (st_lift m) Q s.
Proof. done. Qed.

Lemma wp_mono {S A} (m : stM S A) (Q Q' : outcome A → S → Prop) s :
  (∀ r s', Q r s' → Q' r s') → wp m Q s → wp m Q' s.
Proof. unfold wp. auto. Qed.

(** Rewriting with what the first computation of a bind answers. *)
Lemma bind_run {S A B} (m : stM S A) (f : A → stM S B) s a s' :
  m s = (Ok a, s') → (m ≫= f) s = f a s'.
Proof. unfold mbind, stM_bind. by intros ->. Qed.

(** Running a computation on one component of a larger state *)
Definition st_zoom {S T A} (get : T → S) (set : S → T → T) (m : stM S A) : stM T A := λ t,
  let '(r, s) := m (get t) in (r, set s t).

(** ** Slices, indexed by Go's [int] *)
Section slices.
Context {A : Type}.
Implicit Types l : list A.

(** [l[i]] *)
Definition index (l : list A) (i : Z) : outcome A :=
  if decide (i < 0)%Z then Panic else of_option Panic (l !! Z.to_nat i).

(** [l[:n]]. A bound above [len(l)] is within range for Go when the slice has
    spare capacity; the model has no capacity and panics there. *)
Definition slice_to (l : list A) (n : Z) : outcome (list A) :=
  if decide (0 ≤ n ≤ Z.of_nat (length l))%Z then Ok (take (Z.to_nat n) l) else Panic.

(** [l[n:]] *)
Definition slice_from (l : list A) (n : Z) : outcome (list A) :=
  if decide (0 ≤ n ≤ Z.of_nat (length l))%Z then Ok (drop (Z.to_nat n) l) else Panic.

(** [l[i] = x] *)
Definition assign (l : list A) (i : Z) (x : A) : outcome (list A) :=
  if decide (0 ≤ i < Z.of_nat (length l))%Z then Ok (<[Z.to_nat i := x]> l) else Panic.

(** The first element that satisfies [p], with its index, the way a [for ..
    range] loop with an early return finds it. *)
Fixpoint find_index_from (p : A → bool) (i : nat) (l : list A) : option (nat * A) :=
  match l with
  | [] => None
  | x :: l' => if p x then Some (i, x) else find_index_from p (S i) l'
  end.

Lemma find_index_from_Some p i l k x :
  find_index_from p i l = Some (k, x) ↔
    ∃ j, k = i + j ∧ l !! j = Some x ∧ p x = true ∧
         ∀ j' y, j' < j → l !! j' = Some y → p y = false.
Proof.
  revert i. induction l as [|y l IH]; intros i; cbn.
  { split; [done|]. intros (j & _ & H & _). by rewrite lookup_nil in H. }
  destruct (p y) eqn:Hp.
  - split.
    + intros [= <- <-]. exists 0. split_and!; [lia|done|done|]. intros; lia.
    + intros ([|j] & -> & H & Hx & Hmin); cbn in *.
      { rewrite Nat.add_0_r. congruence. }
      specialize (Hmin 0 y (Nat.lt_0_succ _) eq_refl). congruence.
  - rewrite IH. split.
    + intros (j & -> & H & Hx & Hmin). exists (S j). split_and!; [lia|done|done|].
      intros [|j'] z Hj Hz; cbn in *; [congruence|]. apply (Hmin j' z); [lia|done].
    + intros ([|j] & -> & H & Hx & Hmin); cbn in *; [congruence|].
      exists j. split_and!; [lia|done|done|].
      intros j' z Hj Hz. apply (Hmin (S j') z); [lia|done].
Qed.

Lemma find_index_from_None p i l :
  find_index_from p i l = None ↔ ∀ x, x ∈ l → p x = false.
Proof.
  revert i. induction l as [|y l IH]; intros i; cbn.
  { split; [|done]. intros _ x Hx. by apply not_elem_of_nil in Hx. }
  destruct (p y) eqn:Hp.
  - split; [done|]. intros H. rewrite (H y) in Hp; [done|set_solver].
  - rewrite IH. set_solver.
Qed.

Lemma find_index_from_ext p q i l : (∀ x, p x = q x) → find_index_from p i l = find_index_from q i l.
Proof. intros Hpq. revert i. induction l as [|x l IH]; intros i; cbn; [done|]. by rewrite Hpq, IH. Qed.

Lemma slice_to_full l : slice_to l (Z.of_nat (length l)) = Ok l.
Proof.
  unfold slice_to. rewrite decide_True by lia. by rewrite Nat2Z.id, take_ge.
Qed.

Lemma slice_to_drop_last l x : slice_to (l ++ [x]) (Z.of_nat (length (l ++ [x])) - 1) = Ok l.
Proof.
  unfold slice_to. rewrite length_app; cbn. rewrite decide_True by lia.
  f_equal. replace (Z.to_nat _) with (length l) by lia. by rewrite take_app_length.
Qed.
End slices.

Lemma find_index_from_map {A B} (p : B → bool) (f : A → B) i l :
  find_index_from p i (map f l) = prod_map id f <$> find_index_from (λ x, p (f x)) i l.
Proof. revert i. induction l as [|x l IH]; intros i; cbn; [done|]. destruct (p (f x)); [done|apply IH]. Qed.

(** ** Machine integers: Go's 64-bit [int] and [int64]. *)
Definition int64_min : Z := (- 2 ^ 63)%Z.
Definition int64_max : Z := (2 ^ 63 - 1)%Z.
Definition wrap64 (z : Z) : Z := ((z + 2 ^ 63) mod 2 ^ 64 - 2 ^ 63)%Z.
Definition in_int64 (z : Z) : Prop := (int64_min ≤ z ≤ int64_max)%Z.

Lemma wrap64_id z : in_int64 z → wrap64 z = z.
Proof.
  unfold in_int64, wrap64, int64_min, int64_max. intros H.
  rewrite Z.mod_small; lia.
Qed.

Lemma wrap64_range z : in_int64 (wrap64 z).
Proof.
  unfold in_int64, wrap64, int64_min, int64_max.
  pose proof (Z.mod_pos_bound (z + 2 ^ 63) (2 ^ 64) ltac:(lia)). lia.
Qed.

(** ** Automation shared by the components *)
Create HintDb qri.
#[export] Hint Resolve wrap64_range : qri.

(** Inverts the outcome and state equations the monadic definitions produce. *)
Ltac outcome_inv :=
  repeat match goal with
  | H : Ok _ = Ok _ |- _ => injection H as H; try subst
  | H : (_, _) = (_, _) |- _ => injection H as H; try subst
  | H : Ok _ = Error _ |- _ => discriminate H
  | H : Ok _ = Panic |- _ => discriminate H
  | H : Error _ = Ok _ |- _ => discriminate H
  | H : Panic = Ok _ |- _ => discriminate H
  | H : _ ≫= _ = Ok _ |- _ =>
      let a := fresh "a" in let Ha := fresh "Ha" in
      apply outcome_bind_Ok in H as (a & Ha & H)
  | H : of_option Panic ?o = Ok _ |- _ =>
      let E := fresh "E" in destruct o eqn:E; cbn in H
  end.

(** Case analysis on the scrutinee of the first [match] or [if] of [H]. *)
Ltac step_in H :=
  match type of H with
  | context [match ?x with _ => _ end] =>
      let E := fresh "E" in destruct x eqn:E; cbn in H
  end.

(** Decides the equations between constants in the goal, or in a hypothesis. *)
Ltac decide_const :=
  repeat match goal with
  | |- context [decide (?a = ?b)] =>
      match eval vm_compute in (bool_decide (a = b)) with
      | true => rewrite (decide_True (P := a = b)) by reflexivity
      | false => rewrite (decide_False (P := a = b)) by discriminate
      end
  end.

Ltac decide_const_in H :=
  repeat match type of H with
  | context [decide (?a = ?b)] =>
      match eval vm_compute in (bool_decide (a = b)) with
      | true => rewrite (decide_True (P := a = b)) in H by reflexivity
      | false => rewrite (decide_False (P := a = b)) in H by discriminate
      end
  end.
