(* ===== verification/GoStrings.v ===== *)
(** * Go's strings

    The parts of Go's [strings], [strconv] and [encoding/base32] packages the
    modelled code uses. A Go string is a sequence of bytes, here a [string] of
    8-bit [ascii] characters. *)
From stdpp Require Import pretty.
From S2P Require Export Prelude.

(** ** Byte classes *)
Definition byte_val (c : ascii) : Z := Z.of_N (N_of_ascii c).
Definition in_range (lo hi : Z) (c : ascii) : bool :=
  bool_decide (lo ≤ byte_val c ∧ byte_val c ≤ hi)%Z.
Definition is_lower (c : ascii) : bool := in_range 97 122 c.
Definition is_upper (c : ascii) : bool := in_range 65 90 c.
Definition is_digit (c : ascii) : bool := in_range 48 57 c.
Definition is_alpha (c : ascii) : bool := is_lower c || is_upper c.

(** ASCII lower-casing, what [strings.ToLower] does to an ASCII byte. *)
Definition lower_byte (c : ascii) : ascii :=
  if is_upper c then ascii_of_N (N_of_ascii c + 32) else c.

(** ** Strings as byte lists *)
Notation bytes := String.list_ascii_of_string.
Notation of_bytes := String.string_of_list_ascii.

Lemma bytes_app s t : bytes (s +:+ t) = bytes s ++ bytes t.
Proof. induction s as [|c s IH]; cbn; [done|]. by rewrite IH. Qed.

Lemma of_bytes_app s t : of_bytes (s ++ t) = of_bytes s +:+ of_bytes t.
Proof. induction s as [|c s IH]; cbn; [done|]. by rewrite IH. Qed.

Lemma bytes_of_bytes l : bytes (of_bytes l) = l.
Proof. apply String.list_ascii_of_string_of_list_ascii. Qed.

Lemma of_bytes_bytes s : of_bytes (bytes s) = s.
Proof. apply String.string_of_list_ascii_of_string. Qed.

Lemma string_app_nil_r s : s +:+ "" = s.
Proof. induction s as [|c s IH]; cbn; [done|]. by rewrite IH. Qed.

Lemma bytes_inj s t : bytes s = bytes t → s = t.
Proof. intros H. by rewrite <- (of_bytes_bytes s), H, of_bytes_bytes. Qed.

Lemma string_app_assoc s t u : (s +:+ t) +:+ u = s +:+ (t +:+ u).
Proof. induction s as [|c s IH]; cbn; [done|]. by rewrite IH. Qed.

Lemma string_app_eq_nil s t : s +:+ t = "" ↔ s = "" ∧ t = "".
Proof. destruct s; cbn; naive_solver. Qed.

Lemma string_length_app s t : String.length (s +:+ t) = String.length s + String.length t.
Proof. induction s as [|c s IH]; cbn; [done|]. by rewrite IH. Qed.

Definition string_all (p : ascii → bool) (s : string) : bool := forallb p (bytes s).
#[global] Arguments string_all : simpl never.

Definition strings_ToLower (s : string) : string := of_bytes (map lower_byte (bytes s)).

(** [strings.HasPrefix] and [strings.TrimPrefix] *)
Fixpoint strip_prefix (p s : string) : option string :=
  match p, s with
  | EmptyString, _ => Some s
  | String c p', String d s' => if Ascii.eqb c d then strip_prefix p' s' else None
  | String _ _, EmptyString => None
  end.
Definition strings_HasPrefix (s p : string) : bool := bool_decide (is_Some (strip_prefix p s)).
Definition strings_TrimPrefix (s p : string) : string := default s (strip_prefix p s).

Lemma strip_prefix_Some p s t : strip_prefix p s = Some t ↔ s = p +:+ t.
Proof.
  revert s. induction p as [|c p IH]; intros s; cbn; [naive_solver|].
  destruct s as [|d s]; cbn; [naive_solver|].
  destruct (Ascii.eqb_spec c d) as [->|Hne].
  - rewrite IH. naive_solver.
  - naive_solver.
Qed.

Lemma strings_HasPrefix_spec s p : strings_HasPrefix s p = true ↔ ∃ t, s = p +:+ t.
Proof.
  unfold strings_HasPrefix. rewrite bool_decide_eq_true. unfold is_Some.
  setoid_rewrite strip_prefix_Some. done.
Qed.

Lemma strings_TrimPrefix_app p t : strings_TrimPrefix (p +:+ t) p = t.
Proof.
  unfold strings_TrimPrefix. by rewrite (proj2 (strip_prefix_Some p _ t) eq_refl).
Qed.

(** [strings.Split(s, sep)] for a one-byte separator *)
Fixpoint split_bytes (sep : ascii) (s : list ascii) : list (list ascii) :=
  match s with
  | [] => [[]]
  | c :: s' =>
      if Ascii.eqb c sep then [] :: split_bytes sep s'
      else match split_bytes sep s' with
           | w :: ws => (c :: w) :: ws
           | [] => [[c]]
           end
  end.
Definition strings_Split (s : string) (sep : ascii) : list string :=
  map of_bytes (split_bytes sep (bytes s)).

(** [strings.Join] *)
Fixpoint strings_Join (l : list string) (sep : string) : string :=
  match l with
  | [] => ""
  | [s] => s
  | s :: l' => s +:+ sep +:+ strings_Join l' sep
  end.

Lemma split_bytes_nonempty sep s : split_bytes sep s ≠ [].
Proof. destruct s as [|c s]; cbn; [done|]. repeat case_match; done. Qed.

Lemma Split_nonempty s sep : strings_Split s sep ≠ [].
Proof.
  unfold strings_Split. pose proof (split_bytes_nonempty sep (bytes s)).
  by destruct (split_bytes sep (bytes s)).
Qed.

(** Splitting on a separator and joining with it gives the string back. *)
Lemma Join_Split s sep : strings_Join (strings_Split s sep) (String sep "") = s.
Proof.
  unfold strings_Split. rewrite <- (of_bytes_bytes s) at 2.
  induction (bytes s) as [|c l IH]; cbn; [done|].
  pose proof (split_bytes_nonempty sep l) as Hne.
  destruct (Ascii.eqb_spec c sep) as [->|Hc].
  - cbn. destruct (split_bytes sep l) as [|w ws]; [done|]. cbn in *. by rewrite <- IH.
  - destruct (split_bytes sep l) as [|w ws]; [done|]. cbn in *. rewrite <- IH.
    by destruct ws.
Qed.

Lemma split_bytes_no_sep sep s : Forall (λ c, c ≠ sep) s → split_bytes sep s = [s].
Proof.
  induction 1 as [|c s Hc Hs IH]; cbn; [done|].
  rewrite IH. by destruct (Ascii.eqb_spec c sep).
Qed.

Lemma split_bytes_app sep s t :
  Forall (λ c, c ≠ sep) s → split_bytes sep (s ++ sep :: t) = s :: split_bytes sep t.
Proof.
  induction 1 as [|c s Hc Hs IH]; cbn.
  - by rewrite Ascii.eqb_refl.
  - rewrite IH. by destruct (Ascii.eqb_spec c sep).
Qed.

Definition no_byte (sep : ascii) (s : string) : Prop := Forall (λ c, c ≠ sep) (bytes s).

Lemma Split_Join l sep :
  l ≠ [] → Forall (no_byte sep) l → strings_Split (strings_Join l (String sep "")) sep = l.
Proof.
  intros Hne Hl. induction Hl as [|s l Hs Hl IH]; [done|].
  unfold strings_Split in *. cbn. destruct l as [|s' l].
  - rewrite split_bytes_no_sep by done. cbn. by rewrite of_bytes_bytes.
  - rewrite bytes_app. cbn [bytes String.append]. rewrite split_bytes_app by done.
    cbn [map]. rewrite of_bytes_bytes. f_equal. by apply IH.
Qed.

Lemma Split_no_sep s sep : Forall (no_byte sep) (strings_Split s sep).
Proof.
  unfold strings_Split, no_byte. apply Forall_fmap, Forall_forall. cbn.
  intros w. rewrite bytes_of_bytes. revert w.
  induction (bytes s) as [|c l IH]; cbn; intros w Hw.
  { apply list_elem_of_singleton in Hw as ->. constructor. }
  destruct (Ascii.eqb_spec c sep) as [->|Hc].
  { apply elem_of_cons in Hw as [->|Hw]; [constructor|by apply IH]. }
  destruct (split_bytes sep l) as [|w0 ws].
  { apply list_elem_of_singleton in Hw as ->. by repeat constructor. }
  apply elem_of_cons in Hw as [->|Hw].
  - constructor; [done|]. apply IH. set_solver.
  - apply IH. set_solver.
Qed.

(** ** [strconv.Itoa] and [fmt.Sprintf("%d", n)] *)
Definition strconv_Itoa (n : Z) : string := pretty n.

Lemma strconv_Itoa_inj m n : strconv_Itoa m = strconv_Itoa n → m = n.
Proof. apply (inj pretty). Qed.

Lemma pretty_N_go_nonempty x s : s ≠ "" → pretty_N_go x s ≠ "".
Proof.
  revert s. induction (N.lt_wf_0 x) as [x _ IH]; intros s Hs.
  destruct (decide (x = 0)%N) as [->|Hx]; [by rewrite pretty_N_go_0|].
  rewrite pretty_N_go_step by lia. apply IH; [apply N.div_lt; lia|done].
Qed.

Lemma strconv_Itoa_nonempty n : strconv_Itoa n ≠ "".
Proof.
  assert (∀ x : N, pretty x ≠ "") as HN.
  { intros x. unfold pretty, pretty_N. case_decide; [done|]. rewrite pretty_N_go_step by lia.
    by apply pretty_N_go_nonempty. }
  unfold strconv_Itoa, pretty, pretty_Z. destruct n; [done|apply HN|done].
Qed.

(** ** [strconv.Atoi]: an optional sign and decimal digits, in the range of a
    64-bit [int]; every other string is an error. *)
Definition digit_val (c : ascii) : Z := (byte_val c - 48)%Z.
Definition decimal (s : list ascii) : option Z :=
  match s with
  | [] => None
  | _ => if forallb is_digit s
         then Some (fold_left (λ n c, 10 * n + digit_val c)%Z s 0%Z) else None
  end.
Definition strconv_Atoi (s : string) : option Z :=
  let parsed :=
    match bytes s with
    | "-"%char :: ds => Z.opp <$> decimal ds
    | "+"%char :: ds => decimal ds
    | ds => decimal ds
    end in
  n ← parsed;
  if decide (int64_min ≤ n ≤ int64_max)%Z then Some n else None.

(** ** Lower-case base32 without padding
    ([base32.NewEncoding("abcdefghijklmnopqrstuvwxyz234567").WithPadding(NoPadding)]) *)
Definition byte_bits (c : ascii) : list bool :=
  match c with Ascii b0 b1 b2 b3 b4 b5 b6 b7 => [b7; b6; b5; b4; b3; b2; b1; b0] end.

Fixpoint chunk5 (bs : list bool) : list (bool * bool * bool * bool * bool) :=
  match bs with
  | b0 :: b1 :: b2 :: b3 :: b4 :: bs' => (b0, b1, b2, b3, b4) :: chunk5 bs'
  | [] => []
  | [b0] => [(b0, false, false, false, false)]
  | [b0; b1] => [(b0, b1, false, false, false)]
  | [b0; b1; b2] => [(b0, b1, b2, false, false)]
  | [b0; b1; b2; b3] => [(b0, b1, b2, b3, false)]
  end.

Definition base32_digit (g : bool * bool * bool * bool * bool) : ascii :=
  let '(b0, b1, b2, b3, b4) := g in
  let n := (16 * N.b2n b0 + 8 * N.b2n b1 + 4 * N.b2n b2 + 2 * N.b2n b3 + N.b2n b4)%N in
  ascii_of_N (if (n <? 26)%N then 97 + n else 50 + (n - 26)).

Definition base32_encode (s : string) : string :=
  of_bytes (map base32_digit (chunk5 (flat_map byte_bits (bytes s)))).

(** The alphabet of the encoding, the character class [[a-z2-7]]. *)
Definition is_base32 (c : ascii) : bool := is_lower c || in_range 50 55 c.

Lemma base32_digit_alphabet g : is_base32 (base32_digit g) = true.
Proof. destruct g as [[[[[] []] []] []] []]; reflexivity. Qed.

Lemma base32_digit_inj : Inj (=) (=) base32_digit.
Proof.
  intros [[[[[] []] []] []] []] [[[[[] []] []] []] []]; cbn; intros H;
    first [reflexivity | discriminate H].
Qed.

Lemma byte_bits_length s : length (flat_map byte_bits s) = 8 * length s.
Proof.
  induction s as [|[] s IH]; cbn in *; [done|]. rewrite IH. lia.
Qed.

Lemma chunk5_ind (P : list bool → Prop) :
  P [] → (∀ a, P [a]) → (∀ a b, P [a; b]) → (∀ a b c, P [a; b; c]) →
  (∀ a b c d, P [a; b; c; d]) →
  (∀ a b c d e l, P l → P (a :: b :: c :: d :: e :: l)) → ∀ l, P l.
Proof.
  intros H0 H1 H2 H3 H4 H5.
  fix IH 1. intros [|a [|b [|c [|d [|e l]]]]];
    [apply H0|apply H1|apply H2|apply H3|apply H4|apply H5, IH].
Qed.

Lemma chunk5_length l : length (chunk5 l) = (length l + 4) `div` 5.
Proof.
  induction l as [| | | | |a b c d e l IH] using chunk5_ind; try reflexivity.
  cbn [chunk5 length]. rewrite IH.
  replace (S (S (S (S (S (length l))))) + 4) with (length l + 4 + 1 * 5) by lia.
  rewrite Nat.div_add by lia. lia.
Qed.

Lemma chunk5_inj x y : length x = length y → chunk5 x = chunk5 y → x = y.
Proof.
  revert y. induction x as [| | | | |a b c d e l IH] using chunk5_ind;
    intros [|a' [|b' [|c' [|d' [|e' y]]]]]; cbn; intros Hlen H;
    try discriminate; simplify_eq; try done.
  f_equal. f_equal. f_equal. f_equal. f_equal. by apply IH.
Qed.

Lemma byte_bits_inj s t :
  flat_map byte_bits s = flat_map byte_bits t → s = t.
Proof.
  revert t. induction s as [|[] s IH]; intros [|[] t]; cbn; intros H;
    try discriminate; [done|].
  injection H as -> -> -> -> -> -> -> -> H. f_equal. by apply IH.
Qed.

(** The encoding is injective. *)
Lemma base32_encode_inj : Inj (=) (=) base32_encode.
Proof.
  intros s t H. unfold base32_encode in H.
  apply (f_equal bytes) in H. rewrite !bytes_of_bytes in H.
  apply (list_fmap_eq_inj _ base32_digit_inj) in H.
  assert (length (bytes s) = length (bytes t)) as Hlen.
  { apply (f_equal length) in H. rewrite !chunk5_length, !byte_bits_length in H.
    pose proof (Nat.div_mod_eq (8 * length (bytes s) + 4) 5).
    pose proof (Nat.div_mod_eq (8 * length (bytes t) + 4) 5).
    pose proof (Nat.mod_upper_bound (8 * length (bytes s) + 4) 5 ltac:(lia)).
    pose proof (Nat.mod_upper_bound (8 * length (bytes t) + 4) 5 ltac:(lia)).
    lia. }
  apply chunk5_inj in H; [|by rewrite !byte_bits_length, Hlen].
  by apply byte_bits_inj, bytes_inj in H.
Qed.

Lemma base32_encode_alphabet s : string_all is_base32 (base32_encode s) = true.
Proof.
  unfold string_all, base32_encode. rewrite bytes_of_bytes.
  apply forallb_forall. intros c Hc. apply in_map_iff in Hc as (g & <- & _).
  apply base32_digit_alphabet.
Qed.

Lemma base32_encode_length s :
  String.length (base32_encode s) = (8 * String.length s + 4) `div` 5.
Proof.
  assert (∀ l, String.length (of_bytes l) = length l) as Hl.
  { induction l; cbn; congruence. }
  unfold base32_encode. rewrite Hl, length_map, chunk5_length, byte_bits_length.
  by rewrite <- (of_bytes_bytes s) at 2; rewrite Hl.
Qed.

(** ** [strings.TrimSpace]: the UTF-8 encodings of Unicode's white space *)
Definition byte (n : N) : ascii := ascii_of_N n.
Definition white_space : list (list ascii) :=
  map (λ n, [byte n]) [9; 10; 11; 12; 13; 32]%N ++
  [[byte 194; byte 133]; [byte 194; byte 160]; [byte 225; byte 154; byte 128]] ++
  map (λ n, [byte 226; byte 128; byte n])
    [128; 129; 130; 131; 132; 133; 134; 135; 136; 137; 138; 168; 169; 175]%N ++
  [[byte 226; byte 129; byte 159]; [byte 227; byte 128; byte 128]].

Fixpoint drop_prefix (p s : list ascii) : option (list ascii) :=
  match p, s with
  | [], _ => Some s
  | c :: p', d :: s' => if decide (c = d) then drop_prefix p' s' else None
  | _, [] => None
  end.

Fixpoint first_prefix (ps : list (list ascii)) (s : list ascii) : option (list ascii) :=
  match ps with
  | [] => None
  | p :: ps' => match drop_prefix p s with Some s' => Some s' | None => first_prefix ps' s end
  end.

(** One unit of fuel per code point removed *)
Fixpoint trim_left (fuel : nat) (ps : list (list ascii)) (s : list ascii) : list ascii :=
  match fuel with
  | 0 => s
  | S fuel' => match first_prefix ps s with Some s' => trim_left fuel' ps s' | None => s end
  end.

Definition TrimSpace (s : list ascii) : list ascii :=
  let l := trim_left (length s) white_space s in
  reverse (trim_left (length l) (map reverse white_space) (reverse l)).

(** ** Trimming only removes *)
Lemma drop_prefix_suffix p s s' : drop_prefix p s = Some s' → s = p ++ s'.
Proof.
  revert s. induction p as [|c p IH]; intros s; cbn; [by intros [= ->]|].
  destruct s as [|d s]; [done|]. case_decide; [|done]. intros ->%IH. by subst.
Qed.

Lemma first_prefix_suffix ps s s' : first_prefix ps s = Some s' → ∃ p, s = p ++ s'.
Proof.
  induction ps as [|p ps IH]; cbn; [done|]. destruct (drop_prefix p s) as [s1|] eqn:E; [|done].
  intros [= <-]. exists p. by apply drop_prefix_suffix.
Qed.

Lemma trim_left_subset fuel ps s c : c ∈ trim_left fuel ps s → c ∈ s.
Proof.
  revert s. induction fuel as [|fuel IH]; intros s; cbn; [done|].
  destruct (first_prefix ps s) as [s'|] eqn:E; [|done].
  apply first_prefix_suffix in E as [p ->]. intros Hc%IH. apply elem_of_app. by right.
Qed.

(** A unit of fuel per byte is enough: more of it changes nothing. *)
Lemma trim_left_fuel ps s fuel fuel' :
  Forall (λ p, p ≠ []) ps → length s ≤ fuel → length s ≤ fuel' →
  trim_left fuel ps s = trim_left fuel' ps s.
Proof.
  intros Hps. assert (∀ s s', first_prefix ps s = Some s' → length s' < length s) as Hlt.
  { clear s fuel fuel'. induction Hps as [|p ps Hp Hps IH]; intros s s'; cbn; [done|].
    destruct (drop_prefix p s) as [s1|] eqn:E; [|apply IH]. intros [= <-].
    apply drop_prefix_suffix in E as ->. rewrite length_app. destruct p; [done|cbn; lia]. }
  revert s fuel'. induction fuel as [|fuel IH]; intros s [|fuel']; cbn; intros Hf Hf'; [done|..].
  1,2: destruct s; [|cbn in *; lia]; destruct (first_prefix ps []) eqn:E; [|done];
       by apply Hlt in E; cbn in E; lia.
  destruct (first_prefix ps s) as [s'|] eqn:E; [|done]. apply Hlt in E. apply IH; lia.
Qed.

Lemma TrimSpace_subset s c : c ∈ TrimSpace s → c ∈ s.
Proof.
  unfold TrimSpace. rewrite elem_of_reverse. intros Hc%trim_left_subset.
  rewrite elem_of_reverse in Hc. by apply trim_left_subset in Hc.
Qed.

Definition strings_TrimSpace (s : string) : string := of_bytes (TrimSpace (bytes s)).

(** ** [strings.Contains], and the text of an error

    [sprintf] puts the arguments, already printed, in place of the verbs, and
    the text of the wrapped error in place of [%w]. [%q] adds quotes; it escapes
    nothing, as its arguments are names and identifiers. *)
Fixpoint strings_Contains (s sub : string) : bool :=
  strings_HasPrefix s sub ||
  match s with EmptyString => false | String _ s' => strings_Contains s' sub end.

Definition quoted (s : string) : string :=
  String (ascii_of_nat 34) s +:+ String (ascii_of_nat 34) EmptyString.

Fixpoint sprintf (fmt : string) (args : list string) (wrapped : string) : string :=
  match fmt with
  | String "%" (String v rest) =>
      if Ascii.eqb v "w" then wrapped +:+ sprintf rest args wrapped
      else (if Ascii.eqb v "q" then quoted (default "" (head args)) else default "" (head args)) +:+
           sprintf rest (tail args) wrapped
  | String c rest => String c (sprintf rest args wrapped)
  | EmptyString => EmptyString
  end.

Fixpoint error_text (e : error) : string :=
  match e with
  | ErrSentinel n => n
  | Errorf fmt args => sprintf fmt args EmptyString
  | ErrWrap fmt args inner => sprintf fmt args (error_text inner)
  end.

Example error_text_get :
  error_text (ErrWrap "getting log %q %w" ["abc"] (ErrSentinel "log: not found")) =
  "getting log " +:+ quoted "abc" +:+ " log: not found".
Proof. reflexivity. Qed.

(** ** Numbers as texts of bits, a byte format for values that can be counted *)
Fixpoint bits_of (p : positive) : string :=
  match p with xH => "" | xO p => String "0" (bits_of p) | xI p => String "1" (bits_of p) end.
Fixpoint of_bits (s : string) : positive :=
  match s with
  | EmptyString => xH
  | String c s => if Ascii.eqb c "0" then xO (of_bits s) else xI (of_bits s)
  end.
Lemma of_bits_of p : of_bits (bits_of p) = p.
Proof. induction p; cbn; congruence. Qed.

(** The order in which Go walks a map *)
Class MapWalk : Type := {
  walk : ∀ {A}, gmap string A → list (string * A);
  walk_perm {A} (m : gmap string A) : walk m ≡ₚ map_to_list m;
}.

(** * Standard base64 with padding (Go's [encoding/base64], [StdEncoding])

    The header of a synchronization request carries the sender's key in it. *)
(** Six bits, most significant first *)
Definition sextet : Type := bool * bool * bool * bool * bool * bool.
Definition sextet_val (g : sextet) : N :=
  let '(b5, b4, b3, b2, b1, b0) := g in
  (32 * N.b2n b5 + 16 * N.b2n b4 + 8 * N.b2n b3 + 4 * N.b2n b2 + 2 * N.b2n b1 + N.b2n b0)%N.
Definition sextet_of (n : N) : sextet :=
  (N.testbit n 5, N.testbit n 4, N.testbit n 3, N.testbit n 2, N.testbit n 1, N.testbit n 0).

(** The alphabet [A-Za-z0-9+/] *)
Definition base64_digit (g : sextet) : ascii :=
  let n := sextet_val g in
  ascii_of_N (if n <? 26 then 65 + n else if n <? 52 then 97 + (n - 26)
              else if n <? 62 then 48 + (n - 52) else if n =? 62 then 43 else 47)%N.
Definition base64_value (c : ascii) : option sextet :=
  let n := N_of_ascii c in
  if is_upper c then Some (sextet_of (n - 65))
  else if is_lower c then Some (sextet_of (n - 97 + 26))
  else if is_digit c then Some (sextet_of (n - 48 + 52))
  else if (n =? 43)%N then Some (sextet_of 62)
  else if (n =? 47)%N then Some (sextet_of 63)
  else None.

Definition pad : ascii := "="%char.

(** [Encoding.EncodeToString] *)
Fixpoint base64_groups (s : list ascii) : list ascii :=
  match s with
  | [] => []
  | [Ascii a0 a1 a2 a3 a4 a5 a6 a7] =>
      [base64_digit (a7, a6, a5, a4, a3, a2); base64_digit (a1, a0, false, false, false, false); pad; pad]
  | [Ascii a0 a1 a2 a3 a4 a5 a6 a7; Ascii b0 b1 b2 b3 b4 b5 b6 b7] =>
      [base64_digit (a7, a6, a5, a4, a3, a2); base64_digit (a1, a0, b7, b6, b5, b4);
       base64_digit (b3, b2, b1, b0, false, false); pad]
  | Ascii a0 a1 a2 a3 a4 a5 a6 a7 :: Ascii b0 b1 b2 b3 b4 b5 b6 b7 ::
    Ascii c0 c1 c2 c3 c4 c5 c6 c7 :: s' =>
      base64_digit (a7, a6, a5, a4, a3, a2) :: base64_digit (a1, a0, b7, b6, b5, b4) ::
      base64_digit (b3, b2, b1, b0, c7, c6) :: base64_digit (c5, c4, c3, c2, c1, c0) ::
      base64_groups s'
  end.
Definition base64_EncodeToString (s : string) : string := of_bytes (base64_groups (bytes s)).

(** [Encoding.DecodeString]: line breaks are skipped, padding ends the text,
    the bits under it may be anything. *)
Definition first_byte (g h : sextet) : ascii :=
  let '(a7, a6, a5, a4, a3, a2) := g in let '(a1, a0, _, _, _, _) := h in
  Ascii a0 a1 a2 a3 a4 a5 a6 a7.
Definition second_byte (g h : sextet) : ascii :=
  let '(_, _, b7, b6, b5, b4) := g in let '(b3, b2, b1, b0, _, _) := h in
  Ascii b0 b1 b2 b3 b4 b5 b6 b7.
Definition third_byte (g h : sextet) : ascii :=
  let '(_, _, _, _, c7, c6) := g in let '(c5, c4, c3, c2, c1, c0) := h in
  Ascii c0 c1 c2 c3 c4 c5 c6 c7.

Fixpoint base64_ungroup (s : list ascii) : option (list ascii) :=
  match s with
  | [] => Some []
  | [d1; d2; d3; d4] =>
      g1 ← base64_value d1; g2 ← base64_value d2;
      if Ascii.eqb d3 pad then
        if Ascii.eqb d4 pad then Some [first_byte g1 g2] else None
      else
        g3 ← base64_value d3;
        if Ascii.eqb d4 pad then Some [first_byte g1 g2; second_byte g2 g3]
        else g4 ← base64_value d4; Some [first_byte g1 g2; second_byte g2 g3; third_byte g3 g4]
  | d1 :: d2 :: d3 :: d4 :: s' =>
      g1 ← base64_value d1; g2 ← base64_value d2; g3 ← base64_value d3; g4 ← base64_value d4;
      rest ← base64_ungroup s';
      Some (first_byte g1 g2 :: second_byte g2 g3 :: third_byte g3 g4 :: rest)
  | _ => None
  end.
Definition is_newline (c : ascii) : bool := Ascii.eqb c (byte 10) || Ascii.eqb c (byte 13).
Definition base64_DecodeString (s : string) : outcome string :=
  match base64_ungroup (filter (λ c, is_newline c = false) (bytes s)) with
  | Some l => Ok (of_bytes l)
  | None => Error (Errorf "illegal base64 data" [])
  end.

(** ** Decoding undoes encoding *)
Lemma base64_value_digit g : base64_value (base64_digit g) = Some g.
Proof. destruct g as [[[[[b5 b4] b3] b2] b1] b0]. destruct b5, b4, b3, b2, b1, b0; vm_compute; reflexivity. Qed.

Lemma base64_digit_plain g :
  Ascii.eqb (base64_digit g) pad = false ∧ is_newline (base64_digit g) = false.
Proof. destruct g as [[[[[b5 b4] b3] b2] b1] b0]. destruct b5, b4, b3, b2, b1, b0; vm_compute; split; reflexivity. Qed.

Lemma bytes3_ind (P : list ascii → Prop) :
  P [] → (∀ a, P [a]) → (∀ a b, P [a; b]) → (∀ a b c s, P s → P (a :: b :: c :: s)) → ∀ s, P s.
Proof.
  intros H0 H1 H2 H3.
  assert (∀ n s, length s < n → P s) as Hall; [|intros s; apply (Hall (S (length s))); lia].
  induction n as [|n IH]; [lia|]. intros [|a [|b [|c s]]] Hlen; [done..|].
  apply H3, IH. cbn in Hlen. lia.
Qed.

Lemma base64_ungroup_cons d1 d2 d3 d4 s g1 g2 g3 g4 rest :
  base64_value d1 = Some g1 → base64_value d2 = Some g2 → base64_value d3 = Some g3 →
  base64_value d4 = Some g4 → Ascii.eqb d3 pad = false → Ascii.eqb d4 pad = false →
  base64_ungroup s = Some rest →
  base64_ungroup (d1 :: d2 :: d3 :: d4 :: s) =
    Some (first_byte g1 g2 :: second_byte g2 g3 :: third_byte g3 g4 :: rest).
Proof.
  intros H1 H2 H3 H4 Hd3 Hd4 Hs. destruct s as [|c s].
  - injection Hs as <-. cbn. by rewrite H1, H2, Hd3, Hd4, H3, H4.
  - transitivity (g1 ← base64_value d1; g2 ← base64_value d2; g3 ← base64_value d3;
      g4 ← base64_value d4; rest ← base64_ungroup (c :: s);
      Some (first_byte g1 g2 :: second_byte g2 g3 :: third_byte g3 g4 :: rest)); [done|].
    rewrite H1, H2, H3, H4. cbn [mbind option_bind]. by rewrite Hs.
Qed.

Lemma base64_ungroup_groups s : base64_ungroup (base64_groups s) = Some s.
Proof.
  induction s as [|a|a b|a b c s IH] using bytes3_ind; [done|..];
    repeat match goal with x : ascii |- _ => destruct x end.
  - cbn [base64_groups base64_ungroup]. by rewrite !base64_value_digit.
  - cbn [base64_groups base64_ungroup]. rewrite !base64_value_digit. cbn [mbind option_bind].
    by rewrite (proj1 (base64_digit_plain _)).
  - cbn [base64_groups].
    rewrite (base64_ungroup_cons _ _ _ _ _ _ _ _ _ s (base64_value_digit _) (base64_value_digit _)
      (base64_value_digit _) (base64_value_digit _)); [done|apply base64_digit_plain..|done].
Qed.

Lemma base64_groups_plain s : Forall (λ c, is_newline c = false) (base64_groups s).
Proof.
  induction s as [|a|a b|a b c s IH] using bytes3_ind; [done|..];
    repeat match goal with x : ascii |- _ => destruct x end; cbn [base64_groups];
    repeat constructor; first [apply base64_digit_plain | done].
Qed.

Lemma filter_all {A} (P : A → Prop) `{∀ x, Decision (P x)} l : Forall P l → filter P l = l.
Proof. induction 1 as [|x l Hx Hl IH]; [done|]. rewrite filter_cons, decide_True by done. by f_equal. Qed.

Lemma base64_Decode_Encode s : base64_DecodeString (base64_EncodeToString s) = Ok s.
Proof.
  unfold base64_DecodeString, base64_EncodeToString. rewrite bytes_of_bytes.
  rewrite filter_all by apply base64_groups_plain.
  by rewrite base64_ungroup_groups, of_bytes_bytes.
Qed.
