(* ===== verification/ErrorCollector.v ===== *)
(** * Collected errors (src/base/fill/error_collector.go)

    Errors gathered while a walk goes on, each with the path of fields at which
    it occurred, and joined into one at the end. *)
From S2P Require Export GoStrings.

(** [type ErrorCollector struct] *)
Record ErrorCollector : Type := mkErrorCollector {
  ec_errs : list error;
  ec_fields : list string;
}.

(** [NewErrorCollector] *)
Definition NewErrorCollector : ErrorCollector := mkErrorCollector [] [].

(** [ErrorCollector.Add] of an error that is not nil; of nil it is
    [add_opt]. *)
Definition Add (err : error) (c : ErrorCollector) : ErrorCollector :=
  mkErrorCollector
    (ec_errs c ++
     [match ec_fields c with
      | [] => err
      | fs => Errorf ("at " +:+ quoted "%s" +:+ ": %s") [strings_Join fs "."; error_text err]
      end]) (ec_fields c).
Definition add_opt (err : option error) (c : ErrorCollector) : ErrorCollector :=
  match err with Some e => Add e c | None => c end.

(** [ErrorCollector.AsSingleError] *)
Definition AsSingleError (c : ErrorCollector) : option error :=
  match ec_errs c with
  | [] => None
  | [e] => Some e
  | es => Some (Errorf "%s" [strings_Join (map error_text es) (String (ascii_of_nat 10) "")])
  end.

(** [ErrorCollector.PushField] and [ErrorCollector.PopField] *)
Definition PushField (fieldName : string) (c : ErrorCollector) : ErrorCollector :=
  mkErrorCollector (ec_errs c) (ec_fields c ++ [fieldName]).
Definition PopField (c : ErrorCollector) : outcome ErrorCollector :=
  fs ← slice_to (ec_fields c) (Z.of_nat (length (ec_fields c)) - 1);
  Ok (mkErrorCollector (ec_errs c) fs).

Lemma AsSingleError_None c : AsSingleError c = None ↔ ec_errs c = [].
Proof. unfold AsSingleError. by destruct (ec_errs c) as [|? [|??]]. Qed.

Lemma PopField_PushField f c : PopField (PushField f c) = Ok c.
Proof. unfold PopField, PushField. cbn [ec_fields ec_errs]. rewrite slice_to_drop_last. by destruct c. Qed.
