(* ===== verification/Oplog.v ===== *)
(** * The operation log (src/logbook/oplog/log.go)

    Operations, logs as trees of operation lists, and the methods of [*Log].
    A [*Log] pointer into a tree is an address: the list of child positions
    that leads to the node. Reading through the pointer is [lookup_addr],
    writing through it is [alter_addr]. *)
From S2P Require Export GoStrings.

(** ** Operations *)

(** [type OpType byte] and its three constants *)
Definition OpTypeInit : Z := 1.
Definition OpTypeAmend : Z := 2.
Definition OpTypeRemove : Z := 3.

(** [type Op struct] *)
Record Op : Type := mkOp {
  op_Type : Z;
  op_Model : Z;
  op_Ref : string;
  op_Prev : string;
  op_Relations : list string;
  op_Name : string;
  op_AuthorID : string;
  op_Timestamp : Z;
  op_Size : Z;
  op_Note : string;
}.

#[export] Instance Op_eq_dec : EqDecision Op.
Proof. solve_decision. Defined.

(** [Op{}] *)
Definition zero_Op : Op := mkOp 0 0 "" "" [] "" "" 0 0 "".

(** [Op.Equal]: the relations are compared by their number only. *)
Definition Op_Equal (o b : Op) : bool :=
  bool_decide (op_Type o = op_Type b) &&
  bool_decide (op_Model o = op_Model b) &&
  bool_decide (op_Ref o = op_Ref b) &&
  bool_decide (op_Prev o = op_Prev b) &&
  bool_decide (length (op_Relations o) = length (op_Relations b)) &&
  bool_decide (op_Name o = op_Name b) &&
  bool_decide (op_AuthorID o = op_AuthorID b) &&
  bool_decide (op_Timestamp o = op_Timestamp b) &&
  bool_decide (op_Size o = op_Size b) &&
  bool_decide (op_Note o = op_Note b).

(** The flatbuffers table of an operation (logfb.Operation). *)
Record FbOperation : Type := mkFbOperation {
  fbo_type : Z;
  fbo_model : Z;
  fbo_ref : string;
  fbo_relations : list string;
  fbo_prev : string;
  fbo_name : string;
  fbo_authorID : string;
  fbo_timestamp : Z;
  fbo_size : Z;
  fbo_note : string;
}.

(** [Op.MarshalFlatbuffer]: the table the calls to the builder describe. *)
Definition Op_MarshalFlatbuffer (o : Op) : FbOperation :=
  mkFbOperation (op_Type o) (op_Model o) (op_Ref o) (op_Relations o) (op_Prev o)
    (op_Name o) (op_AuthorID o) (op_Timestamp o) (op_Size o) (op_Note o).

(** [UnmarshalOpFlatbuffer] *)
Definition UnmarshalOpFlatbuffer (o : FbOperation) : Op :=
  mkOp (fbo_type o) (fbo_model o) (fbo_ref o) (fbo_prev o) (fbo_relations o)
    (fbo_name o) (fbo_authorID o) (fbo_timestamp o) (fbo_size o) (fbo_note o).

(** What [Op.Hash] takes from outside the repository: the bytes the
    flatbuffers builder finishes for a table, and blake2b-256. *)
Class OpDigest : Type := {
  fb_finish_Operation : FbOperation → string;
  blake2b_Sum256 : string → string;
}.

(** The one law the development uses: a blake2b-256 sum has 32 bytes. *)
Class OpDigestLaws (D : OpDigest) : Prop :=
  sum256_length : ∀ data, String.length (blake2b_Sum256 data) = 32.

(** [Op.Hash] *)
Definition Hash `{OpDigest} (o : Op) : string :=
  base32_encode (blake2b_Sum256 (fb_finish_Operation (Op_MarshalFlatbuffer o))).

(** ** Logs *)

(** What a log's unexported [parent] pointer points at: nothing, the node
    above it in the tree, or a sparse copy of its ancestors made by
    [GetWithSparseAncestorsAllDescendants]. *)
Inductive parent_link : Type :=
| NoParent
| TreeParent
| SparseParent (sp_ParentID : string) (sp_Ops : list Op)
               (sp_Signature : string) (sp_parent : parent_link).

(** [type Log struct]; a nil [Signature] is the empty string. *)
Inductive Log : Type := mkLog {
  lg_name : string;
  lg_authorID : string;
  lg_parent : parent_link;
  lg_ParentID : string;
  lg_Signature : string;
  lg_Ops : list Op;
  lg_Logs : list Log;
}.

Fixpoint Log_ind' (P : Log → Prop)
  (H : ∀ lg, Forall P (lg_Logs lg) → P lg) (lg : Log) : P lg :=
  H lg ((fix go (ls : list Log) : Forall P ls :=
    match ls with
    | [] => Forall_nil_2 P
    | l :: ls' => Forall_cons_2 P l ls' (Log_ind' P H l) (go ls')
    end) (lg_Logs lg)).

Definition set_Ops (ops : list Op) (lg : Log) : Log :=
  mkLog (lg_name lg) (lg_authorID lg) (lg_parent lg) (lg_ParentID lg)
        (lg_Signature lg) ops (lg_Logs lg).
Definition set_Logs (ls : list Log) (lg : Log) : Log :=
  mkLog (lg_name lg) (lg_authorID lg) (lg_parent lg) (lg_ParentID lg)
        (lg_Signature lg) (lg_Ops lg) ls.
Definition set_Signature (sig : string) (lg : Log) : Log :=
  mkLog (lg_name lg) (lg_authorID lg) (lg_parent lg) (lg_ParentID lg)
        sig (lg_Ops lg) (lg_Logs lg).
Definition set_parent (p : parent_link) (lg : Log) : Log :=
  mkLog (lg_name lg) (lg_authorID lg) p (lg_ParentID lg)
        (lg_Signature lg) (lg_Ops lg) (lg_Logs lg).
Definition set_ParentID (id : string) (lg : Log) : Log :=
  mkLog (lg_name lg) (lg_authorID lg) (lg_parent lg) id
        (lg_Signature lg) (lg_Ops lg) (lg_Logs lg).
Definition set_cache (name author : string) (lg : Log) : Log :=
  mkLog name author (lg_parent lg) (lg_ParentID lg)
        (lg_Signature lg) (lg_Ops lg) (lg_Logs lg).

(** [InitLog] *)
Definition InitLog (initop : Op) : Log := mkLog "" "" NoParent "" "" [initop] [].

(** [Log.Model]: the model of the first operation; panics without one. *)
Definition Model (lg : Log) : outcome Z :=
  match lg_Ops lg with o :: _ => Ok (op_Model o) | [] => Panic end.

(** [Log.Head] *)
Definition Head (lg : Log) : Op := default zero_Op (last (lg_Ops lg)).

(** [Log.Append]: adds an operation, keeping the name and author caches in
    step when the operation is of the log's own model. *)
Definition Append (op : Op) (lg : Log) : outcome Log :=
  m ← Model lg;
  let lg1 :=
    if decide (op_Model op = m) then
      set_cache (if decide (op_Name op = "") then lg_name lg else op_Name op)
                (if decide (op_AuthorID op = "") then lg_authorID lg else op_AuthorID op) lg
    else lg in
  Ok (set_Ops (lg_Ops lg ++ [op]) lg1).

(** The loops of [Log.Name] and [Log.Author]: the field of the last operation
    of model [m] that has it, starting from [acc]. *)
Definition last_field (f : Op → string) (m : Z) (ops : list Op) (acc : string) : string :=
  fold_left (λ acc o,
    if decide (op_Model o = m ∧ f o ≠ "") then f o else acc) ops acc.

(** [Log.Author] *)
Definition Author (lg : Log) : outcome string :=
  if decide (lg_authorID lg = "") then
    m ← Model lg; Ok (last_field op_AuthorID m (lg_Ops lg) "")
  else Ok (lg_authorID lg).

(** [Log.Name] *)
Definition Name (lg : Log) : outcome string :=
  if decide (lg_name lg = "") then
    m ← Model lg; Ok (last_field op_Name m (lg_Ops lg) "")
  else Ok (lg_name lg).

(** [Log.FirstOpAuthorID] *)
Definition FirstOpAuthorID (lg : Log) : outcome string :=
  m ← Model lg;
  Ok (match find_index_from
              (λ o, bool_decide (op_Model o = m ∧ op_AuthorID o ≠ "")) 0 (lg_Ops lg) with
      | Some (_, o) => op_AuthorID o
      | None => ""
      end).

(** [Log.Removed] *)
Definition Removed (lg : Log) : outcome bool :=
  m ← Model lg;
  Ok (existsb (λ o, bool_decide (op_Model o = m ∧ op_Type o = OpTypeRemove)) (lg_Ops lg)).

(** ** Pointers into a forest of logs *)
Abbreviation addr := (list nat).

Fixpoint lookup_addr (a : addr) (ls : list Log) : option Log :=
  match a with
  | [] => None
  | i :: a' =>
      lg ← ls !! i;
      match a' with [] => Some lg | _ => lookup_addr a' (lg_Logs lg) end
  end.

Fixpoint alter_addr (f : Log → Log) (a : addr) (ls : list Log) : list Log :=
  match a with
  | [] => ls
  | i :: a' =>
      alter (λ lg, match a' with
                   | [] => f lg
                   | _ => set_Logs (alter_addr f a' (lg_Logs lg)) lg
                   end) i ls
  end.

(** A loop over a slice of logs that returns the address the body finds. *)
Definition find_addr (f : Log → option addr) : nat → list Log → option addr :=
  fix go i ls :=
    match ls with
    | [] => None
    | l :: ls' => match f l with Some a => Some (i :: a) | None => go (S i) ls' end
    end.

(** [find_headref]: the first log in the slice that has the name and is not
    removed. *)
Fixpoint find_named (n : string) (i : nat) (ls : list Log) : outcome (option (nat * Log)) :=
  match ls with
  | [] => Ok None
  | l :: ls' =>
      nm ← Name l;
      if decide (nm = n) then
        r ← Removed l;
        if (r : bool) then find_named n (S i) ls' else Ok (Some (i, l))
      else find_named n (S i) ls'
  end.

Definition ErrNotFound : error := ErrSentinel "log: not found".

(** [Log.HeadRef] as a walk down the children, and the same loop of
    [Journal.HeadRef] over the top-level logs. *)
Fixpoint headref_addr (names : list string) (ls : list Log) : outcome addr :=
  match names with
  | [] => Ok []
  | n :: ns =>
      found ← find_named n 0 ls;
      match found with
      | None => Error ErrNotFound
      | Some (i, l) =>
          match ns with
          | [] => Ok [i]
          | _ => a ← headref_addr ns (lg_Logs l); Ok (i :: a)
          end
      end
  end.

Section digest.
Context `{OpDigest}.

(** [Log.ID] *)
Definition ID (lg : Log) : string :=
  match lg_Ops lg with [] => "" | o :: _ => Hash o end.

(** [Log.Log]: the address of the first node, in pre-order, with the ID. *)
Fixpoint Log_Log (id : string) (lg : Log) : option addr :=
  if decide (ID lg = id) then Some []
  else find_addr (Log_Log id) 0 (lg_Logs lg).

(** [Log.AddChild] *)
Definition AddChild (l lg : Log) : Log :=
  let l' := set_parent TreeParent (set_ParentID (ID lg) l) in
  match find_index_from (λ ch, bool_decide (ID ch = ID l)) 0 (lg_Logs lg) with
  | Some (i, ch) =>
      if decide (length (lg_Ops ch) < length (lg_Ops l))
      then set_Logs (<[i := l']> (lg_Logs lg)) lg else lg
  | None => set_Logs (lg_Logs lg ++ [l']) lg
  end.

(** The inner loop of [Log.Merge]: the position of the first child of [ls]
    whose first operation equals the first operation of [x]. *)
Fixpoint find_same_init (x : Log) (j : nat) (ls : list Log) : outcome (option nat) :=
  match ls with
  | [] => Ok None
  | y :: ls' =>
      match lg_Ops x, lg_Ops y with
      | ox :: _, oy :: _ => if Op_Equal ox oy then Ok (Some j) else find_same_init x (S j) ls'
      | _, _ => Panic
      end
  end.

(** The first statement of [Log.Merge]: take the longer operation list and
    clear the caches. *)
Definition merge_ops (l lg : Log) : Log :=
  if decide (length (lg_Ops lg) < length (lg_Ops l))
  then set_Signature "" (set_cache "" "" (set_Ops (lg_Ops l) lg)) else lg.

(** [Log.Merge]: [Merge l lg] is [lg.Merge(l)]. It changes [lg] as it goes; what
    is left of [lg] when a log without operations makes it panic is not modelled. *)
Fixpoint Merge (l lg : Log) {struct l} : outcome Log :=
  (fix loop (xs : list Log) (lg : Log) {struct xs} : outcome Log :=
    match xs with
    | [] => Ok lg
    | x :: xs' =>
        found ← find_same_init x 0 (lg_Logs lg);
        match found with
        | Some j =>
            match lg_Logs lg !! j with
            | Some y => y' ← Merge x y; loop xs' (set_Logs (<[j := y']> (lg_Logs lg)) lg)
            | None => Panic
            end
        | None => loop xs' (AddChild x lg)
        end
    end) (lg_Logs l) (merge_ops l lg).

(** The loop of [Log.Merge] over the incoming children, named. *)
Fixpoint merge_children (xs : list Log) (lg : Log) : outcome Log :=
  match xs with
  | [] => Ok lg
  | x :: xs' =>
      found ← find_same_init x 0 (lg_Logs lg);
      match found with
      | Some j =>
          match lg_Logs lg !! j with
          | Some y => y' ← Merge x y; merge_children xs' (set_Logs (<[j := y']> (lg_Logs lg)) lg)
          | None => Panic
          end
      | None => merge_children xs' (AddChild x lg)
      end
  end.

Lemma Merge_unfold l lg : Merge l lg = merge_children (lg_Logs l) (merge_ops l lg).
Proof.
  destruct l as [n a p pid s ops ls]. cbn [Merge lg_Logs].
  generalize (merge_ops (mkLog n a p pid s ops ls) lg) as lg'.
  induction ls as [|x ls IH]; intros lg'; [done|]. cbn [merge_children].
  destruct (find_same_init x 0 (lg_Logs lg')) as [[j|]| |]; cbn; [| |done|done].
  - destruct (lg_Logs lg' !! j); [|done].
    destruct (Merge x _) as [y'| |]; cbn; [|done|done]. apply IH.
  - apply IH.
Qed.
End digest.

(** [P] at every node of a log tree. *)
Inductive Log_Forall (P : Log → Prop) (lg : Log) : Prop :=
  Log_Forall_intro : P lg → Forall (Log_Forall P) (lg_Logs lg) → Log_Forall P lg.

(** A log a book can hold: every node has its initialisation operation. *)
Definition has_init (lg : Log) : Prop := lg_Ops lg ≠ [].
Definition wf_log (lg : Log) : Prop := Log_Forall has_init lg.
