(* ===== verification/OplogFacts.v ===== *)
(** * Facts about logs: caches, merging

    The invariants of single logs: the name and author caches never change
    what a log answers, and merging two replicas of a log yields the least log
    that extends both. *)
From S2P Require Export Oplog.

(** ** Operations *)
Lemma Op_Equal_refl o : Op_Equal o o = true.
Proof. unfold Op_Equal. by rewrite !bool_decide_true. Qed.

Lemma Op_Equal_spec o b :
  Op_Equal o b = true ↔
    mkOp (op_Type o) (op_Model o) (op_Ref o) (op_Prev o) [] (op_Name o)
         (op_AuthorID o) (op_Timestamp o) (op_Size o) (op_Note o) =
    mkOp (op_Type b) (op_Model b) (op_Ref b) (op_Prev b) [] (op_Name b)
         (op_AuthorID b) (op_Timestamp b) (op_Size b) (op_Note b) ∧
    length (op_Relations o) = length (op_Relations b).
Proof.
  unfold Op_Equal. rewrite !andb_true_iff, !bool_decide_eq_true.
  split; [|intros [[=] ?]; tauto].
  intros H; decompose [and] H. split; [|done]. by f_equal.
Qed.

Lemma Op_Equal_sym o b : Op_Equal o b = true → Op_Equal b o = true.
Proof. rewrite !Op_Equal_spec. by intros [-> ->]. Qed.

Lemma Op_Equal_trans o b c : Op_Equal o b = true → Op_Equal b c = true → Op_Equal o c = true.
Proof. rewrite !Op_Equal_spec. by intros [-> ->]. Qed.

(** ** Caches *)
Lemma last_field_app f m ops ops' acc :
  last_field f m (ops ++ ops') acc = last_field f m ops' (last_field f m ops acc).
Proof. apply fold_left_app. Qed.

(** The cache of a field is transparent when it is empty or agrees with the
    operations. *)
Definition cache_ok (cache : string) (f : Op → string) (ops : list Op) : Prop :=
  cache = "" ∨ ∃ o ops', ops = o :: ops' ∧ cache = last_field f (op_Model o) ops "".

Definition caches_ok (lg : Log) : Prop :=
  cache_ok (lg_name lg) op_Name (lg_Ops lg) ∧
  cache_ok (lg_authorID lg) op_AuthorID (lg_Ops lg).

(** What [Name] and [Author] answer without a cache. *)
Definition computed (f : Op → string) (lg : Log) : outcome string :=
  m ← Model lg; Ok (last_field f m (lg_Ops lg) "").

Lemma Name_computed lg : cache_ok (lg_name lg) op_Name (lg_Ops lg) → Name lg = computed op_Name lg.
Proof.
  unfold Name, computed, Model. intros [->|(o & ops & Hops & Hc)]; [done|].
  case_decide; [done|]. rewrite Hops. cbn [mbind outcome_bind]. by rewrite Hc, Hops.
Qed.

Lemma Author_computed lg :
  cache_ok (lg_authorID lg) op_AuthorID (lg_Ops lg) → Author lg = computed op_AuthorID lg.
Proof.
  unfold Author, computed, Model. intros [->|(o & ops & Hops & Hc)]; [done|].
  case_decide; [done|]. rewrite Hops. cbn [mbind outcome_bind]. by rewrite Hc, Hops.
Qed.

Lemma last_field_same_model f m ops op :
  op_Model op = m → f op ≠ "" → last_field f m (ops ++ [op]) "" = f op.
Proof. intros Hm Hf. rewrite last_field_app. cbn. by rewrite decide_True. Qed.

Lemma last_field_other f m ops op :
  op_Model op ≠ m ∨ f op = "" → last_field f m (ops ++ [op]) "" = last_field f m ops "".
Proof. intros H. rewrite last_field_app. cbn. rewrite decide_False; [done|naive_solver]. Qed.

Lemma cache_ok_append cache f ops op o ops' :
  ops = o :: ops' → cache_ok cache f ops →
  cache_ok (if decide (op_Model op = op_Model o) then if decide (f op = "") then cache else f op
            else cache) f (ops ++ [op]).
Proof.
  intros -> Hc. unfold cache_ok.
  assert (op_Model op ≠ op_Model o ∨ f op = "" → cache_ok cache f ((o :: ops') ++ [op])) as Hkeep.
  { intros Hop. destruct Hc as [->|(o1 & ops1 & [= <- <-] & ->)]; [by left|].
    right. exists o, (ops' ++ [op]). split; [done|]. by rewrite last_field_other. }
  repeat case_decide; try (apply Hkeep; tauto).
  right. exists o, (ops' ++ [op]). split; [done|]. by rewrite last_field_same_model.
Qed.

Lemma Append_Ok lg op lg' :
  Append op lg = Ok lg' ↔
    ∃ o ops', lg_Ops lg = o :: ops' ∧
      lg' = set_Ops (lg_Ops lg ++ [op])
        (if decide (op_Model op = op_Model o) then
           set_cache (if decide (op_Name op = "") then lg_name lg else op_Name op)
             (if decide (op_AuthorID op = "") then lg_authorID lg else op_AuthorID op) lg
         else lg).
Proof.
  unfold Append, Model. destruct (lg_Ops lg) as [|o ops]; cbn; [naive_solver|].
  naive_solver.
Qed.

Lemma Append_caches_ok lg op lg' : caches_ok lg → Append op lg = Ok lg' → caches_ok lg'.
Proof.
  intros [Hn Ha] (o & ops & Hops & ->)%Append_Ok. split; cbn.
  - pose proof (cache_ok_append _ _ _ op o ops Hops Hn) as H. by case_decide.
  - pose proof (cache_ok_append _ _ _ op o ops Hops Ha) as H. by case_decide.
Qed.

Lemma merge_ops_caches_ok l lg : caches_ok lg → caches_ok (merge_ops l lg).
Proof. unfold merge_ops. case_decide; [|done]. split; by left. Qed.

Section digest.
Context `{OpDigest}.

Lemma ID_first lg o ops : lg_Ops lg = o :: ops → ID lg = Hash o.
Proof. unfold ID. by intros ->. Qed.

Lemma ID_nonempty `{!OpDigestLaws _} lg : has_init lg → ID lg ≠ "".
Proof.
  unfold has_init, ID. destruct (lg_Ops lg) as [|o ops]; [done|]. intros _ Hid.
  apply (f_equal String.length) in Hid. unfold Hash in Hid.
  rewrite base32_encode_length, sum256_length in Hid. discriminate.
Qed.

Lemma Append_ID lg op lg' : Append op lg = Ok lg' → ID lg' = ID lg.
Proof.
  intros (o & ops & Hops & ->)%Append_Ok. unfold ID. cbn. rewrite Hops. done.
Qed.

(** ** The order of replicas: [extends a b] when [b] holds every operation of
    [a], in the same order, at the same place of the hierarchy. *)
Fixpoint extends (a b : Log) : Prop :=
  lg_Ops a ≠ [] ∧ lg_Ops a `prefix_of` lg_Ops b ∧
  (fix go (xs : list Log) : Prop :=
    match xs with
    | [] => True
    | x :: xs' => (∃ y, y ∈ lg_Logs b ∧ extends x y) ∧ go xs'
    end) (lg_Logs a).

Lemma extends_alt a b :
  extends a b ↔ lg_Ops a ≠ [] ∧ lg_Ops a `prefix_of` lg_Ops b ∧
    ∀ x, x ∈ lg_Logs a → ∃ y, y ∈ lg_Logs b ∧ extends x y.
Proof.
  destruct a as [n au p pid s ops ls]. cbn [extends lg_Ops lg_Logs].
  apply and_iff_compat_l, and_iff_compat_l.
  induction ls as [|x ls IH]; [set_solver|]. rewrite IH. set_solver.
Qed.

(** Siblings are told apart by their initialisation operation and by its hash. *)
Definition same_init (x y : Log) : Prop :=
  ∃ ox xs oy ys, lg_Ops x = ox :: xs ∧ lg_Ops y = oy :: ys ∧ Op_Equal ox oy = true.

Definition siblings_ok (lg : Log) : Prop :=
  ∀ i j x y, lg_Logs lg !! i = Some x → lg_Logs lg !! j = Some y →
    same_init x y ∨ ID x = ID y → i = j.

Lemma same_init_sym x y : same_init x y → same_init y x.
Proof. intros (ox & xs & oy & ys & Hx & Hy & H1). exists oy, ys, ox, xs. auto using Op_Equal_sym. Qed.

Lemma same_init_trans x y z : same_init x y → same_init y z → same_init x z.
Proof.
  intros (ox & xs & oy & ys & Hx & Hy & H1) (oy' & ys' & oz & zs & Hy' & Hz & H2).
  simplify_eq/=. assert (oy' = oy) as -> by congruence.
  exists ox, xs, oz, zs. eauto using Op_Equal_trans.
Qed.

Lemma extends_first a b : extends a b → ∃ o xs ys, lg_Ops a = o :: xs ∧ lg_Ops b = o :: ys.
Proof.
  rewrite extends_alt. intros (Hne & [k Hk] & _).
  destruct (lg_Ops a) as [|o xs]; [done|]. rewrite Hk. eauto.
Qed.

Lemma extends_same_init a b : extends a b → same_init a b.
Proof.
  intros (o & xs & ys & Ha & Hb)%extends_first.
  exists o, xs, o, ys. auto using Op_Equal_refl.
Qed.

Lemma extends_ID a b : extends a b → ID a = ID b.
Proof. intros (o & xs & ys & Ha & Hb)%extends_first. unfold ID. by rewrite Ha, Hb. Qed.

(** [extends] sees only the operations and the children. *)
Lemma extends_same_data a a' b b' :
  lg_Ops a = lg_Ops a' → lg_Logs a = lg_Logs a' →
  lg_Ops b = lg_Ops b' → lg_Logs b = lg_Logs b' → extends a b → extends a' b'.
Proof.
  rewrite !extends_alt. intros -> -> -> ->. done.
Qed.

Lemma extends_trans a b c : extends a b → extends b c → extends a c.
Proof.
  revert b c. induction a as [a IH] using Log_ind'. intros b c Hab Hbc.
  apply extends_alt in Hab as (Hne & Hpre & Hch).
  apply extends_alt in Hbc as (Hne' & Hpre' & Hch').
  apply extends_alt. split_and!; [done|by etrans|].
  intros x Hx. destruct (Hch x Hx) as (y & Hy & Hxy).
  destruct (Hch' y Hy) as (z & Hz & Hyz). exists z. split; [done|].
  rewrite Forall_forall in IH. by apply (IH x Hx y z).
Qed.

Lemma extends_refl a : wf_log a → extends a a.
Proof.
  induction a as [a IH] using Log_ind'. intros [Hi Hch]. apply extends_alt.
  split_and!; [done|done|]. intros x Hx. exists x. split; [done|].
  rewrite Forall_forall in IH, Hch. apply IH; [done|by apply Hch].
Qed.

(** Two logs below one child each of a common upper bound whose first
    operations agree are below the same child. *)
Lemma siblings_ok_join u xu yu x y :
  siblings_ok u → xu ∈ lg_Logs u → yu ∈ lg_Logs u → extends x xu → extends y yu →
  same_init x y ∨ ID x = ID y → xu = yu.
Proof.
  intros Hu [i Hi]%list_elem_of_lookup [j Hj]%list_elem_of_lookup Hx Hy Hxy.
  assert (i = j) as ->; [|congruence].
  apply (Hu i j xu yu Hi Hj). destruct Hxy as [Hxy|Hxy].
  - left. apply (same_init_trans _ x); [by apply same_init_sym, extends_same_init|].
    apply (same_init_trans _ y); [done|by apply extends_same_init].
  - right. by rewrite <- (extends_ID _ _ Hx), <- (extends_ID _ _ Hy).
Qed.
Lemma extends_wf_l a b : extends a b → wf_log a.
Proof.
  revert b. induction a as [a IH] using Log_ind'. intros b Hab.
  apply extends_alt in Hab as (Hne & _ & Hch). constructor; [done|].
  rewrite Forall_forall in IH |- *. intros x Hx.
  destruct (Hch x Hx) as (y & _ & Hxy). by eapply IH.
Qed.

Lemma extends_refl_l a b : extends a b → extends a a.
Proof. intros Hab. by eapply extends_refl, extends_wf_l. Qed.

(** ** Merging *)
Definition merge_spec (l : Log) : Prop :=
  ∀ lg u, Log_Forall siblings_ok u → extends lg u → extends l u →
    ∃ m, Merge l lg = Ok m ∧ extends lg m ∧ extends l m ∧ extends m u.

Lemma merge_ops_upper l lg u :
  extends lg u → extends l u →
  extends lg (merge_ops l lg) ∧ extends (merge_ops l lg) u ∧
  lg_Ops l `prefix_of` lg_Ops (merge_ops l lg).
Proof.
  intros Hlg Hl. pose proof (extends_refl_l _ _ Hlg) as Hrefl.
  rewrite !extends_alt in *. unfold merge_ops.
  destruct Hlg as (Hne & Hpre & Hch), Hl as (Hne' & Hpre' & Hch'), Hrefl as (_ & _ & Hr).
  destruct (prefix_weak_total _ _ _ Hpre Hpre') as [Hp|Hp];
    pose proof (prefix_length _ _ Hp); case_decide; cbn; split_and!;
    try done; try lia; try reflexivity.
  by rewrite (prefix_length_eq _ _ Hp ltac:(lia)).
Qed.

Lemma find_same_init_Ok x j ls :
  has_init x → Forall has_init ls →
  ∃ r, find_same_init x j ls = Ok r ∧
    match r with
    | Some k => ∃ i y, k = j + i ∧ ls !! i = Some y ∧ same_init x y
    | None => ∀ y, y ∈ ls → ¬ same_init x y
    end.
Proof.
  unfold has_init. intros Hx. destruct (lg_Ops x) as [|ox xs] eqn:Hox; [done|].
  revert j. induction ls as [|y ls IH]; intros j Hls; cbn.
  { eexists; split; [done|]. set_solver. }
  apply Forall_cons in Hls as [Hy Hls]. rewrite Hox.
  destruct (lg_Ops y) as [|oy ys] eqn:Hoy; [done|].
  destruct (Op_Equal ox oy) eqn:Heq.
  - eexists; split; [done|]. exists 0, y. split_and!; [lia|done|].
    exists ox, xs, oy, ys. done.
  - destruct (IH (S j) Hls) as ([k|] & Hk & Hspec); eexists; (split; [done|]).
    + destruct Hspec as (i & z & -> & Hz & Hsame). exists (S i), z.
      split_and!; [lia|done|done].
    + intros z [->|Hz]%elem_of_cons; [|by apply Hspec].
      intros (ox' & xs' & oy' & ys' & Hx' & Hy' & He).
      assert (ox' = ox) as -> by congruence. assert (oy' = oy) as -> by congruence.
      congruence.
Qed.

Lemma extends_children_init a b : extends a b → Forall has_init (lg_Logs a).
Proof.
  intros Hab%extends_wf_l. destruct Hab as [_ Hch].
  eapply Forall_impl; [done|]. by intros x [Hx _].
Qed.

(** Replacing a child by one that extends it. *)
Lemma extends_insert_child lg u j y y' w :
  extends lg u → lg_Logs lg !! j = Some y → extends y y' → w ∈ lg_Logs u → extends y' w →
  extends lg (set_Logs (<[j := y']> (lg_Logs lg)) lg) ∧
  extends (set_Logs (<[j := y']> (lg_Logs lg)) lg) u.
Proof.
  intros Hlg Hj Hy Hw Hyw. pose proof (extends_refl_l _ _ Hlg) as Hrefl.
  apply extends_alt in Hlg as (Hne & Hpre & Hch).
  apply extends_alt in Hrefl as (_ & _ & Hr).
  split; apply extends_alt; cbn; split_and!; try done.
  - intros x [i Hi]%list_elem_of_lookup. destruct (decide (i = j)) as [->|Hij].
    + assert (x = y) as -> by congruence. exists y'. split; [|done]. apply list_elem_of_lookup. exists j.
      apply list_lookup_insert_eq. by eapply lookup_lt_Some.
    + exists x. split.
      * apply list_elem_of_lookup. exists i. by rewrite list_lookup_insert_ne.
      * destruct (Hr x) as (z & _ & Hxz); [apply list_elem_of_lookup; eauto|].
        by eapply extends_refl_l.
  - intros x [i Hi]%list_elem_of_lookup. destruct (decide (i = j)) as [->|Hij].
    + rewrite list_lookup_insert_eq in Hi by (by eapply lookup_lt_Some). naive_solver.
    + rewrite list_lookup_insert_ne in Hi by done. apply Hch, list_elem_of_lookup. eauto.
Qed.

(** Adding a child that has no sibling with its first operation. *)
Lemma AddChild_fresh x lg :
  (∀ ch, ch ∈ lg_Logs lg → ID ch ≠ ID x) →
  AddChild x lg = set_Logs (lg_Logs lg ++ [set_parent TreeParent (set_ParentID (ID lg) x)]) lg.
Proof.
  intros Hfresh. unfold AddChild.
  rewrite (proj2 (find_index_from_None _ _ _)); [done|].
  intros ch Hch. rewrite bool_decide_eq_false. by apply Hfresh.
Qed.

Lemma extends_AddChild x lg u w :
  extends lg u → w ∈ lg_Logs u → extends x w →
  (∀ ch, ch ∈ lg_Logs lg → ID ch ≠ ID x) →
  extends lg (AddChild x lg) ∧ extends (AddChild x lg) u ∧
  ∃ y, y ∈ lg_Logs (AddChild x lg) ∧ extends x y.
Proof.
  intros Hlg Hw Hx Hfresh. rewrite AddChild_fresh by done.
  pose proof (extends_refl_l _ _ Hlg) as Hrefl.
  set (x' := set_parent _ _).
  assert (extends x' w) as Hx' by (by apply (extends_same_data x _ w)).
  assert (extends x x') as Hxx'.
  { apply (extends_same_data x _ x); [done..|]. by eapply extends_refl_l. }
  apply extends_alt in Hlg as (Hne & Hpre & Hch).
  apply extends_alt in Hrefl as (_ & _ & Hr).
  split_and!; [apply extends_alt; cbn; split_and!; [done..|]
              |apply extends_alt; cbn; split_and!; [done..|]|].
  - intros z Hz. destruct (Hr z Hz) as (z' & Hz' & Hzz'). exists z'. split; [set_solver|done].
  - intros z [Hz| ->%list_elem_of_singleton]%elem_of_app; eauto.
  - exists x'. set_solver.
Qed.

(** One round of the loop of [Merge]: a child with the same first operation is
    merged in place, any other is added. *)
Definition child_merged (x lg w lg1 : Log) : Prop :=
  (∃ j y y', lg_Logs lg !! j = Some y ∧ Merge x y = Ok y' ∧ extends y w ∧
     extends y y' ∧ extends x y' ∧ extends y' w ∧ lg1 = set_Logs (<[j:=y']> (lg_Logs lg)) lg) ∨
  ((∀ ch, ch ∈ lg_Logs lg → ¬ same_init x ch ∧ ID ch ≠ ID x) ∧ lg1 = AddChild x lg).

Lemma merge_child x lg u w :
  Log_Forall siblings_ok u → merge_spec x → extends lg u → w ∈ lg_Logs u → extends x w →
  ∃ lg1, child_merged x lg w lg1 ∧
    ∀ xs, merge_children (x :: xs) lg = merge_children xs lg1.
Proof.
  intros Hu Hspec Hlg Hw Hxw. pose proof Hlg as (_ & _ & Hch)%extends_alt.
  destruct (find_same_init_Ok x 0 (lg_Logs lg)) as ([k|] & Hfind & Hfound).
  { by apply extends_wf_l in Hxw as []. } { by eapply extends_children_init. }
  - destruct Hfound as (j & y & -> & Hj & Hsame). cbn in Hfind.
    assert (y ∈ lg_Logs lg) as Hy by (apply list_elem_of_lookup; eauto).
    destruct (Hch y Hy) as (yu & Hyu & Hyyu).
    assert (w = yu) as <- by (destruct Hu; eapply siblings_ok_join; eauto).
    destruct (Hspec y w) as (y' & Hrun & Hyy' & Hxy' & Hy'w); [|done..|].
    { destruct Hu as [_ Hu]. rewrite Forall_forall in Hu. auto. }
    exists (set_Logs (<[j:=y']> (lg_Logs lg)) lg). split; [left; eauto 12|].
    intros xs. cbn [merge_children]. rewrite Hfind. cbn. by rewrite Hj, Hrun.
  - exists (AddChild x lg). split.
    + right. split; [|done]. intros ch Hcl. split; [by apply Hfound|]. intros Hid.
      destruct (Hch ch Hcl) as (cu & Hcu & Hchcu).
      assert (w = cu) as <-.
      { destruct Hu. eapply siblings_ok_join; eauto. }
      apply (Hfound ch Hcl). eapply same_init_trans; [by apply extends_same_init|].
      by apply same_init_sym, extends_same_init.
    + intros xs. cbn [merge_children]. by rewrite Hfind.
Qed.

Lemma child_merged_upper x lg u w lg1 :
  extends lg u → w ∈ lg_Logs u → extends x w → child_merged x lg w lg1 →
  extends lg lg1 ∧ extends lg1 u ∧ lg_Ops lg1 = lg_Ops lg ∧
  ∃ y, y ∈ lg_Logs lg1 ∧ extends x y.
Proof.
  intros Hlg Hw Hxw [(j & y & y' & Hj & _ & _ & Hyy' & Hxy' & Hy'w & ->)|[Hfresh ->]].
  - destruct (extends_insert_child lg u j y y' w) as [? ?]; [done..|].
    split_and!; [done..|]. exists y'. split; [|done]. apply list_elem_of_lookup. exists j. cbn.
    apply list_lookup_insert_eq. by eapply lookup_lt_Some.
  - assert (∀ ch, ch ∈ lg_Logs lg → ID ch ≠ ID x) as Hids by (intros ch Hc; by apply Hfresh).
    destruct (extends_AddChild x lg u w) as (? & ? & ?); [done..|].
    split_and!; [done|done|by rewrite AddChild_fresh|done].
Qed.

Lemma merge_children_lub xs lg u :
  Log_Forall siblings_ok u → (∀ x, x ∈ xs → merge_spec x) → extends lg u →
  (∀ x, x ∈ xs → ∃ w, w ∈ lg_Logs u ∧ extends x w) →
  ∃ m, merge_children xs lg = Ok m ∧ lg_Ops m = lg_Ops lg ∧ extends lg m ∧
    (∀ x, x ∈ xs → ∃ y, y ∈ lg_Logs m ∧ extends x y) ∧ extends m u.
Proof.
  intros Hu. revert lg. induction xs as [|x xs IHxs]; intros lg Hspec Hlg Hxs.
  { exists lg. split_and!; [done|done|by eapply extends_refl_l|set_solver|done]. }
  destruct (Hxs x ltac:(left)) as (w & Hw & Hxw).
  destruct (merge_child x lg u w Hu (Hspec x ltac:(left)) Hlg Hw Hxw) as (lg1 & Hstep & Hrun).
  destruct (child_merged_upper x lg u w lg1 Hlg Hw Hxw Hstep) as (H1 & H2 & Hops & H3).
  destruct (IHxs lg1) as (m & Hm & Hmops & Hlm & Hxsm & Hmu); [set_solver|done|set_solver|].
  exists m. split_and!.
  - by rewrite Hrun.
  - congruence.
  - by eapply extends_trans.
  - intros z [->|Hz]%elem_of_cons; [|by apply Hxsm].
    destruct H3 as (y & Hy & Hxy). apply extends_alt in Hlm as (_ & _ & Hlm).
    destruct (Hlm y Hy) as (y2 & Hy2 & Hyy2). exists y2. eauto using extends_trans.
  - done.
Qed.

Lemma Merge_lub l : merge_spec l.
Proof.
  induction l as [l IH] using Log_ind'. intros lg u Hu Hlg Hl. rewrite Merge_unfold.
  destruct (merge_ops_upper l lg u) as (Hm1 & Hm2 & Hm3); [done..|].
  destruct (merge_children_lub (lg_Logs l) (merge_ops l lg) u)
    as (m & Hm & Hops & Hlm & Hch & Hmu); [done|by apply Forall_forall|done| |].
  { by apply extends_alt in Hl as (_ & _ & ?). }
  exists m. split_and!; [done|by eapply extends_trans| |done].
  apply extends_alt. apply extends_alt in Hl as (Hne & _ & _).
  split_and!; [done|by rewrite Hops|done].
Qed.

(** ** Merging keeps siblings apart *)
Lemma siblings_ok_same x1 y1 x2 y2 :
  extends x1 x2 → extends y1 y2 → same_init x2 y2 ∨ ID x2 = ID y2 → same_init x1 y1 ∨ ID x1 = ID y1.
Proof.
  intros Hx Hy [Hs|Hid].
  - left. apply (same_init_trans _ x2); [by apply extends_same_init|].
    apply (same_init_trans _ y2); [done|by apply same_init_sym, extends_same_init].
  - right. by rewrite (extends_ID _ _ Hx), (extends_ID _ _ Hy).
Qed.

Lemma siblings_ok_insert lg j y y' :
  wf_log lg → siblings_ok lg → lg_Logs lg !! j = Some y → extends y y' →
  siblings_ok (set_Logs (<[j:=y']> (lg_Logs lg)) lg).
Proof.
  intros Hwf Hs Hj Hyy'.
  assert (∀ i x, <[j:=y']> (lg_Logs lg) !! i = Some x →
    ∃ x0, lg_Logs lg !! i = Some x0 ∧ extends x0 x) as Hback.
  { intros i x. destruct (decide (i = j)) as [->|Hij].
    - rewrite list_lookup_insert_eq by (by eapply lookup_lt_Some). intros [= <-]. eauto.
    - rewrite list_lookup_insert_ne by done. intros Hx. exists x. split; [done|].
      apply extends_refl. destruct Hwf as [_ Hch]. rewrite Forall_lookup in Hch. by eapply Hch. }
  intros i k x z Hx Hz Hxz. cbn in Hx, Hz.
  apply Hback in Hx as (x0 & Hx0 & Hxx), Hz as (z0 & Hz0 & Hzz).
  apply (Hs i k x0 z0); [done..|]. by eapply siblings_ok_same.
Qed.

Lemma siblings_ok_AddChild lg x :
  siblings_ok lg → (∀ ch, ch ∈ lg_Logs lg → ¬ same_init x ch ∧ ID ch ≠ ID x) →
  siblings_ok (AddChild x lg).
Proof.
  intros Hs Hfresh. rewrite AddChild_fresh by (intros ch Hc; by apply Hfresh).
  set (x' := set_parent _ _).
  assert (∀ ch, ch ∈ lg_Logs lg → ¬ (same_init ch x' ∨ ID ch = ID x')) as Hno.
  { intros ch Hc [Hsame|Hid]; destruct (Hfresh ch Hc) as [Hn1 Hn2]; [|by apply Hn2].
    apply Hn1. by apply same_init_sym in Hsame. }
  intros i k y z Hy Hz Hyz. cbn in Hy, Hz.
  apply lookup_snoc_Some in Hy as [[Hi Hy]|[-> <-]], Hz as [[Hk Hz]|[-> <-]].
  - by apply (Hs i k y z).
  - destruct (Hno y); [|done]. apply list_elem_of_lookup. eauto.
  - destruct (Hno z); [apply list_elem_of_lookup; eauto|].
    destruct Hyz as [?%same_init_sym|?]; auto.
  - done.
Qed.

Lemma merge_child_siblings x lg w lg1 :
  wf_log lg → Log_Forall siblings_ok lg → Log_Forall siblings_ok x → child_merged x lg w lg1 →
  (∀ y y', y ∈ lg_Logs lg → Merge x y = Ok y' → extends y w → Log_Forall siblings_ok y') →
  Log_Forall siblings_ok lg1.
Proof.
  intros Hwf [Hs Hch] Hx [(j & y & y' & Hj & Hrun & Hyw & Hyy' & _ & _ & ->)|[Hfresh ->]] Hsub.
  - constructor; [by eapply siblings_ok_insert|]. cbn. apply Forall_insert; [done|].
    apply (Hsub y); [|done..]. apply list_elem_of_lookup. eauto.
  - constructor; [by apply siblings_ok_AddChild|].
    rewrite AddChild_fresh by (intros ch Hc; by apply Hfresh). cbn.
    apply Forall_app. split; [done|]. constructor; [|done].
    destruct Hx as [Hx1 Hx2]. by constructor.
Qed.

Definition merge_siblings (l : Log) : Prop :=
  ∀ lg u m, Log_Forall siblings_ok u → extends lg u → extends l u →
    Log_Forall siblings_ok lg → Log_Forall siblings_ok l → Merge l lg = Ok m →
    Log_Forall siblings_ok m.

Lemma merge_children_siblings xs lg u m :
  Log_Forall siblings_ok u → (∀ x, x ∈ xs → merge_siblings x) → extends lg u →
  (∀ x, x ∈ xs → ∃ w, w ∈ lg_Logs u ∧ extends x w) →
  Log_Forall siblings_ok lg → Forall (Log_Forall siblings_ok) xs →
  merge_children xs lg = Ok m → Log_Forall siblings_ok m.
Proof.
  intros Hu. revert lg. induction xs as [|x xs IHxs]; intros lg Hspec Hlg Hxs Hs Hsxs Hrun.
  { by injection Hrun as <-. }
  apply Forall_cons in Hsxs as [Hsx Hsxs].
  destruct (Hxs x ltac:(left)) as (w & Hw & Hxw).
  destruct (merge_child x lg u w Hu (Merge_lub x) Hlg Hw Hxw) as (lg1 & Hstep & Hnext).
  destruct (child_merged_upper x lg u w lg1 Hlg Hw Hxw Hstep) as (_ & H2 & _ & _).
  rewrite Hnext in Hrun. apply (IHxs lg1); [set_solver|done|set_solver| |done..].
  apply (merge_child_siblings x lg w); [by eapply extends_wf_l|done|done|done|].
  intros y y' Hy Hm Hyw. apply (Hspec x ltac:(left) y w y'); [|done..| |done|done].
  - destruct Hu as [_ Hu]. rewrite Forall_forall in Hu. auto.
  - destruct Hs as [_ Hs]. rewrite Forall_forall in Hs. auto.
Qed.

Lemma Merge_siblings l : merge_siblings l.
Proof.
  induction l as [l IH] using Log_ind'. intros lg u m Hu Hlg Hl Hs Hsl Hrun.
  rewrite Merge_unfold in Hrun. destruct (merge_ops_upper l lg u) as (_ & Hm2 & _); [done..|].
  rewrite Forall_forall in IH. destruct Hsl as [_ Hsl].
  eapply merge_children_siblings; [exact Hu|by apply IH|exact Hm2| | |exact Hsl|exact Hrun].
  - by apply extends_alt in Hl as (_ & _ & ?).
  - destruct Hs as [Hs1 Hs2]. unfold merge_ops. by case_decide; constructor.
Qed.
End digest.
