(* ===== verification/Journal.v ===== *)
(** * The journal (src/logbook/oplog/log.go)

    [Journal] is the only [Logstore] of the repository: a forest of logs held
    in memory, encoded as a flatbuffer and encrypted for storage. Its methods
    return addresses where the code returns pointers into the forest. *)
From S2P Require Export OplogFacts.

(** [type Journal struct] *)
Record Journal : Type := mkJournal {
  j_id : string;
  j_logs : list Log;
}.

Definition set_j_logs (ls : list Log) (j : Journal) : Journal := mkJournal (j_id j) ls.

(** Reading and writing through a pointer into the journal. *)
Definition deref (a : addr) (j : Journal) : outcome Log :=
  of_option Panic (lookup_addr a (j_logs j)).
Definition store_at (a : addr) (lg : Log) (j : Journal) : Journal :=
  set_j_logs (alter_addr (λ _, lg) a (j_logs j)) j.

(** ** Names *)

(** [Journal.HeadRef] *)
Definition Journal_HeadRef (names : list string) (j : Journal) : outcome addr :=
  match names with
  | [] => Error (Errorf "name is required" [])
  | _ => headref_addr names (j_logs j)
  end.

(** [Log.HeadRef]: relative to the log; the empty address is the log itself. *)
Definition Log_HeadRef (names : list string) (lg : Log) : outcome addr :=
  headref_addr names (lg_Logs lg).

(** The removal loops of [Journal.RemoveLog]: the position of the first log
    with the name. *)
Fixpoint find_name (n : string) (i : nat) (ls : list Log) : outcome (option nat) :=
  match ls with
  | [] => Ok None
  | l :: ls' =>
      nm ← Name l;
      if decide (nm = n) then Ok (Some i) else find_name n (S i) ls'
  end.

(** [append(logs[:i], logs[i+1:]...)] at the first log with the name *)
Definition remove_named (n : string) (ls : list Log) : outcome (list Log) :=
  found ← find_name n 0 ls;
  match found with
  | Some i => Ok (delete i ls)
  | None => Error ErrNotFound
  end.

(** [Journal.RemoveLog] *)
Definition RemoveLog (names : list string) (j : Journal) : outcome Journal :=
  match last names with
  | None => Error (Errorf "name is required" [])
  | Some remove =>
      match removelast names with
      | [] => ls ← remove_named remove (j_logs j); Ok (set_j_logs ls j)
      | parentPath =>
          a ← Journal_HeadRef parentPath j;
          parent ← deref a j;
          ls ← remove_named remove (lg_Logs parent);
          Ok (store_at a (set_Logs ls parent) j)
      end
  end.

(** [Journal.Logs] *)
Definition Journal_Logs (offset limit : Z) (j : Journal) : outcome (list Log) :=
  if decide (offset = 0%Z ∧ limit = (-1)%Z) then Ok (j_logs j)
  else Error (Errorf "log subsets not finished" []).

(** The author loop of [Journal.MergeLog]: the first log whose author matches. *)
Fixpoint find_author (incoming : Log) (i : nat) (ls : list Log) : outcome (option (nat * Log)) :=
  match ls with
  | [] => Ok None
  | lg :: ls' =>
      a ← FirstOpAuthorID lg;
      b ← FirstOpAuthorID incoming;
      if decide (a = b) then Ok (Some (i, lg)) else find_author incoming (S i) ls'
  end.

(** ** Flatbuffers *)

(** The tables logfb.Log and logfb.Book. *)
Inductive FbLog : Type := mkFbLog {
  fbl_name : string;
  fbl_identifier : string;
  fbl_signature : string;
  fbl_opset : list FbOperation;
  fbl_logs : list FbLog;
}.

Record FbBook : Type := mkFbBook {
  fbb_identifier : string;
  fbb_logs : list FbLog;
}.

(** [Log.MarshalFlatbuffer] *)
Fixpoint Log_MarshalFlatbuffer (lg : Log) : outcome FbLog :=
  logs ← (fix go (ls : list Log) : outcome (list FbLog) :=
    match ls with
    | [] => Ok []
    | l :: ls' => o ← Log_MarshalFlatbuffer l; os ← go ls'; Ok (o :: os)
    end) (lg_Logs lg);
  name ← Name lg;
  id ← Author lg;
  Ok (mkFbLog name id (lg_Signature lg) (map Op_MarshalFlatbuffer (lg_Ops lg)) logs).

Section digest.
Context `{OpDigest}.

(** [Log.UnmarshalFlatbuffer]: children are read with the receiver, still
    empty, as their parent, and then given the ID of the log just read. *)
Fixpoint Log_UnmarshalFlatbuffer (lfb : FbLog) (parent : parent_link) : Log :=
  let newLg := mkLog "" "" parent "" (fbl_signature lfb)
                 (map UnmarshalOpFlatbuffer (fbl_opset lfb)) [] in
  set_Logs (map (λ c, set_ParentID (ID newLg) (Log_UnmarshalFlatbuffer c TreeParent))
                (fbl_logs lfb)) newLg.

(** [Log.DeepCopy] *)
Definition DeepCopy (lg : Log) : outcome Log :=
  fb ← Log_MarshalFlatbuffer lg;
  Ok (set_ParentID (lg_ParentID lg) (Log_UnmarshalFlatbuffer fb NoParent)).

(** [Journal.marshalFlatbuffer] and [Journal.unmarshalFlatbuffer] *)
Definition Journal_marshalFlatbuffer (j : Journal) : outcome FbBook :=
  logs ← mapM Log_MarshalFlatbuffer (j_logs j);
  Ok (mkFbBook (j_id j) logs).

Definition Journal_unmarshalFlatbuffer (b : FbBook) : Journal :=
  mkJournal (fbb_identifier b) (map (λ l, Log_UnmarshalFlatbuffer l NoParent) (fbb_logs b)).

(** ** Identifiers *)

(** [Journal.Get] *)
Definition Journal_Get (id : string) (j : Journal) : outcome addr :=
  of_option (Error (ErrWrap "getting log %q %w" [id] ErrNotFound))
            (find_addr (Log_Log id) 0 (j_logs j)).

(** [Journal.SetID] *)
Definition SetID (id : string) (j : Journal) : outcome Journal :=
  a ← Journal_Get id j; Ok (mkJournal id (j_logs j)).

(** [Journal.Descendants] (and [Children]): fills in the argument's children. *)
Definition Descendants (l : Log) (j : Journal) : outcome Log :=
  a ← Journal_Get (ID l) j;
  got ← deref a j;
  Ok (set_Logs (lg_Logs got) l).

(** [Journal.ReplaceAll] *)
Definition Journal_ReplaceAll (l : Log) (j : Journal) : outcome Journal :=
  match lg_Ops l with
  | o :: _ => Ok (mkJournal (Hash o) [l])
  | [] => Panic
  end.

(** [Journal.MergeLog] *)
Definition MergeLog (incoming : Log) (j : Journal) : outcome Journal :=
  if decide (ID incoming = "") then Error (Errorf "oplog: log ID cannot be empty" [])
  else
    match Journal_Get (ID incoming) j with
    | Ok a =>
        found ← deref a j;
        merged ← Merge incoming found;
        Ok (store_at a merged j)
    | Panic => Panic
    | Error e =>
        if errors_Is e "log: not found" then
          byAuthor ← find_author incoming 0 (j_logs j);
          match byAuthor with
          | Some (i, lg) =>
              merged ← Merge incoming lg;
              Ok (store_at [i] merged j)
          | None => Ok (set_j_logs (j_logs j ++ [incoming]) j)
          end
        else Error e
    end.

(** One iteration of the loop of [GetWithSparseAncestorsAllDescendants]: the
    parent of a cursor with the given [ParentID], [Signature] and [parent], at
    address [a]. It is what the pointer refers to or, without one, what the
    store has under the ID; a parent without a signature takes the cursor's.
    The answer is the parent's [ParentID], operations and signature. *)
Definition sparse_parent (pid sig : string) (parent : parent_link) (a : addr)
    : stM Journal (string * list Op * string) :=
  match parent with
  | SparseParent ppid pops psig _ =>
      mret (ppid, pops, if decide (psig = "") then sig else psig)
  | _ =>
      pa ← (match parent with
            | TreeParent => mret (removelast a)
            | _ => st_read (Journal_Get pid)
            end);
      p ← st_read (deref pa);
      let p' := if decide (lg_Signature p = "") then set_Signature sig p else p in
      st_modify (store_at pa p');;
      mret (lg_ParentID p', lg_Ops p', lg_Signature p')
  end.

(** The loop: the chain of sparse ancestors that ends up in the cursor's
    [parent], which is complete unless an ancestor is missing from the store.
    One unit of fuel is one iteration; the loop of the code has no bound. *)
Fixpoint sparse_ancestors (fuel : nat) (pid sig : string) (parent : parent_link) (a : addr)
    : stM Journal (parent_link * option error) := λ j,
  if decide (pid = "") then (Ok (parent, None), j)
  else match fuel with
  | 0 => (Panic, j)
  | S fuel' =>
      match sparse_parent pid sig parent a j with
      | (Panic, j') => (Panic, j')
      | (Error e, j') => (Ok (parent, Some e), j')
      | (Ok (ppid, pops, psig), j') =>
          ('(rest, err) ← sparse_ancestors fuel' ppid psig NoParent [];
           mret (SparseParent ppid pops psig rest, err)) j'
      end
  end.

(** [GetWithSparseAncestorsAllDescendants] on a journal: the address of the
    log, whose [parent] now points at the sparse ancestors found. *)
Definition GetWithSparseAncestorsAllDescendants (fuel : nat) (id : string) : stM Journal addr :=
  a ← st_read (Journal_Get id);
  l0 ← st_read (deref a);
  l ← (if decide (lg_Logs l0 = []) then st_read (Descendants l0) else mret l0);
  st_modify (store_at a l);;
  '(p, err) ← sparse_ancestors fuel (lg_ParentID l) (lg_Signature l) (lg_parent l) a;
  l' ← st_read (deref a);
  st_modify (store_at a (set_parent p l'));;
  match err with Some e => st_fail e | None => mret a end.

(** [Log.Parent] of the log at an address, as the log the pointer refers to. *)
Definition Parent (a : addr) (j : Journal) : outcome (option Log) :=
  l ← deref a j;
  match lg_parent l with
  | NoParent => Ok None
  | TreeParent => p ← deref (removelast a) j; Ok (Some p)
  | SparseParent pid ops sig pp => Ok (Some (mkLog "" "" pp pid sig ops [l]))
  end.

(** ** Encryption at rest *)

(** The cryptography and the byte format of flatbuffers, from the Go
    libraries the code calls. *)
Class BookCipher : Type := {
  PrivKey : Type;
  pk_Raw : PrivKey → outcome string;
  md5_hex : string → string;
  gcm_NonceSize : nat;
  gcm_Seal : string → string → string → string;
  gcm_Open : string → string → string → outcome string;
  fb_finish_Book : FbBook → string;
  fb_root_Book : string → FbBook;
}.

(** AES-GCM opens what it sealed with the same key and nonce; a finished
    flatbuffer reads back as the tables it was built from. *)
Class BookCipherLaws (C : BookCipher) : Prop := {
  gcm_Open_Seal : ∀ k n d, gcm_Open k n (gcm_Seal k n d) = Ok d;
  fb_root_finish : ∀ b, fb_root_Book (fb_finish_Book b) = b;
}.

Context `{BookCipher}.

(** [Journal.cipher]: the key the AEAD is made from. *)
Definition cipher (pk : PrivKey) : outcome string :=
  pkBytes ← pk_Raw pk; Ok (md5_hex pkBytes).

(** [Journal.encrypt], given the nonce read from the random source *)
Definition encrypt (nonce : string) (pk : PrivKey) (data : string) : outcome string :=
  k ← cipher pk; Ok (nonce +:+ gcm_Seal k nonce data).

(** [Journal.decrypt] *)
Definition decrypt (pk : PrivKey) (data : string) : outcome string :=
  k ← cipher pk;
  if decide (length (bytes data) < gcm_NonceSize) then Panic
  else gcm_Open k (of_bytes (take gcm_NonceSize (bytes data)))
                  (of_bytes (drop gcm_NonceSize (bytes data))).

(** [Journal.FlatbufferCipher] *)
Definition FlatbufferCipher (nonce : string) (pk : PrivKey) (j : Journal) : outcome string :=
  b ← Journal_marshalFlatbuffer j; encrypt nonce pk (fb_finish_Book b).

(** [Journal.UnmarshalFlatbufferCipher] *)
Definition UnmarshalFlatbufferCipher (pk : PrivKey) (ciphertext : string) : outcome Journal :=
  plaintext ← decrypt pk ciphertext;
  Ok (Journal_unmarshalFlatbuffer (fb_root_Book plaintext)).
End digest.
