(* ===== verification/JournalFacts.v ===== *)
(** * Facts about journals

    Addresses behave as pointers, [Get] and [HeadRef] find what they promise,
    appending does not move or rename other logs, and a journal read back from
    its flatbuffer answers every query as before. *)
From S2P Require Export Journal.

(** ** Pointers *)
Lemma lookup_addr_cons i a ls :
  lookup_addr (i :: a) ls = lg ← ls !! i; (if a is [] then Some lg else lookup_addr a (lg_Logs lg)).
Proof. by destruct a. Qed.

Lemma lookup_alter_addr f a ls : lookup_addr a (alter_addr f a ls) = f <$> lookup_addr a ls.
Proof.
  revert ls. induction a as [|i a IH]; intros ls; [done|].
  rewrite !lookup_addr_cons. cbn [alter_addr]. rewrite list_lookup_alter_eq.
  destruct (ls !! i) as [lg|]; cbn; [|done]. destruct a as [|k a]; [done|].
  cbn [lg_Logs set_Logs]. apply IH.
Qed.

Lemma alter_addr_nil f ls : alter_addr f [] ls = ls.
Proof. done. Qed.

(** Writing back what is there changes nothing. *)
Lemma alter_addr_id f a ls :
  (∀ lg, lookup_addr a ls = Some lg → f lg = lg) → alter_addr f a ls = ls.
Proof.
  revert ls. induction a as [|i a IH]; intros ls Hf; [done|].
  cbn [alter_addr]. apply list_eq. intros k. rewrite lookup_addr_cons in Hf.
  destruct (decide (k = i)) as [->|Hk]; [|by rewrite list_lookup_alter_ne].
  rewrite list_lookup_alter_eq. destruct (ls !! i) as [lg|]; cbn in *; [|done].
  f_equal. destruct a as [|k a]; [by apply Hf|].
  rewrite IH by done. by destruct lg.
Qed.

Lemma alter_addr_compose f g a ls :
  alter_addr g a (alter_addr f a ls) = alter_addr (g ∘ f) a ls.
Proof.
  revert ls. induction a as [|i a IH]; intros ls; [done|]. cbn [alter_addr].
  apply list_eq. intros k. destruct (decide (k = i)) as [->|Hk].
  - rewrite !list_lookup_alter_eq. destruct (ls !! i) as [lg|]; cbn; [|done].
    destruct a as [|k a]; [done|]. cbn [lg_Logs set_Logs]. by rewrite IH.
  - by rewrite !list_lookup_alter_ne.
Qed.

Lemma alter_addr_ext f g a ls :
  (∀ lg, lookup_addr a ls = Some lg → f lg = g lg) → alter_addr f a ls = alter_addr g a ls.
Proof.
  revert ls. induction a as [|i a IH]; intros ls Hfg; [done|]. cbn [alter_addr].
  rewrite lookup_addr_cons in Hfg.
  apply list_eq. intros k. destruct (decide (k = i)) as [->|Hk].
  - rewrite !list_lookup_alter_eq. destruct (ls !! i) as [lg|]; cbn in *; [|done].
    f_equal. destruct a as [|k a]; [by apply Hfg|]. by rewrite (IH (lg_Logs lg)).
  - by rewrite !list_lookup_alter_ne.
Qed.

Lemma deref_Ok a j lg : deref a j = Ok lg ↔ lookup_addr a (j_logs j) = Some lg.
Proof. unfold deref. destruct (lookup_addr a (j_logs j)); cbn; naive_solver. Qed.

Lemma deref_store_at a lg lg' j : deref a j = Ok lg → deref a (store_at a lg' j) = Ok lg'.
Proof.
  rewrite !deref_Ok. unfold store_at. cbn. rewrite lookup_alter_addr. by intros ->.
Qed.

Lemma store_at_same a lg j : deref a j = Ok lg → store_at a lg j = j.
Proof.
  rewrite deref_Ok. intros H. destruct j as [id ls]. unfold store_at, set_j_logs. cbn in *.
  f_equal. apply alter_addr_id. congruence.
Qed.

Lemma store_at_twice a lg1 lg2 j : store_at a lg2 (store_at a lg1 j) = store_at a lg2 j.
Proof. unfold store_at, set_j_logs. cbn. f_equal. by rewrite alter_addr_compose. Qed.

(** Reading at an address reached through another one. *)
Lemma lookup_addr_app a a' ls lg :
  lookup_addr a ls = Some lg → a' ≠ [] → lookup_addr (a ++ a') ls = lookup_addr a' (lg_Logs lg).
Proof.
  revert ls. induction a as [|i a IH]; intros ls; [done|].
  rewrite <- app_comm_cons, !lookup_addr_cons.
  destruct (ls !! i) as [l|]; cbn; [|done]. destruct a as [|k a]; cbn [app].
  - intros [= ->]. by destruct a'.
  - intros Hl Ha'. by apply IH.
Qed.

(** ** Loops that return an address *)
Lemma find_addr_Some f i ls a :
  find_addr f i ls = Some a ↔
    ∃ k l a', a = (i + k) :: a' ∧ ls !! k = Some l ∧ f l = Some a' ∧
              ∀ k' l', k' < k → ls !! k' = Some l' → f l' = None.
Proof.
  revert i. induction ls as [|l ls IH]; intros i; cbn.
  { split; [done|]. intros (k & l & a' & _ & H & _). by rewrite lookup_nil in H. }
  destruct (f l) as [a0|] eqn:Hf.
  - split.
    + intros [= <-]. exists 0, l, a0. rewrite Nat.add_0_r. split_and!; [done..|]. intros; lia.
    + intros ([|k] & l' & a' & -> & Hl & Hf' & Hmin); cbn in *.
      * rewrite Nat.add_0_r. congruence.
      * specialize (Hmin 0 l ltac:(lia) eq_refl). congruence.
  - rewrite IH. split.
    + intros (k & l' & a' & -> & Hl & Hf' & Hmin). exists (S k), l', a'.
      split_and!; [f_equal; lia|done|done|].
      intros [|k'] l'' Hk Hl''; cbn in *; [congruence|]. apply (Hmin k' l''); [lia|done].
    + intros ([|k] & l' & a' & -> & Hl & Hf' & Hmin); cbn in *; [congruence|].
      exists k, l', a'. split_and!; [f_equal; lia|done|done|].
      intros k' l'' Hk Hl''. apply (Hmin (S k') l''); [lia|done].
Qed.

Lemma find_addr_None f i ls :
  find_addr f i ls = None ↔ ∀ l, l ∈ ls → f l = None.
Proof.
  revert i. induction ls as [|l ls IH]; intros i; cbn.
  { split; [|done]. intros _ l Hl. by apply not_elem_of_nil in Hl. }
  destruct (f l) as [a0|] eqn:Hf.
  - split; [done|]. intros H. rewrite (H l) in Hf; [done|set_solver].
  - rewrite IH. set_solver.
Qed.

Lemma find_addr_alter f g k i ls :
  (∀ l, ls !! k = Some l → f (g l) = f l) → find_addr f i (alter g k ls) = find_addr f i ls.
Proof.
  revert k i. induction ls as [|l ls IH]; intros k i Hfg; [done|].
  destruct k as [|k]; cbn.
  - by rewrite Hfg.
  - destruct (f l); [done|]. by apply IH.
Qed.

Lemma find_addr_map f g i ls : find_addr f i (map g ls) = find_addr (f ∘ g) i ls.
Proof.
  revert i. induction ls as [|l ls IH]; intros i; cbn; [done|].
  destruct (f (g l)); [done|]. apply IH.
Qed.

Lemma find_addr_ext f g i ls : (∀ l, l ∈ ls → f l = g l) → find_addr f i ls = find_addr g i ls.
Proof.
  revert i. induction ls as [|l ls IH]; intros i Hfg; cbn; [done|].
  rewrite Hfg by set_solver. destruct (g l); [done|]. apply IH. set_solver.
Qed.

(** ** Names *)
Lemma find_named_Some n i ls k l :
  find_named n i ls = Ok (Some (k, l)) →
  ∃ m, k = i + m ∧ ls !! m = Some l ∧ Name l = Ok n ∧ Removed l = Ok false.
Proof.
  revert i. induction ls as [|x ls IH]; intros i; cbn; [done|].
  destruct (Name x) as [nm|e|] eqn:Hn; cbn; [|done|done].
  case_decide as Hnm.
  - destruct (Removed x) as [[]|e|] eqn:Hr; cbn; [| |done|done].
    + intros (m & -> & ? & ? & ?)%IH. exists (S m). split_and!; [lia|done..].
    + intros [= <- <-]. exists 0. rewrite Nat.add_0_r. by subst.
  - intros (m & -> & ? & ? & ?)%IH. exists (S m). split_and!; [lia|done..].
Qed.

(** The path of names an address stands for: every log on it has the name, and
    none is removed. *)
Inductive named_path : list Log → list string → addr → Log → Prop :=
| named_one ls n i l :
    ls !! i = Some l → Name l = Ok n → Removed l = Ok false → named_path ls [n] [i] l
| named_down ls n ns i a l l' :
    ls !! i = Some l → Name l = Ok n → Removed l = Ok false →
    named_path (lg_Logs l) ns a l' → named_path ls (n :: ns) (i :: a) l'.

Lemma named_path_lookup ls ns a l : named_path ls ns a l → lookup_addr a ls = Some l.
Proof.
  induction 1 as [ls n i l Hl|ls n ns i a l l' Hl Hn Hr Hp IH]; cbn; rewrite Hl; cbn; [done|].
  by destruct a; [inversion Hp|].
Qed.

Lemma named_path_length ls ns a l : named_path ls ns a l → length a = length ns.
Proof. induction 1; cbn; congruence. Qed.

Lemma named_path_end ls ns a l :
  named_path ls ns a l → Name l = Ok (default "" (last ns)) ∧ Removed l = Ok false.
Proof.
  induction 1 as [ls n i l Hl Hn Hr|ls n ns i a l l' Hl Hn Hr Hp IH]; [done|].
  destruct ns; [by inversion Hp|exact IH].
Qed.

Lemma headref_addr_named names ls a :
  names ≠ [] → headref_addr names ls = Ok a → ∃ l, named_path ls names a l.
Proof.
  revert ls a. induction names as [|n ns IH]; intros ls a; [done|]. intros _. cbn.
  destruct (find_named n 0 ls) as [[[i l]|]|e|] eqn:Hf; cbn; [|done..].
  apply find_named_Some in Hf as (m & -> & Hl & Hn & Hr). cbn.
  destruct ns as [|n' ns].
  - intros [= <-]. exists l. by constructor.
  - destruct (headref_addr (n' :: ns) (lg_Logs l)) as [a'|e|] eqn:Ha; cbn -[headref_addr]; [|done..].
    intros [= <-]. destruct (IH (lg_Logs l) a' ltac:(done) Ha) as (l' & Hp).
    exists l'. by econstructor.
Qed.

Lemma find_named_no_panic n i ls :
  Forall has_init ls → ∃ r, find_named n i ls = Ok r.
Proof.
  intros Hls. revert i. induction Hls as [|l ls Hl Hls IH]; intros i; cbn; [eauto|].
  unfold has_init in Hl. unfold Name, Removed, Model.
  destruct (lg_Ops l) as [|o ops]; [done|].
  destruct (decide (lg_name l = "")); cbn; repeat (case_match; cbn); eauto.
Qed.

Lemma wf_children lg : wf_log lg → Forall has_init (lg_Logs lg) ∧ Forall wf_log (lg_Logs lg).
Proof.
  intros [_ Hch]. split; [|done]. eapply Forall_impl; [done|]. by intros x [Hx _].
Qed.

Lemma headref_addr_no_panic names ls :
  Forall wf_log ls → headref_addr names ls ≠ Panic.
Proof.
  revert ls. induction names as [|n ns IH]; intros ls Hls; [done|]. cbn.
  destruct (find_named_no_panic n 0 ls) as ([[i l]|] & Hf).
  { eapply Forall_impl; [done|]. by intros x [Hx _]. }
  2: by rewrite Hf.
  rewrite Hf; cbn.
  apply find_named_Some in Hf as (m & _ & Hl & _). destruct ns as [|n' ns]; [done|].
  assert (wf_log l) as Hwf by (eapply Forall_lookup_1; eauto).
  apply outcome_bind_no_panic; [|done].
  apply IH. by apply wf_children.
Qed.

Section digest.
Context `{OpDigest}.

(** ** Identifiers *)
Lemma Log_Log_unfold id lg :
  Log_Log id lg = if decide (ID lg = id) then Some [] else find_addr (Log_Log id) 0 (lg_Logs lg).
Proof. by destruct lg. Qed.

Lemma ID_set_Logs ls lg : ID (set_Logs ls lg) = ID lg.
Proof. done. Qed.

Lemma Log_Log_lookup id lg a :
  Log_Log id lg = Some a →
  ∃ lg', ID lg' = id ∧ (if a is [] then lg' = lg else lookup_addr a (lg_Logs lg) = Some lg').
Proof.
  revert a. induction lg as [lg IH] using Log_ind'. intros a.
  destruct lg as [n au p pid s ops ls]. cbn [Log_Log lg_Logs] in *.
  case_decide as Hid; [intros [= <-]; eauto|].
  intros (k & l & a' & -> & Hl & Hf & _)%find_addr_Some.
  rewrite Forall_forall in IH.
  destruct (IH l ltac:(by eapply list_elem_of_lookup_2) a' Hf) as (lg' & Hid' & Hlk).
  exists lg'. split; [done|]. rewrite lookup_addr_cons. cbn [plus]. rewrite Hl. cbn.
  destruct a'; [by subst|done].
Qed.

Lemma Get_sound id j a :
  Journal_Get id j = Ok a → ∃ lg, deref a j = Ok lg ∧ ID lg = id ∧ a ≠ [].
Proof.
  unfold Journal_Get. destruct (find_addr _ 0 (j_logs j)) as [a0|] eqn:E; [|done].
  intros [= ->]. apply find_addr_Some in E as (k & l & a' & -> & Hl & Hf & _).
  apply Log_Log_lookup in Hf as (lg & Hid & Hlk). exists lg. rewrite deref_Ok.
  split_and!; [|done|done]. rewrite lookup_addr_cons. cbn [plus]. rewrite Hl. cbn.
  destruct a'; [by subst|done].
Qed.

(** [Get] fails only when no log at any address has the ID. *)
Lemma Log_Log_None id lg :
  Log_Log id lg = None → ID lg ≠ id ∧ ∀ a x, lookup_addr a (lg_Logs lg) = Some x → ID x ≠ id.
Proof.
  induction lg as [lg IH] using Log_ind'. destruct lg as [n au p pid s ops ls].
  cbn [Log_Log lg_Logs] in *. case_decide as Hid; [done|].
  rewrite find_addr_None. intros Hall. split; [done|]. rewrite Forall_forall in IH.
  intros [|i a] x; [done|]. rewrite lookup_addr_cons.
  destruct (ls !! i) as [l|] eqn:Hl; cbn; [|done].
  assert (l ∈ ls) as Hin by by eapply list_elem_of_lookup_2.
  destruct (IH l Hin (Hall l Hin)) as [Hne Hsub].
  destruct a; [by intros [= <-]|]. apply Hsub.
Qed.

Lemma Get_complete id j :
  (∃ e, Journal_Get id j = Error e) → ∀ a lg, deref a j = Ok lg → ID lg ≠ id.
Proof.
  intros [e He] a lg. rewrite deref_Ok. unfold Journal_Get in He.
  destruct (find_addr _ 0 (j_logs j)) eqn:E; [done|]. rewrite find_addr_None in E.
  destruct a as [|i a]; [done|]. rewrite lookup_addr_cons.
  destruct (j_logs j !! i) as [l|] eqn:Hl; cbn; [|done].
  destruct (Log_Log_None id l) as [Hne Hsub].
  { apply E. by eapply list_elem_of_lookup_2. }
  destruct a; [by intros [= <-]|]. apply Hsub.
Qed.

Lemma Get_no_panic id j : Journal_Get id j ≠ Panic.
Proof. unfold Journal_Get. by destruct (find_addr _ _ _). Qed.

(** A write through a pointer that keeps the ID and the children of the log
    does not change where any log is found. *)
Lemma find_addr_alter_addr id f a i ls :
  (∀ x, lookup_addr a ls = Some x → ID (f x) = ID x ∧ lg_Logs (f x) = lg_Logs x) →
  find_addr (Log_Log id) i (alter_addr f a ls) = find_addr (Log_Log id) i ls.
Proof.
  revert i ls. induction a as [|k a IH]; intros i ls Hf; [done|].
  cbn [alter_addr]. apply find_addr_alter. intros l Hl.
  rewrite lookup_addr_cons, Hl in Hf. cbn in Hf.
  rewrite !Log_Log_unfold. destruct a as [|k' a].
  - destruct (Hf l eq_refl) as [-> ->]. done.
  - rewrite ID_set_Logs. case_decide; [done|]. cbn [lg_Logs set_Logs]. by apply IH.
Qed.

Lemma Get_store_at id a lg lg' j :
  deref a j = Ok lg → ID lg' = ID lg → lg_Logs lg' = lg_Logs lg →
  Journal_Get id (store_at a lg' j) = Journal_Get id j.
Proof.
  rewrite deref_Ok. intros Hlg Hid Hlogs. unfold Journal_Get, store_at. cbn.
  rewrite find_addr_alter_addr; [done|]. intros x Hx. simplify_eq. done.
Qed.

(** ** Flatbuffers *)
Lemma UnmarshalOp_MarshalOp o : UnmarshalOpFlatbuffer (Op_MarshalFlatbuffer o) = o.
Proof. by destruct o. Qed.

(** The log a flatbuffer is read back as: caches empty, parents relinked. *)
Fixpoint reload (pid : string) (p : parent_link) (lg : Log) : Log :=
  mkLog "" "" p pid (lg_Signature lg) (lg_Ops lg) (map (reload (ID lg) TreeParent) (lg_Logs lg)).

Lemma Log_MarshalFlatbuffer_unfold lg :
  Log_MarshalFlatbuffer lg =
    logs ← mapM Log_MarshalFlatbuffer (lg_Logs lg);
    name ← Name lg; id ← Author lg;
    Ok (mkFbLog name id (lg_Signature lg) (map Op_MarshalFlatbuffer (lg_Ops lg)) logs).
Proof.
  destruct lg as [n au p pid s ops ls]. cbn [Log_MarshalFlatbuffer lg_Logs].
  match goal with |- mbind _ ?x = mbind _ ?y => assert (x = y) as -> end; [|done].
  induction ls as [|l ls IH]; [done|]. cbn.
  destruct (Log_MarshalFlatbuffer l); cbn; [|done|done]. by rewrite IH.
Qed.

Lemma Name_Ok lg : has_init lg → ∃ n, Name lg = Ok n.
Proof.
  unfold has_init, Name, Model. intros H0. case_decide; [|eauto].
  destruct (lg_Ops lg); [done|]. cbn. eauto.
Qed.

Lemma Author_Ok lg : has_init lg → ∃ n, Author lg = Ok n.
Proof.
  unfold has_init, Author, Model. intros H0. case_decide; [|eauto].
  destruct (lg_Ops lg); [done|]. cbn. eauto.
Qed.

Lemma map_unmarshal_marshal ops : map UnmarshalOpFlatbuffer (map Op_MarshalFlatbuffer ops) = ops.
Proof.
  rewrite map_map. induction ops as [|o ops IH]; cbn; [done|].
  by rewrite UnmarshalOp_MarshalOp, IH.
Qed.

Lemma Unmarshal_parentID lfb p id :
  lg_ParentID (set_ParentID id (Log_UnmarshalFlatbuffer lfb p)) = id.
Proof. done. Qed.

Lemma marshal_unmarshal lg :
  wf_log lg →
  ∃ fb, Log_MarshalFlatbuffer lg = Ok fb ∧ ∀ p, Log_UnmarshalFlatbuffer fb p = reload "" p lg.
Proof.
  induction lg as [lg IH] using Log_ind'. intros Hwf.
  pose proof (wf_children _ Hwf) as [_ Hch]. destruct Hwf as [Hinit _].
  rewrite Log_MarshalFlatbuffer_unfold.
  destruct (Name_Ok lg Hinit) as [n ->], (Author_Ok lg Hinit) as [au ->].
  assert (∃ fbs, mapM Log_MarshalFlatbuffer (lg_Logs lg) = Ok fbs ∧
    ∀ pid, map (λ c, set_ParentID pid (Log_UnmarshalFlatbuffer c TreeParent)) fbs
           = map (reload pid TreeParent) (lg_Logs lg)) as (fbs & -> & Hfbs).
  { clear Hinit n au. induction (lg_Logs lg) as [|l ls IHls]; [by exists []|].
    apply Forall_cons in IH as [IHl IHls'], Hch as [Hl Hls].
    destruct (IHl Hl) as (fb & Hfb & Hun), (IHls IHls' Hls) as (fbs & Hfbs & Hmap).
    exists (fb :: fbs). cbn. rewrite Hfb. cbn. rewrite Hfbs. split; [done|].
    intros pid. rewrite Hmap, Hun. f_equal. by destruct l. }
  eexists. split; [done|]. intros p. cbn [Log_UnmarshalFlatbuffer fbl_signature fbl_opset fbl_logs].
  rewrite map_unmarshal_marshal, Hfbs. by destruct lg.
Qed.

Definition reload_journal (j : Journal) : Journal :=
  mkJournal (j_id j) (map (reload "" NoParent) (j_logs j)).

Definition wf_journal (j : Journal) : Prop := Forall wf_log (j_logs j).

Lemma journal_marshal_unmarshal j :
  wf_journal j →
  ∃ fb, Journal_marshalFlatbuffer j = Ok fb ∧ Journal_unmarshalFlatbuffer fb = reload_journal j.
Proof.
  unfold wf_journal, Journal_marshalFlatbuffer. intros Hwf.
  assert (∃ fbs, mapM Log_MarshalFlatbuffer (j_logs j) = Ok fbs ∧
    map (λ l, Log_UnmarshalFlatbuffer l NoParent) fbs = map (reload "" NoParent) (j_logs j))
    as (fbs & -> & Hfbs).
  { induction Hwf as [|l ls Hl Hls IH]; [by exists []|].
    destruct (marshal_unmarshal l Hl) as (fb & Hfb & Hun), IH as (fbs & Hm & Hmap).
    exists (fb :: fbs). cbn. rewrite Hfb. cbn. rewrite Hm. split; [done|]. by rewrite Hun, Hmap. }
  eexists. split; [done|]. unfold Journal_unmarshalFlatbuffer, reload_journal. cbn. by rewrite Hfbs.
Qed.

(** *** What a reloaded log answers *)
Lemma ID_reload pid p lg : ID (reload pid p lg) = ID lg.
Proof. by destruct lg. Qed.

Lemma Name_reload pid p lg : caches_ok lg → Name (reload pid p lg) = Name lg.
Proof. intros [Hn _]. rewrite (Name_computed lg) by done. by destruct lg. Qed.

Lemma Removed_reload pid p lg : Removed (reload pid p lg) = Removed lg.
Proof. by destruct lg. Qed.

Lemma Log_Log_reload id pid p lg : Log_Log id (reload pid p lg) = Log_Log id lg.
Proof.
  revert pid p. induction lg as [lg IH] using Log_ind'. intros pid p.
  pose proof (ID_reload pid p lg) as Hid. destruct lg as [n au p0 pid0 s ops ls].
  cbn [reload lg_Logs lg_Ops lg_Signature] in *. cbn [Log_Log lg_Logs]. rewrite Hid.
  case_decide; [done|]. rewrite find_addr_map. apply find_addr_ext.
  rewrite Forall_forall in IH. intros l Hl. cbn. by apply IH.
Qed.

Lemma find_named_reload n i pid p ls :
  Forall caches_ok ls →
  find_named n i (map (reload pid p) ls) =
    option_map (λ '(k, l), (k, reload pid p l)) <$> find_named n i ls.
Proof.
  intros Hls. revert i. induction Hls as [|l ls Hl Hls IH]; intros i; [done|]. cbn.
  rewrite Name_reload by done. rewrite Removed_reload.
  destruct (Name l); cbn; [|done..]. case_decide; [|apply IH].
  destruct (Removed l) as [[]| |]; cbn; [apply IH|done..].
Qed.

Lemma headref_addr_reload names pid p ls :
  Forall (Log_Forall caches_ok) ls →
  headref_addr names (map (reload pid p) ls) = headref_addr names ls.
Proof.
  revert pid p ls. induction names as [|n ns IH]; intros pid p ls Hls; [done|]. cbn.
  rewrite find_named_reload by (eapply Forall_impl; [done|]; by intros x []).
  destruct (find_named n 0 ls) as [[[i l]|]| |] eqn:Hf; cbn -[headref_addr]; [|done..].
  destruct ns as [|n' ns]; [done|].
  apply find_named_Some in Hf as (m & _ & Hl & _).
  assert (Log_Forall caches_ok l) as [_ Hch] by (eapply Forall_lookup_1; eauto).
  assert (lg_Logs (reload pid p l) = map (reload (ID l) TreeParent) (lg_Logs l)) as ->
    by by destruct l.
  by rewrite IH.
Qed.
End digest.

(** ** Encryption *)
Section cipher.
Context `{OpDigest, BookCipher, !BookCipherLaws _}.

Lemma decrypt_encrypt nonce pk data ct :
  String.length nonce = gcm_NonceSize → encrypt nonce pk data = Ok ct → decrypt pk ct = Ok data.
Proof.
  unfold encrypt, decrypt. destruct (cipher pk) as [k| |]; cbn; [|done..].
  intros Hlen [= <-].
  assert (length (bytes nonce) = gcm_NonceSize) as Hb.
  { rewrite <- Hlen. clear. induction nonce; cbn; congruence. }
  rewrite bytes_app, length_app. rewrite decide_False by lia.
  rewrite <- Hb at 1 2. rewrite take_app_length, drop_app_length.
  rewrite !of_bytes_bytes. apply gcm_Open_Seal.
Qed.

Lemma FlatbufferCipher_Ok nonce pk j k :
  wf_journal j → cipher pk = Ok k → ∃ ct, FlatbufferCipher nonce pk j = Ok ct.
Proof.
  intros Hwf Hk. destruct (journal_marshal_unmarshal j Hwf) as (fb & Hfb & _).
  unfold FlatbufferCipher. rewrite Hfb. cbn. unfold encrypt. rewrite Hk. cbn. eauto.
Qed.

Lemma load_saved nonce pk j ct :
  String.length nonce = gcm_NonceSize → wf_journal j →
  FlatbufferCipher nonce pk j = Ok ct →
  UnmarshalFlatbufferCipher pk ct = Ok (reload_journal j).
Proof.
  intros Hlen Hwf Hct. destruct (journal_marshal_unmarshal j Hwf) as (fb & Hfb & Hun).
  unfold FlatbufferCipher in Hct. rewrite Hfb in Hct. cbn in Hct.
  unfold UnmarshalFlatbufferCipher. rewrite (decrypt_encrypt _ _ _ _ Hlen Hct). cbn.
  by rewrite fb_root_finish, Hun.
Qed.
End cipher.
