(* ===== verification/Ancestors.v ===== *)
(** * Facts about journals: parents

    In a linked journal every log carries the ID of the log above it, and that
    ID leads back there. Then the loop of
    [GetWithSparseAncestorsAllDescendants] ends, after as many rounds as the
    log has ancestors, and finds all of them. *)
From S2P Require Export JournalFacts.

(** A log seen without its children, its operations and its signature *)
Definition label `{OpDigest} (lg : Log) : string * string * parent_link :=
  (ID lg, lg_ParentID lg, lg_parent lg).

Section digest.
Context `{OpDigest}.

(** What a sparse copy of a parent must agree on with the parent *)
Definition link_ok (p : Log) (link : parent_link) : Prop :=
  match link with
  | SparseParent ppid _ _ _ => ppid = lg_ParentID p
  | _ => True
  end.

Record linked (j : Journal) : Prop := mkLinked {
  linked_root : ∀ i lg, lookup_addr [i] (j_logs j) = Some lg →
    lg_ParentID lg = "" ∧ lg_parent lg ≠ TreeParent;
  linked_child : ∀ a i lg, a ≠ [] → lookup_addr (a ++ [i]) (j_logs j) = Some lg →
    ∃ p, lookup_addr a (j_logs j) = Some p ∧ lg_ParentID lg = ID p ∧ link_ok p (lg_parent lg) ∧
         Journal_Get (ID p) j = Ok a;
}.

(** ** Writes that keep the labels *)
Lemma label_alter_ne f a x ls :
  (∀ lg, lookup_addr a ls = Some lg → lg_Logs (f lg) = lg_Logs lg) → x ≠ a →
  label <$> lookup_addr x (alter_addr f a ls) = label <$> lookup_addr x ls.
Proof.
  revert x ls. induction a as [|i a IH]; intros x ls Hf Hx; [done|]. cbn [alter_addr].
  destruct x as [|k x]; [done|]. rewrite !lookup_addr_cons.
  destruct (decide (k = i)) as [->|Hk]; [|by rewrite list_lookup_alter_ne].
  rewrite list_lookup_alter_eq. rewrite lookup_addr_cons in Hf.
  destruct (ls !! i) as [lg|]; cbn in *; [|done].
  destruct a as [|a0 a].
  - destruct x as [|x0 x]; [done|]. by rewrite (Hf lg eq_refl).
  - destruct x as [|x0 x]; [done|]. cbn [lg_Logs set_Logs]. apply IH; [done|congruence].
Qed.

Lemma label_store_at a lg lg' j x :
  deref a j = Ok lg → lg_Logs lg' = lg_Logs lg → label lg' = label lg →
  label <$> lookup_addr x (j_logs (store_at a lg' j)) = label <$> lookup_addr x (j_logs j).
Proof.
  intros Hlg%deref_Ok Hlogs Hlab. unfold store_at. cbn. destruct (decide (x = a)) as [->|Hx].
  - rewrite lookup_alter_addr, Hlg. cbn. by rewrite Hlab.
  - apply label_alter_ne; [intros l Hl; by simplify_eq|done].
Qed.

(** The parent link of a log may change to one that agrees with its parent. *)
Definition relink (p : option Log) (lg lg' : Log) : Prop :=
  ID lg' = ID lg ∧ lg_ParentID lg' = lg_ParentID lg ∧
  (lg_parent lg' = lg_parent lg ∨ ∃ p', p = Some p' ∧ link_ok p' (lg_parent lg')).

Lemma linked_store_at a lg lg' j :
  deref a j = Ok lg → lg_Logs lg' = lg_Logs lg →
  relink (lookup_addr (removelast a) (j_logs j)) lg lg' →
  linked j → linked (store_at a lg' j).
Proof.
  intros Hlg Hlogs (Hid & Hpid & Hpar) [Hroot Hchild].
  assert (∀ x l, lookup_addr x (j_logs (store_at a lg' j)) = Some l →
    ∃ l0, lookup_addr x (j_logs j) = Some l0 ∧ ID l = ID l0 ∧ lg_ParentID l = lg_ParentID l0 ∧
      (lg_parent l = lg_parent l0 ∨ x = a ∧ l = lg')) as Hback.
  { intros x l Hl. destruct (decide (x = a)) as [->|Hx].
    - unfold store_at in Hl. cbn in Hl. rewrite lookup_alter_addr in Hl.
      apply deref_Ok in Hlg. rewrite Hlg in *. cbn in Hl. injection Hl as <-. eauto 10.
    - assert (label <$> Some l = label <$> lookup_addr x (j_logs j)) as E.
      { rewrite <- Hl. apply label_alter_ne; [|done].
        intros y Hy%deref_Ok. replace y with lg by congruence. exact Hlogs. }
      destruct (lookup_addr x (j_logs j)) as [l0|] eqn:E0; [|done]. unfold label in E. cbn in E.
      exists l0. split_and!; [done|congruence..|left; congruence]. }
  assert (∀ x p, lookup_addr x (j_logs j) = Some p →
    ∃ p', lookup_addr x (j_logs (store_at a lg' j)) = Some p' ∧ ID p' = ID p ∧
          lg_ParentID p' = lg_ParentID p) as Hforth.
  { intros x p Hp. destruct (decide (x = a)) as [->|Hx].
    - exists lg'. unfold store_at. cbn. rewrite lookup_alter_addr, Hp.
      apply deref_Ok in Hlg. rewrite Hlg in Hp. injection Hp as <-. done.
    - assert (label <$> lookup_addr x (j_logs (store_at a lg' j)) = label <$> Some p) as E.
      { rewrite <- Hp. apply label_alter_ne; [|done].
        intros y Hy%deref_Ok. replace y with lg by congruence. exact Hlogs. }
      destruct (lookup_addr x (j_logs (store_at a lg' j))) as [p'|] eqn:E0; [|done].
      unfold label in E. cbn in E. exists p'. split_and!; [done|congruence..]. }
  split.
  - intros i l Hl. destruct (Hback _ _ Hl) as (l0 & Hl0 & _ & -> & Hp).
    destruct (Hroot i l0 Hl0) as [Hr Hn]. split; [done|].
    destruct Hp as [->|[<- ->]]; [done|]. destruct Hpar as [->|(p0 & Hp0 & _)]; [|done].
    rewrite (proj2 (deref_Ok _ _ _) Hl0) in Hlg. by injection Hlg as <-.
  - intros x i l Hx Hl. destruct (Hback _ _ Hl) as (l0 & Hl0 & _ & -> & Hp).
    destruct (Hchild x i l0 Hx Hl0) as (p & Hlp & -> & Hlink & Hget).
    destruct (Hforth x p Hlp) as (p' & Hlp' & Hidp & Hpidp). exists p'. rewrite Hidp.
    split_and!; [done..| |].
    + assert (link_ok p (lg_parent l)) as Hlk.
      { destruct Hp as [->|[<- ->]]; [done|]. destruct Hpar as [->|(p0 & Hp0 & Hlink0)].
        - rewrite (proj2 (deref_Ok _ _ _) Hl0) in Hlg. injection Hlg as <-. done.
        - rewrite removelast_last, Hlp in Hp0. by injection Hp0 as <-. }
      destruct (lg_parent l); cbn in *; congruence.
    + rewrite <- Hget. by apply (Get_store_at _ _ lg).
Qed.

(** ** The ancestors of a log *)
Lemma linked_sign a p sig j :
  deref a j = Ok p → linked j → linked (store_at a (set_Signature sig p) j).
Proof. intros Hp. apply (linked_store_at a p); [done..|]. repeat split. by left. Qed.

(** Writing the signature of one of its ancestors, a round moves one step up. *)
Lemma sparse_parent_up a i lg sig par a0 j :
  linked j → a ≠ [] → lookup_addr (a ++ [i]) (j_logs j) = Some lg →
  (par = NoParent ∨ par = lg_parent lg ∧ a0 = a ++ [i]) →
  ∃ p ppid pops psig j', lookup_addr a (j_logs j') = Some p ∧
    sparse_parent (lg_ParentID lg) sig par a0 j = (Ok (ppid, pops, psig), j') ∧
    ppid = lg_ParentID p ∧ linked j' ∧
    (∀ x, label <$> lookup_addr x (j_logs j') = label <$> lookup_addr x (j_logs j)).
Proof.
  intros Hj Ha Hlg Hpar. destruct (linked_child j Hj a i lg Ha Hlg) as (p & Hp & Hpid & Hlink & Hget).
  set (p' := if decide (lg_Signature p = "") then set_Signature sig p else p).
  assert (linked (store_at a p' j)) as Hj'.
  { apply deref_Ok in Hp. unfold p'. case_decide; [by apply linked_sign|by rewrite store_at_same]. }
  assert (∀ x, label <$> lookup_addr x (j_logs (store_at a p' j)) = label <$> lookup_addr x (j_logs j))
    as Hlab.
  { intros x. apply deref_Ok in Hp. apply (label_store_at a p); [done|by unfold p'; case_decide..]. }
  assert (∀ m : stM Journal addr, m j = (Ok a, j) →
    (pa ← m; p ← st_read (deref pa);
     let p' := if decide (lg_Signature p = "") then set_Signature sig p else p in
     st_modify (store_at pa p');;
     mret (M:=stM Journal) (lg_ParentID p', lg_Ops p', lg_Signature p')) j =
    (Ok (lg_ParentID p', lg_Ops p', lg_Signature p'), store_at a p' j)) as Hm.
  { intros m Hm. rewrite (bind_run _ _ _ _ _ Hm). apply deref_Ok in Hp. unfold st_read.
    rewrite (bind_run _ _ j p j) by (cbn; by rewrite Hp). done. }
  assert (lookup_addr a (j_logs (store_at a p' j)) = Some p') as Hlk.
  { unfold store_at. cbn. rewrite lookup_alter_addr, Hp. done. }
  unfold sparse_parent. destruct Hpar as [->|[-> ->]]; [|destruct (lg_parent lg) as [| |ppid pops psig rest] eqn:E].
  1,2: exists p'; do 3 eexists; exists (store_at a p' j); split; [done|]; split;
    [apply Hm; unfold st_read; by rewrite Hpid, Hget|done].
  - exists p'; do 3 eexists; exists (store_at a p' j); split; [done|]; split;
      [apply Hm; cbn; by rewrite removelast_last|done].
  - exists p; do 3 eexists; exists j. split; [done|]. split; [done|]. cbn in Hlink. by subst.
Qed.

(** In a linked journal the loop misses no ancestor and, with a unit of fuel
    for each of them, ends. *)
Lemma sparse_ancestors_linked fuel a lg sig par a0 j :
  linked j → lookup_addr a (j_logs j) = Some lg →
  (par = NoParent ∨ par = lg_parent lg ∧ a0 = a) →
  wp (sparse_ancestors fuel (lg_ParentID lg) sig par a0)
     (λ r j', linked j' ∧
       (∀ x, label <$> lookup_addr x (j_logs j') = label <$> lookup_addr x (j_logs j)) ∧
       match r with
       | Ok (link, err) =>
           err = None ∧
           (link = par ∨ ∃ p, lookup_addr (removelast a) (j_logs j') = Some p ∧ link_ok p link)
       | Error _ => False
       | Panic => S fuel < length a
       end) j.
Proof.
  unfold wp. revert a lg sig par a0 j.
  induction fuel as [|fuel IH]; intros a lg sig par a0 j Hj Hlg Hpar;
    destruct a as [|i a] using rev_ind; try done; clear IHa.
  all: destruct (decide (a = [])) as [->|Ha].
  1,3: cbn [sparse_ancestors]; rewrite (proj1 (linked_root j Hj i lg Hlg)), decide_True by done;
       cbn; split_and!; [done..|by left].
  - cbn. destruct (decide (lg_ParentID lg = "")); cbn; [by eauto|].
    split_and!; [done..|]. rewrite length_app. cbn. destruct a; [done|cbn; lia].
  - cbn [sparse_ancestors]. destruct (decide (lg_ParentID lg = "")); [cbn; split_and!; [done..|by left]|].
    destruct (sparse_parent_up a i lg sig par a0 j Hj Ha Hlg Hpar)
      as (p & ppid & pops & psig & j1 & Hp & -> & -> & Hj1 & Hlab1).
    pose proof (IH a p psig NoParent [] j1 Hj1 Hp (or_introl eq_refl)) as (Hj2 & Hlab2 & Hres).
    assert (∀ x, label <$> lookup_addr x (j_logs (sparse_ancestors fuel (lg_ParentID p) psig NoParent [] j1).2) =
                 label <$> lookup_addr x (j_logs j)) as Hlab by (intros x; by rewrite Hlab2).
    specialize (Hlab2 a). rewrite Hp in Hlab2. unfold mbind, stM_bind.
    destruct (sparse_ancestors fuel (lg_ParentID p) psig NoParent [] j1) as [[[rest err]|e|] j2];
      cbn in *; [|done|split_and!; [done..|rewrite length_app; cbn; lia]].
    split_and!; [done..|apply Hres|]. right. rewrite removelast_last.
    destruct (lookup_addr a (j_logs j2)) as [p2|]; [|done].
    exists p2. split; [done|]. unfold label in Hlab2. cbn in Hlab2 |- *. congruence.
Qed.

Lemma Descendants_same id a j l l' :
  Journal_Get id j = Ok a → deref a j = Ok l → Descendants l j = Ok l' → l' = l.
Proof.
  intros Hget Hl. pose proof (Get_sound _ _ _ Hget) as (l0 & Hl0 & Hid & _).
  assert (l0 = l) as -> by congruence. unfold Descendants. rewrite Hid, Hget. cbn.
  rewrite Hl. cbn. intros [= <-]. by destruct l.
Qed.

Lemma Descendants_run id a j l :
  Journal_Get id j = Ok a → deref a j = Ok l → Descendants l j = Ok l.
Proof.
  intros Hget Hl. pose proof (Get_sound _ _ _ Hget) as (l0 & Hl0 & Hid & _).
  assert (l0 = l) as -> by congruence. unfold Descendants. rewrite Hid, Hget. cbn.
  rewrite Hl. cbn. by destruct l.
Qed.

(** A log of a linked journal is found with all its ancestors, given a unit of
    fuel for each. *)
Lemma GetWithSparse_linked fuel id a j :
  linked j → Journal_Get id j = Ok a →
  wp (GetWithSparseAncestorsAllDescendants fuel id)
     (λ r j', linked j' ∧
       match r with
       | Ok a' => a' = a ∧ is_Some (lookup_addr a (j_logs j'))
       | Error _ => False
       | Panic => S fuel < length a
       end) j.
Proof.
  intros Hj Hget. destruct (Get_sound _ _ _ Hget) as (l & Hl & Hid & Hne).
  unfold wp, GetWithSparseAncestorsAllDescendants, st_read.
  rewrite (bind_run _ _ j a j) by by rewrite Hget.
  rewrite (bind_run _ _ j l j) by by rewrite Hl.
  rewrite (bind_run _ _ j l j) by (case_decide; [by rewrite (Descendants_run id a)|done]).
  rewrite (bind_run (st_modify _) _ j tt j) by (unfold st_modify; by rewrite store_at_same).
  pose proof (proj1 (deref_Ok _ _ _) Hl) as Hla.
  destruct (sparse_ancestors_linked fuel a l (lg_Signature l) (lg_parent l) a j Hj Hla)
    as (Hj1 & Hlab & Hres); [by right|].
  unfold mbind, stM_bind.
  destruct (sparse_ancestors fuel _ _ _ a j) as [[[link err]|e|] j1]; cbn in Hj1, Hlab, Hres |- *;
    [|done|by split].
  destruct Hres as [-> Hlink]. specialize (Hlab a). rewrite Hla in Hlab.
  destruct (lookup_addr a (j_logs j1)) as [l1|] eqn:E1; [|done]. apply deref_Ok in E1 as Hl1.
  rewrite Hl1. cbn. split; [|split; [done|]].
  - apply (linked_store_at a l1); [done..| |done]. unfold label in Hlab. cbn in Hlab.
    split_and!; [done..|]. cbn. destruct Hlink as [->|Hlink]; [left; congruence|by right].
  - rewrite lookup_alter_addr, E1. done.
Qed.
End digest.
