(* ===== verification/Dsref.v ===== *)
(** * Dataset references (src/dsref/ref.go, version_info.go, mem_resolver.go, resolve.go)

    References, version infos, and the resolvers that complete a reference.
    [dataset.Dataset] and its components belong to another repository; the
    records here hold the fields the modelled code reads. *)
From S2P Require Export GoStrings.

(** ** References *)

(** [type Ref struct] *)
Record Ref : Type := mkRef {
  ref_InitID : string;
  ref_Username : string;
  ref_ProfileID : string;
  ref_Name : string;
  ref_Path : string;
}.

#[export] Instance Ref_eq_dec : EqDecision Ref.
Proof. solve_decision. Defined.

Definition zero_Ref : Ref := mkRef "" "" "" "" "".

Definition nonempty (s : string) : bool :=
  match s with EmptyString => false | String _ _ => true end.

(** [Ref.Human] and [Ref.Alias] *)
Definition Human (r : Ref) : string :=
  ref_Username r +:+ (if nonempty (ref_Name r) then "/" +:+ ref_Name r else "").
Definition Alias (r : Ref) : string := Human r.

(** [Ref.String] *)
Definition Ref_String (r : Ref) : string :=
  Alias r +:+ (if nonempty (ref_InitID r) || nonempty (ref_Path r) then "@" else "") +:+
  ref_InitID r +:+ ref_Path r.

(** [Ref.LegacyProfileIDString] *)
Definition LegacyProfileIDString (r : Ref) : string :=
  Alias r +:+ (if nonempty (ref_InitID r) || nonempty (ref_Path r) then "@" else "") +:+
  ref_ProfileID r +:+ ref_Path r.

(** [Ref.IsEmpty], [Ref.IsPeerRef], [Ref.Complete], [Ref.Equals], [Ref.Copy] *)
Definition IsEmpty (r : Ref) : bool :=
  negb (nonempty (ref_InitID r)) && negb (nonempty (ref_Username r)) &&
  negb (nonempty (ref_ProfileID r)) && negb (nonempty (ref_Name r)) &&
  negb (nonempty (ref_Path r)).

Definition IsPeerRef (r : Ref) : bool :=
  (nonempty (ref_Username r) || nonempty (ref_ProfileID r)) &&
  negb (nonempty (ref_Name r)) && negb (nonempty (ref_Path r)) && negb (nonempty (ref_InitID r)).

Definition Complete (r : Ref) : bool :=
  nonempty (ref_InitID r) && nonempty (ref_Username r) && nonempty (ref_ProfileID r) &&
  nonempty (ref_Name r) && nonempty (ref_Path r).

Definition Ref_Equals (r t : Ref) : bool :=
  bool_decide (ref_InitID r = ref_InitID t) &&
  bool_decide (ref_Username r = ref_Username t) &&
  bool_decide (ref_ProfileID r = ref_ProfileID t) &&
  bool_decide (ref_Name r = ref_Name t) &&
  bool_decide (ref_Path r = ref_Path t).

Definition Ref_Copy (r : Ref) : Ref :=
  mkRef (ref_InitID r) (ref_Username r) (ref_ProfileID r) (ref_Name r) (ref_Path r).

(** ** Version infos *)

(** [type VersionInfo struct]; times are nanoseconds since the epoch. *)
Record VersionInfo : Type := mkVersionInfo {
  vi_InitID : string;
  vi_Username : string;
  vi_ProfileID : string;
  vi_Name : string;
  vi_Path : string;
  vi_Published : bool;
  vi_Foreign : bool;
  vi_MetaTitle : string;
  vi_ThemeList : string;
  vi_BodySize : Z;
  vi_BodyRows : Z;
  vi_BodyFormat : string;
  vi_NumErrors : Z;
  vi_CommitTime : Z;
  vi_CommitTitle : string;
  vi_CommitMessage : string;
  vi_NumVersions : Z;
  vi_FSIPath : string;
  vi_RunID : string;
  vi_RunStatus : string;
  vi_RunDuration : Z;
}.

#[export] Instance VersionInfo_eq_dec : EqDecision VersionInfo.
Proof. solve_decision. Defined.

(** [Ref.VersionInfo] and [NewVersionInfoFromRef] *)
Definition NewVersionInfoFromRef (r : Ref) : VersionInfo :=
  mkVersionInfo (ref_InitID r) (ref_Username r) (ref_ProfileID r) (ref_Name r) (ref_Path r)
    false false "" "" 0 0 "" 0 0 "" "" 0 "" "" "" 0.
Definition Ref_VersionInfo (r : Ref) : VersionInfo := NewVersionInfoFromRef r.

(** [VersionInfo.SimpleRef] *)
Definition SimpleRef (v : VersionInfo) : Ref :=
  mkRef (vi_InitID v) (vi_Username v) (vi_ProfileID v) (vi_Name v) (vi_Path v).

(** [VersionInfo.Alias] *)
Definition VersionInfo_Alias (v : VersionInfo) : string :=
  vi_Username v +:+ (if nonempty (vi_Name v) then "/" +:+ vi_Name v else "").

(** ** Datasets: the fields of [dataset.Dataset] the code reads *)
Record Commit : Type := mkCommit {
  cm_Timestamp : Z;
  cm_Title : string;
  cm_Message : string;
  cm_RunID : string;
}.
Record Meta : Type := mkMeta {
  md_Title : string;
  md_Theme : option (list string);
}.
Record Structure : Type := mkStructure {
  st_Format : string;
  st_Length : Z;
  st_Entries : Z;
  st_ErrCount : Z;
}.
Record Dataset : Type := mkDataset {
  ds_Peername : string;
  ds_ProfileID : string;
  ds_Name : string;
  ds_Path : string;
  ds_PreviousPath : string;
  ds_NumVersions : Z;
  ds_Commit : option Commit;
  ds_Meta : option Meta;
  ds_Structure : option Structure;
}.

(** [ConvertDatasetToVersionInfo] *)
Definition ConvertDatasetToVersionInfo (ds : Dataset) : VersionInfo :=
  let cm f := from_option f "" (ds_Commit ds) in
  let st f := from_option f 0%Z (ds_Structure ds) in
  mkVersionInfo "" (ds_Peername ds) (ds_ProfileID ds) (ds_Name ds) (ds_Path ds)
    false false
    (from_option md_Title "" (ds_Meta ds))
    (from_option (λ md, from_option (λ th, strings_Join th ",") "" (md_Theme md)) "" (ds_Meta ds))
    (st st_Length) (st st_Entries) (from_option st_Format "" (ds_Structure ds)) (st st_ErrCount)
    (from_option cm_Timestamp 0%Z (ds_Commit ds)) (cm cm_Title) (cm cm_Message)
    0 "" (cm cm_RunID) "" 0.

(** ** Resolvers *)

Definition ErrRefNotFound : error := ErrSentinel "reference not found".

(** [type Resolver interface]: resolution works on the reference it is given
    (an out parameter in Go), and returns the source that resolved it. *)
Class Resolver (R : Type) : Type := ResolveRef : R → stM Ref string.

(** [sequentialResolver.ResolveRef]: the resolvers in order, a nil one
    skipped, until one does not answer that the reference is not found. *)
Fixpoint sequentialResolver_ResolveRef (sr : list (option (stM Ref string))) : stM Ref string :=
  λ ref,
  match sr with
  | [] => (Error ErrRefNotFound, ref)
  | None :: sr' => sequentialResolver_ResolveRef sr' ref
  | Some resolver :: sr' =>
      match resolver ref with
      | (Ok source, ref') => (Ok source, ref')
      | (Error e, ref') =>
          if errors_Is e "reference not found" then sequentialResolver_ResolveRef sr' ref'
          else (Error e, ref')
      | (Panic, ref') => (Panic, ref')
      end
  end.

(** [parallelResolver.ResolveRef]: every resolver runs on its own copy of the
    reference and reports once. [arrivals] is the order the reports reach the
    [select] loop, [attempts] the number still expected; when the reports run
    out before the loop returns it blocks until the context is done. *)
Inductive parallel_result : Type :=
| PRFound (source : string) (ref : Ref)
| PRError (e : error)
| PRPanic
| PRBlocked.

Definition run_resolver (r : option (stM Ref string)) (ref : Ref) : outcome string * Ref :=
  match r with
  | None => (Error ErrRefNotFound, ref)
  | Some resolve => resolve (Ref_Copy ref)
  end.

Fixpoint parallel_select (attempts : nat) (arrivals : list (outcome string * Ref))
    : parallel_result :=
  match arrivals with
  | [] => PRBlocked
  | (Ok source, ref) :: _ => PRFound source ref
  | (Error e, _) :: arrivals' =>
      if negb (errors_Is e "reference not found") then PRError e
      else if decide (attempts = 1) then PRError ErrRefNotFound
      else parallel_select (attempts - 1) arrivals'
  | (Panic, _) :: _ => PRPanic
  end.

Definition parallelResolver_ResolveRef (rs : list (option (stM Ref string)))
    (schedule : list nat) (ref : Ref) : parallel_result :=
  parallel_select (length rs)
    (omap (λ i, r ← rs !! i; Some (run_resolver r ref)) schedule).

(** ** The in-memory resolver *)

(** [type MemResolver struct] *)
Record MemResolver : Type := mkMemResolver {
  mr_Username : string;
  mr_RefMap : gmap string string;
  mr_IDMap : gmap string VersionInfo;
}.

(** [NewMemResolver] *)
Definition NewMemResolver (username : string) : MemResolver := mkMemResolver username ∅ ∅.

(** [MemResolver.Put] *)
Definition MemResolver_Put (info : VersionInfo) (m : MemResolver) : MemResolver :=
  let refStr := vi_Username info +:+ "/" +:+ vi_Name info in
  let initID := vi_InitID info in
  mkMemResolver (mr_Username m) (<[refStr := initID]> (mr_RefMap m))
    (<[initID := info]> (mr_IDMap m)).

(** [MemResolver.GetInfo] *)
Definition MemResolver_GetInfo (initID : string) (m : MemResolver) : option VersionInfo :=
  mr_IDMap m !! initID.

(** [MemResolver.ResolveRef]; a missing key of [RefMap] reads as the empty
    string. *)
#[export] Instance MemResolver_ResolveRef : Resolver (option MemResolver) := λ m ref,
  match m with
  | None => (Error ErrRefNotFound, ref)
  | Some m =>
      let id := default "" (mr_RefMap m !! Alias ref) in
      match mr_IDMap m !! id with
      | None => (Error ErrRefNotFound, ref)
      | Some resolved =>
          (Ok "", mkRef id (ref_Username ref) (vi_ProfileID resolved) (ref_Name ref)
                    (if nonempty (ref_Path ref) then ref_Path ref else vi_Path resolved))
      end
  end.
