(* ===== verification/DsrefParse.v ===== *)
(** * Reference syntax (src/dsref/parse.go)

    The regular expressions of the package and the parsers built on them. The
    character classes of each expression are disjoint from what follows them,
    so Go's leftmost-first matching is the greedy scan written here. *)
From S2P Require Export Dsref.

(** ** Character classes *)
Definition is_char (d c : ascii) : bool := Ascii.eqb c d.

(** [[a-zA-Z]], [[\w-]], [[0-9a-zA-Z]], [[a-z2-7]], [[1-9A-HJ-NP-Za-km-z]] *)
Definition is_word (c : ascii) : bool :=
  is_alpha c || is_digit c || is_char "_" c || is_char "-" c.
Definition is_alnum (c : ascii) : bool := is_digit c || is_alpha c.
Definition is_base58 (c : ascii) : bool :=
  in_range 49 57 c || in_range 65 72 c || in_range 74 78 c || in_range 80 90 c ||
  in_range 97 107 c || in_range 109 122 c.

(** The longest prefix of bytes of a class, of at most [n] bytes when there
    is a bound, and the rest. *)
Fixpoint scan (p : ascii → bool) (n : option nat) (s : string) : string * string :=
  match s with
  | EmptyString => ("", s)
  | String c s' =>
      match n with
      | Some 0 => ("", s)
      | _ => if p c
             then let '(m, rest) := scan p (pred <$> n) s' in (String c m, rest)
             else ("", s)
      end
  end.

(** [^[a-zA-Z][\w-]*]: the match and the rest *)
Definition alphaNumeric (s : string) : option (string * string) :=
  match s with
  | String c s' => if is_alpha c
                   then let '(m, rest) := scan is_word None s' in Some (String c m, rest)
                   else None
  | EmptyString => None
  end.

(** [Qm[0-9a-zA-Z]{0,44}] *)
Definition b58Id (s : string) : option (string * string) :=
  rest ← strip_prefix "Qm" s;
  let '(m, rest') := scan is_alnum (Some 44) rest in Some ("Qm" +:+ m, rest').

(** [validName.FindString]: the empty string without a match *)
Definition validName (s : string) : string := from_option fst "" (alphaNumeric s).

(** [dsNameCheck]: [^[a-zA-Z][\w-]{0,143}$] *)
Definition dsNameCheck (s : string) : bool :=
  match s with
  | String c s' => is_alpha c && string_all is_word s' && bool_decide (String.length s' ≤ 143)%nat
  | EmptyString => false
  end.

(** [b58StrictCheck]: [^Qm[1-9A-HJ-NP-Za-km-z]*$] and [b32LowerCheck]:
    [^[a-z2-7]*$], as [FindString], whose result is empty without a match *)
Definition b58StrictCheck (s : string) : string :=
  match strip_prefix "Qm" s with
  | Some rest => if string_all is_base58 rest then s else ""
  | None => ""
  end.
Definition b32LowerCheck (s : string) : string := if string_all is_base32 s then s else "".

(** [concreteRef]:
    [^@( [a-z2-7]{0,52} | Qm[0-9a-zA-Z]{0,44} )? / ( [a-zA-Z][\w-]* ) / ( Qm[0-9a-zA-Z]{0,44} )].
    The result is the three groups and the text after the match. *)
Definition concreteRef_tail (s : string) : option (string * string * string) :=
  s1 ← strip_prefix "/" s;
  '(network, s2) ← alphaNumeric s1;
  s3 ← strip_prefix "/" s2;
  '(hash, rest) ← b58Id s3;
  Some (network, hash, rest).

Definition concreteRef_match (s : string) : option (string * string * string * string) :=
  s0 ← strip_prefix "@" s;
  let '(b32, s1) := scan is_base32 (Some 52) s0 in
  match concreteRef_tail s1 with
  | Some (network, hash, rest) => Some (b32, network, hash, rest)
  | None =>
      '(b58, s1') ← b58Id s0;
      '(network, hash, rest) ← concreteRef_tail s1';
      Some (b58, network, hash, rest)
  end.

(** ** Errors *)
Definition ErrEmptyRef : error := ErrSentinel "empty reference".
Definition ErrParseError : error := ErrSentinel "could not parse ref".
Definition ErrUnexpectedChar : error := ErrSentinel "unexpected character".
Definition ErrNotHumanFriendly : error :=
  ErrSentinel "unexpected character '@', ref can only have username/name".
Definition ErrBadCaseName : error :=
  ErrSentinel "dataset name may not contain any upper-case letters".
Definition ErrBadCaseUsername : error :=
  ErrSentinel "username may not contain any upper-case letters".
Definition ErrBadCaseShouldRename : error :=
  ErrSentinel "dataset name should not contain any upper-case letters, rename it to only use lower-case letters, numbers, and underscores".
Definition ErrDescribeValidName : error :=
  ErrSentinel "dataset name must start with a lower-case letter, and only contain lower-case letters, numbers, dashes, and underscore. Maximum length is 144 characters".
Definition ErrDescribeValidUsername : error :=
  ErrSentinel "username must start with a lower-case letter, and only contain lower-case letters, numbers, dashes, and underscores".
Definition needUsernameSeparatedErr : string :=
  "need username separated by '/' from dataset name".

(** [NewParseError] *)
Definition NewParseError (template : string) (args : list string) : error := Errorf template args.

(** [unicode.IsUpper] of some rune of a string of ASCII bytes *)
Definition has_upper (s : string) : bool := existsb is_upper (bytes s).
#[global] Arguments has_upper : simpl never.

(** ** Parsers *)

(** [parseHumanFriendlyPortion]: the text that is left, the partial reference
    and the error *)
Definition parseHumanFriendlyPortion (text : string) : string * Ref * option error :=
  match alphaNumeric text with
  | None => (text, zero_Ref, Some ErrParseError)
  | Some (user, text1) =>
      let r := mkRef "" user "" "" "" in
      match text1 with
      | EmptyString => (text1, r, Some (NewParseError needUsernameSeparatedErr []))
      | String c text2 =>
          if negb (is_char "/" c) then (text1, r, Some ErrUnexpectedChar)
          else match alphaNumeric text2 with
               | None => (text2, r, Some (NewParseError "did not find valid dataset name" []))
               | Some (name, text3) => (text3, mkRef "" user "" name "", None)
               end
      end
  end.

(** [parseConcreteRef] *)
Definition parseConcreteRef (text : string) : string * Ref * option error :=
  match concreteRef_match text with
  | None => (text, zero_Ref, Some ErrParseError)
  | Some (id, network, hash, rest) =>
      if negb (bool_decide (network = "mem")) && negb (bool_decide (network = "ipfs"))
      then (text, zero_Ref, Some (NewParseError "invalid network" []))
      else
        let withID :=
          if negb (nonempty id) then inr zero_Ref
          else if nonempty (b58StrictCheck id) then inr (mkRef "" "" id "" "")
          else if negb (nonempty (b32LowerCheck id))
          then inl (NewParseError "datasetID contains invalid base32 characters" [])
          else inr (mkRef id "" "" "" "") in
        match withID with
        | inl e => (text, zero_Ref, Some e)
        | inr r =>
            if nonempty hash && negb (nonempty (b58StrictCheck hash))
            then (text, r, Some (NewParseError "path contains invalid base58 characters" []))
            else (rest, mkRef (ref_InitID r) "" (ref_ProfileID r) ""
                          ("/" +:+ network +:+ "/" +:+ hash), None)
        end
  end.

(** The last two steps of [parse]: nothing may be left, and the name may not
    have upper-case letters (the reference is returned with the error). *)
Definition parse_rest (origLength : nat) (text : string) (r : Ref) : Ref * option error :=
  match text with
  | String c _ =>
      (r, Some (NewParseError "unexpected character at position %d: '%c'"
            [strconv_Itoa (Z.of_nat (origLength - String.length text)); String c ""]))
  | EmptyString => if has_upper (ref_Name r) then (r, Some ErrBadCaseName) else (r, None)
  end.

Definition parse_concrete (origLength : nat) (text : string) (r : Ref) : Ref * option error :=
  let '(remain, partial, err) := parseConcreteRef text in
  match err with
  | None => parse_rest origLength remain
              (mkRef (ref_InitID partial) (ref_Username r) (ref_ProfileID partial)
                     (ref_Name r) (ref_Path partial))
  | Some e => if decide (e = ErrParseError) then parse_rest origLength text r else (r, Some e)
  end.

(** [parse] *)
Definition parse (text : string) (peerRef : bool) : Ref * option error :=
  match text with
  | EmptyString => (zero_Ref, Some ErrEmptyRef)
  | _ =>
      let origLength := String.length text in
      let '(remain, partial, err) := parseHumanFriendlyPortion text in
      match err with
      | None => parse_concrete origLength remain
                  (mkRef "" (ref_Username partial) "" (ref_Name partial) "")
      | Some e =>
          if decide (e = Errorf needUsernameSeparatedErr []) then
            if peerRef then (partial, None) else (zero_Ref, Some e)
          else if decide (e = ErrUnexpectedChar) then
            match remain with
            | String c _ =>
                (zero_Ref, Some (NewParseError "%s at position %d: '%c'"
                   ["unexpected character";
                    strconv_Itoa (Z.of_nat (origLength - String.length remain)); String c ""]))
            | EmptyString => (zero_Ref, Some ErrUnexpectedChar)
            end
          else if decide (e = ErrParseError) then parse_concrete origLength text zero_Ref
          else (zero_Ref, Some e)
      end
  end.

(** [Parse] and [ParsePeerRef] *)
Definition Parse (text : string) : Ref * option error := parse text false.
Definition ParsePeerRef (text : string) : Ref * option error := parse text true.

(** [ParseHumanFriendly] *)
Definition ParseHumanFriendly (text : string) : Ref * option error :=
  match text with
  | EmptyString => (zero_Ref, Some ErrEmptyRef)
  | _ =>
      let origLength := String.length text in
      let '(remain, partial, err) := parseHumanFriendlyPortion text in
      let finish text r :=
        match text with
        | String c _ => if is_char "@" c then (r, Some ErrNotHumanFriendly)
                        else parse_rest origLength text r
        | EmptyString => parse_rest origLength text r
        end in
      match err with
      | None => finish remain (mkRef "" (ref_Username partial) "" (ref_Name partial) "")
      | Some e => if decide (e = ErrParseError) then finish text zero_Ref else (zero_Ref, Some e)
      end
  end.

(** [MustParse]: panics on an error *)
Definition MustParse (text : string) : outcome Ref :=
  match Parse text with (r, None) => Ok r | (_, Some _) => Panic end.

(** [IsRefString] *)
Definition IsRefString (text : string) : bool :=
  match snd (Parse text) with
  | None => true
  | Some e => bool_decide (e = ErrBadCaseName)
  end.

(** [IsValidName], [EnsureValidName] and [EnsureValidUsername] *)
Definition IsValidName (text : string) : bool := dsNameCheck text.

Definition EnsureValidName (text : string) : option error :=
  if negb (dsNameCheck text) then Some ErrDescribeValidName
  else if has_upper text then Some ErrBadCaseName else None.

Definition EnsureValidUsername (text : string) : option error :=
  match EnsureValidName text with
  | Some e => if decide (e = ErrDescribeValidName) then Some ErrDescribeValidUsername
              else if decide (e = ErrBadCaseName) then Some ErrBadCaseUsername else Some e
  | None => None
  end.
