(* ===== verification/DsrefFacts.v ===== *)
(** * Facts about references: parsing and printing are inverse *)
From S2P Require Export DsrefParse.

(** ** Scanning *)
Lemma scan_app p n s m rest : scan p n s = (m, rest) → s = m +:+ rest.
Proof.
  revert n m. induction s as [|c s IH]; intros n m; cbn.
  { destruct n; by intros [= <- <-]. }
  destruct n as [[|n]|]; [by intros [= <- <-]| |];
    (destruct (p c); [|by intros [= <- <-]];
     destruct (scan p _ s) as [m' r'] eqn:E; intros [= <- <-];
     cbn; f_equal; by eapply IH).
Qed.

Lemma scan_all p n s m rest : scan p n s = (m, rest) → string_all p m = true.
Proof.
  revert n m. induction s as [|c s IH]; intros n m; cbn.
  { destruct n; by intros [= <- <-]. }
  destruct n as [[|n]|]; [by intros [= <- <-]| |];
    (destruct (p c) eqn:Hc; [|by intros [= <- <-]];
     destruct (scan p _ s) as [m' r'] eqn:E; intros [= <- <-];
     unfold string_all in *; cbn; rewrite Hc; by eapply IH).
Qed.

(** A run of the class that is not too long is scanned whole when what
    follows is outside the class. *)
Definition stops (p : ascii → bool) (s : string) : bool :=
  match s with String c _ => negb (p c) | EmptyString => true end.

Lemma scan_run p n s t :
  string_all p s = true → stops p t = true →
  (∀ k, n = Some k → String.length s ≤ k) → scan p n (s +:+ t) = (s, t).
Proof.
  unfold string_all. revert n. induction s as [|c s IH]; cbn; intros n Hs Ht Hn.
  - destruct t as [|d t]; cbn in *; [by destruct n as [[]|]|].
    destruct n as [[|n]|]; [done| |]; by destruct (p d).
  - apply andb_true_iff in Hs as [Hc Hs]. destruct n as [[|k]|].
    + specialize (Hn 0 eq_refl). lia.
    + rewrite Hc, IH; [done|done|done|]. intros j [= <-]. specialize (Hn _ eq_refl). cbn. lia.
    + rewrite Hc, IH; done.
Qed.

(** ** Names *)
Definition valid_word (s : string) : Prop :=
  match s with String c s' => is_alpha c = true ∧ string_all is_word s' = true | EmptyString => False end.

Lemma alphaNumeric_Some s m rest :
  alphaNumeric s = Some (m, rest) → s = m +:+ rest ∧ valid_word m.
Proof.
  destruct s as [|c s]; cbn; [done|]. destruct (is_alpha c) eqn:Hc; [|done].
  destruct (scan is_word None s) as [m' r'] eqn:E. intros [= <- <-]. split.
  - cbn. f_equal. by eapply scan_app.
  - split; [done|]. by eapply scan_all.
Qed.

Lemma alphaNumeric_run m t :
  valid_word m → stops is_word t = true → alphaNumeric (m +:+ t) = Some (m, t).
Proof.
  destruct m as [|c m]; cbn; [done|]. intros [Hc Hm] Ht. rewrite Hc, scan_run; done.
Qed.

Lemma valid_word_nonempty m : valid_word m → m ≠ "".
Proof. by destruct m. Qed.

Lemma nonempty_true s : nonempty s = true ↔ s ≠ "".
Proof. by destruct s. Qed.

Lemma nonempty_false s : nonempty s = false ↔ s = "".
Proof. by destruct s. Qed.

(** ** References that print to a string [Parse] accepts *)
Definition valid_hash (h : string) : Prop :=
  ∃ t, h = "Qm" +:+ t ∧ string_all is_base58 t = true ∧ String.length t ≤ 44.

Definition valid_path (p : string) : Prop :=
  ∃ network h, (network = "mem" ∨ network = "ipfs") ∧ valid_hash h ∧
    p = "/" +:+ network +:+ "/" +:+ h.

Record printable (r : Ref) : Prop := {
  pr_human : valid_word (ref_Username r) ∧ valid_word (ref_Name r) ∧ has_upper (ref_Name r) = false
             ∨ ref_Username r = "" ∧ ref_Name r = "" ∧ ref_Path r ≠ "";
  pr_profile : ref_ProfileID r = "";
  pr_concrete : ref_InitID r = "" ∧ ref_Path r = ""
                ∨ valid_path (ref_Path r) ∧ string_all is_base32 (ref_InitID r) = true ∧
                  String.length (ref_InitID r) ≤ 52;
}.

Lemma base58_alnum c : is_base58 c = true → is_alnum c = true.
Proof.
  unfold is_base58, is_alnum, is_alpha, is_digit, is_lower, is_upper, in_range.
  rewrite !orb_true_iff, !bool_decide_eq_true. lia.
Qed.

Lemma string_all_impl (p q : ascii → bool) s :
  (∀ c, p c = true → q c = true) → string_all p s = true → string_all q s = true.
Proof. unfold string_all. rewrite !forallb_forall. auto. Qed.

Lemma b58Id_hash h : valid_hash h → b58Id h = Some (h, "").
Proof.
  intros (t & -> & Ht & Hlen). unfold b58Id. cbn [strip_prefix String.append].
  rewrite !Ascii.eqb_refl. cbn [mbind option_bind].
  rewrite <- (string_app_nil_r t) at 1. rewrite scan_run; [done| |done|naive_solver].
  eapply string_all_impl, Ht. apply base58_alnum.
Qed.

Lemma b58Strict_hash h : valid_hash h → b58StrictCheck h = h.
Proof.
  intros (t & -> & Ht & Hlen). unfold b58StrictCheck. cbn. by rewrite Ht.
Qed.

Lemma valid_hash_nonempty h : valid_hash h → h ≠ "".
Proof. by intros (t & -> & _). Qed.

Lemma b58Strict_base32 id : string_all is_base32 id = true → b58StrictCheck id = "".
Proof.
  intros Hid. unfold b58StrictCheck. destruct (strip_prefix "Qm" id) as [t|] eqn:E; [|done].
  apply strip_prefix_Some in E as ->. unfold string_all in Hid. cbn in Hid. done.
Qed.

Lemma concreteRef_tail_path network h :
  network = "mem" ∨ network = "ipfs" → valid_hash h →
  concreteRef_tail ("/" +:+ network +:+ "/" +:+ h) = Some (network, h, "").
Proof.
  intros Hn Hh. unfold concreteRef_tail. cbn [strip_prefix String.append].
  rewrite Ascii.eqb_refl. cbn [mbind option_bind].
  rewrite alphaNumeric_run; [|by destruct Hn as [-> | ->]|done].
  cbn [mbind option_bind strip_prefix String.append]. rewrite Ascii.eqb_refl.
  cbn [mbind option_bind]. by rewrite b58Id_hash.
Qed.

Lemma parseConcreteRef_print id p :
  valid_path p → string_all is_base32 id = true → String.length id ≤ 52 →
  parseConcreteRef ("@" +:+ id +:+ p) = ("", mkRef id "" "" "" p, None).
Proof.
  intros (network & h & Hn & Hh & ->) Hid Hlen.
  unfold parseConcreteRef, concreteRef_match. cbn [strip_prefix String.append].
  rewrite Ascii.eqb_refl. cbn [mbind option_bind].
  rewrite scan_run; [|done|done|naive_solver].
  change (String "/" (network +:+ String "/" h)) with ("/" +:+ network +:+ "/" +:+ h).
  rewrite concreteRef_tail_path by done.
  replace (negb (bool_decide (network = "mem")) && negb (bool_decide (network = "ipfs")))
    with false by (by destruct Hn as [-> | ->]).
  rewrite b58Strict_base32 by done. unfold b32LowerCheck. rewrite Hid.
  rewrite b58Strict_hash by done.
  assert (nonempty h = true) as -> by (by apply nonempty_true, valid_hash_nonempty).
  destruct (nonempty id) eqn:Hne; cbn; [done|].
  by apply nonempty_false in Hne as ->.
Qed.

Lemma parse_concrete_print n r :
  printable r → parse_concrete n
    ((if nonempty (ref_InitID r) || nonempty (ref_Path r) then "@" else "") +:+
     ref_InitID r +:+ ref_Path r) (mkRef "" (ref_Username r) "" (ref_Name r) "") = (r, None).
Proof.
  destruct r as [id user prof name path]. intros [Hh Hp Hc]; cbn in *. subst prof.
  assert (has_upper name = false) as Hup by (destruct Hh as [(_ & _ & H)|(_ & -> & _)]; done).
  unfold parse_concrete.
  destruct Hc as [[-> ->]|(Hpath & Hid & Hlen)].
  - cbn. by rewrite Hup.
  - assert (nonempty path = true) as ->
      by (apply nonempty_true; by destruct Hpath as (? & ? & _ & _ & ->)).
    rewrite orb_true_r, parseConcreteRef_print by done. cbn. by rewrite Hup.
Qed.

Lemma parse_human user name tail peer :
  valid_word user → valid_word name → stops is_word tail = true →
  parse (user +:+ "/" +:+ name +:+ tail) peer =
    parse_concrete (String.length (user +:+ "/" +:+ name +:+ tail)) tail (mkRef "" user "" name "").
Proof.
  intros Hu Hn Ht.
  assert (parseHumanFriendlyPortion (user +:+ "/" +:+ name +:+ tail)
          = (tail, mkRef "" user "" name "", None)) as Hp.
  { unfold parseHumanFriendlyPortion. rewrite alphaNumeric_run by done. cbn [String.append].
    by rewrite alphaNumeric_run. }
  unfold parse. rewrite Hp. by destruct user.
Qed.

Lemma parse_at s peer :
  parse ("@" +:+ s) peer = parse_concrete (String.length ("@" +:+ s)) ("@" +:+ s) zero_Ref.
Proof. reflexivity. Qed.

Lemma parse_print r peer : printable r → parse (Ref_String r) peer = (r, None).
Proof.
  intros Hr. pose proof (parse_concrete_print (String.length (Ref_String r)) r Hr) as Hcon.
  unfold Ref_String, Alias, Human in *. destruct (pr_human r Hr) as [(Hu & Hn & _)|(Hu & Hn & Hp)].
  - assert (nonempty (ref_Name r) = true) as Hne
      by (by apply nonempty_true, valid_word_nonempty).
    rewrite Hne in *. rewrite !string_app_assoc in *.
    set (tail := _ +:+ ref_InitID r +:+ ref_Path r) in *.
    assert (stops is_word tail = true) as Hstop.
    { subst tail. destruct (nonempty (ref_InitID r)) eqn:E1, (nonempty (ref_Path r)) eqn:E2; cbn; try done.
      apply nonempty_false in E1 as ->. by apply nonempty_false in E2 as ->. }
    rewrite (parse_human (ref_Username r) (ref_Name r) tail); done.
  - rewrite Hu, Hn in *.
    assert (nonempty (ref_Path r) = true) as Hpe by (by apply nonempty_true).
    rewrite Hpe, orb_true_r in *. etrans; [apply (parse_at (ref_InitID r +:+ ref_Path r))|exact Hcon].
Qed.

(** What [Parse] accepts, it can print back: the text is the reference's
    [String], or its [LegacyProfileIDString] when it names a profile. *)
Lemma concreteRef_tail_Some s network hash rest :
  concreteRef_tail s = Some (network, hash, rest) →
  s = "/" +:+ network +:+ "/" +:+ hash +:+ rest.
Proof.
  unfold concreteRef_tail.
  destruct (strip_prefix "/" s) as [s1|] eqn:E1; cbn -[strip_prefix]; [|done].
  destruct (alphaNumeric s1) as [[n s2]|] eqn:E2; cbn -[strip_prefix]; [|done].
  destruct (strip_prefix "/" s2) as [s3|] eqn:E3; cbn -[strip_prefix]; [|done].
  unfold b58Id. destruct (strip_prefix "Qm" s3) as [s4|] eqn:E4; cbn -[strip_prefix]; [|done].
  destruct (scan is_alnum (Some 44) s4) as [m r'] eqn:E5. cbn. intros [= <- <- <-].
  apply strip_prefix_Some in E1 as ->. apply alphaNumeric_Some in E2 as [-> _].
  apply strip_prefix_Some in E3 as ->. apply strip_prefix_Some in E4 as ->.
  apply scan_app in E5 as ->. done.
Qed.

Lemma concreteRef_match_Some s id network hash rest :
  concreteRef_match s = Some (id, network, hash, rest) →
  s = "@" +:+ id +:+ "/" +:+ network +:+ "/" +:+ hash +:+ rest.
Proof.
  unfold concreteRef_match.
  destruct (strip_prefix "@" s) as [s0|] eqn:E0; cbn -[strip_prefix]; [|done].
  apply strip_prefix_Some in E0 as ->.
  destruct (scan is_base32 (Some 52) s0) as [b32 s1] eqn:E1.
  apply scan_app in E1 as Hs0.
  destruct (concreteRef_tail s1) as [[[n h] r]|] eqn:E2.
  - intros [= <- <- <- <-]. apply concreteRef_tail_Some in E2 as ->. by rewrite Hs0.
  - cbn -[strip_prefix b58Id]. unfold b58Id. destruct (strip_prefix "Qm" s0) as [s4|] eqn:E4; cbn -[strip_prefix concreteRef_tail]; [|done].
    destruct (scan is_alnum (Some 44) s4) as [m r'] eqn:E5. cbn -[concreteRef_tail].
    destruct (concreteRef_tail r') as [[[n h] r]|] eqn:E6; cbn; [|done].
    intros [= <- <- <- <-]. apply concreteRef_tail_Some in E6 as ->.
    apply strip_prefix_Some in E4 as ->. apply scan_app in E5 as ->. done.
Qed.

(** The text of a reference whose only identifier is [id]. *)
Definition print_with (id : string) (r : Ref) : string :=
  Alias r +:+ (if nonempty (ref_Path r) then "@" +:+ id +:+ ref_Path r else "").

Lemma parseConcreteRef_None s rest r :
  parseConcreteRef s = (rest, r, None) →
  ref_Path r ≠ "" ∧ (ref_InitID r = "" ∨ ref_ProfileID r = "") ∧
  s = "@" +:+ (ref_InitID r +:+ ref_ProfileID r) +:+ ref_Path r +:+ rest.
Proof.
  unfold parseConcreteRef.
  destruct (concreteRef_match s) as [[[[id network] hash] rest']|] eqn:E; [|done].
  apply concreteRef_match_Some in E as ->.
  destruct (negb _ && negb _); [done|].
  destruct (nonempty id) eqn:Hid; cbn.
  2: { apply nonempty_false in Hid as ->. destruct (nonempty hash && _); [done|].
       intros [= <- <-]; cbn. split_and!; [done|by left|]. by rewrite !string_app_assoc. }
  destruct (nonempty (b58StrictCheck id)) eqn:E58; cbn.
  { destruct (nonempty hash && _); [done|]. intros [= <- <-]; cbn.
    split_and!; [done|by left|]. by rewrite !string_app_assoc. }
  destruct (nonempty (b32LowerCheck id)) eqn:E32; cbn; [|done].
  destruct (nonempty hash && _); [done|]. intros [= <- <-]; cbn.
  split_and!; [done|by right|]. by rewrite string_app_nil_r, !string_app_assoc.
Qed.

Lemma parse_rest_None n text r r' : parse_rest n text r = (r', None) → text = "" ∧ r' = r.
Proof. unfold parse_rest. destruct text; [|done]. case_match; naive_solver. Qed.

Lemma parse_concrete_None n text r r' :
  parse_concrete n text r = (r', None) → ref_InitID r = "" → ref_ProfileID r = "" → ref_Path r = "" →
  ref_Username r' = ref_Username r ∧ ref_Name r' = ref_Name r ∧
  (ref_InitID r' = "" ∨ ref_ProfileID r' = "") ∧
  text = (if nonempty (ref_Path r') then "@" +:+ (ref_InitID r' +:+ ref_ProfileID r') +:+ ref_Path r' else "").
Proof.
  unfold parse_concrete. destruct (parseConcreteRef text) as [[remain partial] err] eqn:E.
  intros H Hi Hp Hpath. destruct err as [e|].
  - case_decide; [|done]. apply parse_rest_None in H as [-> ->]. rewrite Hi, Hp, Hpath. cbn.
    naive_solver.
  - apply parse_rest_None in H as [-> ->]. cbn.
    apply parseConcreteRef_None in E as (Hne & Hor & ->).
    assert (nonempty (ref_Path partial) = true) as -> by by apply nonempty_true.
    rewrite string_app_nil_r. naive_solver.
Qed.

Lemma parse_sound text r :
  Parse text = (r, None) →
  (ref_InitID r = "" ∨ ref_ProfileID r = "") ∧
  text = print_with (ref_InitID r +:+ ref_ProfileID r) r.
Proof.
  unfold Parse, parse, print_with. destruct text as [|c0 t0]; [done|].
  set (text := String c0 t0). unfold parseHumanFriendlyPortion.
  destruct (alphaNumeric text) as [[user text1]|] eqn:Eu; cbn -[text].
  - apply alphaNumeric_Some in Eu as [Htext Huser].
    destruct text1 as [|c text2]; cbn -[text]; [done|].
    destruct (is_char "/" c) eqn:Hc; cbn -[text]; [|done].
    destruct (alphaNumeric text2) as [[name text3]|] eqn:En; cbn -[text]; [|done].
    apply alphaNumeric_Some in En as [-> Hname].
    intros (Hun & Hn & Hor & Ht3)%parse_concrete_None; [|done..].
    split; [done|]. unfold Alias, Human. cbn in Hun, Hn. rewrite Hun, Hn.
    assert (nonempty name = true) as -> by (by apply nonempty_true, valid_word_nonempty).
    rewrite Htext. apply Ascii.eqb_eq in Hc as ->. rewrite Ht3.
    symmetry. exact (string_app_assoc user ("/" +:+ name) _).
  - intros (Hun & Hn & Hor & Ht3)%parse_concrete_None; [|done..].
    split; [done|]. unfold Alias, Human. cbn in Hun, Hn. rewrite Hun, Hn. exact Ht3.
Qed.

Lemma print_with_String r :
  ref_ProfileID r = "" → (ref_Path r = "" → ref_InitID r = "") →
  print_with (ref_InitID r +:+ ref_ProfileID r) r = Ref_String r.
Proof.
  intros -> H. unfold print_with, Ref_String. f_equal. rewrite string_app_nil_r.
  destruct (nonempty (ref_Path r)) eqn:E; [by rewrite orb_true_r|].
  apply nonempty_false in E. rewrite (H E), E. done.
Qed.

(** * The properties of dataset references *)
(** C38: printing then parsing. A reference built from valid parts is what
    parsing its printed form yields, without an error, as a peer reference or
    not. *)
Theorem Parse_String r : printable r → Parse (Ref_String r) = (r, None) ∧ ParsePeerRef (Ref_String r) = (r, None).
Proof. intros Hr. split; by apply parse_print. Qed.

(** Parsing then printing. A text that parses is the printed form of the
    reference it yields, with the initialisation or profile identifier it was
    written with: the parser drops nothing. *)
Theorem Parse_text text r :
  Parse text = (r, None) →
  (ref_InitID r = "" ∨ ref_ProfileID r = "") ∧
  text = print_with (ref_InitID r +:+ ref_ProfileID r) r ∧
  (ref_ProfileID r = "" → (ref_Path r = "" → ref_InitID r = "") → text = Ref_String r).
Proof.
  intros Hp. pose proof (parse_sound _ _ Hp) as [Hid Htext]. split_and!; [done|done|].
  intros Hprof Hpath. by rewrite Htext, print_with_String.
Qed.

(** ** Resolving in parallel *)
Definition not_found (ans : outcome string * Ref) : Prop :=
  ∃ e, ans.1 = Error e ∧ errors_Is e "reference not found" = true.

Lemma parallel_select_found n arrivals s ref :
  length arrivals = n → Forall (λ ans, not_found ans ∨ ans = (Ok s, ref)) arrivals →
  (Ok s, ref) ∈ arrivals → parallel_select n arrivals = PRFound s ref.
Proof.
  intros Hn Hall. revert n Hn. induction Hall as [|[ans r] arrivals Ha Hall IH]; intros n Hn Hin.
  { by apply not_elem_of_nil in Hin. }
  destruct Ha as [(e & He & Hnf)|[= -> ->]]; [|done]. cbn in He. subst ans.
  apply elem_of_cons in Hin as [?|Hin]; [done|]. cbn in *. rewrite Hnf. cbn.
  rewrite decide_False; [apply IH; [lia|done]|].
  destruct arrivals; [by apply not_elem_of_nil in Hin|cbn in Hn; lia].
Qed.

Lemma parallel_select_none n arrivals :
  length arrivals = n → n ≠ 0 → Forall not_found arrivals →
  parallel_select n arrivals = PRError ErrRefNotFound.
Proof.
  intros Hn Hne Hall. revert n Hn Hne. induction Hall as [|[ans r] arrivals (e & He & Hnf) Hall IH];
    intros n Hn Hne; cbn in *; [lia|].
  subst ans. rewrite Hnf. cbn. case_decide; [done|]. apply IH; lia.
Qed.

Lemma parallel_select_returns n arrivals :
  length arrivals = n → n ≠ 0 → parallel_select n arrivals ≠ PRBlocked.
Proof.
  revert n. induction arrivals as [|[[s|e|] r] arrivals IH]; intros n Hn Hne; cbn in *; [lia|done| |done].
  destruct (errors_Is e _); cbn; [|done]. case_decide; [done|]. apply IH; lia.
Qed.

Definition answers (rs : list (option (stM Ref string))) (ref : Ref) : list (outcome string * Ref) :=
  map (λ r, run_resolver r ref) rs.

Lemma arrivals_perm rs schedule ref :
  schedule ≡ₚ seq 0 (length rs) →
  omap (λ i, r ← rs !! i; Some (run_resolver r ref)) schedule ≡ₚ answers rs ref.
Proof.
  intros ->. unfold answers. clear schedule.
  assert (∀ n, omap (λ i, r ← rs !! (i - n); Some (run_resolver r ref)) (seq n (length rs)) =
               map (λ r, run_resolver r ref) rs) as Hgen.
  { induction rs as [|r rs IH]; intros n; [done|]. cbn. rewrite Nat.sub_diag. cbn. f_equal.
    rewrite <- (IH (S n)). apply list_omap_ext. 
    apply Forall2_same_length_lookup. split; [done|].
    intros k x y Hx Hy. simplify_eq. apply lookup_seq in Hx as [-> _].
    by replace (S n + k - n) with (S (S n + k - S n)) by lia. }
  specialize (Hgen 0). rewrite <- Hgen. apply reflexive_eq, list_omap_ext.
  apply Forall2_same_length_lookup. split; [done|]. intros k x y Hx Hy. simplify_eq.
  by rewrite Nat.sub_0_r.
Qed.

(** Resolving in parallel. In whatever order the resolvers report, a
    parallel resolver of at least one resolver returns; it answers that the
    reference is not found when every resolver does; and when every answer but
    one is that it is not found, it answers that one. With no resolver it
    waits for its context to end. *)
Theorem parallelResolver_order_independent rs schedule ref :
  schedule ≡ₚ seq 0 (length rs) →
  (rs ≠ [] → parallelResolver_ResolveRef rs schedule ref ≠ PRBlocked) ∧
  (rs = [] → parallelResolver_ResolveRef rs schedule ref = PRBlocked) ∧
  (rs ≠ [] → Forall not_found (answers rs ref) →
     parallelResolver_ResolveRef rs schedule ref = PRError ErrRefNotFound) ∧
  ∀ s r, (Ok s, r) ∈ answers rs ref → Forall (λ a, not_found a ∨ a = (Ok s, r)) (answers rs ref) →
     parallelResolver_ResolveRef rs schedule ref = PRFound s r.
Proof.
  intros Hperm. pose proof (arrivals_perm rs schedule ref Hperm) as Harr.
  unfold parallelResolver_ResolveRef. set (arr := omap _ schedule) in *.
  assert (length arr = length rs) as Hlen by (rewrite Harr; unfold answers; apply length_map).
  assert (rs ≠ [] → length rs ≠ 0) as Hne by (by destruct rs).
  split_and!.
  - intros Hrs. apply parallel_select_returns; auto.
  - intros ->. by destruct arr.
  - intros Hrs Hall. apply parallel_select_none; [done|auto|]. by rewrite Harr.
  - intros s r Hin Hall. apply parallel_select_found; [done| |]; by rewrite Harr.
Qed.

(** The in-memory resolver. After a version info is put, its alias
    resolves to its identifier, profile and path; a path already on the
    reference is kept. *)
Theorem MemResolver_Put_ResolveRef m info ref :
  Alias ref = vi_Username info +:+ "/" +:+ vi_Name info →
  MemResolver_ResolveRef (Some (MemResolver_Put info m)) ref =
    (Ok "", mkRef (vi_InitID info) (ref_Username ref) (vi_ProfileID info) (ref_Name ref)
              (if nonempty (ref_Path ref) then ref_Path ref else vi_Path info)).
Proof.
  intros Hal. unfold MemResolver_ResolveRef, MemResolver_Put. cbn. rewrite Hal.
  rewrite lookup_insert_eq. cbn. by rewrite lookup_insert_eq.
Qed.

(** ** The theorems at work *)
Definition demo_ref : Ref :=
  mkRef "" "alice" "" "cities" "/ipfs/QmaDrU5EGbLW2RKMWNAYsFkiZGnVpjmzDnCwMwWx7bJ8Hg".

Lemma demo_ref_printable : printable demo_ref.
Proof.
  constructor; cbn.
  - left. repeat split; reflexivity.
  - reflexivity.
  - right. split; [|split; [reflexivity|cbn; lia]].
    exists "ipfs", "QmaDrU5EGbLW2RKMWNAYsFkiZGnVpjmzDnCwMwWx7bJ8Hg". split; [by right|].
    split; [|reflexivity]. exists "aDrU5EGbLW2RKMWNAYsFkiZGnVpjmzDnCwMwWx7bJ8Hg".
    split; [reflexivity|]. split; [reflexivity|cbn; lia].
Qed.

Lemma Parse_String_witness :
  Parse "alice/cities@/ipfs/QmaDrU5EGbLW2RKMWNAYsFkiZGnVpjmzDnCwMwWx7bJ8Hg" = (demo_ref, None) ∧
  ParsePeerRef "alice/cities@/ipfs/QmaDrU5EGbLW2RKMWNAYsFkiZGnVpjmzDnCwMwWx7bJ8Hg" = (demo_ref, None).
Proof. apply (Parse_String demo_ref demo_ref_printable). Defined.

Lemma Parse_text_witness :
  (ref_InitID demo_ref = "" ∨ ref_ProfileID demo_ref = "") ∧
  "alice/cities@/ipfs/QmaDrU5EGbLW2RKMWNAYsFkiZGnVpjmzDnCwMwWx7bJ8Hg" = print_with "" demo_ref.
Proof.
  destruct (Parse_text "alice/cities@/ipfs/QmaDrU5EGbLW2RKMWNAYsFkiZGnVpjmzDnCwMwWx7bJ8Hg" demo_ref)
    as (Hid & Ht & _).
  - vm_compute. reflexivity.
  - split; [exact Hid|exact Ht].
Defined.

(** A resolver that knows nothing, and one that knows every dataset *)
Definition demo_resolvers : list (option (stM Ref string)) :=
  [None; Some (λ ref, (Ok "registry", mkRef "id" (ref_Username ref) "QmP" (ref_Name ref) "/p"));
   Some (MemResolver_ResolveRef (Some (NewMemResolver "alice")))].

Lemma parallelResolver_order_independent_witness :
  parallelResolver_ResolveRef demo_resolvers [2; 0; 1] (mkRef "" "alice" "" "cities" "") =
    PRFound "registry" (mkRef "id" "alice" "QmP" "cities" "/p").
Proof.
  destruct (parallelResolver_order_independent demo_resolvers [2; 0; 1]
    (mkRef "" "alice" "" "cities" "")) as (_ & _ & _ & Hfound).
  - apply (bool_decide_eq_true_1 _). vm_compute. reflexivity.
  - apply Hfound.
    + right. left.
    + repeat (apply List.Forall_cons; [first [by right | left; eexists; split; reflexivity]|]).
      apply List.Forall_nil.
Defined.

Definition demo_info : VersionInfo :=
  NewVersionInfoFromRef (mkRef "abc" "alice" "QmAlice" "cities" "/ipfs/Qm1").

Lemma MemResolver_Put_ResolveRef_witness :
  MemResolver_ResolveRef (Some (MemResolver_Put demo_info (NewMemResolver "alice")))
    (mkRef "" "alice" "" "cities" "") =
  (Ok "", mkRef "abc" "alice" "QmAlice" "cities" "/ipfs/Qm1").
Proof.
  apply (MemResolver_Put_ResolveRef (NewMemResolver "alice") demo_info
           (mkRef "" "alice" "" "cities" "")). reflexivity.
Defined.
