(* ===== verification/NameGen.v ===== *)
(** * Generating dataset names (src/dsref/generate.go)

    A state machine turns any text into words separated by dashes and
    underscores. It ignores every rune above 127; in UTF-8 those are the bytes
    from 128 on, so it runs over bytes here. *)
From S2P Require Export DsrefParse.
From S2P Require Export DsrefFacts.

Definition NameMaxLength : nat := 44.

(** What [GenerateName] takes from golang.org/x/text: the chain that removes
    diacritics. *)
Class TextTransform : Type := remove_marks : string → string.

(** ** Character classes, on bytes below 128 *)
Definition PuncCharacters : list ascii :=
  map byte [96; 126; 33; 64; 35; 36; 37; 94; 38; 42; 40; 41; 61; 43; 91; 123; 93; 125; 92; 124;
            59; 58; 39; 34; 44; 60; 46; 62; 47; 63]%N.
Definition isPunc (r : ascii) : bool := bool_decide (r ∈ PuncCharacters).
Definition isAlphanum (r : ascii) : bool := is_alpha r || is_digit r.
Definition is_space (r : ascii) : bool := Ascii.eqb r " ".
Definition is_dash (r : ascii) : bool := Ascii.eqb r "_" || Ascii.eqb r "-".
Definition non_ascii (r : ascii) : bool := bool_decide (127 < byte_val r)%Z.

(** ** The state machine *)
Inductive State : Type :=
| StateNone | StateLowerWord | StateFirstUpper | StateCapsWord | StateNumber | StatePunc | StateExit.

(** The variables of [convertWordsStateMachine] *)
Record machine : Type := mkMachine {
  m_state : State;
  m_result : list ascii;
  m_next : list ascii;
}.

(** [next.WriteRune(r)], with and without a new state *)
Definition write (r : ascii) (m : machine) : machine :=
  mkMachine (m_state m) (m_result m) (m_next m ++ [r]).
Definition write_in (s : State) (r : ascii) (m : machine) : machine :=
  mkMachine s (m_result m) (m_next m ++ [r]).

(** The word with an underscore in front when it would run into the last one *)
Definition separated (result word : list ascii) : list ascii :=
  match last result, word with
  | Some p, c :: _ => if isAlphanum p && isAlphanum c then "_"%char :: word else word
  | _, _ => word
  end.

(** The closure [flushWord] *)
Definition flushWord (nextState : State) (nextRune : ascii) (m : machine) : machine :=
  match map lower_byte (m_next m) with
  | [] => m
  | c :: cs =>
      let word := separated (m_result m) (c :: cs) in
      if decide (NameMaxLength < length (m_result m) + length word) then
        mkMachine StateExit
          (match m_result m with [] => take NameMaxLength word | _ => m_result m end) (m_next m)
      else mkMachine nextState (m_result m ++ word) [nextRune]
  end.

(** The cases of a digit, of punctuation and of [r == '_' || r == '-'], which
    the three states of words share *)
Definition word_end (r : ascii) (m : machine) : machine :=
  if is_digit r then flushWord StateNumber r m
  else if isPunc r then flushWord StatePunc "-" m
  else if is_dash r then flushWord StateNone r m
  else m.

(** One iteration of the loop over the input *)
Definition machine_step (m : machine) (r : ascii) : machine :=
  if non_ascii r then m
  else match m_state m with
  | StateExit => m
  | StateNone =>
      if is_space r then write "_" m
      else if is_lower r then write_in StateLowerWord r m
      else if is_upper r then write_in StateFirstUpper r m
      else if is_digit r then write_in StateNumber r m
      else if isPunc r then write_in StatePunc r m
      else if is_dash r then write "-" m
      else m
  | StateLowerWord =>
      if is_space r then flushWord StateNone "_" m
      else if is_lower r then write r m
      else if is_upper r then flushWord StateFirstUpper r m
      else word_end r m
  | StateFirstUpper =>
      if is_space r then flushWord StateNone "_" m
      else if is_lower r then write_in StateLowerWord r m
      else if is_upper r then write_in StateCapsWord r m
      else word_end r m
  | StateCapsWord =>
      if is_space r then flushWord StateNone "_" m
      else if is_lower r then
        match last (m_next m) with
        | Some lastLetter =>
            write r (flushWord StateLowerWord lastLetter
                       (mkMachine (m_state m) (m_result m) (removelast (m_next m))))
        | None => m
        end
      else if is_upper r then write r m
      else word_end r m
  | StateNumber =>
      if is_space r then flushWord StateNone "_" m
      else if is_lower r then flushWord StateLowerWord r m
      else if is_upper r then flushWord StateFirstUpper r m
      else if is_digit r then write r m
      else if isPunc r then flushWord StatePunc "-" m
      else if is_dash r then flushWord StateNone r m
      else m
  | StatePunc =>
      if is_space r then m
      else if is_lower r then flushWord StateLowerWord r m
      else if is_upper r then flushWord StateFirstUpper r m
      else if is_digit r then flushWord StateNumber r m
      else if isPunc r then write "-" m
      else if is_dash r then flushWord StateNone r m
      else m
  end.

(** [convertWordsStateMachine] *)
Definition convertWordsStateMachine (input : list ascii) : list ascii :=
  m_result (flushWord StateNone "000" (foldl machine_step (mkMachine StateNone [] []) input)).

(** [GenerateName]: an empty name panics at [[]rune(name)[0]]. *)
Definition GenerateName `{TextTransform} (input prefix : string) : outcome string :=
  let name := convertWordsStateMachine (TrimSpace (bytes (remove_marks input))) in
  match name with
  | [] => Panic
  | first :: _ => Ok (if is_lower first then of_bytes name else prefix +:+ of_bytes name)
  end.

(** * The properties of name generation *)
(** ** The repository's own test cases *)
#[local] Instance id_transform : TextTransform := λ s, s.

Example generate_cases :
  map (λ s, GenerateName s "prefix_")
    ["data"; "Information"; "body_input"; "sample population 2019"; " good name ";
     "category: annual"; "final1997report";
     "en.wikipedia.org,List_of_highest-grossing_films,Highest-grossing_films";
     "Title, artist, date, and medium of every artwork in the MoMA collection";
     "Pneumonoultramicroscopicsilicovolcanoconiosis"; "2018 winners";
     "2015-09-16..2016-09-30"; "EconIndicatorNominalGDP1997China"; "MonthlyHTTPTraffic"]
  = map Ok
    ["data"; "information"; "body_input"; "sample_population_2019"; "good_name";
     "category-annual"; "final_1997_report"; "en-wikipedia-org-list_of_highest-grossing";
     "title-artist-date-and_medium_of_every"; "pneumonoultramicroscopicsilicovolcanoconiosi";
     "prefix_2018_winners"; "prefix_2015-09-16--2016-09-30";
     "econ_indicator_nominal_gdp_1997_china"; "monthly_http_traffic"].
Proof. vm_compute. reflexivity. Qed.

(** ** What the machine writes *)
Definition word_byte (c : ascii) : Prop := is_lower c = true ∨ is_digit c = true ∨ is_dash c = true.
Definition next_byte (c : ascii) : Prop := isAlphanum c = true ∨ is_dash c = true.

Lemma ascii_cases (P : ascii → bool) :
  forallb P (map ascii_of_nat (seq 0 256)) = true → ∀ c, P c = true.
Proof.
  intros H c. rewrite forallb_forall in H. apply H. apply in_map_iff.
  exists (nat_of_ascii c). rewrite ascii_nat_embedding. split; [done|].
  apply in_seq. pose proof (nat_ascii_bounded c). lia.
Qed.

Lemma lower_next_byte c : next_byte c → word_byte (lower_byte c).
Proof.
  unfold next_byte, word_byte. rewrite <- !orb_true_iff.
  pose proof (ascii_cases (λ c, implb (isAlphanum c || is_dash c)
    (is_lower (lower_byte c) || (is_digit (lower_byte c) || is_dash (lower_byte c))))
    ltac:(vm_compute; reflexivity) c) as H.
  cbv beta in H. intros Hc. by rewrite Hc in H.
Qed.

Lemma word_byte_word c : word_byte c → is_word c = true ∧ is_upper c = false.
Proof.
  unfold word_byte. rewrite <- !orb_true_iff, <- negb_true_iff, <- andb_true_iff.
  pose proof (ascii_cases (λ c, implb (is_lower c || (is_digit c || is_dash c))
    (is_word c && negb (is_upper c))) ltac:(vm_compute; reflexivity) c) as H.
  cbv beta in H. intros Hc. by rewrite Hc in H.
Qed.

Lemma dash_next_byte c : is_dash c = true → next_byte c.
Proof. by right. Qed.
Lemma lower_is_next c : is_lower c = true → next_byte c.
Proof. intros Hc. left. unfold isAlphanum, is_alpha. by rewrite Hc. Qed.
Lemma upper_is_next c : is_upper c = true → next_byte c.
Proof. intros Hc. left. unfold isAlphanum, is_alpha. by rewrite Hc, orb_true_r. Qed.
Lemma digit_is_next c : is_digit c = true → next_byte c.
Proof. intros Hc. left. unfold isAlphanum. by rewrite Hc, orb_true_r. Qed.
#[local] Hint Resolve dash_next_byte lower_is_next upper_is_next digit_is_next : bytes.

(** The result is never longer than a name may be; it consists of word bytes
    as long as the input has no punctuation. *)
Definition result_bounded (m : machine) : Prop := length (m_result m) ≤ NameMaxLength.
Definition result_clean (m : machine) : Prop :=
  Forall word_byte (m_result m) ∧ Forall next_byte (m_next m).

Lemma flush_bounded s r m : result_bounded m → result_bounded (flushWord s r m).
Proof.
  unfold result_bounded, flushWord. intros Hm. destruct (map lower_byte (m_next m)) as [|c cs]; [done|].
  case_decide as Hl; cbn [m_result].
  - destruct (m_result m); [|done]. rewrite length_take. lia.
  - rewrite length_app. lia.
Qed.

Lemma separated_word result word : Forall word_byte word → Forall word_byte (separated result word).
Proof.
  intros Hw. unfold separated. destruct (last result); [|done]. destruct word as [|c word]; [done|].
  case_match; [|done]. constructor; [|done]. right. by right.
Qed.

Lemma flush_clean s r m : result_clean m → next_byte r → result_clean (flushWord s r m).
Proof.
  intros [Hres Hnext] Hr. unfold flushWord.
  assert (Forall word_byte (map lower_byte (m_next m))) as Hw.
  { apply Forall_map. eapply Forall_impl; [done|]. apply lower_next_byte. }
  destruct (map lower_byte (m_next m)) as [|c cs]; [by split|].
  apply (separated_word (m_result m)) in Hw.
  case_decide; split; cbn [m_result m_next]; try done.
  - destruct (m_result m); [by apply Forall_take|done].
  - by apply Forall_app.
  - by constructor.
Qed.

Lemma write_clean s r m : result_clean m → next_byte r → result_clean (write_in s r m).
Proof.
  intros [Hres Hnext] Hr. split; [done|]. cbn. apply Forall_app. split; [done|]. by constructor.
Qed.

Lemma word_end_bounded r m : result_bounded m → result_bounded (word_end r m).
Proof. intros Hm. unfold word_end. repeat case_match; auto using flush_bounded. Qed.

Lemma word_end_clean r m : isPunc r = false → result_clean m → result_clean (word_end r m).
Proof.
  intros Hp Hm. unfold word_end. rewrite Hp. repeat case_match; auto using flush_clean with bytes.
Qed.

Lemma step_bounded m r : result_bounded m → result_bounded (machine_step m r).
Proof.
  intros Hm. unfold machine_step. case_match; [done|].
  destruct (m_state m); repeat (case_match; try done); auto using flush_bounded, word_end_bounded.
  apply (flush_bounded StateLowerWord _ (mkMachine StateCapsWord (m_result m) (removelast (m_next m)))).
  done.
Qed.

Lemma removelast_Forall {A} (P : A → Prop) l : Forall P l → Forall P (removelast l).
Proof.
  destruct l as [|x l _] using rev_ind; [done|]. rewrite removelast_last. by intros [? _]%Forall_app.
Qed.

Lemma last_Forall {A} (P : A → Prop) l x : Forall P l → last l = Some x → P x.
Proof.
  destruct l as [|y l _] using rev_ind; [done|]. rewrite last_snoc.
  intros [_ [? _]%Forall_cons]%Forall_app [= <-]. done.
Qed.

Lemma step_clean m r : isPunc r = false → result_clean m → result_clean (machine_step m r).
Proof.
  intros Hp Hm. unfold machine_step. rewrite Hp. case_match; [done|].
  assert (∀ c, next_byte c → result_clean (write c m)) as Hwrite.
  { intros c. by apply (write_clean (m_state m)). }
  assert (next_byte "_" ∧ next_byte "-") as [Hu Hd] by (split; by right).
  destruct (m_state m) eqn:Hs;
    repeat (case_match; try done); auto using flush_clean, word_end_clean, write_clean with bytes.
  apply (write_clean (m_state _)); [|by apply lower_is_next].
  destruct Hm as [Hres Hnext]. apply flush_clean; [|by eapply last_Forall].
  split; [done|]. by apply removelast_Forall.
Qed.

(** The word the state for capitals splits is never empty. *)
Definition caps_next (m : machine) : Prop := m_state m = StateCapsWord → m_next m ≠ [].

Lemma flush_caps s r m : s ≠ StateCapsWord → caps_next m → caps_next (flushWord s r m).
Proof.
  intros Hs Hm. unfold flushWord. destruct (map lower_byte (m_next m)); [done|]. by case_decide.
Qed.

Lemma write_caps s r m : caps_next (write_in s r m).
Proof. intros _. cbn. by destruct (m_next m). Qed.

Lemma step_caps m r : caps_next m → caps_next (machine_step m r).
Proof.
  intros Hm. unfold machine_step, word_end.
  assert (∀ c, caps_next (write c m)) as Hw by (intros c _; cbn; by destruct (m_next m)).
  case_match; [done|]. destruct (m_state m) eqn:Hs;
    repeat (case_match; try done); auto using flush_caps, write_caps.
  all: try (apply flush_caps; done).
  intros _. cbn. by destruct (m_next (flushWord _ _ _)).
Qed.

(** So the split of a capitals word always has a last letter. *)
Lemma run_caps input : caps_next (foldl machine_step (mkMachine StateNone [] []) input).
Proof.
  assert (∀ m, caps_next m → caps_next (foldl machine_step m input)) as Hrun.
  { induction input as [|r input IH]; intros m Hm; [done|]. by apply IH, step_caps. }
  by apply Hrun.
Qed.

Lemma machine_invariant (I : machine → Prop) input m :
  I m → (∀ m r, r ∈ input → I m → I (machine_step m r)) → I (foldl machine_step m input).
Proof.
  revert m. induction input as [|r input IH]; intros m Hm Hstep; [done|]. cbn. apply IH.
  - apply Hstep; [left|done].
  - intros m' r' Hr'. apply Hstep. by right.
Qed.

Lemma convert_bounded input : length (convertWordsStateMachine input) ≤ NameMaxLength.
Proof.
  unfold convertWordsStateMachine. apply flush_bounded. apply machine_invariant.
  - unfold result_bounded. cbn. lia.
  - intros m r _. apply step_bounded.
Qed.

Lemma convert_clean input :
  Forall (λ c, isPunc c = false) input → Forall word_byte (convertWordsStateMachine input).
Proof.
  intros Hin. rewrite Forall_forall in Hin. unfold convertWordsStateMachine.
  set (m := foldl _ _ _).
  assert (result_clean m) as [Hres Hnext].
  { apply machine_invariant; [by split|]. intros m0 r Hr. apply step_clean. by apply Hin. }
  unfold flushWord. assert (Forall word_byte (map lower_byte (m_next m))) as Hw.
  { apply Forall_map. eapply Forall_impl; [done|]. apply lower_next_byte. }
  destruct (map lower_byte (m_next m)) as [|c cs]; [done|]. apply (separated_word (m_result m)) in Hw.
  case_decide; cbn [m_result]; [|by apply Forall_app].
  destruct (m_result m); [by apply Forall_take|done].
Qed.

Section spec.
Context `{TextTransform}.

(** A prefix a caller may pass: it starts with a lower-case letter and has
    only lower-case word bytes. *)
Definition valid_prefix (prefix : string) : Prop :=
  ∃ c p, bytes prefix = c :: p ∧ is_lower c = true ∧ Forall word_byte p ∧ length p ≤ 99.

Lemma IsValidName_bytes c name :
  is_lower c = true → Forall word_byte name → length name ≤ 143 →
  IsValidName (of_bytes (c :: name)) = true ∧ has_upper (of_bytes (c :: name)) = false.
Proof.
  intros Hc Hn Hl. split.
  - unfold IsValidName, dsNameCheck. cbn [of_bytes String.string_of_list_ascii].
    unfold is_alpha. rewrite Hc. cbn. apply andb_true_iff. split.
    + unfold string_all. rewrite bytes_of_bytes. apply forallb_forall.
      rewrite Forall_forall in Hn. intros x Hx%list_elem_of_In. by apply word_byte_word, Hn.
    + apply bool_decide_eq_true. replace (String.length (of_bytes name)) with (length name); [done|].
      clear. induction name; cbn; congruence.
  - unfold has_upper. rewrite bytes_of_bytes. apply not_true_is_false. rewrite existsb_exists.
    intros (x & [<-|Hx] & Hu).
    + destruct (word_byte_word c) as [_ Hcu]; [by left|congruence].
    + rewrite Forall_forall in Hn. destruct (word_byte_word x) as [_ Hxu]; [|congruence].
      apply Hn. by apply list_elem_of_In.
Qed.

(** Generated names are valid. For a text without punctuation and a valid
    prefix, the name generated, when there is one, is a valid dataset name
    without upper-case letters. *)
Theorem GenerateName_valid input prefix name :
  Forall (λ c, isPunc c = false) (bytes (remove_marks input)) → valid_prefix prefix →
  GenerateName input prefix = Ok name →
  IsValidName name = true ∧ has_upper name = false ∧ EnsureValidName name = None.
Proof.
  intros Hin (pc & p & Hp & Hpc & Hpw & Hpl) Hgen.
  assert (IsValidName name = true ∧ has_upper name = false) as [Hv Hu].
  { unfold GenerateName in Hgen. set (input' := TrimSpace _) in Hgen.
    assert (Forall word_byte (convertWordsStateMachine input')) as Hw.
    { apply convert_clean. rewrite Forall_forall in Hin. apply Forall_forall.
      intros c Hc%TrimSpace_subset. by apply Hin. }
    pose proof (convert_bounded input') as Hlen. unfold NameMaxLength in Hlen.
    destruct (convertWordsStateMachine input') as [|c cs]; [done|].
    destruct (is_lower c) eqn:Hc; injection Hgen as <-.
    - apply IsValidName_bytes; [done| |cbn in Hlen; lia]. by apply Forall_cons in Hw as [_ ?].
    - change (String c (of_bytes cs)) with (of_bytes (c :: cs)).
      rewrite <- (of_bytes_bytes prefix), <- of_bytes_app, Hp.
      apply IsValidName_bytes; [done|by apply Forall_app|].
      fold (p ++ c :: cs). rewrite length_app. cbn [length] in *. lia. }
  split_and!; [done|done|]. unfold EnsureValidName. unfold IsValidName in Hv. by rewrite Hv, Hu.
Qed.

(** The length of a generated name. Whatever the text, punctuation
    included, what is generated from it is no longer than 44 bytes, after the
    prefix if there is one. *)
Theorem GenerateName_length input prefix name :
  GenerateName input prefix = Ok name →
  String.length name ≤ String.length prefix + NameMaxLength.
Proof.
  unfold GenerateName. set (input' := TrimSpace _). pose proof (convert_bounded input') as Hlen.
  destruct (convertWordsStateMachine input') as [|c cs]; [done|].
  assert (∀ l, String.length (of_bytes l) = length l) as Hl by (induction l; cbn; congruence).
  intros Hgen. apply (f_equal (λ r, match r with Ok n => String.length n | _ => 0 end)) in Hgen.
  cbn -[of_bytes] in Hgen. rewrite <- Hgen.
  case_match; rewrite ?string_length_app, Hl; lia.
Qed.
End spec.

(** Punctuation after a space is not replaced. The name generated from a
    text with a word that starts with punctuation is not a valid name. *)
Theorem GenerateName_punctuation :
  GenerateName "hello !world" "prefix_" = Ok "hello_!world" ∧ IsValidName "hello_!world" = false.
Proof. split; vm_compute; reflexivity. Qed.

Lemma GenerateName_valid_witness :
  IsValidName "prefix_2018_winners" = true ∧ has_upper "prefix_2018_winners" = false ∧
  EnsureValidName "prefix_2018_winners" = None.
Proof.
  apply (GenerateName_valid "2018 winners" "prefix_").
  - repeat (apply List.Forall_cons; [vm_compute; reflexivity|]). apply List.Forall_nil.
  - eexists _, _. split; [reflexivity|]. split; [reflexivity|]. split; [|cbn; lia].
    repeat (apply List.Forall_cons; [vm_compute; tauto|]). apply List.Forall_nil.
  - vm_compute. reflexivity.
Defined.

Lemma GenerateName_length_witness : String.length "hello_!world" ≤ String.length "prefix_" + NameMaxLength.
Proof. apply (GenerateName_length "hello !world" "prefix_"). vm_compute. reflexivity. Defined.
