(* ===== verification/Access.v ===== *)
(** * Access control for remotes (src/remote/access/access.go)

    A policy is a list of rules; a request names a resource and an action, and
    is allowed by the first rule that matches it. *)
From S2P Require Export Dsref.

Definition matchAll : string := "*".
Definition matchSubject : string := "_subject".
Definition access_ErrAccessDenied : error := ErrSentinel "access denied".

(** [type Effect string] and its constants *)
Definition EffectAllow : string := "allow".
Definition EffectDeny : string := "deny".

(** [type Resource []string] and [type Action []string] *)
Abbreviation Resource := (list string).
Abbreviation Action := (list string).

(** [type Rule struct]; a [Policy] is a list of rules. *)
Record Rule : Type := mkRule {
  rule_Title : string;
  rule_Subject : string;
  rule_Resources : list Resource;
  rule_Actions : list Action;
  rule_Effect : string;
}.
Abbreviation Policy := (list Rule).

(** The fields of [profile.Profile] a policy reads *)
Record Subject : Type := mkSubject {
  subj_ID : string;
  subj_Peername : string;
}.

(** [Rule.Validate] *)
Definition Rule_Validate (r : Rule) : option error :=
  if decide (rule_Subject r = "") then Some (Errorf "rule.Subject is required" [])
  else if decide (rule_Effect r ≠ EffectAllow ∧ rule_Effect r ≠ EffectDeny) then
    Some (Errorf ("rule.Effect must be one of (" +:+ quoted "allow" +:+ "|" +:+ quoted "deny" +:+ ")") [])
  else if decide (length (rule_Resources r) = 0) then
    Some (Errorf "rule.Resources field is required" [])
  else if decide (length (rule_Actions r) = 0) then
    Some (Errorf "rule.Actions field is required" [])
  else None.

(** [Rule.UnmarshalJSON], given what [json.Unmarshal] decodes *)
Definition Rule_UnmarshalJSON (decoded : outcome Rule) : outcome Rule :=
  rule ← decoded;
  match Rule_Validate rule with
  | Some e => Error e
  | None => Ok rule
  end.

(** The loop of [ParseResource] and [ParseAction] over the names; [what] is the
    word their messages differ in. *)
Fixpoint check_star (what str : string) (foundStar : bool) (names : list string) : option error :=
  match names with
  | [] => None
  | name :: names' =>
      if decide (name = matchAll) then
        if foundStar then
          Some (Errorf ("invalid " +:+ what +:+ " string %q. '*' character cannot occur twice") [str])
        else check_star what str true names'
      else if foundStar then
        Some (Errorf ("invalid " +:+ what +:+ " string %q. '*' must come last") [str])
      else check_star what str foundStar names'
  end.

Definition parse_names (what str : string) : outcome (list string) :=
  if decide (str = "") then Error (Errorf (what +:+ " string cannot be empty") [])
  else
    let rsc := strings_Split str ":" in
    match check_star what str false rsc with
    | Some e => Error e
    | None => Ok rsc
    end.

(** [ParseResource] and [ParseAction] *)
Definition ParseResource (str : string) : outcome Resource := parse_names "resource" str.
Definition ParseAction (str : string) : outcome Action := parse_names "action" str.

(** [MustParseResource] and [MustParseAction] panic on an error. *)
Definition must {A} (r : outcome A) : outcome A := match r with Ok a => Ok a | _ => Panic end.
Definition MustParseResource (str : string) : outcome Resource := must (ParseResource str).
Definition MustParseAction (str : string) : outcome Action := must (ParseAction str).

(** [Resource.MarshalJSON], [Action.MarshalJSON] *)
Definition Resource_MarshalJSON (r : Resource) : string := strings_Join r ":".
Definition Action_MarshalJSON (a : Action) : string := strings_Join a ":".

(** [Resource.UnmarshalJSON] and [Action.UnmarshalJSON], given the JSON string *)
Definition Resource_UnmarshalJSON (decoded : outcome string) : outcome Resource :=
  str ← decoded; ParseResource str.
Definition Action_UnmarshalJSON (decoded : outcome string) : outcome Action :=
  str ← decoded; ParseAction str.

(** The loop of [Resource.Contains] from one index on *)
Fixpoint resource_loop (r b : list string) (subjectUsername : string) : outcome bool :=
  match r, b with
  | [], b' => Ok (bool_decide (length b' = 0))
  | aName :: r', _ =>
      if decide (aName = matchAll) then Ok true
      else match b with
           | [] => Panic
           | bName :: b' =>
               if decide (aName = matchSubject ∧ bName = subjectUsername)
               then resource_loop r' b' subjectUsername
               else if decide (bName ≠ aName) then Ok false
               else resource_loop r' b' subjectUsername
           end
  end.

(** [Resource.Contains] *)
Definition Resource_Contains (r b : Resource) (subjectUsername : string) : outcome bool :=
  if decide (length b < length r) then Ok false else resource_loop r b subjectUsername.

(** The loop of [Action.Contains], and [Action.Contains] *)
Fixpoint action_loop (a b : list string) : outcome bool :=
  match a, b with
  | [], b' => Ok (bool_decide (length b' = 0))
  | aName :: a', _ =>
      if decide (aName = matchAll) then Ok true
      else match b with
           | [] => Panic
           | bName :: b' => if decide (bName ≠ aName) then Ok false else action_loop a' b'
           end
  end.

Definition Action_Contains (a b : Action) : outcome bool :=
  if decide (length b < length a) then Ok false else action_loop a b.

(** [Resources.Contains] and [Actions.Contains]: the first that contains it *)
Fixpoint any_contains {A} (f : A → outcome bool) (l : list A) : outcome bool :=
  match l with
  | [] => Ok false
  | x :: l' => c ← f x; if (c : bool) then Ok true else any_contains f l'
  end.

Definition Resources_Contains (rs : list Resource) (b : Resource) (subjectUsername : string)
    : outcome bool := any_contains (λ r, Resource_Contains r b subjectUsername) rs.
Definition Actions_Contains (acts : list Action) (b : Action) : outcome bool :=
  any_contains (λ a, Action_Contains a b) acts.

(** The loop of [Policy.Enforce]. The debug line evaluates both matches for
    every rule before the condition does. *)
Fixpoint enforce_rules (pol : Policy) (subject : Subject) (rsc : Resource) (act : Action)
    : outcome unit :=
  match pol with
  | [] => Error access_ErrAccessDenied
  | rule :: pol' =>
      rs ← Resources_Contains (rule_Resources rule) rsc (subj_Peername subject);
      as_ ← Actions_Contains (rule_Actions rule) act;
      if bool_decide (rule_Effect rule = EffectAllow) &&
         bool_decide (rule_Subject rule = subj_ID subject ∨ rule_Subject rule = matchAll) &&
         rs && as_
      then Ok tt else enforce_rules pol' subject rsc act
  end.

(** [Policy.Enforce] *)
Definition Enforce (pol : Policy) (subject : Subject) (resource action : string) : outcome unit :=
  rsc ← ParseResource resource;
  act ← ParseAction action;
  enforce_rules pol subject rsc act.

(** [ResourceStrFromRef] *)
Definition ResourceStrFromRef (ref : Ref) : string :=
  strings_Join ["dataset"; ref_Username ref; ref_Name ref] ":".

(** * The properties of access control

    What a policy allows, stated without the loops of the code. *)
(** A pattern covers a list of names: name by name, ["_subject"] standing for
    the subject's own name, up to a star that covers at least as many names as
    the pattern still has. *)
Inductive covers (subj : option string) : list string → list string → Prop :=
| covers_nil : covers subj [] []
| covers_star r b : length (matchAll :: r) ≤ length b → covers subj (matchAll :: r) b
| covers_name n r b : n ≠ matchAll → covers subj r b → covers subj (n :: r) (n :: b)
| covers_subject u r b : subj = Some u → covers subj r b → covers subj (matchSubject :: r) (u :: b).

Lemma resource_loop_covers r b u :
  length r ≤ length b →
  ∃ c, resource_loop r b u = Ok c ∧ (c = true ↔ covers (Some u) r b).
Proof.
  revert b. induction r as [|n r IH]; intros b Hlen; cbn.
  { eexists. split; [done|]. rewrite bool_decide_eq_true. split.
    - destruct b; [constructor|done].
    - by inversion 1. }
  case_decide as Hstar.
  { subst. exists true. split; [done|]. split; [by constructor|done]. }
  destruct b as [|x b]; cbn in Hlen; [lia|]. destruct (IH b ltac:(lia)) as (c & Hrun & Hc).
  case_decide as Hs; [|case_decide as Hx].
  - destruct Hs as [-> ->]. exists c. split; [done|]. rewrite Hc. split; [by constructor|].
    inversion 1; subst; done.
  - exists false. split; [done|]. split; [done|]. inversion 1; subst; try done.
    destruct Hs. split; congruence.
  - subst x. exists c. split; [done|]. rewrite Hc. split; [by constructor|].
    inversion 1; subst; done.
Qed.

Lemma Resource_Contains_covers r b u :
  ∃ c, Resource_Contains r b u = Ok c ∧ (c = true ↔ covers (Some u) r b).
Proof.
  unfold Resource_Contains. case_decide as Hlen; [|apply resource_loop_covers; lia].
  exists false. split; [done|]. split; [done|]. intros Hc. exfalso. apply Nat.lt_nge in Hlen. apply Hlen.
  clear Hlen. induction Hc; cbn in *; lia.
Qed.

Lemma action_loop_covers a b :
  length a ≤ length b → ∃ c, action_loop a b = Ok c ∧ (c = true ↔ covers None a b).
Proof.
  revert b. induction a as [|n a IH]; intros b Hlen; cbn.
  { eexists. split; [done|]. rewrite bool_decide_eq_true. split.
    - destruct b; [constructor|done].
    - by inversion 1. }
  case_decide as Hstar.
  { subst. exists true. split; [done|]. split; [by constructor|done]. }
  destruct b as [|x b]; cbn in Hlen; [lia|]. destruct (IH b ltac:(lia)) as (c & Hrun & Hc).
  case_decide as Hx.
  - exists false. split; [done|]. split; [done|]. inversion 1; by subst.
  - subst x. exists c. split; [done|]. rewrite Hc. split; [by constructor|].
    inversion 1; by subst.
Qed.

Lemma Action_Contains_covers a b :
  ∃ c, Action_Contains a b = Ok c ∧ (c = true ↔ covers None a b).
Proof.
  unfold Action_Contains. case_decide as Hlen; [|apply action_loop_covers; lia].
  exists false. split; [done|]. split; [done|]. intros Hc. exfalso. apply Nat.lt_nge in Hlen. apply Hlen.
  clear Hlen. induction Hc; cbn in *; lia.
Qed.

Lemma any_contains_Ok {A} (f : A → outcome bool) (Q : A → Prop) l :
  (∀ x, ∃ c, f x = Ok c ∧ (c = true ↔ Q x)) →
  ∃ c, any_contains f l = Ok c ∧ (c = true ↔ ∃ x, x ∈ l ∧ Q x).
Proof.
  intros Hf. induction l as [|x l (c & Hc & IH)]; cbn.
  { exists false. split; [done|]. split; [done|]. intros (y & Hy & _). by apply not_elem_of_nil in Hy. }
  destruct (Hf x) as (cx & -> & Hx). cbn. destruct cx.
  - exists true. split; [done|]. split; [|done]. intros _. exists x. split; [left|by apply Hx].
  - exists c. split; [done|]. rewrite IH. split.
    + intros (y & Hy & HQ). exists y. split; [by right|done].
    + intros (y & [->|Hy]%elem_of_cons & HQ); [|eauto]. by apply Hx in HQ.
Qed.

(** The rule lets the subject do the action to the resource. *)
Definition allows (rule : Rule) (subject : Subject) (rsc : Resource) (act : Action) : Prop :=
  rule_Effect rule = EffectAllow ∧
  (rule_Subject rule = subj_ID subject ∨ rule_Subject rule = matchAll) ∧
  (∃ r, r ∈ rule_Resources rule ∧ covers (Some (subj_Peername subject)) r rsc) ∧
  (∃ a, a ∈ rule_Actions rule ∧ covers None a act).

Lemma enforce_rules_spec pol subject rsc act :
  (enforce_rules pol subject rsc act = Ok tt ∧ ∃ rule, rule ∈ pol ∧ allows rule subject rsc act) ∨
  (enforce_rules pol subject rsc act = Error access_ErrAccessDenied ∧
   ∀ rule, rule ∈ pol → ¬ allows rule subject rsc act).
Proof.
  induction pol as [|rule pol IH]; cbn.
  { right. split; [done|]. intros rule Hr. by apply not_elem_of_nil in Hr. }
  destruct (any_contains_Ok (λ r, Resource_Contains r rsc (subj_Peername subject))
    (λ r, covers (Some (subj_Peername subject)) r rsc) (rule_Resources rule)) as (cr & Hr & Hcr).
  { intros r. apply Resource_Contains_covers. }
  destruct (any_contains_Ok (λ a, Action_Contains a act) (λ a, covers None a act) (rule_Actions rule))
    as (ca & Ha & Hca).
  { intros a. apply Action_Contains_covers. }
  unfold Resources_Contains, Actions_Contains. rewrite Hr, Ha. cbn [mbind outcome_bind].
  destruct (bool_decide (rule_Effect rule = EffectAllow) &&
    bool_decide (rule_Subject rule = subj_ID subject ∨ rule_Subject rule = matchAll) && cr && ca) eqn:E.
  - left. split; [done|]. exists rule. split; [left|].
    rewrite !andb_true_iff, !bool_decide_eq_true in E. unfold allows. rewrite <- Hcr, <- Hca. tauto.
  - assert (¬ allows rule subject rsc act) as Hno.
    { intros (He & Hs & HR & HA). apply Hcr in HR. apply Hca in HA. subst.
      by rewrite !bool_decide_eq_true_2 in E. }
    destruct IH as [(-> & r & Hin & Hal)|[-> Hnone]].
    + left. split; [done|]. exists r. split; [by right|done].
    + right. split; [done|]. intros r [->|Hin]%elem_of_cons; [done|by apply Hnone].
Qed.

(** What a policy enforces. A well-formed request is allowed exactly when
    some rule with the effect "allow" names the subject, covers the resource
    and covers the action; otherwise access is denied. It never panics. *)
Theorem Enforce_spec pol subject resource action rsc act :
  ParseResource resource = Ok rsc → ParseAction action = Ok act →
  (Enforce pol subject resource action = Ok tt ↔
     ∃ rule, rule ∈ pol ∧ allows rule subject rsc act) ∧
  (Enforce pol subject resource action ≠ Ok tt →
     Enforce pol subject resource action = Error access_ErrAccessDenied).
Proof.
  intros Hr Ha. unfold Enforce. rewrite Hr, Ha. cbn [mbind outcome_bind].
  destruct (enforce_rules_spec pol subject rsc act) as [(Hrun & Hex)|[Hrun Hno]];
    rewrite Hrun; (split; [split|]); try done.
  intros (rule & Hin & Hal). by destruct (Hno rule).
Qed.

(** Denying rules have no effect. A policy answers every request as the
    policy with its "deny" rules left out does. *)
Theorem Enforce_ignores_deny pol subject resource action :
  Enforce (filter (λ r, rule_Effect r ≠ EffectDeny) pol) subject resource action =
  Enforce pol subject resource action.
Proof.
  unfold Enforce. destruct (ParseResource resource) as [rsc| |]; cbn; [|done..].
  destruct (ParseAction action) as [act| |]; cbn; [|done..].
  destruct (enforce_rules_spec pol subject rsc act) as [(-> & rule & Hin & Hal)|[-> Hno]],
    (enforce_rules_spec (filter (λ r, rule_Effect r ≠ EffectDeny) pol) subject rsc act)
      as [(-> & rule' & Hin' & Hal')|[-> Hno']]; [done| | |done].
  - destruct (Hno' rule); [|done]. apply list_elem_of_filter. split; [|done].
    destruct Hal as (-> & _). done.
  - apply list_elem_of_filter in Hin' as [_ Hin']. by destruct (Hno rule').
Qed.

(** A subject's own datasets. When every rule is about datasets of the
    subject, an allowed request on a dataset is on one whose owner has the
    subject's name (or the reserved name "_subject"). *)
Theorem Enforce_own_datasets pol subject owner rest action rsc resource :
  (∀ rule r, rule ∈ pol → r ∈ rule_Resources rule → ∃ r', r = "dataset" :: matchSubject :: r') →
  ParseResource resource = Ok rsc → rsc = "dataset" :: owner :: rest →
  Enforce pol subject resource action = Ok tt →
  owner = subj_Peername subject ∨ owner = matchSubject.
Proof.
  intros Hpol Hr -> Hrun. unfold Enforce in Hrun. rewrite Hr in Hrun. cbn [mbind outcome_bind] in Hrun.
  destruct (ParseAction action) as [act| |]; cbn in Hrun; [|done..].
  destruct (enforce_rules_spec pol subject ("dataset" :: owner :: rest) act)
    as [(_ & rule & Hin & _ & _ & (r & Hrr & Hcov) & _)|[Hno _]]; [|congruence].
  destruct (Hpol rule r Hin Hrr) as [r' ->].
  inversion Hcov as [| |? ? ? _ Hcov'|]; subst. inversion Hcov'; subst; naive_solver.
Qed.

(** ** Parsing *)
Definition star_last (names : list string) : Prop :=
  ∃ pre, Forall (λ n, n ≠ matchAll) pre ∧ (names = pre ∨ names = pre ++ [matchAll]).

Lemma check_star_found what str names :
  check_star what str true names = None ↔ names = [].
Proof. destruct names as [|n names]; cbn; [done|]. by case_decide. Qed.

Lemma check_star_None what str names :
  check_star what str false names = None ↔ star_last names.
Proof.
  induction names as [|n names IH]; cbn.
  { split; [|done]. intros _. exists []. auto. }
  case_decide as Hn.
  - rewrite check_star_found. split.
    + intros ->. exists []. subst. auto.
    + intros ([|p pre] & Hpre & [Heq|Heq]); cbn in *; simplify_eq; [done|..].
      all: by apply Forall_cons in Hpre as [? _].
  - rewrite IH. split.
    + intros (pre & Hpre & Hor). exists (n :: pre). split; [by constructor|]. destruct Hor as [->| ->]; auto.
    + intros ([|p pre] & Hpre & [Heq|Heq]); cbn in *; simplify_eq.
      all: apply Forall_cons in Hpre as [_ Hpre]; exists pre; auto.
Qed.

(** Resource strings. Exactly the non-empty strings whose only star, if
    any, is the last name parse, and what a resource parses to prints back as
    the string. *)
Theorem ParseResource_spec str :
  (∀ rsc, ParseResource str = Ok rsc → Resource_MarshalJSON rsc = str ∧ star_last rsc) ∧
  ((∃ rsc, ParseResource str = Ok rsc) ↔ str ≠ "" ∧ star_last (strings_Split str ":")) ∧
  ParseResource str ≠ Panic.
Proof.
  unfold ParseResource, parse_names, Resource_MarshalJSON. case_decide as Hs.
  { split_and!; [done| |done]. split; [by intros []|naive_solver]. }
  pose proof (check_star_None "resource" str (strings_Split str ":")) as Hc.
  destruct (check_star "resource" str false (strings_Split str ":")) as [e|].
  - split_and!; [done| |done]. split; [by intros []|]. intros [_ Hl]. by apply Hc in Hl.
  - split_and!; [|split; [|by eexists]|done].
    + intros rsc [= <-]. split; [apply Join_Split|by apply Hc].
    + intros _. split; [done|by apply Hc].
Qed.

(** ** The theorems at work *)
Definition demo_policy : Policy :=
  [mkRule "own" "*" [["dataset"; "_subject"; "*"]] [["remote"; "push"]] "allow";
   mkRule "block" "QmBob" [["*"]] [["*"]] "deny"].
Definition demo_bob : Subject := mkSubject "QmBob" "bob".

Lemma Enforce_spec_witness :
  Enforce demo_policy demo_bob "dataset:bob:birds" "remote:push" = Ok tt.
Proof.
  apply (Enforce_spec demo_policy demo_bob "dataset:bob:birds" "remote:push"
           ["dataset"; "bob"; "birds"] ["remote"; "push"]).
  - reflexivity.
  - reflexivity.
  - eexists. split; [left|]. split; [reflexivity|]. split; [by right|]. split.
    + eexists. split; [left|]. constructor; [discriminate|].
      apply covers_subject; [reflexivity|]. constructor. cbn. lia.
    + eexists. split; [left|]. repeat (constructor; [discriminate|]). constructor.
Defined.

Lemma Enforce_own_datasets_witness : "bob" = "bob" ∨ "bob" = matchSubject.
Proof.
  apply (Enforce_own_datasets (take 1 demo_policy) demo_bob "bob" ["birds"] "remote:push"
           ["dataset"; "bob"; "birds"] "dataset:bob:birds").
  - intros rule r Hrule Hr. apply list_elem_of_singleton in Hrule as ->.
    apply list_elem_of_singleton in Hr as ->. by eexists.
  - reflexivity.
  - reflexivity.
  - reflexivity.
Defined.
