(* ===== verification/Refstore.v ===== *)
(** * The reference store (src/repo/ref, src/repo/mem_refstore.go,
    src/repo/refstore.go)

    The deprecated [DatasetRef], the in-memory store of references, and the
    functions that complete a reference from the store and from the profiles
    the repository knows. Functions that fill in a [*DatasetRef] run in the
    state monad over it. *)
From stdpp Require Export sorting.
From S2P Require Export Dsref.

Definition ErrRepoNotFound : error := ErrSentinel "repo: not found".
Definition ErrNoHistory : error := ErrSentinel "repo: no history".
Definition ErrPeerIDRequired : error := ErrSentinel "repo: peerID is required".
Definition ErrPeernameRequired : error := ErrSentinel "repo: peername is required".
Definition ErrNameRequired : error := ErrSentinel "repo: name is required".
Definition ErrPathRequired : error := ErrSentinel "repo: path is required".
Definition ErrEmptyDatasetRef : error := ErrSentinel "repo: empty dataset reference".

(** [profile.ID] is a string of raw bytes; its base-58 text form comes from
    libp2p. *)
Class ProfileIDs : Type := {
  ID_String : string → string;
  IDB58Decode : string → outcome string;
}.

(** What completing a reference asks of [profile.Store] *)
Record Profile : Type := mkProfile {
  pro_ID : string;
  pro_Peername : string;
}.
Class ProfileStore (S : Type) : Type := {
  Owner : S → Profile;
  GetProfile : S → string → outcome Profile;
  PeernameID : S → string → outcome string;
}.

(** ** References *)

(** [type DatasetRef struct] *)
Record DatasetRef : Type := mkDatasetRef {
  dr_Peername : string;
  dr_ProfileID : string;
  dr_Name : string;
  dr_Path : string;
  dr_FSIPath : string;
  dr_Dataset : option Dataset;
  dr_Published : bool;
  dr_Foreign : bool;
}.
Definition zero_DatasetRef : DatasetRef := mkDatasetRef "" "" "" "" "" None false false.

(** [DatasetRef.AliasString], [DatasetRef.String] *)
Definition AliasString (r : DatasetRef) : string :=
  if nonempty (dr_Name r) then dr_Peername r +:+ "/" +:+ dr_Name r else dr_Peername r.
Definition DatasetRef_String (r : DatasetRef) : string :=
  if nonempty (dr_Path r) then AliasString r +:+ "@" +:+ dr_Path r else AliasString r.

(** [DatasetRef.Complete], [DatasetRef.Match], [DatasetRef.Equal],
    [DatasetRef.IsPeerRef] and [DatasetRef.IsEmpty] *)
Definition DatasetRef_Complete (r : DatasetRef) : bool :=
  nonempty (dr_Peername r) && nonempty (dr_ProfileID r) && nonempty (dr_Name r) && nonempty (dr_Path r).
Definition Match (r b : DatasetRef) : bool :=
  (nonempty (dr_Path r) && nonempty (dr_Path b) && bool_decide (dr_Path r = dr_Path b)) ||
  ((bool_decide (dr_ProfileID r = dr_ProfileID b) || bool_decide (dr_Peername r = dr_Peername b)) &&
   bool_decide (dr_Name r = dr_Name b)).
Definition DatasetRef_Equal (r b : DatasetRef) : bool :=
  bool_decide (dr_Peername r = dr_Peername b) && bool_decide (dr_ProfileID r = dr_ProfileID b) &&
  bool_decide (dr_Name r = dr_Name b) && bool_decide (dr_Path r = dr_Path b).
Definition DatasetRef_IsPeerRef (r : DatasetRef) : bool :=
  (nonempty (dr_Peername r) || nonempty (dr_ProfileID r)) && negb (nonempty (dr_Name r)) &&
  negb (nonempty (dr_Path r)) && match dr_Dataset r with None => true | Some _ => false end.
Definition DatasetRef_IsEmpty (r : DatasetRef) : bool := DatasetRef_Equal r zero_DatasetRef.

Section ids.
Context `{ProfileIDs}.

(** [DatasetRef.Absolute] and [DatasetRef.DebugString] *)
Definition Absolute (r : DatasetRef) : string :=
  AliasString r +:+
  (if nonempty (ID_String (dr_ProfileID r)) || nonempty (dr_Path r) then "@" else "") +:+
  ID_String (dr_ProfileID r) +:+ dr_Path r.

Definition DebugString (r : DatasetRef) : string :=
  "{peername:" +:+ dr_Peername r +:+ ",profileID:" +:+ ID_String (dr_ProfileID r) +:+
  ",name:" +:+ dr_Name r +:+
  (if nonempty (dr_Path r) then ",path:" +:+ dr_Path r else "") +:+
  (if nonempty (dr_FSIPath r) then ",fsiPath:" +:+ dr_FSIPath r else "") +:+
  (if dr_Published r then ",published:true" else "") +:+
  (if dr_Foreign r then ",foreign:true" else "") +:+ "}".

(** [IDB58DecodeOrEmpty] *)
Definition IDB58DecodeOrEmpty (proid : string) : string :=
  match IDB58Decode proid with Ok pid => pid | _ => "" end.

(** [ConvertToVersionInfo]; the version info is the dataset's where there is
    one, with the names and flags of the reference. *)
Definition ConvertToVersionInfo (r : DatasetRef) : VersionInfo :=
  let ds := dr_Dataset r in
  let md := d ← ds; ds_Meta d in
  let st := d ← ds; ds_Structure d in
  let cm := d ← ds; ds_Commit d in
  mkVersionInfo "" (dr_Peername r) (ID_String (dr_ProfileID r)) (dr_Name r) (dr_Path r)
    (dr_Published r) (dr_Foreign r)
    (from_option md_Title "" md)
    (match md with Some m => match md_Theme m with Some t => strings_Join t "," | None => "" end | None => "" end)
    (from_option st_Length 0%Z st) (from_option st_Entries 0%Z st)
    (from_option st_Format "" st) (from_option st_ErrCount 0%Z st)
    (from_option cm_Timestamp 0%Z cm) "" "" (from_option ds_NumVersions 0%Z ds)
    (dr_FSIPath r) "" "" 0.

(** [ConvertToDsref], [RefFromDsref] and [RefFromVersionInfo] *)
Definition ConvertToDsref (r : DatasetRef) : Ref :=
  mkRef "" (dr_Peername r) (ID_String (dr_ProfileID r)) (dr_Name r) (dr_Path r).
Definition RefFromDsref (r : Ref) : DatasetRef :=
  mkDatasetRef (ref_Username r) (IDB58DecodeOrEmpty (ref_ProfileID r)) (ref_Name r) (ref_Path r)
    "" None false false.
Definition RefFromVersionInfo (vi : VersionInfo) : DatasetRef :=
  mkDatasetRef (vi_Username vi) (IDB58DecodeOrEmpty (vi_ProfileID vi)) (vi_Name vi) (vi_Path vi)
    (vi_FSIPath vi) None (vi_Published vi) (vi_Foreign vi).
End ids.

(** ** The in-memory store *)

(** [type MemRefstore []DatasetRef] *)
Abbreviation MemRefstore := (list DatasetRef).

(** The order [PutRef] sorts by. [sort.Slice] leaves references with the same
    key in any order; the model keeps them in the order they were in. *)
Definition sort_key (r : DatasetRef) : string := dr_Peername r +:+ dr_Name r.
Definition key_le (r b : DatasetRef) : Prop := String.leb (sort_key r) (sort_key b) = true.
#[export] Instance key_le_dec : RelDecision key_le.
Proof. intros r b. unfold key_le. apply _. Defined.

(** [MemRefstore.PutRef] *)
Definition PutRef (put : DatasetRef) (r : MemRefstore) : outcome MemRefstore :=
  if decide (dr_ProfileID put = "") then Error ErrPeerIDRequired
  else if decide (dr_Peername put = "") then Error ErrPeernameRequired
  else if decide (dr_Name put = "") then Error ErrNameRequired
  else if decide (dr_Path put = "" ∧ dr_FSIPath put = "") then Error ErrPathRequired
  else match find_index_from (λ ref, Match ref put) 0 r with
       | Some (i, _) => Ok (<[i := put]> r)
       | None => Ok (merge_sort key_le (r ++ [put]))
       end.

(** [MemRefstore.GetRef] *)
Definition GetRef (get : DatasetRef) (r : MemRefstore) : outcome DatasetRef :=
  match find_index_from (λ ref, Match ref get) 0 r with
  | Some (_, ref) => Ok ref
  | None => Error ErrRepoNotFound
  end.

(** [MemRefstore.DeleteRef] *)
Definition DeleteRef (del : DatasetRef) (r : MemRefstore) : outcome MemRefstore :=
  match find_index_from (λ ref, Match ref del) 0 r with
  | Some (i, _) => Ok (delete i r)
  | None => Error ErrRepoNotFound
  end.

(** The loop of [MemRefstore.References] from index [i] on: the result so far,
    and whether the loop returned. *)
Fixpoint references_loop (offset limit i : Z) (refs res : list DatasetRef)
    : outcome (bool * list DatasetRef) :=
  match refs with
  | [] => Ok (false, res)
  | ref :: refs' =>
      if decide (i < offset)%Z then references_loop offset limit (i + 1) refs' res
      else if decide (i - offset = limit)%Z then Ok (true, res)
      else res' ← assign res (i - offset) ref; references_loop offset limit (i + 1) refs' res'
  end.

(** [MemRefstore.References]; a negative limit panics in [make]. *)
Definition References (offset limit : Z) (r : MemRefstore) : outcome (list DatasetRef) :=
  if decide (limit < 0)%Z then Panic
  else
    '(returned, res) ← references_loop offset limit 0 r (replicate (Z.to_nat limit) zero_DatasetRef);
    if (returned : bool) then Ok res else slice_to res (Z.of_nat (length r) - offset).

(** [MemRefstore.RefCount] *)
Definition RefCount (r : MemRefstore) : Z := Z.of_nat (length r).

(** ** Completing references *)
Section canonicalize.
Context `{ProfileIDs, ProfileStore PS}.

Definition set_dr_names (peername id : string) (r : DatasetRef) : DatasetRef :=
  mkDatasetRef peername id (dr_Name r) (dr_Path r) (dr_FSIPath r) (dr_Dataset r)
    (dr_Published r) (dr_Foreign r).
Definition set_dr_Peername (peername : string) (r : DatasetRef) : DatasetRef :=
  set_dr_names peername (dr_ProfileID r) r.
Definition set_dr_ProfileID (id : string) (r : DatasetRef) : DatasetRef :=
  set_dr_names (dr_Peername r) id r.

(** The errors of [canonicalizeProfile] *)
Definition id_mismatch (name id given : string) : error :=
  Errorf "Peername and ProfileID combination not valid: Peername = %s, ProfileID = %s, but was given ProfileID = %s"
    [name; ID_String id; ID_String given].
Definition name_mismatch (id name given : string) : error :=
  Errorf "Peername and ProfileID combination not valid: ProfileID = %s, Peername = %s, but was given Peername = %s"
    [ID_String id; name; given].

(** The branch of [canonicalizeProfile] for the owner's own references *)
Definition canonicalize_own (p : Profile) : stM DatasetRef unit := λ ref0,
  let ref := if decide (dr_Peername ref0 = "me")
             then set_dr_names (pro_Peername p) (pro_ID p) ref0 else ref0 in
  let name := dr_Peername ref in let id := dr_ProfileID ref in
  let both := bool_decide (name ≠ "" ∧ id ≠ "") in
  if both && bool_decide (name = pro_Peername p ∧ id ≠ pro_ID p) then (Error (id_mismatch (pro_Peername p) (pro_ID p) id), ref)
  else if both && bool_decide (id = pro_ID p ∧ name ≠ pro_Peername p) then
    (Ok tt, set_dr_Peername (pro_Peername p) ref)
  else if both && bool_decide (name = pro_Peername p ∧ id = pro_ID p) then (Ok tt, ref)
  else if decide (name ≠ "" ∧ name ≠ pro_Peername p) then (Ok tt, ref)
  else if decide (id ≠ "" ∧ id ≠ pro_ID p) then (Ok tt, ref)
  else (Ok tt, set_dr_names (pro_Peername p) (pro_ID p) ref).

(** The lookups of [canonicalizeProfile] for other users' references: the
    profile of the identifier first, then the identifier of the name *)
Definition canonicalize_by_name (ps : PS) : stM DatasetRef unit := λ ref,
  if decide (dr_Peername ref = "") then (Ok tt, ref)
  else match PeernameID ps (dr_Peername ref) with
       | Ok id =>
           if decide (dr_ProfileID ref = "") then (Ok tt, set_dr_ProfileID id ref)
           else if decide (dr_ProfileID ref ≠ id)
           then (Error (id_mismatch (dr_Peername ref) id (dr_ProfileID ref)), ref) else (Ok tt, ref)
       | Error _ => (Ok tt, ref)
       | Panic => (Panic, ref)
       end.

Definition canonicalize_other (ps : PS) : stM DatasetRef unit := λ ref,
  if decide (dr_ProfileID ref = "") then canonicalize_by_name ps ref
  else match GetProfile ps (dr_ProfileID ref) with
       | Ok profile =>
           if decide (dr_Peername ref = "") then (Ok tt, set_dr_Peername (pro_Peername profile) ref)
           else if decide (dr_Peername ref ≠ pro_Peername profile)
           then (Error (name_mismatch (pro_ID profile) (pro_Peername profile) (dr_Peername ref)), ref)
           else canonicalize_by_name ps ref
       | Error _ => canonicalize_by_name ps ref
       | Panic => (Panic, ref)
       end.

(** [canonicalizeProfile] *)
Definition canonicalizeProfile (ps : PS) : stM DatasetRef unit := λ ref,
  if decide (dr_Peername ref = "" ∧ dr_ProfileID ref = "") then (Ok tt, ref)
  else
    let p := Owner ps in
    if decide (dr_Peername ref = "me" ∨ dr_Peername ref = pro_Peername p ∨ dr_ProfileID ref = pro_ID p)
    then canonicalize_own p ref else canonicalize_other ps ref.

(** The fields [canonicalizeDatasetRef] takes over from the stored reference *)
Definition fill_from (got ref : DatasetRef) : DatasetRef :=
  mkDatasetRef
    (if decide (dr_Peername ref = "" ∨ dr_Peername ref ≠ dr_Peername got)
     then dr_Peername got else dr_Peername ref)
    (if nonempty (dr_ProfileID ref) then dr_ProfileID ref else dr_ProfileID got)
    (if nonempty (dr_Name ref) then dr_Name ref else dr_Name got)
    (if nonempty (dr_Path ref) then dr_Path ref else dr_Path got)
    (if nonempty (dr_FSIPath ref) then dr_FSIPath ref else dr_FSIPath got)
    (dr_Dataset ref) (dr_Published got) (dr_Foreign ref).

(** [canonicalizeDatasetRef] over a store of references and of profiles *)
Definition canonicalizeDatasetRef (ps : PS) (r : MemRefstore) : stM DatasetRef unit :=
  ref0 ← st_get;
  if DatasetRef_IsEmpty ref0 then st_fail ErrEmptyDatasetRef
  else
    canonicalizeProfile ps;;
    ref1 ← st_get;
    got ← st_lift (GetRef ref1 r);
    st_modify (fill_from got);;
    ref2 ← st_get;
    if decide (dr_ProfileID ref2 ≠ dr_ProfileID got ∨ dr_Name ref2 ≠ dr_Name got) then
      st_fail (Errorf "Given datasetRef %s does not match datasetRef on file: %s"
                 [DatasetRef_String ref2; DatasetRef_String got])
    else if decide (dr_Path got = "") then st_fail ErrNoHistory
    else mret tt.

(** ** The shims over the store *)

(** [ListVersionInfoShim], [GetVersionInfoShim] and [PutVersionInfoShim] *)
Definition ListVersionInfoShim (offset limit : Z) (r : MemRefstore) : outcome (list VersionInfo) :=
  refs ← References offset limit r; Ok (map ConvertToVersionInfo refs).

Definition GetVersionInfoShim (ref : Ref) (r : MemRefstore) : outcome VersionInfo :=
  rref ← GetRef (RefFromDsref ref) r; Ok (ConvertToVersionInfo rref).

Definition set_vi_ProfileID (id : string) (vi : VersionInfo) : VersionInfo :=
  mkVersionInfo (vi_InitID vi) (vi_Username vi) id (vi_Name vi) (vi_Path vi)
    (vi_Published vi) (vi_Foreign vi) (vi_MetaTitle vi) (vi_ThemeList vi)
    (vi_BodySize vi) (vi_BodyRows vi) (vi_BodyFormat vi) (vi_NumErrors vi)
    (vi_CommitTime vi) (vi_CommitTitle vi) (vi_CommitMessage vi) (vi_NumVersions vi) (vi_FSIPath vi)
    (vi_RunID vi) (vi_RunStatus vi) (vi_RunDuration vi).

Definition PutVersionInfoShim (ps : PS) (vi : VersionInfo) (r : MemRefstore) : outcome MemRefstore :=
  let vi' :=
    if decide (vi_ProfileID vi = "" ∧ vi_Username vi ≠ "") then
      match canonicalizeProfile ps (set_dr_Peername (vi_Username vi) zero_DatasetRef) with
      | (Ok _, rref) => set_vi_ProfileID (ID_String (dr_ProfileID rref)) vi
      | _ => vi
      end
    else vi in
  PutRef (RefFromVersionInfo vi') r.

(** [DeleteVersionInfoShim] *)
Definition DeleteVersionInfoShim (ps : PS) (ref : Ref) (r : MemRefstore)
    : outcome (VersionInfo * MemRefstore) :=
  match canonicalizeDatasetRef ps r (RefFromDsref ref) with
  | (Panic, _) => Panic
  | (Error e, rref) =>
      if decide (e = ErrNoHistory)
      then r' ← DeleteRef rref r; Ok (ConvertToVersionInfo rref, r') else Error e
  | (Ok _, rref) => r' ← DeleteRef rref r; Ok (ConvertToVersionInfo rref, r')
  end.

(** [ListDatasetsShim]: the offset is applied a second time here. *)
Fixpoint list_datasets_loop (offset limit : Z) (vis : list VersionInfo) (refs : list DatasetRef)
    : list VersionInfo :=
  match refs with
  | [] => vis
  | ref :: refs' =>
      if decide (0 < offset)%Z then list_datasets_loop (offset - 1) limit vis refs'
      else
        let vis' := vis ++ [ConvertToVersionInfo ref] in
        if decide (Z.of_nat (length vis') = limit) then vis'
        else list_datasets_loop offset limit vis' refs'
  end.

Definition ListDatasetsShim (offset limit : Z) (r : MemRefstore) : outcome (list VersionInfo) :=
  rrefs ← References offset limit r; Ok (list_datasets_loop offset limit [] rrefs).

(** [CompareDatasetRef] *)
Definition bool_text (b : bool) : string := if b then "true" else "false".

Definition CompareDatasetRef (a b : DatasetRef) : option error :=
  if decide (dr_ProfileID a ≠ dr_ProfileID b) then
    Some (Errorf "PeerID mismatch. %s != %s" [ID_String (dr_ProfileID a); ID_String (dr_ProfileID b)])
  else if decide (dr_Peername a ≠ dr_Peername b) then
    Some (Errorf "Peername mismatch. %s != %s" [dr_Peername a; dr_Peername b])
  else if decide (dr_Name a ≠ dr_Name b) then
    Some (Errorf "Name mismatch. %s != %s" [dr_Name a; dr_Name b])
  else if decide (dr_Path a ≠ dr_Path b) then
    Some (Errorf "Path mismatch. %s != %s" [dr_Path a; dr_Path b])
  else if decide (dr_Published a ≠ dr_Published b) then
    Some (Errorf "Published mismatch: %t != %t" [bool_text (dr_Published a); bool_text (dr_Published b)])
  else None.
End canonicalize.

(** * Parsing deprecated references (src/repo/parse.go)

    [ParseDatasetRef], which the synchronization handlers use next to
    [dsref.Parse]. Base-58 and multihash decoding come from other
    repositories. *)
Class MultihashLib : Type := {
  base58_Decode : string → outcome string;
  multihash_Decode : string → outcome string;
}.

Section parse.
Context `{ProfileIDs, MultihashLib}.

(** [isBase58Multihash] *)
Definition isBase58Multihash (hash : string) : bool :=
  match base58_Decode hash with
  | Ok data => match multihash_Decode data with Ok _ => true | _ => false end
  | _ => false
  end.

(** [parseAlias]: the first two parts of the text *)
Definition parseAlias (alias : string) : string * string :=
  let toks := strings_Split alias "/"%char in
  (default "" (toks !! 0), default "" (toks !! 1)).

(** [parseIdentifiers]: the profile, the path and the error *)
Definition parseIdentifiers (ids : string) : string * string * option error :=
  match strings_Split ids "/"%char with
  | [] => ("", "", Some (Errorf "malformed reporef.DatasetRef identifier: %s" [ids]))
  | [t] =>
      if decide (t = "") then ("", "", None)
      else match IDB58Decode t with
           | Ok id => (id, "", None)
           | Error e => ("", "", Some e)
           | Panic => ("", "", None)
           end
  | [t0; t1] =>
      (IDB58DecodeOrEmpty t0,
       if isBase58Multihash t0 && isBase58Multihash t1 then "/ipfs/" +:+ t1 else t1, None)
  | t0 :: t1 :: t2 :: _ => (IDB58DecodeOrEmpty t0, "/" +:+ t1 +:+ "/" +:+ t2, None)
  end.

(** The loop of [ParseDatasetRef] over the parts of a text without [@]:
    [prev] is the part before, [peername], [datasetname] and [pid] tell what
    was found. *)
Fixpoint parse_toks (prev : option string) (peername datasetname pid : bool) (toks : list string)
    (dsr : DatasetRef) : outcome DatasetRef :=
  let '(mkDatasetRef pn id n _ fsi ds pub fo) := dsr in
  match toks with
  | [] => Ok dsr
  | tok :: rest =>
      if isBase58Multihash tok then
        if negb pid then
          parse_toks (Some tok) peername datasetname true rest
            (mkDatasetRef pn (IDB58DecodeOrEmpty tok) n (dr_Path dsr) fsi ds pub fo)
        else
          match prev with
          | None => Panic
          | Some p =>
              Ok (mkDatasetRef pn id n
                    ((if negb (isBase58Multihash p) then "/" +:+ p +:+ "/" else "/ipfs/") +:+
                     strings_Join (tok :: rest) "/") fsi ds pub fo)
          end
      else if negb peername then
        parse_toks (Some tok) true datasetname pid rest (mkDatasetRef tok id n (dr_Path dsr) fsi ds pub fo)
      else if negb datasetname then
        parse_toks (Some tok) peername true pid rest (mkDatasetRef pn id tok (dr_Path dsr) fsi ds pub fo)
      else Ok (mkDatasetRef pn id n (strings_Join (tok :: rest) "/") fsi ds pub fo)
  end.

(** The text before and after the first [@] *)
Fixpoint cut_at (s : string) : option (string * string) :=
  match s with
  | EmptyString => None
  | String c s' =>
      if Ascii.eqb c "@" then Some ("", s')
      else '(a, b) ← cut_at s'; Some (String c a, b)
  end.

(** [ParseDatasetRef]: the error of an identifier gives way to the one of a
    reference without any part. *)
Definition ParseDatasetRef (ref : string) : outcome DatasetRef :=
  if decide (ref = "") then Error ErrEmptyDatasetRef
  else
    let finish (dsr : DatasetRef) (err : option error) : outcome DatasetRef :=
      if negb (nonempty (dr_ProfileID dsr)) && negb (nonempty (dr_Peername dsr)) &&
         negb (nonempty (dr_Name dsr)) && negb (nonempty (dr_Path dsr))
      then Error (Errorf "malformed reporef.DatasetRef string: %s" [ref])
      else match err with Some e => Error e | None => Ok dsr end in
    match cut_at ref with
    | Some (alias, ids) =>
        let '(pn, n) := parseAlias alias in
        let '(id, path, err) := parseIdentifiers ids in
        finish (mkDatasetRef pn id n path "" None false false) err
    | None =>
        dsr ← parse_toks None false false false (strings_Split ref "/"%char) zero_DatasetRef;
        finish dsr None
    end.
End parse.

(** The loop never reads before the first part. *)
Lemma parse_toks_no_panic `{ProfileIDs, MultihashLib} prev pn dn pid toks dsr :
  (pid = true → prev ≠ None) → parse_toks prev pn dn pid toks dsr ≠ Panic.
Proof.
  revert prev pn dn pid dsr. induction toks as [|t toks IH]; intros prev pn dn pid [] Hp; [done|].
  cbn [parse_toks]. destruct (isBase58Multihash t).
  - destruct pid; cbn [negb]; [|by apply IH]. destruct prev; [done|]. by destruct Hp.
  - destruct pn; cbn [negb]; [|by apply IH]. destruct dn; cbn [negb]; [done|]. by apply IH.
Qed.

Lemma ParseDatasetRef_no_panic `{ProfileIDs, MultihashLib} ref : ParseDatasetRef ref ≠ Panic.
Proof.
  unfold ParseDatasetRef. case_decide; [done|].
  destruct (cut_at ref) as [[alias ids]|].
  - destruct (parseAlias alias), (parseIdentifiers ids) as [[? ?] err].
    case_match; [done|]. by destruct err.
  - pose proof (parse_toks_no_panic None false false false (strings_Split ref "/"%char) zero_DatasetRef) as Hp.
    destruct (parse_toks _ _ _ _ _ _); cbn; [case_match; done|done|]. by apply Hp.
Qed.
