(* ===== verification/Paging.v ===== *)
(** * Pages and orderings of API requests (src/api/util/page.go, order.go,
    requests.go)

    Numbers are Go's 64-bit [int]s: arithmetic on them wraps around. An HTTP
    request is read as the form values the functions ask for. *)
From S2P Require Export GoStrings.

Definition DefaultPageSize : Z := 50.
Definition DefaultMaxPageSize : Z := 100.

(** [type Page struct] *)
Record Page : Type := mkPage {
  pg_Number : Z;
  pg_Size : Z;
  pg_ResultCount : Z;
  pg_NextURL : string;
  pg_PrevURL : string;
}.

(** [size] cut to the maximum, unless it is -1 *)
Definition cap_size (size : Z) : Z :=
  if decide (DefaultMaxPageSize ≠ -1 ∧ DefaultMaxPageSize < size)%Z then DefaultMaxPageSize else size.

(** [NewPage] *)
Definition NewPage (number size : Z) : Page :=
  mkPage (if decide (number ≤ 0)%Z then 1 else number) (cap_size size) 0 "" "".

(** [Page.Limit], [Page.Offset], [Page.Next] and [Page.Prev] *)
Definition Page_Limit (p : Page) : Z := pg_Size p.
Definition Page_Offset (p : Page) : Z := wrap64 (wrap64 (pg_Number p - 1) * pg_Size p).
Definition Page_Next (p : Page) : Page :=
  mkPage (wrap64 (pg_Number p + 1)) (pg_Size p) (pg_ResultCount p) (pg_NextURL p) (pg_PrevURL p).
Definition Page_Prev (p : Page) : Page :=
  mkPage (wrap64 (pg_Number p - 1)) (pg_Size p) (pg_ResultCount p) (pg_NextURL p) (pg_PrevURL p).

(** [Page.NextPageExists] and [Page.PrevPageExists] *)
Definition NextPageExists (p : Page) : bool :=
  bool_decide (pg_ResultCount p ≤ 0)%Z ||
  negb (bool_decide (pg_ResultCount p ≤ wrap64 (pg_Number p * pg_Size p))%Z).
Definition PrevPageExists (p : Page) : bool := bool_decide (1 < pg_Number p)%Z.

(** [Page.SetQueryParams]: the query parameters it sets *)
Definition Page_QueryParams (p : Page) : list (string * string) :=
  ("page", strconv_Itoa (pg_Number p)) ::
  (if decide (pg_Size p ≠ DefaultPageSize) then [("pageSize", strconv_Itoa (pg_Size p))] else []).

(** [ReqParamInt]; [strconv.ParseInt(v, 10, 0)] reads what [strconv.Atoi] does. *)
Definition ReqParamInt (form : string → string) (key : string) (def : Z) : Z :=
  if decide (form key = "") then def else default def (strconv_Atoi (form key)).

(** [PageFromRequest] *)
Definition PageFromRequest (form : string → string) : Page :=
  let number := ReqParamInt form "page" 1 in
  let number := if decide (number ≤ 0)%Z then 1%Z else number in
  let size := ReqParamInt form "pageSize" DefaultPageSize in
  let size := if decide (size ≤ 0)%Z then DefaultPageSize else size in
  mkPage number (cap_size size) 0 "" "".

(** [NewPageFromOffsetAndLimit]: Go's division truncates towards zero. *)
Definition NewPageFromOffsetAndLimit (offset limit : Z) : Page :=
  let size := if decide (limit ≤ 0)%Z then DefaultPageSize else limit in
  mkPage (wrap64 (Z.quot offset size + 1)) size 0 "" "".

(** ** Orderings *)
Definition OrderASC : string := "asc".
Definition OrderDESC : string := "desc".

(** [type Order struct]; an [OrderBy] is a list of them. *)
Record Order : Type := mkOrder {
  ord_Key : string;
  ord_Direction : string;
}.

(** [NewOrder] *)
Definition NewOrder (key orderDirection : string) : Order :=
  mkOrder key (if decide (orderDirection ≠ OrderASC ∧ orderDirection ≠ OrderDESC)
               then OrderDESC else orderDirection).

(** [Order.String] and [OrderBy.String] *)
Definition Order_String (o : Order) : string := ord_Key o +:+ "," +:+ ord_Direction o.
Definition OrderBy_String (o : list Order) : string := strings_Join (map Order_String o) ",".

(** The body of the loop of [NewOrderByFromString] at index [i] *)
Definition order_at (comps : list string) (validKeys : option (list string)) (i : nat)
    : outcome (list Order) :=
  dir ← index comps (Z.of_nat (i + 1));
  key ← index comps (Z.of_nat i);
  let orderDirection := if decide (strings_ToLower dir = OrderASC) then OrderASC else OrderDESC in
  let orderKey := strings_TrimSpace key in
  Ok (match validKeys with
      | Some vks => if existsb (λ vkey, bool_decide (vkey = orderKey)) vks
                    then [NewOrder orderKey orderDirection] else []
      | None => [NewOrder orderKey orderDirection]
      end).

(** [for i := 0; i <= len(orderComponents)/2; i += 2]; one unit of fuel per
    iteration *)
Fixpoint order_loop (fuel : nat) (comps : list string) (validKeys : option (list string))
    (i : nat) (res : list Order) : outcome (list Order) :=
  match fuel with
  | 0 => Ok res
  | S fuel' =>
      if decide (i ≤ length comps `div` 2) then
        o ← order_at comps validKeys i;
        order_loop fuel' comps validKeys (i + 2) (res ++ o)
      else Ok res
  end.

(** [NewOrderByFromString] *)
Definition NewOrderByFromString (orderBy : string) (validKeys : option (list string))
    : outcome (list Order) :=
  let comps := strings_Split orderBy "," in
  if decide (orderBy = "" ∨ length comps = 0 ∨ (length comps ≠ 1 ∧ length comps `mod` 2 = 1))
  then Ok []
  else match comps with
       | [c] => Ok [NewOrder (strings_TrimSpace c) OrderDESC]
       | _ => order_loop (S (length comps)) comps validKeys 0 []
       end.

(** [OrderByFromRequest] and [OrderByFromRequestWithKeys] *)
Definition OrderByFromRequest (form : string → string) : outcome (list Order) :=
  NewOrderByFromString (form "orderBy") None.
Definition OrderByFromRequestWithKeys (form : string → string) (validKeys : option (list string))
    : outcome (list Order) := NewOrderByFromString (form "orderBy") validKeys.

(** * The properties of pages and orderings *)
(** Pages tile the results. Whatever a request asks for, the page has a
    size between 1 and 100 and a number from 1 on; as long as the number is
    below 2^56 its offset is the exact product, pages follow each other without
    gap or overlap, and a next page exists exactly when results remain or their
    number is unknown. *)
Theorem PageFromRequest_tiles form count :
  let p0 := PageFromRequest form in
  let p := mkPage (pg_Number p0) (pg_Size p0) count "" "" in
  (1 ≤ pg_Size p ≤ 100)%Z ∧ (1 ≤ pg_Number p)%Z ∧
  ((pg_Number p < 2 ^ 56)%Z →
     Page_Offset p = ((pg_Number p - 1) * pg_Size p)%Z ∧
     Page_Offset (Page_Next p) = (Page_Offset p + Page_Limit p)%Z ∧
     (NextPageExists p = true ↔ (count ≤ 0 ∨ Page_Offset (Page_Next p) < count)%Z)).
Proof.
  intros p0 p. assert (1 ≤ pg_Size p ≤ 100 ∧ 1 ≤ pg_Number p)%Z as [Hs Hn].
  { subst p p0. unfold PageFromRequest, cap_size, DefaultMaxPageSize, DefaultPageSize. cbn.
    repeat case_decide; lia. }
  split_and!; [lia|lia|lia|]. intros Hlt.
  assert (0 ≤ (pg_Number p - 1) * pg_Size p ≤ 2 ^ 56 * 100)%Z as Hprod by nia.
  assert (0 ≤ pg_Number p * pg_Size p ≤ 2 ^ 56 * 100)%Z as Hprod' by nia.
  assert (Page_Offset p = ((pg_Number p - 1) * pg_Size p)%Z) as Hoff.
  { unfold Page_Offset. rewrite (wrap64_id (_ - 1)), wrap64_id; unfold in_int64, int64_min, int64_max; lia. }
  assert (Page_Offset (Page_Next p) = (pg_Number p * pg_Size p)%Z) as Hnext.
  { unfold Page_Offset, Page_Next. cbn [pg_Number pg_Size].
    rewrite (wrap64_id (pg_Number p + 1)) by (unfold in_int64, int64_min, int64_max; lia).
    replace (pg_Number p + 1 - 1)%Z with (pg_Number p) by lia.
    rewrite (wrap64_id (pg_Number p)), wrap64_id; unfold in_int64, int64_min, int64_max; lia. }
  split_and!; [done|rewrite Hoff, Hnext; unfold Page_Limit; lia|].
  rewrite Hnext. unfold NextPageExists.
  rewrite wrap64_id by (unfold in_int64, int64_min, int64_max; lia).
  rewrite orb_true_iff, negb_true_iff, bool_decide_eq_true, bool_decide_eq_false.
  change (pg_ResultCount p) with count. lia.
Qed.

(** From offset to page. The page made of an offset and a limit is the one
    the offset falls in; its own offset is the offset rounded down to a
    multiple of the size, so the offset comes back only when it is one. *)
Theorem NewPageFromOffsetAndLimit_contains offset limit :
  (0 ≤ offset ≤ 2 ^ 62)%Z → (limit ≤ 2 ^ 62)%Z →
  let p := NewPageFromOffsetAndLimit offset limit in
  (Page_Offset p ≤ offset < Page_Offset p + pg_Size p)%Z ∧
  (Page_Offset p = offset ↔ (pg_Size p | offset)%Z).
Proof.
  intros Ho Hl p. assert (1 ≤ pg_Size p ≤ 2 ^ 62)%Z as Hs.
  { subst p. unfold NewPageFromOffsetAndLimit, DefaultPageSize. cbn. case_decide; lia. }
  assert (pg_Number p = wrap64 (Z.quot offset (pg_Size p) + 1)) as Hn by done.
  rewrite Z.quot_div_nonneg in Hn by lia.
  pose proof (Z.div_mod offset (pg_Size p) ltac:(lia)) as Hdm.
  pose proof (Z.mod_pos_bound offset (pg_Size p) ltac:(lia)) as Hmod.
  assert (0 ≤ offset / pg_Size p ≤ offset)%Z as Hdiv by (split; nia).
  assert (Page_Offset p = (offset / pg_Size p * pg_Size p)%Z) as Hoff.
  { unfold Page_Offset. rewrite Hn.
    rewrite (wrap64_id (_ / _ + 1)) by (unfold in_int64, int64_min, int64_max; lia).
    replace (offset / pg_Size p + 1 - 1)%Z with (offset / pg_Size p)%Z by lia.
    rewrite (wrap64_id (_ / _)), wrap64_id; unfold in_int64, int64_min, int64_max; nia. }
  rewrite Hoff. split; [lia|]. rewrite <- Z.mod_divide by lia. split; lia.
Qed.

(** ** Orderings *)
Definition valid_order (o : Order) : Prop :=
  no_byte "," (ord_Key o) ∧ strings_TrimSpace (ord_Key o) = ord_Key o ∧
  (ord_Direction o = OrderASC ∨ ord_Direction o = OrderDESC).

Definition components (os : list Order) : list string :=
  flat_map (λ o, [ord_Key o; ord_Direction o]) os.

Lemma strings_Join_app (l1 l2 : list string) sep :
  l1 ≠ [] → l2 ≠ [] → strings_Join (l1 ++ l2) sep = strings_Join l1 sep +:+ sep +:+ strings_Join l2 sep.
Proof.
  intros H1 H2. induction l1 as [|s l1 IH]; [done|]. destruct l1 as [|s' l1].
  - destruct l2; [done|]. reflexivity.
  - change ((s :: s' :: l1) ++ l2) with (s :: ((s' :: l1) ++ l2)).
    cbn [strings_Join app] in *. rewrite IH by done. by rewrite !string_app_assoc.
Qed.

Lemma OrderBy_String_components os : OrderBy_String os = strings_Join (components os) ",".
Proof.
  unfold OrderBy_String. induction os as [|o os IH]; [done|].
  destruct os as [|o' os]; [done|].
  change (map Order_String (o :: o' :: os)) with ([Order_String o] ++ map Order_String (o' :: os)).
  rewrite strings_Join_app, IH by done.
  change (components (o :: o' :: os)) with ([ord_Key o; ord_Direction o] ++ components (o' :: os)).
  by rewrite strings_Join_app.
Qed.

Lemma components_no_byte os : Forall valid_order os → Forall (no_byte ",") (components os).
Proof.
  induction 1 as [|o os (Hk & _ & Hd) Hos IH]; [constructor|]. cbn. constructor; [done|].
  constructor; [|done]. destruct Hd as [-> | ->]; repeat (constructor; [done|]); constructor.
Qed.

Lemma components_length os : length (components os) = 2 * length os.
Proof.
  induction os as [|o os IH]; [done|].
  change (components (o :: os)) with ([ord_Key o; ord_Direction o] ++ components os).
  rewrite length_app, IH. cbn [length]. lia.
Qed.

Lemma components_lookup os k o :
  os !! k = Some o →
  components os !! (2 * k) = Some (ord_Key o) ∧ components os !! (2 * k + 1) = Some (ord_Direction o).
Proof.
  revert k. induction os as [|o' os IH]; intros [|k]; cbn [lookup list_lookup]; try done.
  - by intros [= ->].
  - intros Hk. destruct (IH k Hk) as [H1 H2].
    change (components (o' :: os)) with ([ord_Key o'; ord_Direction o'] ++ components os).
    rewrite !lookup_app_r by (cbn [length]; lia). cbn [length].
    replace (2 * S k - 2) with (2 * k) by lia. by replace (2 * S k + 1 - 2) with (2 * k + 1) by lia.
Qed.

Lemma index_Some {A} (l : list A) i x : l !! i = Some x → index l (Z.of_nat i) = Ok x.
Proof. intros Hi. unfold index. rewrite decide_False by lia. by rewrite Nat2Z.id, Hi. Qed.

Lemma order_at_valid os k o :
  os !! k = Some o → valid_order o → order_at (components os) None (2 * k) = Ok [o].
Proof.
  intros Hk (_ & Htrim & Hd). destruct (components_lookup os k o Hk) as [H1 H2].
  unfold order_at. rewrite (index_Some _ _ _ H2), (index_Some _ _ _ H1). cbn [mbind outcome_bind].
  rewrite Htrim. destruct o as [key dir]. cbn in *. by destruct Hd as [-> | ->].
Qed.

(** A unit of fuel per iteration is enough: more of it changes nothing. *)
Lemma order_loop_fuel comps vks fuel fuel' i res :
  length comps `div` 2 < i + fuel → length comps `div` 2 < i + fuel' →
  order_loop fuel comps vks i res = order_loop fuel' comps vks i res.
Proof.
  revert fuel' i res. induction fuel as [|fuel IH]; intros [|fuel'] i res Hf Hf'; cbn [order_loop]; [done|..].
  1,2: by rewrite decide_False by lia.
  case_decide; [|done]. destruct (order_at comps vks i); cbn; [|done..]. apply IH; lia.
Qed.

Lemma order_loop_take os fuel k :
  Forall valid_order os → 2 ≤ length os → k ≤ S (length os `div` 2) → S (length os `div` 2) < fuel + k →
  order_loop fuel (components os) None (2 * k) (take k os) = Ok (take (S (length os `div` 2)) os).
Proof.
  intros Hos H2. revert k. induction fuel as [|fuel IH]; intros k Hk Hf; [lia|]. cbn [order_loop].
  rewrite components_length. replace ((2 * length os) `div` 2) with (length os)
    by (rewrite Nat.mul_comm, Nat.div_mul; lia).
  pose proof (Nat.div_mod_eq (length os) 2) as Hdm.
  pose proof (Nat.mod_upper_bound (length os) 2 ltac:(lia)).
  case_decide as Hi.
  - assert (k < length os) as Hlt by lia.
    destruct (lookup_lt_is_Some_2 os k Hlt) as [o Ho]. rewrite Forall_lookup in Hos.
    rewrite (order_at_valid os k o Ho (Hos k o Ho)). cbn [mbind outcome_bind].
    rewrite <- take_S_r by done. replace (2 * k + 2) with (2 * S k) by lia. apply IH; lia.
  - f_equal. f_equal. lia.
Qed.

(** Reading back a printed ordering loses keys. Of an ordering of [n]
    valid keys, two or more, reading what it prints yields the first
    [n / 2 + 1]: all of them when there are two, fewer from three on. *)
Theorem NewOrderByFromString_String os :
  Forall valid_order os → 2 ≤ length os →
  NewOrderByFromString (OrderBy_String os) None = Ok (take (S (length os `div` 2)) os).
Proof.
  intros Hos H2. unfold NewOrderByFromString. rewrite OrderBy_String_components.
  pose proof (components_no_byte os Hos) as Hnb.
  assert (components os ≠ []) as Hne by (destruct os; [cbn in H2; lia|discriminate]).
  rewrite Split_Join by done.
  pose proof (components_length os) as Hlen.
  rewrite decide_False.
  2: { rewrite Hlen. intros [He|[He|[_ He]]]; [|lia|].
       - pose proof (f_equal (λ s, strings_Split s ",") He) as Hsp. cbn beta in Hsp.
         rewrite Split_Join in Hsp by done.
         apply (f_equal length) in Hsp. rewrite Hlen in Hsp. cbn in Hsp. lia.
       - rewrite Nat.mul_comm, Nat.Div0.mod_mul in He. done. }
  pose proof (order_loop_take os (S (length (components os))) 0 Hos H2) as Hloop.
  cbn [take] in Hloop. rewrite Nat.mul_0_r in Hloop.
  destruct (components os) as [|c [|c' cs]] eqn:E; cbn [length] in Hlen; [lia|lia|].
  apply Hloop; [lia|]. cbn [length] in *. pose proof (Nat.div_le_upper_bound (length os) 2 (length os)). lia.
Qed.

(** ** The theorems at work *)
Lemma NewPageFromOffsetAndLimit_contains_witness :
  Page_Offset (NewPageFromOffsetAndLimit 75 50) = 50%Z.
Proof.
  destruct (NewPageFromOffsetAndLimit_contains 75 50) as [Hin _]; [lia|lia|].
  assert (pg_Size (NewPageFromOffsetAndLimit 75 50) = 50%Z) as Hs by reflexivity.
  vm_compute. reflexivity.
Defined.

Lemma NewOrderByFromString_String_witness :
  NewOrderByFromString "name,asc,size,desc,rows,asc" None = Ok [mkOrder "name" "asc"; mkOrder "size" "desc"].
Proof.
  apply (NewOrderByFromString_String
    [mkOrder "name" "asc"; mkOrder "size" "desc"; mkOrder "rows" "asc"]).
  - repeat (apply List.Forall_cons; [split; [repeat (constructor; [done|]); constructor
              |split; [vm_compute; reflexivity|cbv; tauto]]|]). apply List.Forall_nil.
  - cbn. lia.
Defined.
