(* ===== verification/History.v ===== *)
(** * Branch histories (src/logbook/logbook.go)

    How a branch's operations are read back as a history: the version infos
    [Items] lists, the head path [ResolveRef] answers, the paths a book
    references, the log entries and the plain logs. *)
From S2P Require Export Journal DsrefParse.

(** The model constants of package logbook *)
Definition AuthorModel : Z := 0.
Definition DatasetModel : Z := 1.
Definition BranchModel : Z := 2.
Definition CommitModel : Z := 3.
Definition PushModel : Z := 4.
Definition RunModel : Z := 5.
Definition ACLModel : Z := 6.

Definition DefaultBranchName : string := "main".
Definition runIDRelPrefix : string := "runID:".

(** [ModelString] *)
Definition ModelString (m : Z) : string :=
  if decide (m = AuthorModel) then "user"
  else if decide (m = DatasetModel) then "dataset"
  else if decide (m = BranchModel) then "branch"
  else if decide (m = CommitModel) then "commit"
  else if decide (m = PushModel) then "push"
  else if decide (m = ACLModel) then "acl"
  else if decide (m = RunModel) then "run" else "".

(** [opTypeString] *)
Definition opTypeString (op : Z) : string :=
  if decide (op = OpTypeInit) then "init"
  else if decide (op = OpTypeAmend) then "amend"
  else if decide (op = OpTypeRemove) then "remove" else "".

(** ** Version infos of a branch *)

(** [commitOpRunID] *)
Definition commitOpRunID (op : Op) : string :=
  match find_index_from (λ s, strings_HasPrefix s runIDRelPrefix) 0 (op_Relations op) with
  | Some (_, s) => strings_TrimPrefix s runIDRelPrefix
  | None => ""
  end.

(** [versionInfoFromOp] *)
Definition versionInfoFromOp (ref : Ref) (op : Op) : VersionInfo :=
  mkVersionInfo "" (ref_Username ref) (ref_ProfileID ref) (ref_Name ref) (op_Ref op)
    false false "" "" (op_Size op) 0 "" 0 (op_Timestamp op) (op_Note op) "" 0 "" "" "" 0.

(** [runItemFromOp] *)
Definition runItemFromOp (ref : Ref) (op : Op) : VersionInfo :=
  mkVersionInfo "" (ref_Username ref) (ref_ProfileID ref) (ref_Name ref) ""
    false false "" "" 0 0 "" 0 (op_Timestamp op) "" "" 0 "" (op_Ref op) (op_Note op) (op_Size op).

(** [addCommitDetailsToRunItem] *)
Definition addCommitDetailsToRunItem (li : VersionInfo) (op : Op) : VersionInfo :=
  mkVersionInfo (vi_InitID li) (vi_Username li) (vi_ProfileID li) (vi_Name li) (op_Ref op)
    (vi_Published li) (vi_Foreign li) (vi_MetaTitle li) (vi_ThemeList li)
    (op_Size op) (vi_BodyRows li) (vi_BodyFormat li) (vi_NumErrors li)
    (op_Timestamp op) (op_Note op) (vi_CommitMessage li) (vi_NumVersions li) (vi_FSIPath li)
    (vi_RunID li) (vi_RunStatus li) (vi_RunDuration li).

Definition set_Published (b : bool) (v : VersionInfo) : VersionInfo :=
  mkVersionInfo (vi_InitID v) (vi_Username v) (vi_ProfileID v) (vi_Name v) (vi_Path v)
    b (vi_Foreign v) (vi_MetaTitle v) (vi_ThemeList v)
    (vi_BodySize v) (vi_BodyRows v) (vi_BodyFormat v) (vi_NumErrors v)
    (vi_CommitTime v) (vi_CommitTitle v) (vi_CommitMessage v) (vi_NumVersions v) (vi_FSIPath v)
    (vi_RunID v) (vi_RunStatus v) (vi_RunDuration v).

(** [for i := 1; i <= n; i++ { refs[len(refs)-i].Published = b }] *)
Definition publish_last (b : bool) (n : Z) (refs : list VersionInfo) : outcome (list VersionInfo) :=
  if decide (n ≤ 0)%Z then Ok refs
  else if decide (n ≤ Z.of_nat (length refs))%Z then
    let k := length refs - Z.to_nat n in
    Ok (take k refs ++ map (set_Published b) (drop k refs))
  else Panic.

(** One iteration of the loop of [branchToVersionInfos] over the state
    [(refs, deleteAtEnd)]. *)
Definition history_step (ref : Ref) (collapseAllDeletes : bool)
    (st : list VersionInfo * Z) (op : Op) : outcome (list VersionInfo * Z) :=
  let '(refs, deleteAtEnd) := st in
  if decide (op_Model op = CommitModel) then
    if decide (op_Type op = OpTypeInit) then
      let commitRunID := commitOpRunID op in
      match last refs with
      | Some li =>
          if decide (commitRunID ≠ "" ∧ commitRunID = vi_RunID li)
          then Ok (removelast refs ++ [addCommitDetailsToRunItem li op], deleteAtEnd)
          else Ok (refs ++ [versionInfoFromOp ref op], deleteAtEnd)
      | None => Ok (refs ++ [versionInfoFromOp ref op], deleteAtEnd)
      end
    else if decide (op_Type op = OpTypeAmend) then
      match refs with
      | [] => Panic
      | _ => Ok (removelast refs ++ [versionInfoFromOp ref op], 0%Z)
      end
    else if decide (op_Type op = OpTypeRemove) then
      if collapseAllDeletes then
        refs' ← slice_to refs (Z.of_nat (length refs) - op_Size op); Ok (refs', deleteAtEnd)
      else Ok (refs, deleteAtEnd + op_Size op)%Z
    else Ok st
  else if decide (op_Model op = RunModel) then Ok (refs ++ [runItemFromOp ref op], deleteAtEnd)
  else if decide (op_Model op = PushModel) then
    if decide (op_Type op = OpTypeInit) then
      refs' ← publish_last true (op_Size op) refs; Ok (refs', deleteAtEnd)
    else if decide (op_Type op = OpTypeRemove) then
      refs' ← publish_last false (op_Size op) refs; Ok (refs', deleteAtEnd)
    else Ok st
  else Ok st.

Fixpoint history_run (ref : Ref) (collapseAllDeletes : bool)
    (st : list VersionInfo * Z) (ops : list Op) : outcome (list VersionInfo * Z) :=
  match ops with
  | [] => Ok st
  | op :: ops' => st' ← history_step ref collapseAllDeletes st op;
                  history_run ref collapseAllDeletes st' ops'
  end.

(** The end of [branchToVersionInfos]: pending deletes, newest first, paging. *)
Definition history_page (refs : list VersionInfo) (deleteAtEnd offset limit : Z)
    : outcome (list VersionInfo) :=
  let kept :=
    if decide (0 < deleteAtEnd)%Z then
      if decide (deleteAtEnd < Z.of_nat (length refs))%Z
      then take (length refs - Z.to_nat deleteAtEnd) refs else []
    else refs in
  let newest := reverse kept in
  let offset' := if decide (Z.of_nat (length newest) < offset)%Z
                 then Z.of_nat (length newest) else offset in
  paged ← slice_from newest offset';
  if decide (limit < Z.of_nat (length paged) ∧ limit ≠ -1)%Z then slice_to paged limit else Ok paged.

(** [branchToVersionInfos] *)
Definition branchToVersionInfos (blog : Log) (ref : Ref) (offset limit : Z)
    (collapseAllDeletes : bool) : outcome (list VersionInfo) :=
  '(refs, deleteAtEnd) ← history_run ref collapseAllDeletes ([], 0%Z) (lg_Ops blog);
  history_page refs deleteAtEnd offset limit.

(** [ConvertLogsToVersionInfos] *)
Definition ConvertLogsToVersionInfos (l : Log) (ref : Ref) : outcome (list VersionInfo) :=
  branchToVersionInfos l ref 0 (-1) true.

(** ** The head of a branch *)

(** The loop of [Book.latestSavePath], over the operations newest first. *)
Fixpoint latestSavePath_loop (removes : Z) (ops : list Op) : string :=
  match ops with
  | [] => ""
  | op :: ops' =>
      if decide (op_Model op = CommitModel) then
        if decide (op_Type op = OpTypeRemove) then latestSavePath_loop (removes + op_Size op) ops'
        else if decide (op_Type op = OpTypeInit ∨ op_Type op = OpTypeAmend) then
          let removes' := if decide (0 < removes)%Z then (removes - 1)%Z else removes in
          if decide (removes' = 0%Z) then op_Ref op else latestSavePath_loop removes' ops'
        else latestSavePath_loop removes ops'
      else latestSavePath_loop removes ops'
  end.

(** [Book.latestSavePath] *)
Definition latestSavePath (branchLog : Log) : string :=
  latestSavePath_loop 0 (reverse (lg_Ops branchLog)).

(** ** Referenced paths *)

(** The loop of [addReferencedPaths] over one log's operations *)
Fixpoint referenced_run (ps : list string) (ops : list Op) : outcome (list string) :=
  match ops with
  | [] => Ok ps
  | op :: ops' =>
      ps' ←
        (if decide (op_Model op = CommitModel) then
           if decide (op_Type op = OpTypeInit) then Ok (ps ++ [op_Ref op])
           else if decide (op_Type op = OpTypeRemove) then
             slice_to ps (Z.of_nat (length ps) - op_Size op)
           else if decide (op_Type op = OpTypeAmend) then
             match ps with [] => Panic | _ => Ok (removelast ps ++ [op_Ref op]) end
           else Ok ps
         else Ok ps);
      referenced_run ps' ops'
  end.

(** [addReferencedPaths]; the map is used as a set of paths. *)
Fixpoint addReferencedPaths (log : Log) (paths : gset string) : outcome (gset string) :=
  ps ← referenced_run [] (lg_Ops log);
  (fix go (ls : list Log) (paths : gset string) : outcome (gset string) :=
    match ls with
    | [] => Ok paths
    | l :: ls' => paths' ← addReferencedPaths l paths; go ls' paths'
    end) (lg_Logs log) (paths ∪ list_to_set ps).

(** ** Log entries and plain logs *)

(** [type LogEntry struct] *)
Record LogEntry : Type := mkLogEntry {
  le_Timestamp : Z;
  le_Author : string;
  le_Action : string;
  le_Note : string;
}.

(** [actionStrings]; a model that is not in the map reads as empty strings. *)
Definition actionStrings (m : Z) : list string :=
  if decide (m = AuthorModel) then ["create profile"; "update profile"; "delete profile"]
  else if decide (m = DatasetModel) then ["init dataset"; "rename dataset"; "delete dataset"]
  else if decide (m = BranchModel) then ["init branch"; "rename branch"; "delete branch"]
  else if decide (m = CommitModel) then ["save commit"; "amend commit"; "remove commit"]
  else if decide (m = PushModel) then ["publish"; ""; "unpublish"]
  else if decide (m = ACLModel) then ["update access"; "update access"; "remove all access"]
  else [""; ""; ""].

(** [logEntryFromOp] *)
Definition logEntryFromOp (author : string) (op : Op) : outcome LogEntry :=
  action ← index (actionStrings (op_Model op)) (op_Type op - 1);
  Ok (mkLogEntry (op_Timestamp op) author action
        (if nonempty (op_Note op) then op_Note op else op_Name op)).

(** The loop of [Book.LogEntries]: skips [offset] operations and stops when
    [limit] entries are collected. *)
Fixpoint log_entries (author : string) (offset limit : Z) (res : list LogEntry) (ops : list Op)
    : outcome (list LogEntry) :=
  match ops with
  | [] => Ok res
  | op :: ops' =>
      if decide (0 < offset)%Z then log_entries author (offset - 1) limit res ops'
      else
        e ← logEntryFromOp author op;
        if decide (Z.of_nat (length (res ++ [e])) = limit) then Ok (res ++ [e])
        else log_entries author offset limit (res ++ [e]) ops'
  end.

(** [type PlainOp struct] and [type PlainLog struct] *)
Record PlainOp : Type := mkPlainOp {
  po_Type : string;
  po_Model : string;
  po_Ref : string;
  po_Prev : string;
  po_Relations : list string;
  po_Name : string;
  po_AuthorID : string;
  po_Timestamp : Z;
  po_Size : Z;
  po_Note : string;
}.
Inductive PlainLog : Type := mkPlainLog {
  pl_Ops : list PlainOp;
  pl_Logs : list PlainLog;
}.

(** [newPlainOp] and [NewPlainLog] *)
Definition newPlainOp (op : Op) : PlainOp :=
  mkPlainOp (opTypeString (op_Type op)) (ModelString (op_Model op)) (op_Ref op) (op_Prev op)
    (op_Relations op) (op_Name op) (op_AuthorID op) (op_Timestamp op) (op_Size op) (op_Note op).

Fixpoint NewPlainLog (lg : Log) : PlainLog :=
  mkPlainLog (map newPlainOp (lg_Ops lg)) (map NewPlainLog (lg_Logs lg)).

(** ** References from logs and datasets *)

(** [DsrefAliasForLog] *)
Definition DsrefAliasForLog (log : option Log) : outcome Ref :=
  match log with
  | None => Error (Errorf "logbook: log is required" [])
  | Some log =>
      m ← Model log;
      if decide (m ≠ AuthorModel) then Error (Errorf "logbook: log isn't rooted as an author" [])
      else match lg_Logs log with
           | [l] =>
               username ← Name log;
               name ← Name l;
               profileID ← FirstOpAuthorID log;
               Ok (mkRef "" username profileID name "")
           | _ => Error (Errorf "logbook: ambiguous dataset reference" [])
           end
  end.

(** [refFromDataset] *)
Definition refFromDataset (ds : Dataset) : Ref :=
  mkRef "" (ds_Peername ds) (ds_ProfileID ds) (ds_Name ds) (ds_Path ds).
