(* ===== verification/HistoryFacts.v ===== *)
(** * Facts about branch histories

    [live] is the reference reading of a branch: the stack of versions its
    commit operations leave. The theorems relate the three ways the code reads
    a branch (listing its versions, collecting the paths it references,
    finding its latest path) to that stack. *)
From S2P Require Export History.

Lemma map_reverse {A B} (f : A → B) l : map f (reverse l) = reverse (map f l).
Proof. unfold reverse. by rewrite !rev_append_rev, !app_nil_r, map_rev. Qed.

(** ** Paging *)
Lemma slice_to_take {A} (l : list A) n :
  (0 ≤ n ≤ Z.of_nat (length l))%Z → slice_to l n = Ok (take (Z.to_nat n) l).
Proof. intros Hn. unfold slice_to. by rewrite decide_True. Qed.

Lemma slice_from_drop {A} (l : list A) n :
  (0 ≤ n ≤ Z.of_nat (length l))%Z → slice_from l n = Ok (drop (Z.to_nat n) l).
Proof. intros Hn. unfold slice_from. by rewrite decide_True. Qed.

(** What a page of a list is *)
Definition page {A} (offset limit : Z) (l : list A) : list A :=
  let l' := drop (Z.to_nat offset) l in
  if decide (limit = -1)%Z then l' else take (Z.to_nat limit) l'.

Definition kept_versions (refs : list VersionInfo) (deleteAtEnd : Z) : list VersionInfo :=
  if decide (0 < deleteAtEnd)%Z then
    if decide (deleteAtEnd < Z.of_nat (length refs))%Z
    then take (length refs - Z.to_nat deleteAtEnd) refs else []
  else refs.

Lemma history_page_eq refs n offset limit :
  (0 ≤ offset)%Z → (-1 ≤ limit)%Z →
  history_page refs n offset limit = Ok (page offset limit (reverse (kept_versions refs n))).
Proof.
  intros Ho Hl. unfold history_page. fold (kept_versions refs n).
  set (l := reverse (kept_versions refs n)).
  assert (slice_from l (if decide (Z.of_nat (length l) < offset)%Z then Z.of_nat (length l) else offset)
          = Ok (drop (Z.to_nat offset) l)) as ->.
  { case_decide as Hlt; rewrite slice_from_drop by lia; [|done].
    rewrite Nat2Z.id, !drop_ge by lia. done. }
  cbn [mbind outcome_bind]. unfold page. set (l' := drop (Z.to_nat offset) l).
  destruct (decide (limit = -1)%Z) as [->|Hne].
  - by rewrite decide_False by (intros [_ Hf]; by apply Hf).
  - case_decide as Hlim; [by rewrite slice_to_take by lia|]. by rewrite take_ge by lia.
Qed.

(** ** The reference reading *)

(** The operations of branches and commits. Runs and pushes have operations of
    their own. *)
Definition plain_op (op : Op) : Prop :=
  op_Model op = BranchModel ∨ op_Model op = CommitModel ∧
  (op_Type op = OpTypeInit ∨ op_Type op = OpTypeAmend ∨ op_Type op = OpTypeRemove).

(** The versions an operation leaves, oldest first; [None] for an operation
    that amends or removes versions that are not there. *)
Definition live_step (vs : list Op) (op : Op) : option (list Op) :=
  if decide (op_Model op = CommitModel) then
    if decide (op_Type op = OpTypeInit) then Some (vs ++ [op])
    else if decide (op_Type op = OpTypeAmend) then
      match vs with [] => None | _ => Some (removelast vs ++ [op]) end
    else if decide (op_Type op = OpTypeRemove) then
      if decide (0 ≤ op_Size op ≤ Z.of_nat (length vs))%Z
      then Some (take (length vs - Z.to_nat (op_Size op)) vs) else None
    else Some vs
  else Some vs.

Fixpoint live (vs : list Op) (ops : list Op) : option (list Op) :=
  match ops with
  | [] => Some vs
  | op :: ops' => vs' ← live_step vs op; live vs' ops'
  end.

Lemma removelast_map {A B} (f : A → B) l : removelast (map f l) = map f (removelast l).
Proof. induction l as [|x [|y l] IH]; [done..|]. cbn in *. by rewrite IH. Qed.

Lemma take_minus {A} (l : list A) n :
  (0 ≤ n ≤ Z.of_nat (length l))%Z →
  slice_to l (Z.of_nat (length l) - n) = Ok (take (length l - Z.to_nat n) l).
Proof. intros Hn. rewrite slice_to_take by lia. do 2 f_equal. lia. Qed.

(** A listed version has no run, so that no commit is combined with it. *)
Lemma history_save ref c n vs op :
  op_Model op = CommitModel → op_Type op = OpTypeInit →
  history_step ref c (map (versionInfoFromOp ref) vs, n) op =
    Ok (map (versionInfoFromOp ref) (vs ++ [op]), n).
Proof.
  intros Hm Ht. unfold history_step. rewrite Hm, Ht. decide_const. rewrite map_app.
  replace (last (map (versionInfoFromOp ref) vs)) with (versionInfoFromOp ref <$> last vs)
    by (symmetry; apply fmap_last).
  destruct (last vs); cbn; [|done]. by rewrite decide_False by (intros [Hne Heq]; congruence).
Qed.

Lemma history_step_live ref n vs op vs' :
  plain_op op → live_step vs op = Some vs' →
  history_step ref true (map (versionInfoFromOp ref) vs, n) op =
    Ok (map (versionInfoFromOp ref) vs',
        if decide (op_Model op = CommitModel ∧ op_Type op = OpTypeAmend) then 0%Z else n).
Proof.
  intros [Hm|(Hm & [Ht|Ht])].
  { unfold live_step, history_step. rewrite Hm. decide_const. intros [= ->].
    by rewrite decide_False by (intros [? _]; discriminate). }
  { rewrite history_save by done. unfold live_step. rewrite Hm, Ht. decide_const. intros [= <-].
    by rewrite (decide_False (P := _ ∧ _)) by (intros [_ ?]; discriminate). }
  unfold live_step, history_step. rewrite Hm. destruct Ht as [Ht|Ht]; rewrite Ht; decide_const.
  - destruct vs as [|v vs]; [done|]. intros <-%(inj Some). rewrite map_app, (decide_True (P := _ ∧ _)) by done.
    by rewrite <- (removelast_map (versionInfoFromOp ref) (v :: vs)).
  - case_decide as Hn; [|done]. intros [= <-].
    rewrite take_minus by (by rewrite length_map). cbn [mbind outcome_bind].
    rewrite length_map, firstn_map. by rewrite decide_False by (intros [_ ?]; discriminate).
Qed.

(** Pending deletes are only counted when deletes are not collapsed. *)
Lemma history_run_live ref vs ops vs' :
  Forall plain_op ops → live vs ops = Some vs' →
  history_run ref true (map (versionInfoFromOp ref) vs, 0%Z) ops =
    Ok (map (versionInfoFromOp ref) vs', 0%Z).
Proof.
  intros Hops. revert vs. induction Hops as [|op ops Hop Hops IH]; intros vs; cbn [live history_run].
  { by intros [= ->]. }
  destruct (live_step vs op) as [vs1|] eqn:Hs; [|done]. intros Hl.
  rewrite (history_step_live ref 0 vs op vs1 Hop Hs). cbn [mbind outcome_bind].
  replace (if decide _ then 0%Z else 0%Z) with 0%Z by (by case_decide). by apply IH.
Qed.

Lemma history_run_live0 ref ops vs :
  Forall plain_op ops → live [] ops = Some vs →
  history_run ref true ([], 0%Z) ops = Ok (map (versionInfoFromOp ref) vs, 0%Z).
Proof. apply (history_run_live ref []). Qed.

(** ** Referenced paths *)
Lemma referenced_run_live vs ops vs' :
  Forall plain_op ops → live vs ops = Some vs' →
  referenced_run (map op_Ref vs) ops = Ok (map op_Ref vs').
Proof.
  intros Hops. revert vs. induction Hops as [|op ops Hop Hops IH]; intros vs; cbn [live referenced_run].
  { by intros [= ->]. }
  destruct (live_step vs op) as [vs1|] eqn:Hs; [|done]. intros Hl.
  assert ((if decide (op_Model op = CommitModel) then
           if decide (op_Type op = OpTypeInit) then Ok (map op_Ref vs ++ [op_Ref op])
           else if decide (op_Type op = OpTypeRemove) then
             slice_to (map op_Ref vs) (Z.of_nat (length (map op_Ref vs)) - op_Size op)
           else if decide (op_Type op = OpTypeAmend) then
             match map op_Ref vs with [] => Panic | _ => Ok (removelast (map op_Ref vs) ++ [op_Ref op]) end
           else Ok (map op_Ref vs)
         else Ok (map op_Ref vs)) = Ok (map op_Ref vs1)) as ->; [|by apply IH].
  unfold live_step in Hs. destruct Hop as [Hm|(Hm & Ht)]; rewrite Hm in *;
    decide_const; decide_const_in Hs.
  { by injection Hs as ->. }
  destruct Ht as [Ht|[Ht|Ht]]; rewrite Ht in *; decide_const; decide_const_in Hs.
  - injection Hs as <-. by rewrite map_app.
  - destruct vs as [|v vs]; [done|]. apply (inj Some) in Hs as <-.
    by rewrite map_app, <- (removelast_map _ (v :: vs)).
  - case_decide as Hn; [|done]. injection Hs as <-.
    rewrite take_minus by (by rewrite length_map). by rewrite length_map, firstn_map.
Qed.

Lemma referenced_run_live0 ops vs :
  Forall plain_op ops → live [] ops = Some vs → referenced_run [] ops = Ok (map op_Ref vs).
Proof. apply (referenced_run_live []). Qed.

(** ** The latest path *)
Definition no_remove (op : Op) : Prop := op_Model op = CommitModel → op_Type op ≠ OpTypeRemove.

Lemma live_app vs ops ops' : live vs (ops ++ ops') = vs' ← live vs ops; live vs' ops'.
Proof.
  revert vs. induction ops as [|op ops IH]; intros vs; cbn; [done|].
  destruct (live_step vs op); cbn; [apply IH|done].
Qed.

Lemma latestSavePath_live ops vs :
  Forall plain_op ops → Forall no_remove ops → live [] ops = Some vs →
  latestSavePath_loop 0 (reverse ops) = from_option op_Ref "" (last vs).
Proof.
  revert vs. induction ops as [|op ops IH] using rev_ind; intros vs Hp Hn.
  { by intros [= <-]. }
  apply Forall_app in Hp as [Hp [Hop _]%Forall_cons], Hn as [Hn [Hno _]%Forall_cons].
  rewrite live_app. destruct (live [] ops) as [vs1|] eqn:Hl; cbn [mbind option_bind]; [|done].
  cbn [live]. destruct (live_step vs1 op) as [vs2|] eqn:Hs; cbn; [|done]. intros [= ->].
  rewrite reverse_app. cbn. unfold live_step in Hs. unfold no_remove in Hno.
  destruct Hop as [Hm|(Hm & Ht)]; rewrite Hm in *; decide_const; decide_const_in Hs.
  { injection Hs as ->. by apply IH. }
  destruct Ht as [Ht|[Ht|Ht]]; rewrite Ht in *; decide_const; decide_const_in Hs;
    [rewrite decide_True by tauto..|by destruct Hno].
  - injection Hs as <-. by rewrite last_snoc.
  - destruct vs1; [done|]. apply (inj Some) in Hs as <-. by rewrite last_snoc.
Qed.

(** Walking back over versions with [k] pending removes *)
Lemma latestSavePath_loop_skip k cs :
  (0 < k)%Z → Forall (λ op, op_Model op = CommitModel ∧ op_Type op = OpTypeInit) cs →
  (k ≤ Z.of_nat (length cs))%Z →
  latestSavePath_loop k cs = from_option op_Ref "" (cs !! (Z.to_nat k - 1)).
Proof.
  intros Hk Hcs. revert k Hk. induction Hcs as [|op cs [Hm Ht] Hcs IH]; intros k Hk; cbn; [lia|].
  intros Hle. rewrite Hm, Ht. decide_const. rewrite (decide_True (P := _ ∨ _)) by tauto.
  rewrite (decide_True (P := (0 < k)%Z)) by done. case_decide as Hz.
  - by replace (Z.to_nat k - 1) with 0 by lia.
  - rewrite IH by lia. by replace (Z.to_nat k - 1) with (S (Z.to_nat (k - 1) - 1)) by lia.
Qed.

Lemma latestSavePath_loop_app k cs ops :
  (0 < k)%Z → Forall (λ op, op_Model op = CommitModel ∧ op_Type op = OpTypeInit) cs →
  (k ≤ Z.of_nat (length cs))%Z →
  latestSavePath_loop k (cs ++ ops) = latestSavePath_loop k cs.
Proof.
  intros Hk Hcs. revert k Hk. induction Hcs as [|op cs [Hm Ht] Hcs IH]; intros k Hk; cbn; [lia|].
  intros Hle. rewrite Hm, Ht. decide_const. rewrite (decide_True (P := _ ∨ _)) by tauto.
  rewrite (decide_True (P := (0 < k)%Z)) by done. case_decide; [done|]. apply IH; lia.
Qed.

Lemma live_inits vs cs :
  Forall (λ op, op_Model op = CommitModel ∧ op_Type op = OpTypeInit) cs → live vs cs = Some (vs ++ cs).
Proof.
  intros Hcs. revert vs. induction Hcs as [|op cs [Hm Ht] Hcs IH]; intros vs; cbn.
  { by rewrite app_nil_r. }
  unfold live_step. rewrite Hm, Ht. decide_const. cbn. rewrite IH. by rewrite <- app_assoc.
Qed.

(** ** Versions counted rather than removed *)
Definition plain_init (op : Op) : Prop :=
  op_Model op = CommitModel ∧ op_Type op = OpTypeInit.

Lemma plain_init_plain op : plain_init op → plain_op op.
Proof. intros (Hm & Ht). right. auto. Qed.

Lemma live_plain_inits vs cs : Forall plain_init cs → live vs cs = Some (vs ++ cs).
Proof.
  apply live_inits.
Qed.

Lemma live_branch o cs : op_Model o = BranchModel → Forall plain_init cs → live [] (o :: cs) = Some cs.
Proof.
  intros Ho Hcs. cbn [live]. unfold live_step at 1. rewrite Ho. decide_const.
  cbn [mbind option_bind]. by rewrite (live_plain_inits [] cs Hcs).
Qed.

Lemma history_run_inits ref c vs n cs :
  Forall plain_init cs →
  history_run ref c (map (versionInfoFromOp ref) vs, n) cs =
    Ok (map (versionInfoFromOp ref) (vs ++ cs), n).
Proof.
  intros Hcs. revert vs. induction Hcs as [|op cs (Hm & Ht) Hcs IH]; intros vs; cbn [history_run].
  { by rewrite app_nil_r. }
  rewrite history_save by done. cbn [mbind outcome_bind]. by rewrite IH, <- app_assoc.
Qed.

Lemma history_run_app ref c st ops ops' :
  history_run ref c st (ops ++ ops') = st' ← history_run ref c st ops; history_run ref c st' ops'.
Proof.
  revert st. induction ops as [|op ops IH]; intros st; [done|]. cbn.
  destruct (history_step ref c st op); cbn; [apply IH|done..].
Qed.

Definition deleteOp (k : Z) : Op := mkOp OpTypeRemove CommitModel "" "" [] "" "" 0 k "".

Lemma live_delete vs k :
  (0 ≤ k ≤ Z.of_nat (length vs))%Z →
  live vs [deleteOp k] = Some (take (length vs - Z.to_nat k) vs).
Proof.
  intros Hk. cbn [live]. unfold live_step. cbn [deleteOp op_Model op_Type op_Size]. decide_const.
  by rewrite decide_True.
Qed.

Lemma history_step_delete ref refs n k :
  history_step ref false (refs, n) (deleteOp k) = Ok (refs, (n + k)%Z).
Proof. unfold history_step. cbn [deleteOp op_Model op_Type op_Size]. by decide_const. Qed.

(** The listing [WriteVersionDelete] takes after its own delete *)
Lemma branchToVersionInfos_pending ref blog o cs k :
  lg_Ops blog = (o :: cs) ++ [deleteOp k] → op_Model o = BranchModel → Forall plain_init cs →
  (0 < k < Z.of_nat (length cs))%Z →
  branchToVersionInfos blog ref 0 (-1) false =
    Ok (reverse (map (versionInfoFromOp ref) (take (length cs - Z.to_nat k) cs))).
Proof.
  intros Hops Ho Hcs Hk. unfold branchToVersionInfos. rewrite Hops, history_run_app.
  cbn [app history_run]. replace (history_step ref false ([], 0%Z) o) with (Ok (@nil VersionInfo, 0%Z)).
  2: { unfold history_step. rewrite Ho. by decide_const. }
  cbn [mbind outcome_bind]. pose proof (history_run_inits ref false [] 0 cs Hcs) as Hrun. cbn [map app] in Hrun.
  rewrite Hrun. clear Hrun.
  set (refs := map (versionInfoFromOp ref) cs).
  cbn [mbind outcome_bind]. rewrite history_step_delete. cbn [mbind outcome_bind].
  rewrite history_page_eq by lia. f_equal. subst refs.
  unfold page, kept_versions. rewrite decide_True by done. rewrite length_map.
  rewrite (decide_True (P := (0 < _)%Z)) by lia.
  rewrite decide_True by lia. cbn [Z.to_nat drop]. by rewrite firstn_map.
Qed.

(** * The logbook's properties: reading a branch *)
(** Listing. For a branch of commits, the versions listed are
    those the operations leave, newest first, cut to the page asked for. *)
Theorem branchToVersionInfos_live blog ref vs offset limit :
  Forall plain_op (lg_Ops blog) → live [] (lg_Ops blog) = Some vs →
  (0 ≤ offset)%Z → (-1 ≤ limit)%Z →
  branchToVersionInfos blog ref offset limit true =
    Ok (page offset limit (reverse (map (versionInfoFromOp ref) vs))).
Proof.
  intros Hp Hl Ho Hlim. unfold branchToVersionInfos.
  rewrite (history_run_live0 ref _ _ Hp Hl). by apply history_page_eq.
Qed.

(** Paging. Whatever operations a branch has, runs, publications and
    deletes included, a page of its history is the page of its whole history:
    no offset or limit makes the listing fail or reorders it. *)
Theorem branchToVersionInfos_page blog ref collapse offset limit all :
  branchToVersionInfos blog ref 0 (-1) collapse = Ok all →
  (0 ≤ offset)%Z → (-1 ≤ limit)%Z →
  branchToVersionInfos blog ref offset limit collapse = Ok (page offset limit all).
Proof.
  unfold branchToVersionInfos. destruct (history_run _ _ _ _) as [[refs n]| |]; cbn; [|done..].
  intros Hall Ho Hl. rewrite history_page_eq in Hall by lia. injection Hall as <-.
  rewrite history_page_eq by done. do 2 f_equal.
Qed.

(** Referenced paths. The paths a branch of commits
    references are those of the versions it lists: no deleted or replaced
    version is kept referenced, no listed one is lost. *)
Theorem addReferencedPaths_listed blog ref vs paths :
  Forall plain_op (lg_Ops blog) → lg_Logs blog = [] → live [] (lg_Ops blog) = Some vs →
  ∃ all, branchToVersionInfos blog ref 0 (-1) true = Ok all ∧
         addReferencedPaths blog paths = Ok (paths ∪ list_to_set (map vi_Path all)).
Proof.
  intros Hp Hch Hl. exists (reverse (map (versionInfoFromOp ref) vs)). split.
  { unfold branchToVersionInfos. rewrite (history_run_live0 ref _ _ Hp Hl). by apply history_page_eq. }
  destruct blog as [n au p pid s ops ls]. cbn in Hch, Hp, Hl. subst ls.
  cbn [addReferencedPaths lg_Ops lg_Logs]. rewrite (referenced_run_live0 _ _ Hp Hl). cbn. f_equal.
  f_equal. rewrite <- map_reverse, map_map. cbn.
  apply set_eq. intros x. by rewrite !elem_of_list_to_set, map_reverse, elem_of_reverse.
Qed.

(** The latest path. As long as nothing was deleted from a branch of
    commits, amends included, the path a name resolves to is the
    path of the first version listed, or empty when none is. *)
Theorem latestSavePath_listed blog vs :
  Forall plain_op (lg_Ops blog) → Forall no_remove (lg_Ops blog) → live [] (lg_Ops blog) = Some vs →
  ∃ all, branchToVersionInfos blog zero_Ref 0 (-1) true = Ok all ∧
         latestSavePath blog = from_option vi_Path "" (head all).
Proof.
  intros Hp Hn Hl. exists (reverse (map (versionInfoFromOp zero_Ref) vs)). split.
  { unfold branchToVersionInfos. rewrite (history_run_live0 _ _ _ Hp Hl). by apply history_page_eq. }
  unfold latestSavePath. rewrite (latestSavePath_live _ _ Hp Hn Hl).
  destruct vs as [|v vs _] using rev_ind; [done|].
  by rewrite last_snoc, map_app, reverse_app.
Qed.

(** The latest path after a delete is a deleted one. When the last [k] of
    the versions [cs] are deleted, the version listed first is the one before
    them, and the path found is that of the oldest deleted version. *)
Theorem latestSavePath_deleted blog o cs k :
  lg_Ops blog = (o :: cs) ++ [deleteOp k] → op_Model o = BranchModel → Forall plain_init cs →
  (0 < k < Z.of_nat (length cs))%Z →
  latestSavePath blog = from_option op_Ref "" (cs !! (length cs - Z.to_nat k)) ∧
  ∃ all, branchToVersionInfos blog zero_Ref 0 (-1) true = Ok all ∧
         vi_Path <$> head all = op_Ref <$> cs !! (length cs - Z.to_nat k - 1).
Proof.
  intros Hops Ho Hcs Hk. split.
  - unfold latestSavePath. rewrite Hops, reverse_snoc. cbn [latestSavePath_loop].
    cbn [deleteOp op_Model op_Type op_Size]. decide_const. rewrite Z.add_0_l.
    assert (Forall (λ op, op_Model op = CommitModel ∧ op_Type op = OpTypeInit) (reverse cs)) as Hrev.
    { by apply Forall_reverse. }
    rewrite reverse_cons, latestSavePath_loop_app, latestSavePath_loop_skip
      by first [done | rewrite ?length_reverse; lia].
    rewrite reverse_lookup by lia. do 2 f_equal. lia.
  - exists (reverse (map (versionInfoFromOp zero_Ref) (take (length cs - Z.to_nat k) cs))). split.
    + unfold branchToVersionInfos. rewrite Hops.
      rewrite (history_run_live0 zero_Ref _ (take (length cs - Z.to_nat k) cs)).
      * by apply history_page_eq.
      * apply Forall_app; split; [constructor|]; [by left| |].
        -- eapply Forall_impl; [done|]. apply plain_init_plain.
        -- constructor; [|done]. right. split; [done|by right; right].
      * rewrite live_app, (live_branch o cs Ho Hcs). cbn [mbind option_bind]. apply live_delete. lia.
    + rewrite <- map_reverse. destruct (take _ cs) as [|v vs _] eqn:E using rev_ind.
      * apply (f_equal length) in E. rewrite length_take in E. cbn in E. lia.
      * rewrite reverse_app. cbn. assert (cs !! (length cs - Z.to_nat k - 1) = Some v) as ->; [|done].
        assert (length vs = length cs - Z.to_nat k - 1) as <-.
        { apply (f_equal length) in E. rewrite length_take, length_app in E. cbn in E. lia. }
        rewrite <- (lookup_take_lt _ (length cs - Z.to_nat k)), E.
        -- by rewrite lookup_app_r, Nat.sub_diag by done.
        -- apply (f_equal length) in E. rewrite length_take, length_app in E. cbn in E. lia.
Qed.

(** ** The theorems at work *)
Definition demo_commit (path : string) : Op :=
  mkOp OpTypeInit CommitModel path "" [] "" "" 0 0 "".
Definition demo_amend (path : string) : Op :=
  mkOp OpTypeAmend CommitModel path "" [] "" "" 0 0 "".
Definition demo_branch (ops : list Op) : Log :=
  set_Ops (mkOp OpTypeInit BranchModel "" "" [] "main" "" 0 0 "" :: ops) (InitLog zero_Op).
Definition demo_history : Log :=
  demo_branch [demo_commit "/a"; demo_commit "/b"; demo_amend "/b2"; demo_commit "/c"; deleteOp 1].
Definition demo_versions : list Op := [demo_commit "/a"; demo_amend "/b2"].

Ltac plain_ops :=
  repeat (apply List.Forall_cons; [first [by left | right; cbv; tauto]|]); apply List.Forall_nil.

Lemma branchToVersionInfos_live_witness :
  map vi_Path <$> branchToVersionInfos demo_history zero_Ref 1 (-1) true = Ok ["/a"].
Proof.
  rewrite (branchToVersionInfos_live demo_history zero_Ref demo_versions 1 (-1)).
  - reflexivity.
  - plain_ops.
  - reflexivity.
  - lia.
  - lia.
Defined.

Lemma branchToVersionInfos_page_witness :
  branchToVersionInfos demo_history zero_Ref 0 1 true = Ok [versionInfoFromOp zero_Ref (demo_amend "/b2")].
Proof.
  apply (branchToVersionInfos_page demo_history zero_Ref true 0 1
           (map (versionInfoFromOp zero_Ref) (reverse demo_versions))).
  - reflexivity.
  - lia.
  - lia.
Defined.

Lemma addReferencedPaths_listed_witness :
  ∃ all, branchToVersionInfos demo_history zero_Ref 0 (-1) true = Ok all ∧
         addReferencedPaths demo_history ∅ = Ok (∅ ∪ list_to_set (map vi_Path all)).
Proof.
  apply (addReferencedPaths_listed demo_history zero_Ref demo_versions).
  - plain_ops.
  - reflexivity.
  - reflexivity.
Defined.

Lemma latestSavePath_listed_witness :
  ∃ all, branchToVersionInfos (demo_branch demo_versions) zero_Ref 0 (-1) true = Ok all ∧
         latestSavePath (demo_branch demo_versions) = from_option vi_Path "" (head all).
Proof.
  apply (latestSavePath_listed (demo_branch demo_versions) [demo_amend "/b2"]).
  - plain_ops.
  - repeat (apply List.Forall_cons; [by cbv|]). apply List.Forall_nil.
  - reflexivity.
Defined.

Definition demo_deleted : Log :=
  demo_branch [demo_commit "/a"; demo_commit "/b"; demo_commit "/c"; deleteOp 1].

Lemma latestSavePath_deleted_witness : latestSavePath demo_deleted = "/c".
Proof.
  apply (latestSavePath_deleted demo_deleted (Head (demo_branch []))
           [demo_commit "/a"; demo_commit "/b"; demo_commit "/c"] 1).
  - reflexivity.
  - reflexivity.
  - repeat (apply List.Forall_cons; [by cbv|]). apply List.Forall_nil.
  - cbn. lia.
Defined.
