(* ===== verification/Logbook.v ===== *)
(** * The logbook (src/logbook/logbook.go, types.go)

    [Book] wraps a journal with the operations on users, datasets and
    branches. Its methods run in a state monad over the book, which also holds
    the world the code reaches through it: the clock, the source of nonces,
    the filesystem and the event publisher. A failing method keeps the changes
    it made before it failed, as the code does. *)
From S2P Require Export History.

(** ** Events and the interface of their publisher *)

(** [event.DsChange], the payload the logbook publishes *)
Record DsChange : Type := mkDsChange {
  dc_InitID : string;
  dc_TopIndex : Z;
  dc_ProfileID : string;
  dc_Username : string;
  dc_PrettyName : string;
  dc_HeadRef : string;
  dc_Info : option VersionInfo;
  dc_Dir : string;
}.

Definition ETDatasetNameInit : string := "dataset:Init".
Definition ETDatasetCommitChange : string := "dataset:CommitChange".
Definition ETDatasetDeleteAll : string := "dataset:DeleteAll".
Definition ETDatasetRename : string := "dataset:Rename".
Definition ETDatasetCreateLink : string := "dataset:CreateLink".

(** [event.Publisher]: publishing runs the subscribers, which may fail. *)
Class Publisher (P : Type) : Type := Publish : string → DsChange → stM P unit.

(** [qfs.Filesystem], from another repository. [Put] returns a location with
    its error, as Go does. *)
Class Filesystem (F : Type) : Type := {
  fs_Get : F → string → outcome string;
  fs_Put : F → string → string → (string * option error) * F;
}.

(** The clock and the source of random nonces, read one tick at a time. *)
Class Entropy : Type := {
  NewTimestamp : nat → Z;
  rand_nonce : nat → string;
}.

Definition ErrNoLogbook : error := ErrSentinel "logbook: does not exist".
Definition ErrLogbookNotFound : error := ErrSentinel "logbook: not found".
Definition ErrLogTooShort : error := ErrSentinel "logbook: log is too short".
Definition ErrAccessDenied : error := ErrSentinel "access denied".

(** The fields of [run.State] the logbook records *)
Record RunState : Type := mkRunState {
  rs_ID : string;
  rs_Number : Z;
  rs_Status : string;
  rs_Duration : Z;
  rs_StartTime : option Z;
}.

Section book.
Context `{OpDigest, BookCipher, Entropy} {F P : Type} `{Filesystem F, Publisher P}.

(** [type Book struct], with the world behind it *)
Record Book : Type := mkBook {
  b_store : Journal;
  b_pk : PrivKey;
  b_authorID : string;
  b_authorName : string;
  b_fsLocation : string;
  b_fs : F;
  b_publisher : P;
  b_tick : nat;
}.

Definition set_store (j : Journal) (b : Book) : Book :=
  mkBook j (b_pk b) (b_authorID b) (b_authorName b) (b_fsLocation b) (b_fs b) (b_publisher b) (b_tick b).
Definition set_authorID (id : string) (b : Book) : Book :=
  mkBook (b_store b) (b_pk b) id (b_authorName b) (b_fsLocation b) (b_fs b) (b_publisher b) (b_tick b).
Definition set_authorName (n : string) (b : Book) : Book :=
  mkBook (b_store b) (b_pk b) (b_authorID b) n (b_fsLocation b) (b_fs b) (b_publisher b) (b_tick b).
Definition set_fs (loc : string) (fs : F) (b : Book) : Book :=
  mkBook (b_store b) (b_pk b) (b_authorID b) (b_authorName b) loc fs (b_publisher b) (b_tick b).
Definition set_publisher (p : P) (b : Book) : Book :=
  mkBook (b_store b) (b_pk b) (b_authorID b) (b_authorName b) (b_fsLocation b) (b_fs b) p (b_tick b).
Definition tick (b : Book) : Book :=
  mkBook (b_store b) (b_pk b) (b_authorID b) (b_authorName b) (b_fsLocation b) (b_fs b) (b_publisher b)
    (S (b_tick b)).

Abbreviation M := (stM Book).

(** A method called on a nil book *)
Definition nil_guard {A} (m : M A) : stM (option Book) A := λ ob,
  match ob with
  | None => (Error ErrNoLogbook, None)
  | Some b => let '(r, b') := m b in (r, Some b')
  end.

(** Reading the store, and replacing it by the outcome of a journal operation *)
Definition with_store {A} (f : Journal → outcome A) : M A := λ b, (f (b_store b), b).
Definition update_store (f : Journal → outcome Journal) : M unit := λ b,
  match f (b_store b) with
  | Ok j => (Ok tt, set_store j b)
  | Error e => (Error e, b)
  | Panic => (Panic, b)
  end.

Definition now : M Z := λ b, (Ok (NewTimestamp (b_tick b)), tick b).

(** [log.Error(err)] on a failing publisher: the error is dropped. *)
Definition publish (typ : string) (payload : DsChange) : M unit := λ b,
  match Publish typ payload (b_publisher b) with
  | (Panic, p) => (Panic, set_publisher p b)
  | (_, p) => (Ok tt, set_publisher p b)
  end.

(** [Book.save]. The result of [Put] is assigned to an [err] that shadows the
    named result, so its failure is not returned, and [fsLocation] takes
    whatever location came with it. *)
Definition save : M unit := λ b,
  match FlatbufferCipher (rand_nonce (b_tick b)) (b_pk b) (b_store b) with
  | Ok ciphertext =>
      let '((loc, err), fs') := fs_Put (b_fs b) (b_fsLocation b) ciphertext in
      (Ok tt, tick (set_fs loc fs' b))
  | Error e => (Error e, tick b)
  | Panic => (Panic, tick b)
  end.

(** [strings.Contains(err.Error(), "not found")] *)
Definition is_not_found (e : error) : bool := strings_Contains (error_text e) "not found".

(** [Book.load] *)
Definition load : M unit := λ b,
  match fs_Get (b_fs b) (b_fsLocation b) with
  | Error e => (Error (if is_not_found e then ErrLogbookNotFound else e), b)
  | Panic => (Panic, b)
  | Ok ciphertext =>
      match UnmarshalFlatbufferCipher (b_pk b) ciphertext with
      | Ok j => (Ok tt, set_authorID (j_id j) (set_store j b))
      | Error e => (Error e, b)
      | Panic => (Panic, b)
      end
  end.

(** [Book.initialize] *)
Definition initialize (authorID : string) : M unit :=
  b ← st_get;
  ts ← now;
  let userActions := InitLog (mkOp OpTypeInit AuthorModel "" "" [] (b_authorName b) authorID ts 0 "") in
  st_modify (set_authorID (ID userActions));;
  update_store (MergeLog userActions);;
  st_modify (λ b, match SetID (b_authorID b) (b_store b) with
                  | Ok j => set_store j b | _ => b end);;
  save.

(** [NewJournal]: loads the book at the location or, when there is none,
    initialises it with the key's ID. The key, the filesystem and the bus are
    there by their types; the location is checked. *)
Definition NewJournal (keyID : outcome string) : M unit := λ b,
  if decide (b_fsLocation b = "") then (Error (Errorf "logbook: location is required" []), b)
  else match load b with
  | (Error e, b') =>
      if decide (e = ErrLogbookNotFound) then
        match keyID with
        | Ok id => initialize id b'
        | Error e => (Error e, b')
        | Panic => (Panic, b')
        end
      else (Error e, b')
  | r => r
  end.

(** [NewJournalOverwriteWithProfileID] *)
Definition NewJournalOverwriteWithProfileID (profileID : string) : M unit := λ b,
  if decide (b_fsLocation b = "") then (Error (Errorf "logbook: location is required" []), b)
  else if decide (profileID = "") then (Error (Errorf "logbook: profileID is required" []), b)
  else initialize profileID b.

(** ** Typed access to logs *)

(** [Book.authorLog], [Book.datasetLog] and [Book.branchLog] *)
Definition authorLog : M addr := b ← st_get; with_store (Journal_Get (b_authorID b)).
Definition datasetLog (initID : string) : M addr := with_store (Journal_Get initID).
Definition branchLog (initID : string) : M addr :=
  a ← with_store (Journal_Get initID);
  lg ← with_store (deref a);
  if decide (length (lg_Logs lg) = 1) then mret (a ++ [0])
  else st_fail (Errorf "expected dataset to have 1 branch, has %d"
                  [strconv_Itoa (Z.of_nat (length (lg_Logs lg)))]).

(** [Log.Append] through a pointer *)
Definition append_at (a : addr) (op : Op) : M unit :=
  lg ← with_store (deref a);
  lg' ← st_lift (Append op lg);
  st_modify (λ b, set_store (store_at a lg' (b_store b)) b).

(** [UserLog.Append], [DatasetLog.Append] and [BranchLog.Append]: an operation
    of the wrong model is logged and dropped. *)
Definition UserLog_Append (a : addr) (op : Op) : M unit :=
  if decide (op_Model op = AuthorModel) then append_at a op else mret tt.
Definition DatasetLog_Append (a : addr) (op : Op) : M unit :=
  if decide (op_Model op = DatasetModel) then append_at a op else mret tt.
Definition BranchLog_Append (a : addr) (op : Op) : M unit :=
  if decide (op_Model op = BranchModel ∨ op_Model op = CommitModel ∨
             op_Model op = PushModel ∨ op_Model op = RunModel)
  then append_at a op else mret tt.

(** [UserLog.ProfileID] *)
Definition UserLog_ProfileID (lg : Log) : outcome string :=
  match lg_Ops lg with o :: _ => Ok (op_AuthorID o) | [] => Panic end.

(** [BranchLog.Size] *)
Definition BranchLog_Size (a : addr) : M Z :=
  lg ← with_store (deref a); mret (Z.of_nat (length (lg_Ops lg))).

(** [Book.hasWriteAccess] *)
Definition hasWriteAccess (a : addr) : M unit :=
  b ← st_get;
  lg ← with_store (deref a);
  match lg_Ops lg with
  | [] => st_lift Panic
  | o :: _ => if decide (op_AuthorID o = b_authorID b) then mret tt
              else st_fail (ErrWrap "%w: you do not have write access" [] ErrAccessDenied)
  end.

(** ** Names *)

(** [Book.DatasetRef] and [Book.BranchRef] *)
Definition DatasetRef (ref : Ref) : M addr :=
  if decide (ref_Username ref = "") then st_fail (Errorf "logbook: ref.Username is required" [])
  else if decide (ref_Name ref = "") then st_fail (Errorf "logbook: ref.Name is required" [])
  else with_store (Journal_HeadRef [ref_Username ref; ref_Name ref]).

Definition BranchRef (ref : Ref) : M addr :=
  if decide (ref_Username ref = "") then st_fail (Errorf "logbook: ref.Username is required" [])
  else if decide (ref_Name ref = "") then st_fail (Errorf "logbook: ref.Name is required" [])
  else with_store (Journal_HeadRef [ref_Username ref; ref_Name ref; DefaultBranchName]).

(** [Book.RefToInitID] *)
Definition RefToInitID (ref : Ref) : M string := λ b,
  match Journal_HeadRef [ref_Username ref; ref_Name ref] (b_store b) with
  | Ok a => (lg ← deref a (b_store b); Ok (ID lg), b)
  | Error e => (Error (if decide (e = ErrNotFound) then ErrLogbookNotFound else e), b)
  | Panic => (Panic, b)
  end.

(** [dsRefToLogPath] and [Book.RemoveLog], which drops the store's error *)
Definition dsRefToLogPath (ref : Ref) : list string := [ref_Username ref; ref_Name ref].

Definition Book_RemoveLog (ref : Ref) : M unit :=
  b ← st_get;
  match RemoveLog (dsRefToLogPath ref) (b_store b) with
  | Ok j => st_modify (set_store j)
  | Error _ => mret tt
  | Panic => st_lift Panic
  end;;
  save.

(** ** Write operations *)

(** [Book.WriteAuthorRename] *)
Definition WriteAuthorRename (newName : string) : M unit :=
  if negb (IsValidName newName) then st_fail (Errorf "logbook: author name %q invalid" [newName])
  else
    a ← authorLog;
    b ← st_get;
    ts ← now;
    UserLog_Append a (mkOp OpTypeAmend AuthorModel "" "" [] newName (b_authorID b) ts 0 "");;
    save;;
    st_modify (set_authorName newName).

(** The check of [WriteDatasetInit] for an existing dataset: a "blank" log is
    removed, any other is an error. *)
Definition is_blank (lg : Log) : bool :=
  match lg_Ops lg, lg_Logs lg with
  | [_], [br] => bool_decide (length (lg_Ops br) = 1)
  | _, _ => false
  end.

Definition check_existing (dsName : string) : M unit := λ b,
  let ref := mkRef "" (b_authorName b) "" dsName "" in
  match DatasetRef ref b with
  | (Ok a, _) =>
      match deref a (b_store b) with
      | Ok lg =>
          if is_blank lg then
            match Book_RemoveLog ref b with
            | (Error e, b') => (Error (ErrWrap "logbook: removing stray log: %w" [] e), b')
            | r => r
            end
          else (Error (Errorf "logbook: dataset named %q already exists" [dsName]), b)
      | Error e => (Error e, b)
      | Panic => (Panic, b)
      end
  | (Error _, _) => (Ok tt, b)
  | (Panic, _) => (Panic, b)
  end.

(** [Book.WriteDatasetInit] *)
Definition WriteDatasetInit (dsName : string) : M string :=
  if decide (dsName = "") then st_fail (Errorf "logbook: name is required to initialize a dataset" [])
  else if negb (IsValidName dsName) then st_fail (Errorf "logbook: dataset name %q invalid" [dsName])
  else
    check_existing dsName;;
    a ← authorLog;
    alog ← with_store (deref a);
    profileID ← st_lift (UserLog_ProfileID alog);
    b ← st_get;
    ts1 ← now;
    ts2 ← now;
    let dsLog0 := InitLog (mkOp OpTypeInit DatasetModel "" "" [] dsName (b_authorID b) ts1 0 "") in
    let branch := InitLog (mkOp OpTypeInit BranchModel "" "" [] DefaultBranchName (b_authorID b) ts2 0 "") in
    let dsLog := AddChild branch dsLog0 in
    st_modify (λ b, set_store (store_at a (AddChild dsLog alog) (b_store b)) b);;
    publish ETDatasetNameInit
      (mkDsChange (ID dsLog) 0 profileID (b_authorName b) dsName "" None "");;
    save;;
    mret (ID dsLog).

(** [Book.WriteDatasetRename] *)
Definition WriteDatasetRename (initID newName : string) : M unit :=
  if negb (IsValidName newName) then st_fail (Errorf "logbook: new dataset name %q invalid" [newName])
  else
    a ← datasetLog initID;
    hasWriteAccess a;;
    ts ← now;
    DatasetLog_Append a (mkOp OpTypeAmend DatasetModel "" "" [] newName "" ts 0 "");;
    publish ETDatasetRename (mkDsChange initID 0 "" "" newName "" None "");;
    save.

(** [Book.WriteDatasetDelete] *)
Definition WriteDatasetDelete (initID : string) : M unit :=
  a ← datasetLog initID;
  hasWriteAccess a;;
  ts ← now;
  DatasetLog_Append a (mkOp OpTypeRemove DatasetModel "" "" [] "" "" ts 0 "");;
  publish ETDatasetDeleteAll (mkDsChange initID 0 "" "" "" "" None "");;
  save.

(** [Book.appendVersionSave]: the operation of a saved version, then the index
    of the operation in the branch. A dataset without a commit panics. *)
Definition versionSaveOp (ds : Dataset) : outcome Op :=
  match ds_Commit ds with
  | None => Panic
  | Some cm =>
      Ok (mkOp OpTypeInit CommitModel (ds_Path ds) (ds_PreviousPath ds)
            (if nonempty (cm_RunID cm) then [runIDRelPrefix +:+ cm_RunID cm] else [])
            "" "" (cm_Timestamp cm) (from_option st_Length 0%Z (ds_Structure ds)) (cm_Title cm))
  end.

Definition appendVersionSave (a : addr) (ds : Dataset) : M Z :=
  op ← st_lift (versionSaveOp ds);
  BranchLog_Append a op;;
  n ← BranchLog_Size a; mret (n - 1)%Z.

(** [Book.appendTransformRun] *)
Definition transformRunOp (rs : RunState) : Op :=
  mkOp OpTypeInit RunModel (rs_ID rs) "" [] (strconv_Itoa (rs_Number rs)) ""
    (default 0%Z (rs_StartTime rs)) (rs_Duration rs) (rs_Status rs).

Definition appendTransformRun (a : addr) (rs : RunState) : M Z :=
  BranchLog_Append a (transformRunOp rs);;
  n ← BranchLog_Size a; mret (n - 1)%Z.

(** The check of [WriteVersionSave] on the run it is given *)
Definition record_run (a : addr) (ds : Dataset) (rs : option RunState) : M unit :=
  match rs with
  | None => mret tt
  | Some rs =>
      match ds_Commit ds with
      | None => st_lift Panic
      | Some cm =>
          if decide (rs_ID rs = cm_RunID cm) then appendTransformRun a rs;; mret tt
          else st_fail (Errorf "dataset.Commit.RunID does not match the provided run.ID" [])
      end
  end.

(** [Book.WriteVersionSave] *)
Definition WriteVersionSave (initID : string) (ds : Dataset) (rs : option RunState) : M unit :=
  a ← branchLog initID;
  hasWriteAccess a;;
  record_run a ds rs;;
  topIndex ← appendVersionSave a ds;
  save;;
  let info := ConvertDatasetToVersionInfo ds in
  publish ETDatasetCommitChange (mkDsChange initID topIndex "" "" "" (vi_Path info) (Some info) "").

(** [Book.WriteTransformRun] *)
Definition WriteTransformRun (initID : string) (rs : RunState) : M unit :=
  a ← branchLog initID;
  hasWriteAccess a;;
  appendTransformRun a rs;;
  save.

(** [Book.WriteVersionAmend] *)
Definition WriteVersionAmend (initID : string) (ds : Dataset) : M unit :=
  a ← branchLog initID;
  hasWriteAccess a;;
  match ds_Commit ds with
  | None => st_lift Panic
  | Some cm =>
      BranchLog_Append a (mkOp OpTypeAmend CommitModel (ds_Path ds) (ds_PreviousPath ds) []
                            "" "" (cm_Timestamp cm) 0 (cm_Title cm))
  end;;
  save.

(** [Book.WriteVersionDelete] *)
Definition WriteVersionDelete (initID : string) (revisions : Z) : M unit :=
  a ← branchLog initID;
  hasWriteAccess a;;
  BranchLog_Append a (mkOp OpTypeRemove CommitModel "" "" [] "" "" 0 revisions "");;
  br ← with_store (deref a);
  items ← st_lift (branchToVersionInfos br zero_Ref 0 (-1) false);
  match last items with
  | Some lastItem =>
      publish ETDatasetCommitChange
        (mkDsChange initID (Z.of_nat (length items)) "" "" "" (vi_Path lastItem) (Some lastItem) "")
  | None => mret tt
  end;;
  save.

(** [Book.UserDatasetBranchesLog]; one unit of fuel per ancestor *)
Definition UserDatasetBranchesLog (fuel : nat) (datasetInitID : string) : M (option Log) :=
  if decide (datasetInitID = "") then
    st_fail (ErrWrap "%w: cannot use the empty string as an init id" [] ErrLogbookNotFound)
  else
    a ← st_zoom b_store set_store (GetWithSparseAncestorsAllDescendants fuel datasetInitID);
    with_store (Parent a).

(** The rollback closures of [WriteRemotePush] and [WriteRemoteDelete]: drop
    the last operation of the branch, and save. [sync.Once] makes further
    calls answer the first call's error. *)
Definition rollback_op (initID : string) : M unit :=
  a ← branchLog initID;
  br ← with_store (deref a);
  ops ← st_lift (slice_to (lg_Ops br) (Z.of_nat (length (lg_Ops br)) - 1));
  st_modify (λ b, set_store (store_at a (set_Ops ops br) (b_store b)) b);;
  save.

Definition rollback (initID : string) (once : option (outcome unit)) : M (outcome unit) := λ b,
  match once with
  | Some r => (Ok r, b)
  | None => match rollback_op initID b with
            | (Panic, b') => (Panic, b')
            | (r, b') => (Ok r, b')
            end
  end.

(** The sparse log a remote write returns; without one the write is undone. *)
Definition sparse_or_rollback (fuel : nat) (initID : string) : M (option Log) := λ b,
  match UserDatasetBranchesLog fuel initID b with
  | (Error e, b') => match rollback_op initID b' with
                     | (Panic, b'') => (Panic, b'')
                     | (_, b'') => (Error e, b'')
                     end
  | r => r
  end.

(** The common body of [Book.WriteRemotePush] and [Book.WriteRemoteDelete]:
    they differ in the type of the operation. *)
Definition write_remote (opType : Z) (fuel : nat) (initID : string) (revisions : Z)
    (remoteAddr : string) : M (option Log) :=
  a ← branchLog initID;
  hasWriteAccess a;;
  ts ← now;
  BranchLog_Append a (mkOp opType PushModel "" "" [remoteAddr] "" "" ts revisions "");;
  save;;
  sparse_or_rollback fuel initID.

(** [Book.WriteRemotePush] and [Book.WriteRemoteDelete] *)
Definition WriteRemotePush (fuel : nat) (initID : string) (revisions : Z) (remoteAddr : string)
    : M (option Log) := write_remote OpTypeInit fuel initID revisions remoteAddr.
Definition WriteRemoteDelete (fuel : nat) (initID : string) (revisions : Z) (remoteAddr : string)
    : M (option Log) := write_remote OpTypeRemove fuel initID revisions remoteAddr.

(** ** Reading *)

(** [Book.ActivePeerID]: a missing author log panics. *)
Definition ActivePeerID : M string := λ b,
  match Journal_Get (b_authorID b) (b_store b) with
  | Ok a => (lg ← deref a (b_store b); Author lg, b)
  | _ => (Panic, b)
  end.

(** [Book.ListAllLogs], [Book.AllReferencedDatasetPaths] and [Book.PlainLogs] *)
Definition ListAllLogs : M (list Log) := with_store (Journal_Logs 0 (-1)).

Definition AllReferencedDatasetPaths : M (gset string) :=
  logs ← ListAllLogs;
  st_lift (foldl (λ acc l, paths ← acc; addReferencedPaths l paths) (Ok ∅) logs).

Definition PlainLogs : M (list PlainLog) := logs ← ListAllLogs; mret (map NewPlainLog logs).

(** [Book.SummaryString]: a line per user, dataset and branch, indented *)
Definition summary_line (indent : string) (lg : Log) : outcome string :=
  m ← Model lg; n ← Name lg;
  Ok (indent +:+ ModelString m +:+ " " +:+ ID lg +:+ " " +:+
      strconv_Itoa (Z.of_nat (length (lg_Ops lg))) +:+ " " +:+ n +:+
      String (ascii_of_nat 10) EmptyString).

Definition summary_loop (body : Log → outcome string) (ls : list Log) : outcome string :=
  foldl (λ acc l, s ← acc; line ← body l; Ok (s +:+ line)) (Ok "") ls.

Definition SummaryString : M string :=
  logs ← ListAllLogs;
  st_lift (summary_loop (λ user,
    u ← summary_line "" user;
    ds ← summary_loop (λ dataset,
      d ← summary_line "  " dataset;
      brs ← summary_loop (summary_line "    ") (lg_Logs dataset);
      Ok (d +:+ brs)) (lg_Logs user);
    Ok (u +:+ ds)) logs).

(** [Book.ResolveRef]: implements the resolver interface. *)
Definition resolve_path (b : Book) (ref : Ref) (initID : string) : outcome string :=
  if decide (ref_Path ref = "") then
    a ← fst (branchLog initID b); br ← deref a (b_store b); Ok (latestSavePath br)
  else Ok (ref_Path ref).

Definition resolve_profile (b : Book) (ref : Ref) (initID : string) : outcome string :=
  if decide (ref_ProfileID ref = "") then
    a ← fst (branchLog initID b);
    br ← deref a (b_store b);
    author ← Author br;
    ua ← Journal_Get author (b_store b);
    ulog ← deref ua (b_store b);
    UserLog_ProfileID ulog
  else Ok (ref_ProfileID ref).

#[export] Instance Book_ResolveRef : Resolver (option Book) := λ ob ref,
  match ob with
  | None => (Error ErrRefNotFound, ref)
  | Some b =>
      match fst (RefToInitID ref b) with
      | Panic => (Panic, ref)
      | Error _ => (Error ErrRefNotFound, ref)
      | Ok initID =>
          let ref1 := mkRef initID (ref_Username ref) (ref_ProfileID ref) (ref_Name ref) (ref_Path ref) in
          match resolve_path b ref initID with
          | Panic => (Panic, ref1)
          | Error e => (Error e, ref1)
          | Ok path =>
              let ref2 := mkRef initID (ref_Username ref) (ref_ProfileID ref) (ref_Name ref) path in
              match resolve_profile b ref initID with
              | Panic => (Panic, ref2)
              | Error e => (Error e, ref2)
              | Ok pid => (Ok "", mkRef initID (ref_Username ref) pid (ref_Name ref) path)
              end
          end
      end
  end.

(** [Book.Items] *)
Definition Items (ref : Ref) (offset limit : Z) : M (list VersionInfo) :=
  initID ← RefToInitID (mkRef "" (ref_Username ref) "" (ref_Name ref) "");
  a ← branchLog initID;
  br ← with_store (deref a);
  st_lift (branchToVersionInfos br ref offset limit true).

(** [Book.LogEntries] *)
Definition LogEntries (ref : Ref) (offset limit : Z) : M (list LogEntry) :=
  a ← BranchRef ref;
  l ← with_store (deref a);
  st_lift (log_entries (ref_Username ref) offset limit [] (lg_Ops l)).

(** ** Merging, replacing and reconstructing *)

(** [Book.MergeLog]; [verified] is the answer of [lg.Verify] on the sender's key *)
Definition Book_MergeLog (verified : outcome unit) (lg : Log) : M unit :=
  st_lift verified;;
  update_store (MergeLog lg);;
  save.

(** [Book.ReplaceAll] *)
Definition Book_ReplaceAll (lg : Log) : M unit :=
  update_store (Journal_ReplaceAll lg);; save.

(** [Book.ConstructDatasetLog] *)
Fixpoint append_history (a : addr) (history : list Dataset) : M unit :=
  match history with
  | [] => mret tt
  | ds :: history' => appendVersionSave a ds;; append_history a history'
  end.

Definition ConstructDatasetLog (ref : Ref) (history : list Dataset) : M unit := λ b,
  match RefToInitID ref b with
  | (Ok _, _) => (Error ErrLogTooShort, b)
  | (Panic, _) => (Panic, b)
  | (Error _, _) =>
      (initID ← WriteDatasetInit (ref_Name ref);
       a ← branchLog initID;
       append_history a history;;
       save) b
  end.
End book.
