(* ===== verification/LogbookFacts.v ===== *)
(** * Facts about the logbook's operations

    What a write leaves in the store, described through [appended]: the
    operations of the log at one address are extended, those of every other
    log are the same, and no log appears or disappears. *)
From S2P Require Export Logbook Ancestors.

(** ** Operations by address *)
Definition ops_at (x : addr) (j : Journal) : option (list Op) :=
  lg_Ops <$> lookup_addr x (j_logs j).

Definition appended (a : addr) (extra : list Op) (j j' : Journal) : Prop :=
  ∀ x, ops_at x j' = (λ ops, if decide (x = a) then ops ++ extra else ops) <$> ops_at x j.

Lemma appended_refl a j : appended a [] j j.
Proof.
  intros x. destruct (ops_at x j); cbn; [|done]. case_decide; [by rewrite app_nil_r|done].
Qed.

Lemma appended_trans a e1 e2 j1 j2 j3 :
  appended a e1 j1 j2 → appended a e2 j2 j3 → appended a (e1 ++ e2) j1 j3.
Proof.
  intros H1 H2 x. rewrite (H2 x), (H1 x). destruct (ops_at x j1); cbn; [|done].
  case_decide; [by rewrite app_assoc|done].
Qed.

Lemma appended_nil a a' j j' : appended a [] j j' → appended a' [] j j'.
Proof.
  intros H x. rewrite (H x). destruct (ops_at x j); cbn; [|done].
  repeat case_decide; by rewrite ?app_nil_r.
Qed.

(** A write through a pointer that keeps the children of the log. *)
Lemma lookup_alter_addr_ne f a x ls :
  (∀ lg, lookup_addr a ls = Some lg → lg_Logs (f lg) = lg_Logs lg) → x ≠ a →
  lg_Ops <$> lookup_addr x (alter_addr f a ls) = lg_Ops <$> lookup_addr x ls.
Proof.
  revert x ls. induction a as [|i a IH]; intros x ls Hf Hx; [done|]. cbn [alter_addr].
  destruct x as [|k x]; [done|]. rewrite !lookup_addr_cons.
  destruct (decide (k = i)) as [->|Hk]; [|by rewrite list_lookup_alter_ne].
  rewrite list_lookup_alter_eq. rewrite lookup_addr_cons in Hf.
  destruct (ls !! i) as [lg|]; cbn in *; [|done].
  destruct a as [|a0 a].
  - destruct x as [|x0 x]; [done|]. by rewrite (Hf lg eq_refl).
  - destruct x as [|x0 x]; [done|]. cbn [lg_Logs set_Logs]. apply IH; [done|congruence].
Qed.

Lemma appended_store_at a lg lg' extra j :
  deref a j = Ok lg → lg_Logs lg' = lg_Logs lg → lg_Ops lg' = lg_Ops lg ++ extra →
  appended a extra j (store_at a lg' j).
Proof.
  rewrite deref_Ok. intros Hlg Hlogs Hops x. unfold ops_at, store_at. cbn.
  destruct (decide (x = a)) as [->|Hx].
  - rewrite lookup_alter_addr, Hlg. cbn. by rewrite Hops.
  - rewrite lookup_alter_addr_ne by (done || by intros l Hl; simplify_eq).
    destruct (lookup_addr x (j_logs j)); done.
Qed.

(** ** Well-formed stores stay so *)
Lemma wf_set_ops ops lg : ops ≠ [] → wf_log lg → wf_log (set_Ops ops lg).
Proof. intros Hops [Hi Hch]. by constructor. Qed.

Lemma wf_alter_addr f a ls :
  (∀ lg, lookup_addr a ls = Some lg → wf_log lg → wf_log (f lg)) →
  Forall wf_log ls → Forall wf_log (alter_addr f a ls).
Proof.
  revert ls. induction a as [|i a IH]; intros ls Hf Hls; [done|]. cbn [alter_addr].
  rewrite lookup_addr_cons in Hf. apply Forall_lookup. intros k l.
  rewrite Forall_lookup in Hls.
  destruct (decide (k = i)) as [->|Hk]; [|rewrite list_lookup_alter_ne by done; apply Hls].
  rewrite list_lookup_alter_eq. destruct (ls !! i) as [lg|] eqn:Hl; cbn in *; [|done].
  intros [= <-]. specialize (Hls i lg Hl). destruct a as [|i' a]; [by apply Hf|].
  destruct (wf_children _ Hls) as [_ Hch]. destruct Hls as [Hi _].
  constructor; [done|]. by apply IH.
Qed.

Lemma wf_lookup a ls lg : Forall wf_log ls → lookup_addr a ls = Some lg → wf_log lg.
Proof.
  revert ls. induction a as [|i a IH]; intros ls Hls; [done|]. rewrite lookup_addr_cons.
  destruct (ls !! i) as [l|] eqn:Hl; cbn; [|done]. rewrite Forall_lookup in Hls.
  specialize (Hls i l Hl). destruct a as [|i' a]; [by intros [= <-]|].
  apply IH. by destruct (wf_children _ Hls).
Qed.

Lemma wf_store_at a lg j : wf_journal j → wf_log lg → wf_journal (store_at a lg j).
Proof. intros Hj Hlg. by apply wf_alter_addr. Qed.

Lemma wf_deref a j lg : wf_journal j → deref a j = Ok lg → wf_log lg.
Proof. rewrite deref_Ok. apply wf_lookup. Qed.

Lemma Append_wf op lg lg' : wf_log lg → Append op lg = Ok lg' → wf_log lg'.
Proof.
  intros [Hi Hch] (o & ops & Hops & ->)%Append_Ok. constructor.
  - unfold has_init. cbn. rewrite Hops. done.
  - by case_decide.
Qed.

Lemma Append_total op lg : has_init lg → ∃ lg', Append op lg = Ok lg'.
Proof.
  unfold has_init, Append, Model. destruct (lg_Ops lg); [done|]. intros _. cbn. eauto.
Qed.

Lemma Append_data op lg lg' :
  Append op lg = Ok lg' → lg_Ops lg' = lg_Ops lg ++ [op] ∧ lg_Logs lg' = lg_Logs lg ∧
    lg_ParentID lg' = lg_ParentID lg ∧ lg_parent lg' = lg_parent lg.
Proof. intros (o & ops & Hops & ->)%Append_Ok. cbn. by case_decide. Qed.

(** ** Names are read above the log that is written *)
Lemma find_named_alter n g k i ls :
  (∀ l, ls !! k = Some l → Name (g l) = Name l ∧ Removed (g l) = Removed l) →
  find_named n i (alter g k ls) =
    option_map (λ '(m, l), (m, if decide (m = i + k) then g l else l)) <$> find_named n i ls.
Proof.
  revert k i. induction ls as [|x ls IH]; intros k i Hg; [done|].
  destruct k as [|k]; cbn [alter list_alter find_named].
  - destruct (Hg x eq_refl) as [-> ->]. clear IH.
    assert (find_named n (S i) ls =
      option_map (λ '(m, l), (m, if decide (m = i + 0) then g l else l)) <$> find_named n (S i) ls) as Hrest.
    { destruct (find_named n (S i) ls) as [[[m l]|]| |] eqn:Hf; cbn; [|done..].
      apply find_named_Some in Hf as (m' & -> & _). by rewrite decide_False by lia. }
    destruct (Name x) as [nm| |]; cbn; [|done..]. case_decide; [|done].
    destruct (Removed x) as [[]| |]; cbn; [done| |done..]. by rewrite decide_True by lia.
  - destruct (Name x) as [nm| |]; cbn; [|done..].
    assert (find_named n (S i) (alter g k ls) =
      option_map (λ '(m, l), (m, if decide (m = i + S k) then g l else l)) <$> find_named n (S i) ls) as Hrest.
    { rewrite IH by done. by replace (S i + k) with (i + S k) by lia. }
    case_decide; [|done].
    destruct (Removed x) as [[]| |]; cbn; [done| |done..]. by rewrite decide_False by lia.
Qed.

Lemma headref_addr_alter names f a ls :
  length names < length a → headref_addr names (alter_addr f a ls) = headref_addr names ls.
Proof.
  revert a ls. induction names as [|n ns IH]; intros a ls; [done|].
  destruct a as [|k a]; cbn [length]; [lia|]. intros Hlen.
  destruct a as [|k' a]; [cbn in Hlen; lia|]. cbn [headref_addr].
  change (alter_addr f (k :: k' :: a) ls) with
    (alter (λ lg, set_Logs (alter_addr f (k' :: a) (lg_Logs lg)) lg) k ls).
  rewrite find_named_alter by done.
  destruct (find_named n 0 ls) as [[[m l]|]| |]; cbn -[alter_addr headref_addr]; [|done..].
  destruct ns as [|n' ns]; [done|]. case_decide; [|done].
  cbn [lg_Logs set_Logs]. by rewrite IH by (cbn in *; lia).
Qed.

(** A change of a log's labels only *)
Definition relabels (lg lg' : Log) : Prop :=
  lg_Logs lg' = lg_Logs lg ∧ lg_Ops lg' = lg_Ops lg ∧
  lg_name lg' = lg_name lg ∧ lg_authorID lg' = lg_authorID lg.

Lemma headref_addr_relabel names f a ls :
  (∀ lg, lookup_addr a ls = Some lg → relabels lg (f lg)) →
  headref_addr names (alter_addr f a ls) = headref_addr names ls.
Proof.
  assert (∀ lg lg', relabels lg lg' → Name lg' = Name lg ∧ Removed lg' = Removed lg) as Hsame.
  { intros lg lg' (_ & Ho & Hn & _). unfold Name, Removed, Model. by rewrite Ho, Hn. }
  revert a ls. induction names as [|n ns IH]; intros a ls Hf; [done|].
  destruct a as [|k a]; [done|]. cbn [headref_addr alter_addr].
  rewrite lookup_addr_cons in Hf.
  rewrite find_named_alter.
  2: { intros l Hl. rewrite Hl in Hf. destruct a; [apply Hsame, Hf; done|done]. }
  destruct (find_named n 0 ls) as [[[m l]|]| |] eqn:Hm; cbn -[alter_addr headref_addr]; [|done..].
  destruct ns as [|n' ns]; [done|]. case_decide as Hd; [|done]. cbn in Hd. subst m.
  apply find_named_Some in Hm as (m & Hk & Hl & _). cbn in Hk. subst m. rewrite Hl in Hf. cbn in Hf.
  destruct a as [|k' a]; [by destruct (Hf l eq_refl) as [-> _]|].
  cbn [lg_Logs set_Logs]. by rewrite IH.
Qed.

Section digest.
Context `{OpDigest}.

(** What one operation of the logbook does to the store: it extends the
    operations at [a], every identifier is found where it was, and so is every
    name of a log above [a]. *)
Record edits (a : addr) (extra : list Op) (j j' : Journal) : Prop := mkEdits {
  edits_appended : appended a extra j j';
  edits_Get : ∀ id, Journal_Get id j' = Journal_Get id j;
  edits_HeadRef : ∀ names, length names < length a →
    headref_addr names (j_logs j') = headref_addr names (j_logs j);
  edits_wf : wf_journal j → wf_journal j';
  edits_linked : linked j → linked j';
}.

Lemma edits_refl a j : edits a [] j j.
Proof. split; [apply appended_refl|done..]. Qed.

Lemma edits_trans a e1 e2 j1 j2 j3 :
  edits a e1 j1 j2 → edits a e2 j2 j3 → edits a (e1 ++ e2) j1 j3.
Proof.
  intros [Ha1 Hg1 Hh1 Hw1 Hl1] [Ha2 Hg2 Hh2 Hw2 Hl2]. split; [by eapply appended_trans| | |by eauto..].
  - intros id. by rewrite Hg2.
  - intros names Hlen. by rewrite Hh2, Hh1.
Qed.

Lemma edits_store_at a lg lg' extra j :
  deref a j = Ok lg → has_init lg → lg_Logs lg' = lg_Logs lg → lg_Ops lg' = lg_Ops lg ++ extra →
  lg_ParentID lg' = lg_ParentID lg → lg_parent lg' = lg_parent lg →
  edits a extra j (store_at a lg' j).
Proof.
  intros Hlg Hi Hlogs Hops Hpid Hpar. unfold has_init in Hi.
  assert (ID lg' = ID lg) as Hid by (unfold ID; rewrite Hops; by destruct (lg_Ops lg)). split.
  - by eapply appended_store_at.
  - intros id. by eapply Get_store_at.
  - intros names Hlen. by apply headref_addr_alter.
  - intros Hj. apply wf_store_at; [done|]. pose proof (wf_deref _ _ _ Hj Hlg) as [_ Hch].
    constructor; [|by rewrite Hlogs]. unfold has_init. rewrite Hops. by destruct (lg_Ops lg).
  - apply (linked_store_at a lg); [done..|]. split_and!; [done..|by left].
Qed.

(** The store writes that keep a log's operations and children, after others *)
Lemma edits_relabel x a lg lg' j0 j :
  edits x [] j0 j → deref a j = Ok lg → relabels lg lg' →
  (linked j0 → linked (store_at a lg' j)) → edits x [] j0 (store_at a lg' j).
Proof.
  intros [Ha0 Hg0 Hh0 Hw0 _] Hlg Hre Hlinked. pose proof Hre as (Hlogs & Hops & _). split.
  - change (@nil Op) with (@nil Op ++ []). eapply appended_trans; [done|].
    eapply appended_nil, appended_store_at; [done..|]. by rewrite app_nil_r.
  - intros id. rewrite <- Hg0. eapply Get_store_at; [done| |done]. unfold ID. by rewrite Hops.
  - intros names Hlen. rewrite <- Hh0 by done. apply headref_addr_relabel.
    intros l Hl. apply deref_Ok in Hlg. by simplify_eq.
  - intros Hj%Hw0. apply wf_store_at; [done|]. pose proof (wf_deref _ _ _ Hj Hlg) as [Hi Hch].
    constructor; [|by rewrite Hlogs]. unfold has_init. by rewrite Hops.
  - exact Hlinked.
Qed.

Lemma deref_ops a j lg : deref a j = Ok lg → ops_at a j = Some (lg_Ops lg).
Proof. rewrite deref_Ok. unfold ops_at. by intros ->. Qed.

Lemma edits_deref a extra j j' lg :
  edits a extra j j' → deref a j = Ok lg →
  ∃ lg', deref a j' = Ok lg' ∧ lg_Ops lg' = lg_Ops lg ++ extra.
Proof.
  intros [Ha _ _ _ _] Hlg%deref_ops. specialize (Ha a). rewrite Hlg in Ha. cbn in Ha.
  rewrite decide_True in Ha by done. unfold ops_at in Ha.
  destruct (lookup_addr a (j_logs j')) as [lg'|] eqn:E; [|done].
  exists lg'. rewrite deref_Ok. split; [done|]. cbn in Ha. congruence.
Qed.

(** The number of children is read off the addresses. *)
Lemma children_by_addr a j lg i :
  deref a j = Ok lg → lookup_addr (a ++ [i]) (j_logs j) = lg_Logs lg !! i.
Proof.
  rewrite deref_Ok. intros Hlg. rewrite (lookup_addr_app _ _ _ _ Hlg) by done.
  cbn. by destruct (lg_Logs lg !! i).
Qed.

Lemma length_by_lookup {A B} (l : list A) (k : list B) :
  (∀ i, is_Some (l !! i) ↔ is_Some (k !! i)) → length l = length k.
Proof.
  intros Hlk. setoid_rewrite lookup_lt_is_Some in Hlk.
  destruct (Nat.lt_trichotomy (length l) (length k)) as [Hlt|[?|Hlt]]; [|done|].
  - apply Hlk in Hlt. lia.
  - apply Hlk in Hlt. lia.
Qed.

Lemma edits_children a extra j j' x lg lg' :
  edits a extra j j' → deref x j = Ok lg → deref x j' = Ok lg' →
  length (lg_Logs lg') = length (lg_Logs lg).
Proof.
  intros [Ha _ _ _ _] Hlg Hlg'. apply length_by_lookup. intros i.
  rewrite <- (children_by_addr x j lg), <- (children_by_addr x j' lg') by done.
  specialize (Ha (x ++ [i])). unfold ops_at in Ha.
  destruct (lookup_addr (x ++ [i]) (j_logs j')), (lookup_addr (x ++ [i]) (j_logs j)); naive_solver.
Qed.

(** ** Sparse ancestors change no operation *)
Lemma sparse_parent_edits x pid sig par a j :
  edits x [] j (sparse_parent pid sig par a j).2.
Proof.
  assert (∀ m : stM Journal addr, (m j).2 = j →
    edits x [] j ((pa ← m; p ← st_read (deref pa);
     let p' := if decide (lg_Signature p = "") then set_Signature sig p else p in
     st_modify (store_at pa p');;
     mret (M:=stM Journal) (lg_ParentID p', lg_Ops p', lg_Signature p')) j).2) as Hm.
  { intros m Hm. unfold mbind at 1, stM_bind. destruct (m j) as [[pa|e|] j0]; cbn in Hm; subst j0.
    2,3: apply edits_refl.
    unfold mbind at 1, stM_bind, st_read.
    destruct (deref pa j) as [p|e|] eqn:Hp; [|apply edits_refl..]. cbn.
    eapply edits_relabel; [apply edits_refl|done|by case_decide|].
    case_decide; [by apply linked_sign|by rewrite store_at_same]. }
  destruct par; [by apply Hm|by apply Hm|apply edits_refl].
Qed.

Lemma sparse_ancestors_edits x fuel pid sig par a j :
  edits x [] j (sparse_ancestors fuel pid sig par a j).2.
Proof.
  revert pid sig par a j. induction fuel as [|fuel IH]; intros pid sig par a j; cbn [sparse_ancestors].
  { case_decide; apply edits_refl. }
  case_decide; [apply edits_refl|]. pose proof (sparse_parent_edits x pid sig par a j) as Hstep.
  destruct (sparse_parent pid sig par a j) as [[[[ppid pops] psig]|e|] j1]; [|done..].
  change (@nil Op) with (@nil Op ++ []). eapply edits_trans; [done|].
  specialize (IH ppid psig NoParent [] j1). unfold mbind, stM_bind.
  by destruct (sparse_ancestors fuel ppid psig NoParent [] j1) as [[[rest err]|e|] j2].
Qed.

Lemma sparse_edits x fuel id j :
  edits x [] j (GetWithSparseAncestorsAllDescendants fuel id j).2.
Proof.
  destruct (Journal_Get id j) as [a|e|] eqn:Hget.
  2,3: unfold GetWithSparseAncestorsAllDescendants, mbind, stM_bind, st_read; rewrite Hget; apply edits_refl.
  destruct (Get_sound _ _ _ Hget) as (l & Hl & _).
  assert (linked j → linked (GetWithSparseAncestorsAllDescendants fuel id j).2) as Hlinked.
  { intros Hj. by apply (GetWithSparse_linked fuel id a j). }
  revert Hlinked. unfold GetWithSparseAncestorsAllDescendants, st_read.
  rewrite (bind_run _ _ j a j) by by rewrite Hget.
  rewrite (bind_run _ _ j l j) by by rewrite Hl.
  rewrite (bind_run _ _ j l j) by (case_decide; [by rewrite (Descendants_run id a)|done]).
  rewrite (bind_run (st_modify _) _ j tt j) by (unfold st_modify; by rewrite store_at_same).
  pose proof (sparse_ancestors_edits x fuel (lg_ParentID l) (lg_Signature l) (lg_parent l) a j) as Hsp.
  unfold mbind, stM_bind.
  destruct (sparse_ancestors fuel _ _ _ a j) as [[[link err]|e|] j1]; cbn in Hsp |- *; [|done..].
  destruct (deref a j1) as [l1|e|] eqn:Hl1; [|done..].
  intros Hlinked.
  assert (edits x [] j (store_at a (set_parent link l1) j1)) as Hed.
  { eapply edits_relabel; [done..|]. by destruct err. }
  by destruct err.
Qed.
End digest.

(** ** What a reloaded store holds *)
Section reload.
Context `{OpDigest}.

Lemma lookup_addr_reload x pid p ls :
  lg_Ops <$> lookup_addr x (map (reload pid p) ls) = lg_Ops <$> lookup_addr x ls.
Proof.
  revert pid p ls. induction x as [|i x IH]; intros pid p ls; [done|].
  rewrite !lookup_addr_cons. change (map (reload pid p) ls) with (reload pid p <$> ls).
  rewrite list_lookup_fmap. destruct (ls !! i) as [l|]; cbn [fmap option_fmap option_map mbind option_bind]; [|done].
  destruct x as [|i' x]; [by destruct l|].
  replace (lg_Logs (reload pid p l)) with (map (reload (ID l) TreeParent) (lg_Logs l)) by (by destruct l).
  apply IH.
Qed.

Lemma ops_at_reload x j : ops_at x (reload_journal j) = ops_at x j.
Proof. apply lookup_addr_reload. Qed.

Lemma Get_reload id j : Journal_Get id (reload_journal j) = Journal_Get id j.
Proof.
  unfold Journal_Get. f_equal. cbn [j_logs reload_journal]. rewrite find_addr_map.
  apply find_addr_ext. intros l _. apply Log_Log_reload.
Qed.

Lemma HeadRef_reload names j :
  Forall (Log_Forall caches_ok) (j_logs j) →
  Journal_HeadRef names (reload_journal j) = Journal_HeadRef names j.
Proof. intros Hc. destruct names; [done|]. by apply headref_addr_reload. Qed.
End reload.

Section book.
Context `{OpDigest, BookCipher, Entropy} {F P : Type} `{!Filesystem F, !Publisher P}.
Abbreviation Book := (@Book _ F P).
Implicit Types b : Book.

(** Every write keeps the book's owner. *)
Definition same_owner b b' : Prop :=
  b_authorID b' = b_authorID b ∧ b_pk b' = b_pk b ∧ b_authorName b' = b_authorName b.

Lemma same_owner_refl b : same_owner b b.
Proof. done. Qed.
Lemma same_owner_trans b1 b2 b3 : same_owner b1 b2 → same_owner b2 b3 → same_owner b1 b3.
Proof. unfold same_owner. intros (?&?&?) (?&?&?). split_and!; congruence. Qed.

(** The calls that touch the world and leave the store alone *)
Definition store_kept b b' : Prop := b_store b' = b_store b ∧ same_owner b b'.

Lemma save_kept b : store_kept b (save b).2.
Proof. unfold save. repeat case_match; done. Qed.

Lemma publish_kept typ payload b : store_kept b (publish typ payload b).2.
Proof. unfold publish. by destruct (Publish _ _ _) as [[]]. Qed.

(** [save] answers according to the key only; the filesystem's failure is dropped. *)
Lemma save_Ok b k : wf_journal (b_store b) → cipher (b_pk b) = Ok k → (save b).1 = Ok tt.
Proof.
  intros Hwf Hk. unfold save.
  destruct (FlatbufferCipher_Ok (rand_nonce (b_tick b)) _ _ _ Hwf Hk) as [ct ->].
  by destruct (fs_Put _ _ _) as [[]].
Qed.

(** ** Reading the target of a write *)
Lemma datasetLog_run initID b : datasetLog initID b = (Journal_Get initID (b_store b), b).
Proof. done. Qed.

Lemma datasetLog_pure initID b r b' : datasetLog initID b = (r, b') → b' = b.
Proof. rewrite datasetLog_run. congruence. Qed.

Lemma branchLog_Ok initID b a b' :
  branchLog initID b = (Ok a, b') ↔
    b' = b ∧ ∃ d lg, a = d ++ [0] ∧ Journal_Get initID (b_store b) = Ok d ∧
      deref d (b_store b) = Ok lg ∧ length (lg_Logs lg) = 1.
Proof.
  unfold branchLog, with_store, mbind, stM_bind. cbn.
  destruct (Journal_Get initID (b_store b)) as [d|e|] eqn:Hd; cbn.
  2,3: by split; [|intros (_ & ? & ? & _ & ? & _)].
  destruct (deref d (b_store b)) as [lg|e|] eqn:Hlg; cbn.
  2,3: split; [done|]; intros (_ & ? & ? & _ & ? & ? & _); congruence.
  case_decide as Hlen; cbn.
  - split; [intros [= <- <-]; eauto 10|]. intros (-> & d' & lg' & -> & [= ->] & _). done.
  - split; [done|]. intros (_ & ? & ? & _ & [= <-] & ? & ?). congruence.
Qed.

Lemma branchLog_pure initID b r b' : branchLog initID b = (r, b') → b' = b.
Proof.
  unfold branchLog, with_store, mbind, stM_bind. cbn.
  destruct (Journal_Get _ _); cbn; [|by intros [= _ <-]..].
  destruct (deref _ _); cbn; [|by intros [= _ <-]..].
  case_decide; cbn; by intros [= _ <-].
Qed.

(** The branch of a dataset stays where it is. *)
Lemma branchLog_edits initID b b' a x extra :
  edits x extra (b_store b) (b_store b') →
  branchLog initID b = (Ok a, b) → branchLog initID b' = (Ok a, b').
Proof.
  intros He (_ & d & lg & -> & Hd & Hlg & Hlen)%branchLog_Ok.
  apply branchLog_Ok. split; [done|]. exists d.
  assert (∃ lg', deref d (b_store b') = Ok lg') as [lg' Hlg'].
  { pose proof (edits_appended _ _ _ _ He d) as Ha.
    rewrite (deref_ops _ _ _ Hlg) in Ha. unfold ops_at in Ha.
    destruct (lookup_addr d (j_logs (b_store b'))) as [l|] eqn:E; [|done].
    exists l. by apply deref_Ok. }
  exists lg'. rewrite (edits_Get _ _ _ _ He). split_and!; [done..|].
  by rewrite (edits_children _ _ _ _ _ _ _ He Hlg Hlg').
Qed.

(** ** The guard of every write *)
Definition owned a b : Prop :=
  ∃ lg o ops, deref a (b_store b) = Ok lg ∧ lg_Ops lg = o :: ops ∧ op_AuthorID o = b_authorID b.

Lemma hasWriteAccess_cases a b :
  ((hasWriteAccess a b).1 = Ok tt ∧ owned a b ∨ ¬ is_Ok (hasWriteAccess a b).1 ∧ ¬ owned a b) ∧
  (hasWriteAccess a b).2 = b.
Proof.
  unfold hasWriteAccess, owned, with_store, mbind, stM_bind. cbn.
  destruct (deref a (b_store b)) as [lg|e|]; cbn.
  2,3: (split; [|done]; right; split; [by intros []|by intros (? & ? & ? & ? & _)]).
  destruct (lg_Ops lg) as [|o ops] eqn:Hops; cbn.
  { split; [|done]. right. split; [by intros []|]. intros (? & ? & ? & [= <-] & ? & ?). congruence. }
  case_decide as Ha; cbn; (split; [|done]).
  - left. split; [done|]. by exists lg, o, ops.
  - right. split; [by intros []|]. intros (? & ? & ? & [= <-] & ? & ?). congruence.
Qed.

Lemma hasWriteAccess_owned a b : owned a b → hasWriteAccess a b = (Ok tt, b).
Proof.
  intros Ho. destruct (hasWriteAccess_cases a b) as [[[Hr _]|[_ Hn]] Hb]; [|done].
  destruct (hasWriteAccess a b); cbn in *; congruence.
Qed.

Lemma hasWriteAccess_denied a b lg o ops :
  deref a (b_store b) = Ok lg → lg_Ops lg = o :: ops → op_AuthorID o ≠ b_authorID b →
  hasWriteAccess a b = (Error (ErrWrap "%w: you do not have write access" [] ErrAccessDenied), b).
Proof.
  intros Hlg Hops Ho. unfold hasWriteAccess, with_store, mbind, stM_bind. cbn.
  rewrite Hlg. cbn. rewrite Hops. by rewrite decide_False.
Qed.
(** ** Appending *)
Lemma append_at_run a op b lg :
  deref a (b_store b) = Ok lg → has_init lg →
  ∃ lg', append_at a op b = (Ok tt, set_store (store_at a lg' (b_store b)) b) ∧
         Append op lg = Ok lg'.
Proof.
  intros Hlg Hi. destruct (Append_total op lg Hi) as [lg' Hop]. exists lg'. split; [|done].
  unfold append_at, with_store, mbind, stM_bind. rewrite Hlg. cbn. by rewrite Hop.
Qed.

Lemma owned_init a b : owned a b → ∃ lg, deref a (b_store b) = Ok lg ∧ has_init lg.
Proof. intros (lg & o & ops & Hlg & Hops & _). exists lg. split; [done|]. unfold has_init. by rewrite Hops. Qed.

(** What a sequence of store writes at [a] does to the book *)
Definition written a extra b b' : Prop :=
  edits a extra (b_store b) (b_store b') ∧ same_owner b b'.

Lemma written_refl a b : written a [] b b.
Proof. split; [apply edits_refl|done]. Qed.

Lemma written_trans a e1 e2 b1 b2 b3 :
  written a e1 b1 b2 → written a e2 b2 b3 → written a (e1 ++ e2) b1 b3.
Proof. intros [] []. split; [by eapply edits_trans|by eapply same_owner_trans]. Qed.

Lemma written_kept a e b1 b2 b3 : written a e b1 b2 → store_kept b2 b3 → written a e b1 b3.
Proof. intros [He Ho] [Hs Ho']. split; [by rewrite Hs|by eapply same_owner_trans]. Qed.

Lemma written_owned a e b b' : written a e b b' → owned a b → owned a b'.
Proof.
  intros [He (Ha & _)] (lg & o & ops & Hlg & Hops & Ho).
  destruct (edits_deref _ _ _ _ _ He Hlg) as (lg' & Hlg' & Hops').
  exists lg', o, (ops ++ e). rewrite Hops', Hops, Ha. done.
Qed.

Lemma written_branchLog initID a x e b b' :
  written x e b b' → branchLog initID b = (Ok a, b) → branchLog initID b' = (Ok a, b').
Proof. intros [He _]. by eapply branchLog_edits. Qed.

Lemma append_at_written a op b :
  owned a b → ∃ b', append_at a op b = (Ok tt, b') ∧ written a [op] b b' ∧ b_tick b' = b_tick b ∧
    b_publisher b' = b_publisher b.
Proof.
  intros (lg & Hlg & Hi)%owned_init. destruct (append_at_run a op b lg Hlg Hi) as (lg' & Hrun & Hop).
  apply Append_data in Hop as (Hops & Hlogs & ? & ?).
  exists (set_store (store_at a lg' (b_store b)) b). split_and!; [done| |done..].
  split; [by eapply edits_store_at|done].
Qed.

Lemma BranchLog_Append_written a op b :
  owned a b → op_Model op ∈ [BranchModel; CommitModel; PushModel; RunModel] →
  ∃ b', BranchLog_Append a op b = (Ok tt, b') ∧ written a [op] b b' ∧ b_tick b' = b_tick b ∧
    b_publisher b' = b_publisher b.
Proof.
  intros Ho Hm. unfold BranchLog_Append. rewrite decide_True; [by apply append_at_written|].
  set_solver.
Qed.

Lemma BranchLog_Size_run a b lg :
  deref a (b_store b) = Ok lg → BranchLog_Size a b = (Ok (Z.of_nat (length (lg_Ops lg))), b).
Proof. intros Hlg. unfold BranchLog_Size, with_store, mbind, stM_bind. by rewrite Hlg. Qed.

Lemma appendVersionSave_written a ds op b :
  owned a b → versionSaveOp ds = Ok op →
  ∃ b' n, appendVersionSave a ds b = (Ok n, b') ∧ written a [op] b b' ∧ b_tick b' = b_tick b ∧
    b_publisher b' = b_publisher b ∧
    ∃ lg', deref a (b_store b') = Ok lg' ∧ n = (Z.of_nat (length (lg_Ops lg')) - 1)%Z.
Proof.
  intros Ho Hop. destruct (BranchLog_Append_written a op b Ho) as (b' & Hrun & Hw & Ht & Hp).
  { unfold versionSaveOp in Hop. case_match; simplify_eq/=. set_solver. }
  destruct (owned_init _ _ (written_owned _ _ _ _ Hw Ho)) as (lg' & Hlg' & _).
  exists b', (Z.of_nat (length (lg_Ops lg')) - 1)%Z. split_and!; [|done..|by exists lg'].
  unfold appendVersionSave. rewrite Hop.
  rewrite (bind_run (st_lift (Ok op)) _ b op b) by done.
  rewrite (bind_run _ _ _ _ _ Hrun), (bind_run _ _ _ _ _ (BranchLog_Size_run _ _ _ Hlg')). done.
Qed.

Lemma appendTransformRun_written a rs b :
  owned a b →
  ∃ b' n, appendTransformRun a rs b = (Ok n, b') ∧ written a [transformRunOp rs] b b' ∧
    b_tick b' = b_tick b ∧ b_publisher b' = b_publisher b.
Proof.
  intros Ho. destruct (BranchLog_Append_written a (transformRunOp rs) b Ho) as (b' & Hrun & Hw & Ht & Hp).
  { cbn. set_solver. }
  destruct (owned_init _ _ (written_owned _ _ _ _ Hw Ho)) as (lg' & Hlg' & _).
  exists b', (Z.of_nat (length (lg_Ops lg')) - 1)%Z. split_and!; [|done..].
  unfold appendTransformRun.
  rewrite (bind_run _ _ _ _ _ Hrun), (bind_run _ _ _ _ _ (BranchLog_Size_run _ _ _ Hlg')). done.
Qed.
End book.
