(* ===== verification/LogbookEdits.v ===== *)
(** * Writes to existing datasets

    The methods of the logbook that write to a dataset or to its branch, as
    the steps of a transition system over books: [edit] names the call with
    its arguments, [run_edit] runs it, [edit_ops] says which operations it
    records. The main lemma, [run_edit_spec], covers every outcome. *)
From S2P Require Export LogbookFacts.

Section edits.
Context `{OpDigest, BookCipher, Entropy} {F P : Type} `{!Filesystem F, !Publisher P}.
Abbreviation Book := (@Book _ F P).
Implicit Types b : Book.

Inductive edit : Type :=
| EDatasetRename (initID newName : string)
| EDatasetDelete (initID : string)
| EVersionSave (initID : string) (ds : Dataset) (rs : option RunState)
| ETransformRun (initID : string) (rs : RunState)
| EVersionAmend (initID : string) (ds : Dataset)
| EVersionDelete (initID : string) (revisions : Z)
| ERemotePush (fuel : nat) (initID : string) (revisions : Z) (remoteAddr : string)
| ERemoteDelete (fuel : nat) (initID : string) (revisions : Z) (remoteAddr : string).

Definition run_edit (e : edit) : stM Book unit :=
  match e with
  | EDatasetRename id n => WriteDatasetRename id n
  | EDatasetDelete id => WriteDatasetDelete id
  | EVersionSave id ds rs => WriteVersionSave id ds rs
  | ETransformRun id rs => WriteTransformRun id rs
  | EVersionAmend id ds => WriteVersionAmend id ds
  | EVersionDelete id n => WriteVersionDelete id n
  | ERemotePush fuel id n addr => WriteRemotePush fuel id n addr;; mret tt
  | ERemoteDelete fuel id n addr => WriteRemoteDelete fuel id n addr;; mret tt
  end.

(** The log the call writes to *)
Definition edit_target (e : edit) : stM Book addr :=
  match e with
  | EDatasetRename id _ | EDatasetDelete id => datasetLog id
  | EVersionSave id _ _ | ETransformRun id _ | EVersionAmend id _ | EVersionDelete id _
  | ERemotePush _ id _ _ | ERemoteDelete _ id _ _ => branchLog id
  end.

(** The operations the call records, at the book's current tick *)
Definition amendOp (ds : Dataset) : list Op :=
  match ds_Commit ds with
  | Some cm => [mkOp OpTypeAmend CommitModel (ds_Path ds) (ds_PreviousPath ds) []
                     "" "" (cm_Timestamp cm) 0 (cm_Title cm)]
  | None => []
  end.

Definition saveOps (ds : Dataset) (rs : option RunState) : list Op :=
  match versionSaveOp ds with
  | Ok op => option_list (transformRunOp <$> rs) ++ [op]
  | _ => []
  end.

Definition edit_ops (e : edit) b : list Op :=
  let ts := NewTimestamp (b_tick b) in
  match e with
  | EDatasetRename _ n => [mkOp OpTypeAmend DatasetModel "" "" [] n "" ts 0 ""]
  | EDatasetDelete _ => [mkOp OpTypeRemove DatasetModel "" "" [] "" "" ts 0 ""]
  | EVersionSave _ ds rs => saveOps ds rs
  | ETransformRun _ rs => [transformRunOp rs]
  | EVersionAmend _ ds => amendOp ds
  | EVersionDelete _ n => [mkOp OpTypeRemove CommitModel "" "" [] "" "" 0 n ""]
  | ERemotePush _ _ n addr => [mkOp OpTypeInit PushModel "" "" [addr] "" "" ts n ""]
  | ERemoteDelete _ _ n addr => [mkOp OpTypeRemove PushModel "" "" [addr] "" "" ts n ""]
  end.

(** ** Computations that leave the store alone *)
Definition keeps {A} (m : stM Book A) : Prop := ∀ b, store_kept b (m b).2.

Lemma store_kept_refl b : store_kept b b.
Proof. done. Qed.

Lemma store_kept_trans b1 b2 b3 : store_kept b1 b2 → store_kept b2 b3 → store_kept b1 b3.
Proof. intros [E1 O1] [E2 O2]. split; [congruence|by eapply same_owner_trans]. Qed.

Lemma keeps_bind {A B} (m : stM Book A) (f : A → stM Book B) :
  keeps m → (∀ a, keeps (f a)) → keeps (m ≫= f).
Proof.
  intros Hm Hf b. specialize (Hm b). unfold mbind, stM_bind.
  destruct (m b) as [[a|e|] b']; cbn in *; [|done..].
  eapply store_kept_trans; [done|apply Hf].
Qed.

Lemma keeps_ret {A} (a : A) : keeps (mret a).
Proof. done. Qed.
Lemma keeps_lift {A} (r : outcome A) : keeps (st_lift r).
Proof. done. Qed.
Lemma keeps_fail {A} e : keeps (A := A) (st_fail e).
Proof. done. Qed.
Lemma keeps_with_store {A} (f : Journal → outcome A) : keeps (with_store f).
Proof. done. Qed.
Lemma keeps_now : keeps now.
Proof. done. Qed.
Lemma keeps_save : keeps save.
Proof. exact save_kept. Qed.
Lemma keeps_publish typ payload : keeps (publish typ payload).
Proof. intros b. apply publish_kept. Qed.
Hint Resolve keeps_ret keeps_lift keeps_fail keeps_with_store keeps_now keeps_save
  keeps_publish keeps_bind : keeps.

(** ** The guard *)
Lemma guarded_run {A} (t : stM Book addr) (k : addr → stM Book A) b :
  (∀ r b', t b = (r, b') → b' = b) →
  (∃ r, (a ← t; hasWriteAccess a;; k a) b = (r, b) ∧ ¬ is_Ok r) ∨
  ∃ a, t b = (Ok a, b) ∧ owned a b ∧ (a ← t; hasWriteAccess a;; k a) b = k a b.
Proof.
  intros Hpure. destruct (t b) as [[a|e|] b'] eqn:Ht; pose proof (Hpure _ _ eq_refl) as ->.
  2,3: left; unfold mbind, stM_bind; rewrite Ht; eexists; split; [reflexivity|by intros []].
  rewrite (bind_run _ _ _ _ _ Ht).
  destruct (hasWriteAccess_cases a b) as [[[_ Ho]|[Hr _]] Hb].
  - right. exists a. split_and!; [done|done|].
    by rewrite (bind_run _ _ _ _ _ (hasWriteAccess_owned _ _ Ho)).
  - left. unfold mbind, stM_bind. destruct (hasWriteAccess a b) as [[?|e|] b']; cbn in *; subst.
    + by destruct Hr.
    + by exists (Error e).
    + by exists Panic.
Qed.

Lemma guarded_denied {A} (t : stM Book addr) (k : addr → stM Book A) b a lg o ops :
  t b = (Ok a, b) → deref a (b_store b) = Ok lg → lg_Ops lg = o :: ops →
  op_AuthorID o ≠ b_authorID b →
  (a ← t; hasWriteAccess a;; k a) b =
    (Error (ErrWrap "%w: you do not have write access" [] ErrAccessDenied), b).
Proof.
  intros Ht Hlg Hops Ho. rewrite (bind_run _ _ _ _ _ Ht). unfold mbind, stM_bind.
  by rewrite (hasWriteAccess_denied _ _ _ _ _ Hlg Hops Ho).
Qed.

(** ** One call *)
(** The log at [a] has been extended by a prefix of the operations [ops] of
    the call, by all of them when the call succeeds. *)
Definition edited {A} (ops : list Op) a b (r : outcome A) b' : Prop :=
  ∃ extra, written a extra b b' ∧ extra `prefix_of` ops ∧ (is_Ok r → extra = ops).

Lemma edited_full {A} ops a b (r : outcome A) b' : written a ops b b' → edited ops a b r b'.
Proof. intros Hw. exists ops. done. Qed.

Lemma edited_none {A} ops a b (r : outcome A) b' :
  written a [] b b' → is_Ok r = false → edited ops a b r b'.
Proof. intros Hw Hr. exists []. split_and!; [done|apply prefix_nil|by rewrite Hr]. Qed.

Lemma tail_keeps {A} (m : stM Book A) ops a b0 b :
  written a ops b0 b → keeps m → wp m (edited ops a b0) b.
Proof. intros Hw Hm. apply edited_full. by eapply written_kept. Qed.

Lemma kept_written a b b' : store_kept b b' → written a [] b b'.
Proof. by apply written_kept, written_refl. Qed.

(** [now] then an append at [a], then a computation that keeps the store *)
Lemma append_then {A} ops a b0 b1 op (app : stM Book unit) (m : stM Book A) :
  store_kept b0 b1 → owned a b1 → (app b1 = append_at a op b1) → ops = [op] → keeps m →
  wp (app;; m) (edited ops a b0) b1.
Proof.
  intros Hk Ho Happ -> Hm. destruct (append_at_written a op b1 Ho) as (b' & Hrun & Hw & _).
  unfold wp. rewrite (bind_run _ _ _ _ _ (eq_trans Happ Hrun)).
  apply tail_keeps; [|done]. rewrite <- (app_nil_l [op]).
  eapply written_trans; [by apply kept_written|done].
Qed.

Lemma now_run {A} (f : Z → stM Book A) b : (now ≫= f) b = f (NewTimestamp (b_tick b)) (tick b).
Proof. done. Qed.

Lemma owned_tick a b : owned a b → owned a (tick b).
Proof. done. Qed.

Lemma DatasetLog_Append_eq a op b :
  op_Model op = DatasetModel → DatasetLog_Append a op b = append_at a op b.
Proof. intros Hm. unfold DatasetLog_Append. by rewrite decide_True. Qed.

Lemma BranchLog_Append_eq a op b :
  op_Model op ∈ [BranchModel; CommitModel; PushModel; RunModel] →
  BranchLog_Append a op b = append_at a op b.
Proof. intros Hm. unfold BranchLog_Append. rewrite decide_True; [done|]. set_solver. Qed.

(** Saving a version, after the guard *)
Definition save_body (initID : string) (ds : Dataset) (rs : option RunState) (a : addr)
    : stM Book unit :=
  record_run a ds rs;;
  topIndex ← appendVersionSave a ds;
  save;;
  let info := ConvertDatasetToVersionInfo ds in
  publish ETDatasetCommitChange (mkDsChange initID topIndex "" "" "" (vi_Path info) (Some info) "").

Lemma record_run_spec a ds rs op b :
  owned a b → versionSaveOp ds = Ok op →
  (∃ b', record_run a ds rs b = (Ok tt, b') ∧
         written a (option_list (transformRunOp <$> rs)) b b' ∧ b_publisher b' = b_publisher b) ∨
  ∃ e, record_run a ds rs b = (Error e, b).
Proof.
  intros Ho Hop. destruct rs as [rs|]; cbn; [|left; eauto using written_refl].
  unfold versionSaveOp in Hop. destruct (ds_Commit ds) as [cm|]; [|done].
  case_decide; [left|right; by eexists].
  destruct (appendTransformRun_written a rs b Ho) as (b' & n & Hrun & Hw & _ & Hp).
  exists b'. by rewrite (bind_run _ _ _ _ _ Hrun).
Qed.

Lemma save_body_edited initID ds rs a b :
  owned a b → wp (save_body initID ds rs a) (edited (saveOps ds rs) a b) b.
Proof.
  intros Ho. unfold saveOps. destruct (versionSaveOp ds) as [op|e|] eqn:Hop.
  2: by unfold versionSaveOp in Hop; destruct (ds_Commit ds).
  - destruct (record_run_spec a ds rs op b Ho Hop) as [(b1 & Hrun & Hw & _)|[e Hrun]].
    + unfold wp, save_body. rewrite (bind_run _ _ _ _ _ Hrun).
      destruct (appendVersionSave_written a ds op b1) as (b2 & n & Hrun2 & Hw2 & _); [|done|].
      { by eapply written_owned. }
      rewrite (bind_run _ _ _ _ _ Hrun2).
      apply tail_keeps; [by eapply written_trans|auto with keeps].
    + unfold wp, save_body, mbind, stM_bind. rewrite Hrun.
      by apply edited_none; [apply written_refl|].
  - unfold wp, save_body, versionSaveOp, record_run, appendVersionSave, mbind, stM_bind in *.
    destruct (ds_Commit ds) eqn:Hc; [done|].
    destruct rs; cbn; unfold versionSaveOp; rewrite ?Hc; cbn.
    all: by apply edited_none; [apply written_refl|].
Qed.

(** Pushing to a remote, after the guard *)
Definition push_body (opType : Z) (fuel : nat) (initID : string) (revisions : Z)
    (remoteAddr : string) (a : addr) : stM Book (option Log) :=
  ts ← now;
  BranchLog_Append a (mkOp opType PushModel "" "" [remoteAddr] "" "" ts revisions "");;
  save;;
  sparse_or_rollback fuel initID.

(** The rollback takes back the last operation of the branch. *)
Lemma rollback_op_run initID a b lg ops op :
  branchLog initID b = (Ok a, b) → deref a (b_store b) = Ok lg → lg_Ops lg = ops ++ [op] →
  rollback_op initID b = save (set_store (store_at a (set_Ops ops lg) (b_store b)) b).
Proof.
  intros Ha Hlg Hops. unfold rollback_op. rewrite (bind_run _ _ _ _ _ Ha).
  unfold with_store, mbind, stM_bind. rewrite Hlg. cbn. by rewrite Hops, slice_to_drop_last.
Qed.

Lemma rollback_written initID a op b0 b :
  branchLog initID b0 = (Ok a, b0) → owned a b0 → written a [op] b0 b →
  written a [] b0 (rollback_op initID b).2.
Proof.
  intros Ha (lg0 & o & ops & Hlg0 & Hops0 & Ho) Hw.
  destruct (edits_deref _ _ _ _ _ (proj1 Hw) Hlg0) as (lg & Hlg & Hops).
  rewrite (rollback_op_run _ a b lg (lg_Ops lg0) op); [|by eapply written_branchLog|done..].
  eapply written_kept; [|apply save_kept]. destruct Hw as [[Happ Hget Hhead Hwf Hlink] Hown].
  assert (lg_Logs (set_Ops (lg_Ops lg0) lg) = lg_Logs lg) as Hlogs by done.
  split; [split|exact Hown]; cbn [b_store set_store].
  - intros x. unfold ops_at, store_at. cbn [j_logs set_j_logs].
    destruct (decide (x = a)) as [->|Hx].
    + rewrite lookup_alter_addr. apply deref_Ok in Hlg as ->. apply deref_Ok in Hlg0 as ->.
      cbn. by rewrite app_nil_r.
    + rewrite lookup_alter_addr_ne; [|intros l Hl; apply deref_Ok in Hlg; cbn; congruence|done].
      specialize (Happ x). unfold ops_at in Happ. rewrite Happ.
      destruct (lookup_addr x (j_logs (b_store b0))); cbn; [|done]. by rewrite decide_False.
  - intros id. rewrite <- Hget. eapply Get_store_at; [done| |done].
    unfold ID. cbn. by rewrite Hops, Hops0.
  - intros names Hlen. rewrite <- Hhead by done. by apply headref_addr_alter.
  - intros Hj. specialize (Hwf Hj). apply wf_store_at; [done|].
    apply wf_set_ops; [rewrite Hops0; discriminate|]. exact (wf_deref _ _ _ Hwf Hlg).
  - intros Hj%Hlink. apply (linked_store_at a lg); [done..| |done].
    split_and!; [|done|by left]. unfold ID. cbn. by rewrite Hops, Hops0.
Qed.

Lemma UserDatasetBranchesLog_written fuel initID a b :
  written a [] b (UserDatasetBranchesLog fuel initID b).2.
Proof.
  unfold UserDatasetBranchesLog. case_decide; [apply written_refl|].
  unfold mbind, stM_bind, st_zoom, with_store. pose proof (sparse_edits a fuel initID (b_store b)) as Hed.
  by destruct (GetWithSparseAncestorsAllDescendants _ _ _) as [[a'|e|] j].
Qed.

(** In a linked store, with a unit of fuel per ancestor, it ends. *)
Lemma UserDatasetBranchesLog_no_panic fuel initID a b :
  linked (b_store b) → Journal_Get initID (b_store b) = Ok a → length a ≤ S fuel →
  (UserDatasetBranchesLog fuel initID b).1 ≠ Panic.
Proof.
  intros Hj Hget Hlen. unfold UserDatasetBranchesLog. case_decide; [done|].
  unfold mbind, stM_bind, st_zoom, with_store.
  pose proof (GetWithSparse_linked fuel initID a _ Hj Hget) as Hsp. unfold wp in Hsp.
  destruct (GetWithSparseAncestorsAllDescendants _ _ _) as [[a'|e|] j]; cbn in *; [|tauto|lia].
  destruct Hsp as (Hlj & -> & [lg Hlg]). unfold Parent.
  rewrite (proj2 (deref_Ok _ _ _) Hlg). cbn.
  destruct (lg_parent lg) eqn:Hp; [done| |done].
  destruct a as [|i a] using rev_ind; [done|]. destruct (decide (a = [])) as [->|Ha].
  { by destruct (linked_root _ Hlj i lg Hlg). }
  destruct (linked_child _ Hlj a i lg Ha Hlg) as (p & Hlp & _).
  rewrite removelast_last. by rewrite (proj2 (deref_Ok _ _ _) Hlp).
Qed.

Lemma UserDatasetBranchesLog_Error fuel initID b e b' :
  UserDatasetBranchesLog fuel initID b = (Error e, b') → written [] [] b b'.
Proof.
  intros Hrun. pose proof (UserDatasetBranchesLog_written fuel initID [] b) as Hw.
  by rewrite Hrun in Hw.
Qed.

Lemma push_body_edited opType fuel initID n addr a b :
  branchLog initID b = (Ok a, b) → owned a b →
  wp (push_body opType fuel initID n addr a)
     (edited [mkOp opType PushModel "" "" [addr] "" "" (NewTimestamp (b_tick b)) n ""] a b) b.
Proof.
  intros Ha Ho. set (op := mkOp _ _ _ _ _ _ _ _ _ _).
  destruct (append_at_written a op (tick b)) as (b1 & Hrun & Hw & _); [done|].
  unfold wp, push_body. rewrite now_run.
  rewrite (bind_run (BranchLog_Append a op) _ (tick b) tt b1); [|by rewrite BranchLog_Append_eq by set_solver].
  assert (written a [op] b (save b1).2) as Hw2.
  { eapply written_kept; [|apply save_kept]. exact Hw. }
  unfold mbind, stM_bind. destruct (save b1) as [[?|e|] b2]; cbn in Hw2 |- *.
  2,3: by apply edited_full.
  unfold sparse_or_rollback. pose proof (UserDatasetBranchesLog_written fuel initID a b2) as Hw3.
  destruct (UserDatasetBranchesLog fuel initID b2) as [[l|e|] b3] eqn:Hsp; cbn in Hw3 |- *.
  1,3: apply edited_full; rewrite <- (app_nil_r [op]); by eapply written_trans.
  assert (written a [op] b b3) as Hw4.
  { rewrite <- (app_nil_r [op]). by eapply written_trans. }
  pose proof (rollback_written initID a op b b3 Ha Ho Hw4) as Hw5.
  by destruct (rollback_op initID b3) as [[?|e'|] b4]; apply edited_none.
Qed.

Lemma edit_target_pure e b r b' : edit_target e b = (r, b') → b' = b.
Proof. destruct e; cbn; apply branchLog_pure || apply datasetLog_pure. Qed.

(** A call that stops at a check, or reaches the log it writes to. *)
Definition refused e b : Prop := ∃ r, run_edit e b = (r, b) ∧ ¬ is_Ok r.
Definition performed e b : Prop :=
  ∃ a, edit_target e b = (Ok a, b) ∧ owned a b ∧
       edited (edit_ops e b) a b (run_edit e b).1 (run_edit e b).2.

Lemma guarded_edit {A} (t : stM Book addr) (k : addr → stM Book A) ops b :
  (∀ r b', t b = (r, b') → b' = b) →
  (∀ a, t b = (Ok a, b) → owned a b → wp (k a) (edited ops a b) b) →
  let m := (a ← t; hasWriteAccess a;; k a) in
  (∃ r, m b = (r, b) ∧ ¬ is_Ok r) ∨
  ∃ a, t b = (Ok a, b) ∧ owned a b ∧ edited ops a b (m b).1 (m b).2.
Proof.
  intros Hpure Hk m. destruct (guarded_run t k b Hpure) as [Href|(a & Ht & Ho & Hrun)].
  - by left.
  - right. exists a. split_and!; [done..|]. unfold m. rewrite Hrun. by apply Hk.
Qed.

(** [m;; mret tt] answers as [m] does. *)
Lemma discard_edited {A} (m : stM Book A) ops a b b0 :
  edited ops a b0 (m b).1 (m b).2 → edited ops a b0 ((m;; mret tt) b).1 ((m;; mret tt) b).2.
Proof. unfold mbind, stM_bind. by destruct (m b) as [[x|e|] b']. Qed.

Lemma discard_refused {A} (m : stM Book A) b :
  (∃ r, m b = (r, b) ∧ ¬ is_Ok r) → ∃ r, (m;; mret tt) b = (r, b) ∧ ¬ is_Ok r.
Proof. unfold mbind, stM_bind. intros (r & -> & Hr). destruct r as [x|e|]; [done|eauto..]. Qed.

Lemma push_edit_spec opType fuel initID n addr b :
  let ops := [mkOp opType PushModel "" "" [addr] "" "" (NewTimestamp (b_tick b)) n ""] in
  let m := (write_remote opType fuel initID n addr;; mret tt) in
  (∃ r, m b = (r, b) ∧ ¬ is_Ok r) ∨
  ∃ a, branchLog initID b = (Ok a, b) ∧ owned a b ∧ edited ops a b (m b).1 (m b).2.
Proof.
  intros ops m.
  destruct (guarded_edit (branchLog initID) (push_body opType fuel initID n addr) ops b)
    as [Href|(a & Ha & Ho & He)].
  - apply branchLog_pure.
  - intros a Ha Ho. by apply push_body_edited.
  - left. by apply discard_refused.
  - right. exists a. split_and!; [done..|]. by apply discard_edited.
Qed.

(** The bodies that append one operation and then keep the store *)
Lemma append_dataset_then ops a b0 b1 op (m : stM Book unit) :
  store_kept b0 b1 → owned a b1 → op_Model op = DatasetModel → ops = [op] → keeps m →
  wp (DatasetLog_Append a op;; m) (edited ops a b0) b1.
Proof. intros. eapply append_then; eauto using DatasetLog_Append_eq. Qed.

Lemma append_branch_then ops a b0 b1 op (m : stM Book unit) :
  store_kept b0 b1 → owned a b1 → op_Model op ∈ [BranchModel; CommitModel; PushModel; RunModel] →
  ops = [op] → keeps m → wp (BranchLog_Append a op;; m) (edited ops a b0) b1.
Proof. intros. eapply append_then; eauto using BranchLog_Append_eq. Qed.

Lemma run_body_edited a rs b :
  owned a b → wp (appendTransformRun a rs;; save) (edited [transformRunOp rs] a b) b.
Proof.
  intros Ho. destruct (appendTransformRun_written a rs b Ho) as (b1 & n & Hrun & Hw & _).
  unfold wp. rewrite (bind_run _ _ _ _ _ Hrun). by apply tail_keeps; [|apply keeps_save].
Qed.

Lemma amend_body_edited a ds b :
  owned a b →
  wp (match ds_Commit ds with
      | None => st_lift Panic
      | Some cm =>
          BranchLog_Append a (mkOp OpTypeAmend CommitModel (ds_Path ds) (ds_PreviousPath ds) []
                                "" "" (cm_Timestamp cm) 0 (cm_Title cm))
      end;; save) (edited (amendOp ds) a b) b.
Proof.
  intros Ho. unfold amendOp. destruct (ds_Commit ds) as [cm|].
  - apply append_branch_then; [done|done|set_solver|done|apply keeps_save].
  - by apply edited_none; [apply written_refl|].
Qed.

Lemma delete_tail_keeps initID a :
  keeps (br ← with_store (deref a);
         items ← st_lift (branchToVersionInfos br zero_Ref 0 (-1) false);
         match last items with
         | Some lastItem =>
             publish ETDatasetCommitChange
               (mkDsChange initID (Z.of_nat (length items)) "" "" "" (vi_Path lastItem) (Some lastItem) "")
         | None => mret tt
         end;;
         save).
Proof.
  apply keeps_bind; [apply keeps_with_store|]. intros br.
  apply keeps_bind; [apply keeps_lift|]. intros items.
  apply keeps_bind; [|intros; apply keeps_save]. case_match; auto with keeps.
Qed.

(** Every call either stops at one of its checks and changes nothing, or
    writes to a log whose first operation is by the book's author. *)
Lemma run_edit_spec e b : refused e b ∨ performed e b.
Proof.
  destruct e as [id n|id|id ds rs|id rs|id ds|id n|fuel id n addr|fuel id n addr]; unfold refused, performed.
  1: { cbn. unfold WriteDatasetRename. destruct (IsValidName n); cbn.
       2: left; by eexists; split; [done|intros []].
       apply guarded_edit; [apply datasetLog_pure|]. intros a _ Ho. unfold wp. rewrite now_run.
       apply append_dataset_then; auto with keeps. }
  1: { apply guarded_edit; [apply datasetLog_pure|]. intros a _ Ho. unfold wp. rewrite now_run.
       apply append_dataset_then; auto with keeps. }
  5,6: apply push_edit_spec.
  all: apply guarded_edit; [apply branchLog_pure|]; intros a Ha Ho.
  - by apply save_body_edited.
  - by apply run_body_edited.
  - by apply amend_body_edited.
  - apply append_branch_then; [done|done|set_solver|done|apply delete_tail_keeps].
Qed.

(** ** Runs of calls *)
Inductive step b : Book → Prop := step_edit e : step b (run_edit e b).2.

Lemma step_spec b b' : step b b' → b' = b ∨ ∃ a extra, owned a b ∧ written a extra b b'.
Proof.
  intros [e]. destruct (run_edit_spec e b) as [(r & -> & _)|(a & _ & Ho & extra & Hw & _)].
  - by left.
  - right. by exists a, extra.
Qed.

(** Reading the operations at an address, before and after a write *)
Lemma written_ops_at a extra b b' x :
  written a extra b b' →
  ops_at x (b_store b') =
    (λ ops, if decide (x = a) then ops ++ extra else ops) <$> ops_at x (b_store b).
Proof. intros [He _]. apply (edits_appended _ _ _ _ He). Qed.

Lemma owned_ops a b :
  owned a b → ∃ o ops, ops_at a (b_store b) = Some (o :: ops) ∧ op_AuthorID o = b_authorID b.
Proof.
  intros (lg & o & ops & Hlg%deref_ops & Hops & Ho). rewrite Hops in Hlg. by exists o, ops.
Qed.

Lemma step_ops b b' x ops :
  step b b' → ops_at x (b_store b) = Some ops → ∃ extra, ops_at x (b_store b') = Some (ops ++ extra).
Proof.
  intros [->|(a & extra & _ & Hw)]%step_spec Hx; [exists []; by rewrite app_nil_r|].
  rewrite (written_ops_at _ _ _ _ x Hw), Hx. cbn. case_decide; [by eexists|].
  exists []. by rewrite app_nil_r.
Qed.

Lemma step_no_new b b' x : step b b' → ops_at x (b_store b) = None → ops_at x (b_store b') = None.
Proof.
  intros [->|(a & extra & _ & Hw)]%step_spec Hx; [done|].
  by rewrite (written_ops_at _ _ _ _ x Hw), Hx.
Qed.

Lemma step_owner b b' : step b b' → same_owner b b'.
Proof. intros [->|(a & extra & _ & _ & Hw)]%step_spec; done. Qed.

Lemma step_foreign b b' x o ops :
  step b b' → ops_at x (b_store b) = Some (o :: ops) → op_AuthorID o ≠ b_authorID b →
  ops_at x (b_store b') = Some (o :: ops).
Proof.
  intros [->|(a & extra & Ho & Hw)]%step_spec Hx Hne; [done|].
  rewrite (written_ops_at _ _ _ _ x Hw), Hx. cbn. case_decide as Hd; [|done].
  subst. apply owned_ops in Ho as (o' & ops' & Ha & Hauth). congruence.
Qed.

Lemma step_wf b b' : step b b' → wf_journal (b_store b) → wf_journal (b_store b').
Proof. intros [->|(a & extra & _ & [He _])]%step_spec; [done|apply (edits_wf _ _ _ _ He)]. Qed.

Lemma step_linked b b' : step b b' → linked (b_store b) → linked (b_store b').
Proof. intros [->|(a & extra & _ & [He _])]%step_spec; [done|apply (edits_linked _ _ _ _ He)]. Qed.

Lemma step_Get b b' id :
  step b b' → Journal_Get id (b_store b') = Journal_Get id (b_store b).
Proof. intros [->|(a & extra & _ & [He _])]%step_spec; [done|apply (edits_Get _ _ _ _ He)]. Qed.

(** ** Calls that succeed *)

(** Publishing that ends: no subscriber panics. *)
Definition publishes (typ : string) (p : P) : Prop := ∀ payload, (Publish typ payload p).1 ≠ Panic.
Definition publisher_ok : Prop := ∀ typ payload (p : P), (Publish typ payload p).1 ≠ Panic.

Lemma publish_at typ payload b :
  publishes typ (b_publisher b) → publish typ payload b =
    (Ok tt, set_publisher (Publish typ payload (b_publisher b)).2 b).
Proof.
  intros Hp. specialize (Hp payload). unfold publish.
  by destruct (Publish typ payload (b_publisher b)) as [[] ?].
Qed.

Lemma publish_run typ payload b :
  publisher_ok → publish typ payload b =
    (Ok tt, set_publisher (Publish typ payload (b_publisher b)).2 b).
Proof. intros Hp. by apply publish_at; intros ?. Qed.

Lemma save_publisher b : b_publisher (save b).2 = b_publisher b.
Proof. unfold save. repeat case_match; done. Qed.

Lemma save_run b k :
  wf_journal (b_store b) → cipher (b_pk b) = Ok k → save b = (Ok tt, (save b).2).
Proof. intros Hwf Hk. rewrite (surjective_pairing (save b)) at 1. by rewrite (save_Ok b k). Qed.

Lemma WriteVersionSave_run initID ds rs cm a lg b k :
  publishes ETDatasetCommitChange (b_publisher b) → wf_journal (b_store b) → cipher (b_pk b) = Ok k →
  branchLog initID b = (Ok a, b) → owned a b → deref a (b_store b) = Ok lg →
  ds_Commit ds = Some cm → (∀ r, rs = Some r → rs_ID r = cm_RunID cm) →
  ∃ b' lg' op, WriteVersionSave initID ds rs b = (Ok tt, b') ∧
    versionSaveOp ds = Ok op ∧
    written a (option_list (transformRunOp <$> rs) ++ [op]) b b' ∧
    deref a (b_store b') = Ok lg' ∧
    lg_Ops lg' = lg_Ops lg ++ option_list (transformRunOp <$> rs) ++ [op] ∧
    latestSavePath lg' = ds_Path ds ∧
    b_publisher b' =
      (Publish ETDatasetCommitChange
         (mkDsChange initID (Z.of_nat (length (lg_Ops lg')) - 1) "" "" "" (ds_Path ds)
            (Some (ConvertDatasetToVersionInfo ds)) "") (b_publisher b)).2.
Proof.
  intros Hpub Hwf Hk Ha Ho Hlg Hcm Hrs.
  assert (∃ op, versionSaveOp ds = Ok op ∧ op_Ref op = ds_Path ds ∧ op_Model op = CommitModel ∧
    op_Type op = OpTypeInit) as (op & Hop & Href & Hm & Ht).
  { unfold versionSaveOp. rewrite Hcm. eexists. split; [done|]. done. }
  assert (∃ b1, record_run a ds rs b = (Ok tt, b1) ∧
    written a (option_list (transformRunOp <$> rs)) b b1 ∧ b_publisher b1 = b_publisher b)
    as (b1 & Hrun & Hw1 & Hp1).
  { destruct rs as [r|]; cbn; [|eauto using written_refl].
    rewrite Hcm, decide_True by eauto.
    destruct (appendTransformRun_written a r b Ho) as (b1 & n & Hr1 & Hw1 & _ & Hp1).
    exists b1. by rewrite (bind_run _ _ _ _ _ Hr1). }
  destruct (appendVersionSave_written a ds op b1) as (b2 & n & Hrun2 & Hw2 & _ & Hp2 & lg' & Hlg' & ->).
  { by eapply written_owned. } { done. }
  pose proof (written_trans _ _ _ _ _ _ Hw1 Hw2) as Hw.
  destruct (edits_deref _ _ _ _ _ (proj1 Hw) Hlg) as (lg2 & Hlg2 & Hops2).
  assert (lg2 = lg') as -> by congruence.
  destruct (save_kept b2) as [Hs3 Hown3]. set (b3 := (save b2).2) in *.
  assert (save b2 = (Ok tt, b3)) as Hsave.
  { rewrite (surjective_pairing (save b2)). f_equal. apply (save_Ok b2 k).
    - apply (edits_wf _ _ _ _ (proj1 Hw) Hwf).
    - by destruct Hw as [_ (_ & -> & _)]. }
  eexists _, lg', op. split_and!.
  - unfold WriteVersionSave. rewrite (bind_run _ _ _ _ _ Ha).
    rewrite (bind_run _ _ _ _ _ (hasWriteAccess_owned _ _ Ho)), (bind_run _ _ _ _ _ Hrun).
    rewrite (bind_run _ _ _ _ _ Hrun2), (bind_run _ _ _ _ _ Hsave).
    assert (b_publisher b3 = b_publisher b) as Hp3 by (unfold b3; by rewrite save_publisher, Hp2, Hp1).
    by rewrite publish_at by (by rewrite Hp3).
  - done.
  - eapply written_kept; [done|]. by split.
  - cbn. by rewrite Hs3.
  - done.
  - unfold latestSavePath. rewrite Hops2, !reverse_app. cbn.
    rewrite Hm, Ht. cbn. by rewrite Href.
  - cbn [b_publisher set_publisher]. unfold b3. rewrite save_publisher, Hp2, Hp1.
    by destruct ds.
Qed.

(** A saved version is what the name of its dataset resolves to. *)
Lemma saved_resolves initID ds rs cm d dl lg b b' k username name profileID :
  publishes ETDatasetCommitChange (b_publisher b) → wf_journal (b_store b) → cipher (b_pk b) = Ok k →
  Journal_HeadRef [username; name] (b_store b) = Ok d → deref d (b_store b) = Ok dl → ID dl = initID →
  Journal_Get initID (b_store b) = Ok d → length (lg_Logs dl) = 1 →
  owned (d ++ [0]) b → deref (d ++ [0]) (b_store b) = Ok lg →
  ds_Commit ds = Some cm → (∀ r, rs = Some r → rs_ID r = cm_RunID cm) → profileID ≠ "" →
  WriteVersionSave initID ds rs b = (Ok tt, b') →
  Book_ResolveRef (Some b') (mkRef "" username profileID name "") =
    (Ok "", mkRef initID username profileID name (ds_Path ds)).
Proof.
  intros Hpub Hwf Hk Hhead Hdl Hid Hget Hone Ho Hlg Hcm Hrs Hpid Hrun.
  assert (branchLog initID b = (Ok (d ++ [0]), b)) as Ha.
  { apply branchLog_Ok. split; [done|]. exists d, dl. done. }
  destruct (WriteVersionSave_run initID ds rs cm _ lg b k Hpub Hwf Hk Ha Ho Hlg Hcm Hrs)
    as (b1 & lg' & op & Hrun1 & _ & Hw & Hlg' & _ & Hpath & _).
  assert (b1 = b') as -> by congruence. clear Hrun Hrun1.
  pose proof (written_branchLog _ _ _ _ _ _ Hw Ha) as Ha'.
  assert (length d = 2) as Hlen.
  { destruct (headref_addr_named [username; name] (j_logs (b_store b)) d) as [l Hp]; [done..|].
    by apply named_path_length in Hp. }
  assert (Journal_HeadRef [username; name] (b_store b') = Ok d) as Hhead'.
  { rewrite <- Hhead. cbn -[headref_addr]. apply (edits_HeadRef _ _ _ _ (proj1 Hw)).
    rewrite length_app, Hlen. cbn. lia. }
  assert (∃ dl', deref d (b_store b') = Ok dl' ∧ ID dl' = initID) as (dl' & Hdl' & Hid').
  { rewrite <- (edits_Get _ _ _ _ (proj1 Hw)) in Hget.
    destruct (Get_sound _ _ _ Hget) as (x & Hx & Hxid & _). by exists x. }
  unfold Book_ResolveRef, RefToInitID. cbn [ref_Username ref_Name fst]. rewrite Hhead'. cbn [fst].
  rewrite Hdl'. cbn -[branchLog]. rewrite Hid'.
  unfold resolve_path, resolve_profile. cbn -[branchLog]. rewrite Ha'. cbn -[branchLog].
  rewrite Hlg'. cbn -[branchLog]. rewrite (decide_False (P := profileID = "")) by done. by rewrite Hpath.
Qed.

(** Taking back the last operation of a branch succeeds. *)
Lemma rollback_op_Ok initID a op b0 b k :
  wf_journal (b_store b0) → cipher (b_pk b0) = Ok k →
  branchLog initID b0 = (Ok a, b0) → owned a b0 → written a [op] b0 b →
  ∃ b', rollback_op initID b = (Ok tt, b') ∧ written a [] b0 b'.
Proof.
  intros Hwf Hk Ha Ho Hw. exists (rollback_op initID b).2.
  pose proof (rollback_written initID a op b0 b Ha Ho Hw) as Hw'. split; [|done].
  destruct Ho as (lg0 & o & ops & Hlg0 & Hops0 & Ho).
  destruct (edits_deref _ _ _ _ _ (proj1 Hw) Hlg0) as (lg & Hlg & Hops).
  pose proof (rollback_op_run initID a b lg (lg_Ops lg0) op (written_branchLog _ _ _ _ _ _ Hw Ha) Hlg Hops)
    as Hrun.
  set (b1 := set_store _ b) in *. rewrite Hrun in *. apply (save_run b1 k).
  - destruct (save_kept b1) as [Hs _]. rewrite <- Hs. by apply (edits_wf _ _ _ _ (proj1 Hw')).
  - destruct Hw as [_ (_ & Hpk & _)]. subst b1. cbn. by rewrite Hpk.
Qed.
End edits.
