(* ===== verification/Instances.v ===== *)
(** * Concrete instances of the development's parameters

    Small executable stand-ins for what the code takes from other
    repositories: the digest of an operation, the cipher and byte format of a
    journal, a filesystem, an event publisher, a clock. Each satisfies the laws
    its class states. The witnesses compute with them. *)
From S2P Require Export Logbook JournalFacts.

Module Demo.

(** ** Digest: 32 bytes taken from the fields of the operation *)
Definition pad32 (s : string) : string :=
  of_bytes (take 32 (bytes s ++ replicate 32 "."%char)).

#[export] Instance digest : OpDigest := {|
  fb_finish_Operation o :=
    strconv_Itoa (fbo_model o) +:+ fbo_name o +:+ "/" +:+ strconv_Itoa (fbo_timestamp o) +:+
    "/" +:+ fbo_authorID o +:+ fbo_ref o;
  blake2b_Sum256 := pad32;
|}.

Lemma length_of_bytes l : String.length (of_bytes l) = length l.
Proof. induction l; cbn; congruence. Qed.

#[export] Instance digest_laws : OpDigestLaws digest.
Proof.
  intros s. cbn. unfold pad32. rewrite length_of_bytes, length_take, length_app, length_replicate. lia.
Qed.

(** ** Byte format of a journal, by counting *)
Definition op_tuple (o : FbOperation) :=
  (fbo_type o, fbo_model o, fbo_ref o, fbo_relations o, fbo_prev o,
   fbo_name o, fbo_authorID o, fbo_timestamp o, fbo_size o, fbo_note o).
Definition tuple_op '(t, m, r, rel, p, n, a, ts, sz, nt) : FbOperation :=
  mkFbOperation t m r rel p n a ts sz nt.

#[export] Instance FbOperation_eq_dec : EqDecision FbOperation.
Proof. solve_decision. Defined.
#[export] Instance FbOperation_countable : Countable FbOperation.
Proof. apply (inj_countable' op_tuple tuple_op). by intros []. Defined.

Abbreviation node := (string * string * string * list FbOperation)%type.
Fixpoint to_tree (l : FbLog) : gen_tree node :=
  GenNode 0 (GenLeaf (fbl_name l, fbl_identifier l, fbl_signature l, fbl_opset l)
             :: map to_tree (fbl_logs l)).
Fixpoint of_tree (t : gen_tree node) : FbLog :=
  match t with
  | GenNode _ (GenLeaf (n, i, s, o) :: ts) => mkFbLog n i s o (map of_tree ts)
  | _ => mkFbLog "" "" "" [] []
  end.

Fixpoint of_to_tree (l : FbLog) : of_tree (to_tree l) = l.
Proof.
  destruct l as [n i s o ls]. cbn. f_equal. rewrite map_map.
  induction ls as [|x ls IH]; cbn; [done|]. rewrite IH. by rewrite of_to_tree.
Qed.

Definition finish_book (b : FbBook) : string :=
  bits_of (encode (fbb_identifier b, map to_tree (fbb_logs b))).
Definition root_book (s : string) : FbBook :=
  match decode (A := string * list (gen_tree node)) (of_bits s) with
  | Some (i, ts) => mkFbBook i (map of_tree ts)
  | None => mkFbBook "" []
  end.

(** ** Cipher: the key and the nonce in front of the plain text *)
Definition open_with (k n d : string) : outcome string :=
  match strip_prefix k d with
  | Some d => Ok d
  | None => Error (Errorf "cipher: message authentication failed" [])
  end.

#[export] Instance bookcipher : BookCipher := {|
  PrivKey := string;
  pk_Raw pk := Ok pk;
  md5_hex s := s;
  gcm_NonceSize := 2;
  gcm_Seal k n d := k +:+ d;
  gcm_Open := open_with;
  fb_finish_Book := finish_book;
  fb_root_Book := root_book;
|}.

#[export] Instance bookcipher_laws : BookCipherLaws bookcipher.
Proof.
  split.
  - intros k n d. cbn. unfold open_with. by rewrite (proj2 (strip_prefix_Some k _ d) eq_refl).
  - intros [i ls]. cbn. unfold root_book, finish_book. rewrite of_bits_of, decode_encode. cbn.
    f_equal. rewrite map_map. induction ls as [|l ls IH]; cbn; [done|]. by rewrite of_to_tree, IH.
Qed.

(** ** World *)
#[export] Instance entropy : Entropy := {|
  NewTimestamp n := Z.of_nat n;
  rand_nonce _ := "nn";
|}.

#[export] Instance filesystem : Filesystem (gmap string string) := {|
  fs_Get m loc := of_option (Error (ErrSentinel "not found")) (m !! loc);
  fs_Put m loc data := ((loc, None), <[loc := data]> m);
|}.

Abbreviation events := (list (string * DsChange)).
#[export] Instance publisher : Publisher events := λ typ payload evs,
  (Ok tt, evs ++ [(typ, payload)]).

(** A filesystem whose writes fail *)
Inductive broken : Type := Broken.
#[export] Instance broken_fs : Filesystem broken := {|
  fs_Get _ _ := Error (ErrSentinel "not found");
  fs_Put _ _ _ := (("", Some (Errorf "no space left on device" [])), Broken);
|}.

(** A filesystem that keeps nothing: the books below stay small *)
Inductive sink : Type := Sink.
#[export] Instance sink_fs : Filesystem sink := {|
  fs_Get _ _ := Error (ErrSentinel "not found");
  fs_Put _ loc _ := ((loc, None), Sink);
|}.

(** ** A session: a new book, a dataset, a saved version *)
Abbreviation book := (@Book bookcipher sink events).

Definition empty_book : book := mkBook (mkJournal "" []) "k" "" "alice" "loc" Sink [] 0.

Definition new_book : book := Eval vm_compute in (NewJournal (Ok "QmAlice") empty_book).2.

Definition inited : book := Eval vm_compute in (WriteDatasetInit "cities" new_book).2.
Definition cities_id : string := Eval vm_compute in
  match WriteDatasetInit "cities" new_book with (Ok id, _) => id | _ => "" end.

Definition commit (t : Z) (title : string) : Commit := mkCommit t title "" "".
Definition version (path prev : string) (t : Z) : Dataset :=
  mkDataset "" "" "cities" path prev 0 (Some (commit t "edit")) None None.

(** One saved version, then three *)
Definition saved : book := Eval vm_compute in
  (WriteVersionSave cities_id (version "/ipfs/Qm1" "" 10) None inited).2.
Definition saved3 : book := Eval vm_compute in
  ((WriteVersionSave cities_id (version "/ipfs/Qm2" "/ipfs/Qm1" 20) None;;
    WriteVersionSave cities_id (version "/ipfs/Qm3" "/ipfs/Qm2" 30) None) saved).2.

(** ** Another author's log, merged into the book *)
Definition bob_book : book := Eval vm_compute in
  let b := mkBook (mkJournal "" []) "k2" "" "bob" "loc" Sink [] 7 : book in
  (WriteDatasetInit "birds" (NewJournal (Ok "QmBob") b).2).2.
Definition bob_log : Log := Eval vm_compute in
  default (InitLog zero_Op) (j_logs (b_store bob_book) !! 0).
Definition birds : Log := Eval vm_compute in
  default (InitLog zero_Op) (lookup_addr [0; 0] (j_logs (b_store bob_book))).
Definition birds_id : string := Eval vm_compute in ID birds.
Definition shared : book := Eval vm_compute in (Book_MergeLog (Ok tt) bob_log saved).2.

(** ** Two replicas of Bob's log: one renamed the author, the other saved a
    version; together they are [replica_u]. *)
Definition bob_rename : Op := mkOp OpTypeAmend AuthorModel "" "" [] "robert" "" 20 0 "".
Definition bob_save : Op := mkOp OpTypeInit CommitModel "/ipfs/QmB" "" [] "" "" 21 0 "first".

Definition replica_l : Log := Eval vm_compute in
  set_Logs (alter_addr (λ br, set_Ops (lg_Ops br ++ [bob_save]) br) [0; 0] (lg_Logs bob_log)) bob_log.
Definition replica_r : Log := Eval vm_compute in set_Ops (lg_Ops bob_log ++ [bob_rename]) bob_log.
Definition replica_u : Log := Eval vm_compute in set_Ops (lg_Ops bob_log ++ [bob_rename]) replica_l.
End Demo.
