(* ===== verification/Bus.v ===== *)
(** * The event bus (src/event/event.go)

    Subscribers register by event type, by session or for everything;
    publishing calls them in turn. Handlers act on a world [W] of their own.
    The bus is what a logbook publishes to: [bus_publisher]. *)
From S2P Require Export Logbook.

Definition ErrBusClosed : error := ErrSentinel "event bus is closed".

Section bus.
Context {Payload W : Type}.

(** [type Event struct] *)
Record Event : Type := mkEvent {
  ev_Type : string;
  ev_Timestamp : Z;
  ev_SessionID : string;
  ev_Payload : Payload;
}.

(** [type Handler func(ctx, e Event) error] *)
Definition Handler : Type := Event → stM W unit.

(** [type bus struct]; a key that is not in a map reads as no handlers. *)
Record bus : Type := mkBus {
  bus_closed : bool;
  bus_subs : gmap string (list Handler);
  bus_allSubs : list Handler;
  bus_idSubs : gmap string (list Handler);
}.

Definition handlers_at (k : string) (m : gmap string (list Handler)) : list Handler :=
  default [] (m !! k).
Definition add_handler (h : Handler) (k : string) (m : gmap string (list Handler)) :=
  <[k := handlers_at k m ++ [h]]> m.

(** [NewBus], and the goroutine that waits for its context to end *)
Definition NewBus : bus := mkBus false ∅ [] ∅.
Definition bus_close (b : bus) : bus := mkBus true (bus_subs b) (bus_allSubs b) (bus_idSubs b).

(** A loop over handlers that returns the first error *)
Fixpoint run_handlers (hs : list Handler) (e : Event) : stM W unit :=
  match hs with
  | [] => mret tt
  | h :: hs' => h e;; run_handlers hs' e
  end.

(** [bus.publish] at time [now] *)
Definition bus_publish (now : Z) (typ sessionID : string) (payload : Payload) (b : bus) : stM W unit :=
  if bus_closed b then st_fail ErrBusClosed
  else
    let e := mkEvent typ now sessionID payload in
    run_handlers (handlers_at typ (bus_subs b)) e;;
    (if decide (sessionID ≠ "") then run_handlers (handlers_at sessionID (bus_idSubs b)) e else mret tt);;
    run_handlers (bus_allSubs b) e.

(** [bus.Publish] and [bus.PublishID] *)
Definition bus_Publish (now : Z) (typ : string) (payload : Payload) (b : bus) : stM W unit :=
  bus_publish now typ "" payload b.
Definition bus_PublishID (now : Z) (typ sessionID : string) (payload : Payload) (b : bus) : stM W unit :=
  bus_publish now typ sessionID payload b.

(** [bus.SubscribeTypes], [bus.SubscribeID] and [bus.SubscribeAll] *)
Definition SubscribeTypes (h : Handler) (eventTypes : list string) (b : bus) : bus :=
  mkBus (bus_closed b) (foldl (λ m typ, add_handler h typ m) (bus_subs b) eventTypes)
    (bus_allSubs b) (bus_idSubs b).
Definition SubscribeID (h : Handler) (sessionID : string) (b : bus) : bus :=
  mkBus (bus_closed b) (bus_subs b) (bus_allSubs b) (add_handler h sessionID (bus_idSubs b)).
Definition SubscribeAll (h : Handler) (b : bus) : bus :=
  mkBus (bus_closed b) (bus_subs b) (bus_allSubs b ++ [h]) (bus_idSubs b).

(** [bus.NumSubscribers] *)
Definition count_handlers (m : gmap string (list Handler)) : nat :=
  map_fold (λ _ hs n, n + length hs) 0 m.
Definition NumSubscribers (b : bus) : nat :=
  count_handlers (bus_subs b) + count_handlers (bus_idSubs b) + length (bus_allSubs b).

(** ** What a bus calls *)

(** The handlers an event reaches, in the order they are called *)
Definition receivers (typ sessionID : string) (b : bus) : list Handler :=
  handlers_at typ (bus_subs b) ++
  (if decide (sessionID ≠ "") then handlers_at sessionID (bus_idSubs b) else []) ++
  bus_allSubs b.

Lemma run_handlers_app hs hs' e w :
  run_handlers (hs ++ hs') e w = (run_handlers hs e;; run_handlers hs' e) w.
Proof.
  revert w. induction hs as [|h hs IH]; intros w; [done|]. cbn.
  unfold mbind, stM_bind in *. destruct (h e w) as [[[]|err|] w']; [|done..]. apply IH.
Qed.

Lemma bus_publish_receivers now typ sid payload b w :
  bus_closed b = false →
  bus_publish now typ sid payload b w =
    run_handlers (receivers typ sid b) (mkEvent typ now sid payload) w.
Proof.
  intros Hopen. unfold bus_publish, receivers. rewrite Hopen, run_handlers_app.
  unfold mbind, stM_bind. destruct (run_handlers _ _ w) as [[[]|err|] w']; [|done..].
  rewrite run_handlers_app. unfold mbind, stM_bind. by case_decide.
Qed.

Lemma handlers_add h k m k' :
  handlers_at k' (add_handler h k m) = handlers_at k' m ++ (if decide (k' = k) then [h] else []).
Proof.
  unfold handlers_at, add_handler. case_decide as Hk.
  - subst. by rewrite lookup_insert_eq.
  - rewrite lookup_insert_ne by done. by rewrite app_nil_r.
Qed.

Lemma handlers_add_all h ks m k' :
  handlers_at k' (foldl (λ m typ, add_handler h typ m) m ks) =
    handlers_at k' m ++ replicate (length (filter (λ k, k = k') ks)) h.
Proof.
  revert m. induction ks as [|k ks IH]; intros m; cbn [foldl]; [by rewrite app_nil_r|].
  rewrite IH, handlers_add, <- app_assoc. f_equal. rewrite filter_cons.
  repeat case_decide; subst; done.
Qed.

(** Handlers that never panic *)
Definition handler_ok (h : Handler) : Prop := ∀ e w, (h e w).1 ≠ Panic.

Lemma run_handlers_ok hs e w : Forall handler_ok hs → (run_handlers hs e w).1 ≠ Panic.
Proof.
  intros Hhs. revert w. induction Hhs as [|h hs Hh Hhs IH]; intros w; [done|]. cbn.
  unfold mbind, stM_bind. specialize (Hh e w). destruct (h e w) as [[[]|err|] w']; [apply IH|done..].
Qed.
End bus.
#[global] Arguments Event : clear implicits.
#[global] Arguments Handler : clear implicits.
#[global] Arguments bus : clear implicits.

(** A bus as the publisher of a logbook, with the clock that stamps events *)
#[export] Instance bus_publisher `{Entropy} {W} : Publisher (bus DsChange W * W) := λ typ payload '(b, w),
  let '(r, w') := bus_Publish (NewTimestamp 0) typ payload b w in (r, (b, w')).
