(* ===== verification/TransformRun.v ===== *)
(** * Transform runs (src/transform/run/run.go, src/event/transform.go)

    [State] collapses the events of a transform's execution into one record:
    the state machine [AddTransformEvent], fed by the event bus. Only the
    newest step is ever written, so the steps are a list of values. *)
From S2P Require Export Bus.

(** ** Events of a transform *)
Definition ETTransformStart : string := "tf:Start".
Definition ETTransformStop : string := "tf:Stop".
Definition ETTransformStepStart : string := "tf:StepStart".
Definition ETTransformStepStop : string := "tf:StepStop".
Definition ETTransformStepSkip : string := "tf:StepSkip".
Definition ETTransformPrint : string := "tf:Print".
Definition ETTransformError : string := "tf:Error".
Definition ETTransformDatasetPreview : string := "tf:DatasetPreview".

(** The dynamic types of payloads the code tells apart *)
Inductive payload : Type :=
| TransformLifecycle (StepCount : Z) (Status : string)
| TransformStepLifecycle (Name Category Status : string)
| TransformMessage (Lvl Msg : string)
| OtherPayload.

Abbreviation TransformEvent := (Event payload).

(** ** States *)
Definition RSWaiting : string := "waiting".
Definition RSRunning : string := "running".
Definition RSSucceeded : string := "succeeded".
Definition RSFailed : string := "failed".
Definition RSUnchanged : string := "unchanged".
Definition RSSkipped : string := "skipped".

(** [type StepState struct] and [type State struct]; times are nanoseconds. *)
Record StepState : Type := mkStepState {
  ss_Name : string;
  ss_Category : string;
  ss_Status : string;
  ss_StartTime : option Z;
  ss_StopTime : option Z;
  ss_Duration : Z;
  ss_Output : list TransformEvent;
}.

Record RunOf : Type := mkState {
  run_ID : string;
  run_Number : Z;
  run_Status : string;
  run_Message : string;
  run_StartTime : option Z;
  run_StopTime : option Z;
  run_Duration : Z;
  run_Steps : list StepState;
}.

(** [NewState] *)
Definition NewState (id : string) : RunOf := mkState id 0 "" "" None None 0 [].

Definition set_Steps (steps : list StepState) (rs : RunOf) : RunOf :=
  mkState (run_ID rs) (run_Number rs) (run_Status rs) (run_Message rs) (run_StartTime rs)
    (run_StopTime rs) (run_Duration rs) steps.

(** [time.Time.Sub] saturates at the ends of [int64]. *)
Definition time_Sub (t u : Z) : Z := Z.max int64_min (Z.min int64_max (t - u)).

(** [if start != nil && stop != nil { Duration = stop.Sub(start) }] *)
Definition duration (start stop : option Z) (d : Z) : Z :=
  match start, stop with Some u, Some t => time_Sub t u | _, _ => d end.

(** [NewStepStateFromEvent] *)
Definition NewStepStateFromEvent (e : TransformEvent) : outcome StepState :=
  match ev_Payload e with
  | TransformStepLifecycle name category status =>
      Ok (mkStepState name category status None None 0 [])
  | _ => Error (Errorf "run step event data must be a transform step lifecycle struct" [])
  end.

(** [State.lastStep], and a write through the pointer it returns *)
Definition update_lastStep (f : StepState → StepState) (rs : RunOf) : outcome RunOf :=
  match last (run_Steps rs) with
  | Some step => Ok (set_Steps (removelast (run_Steps rs) ++ [f step]) rs)
  | None => Error (Errorf "expected step to exist" [])
  end.

(** [State.appendStepOutputLog] *)
Definition appendStepOutputLog (e : TransformEvent) : RunOf → outcome RunOf :=
  update_lastStep (λ s, mkStepState (ss_Name s) (ss_Category s) (ss_Status s) (ss_StartTime s)
                          (ss_StopTime s) (ss_Duration s) (ss_Output s ++ [e])).

(** The cases of [State.AddTransformEvent] *)
Definition on_start (e : TransformEvent) (rs : RunOf) : RunOf :=
  mkState (run_ID rs) (run_Number rs) RSRunning (run_Message rs) (Some (ev_Timestamp e))
    (run_StopTime rs) (run_Duration rs) (run_Steps rs).

Definition on_stop (e : TransformEvent) (rs : RunOf) : RunOf :=
  let status := match ev_Payload e with
                | TransformLifecycle _ status => status | _ => run_Status rs end in
  mkState (run_ID rs) (run_Number rs) status (run_Message rs) (run_StartTime rs)
    (Some (ev_Timestamp e))
    (duration (run_StartTime rs) (Some (ev_Timestamp e)) (run_Duration rs)) (run_Steps rs).

Definition on_step_start (e : TransformEvent) (rs : RunOf) : outcome RunOf :=
  s ← NewStepStateFromEvent e;
  Ok (set_Steps (run_Steps rs ++
        [mkStepState (ss_Name s) (ss_Category s) RSRunning (Some (ev_Timestamp e))
           (ss_StopTime s) (ss_Duration s) (ss_Output s)]) rs).

Definition on_step_stop (e : TransformEvent) : RunOf → outcome RunOf :=
  update_lastStep (λ s,
    mkStepState (ss_Name s) (ss_Category s)
      (match ev_Payload e with TransformStepLifecycle _ _ status => status | _ => RSFailed end)
      (ss_StartTime s) (Some (ev_Timestamp e))
      (duration (ss_StartTime s) (Some (ev_Timestamp e)) (ss_Duration s)) (ss_Output s)).

Definition on_step_skip (e : TransformEvent) (rs : RunOf) : outcome RunOf :=
  s ← NewStepStateFromEvent e;
  Ok (set_Steps (run_Steps rs ++
        [mkStepState (ss_Name s) (ss_Category s) RSSkipped (ss_StartTime s)
           (ss_StopTime s) (ss_Duration s) (ss_Output s)]) rs).

(** [State.AddTransformEvent]: an event of another session is ignored. *)
Definition AddTransformEvent (e : TransformEvent) (rs : RunOf) : outcome RunOf :=
  let typ := ev_Type e in
  if decide (run_ID rs ≠ ev_SessionID e) then Ok rs
  else if decide (typ = ETTransformStart) then Ok (on_start e rs)
  else if decide (typ = ETTransformStop) then Ok (on_stop e rs)
  else if decide (typ = ETTransformStepStart) then on_step_start e rs
  else if decide (typ = ETTransformStepStop) then on_step_stop e rs
  else if decide (typ = ETTransformStepSkip) then on_step_skip e rs
  else if decide (typ = ETTransformPrint ∨ typ = ETTransformError ∨ typ = ETTransformDatasetPreview)
  then appendStepOutputLog e rs
  else Error (Errorf "unexpected event type: %q" [typ]).

Definition newline : string := String (Ascii.ascii_of_nat 10) EmptyString.

(** The handler that [DatasetMethods.Save] (lib/datasets.go) subscribes to a
    run's session. It folds each event into the run's state, whatever
    [AddTransformEvent] answers (on an error the state is as it was), and
    copies what the script prints to [scriptOut], when the caller wants it. *)
Definition save_handler (scriptOutput : bool) : Handler payload (RunOf * string) := λ e '(rs, out),
  (Ok tt,
   (match AddTransformEvent e rs with Ok rs' => rs' | _ => rs end,
    if decide (ev_Type e = ETTransformPrint) then
      match ev_Payload e with
      | TransformMessage _ msg => if scriptOutput then (out ++ msg ++ newline)%string else out
      | _ => out
      end
    else out)).
