(* ===== verification/Revisions.v ===== *)
(** * Revisions (src/dsref/rev.go, src/base/revisions.go)

    A revision names a component of a dataset and how many versions back to
    look for it. [LoadRevs] walks a history from its newest version and
    gathers what a list of revisions asks for; [Drop] clears components. *)
From S2P Require Export GoStrings.

(** [type Rev struct] *)
Record Rev : Type := mkRev { Field : string; Gen : Z }.

Definition AllGenerations : Z := -1.

(** [NewAllRevisions] *)
Definition NewAllRevisions : Rev := mkRev "ds" AllGenerations.

(** [fieldMap] *)
Definition fieldMap : gmap string string := list_to_map
  [("dataset", "ds"); ("meta", "md"); ("viz", "vz"); ("transform", "tf");
   ("structure", "st"); ("body", "bd"); ("rendered", "rd"); ("readme", "rm");
   ("ds", "ds"); ("md", "md"); ("vz", "vz"); ("tf", "tf");
   ("st", "st"); ("bd", "bd"); ("rd", "rd"); ("rm", "rm")].

(** [ParseRev] and [ParseRevs] *)
Definition ParseRev (rev : string) : outcome Rev :=
  if decide (rev = "all") then Ok (mkRev "ds" AllGenerations)
  else match strconv_Atoi rev with
       | Some num => Ok (mkRev "ds" num)
       | None =>
           match fieldMap !! rev with
           | Some field => Ok (mkRev field 1)
           | None => Error (Errorf "unrecognized revision field: %s" [rev])
           end
       end.

Fixpoint parse_revs (revStrs : list string) : outcome (list Rev) :=
  match revStrs with
  | [] => Ok []
  | revStr :: revStrs' => rev ← ParseRev revStr; revs ← parse_revs revStrs'; Ok (rev :: revs)
  end.

Definition ParseRevs (str : string) : outcome (list Rev) := parse_revs (strings_Split str ",").

Section revisions.
(** What components hold is not looked at. *)
Context {Component : Type}.

(** The fields of [dataset.Dataset] that revisions are about *)
Record Dataset : Type := mkDataset {
  PreviousPath : string;
  BodyPath : string;
  Body : option Component;
  Meta : option Component;
  Transform : option Component;
  Commit : option Component;
  Viz : option Component;
  Readme : option Component;
  Structure : option Component;
}.

(** [&dataset.Dataset{}] *)
Definition empty_Dataset : Dataset := mkDataset "" "" None None None None None None None.

(** Assignments to the fields *)
Definition set_BodyPath (p : string) (d : Dataset) : Dataset :=
  mkDataset (PreviousPath d) p (Body d) (Meta d) (Transform d) (Commit d) (Viz d) (Readme d) (Structure d).
Definition set_Body (c : option Component) (d : Dataset) : Dataset :=
  mkDataset (PreviousPath d) (BodyPath d) c (Meta d) (Transform d) (Commit d) (Viz d) (Readme d) (Structure d).
Definition set_Meta (c : option Component) (d : Dataset) : Dataset :=
  mkDataset (PreviousPath d) (BodyPath d) (Body d) c (Transform d) (Commit d) (Viz d) (Readme d) (Structure d).
Definition set_Transform (c : option Component) (d : Dataset) : Dataset :=
  mkDataset (PreviousPath d) (BodyPath d) (Body d) (Meta d) c (Commit d) (Viz d) (Readme d) (Structure d).
Definition set_Commit (c : option Component) (d : Dataset) : Dataset :=
  mkDataset (PreviousPath d) (BodyPath d) (Body d) (Meta d) (Transform d) c (Viz d) (Readme d) (Structure d).
Definition set_Viz (c : option Component) (d : Dataset) : Dataset :=
  mkDataset (PreviousPath d) (BodyPath d) (Body d) (Meta d) (Transform d) (Commit d) c (Readme d) (Structure d).
Definition set_Readme (c : option Component) (d : Dataset) : Dataset :=
  mkDataset (PreviousPath d) (BodyPath d) (Body d) (Meta d) (Transform d) (Commit d) (Viz d) c (Structure d).
Definition set_Structure (c : option Component) (d : Dataset) : Dataset :=
  mkDataset (PreviousPath d) (BodyPath d) (Body d) (Meta d) (Transform d) (Commit d) (Viz d) (Readme d) c.

(** [r.Gen--], and one case of the switch in [sel]: a version that has the
    component counts, and the one that makes the count zero is taken. *)
Definition dec_Gen (r : Rev) : Rev := mkRev (Field r) (wrap64 (Gen r - 1)).

Definition sel_case (has : bool) (take : Dataset → Dataset) (r : Rev) (res : Dataset) : Rev * Dataset :=
  if has then
    let r' := dec_Gen r in
    (r', if decide (Gen r' = 0%Z) then take res else res)
  else (r, res).

Definition is_set (c : option Component) : bool := match c with Some _ => true | None => false end.

(** [sel] writes to [r] and [res] through pointers: it answers both with its
    result. Its case "ds" assigns to the parameter [res], which the caller
    does not see. *)
Definition sel (r : Rev) (ds res : Dataset) : bool * Rev * Dataset :=
  let f := Field r in
  let '(r', res') :=
    if decide (f = "ds") then (dec_Gen r, res)
    else if decide (f = "bd") then sel_case (bool_decide (BodyPath ds ≠ "")) (set_BodyPath (BodyPath ds)) r res
    else if decide (f = "md") then sel_case (is_set (Meta ds)) (set_Meta (Meta ds)) r res
    else if decide (f = "tf") then sel_case (is_set (Transform ds)) (set_Transform (Transform ds)) r res
    else if decide (f = "cm") then sel_case (is_set (Commit ds)) (set_Commit (Commit ds)) r res
    else if decide (f = "vz") then sel_case (is_set (Viz ds)) (set_Viz (Viz ds)) r res
    else if decide (f = "rm") then sel_case (is_set (Readme ds)) (set_Readme (Readme ds)) r res
    else if decide (f = "st") then sel_case (is_set (Structure ds)) (set_Structure (Structure ds)) r res
    else (r, res) in
  (bool_decide (Gen r' = 0%Z), r', res').

(** The loop over the revisions, at one version *)
Fixpoint sel_all (revs : list Rev) (ds res : Dataset) : bool * list Rev * Dataset :=
  match revs with
  | [] => (true, [], res)
  | rev :: revs' =>
      let '(b, rev', res1) := sel rev ds res in
      let '(done, revs1, res2) := sel_all revs' ds res1 in
      (b && done, rev' :: revs1, res2)
  end.

(** [LoadRevs], with the versions of the store behind [LoadDataset]: the walk
    along [PreviousPath], a unit of fuel per version. It answers the dataset
    gathered and leaves the revisions with what is left of their counts. *)
Section walk.
Context (LoadDataset : string → outcome Dataset).

Fixpoint load_loop (fuel : nat) (path : string) (res : Dataset) : stM (list Rev) Dataset := λ revs,
  match fuel with
  | O => (Panic, revs)
  | S fuel' =>
      match LoadDataset path with
      | Ok ds =>
          let '(done, revs', res') := sel_all revs ds res in
          if done : bool then (Ok res', revs')
          else if decide (PreviousPath ds = "") then (Ok res', revs')
          else load_loop fuel' (PreviousPath ds) res' revs'
      | Error e => (Error e, revs)
      | Panic => (Panic, revs)
      end
  end.

Definition LoadRevs (fuel : nat) (path : string) : stM (list Rev) Dataset :=
  load_loop fuel path empty_Dataset.
End walk.

(** [Drop]; what it cleared before an error stays cleared. *)
Definition drop_rev (rev : Rev) : stM Dataset unit :=
  let f := Field rev in
  if decide (Gen rev ≠ 1%Z) then st_fail (Errorf "cannot drop specific generations" [])
  else if decide (f = "md") then st_modify (set_Meta None)
  else if decide (f = "vz") then st_modify (set_Viz None)
  else if decide (f = "tf") then st_modify (set_Transform None)
  else if decide (f = "st") then st_modify (set_Structure None)
  else if decide (f = "bd") then st_modify (set_Body None)
  else if decide (f = "rm") then st_modify (set_Readme None)
  else st_fail (Errorf "cannot drop component: %q" [f]).

Fixpoint drop_revs (revs : list Rev) : stM Dataset unit :=
  match revs with
  | [] => mret tt
  | rev :: revs' => drop_rev rev;; drop_revs revs'
  end.

Definition Drop (revStr : string) : stM Dataset unit :=
  if decide (revStr = "") then mret tt
  else revs ← st_lift (ParseRevs revStr); drop_revs revs.
End revisions.

Arguments Dataset : clear implicits.

(** * The properties of revisions *)
Section spec.
Context {Component : Type}.
Abbreviation DS := (Dataset Component).
Implicit Types (d res : DS) (l : list DS) (r : Rev) (revs : list Rev).

(** What a version has under a field: the path of its body or a component.
    Whole datasets and rendered bodies are no components. *)
Definition get (f : string) (d : DS) : option (string + Component) :=
  if decide (f = "bd") then if decide (BodyPath d = "") then None else Some (inl (BodyPath d))
  else inr <$>
    (if decide (f = "md") then Meta d
     else if decide (f = "tf") then Transform d
     else if decide (f = "cm") then Commit d
     else if decide (f = "vz") then Viz d
     else if decide (f = "rm") then Readme d
     else if decide (f = "st") then Structure d
     else None).

(** The [n]-th of a list, counted from one *)
Definition nth_from_one {A} (n : Z) (l : list A) : option A :=
  if decide (n ≤ 0)%Z then None else l !! Z.to_nat (n - 1).

(** What revisions select of a history under a field *)
Definition selected (revs : list Rev) (l : list DS) (f : string) : option (string + Component) :=
  r ← List.find (λ r, bool_decide (Field r = f)) revs;
  nth_from_one (Gen r) (omap (get f) l).

(** The history behind a path *)
Inductive history (LoadDataset : string → outcome DS) : string → list DS → Prop :=
| history_first path d :
    LoadDataset path = Ok d → PreviousPath d = "" → history LoadDataset path [d]
| history_next path d l :
    LoadDataset path = Ok d → PreviousPath d ≠ "" → history LoadDataset (PreviousPath d) l →
    history LoadDataset path (d :: l).

(** ** One version *)
Definition present (f : string) (d : DS) : bool :=
  bool_decide (f = "ds" ∨ is_Some (get f d)).

Definition step (d : DS) (r : Rev) : Rev := if present (Field r) d then dec_Gen r else r.

(** What a field of the result is once a version has been looked at *)
Definition taken (r : Rev) d (f : string) (old : option (string + Component)) :=
  if decide (f = Field r ∧ is_Some (get f d) ∧ Gen (step d r) = 0%Z) then get f d else old.

Lemma sel_case_spec has take r d res :
  Field r ≠ "ds" → has = bool_decide (is_Some (get (Field r) d)) →
  (is_Some (get (Field r) d) →
     ∀ f, get f (take res) = if decide (f = Field r) then get f d else get f res) →
  (sel_case has take r res).1 = step d r ∧
  ∀ f, get f (sel_case has take r res).2 = taken r d f (get f res).
Proof.
  intros Hds -> Htake. unfold sel_case, taken, step, present.
  destruct (decide (is_Some (get (Field r) d))) as [Hs|Hs].
  - rewrite !bool_decide_true by tauto. split; [done|]. intros f. cbn [snd].
    destruct (decide (Gen (dec_Gen r) = 0%Z)) as [Hg|Hg].
    + rewrite Htake by done. destruct (decide (f = Field r)) as [->|Hf].
      * by rewrite decide_True.
      * by rewrite decide_False by tauto.
    + by rewrite decide_False by tauto.
  - rewrite !bool_decide_false by tauto. split; [done|]. intros f. cbn [snd].
    rewrite decide_False; [done|]. intros (-> & ? & _). done.
Qed.

Lemma sel_spec r d res :
  let '(b, r', res') := sel r d res in
  b = bool_decide (Gen (step d r) = 0%Z) ∧ r' = step d r ∧ ∀ f, get f res' = taken r d f (get f res).
Proof.
  assert (∀ p : Rev * DS, p.1 = step d r ∧ (∀ f, get f p.2 = taken r d f (get f res)) →
    let '(b, r', res') := let '(r', res') := p in (bool_decide (Gen r' = 0%Z), r', res') in
    b = bool_decide (Gen (step d r) = 0%Z) ∧ r' = step d r ∧
    ∀ f, get f res' = taken r d f (get f res)) as Hpair.
  { intros [r' res'] [Hr ?]. cbn in Hr. by subst r'. }
  unfold sel. apply Hpair. clear Hpair.
  assert (∀ r', get (Field r) d = None → r' = step d r →
    (r', res).1 = step d r ∧ ∀ f, get f (r', res).2 = taken r d f (get f res)) as Hnone.
  { intros r' Hg ->. split; [done|]. intros f. unfold taken. rewrite decide_False; [done|].
    intros (-> & [x Hx] & _). congruence. }
  repeat match goal with
  | |- context [decide (Field r = ?F)] => destruct (decide (Field r = F)) as [Hf|]
  end;
  try (apply sel_case_spec; rewrite ?Hf; [done|destruct d as [??? [] [] [] [] [] []]; reflexivity|];
       intros [x Hx] f; destruct d, res; unfold get; cbn; repeat case_decide; simplify_eq; try done).
  - apply Hnone; rewrite ?Hf; [done|]. unfold step, present. rewrite Hf. by rewrite bool_decide_true by tauto.
  - apply sel_case_spec; rewrite Hf; [done| |].
    + apply bool_decide_ext.
      change (get "bd" d) with (if decide (BodyPath d = "") then None
        else Some (inl (BodyPath d) : string + Component)).
      destruct (decide (BodyPath d = "")); split; intros Hx; done.
    + intros [x Hx] f. destruct d, res. unfold get in *. cbn in *. repeat case_decide; simplify_eq; done.
  - assert (get (Field r) d = None) as Hg by (unfold get; repeat case_decide; done).
    apply Hnone; [done|]. unfold step, present. rewrite bool_decide_false; [done|].
    intros [?|[x ?]]; congruence.
Qed.

(** ** One version, all revisions *)
Definition find_rev (f : string) (revs : list Rev) : option Rev :=
  List.find (λ r, bool_decide (Field r = f)) revs.

Lemma find_rev_None f revs : f ∉ map Field revs → find_rev f revs = None.
Proof.
  intros Hf. induction revs as [|r revs IH]; [done|]. unfold find_rev in *. cbn in *.
  apply not_elem_of_cons in Hf as [Hne Hf]. rewrite bool_decide_false by done. by apply IH.
Qed.

Lemma sel_all_spec revs d res :
  NoDup (map Field revs) →
  let '(done, revs', res') := sel_all revs d res in
  done = forallb (λ r, bool_decide (Gen (step d r) = 0%Z)) revs ∧ revs' = map (step d) revs ∧
  ∀ f, get f res' = match find_rev f revs with Some r => taken r d f (get f res) | None => get f res end.
Proof.
  revert res. induction revs as [|r revs IH]; intros res Hnd; [done|].
  cbn in Hnd. apply NoDup_cons in Hnd as [Hr Hnd]. cbn [sel_all].
  pose proof (sel_spec r d res) as Hsel. destruct (sel r d res) as [[b r'] res1].
  destruct Hsel as (-> & -> & Hget1). specialize (IH res1 Hnd).
  destruct (sel_all revs d res1) as [[done revs'] res2]. destruct IH as (-> & -> & Hget2).
  split_and!; [done..|]. intros f. rewrite Hget2. unfold find_rev. cbn [List.find].
  fold (find_rev f revs). destruct (decide (Field r = f)) as [Hf|Hf].
  - rewrite bool_decide_true by done. subst f. by rewrite find_rev_None.
  - rewrite bool_decide_false by done. assert (get f res1 = get f res) as ->; [|done].
    rewrite Hget1. unfold taken. rewrite decide_False; [done|]. intros (? & _). congruence.
Qed.

(** ** A walk along a history *)
Definition count (f : string) l : Z := Z.of_nat (length (filter (λ d, present f d = true) l)).

(** A revision after the versions [l], and what has been taken of them *)
Definition after (l : list DS) (r : Rev) : Rev := mkRev (Field r) (Gen r - count (Field r) l).

Definition countable (r : Rev) : Prop := (-1 ≤ Gen r ≤ int64_max)%Z.

Lemma count_snoc f l d : count f (l ++ [d]) = (count f l + if present f d then 1 else 0)%Z.
Proof.
  unfold count. rewrite filter_app, length_app, filter_cons, filter_nil.
  destruct (present f d); case_decide; try done; cbn; lia.
Qed.

Lemma count_bound f l : (0 ≤ count f l ≤ Z.of_nat (length l))%Z.
Proof. unfold count. pose proof (length_filter (λ d, present f d = true) l). lia. Qed.

Lemma step_after r l d :
  countable r → (Z.of_nat (length l) < int64_max)%Z → step d (after l r) = after (l ++ [d]) r.
Proof.
  intros Hr Hl. unfold step, after, dec_Gen. cbn [Field Gen]. rewrite count_snoc.
  destruct (present (Field r) d); f_equal; [|lia].
  pose proof (count_bound (Field r) l). unfold countable, int64_max in *.
  rewrite wrap64_id; [lia|]. unfold in_int64, int64_min, int64_max. lia.
Qed.

Lemma omap_count f l : f ≠ "ds" → Z.of_nat (length (omap (get f) l)) = count f l.
Proof.
  intros Hf. induction l as [|d l IH]; [done|]. change (d :: l) with ([d] ++ l).
  unfold count in *. rewrite filter_app, omap_app, !length_app, !Nat2Z.inj_add, IH. f_equal.
  rewrite filter_cons, filter_nil. unfold present. cbn.
  destruct (get f d) as [x|] eqn:Hg; cbn.
  - by rewrite bool_decide_true by (right; by eexists).
  - rewrite bool_decide_false; [done|]. intros [?|[x ?]]; congruence.
Qed.

Lemma get_ds d : get "ds" d = None.
Proof. done. Qed.

(** What has been selected of a history and one more version *)
Lemma nth_from_one_snoc {A} n (xs : list A) x :
  nth_from_one n (xs ++ [x]) =
    if decide (n = Z.of_nat (length xs) + 1)%Z then Some x else nth_from_one n xs.
Proof.
  unfold nth_from_one. case_decide; [by rewrite decide_False by lia|].
  case_decide as Hn.
  - subst n. rewrite lookup_app_r by lia. by replace (_ - _) with 0 by lia.
  - destruct (decide (Z.to_nat (n - 1) < length xs)).
    + by rewrite lookup_app_l.
    + rewrite !lookup_ge_None_2; [done|lia|rewrite length_app; cbn; lia].
Qed.

Lemma selected_snoc r f l d :
  countable r → (Z.of_nat (length l) < int64_max)%Z → Field r = f →
  nth_from_one (Gen r) (omap (get f) (l ++ [d])) =
    taken (after l r) d f (nth_from_one (Gen r) (omap (get f) l)).
Proof.
  intros Hr Hl Hf. unfold taken. rewrite step_after by done. cbn [after Field Gen].
  rewrite omap_app. cbn. destruct (get f d) as [x|] eqn:Hg.
  - rewrite nth_from_one_snoc, omap_count by (intros ->; by rewrite get_ds in Hg).
    rewrite Hf, count_snoc. unfold present. rewrite bool_decide_true by (right; by eexists).
    destruct (decide (Gen r = count f l + 1)%Z) as [Hn|Hn].
    + rewrite decide_True; [done|]. split_and!; [done|by eexists|lia].
    + rewrite decide_False; [done|]. intros (_ & _ & ?). lia.
  - rewrite app_nil_r, decide_False; [done|]. intros (_ & [? ?] & _). congruence.
Qed.

Lemma find_rev_Some f revs r : find_rev f revs = Some r → r ∈ revs ∧ Field r = f.
Proof.
  intros Hf. unfold find_rev in Hf. apply List.find_some in Hf as [Hin Hf].
  apply bool_decide_eq_true in Hf. by apply list_elem_of_In in Hin.
Qed.

Lemma find_rev_after f revs l : find_rev f (map (after l) revs) = after l <$> find_rev f revs.
Proof.
  unfold find_rev. induction revs as [|r revs IH]; [done|]. cbn. by case_bool_decide.
Qed.

(** A count that has come down to zero: more versions change nothing. *)
Lemma nth_from_one_done r l l' :
  Gen (after l r) = 0%Z →
  nth_from_one (Gen r) (omap (get (Field r)) (l ++ l')) = nth_from_one (Gen r) (omap (get (Field r)) l).
Proof.
  intros Hr. destruct (decide (Field r = "ds")) as [Hf|Hf].
  - rewrite Hf. assert (∀ l, omap (get "ds") l = []) as Hnil by (intros k; by induction k).
    by rewrite !Hnil.
  - cbn in Hr. unfold nth_from_one. case_decide; [done|]. rewrite omap_app, lookup_app_l; [done|].
    pose proof (omap_count (Field r) l Hf). lia.
Qed.

(** One version of the walk *)
Lemma sel_all_selected revs l d res :
  NoDup (map Field revs) → Forall countable revs → (Z.of_nat (length l) < int64_max)%Z →
  (∀ f, get f res = selected revs l f) →
  let '(done, revs', res') := sel_all (map (after l) revs) d res in
  revs' = map (after (l ++ [d])) revs ∧ (∀ f, get f res' = selected revs (l ++ [d]) f) ∧
  (done = true → ∀ l' f, selected revs (l ++ [d] ++ l') f = selected revs (l ++ [d]) f).
Proof.
  intros Hnd Hc Hl Hres. rewrite Forall_forall in Hc.
  pose proof (sel_all_spec (map (after l) revs) d res) as Hs. rewrite map_map in Hs.
  specialize (Hs Hnd). destruct (sel_all _ d res) as [[done revs'] res'].
  destruct Hs as (-> & -> & Hget). rewrite map_map. split_and!.
  - apply map_ext_in. intros r Hr%list_elem_of_In. by apply step_after; [apply Hc|].
  - intros f. rewrite Hget, find_rev_after, Hres. unfold selected. fold (find_rev f revs).
    destruct (find_rev f revs) as [r|] eqn:Hf; [|done]. cbn.
    apply find_rev_Some in Hf as [Hin Hf]. by rewrite selected_snoc by auto.
  - intros Hdone l' f. unfold selected. fold (find_rev f revs).
    destruct (find_rev f revs) as [r|] eqn:Hf; [|done]. cbn.
    apply find_rev_Some in Hf as [Hin <-].
    replace (l ++ d :: l') with ((l ++ [d]) ++ l') by by rewrite <- app_assoc.
    apply nth_from_one_done.
    rewrite forallb_forall in Hdone. specialize (Hdone (after l r)).
    rewrite bool_decide_eq_true, step_after in Hdone by auto. apply Hdone.
    apply in_map. by apply list_elem_of_In.
Qed.

Lemma load_loop_selected LoadDataset revs path l :
  NoDup (map Field revs) → Forall countable revs → history LoadDataset path l →
  ∀ k fuel res, (Z.of_nat (length k + length l) < int64_max)%Z → length l ≤ fuel →
    (∀ f, get f res = selected revs k f) →
    ∃ res' revs', load_loop LoadDataset fuel path res (map (after k) revs) = (Ok res', revs') ∧
      ∀ f, get f res' = selected revs (k ++ l) f.
Proof.
  intros Hnd Hc Hh. induction Hh as [path d Hd Hp|path d l Hd Hp Hh IH];
    intros k [|fuel] res Hl Hfuel Hres; cbn [length] in *; try lia;
    pose proof (sel_all_selected revs k d res Hnd Hc ltac:(lia) Hres) as Hs;
    cbn [load_loop]; rewrite Hd; destruct (sel_all _ d res) as [[done revs'] res'];
    destruct Hs as (-> & Hres' & Hdone).
  - rewrite decide_True by done. destruct done; by eexists _, _.
  - rewrite decide_False by done. destruct done.
    + eexists _, _. split; [done|]. intros f. rewrite Hres'. symmetry. by apply (Hdone eq_refl l).
    + destruct (IH (k ++ [d]) fuel res') as (res2 & revs2 & -> & Hget);
        [rewrite length_app; cbn; lia|lia|done|].
      eexists _, _. split; [done|]. intros f. by rewrite Hget, <- app_assoc.
Qed.

Lemma selected_nil revs f : get f empty_Dataset = selected revs [] f.
Proof.
  unfold selected. fold (find_rev f revs). destruct (find_rev f revs) as [r|]; cbn;
    unfold get, nth_from_one; by repeat case_decide.
Qed.

Lemma after_nil revs : map (after []) revs = revs.
Proof.
  rewrite <- (map_id revs) at 2. apply map_ext. intros [f g]. unfold after, count. cbn. f_equal. lia.
Qed.

(** Selecting revisions. Along a history that ends, revisions of
    different components load a dataset that holds under each of them what the
    n-th newest version to have the component holds, nothing when there are
    not so many, and nothing under any other component; the walk takes a step
    for every version at most. *)
Theorem LoadRevs_selects LoadDataset revs path l fuel :
  history LoadDataset path l → NoDup (map Field revs) → Forall countable revs →
  length l ≤ fuel → (Z.of_nat (length l) < int64_max)%Z →
  ∃ res revs', LoadRevs LoadDataset fuel path revs = (Ok res, revs') ∧
    ∀ f, get f res = selected revs l f.
Proof.
  intros Hh Hnd Hc Hfuel Hl.
  destruct (load_loop_selected LoadDataset revs path l Hnd Hc Hh [] fuel empty_Dataset)
    as (res & revs' & Hrun & Hget); [cbn; lia|done|apply selected_nil|].
  exists res, revs'. split; [|done]. by rewrite <- Hrun, after_nil.
Qed.

(** A revision of the whole dataset selects nothing of it. *)
Theorem LoadRevs_whole_dataset LoadDataset path l fuel g :
  history LoadDataset path l → countable (mkRev "ds" g) → length l ≤ fuel →
  (Z.of_nat (length l) < int64_max)%Z →
  ∃ res revs', LoadRevs LoadDataset fuel path [mkRev "ds" g] = (Ok res, revs') ∧
    ∀ f, get f res = None.
Proof.
  intros Hh Hg Hfuel Hl. pose proof (load_loop_selected LoadDataset [mkRev "ds" g] path l) as Hsel.
  destruct (Hsel ltac:(apply NoDup_singleton) ltac:(by constructor) Hh [] fuel empty_Dataset)
    as (res & revs' & Hrun & Hget); [cbn; lia|done|apply selected_nil|].
  exists res, revs'. rewrite after_nil in Hrun. split; [done|].
  intros f. rewrite Hget. unfold selected. cbn. case_bool_decide as Hf; [|done]. subst f. cbn.
  assert (omap (get "ds") l = []) as -> by (clear; by induction l).
  unfold nth_from_one. by case_decide.
Qed.

(** ** Dropping *)
Definition held (f : string) (d : DS) : option Component :=
  if decide (f = "bd") then Body d
  else if decide (f = "md") then Meta d
  else if decide (f = "tf") then Transform d
  else if decide (f = "vz") then Viz d
  else if decide (f = "rm") then Readme d
  else if decide (f = "st") then Structure d
  else None.

Lemma drop_rev_held r d d' f :
  drop_rev r d = (Ok tt, d') → held f d' = if decide (f = Field r) then None else held f d.
Proof.
  unfold drop_rev, st_fail, st_modify. intros Hrun.
  repeat case_decide; simplify_eq; destruct d; unfold held; cbn; repeat case_decide; congruence.
Qed.

(** Dropping clears the components named, and no other. *)
Theorem Drop_clears revStr revs d d' f :
  ParseRevs revStr = Ok revs → revStr ≠ "" → Drop revStr d = (Ok tt, d') →
  held f d' = if decide (f ∈ map Field revs) then None else held f d.
Proof.
  intros Hp Hne Hrun. unfold Drop, st_lift in Hrun. rewrite decide_False in Hrun by done.
  unfold mbind, stM_bind in Hrun. rewrite Hp in Hrun. clear Hp. revert d Hrun.
  induction revs as [|r revs IH]; intros d Hrun.
  { cbn in Hrun. injection Hrun as <-. by rewrite decide_False by apply not_elem_of_nil. }
  cbn [drop_revs] in Hrun. unfold mbind, stM_bind in Hrun.
  destruct (drop_rev r d) as [[[]|e|] d1] eqn:Hr; try done.
  rewrite (IH d1 Hrun), (drop_rev_held r d d1 f Hr). cbn [map].
  repeat case_decide; set_solver.
Qed.
End spec.

(** ** The theorems at work: three versions, of which two have a meta *)
Section demo.
Let version (prev : string) (meta st : option nat) : Dataset nat :=
  mkDataset prev "/body" None meta None None None None st.

Definition demo_history : list (Dataset nat) :=
  [version "/2" (Some 3) None; version "/1" None (Some 2); version "" (Some 1) (Some 1)].

Definition demo_Load (path : string) : outcome (Dataset nat) :=
  if decide (path = "/3") then of_option (Error (Errorf "not found" [])) (demo_history !! 0)
  else if decide (path = "/2") then of_option (Error (Errorf "not found" [])) (demo_history !! 1)
  else if decide (path = "/1") then of_option (Error (Errorf "not found" [])) (demo_history !! 2)
  else Error (Errorf "not found" []).

Lemma demo_history_ok : history demo_Load "/3" demo_history.
Proof. by repeat econstructor. Qed.
End demo.

Lemma LoadRevs_selects_witness :
  ∃ res revs', LoadRevs demo_Load 3 "/3" [mkRev "md" 2; mkRev "st" 1] = (Ok res, revs') ∧
    get "md" res = Some (inr 1) ∧ get "st" res = Some (inr 2) ∧ get "bd" res = None.
Proof.
  destruct (LoadRevs_selects demo_Load [mkRev "md" 2; mkRev "st" 1] "/3" demo_history 3)
    as (res & revs' & Hrun & Hget).
  - exact demo_history_ok.
  - cbn. repeat (apply NoDup_cons; split; [set_solver|]). apply NoDup_nil. exact I.
  - repeat (apply List.Forall_cons; [unfold countable, int64_max; cbn; lia|]). apply List.Forall_nil.
  - cbn. lia.
  - unfold int64_max. cbn. lia.
  - exists res, revs'. rewrite !Hget. split; [exact Hrun|]. split_and!; reflexivity.
Defined.
