(* ===== verification/KeyStores.v ===== *)
(** * Key stores (src/auth/key)

    A book of keys under their identifiers, in memory or in a file of JSON
    that is read before and written after every change. What both promise is
    the interface [KeyStore] with its laws. Keys and their bytes are the key
    library's; a file, JSON and the order in which Go walks a map are the
    environment's. *)
From S2P Require Export GoStrings.

(** [crypto.PrivKey] and [crypto.PubKey] with their bytes, and the text form
    the library gives keys in configurations *)
Class KeyLib : Type := {
  PrivKey : Type;
  PubKey : Type;
  GetPublic : PrivKey → PubKey;
  MarshalPublicKey : PubKey → string + error;
  MarshalPrivateKey : PrivKey → string + error;
  UnmarshalPublicKey : string → PubKey + error;
  UnmarshalPrivateKey : string → PrivKey + error;
  ConfigEncodeKey : string → string;
  ConfigDecodeKey : string → string + error;
}.
(** A call that answers a value or an error *)
Definition of_sum {A} (r : A + error) : outcome A := match r with inl a => Ok a | inr e => Error e end.

(** Every key has bytes, which give it back, and bytes have a text. *)
Class KeyLibLaws (L : KeyLib) : Prop := {
  Unmarshal_MarshalPublic k : ∃ d, MarshalPublicKey k = inl d ∧ UnmarshalPublicKey d = inl k;
  Unmarshal_MarshalPrivate k : ∃ d, MarshalPrivateKey k = inl d ∧ UnmarshalPrivateKey d = inl k;
  MarshalPrivate_nonempty k d : MarshalPrivateKey k = inl d → d ≠ "";
  Decode_EncodeKey d : ConfigDecodeKey (ConfigEncodeKey d) = inl d;
}.

(** One file with its lock *)
Class LockedFile (F : Type) : Type := {
  flock_Lock : F → option error;
  file_Read : F → string + error;
  file_Write : string → stM F unit;
}.
Definition missing (e : error) : bool := errors_Is e "file does not exist".

(** A file that works: it can be locked and written, and is read as written. *)
Class LockedFileLaws (F : Type) `{!LockedFile F} : Type := {
  file_content : F → option string;
  Lock_free f : flock_Lock f = None;
  Read_content f : match file_content f with
                   | Some d => file_Read f = inl d
                   | None => ∃ e, file_Read f = inr e ∧ missing e = true
                   end;
  Write_content d f : ∃ f', file_Write d f = (Ok tt, f') ∧ file_content f' = Some d;
}.

(** A map of maps of texts as JSON *)
Abbreviation TextMaps := (gmap string (gmap string string)).
Class KeyJSON : Type := {
  json_Marshal_keys : TextMaps → string + error;
  json_Unmarshal_keys : string → TextMaps + error;
}.
(** JSON keeps the texts that are UTF-8, and gives no others. *)
Class KeyJSONLaws `{!KeyLib} (J : KeyJSON) : Type := {
  json_text : string → Prop;
  json_text_key d : json_text (ConfigEncodeKey d);
  json_text_name : json_text "public_keys" ∧ json_text "private_keys";
  Unmarshal_Marshal_keys m :
    (∀ name part, m !! name = Some part → json_text name ∧ ∀ id v, part !! id = Some v → json_text id ∧ json_text v) →
    ∃ d, json_Marshal_keys m = inl d ∧ json_Unmarshal_keys d = inl m;
  Unmarshal_text d m name part id v :
    json_Unmarshal_keys d = inl m → m !! name = Some part → part !! id = Some v → json_text id;
}.

(** ** The book (keybook.go) *)
Section book.
Context `{KeyLib, MapWalk, KeyJSON}.

(** [type memoryKeyBook struct] *)
Record keyBook : Type := mkKeyBook {
  pks : gmap string PubKey;
  sks : gmap string PrivKey;
}.
Definition newKeyBook : keyBook := mkKeyBook ∅ ∅.

(** Its [PubKey], [PrivKey], [AddPubKey], [AddPrivKey] and [IDsWithKeys]. A
    missing key is nil; callers add no nil public key. *)
Definition kb_PubKey (k : string) (kb : keyBook) : option PubKey := pks kb !! k.
Definition kb_PrivKey (k : string) (kb : keyBook) : option PrivKey := sks kb !! k.
Definition kb_AddPubKey (k : string) (pk : PubKey) : stM keyBook unit :=
  st_modify (λ kb, mkKeyBook (<[k := pk]> (pks kb)) (sks kb)).
Definition kb_AddPrivKey (k : string) (sk : option PrivKey) : stM keyBook unit :=
  match sk with
  | None => st_fail (ErrSentinel "sk is nil (PrivKey)")
  | Some sk => st_modify (λ kb, mkKeyBook (pks kb) (<[k := sk]> (sks kb)))
  end.
Definition IDsWithKeys (kb : keyBook) : list string :=
  (walk (pks kb)).*1 ++ filter (λ p, pks kb !! p = None) (walk (sks kb)).*1.

(** [MarshalJSON]: a key that has no bytes is left out. *)
Definition key_texts {K} (bytes_of : K → string + error) (m : gmap string K) : gmap string string :=
  omap (λ v, match bytes_of v with inl d => Some (ConfigEncodeKey d) | _ => None end) m.
Definition kb_MarshalJSON (kb : keyBook) : string + error :=
  json_Marshal_keys (<["private_keys" := key_texts MarshalPrivateKey (sks kb)]>
                     {[ "public_keys" := key_texts MarshalPublicKey (pks kb) ]}).

(** [UnmarshalJSON]: the keys read before an error stay in the book. *)
Fixpoint load_keys {K} (of_bytes : string → K + error) (add : string → K → stM keyBook unit)
    (l : list (string * string)) : stM keyBook unit :=
  match l with
  | [] => mret tt
  | (k, v) :: l =>
      byteKey ← st_lift (of_sum (ConfigDecodeKey v));
      key ← st_lift (of_sum (of_bytes byteKey));
      add k key;;
      load_keys of_bytes add l
  end.
Definition load_part {K} (of_bytes : string → K + error) (add : string → K → stM keyBook unit)
    (part : option (gmap string string)) : stM keyBook unit :=
  match part with Some m => load_keys of_bytes add (walk m) | None => mret tt end.
Definition kb_UnmarshalJSON (data : string) : stM keyBook unit :=
  keyBookJSON ← st_lift (of_sum (json_Unmarshal_keys data));
  load_part UnmarshalPublicKey kb_AddPubKey (keyBookJSON !! "public_keys");;
  load_part UnmarshalPrivateKey (λ k sk, kb_AddPrivKey k (Some sk)) (keyBookJSON !! "private_keys").
End book.

(** ** Stores (store.go) *)

(** [type Store interface] *)
Class KeyStore `{KeyLib} (K : Type) : Type := {
  ks_PubKey : string → K → option PubKey;
  ks_PrivKey : string → K → option PrivKey;
  ks_AddPubKey : string → PubKey → stM K unit;
  ks_AddPrivKey : string → option PrivKey → stM K unit;
}.

(** What a store promises: it is a book. *)
Class KeyStoreLaws `{!KeyLib} (K : Type) `{!KeyStore K} : Type := {
  key_contents : K → keyBook;
  key_id : string → Prop;
  PubKey_contents id s : ks_PubKey id s = pks (key_contents s) !! id;
  PrivKey_contents id s : ks_PrivKey id s = sks (key_contents s) !! id;
  AddPubKey_contents id pk s : key_id id →
    ∃ s', ks_AddPubKey id pk s = (Ok tt, s') ∧
      key_contents s' = mkKeyBook (<[id := pk]> (pks (key_contents s))) (sks (key_contents s));
  AddPrivKey_contents id sk s : key_id id →
    ∃ s', ks_AddPrivKey id (Some sk) s = (Ok tt, s') ∧
      key_contents s' = mkKeyBook (pks (key_contents s)) (<[id := sk]> (sks (key_contents s)));
}.

#[export] Instance memStore_KeyStore `{KeyLib} : KeyStore keyBook := {|
  ks_PubKey := kb_PubKey;
  ks_PrivKey := kb_PrivKey;
  ks_AddPubKey := kb_AddPubKey;
  ks_AddPrivKey := kb_AddPrivKey;
|}.

(** [type localStore struct]: the book is its file. *)
Section local.
Context `{KeyLib, MapWalk, KeyJSON} {F : Type} `{!LockedFile F}.

Record localKeys : Type := mkLocalKeys { lk_file : F }.
Definition set_lk_file (f : F) (_ : localKeys) : localKeys := mkLocalKeys f.

(** [localStore.keys] *)
Definition lk_keys (s : localKeys) : outcome keyBook :=
  match flock_Lock (lk_file s) with
  | Some e => Error e
  | None =>
      match file_Read (lk_file s) with
      | inr e => if missing e then Ok newKeyBook else Error (Errorf "error loading keys: %s" [error_text e])
      | inl data =>
          match kb_UnmarshalJSON data newKeyBook with
          | (Panic, _) => Panic
          | (_, kb) => Ok kb
          end
      end
  end.

(** [localStore.saveFile] *)
Definition lk_saveFile (kb : keyBook) : stM localKeys unit :=
  data ← st_lift (of_sum (kb_MarshalJSON kb));
  s ← st_get;
  match flock_Lock (lk_file s) with
  | Some e => st_fail e
  | None => st_zoom lk_file set_lk_file (file_Write data)
  end.

Definition lk_PubKey (keyID : string) (s : localKeys) : option PubKey :=
  match lk_keys s with Ok kb => kb_PubKey keyID kb | _ => None end.
Definition lk_PrivKey (keyID : string) (s : localKeys) : option PrivKey :=
  match lk_keys s with Ok kb => kb_PrivKey keyID kb | _ => None end.

(** [AddPubKey] and [AddPrivKey]: read, add, write *)
Definition lk_add (add : stM keyBook unit) : stM localKeys unit :=
  s ← st_get;
  kb ← st_lift (lk_keys s);
  match add kb with
  | (Ok _, kb) => lk_saveFile kb
  | (Error e, _) => st_fail e
  | (Panic, _) => st_lift Panic
  end.
Definition lk_AddPubKey (keyID : string) (pubKey : PubKey) : stM localKeys unit := lk_add (kb_AddPubKey keyID pubKey).
Definition lk_AddPrivKey (keyID : string) (privKey : option PrivKey) : stM localKeys unit :=
  lk_add (kb_AddPrivKey keyID privKey).
Definition lk_IDsWithKeys (s : localKeys) : list string :=
  match lk_keys s with Ok kb => IDsWithKeys kb | _ => [] end.

#[export] Instance localStore_KeyStore : KeyStore localKeys := {|
  ks_PubKey := lk_PubKey;
  ks_PrivKey := lk_PrivKey;
  ks_AddPubKey := lk_AddPubKey;
  ks_AddPrivKey := lk_AddPrivKey;
|}.
End local.
Arguments localKeys : clear implicits.

(** * The two key stores keep their promise *)
(** ** Reading a book back *)
Section book.
Context `{L : KeyLib, !KeyLibLaws L, W : MapWalk, J : KeyJSON, JL : !KeyJSONLaws J}.

Lemma load_keys_run {K} of_bytes add (ins : string → K → keyBook → keyBook) l keys kb :
  (∀ k v kb, add k v kb = (Ok tt, ins k v kb)) →
  Forall2 (λ t key, t.1 = key.1 ∧ ∃ d, ConfigDecodeKey t.2 = inl d ∧ of_bytes d = inl key.2) l keys →
  load_keys of_bytes add l kb = (Ok tt, foldl (λ kb key, ins key.1 key.2 kb) kb keys).
Proof.
  intros Hadd Hl. revert kb. induction Hl as [|[k t] [k' key] l keys (Hk & d & Hd & Hkey) _ IH]; intros kb; [done|].
  cbn in Hk, Hd, Hkey. subst k'. cbn [load_keys foldl fst snd]. unfold mbind, stM_bind, st_lift.
  rewrite Hd. cbn [of_sum]. rewrite Hkey. cbn [of_sum]. rewrite Hadd. apply IH.
Qed.

Lemma foldl_insert {K} (keys : list (string * K)) (m : gmap string K) : NoDup keys.*1 →
  foldl (λ m key, <[key.1 := key.2]> m) m keys = list_to_map keys ∪ m.
Proof.
  revert m. induction keys as [|[k v] keys IH]; intros m Hnd; cbn [foldl list_to_map fst snd]; [symmetry; apply (left_id_L (∅ : gmap string K) (∪))|].
  apply NoDup_cons in Hnd as [Hk Hnd]. rewrite IH by done.
  rewrite <- insert_union_r, insert_union_l; [done|]. by apply not_elem_of_list_to_map_1.
Qed.

(** The text of a key, when every key has bytes *)
Definition text_of {K} (bytes_of : K → string + error) (v : K) : string :=
  match bytes_of v with inl d => ConfigEncodeKey d | inr _ => "" end.

Lemma key_texts_all {K} (bytes_of : K → string + error) m :
  (∀ v, ∃ d, bytes_of v = inl d) → key_texts bytes_of m = text_of bytes_of <$> m.
Proof.
  intros Hall. apply map_eq. intros k. unfold key_texts. rewrite lookup_omap, lookup_fmap.
  destruct (m !! k) as [v|]; [|done]. cbn. unfold text_of. by destruct (Hall v) as [d ->].
Qed.

(** One part of a book, read back *)
Lemma load_part_run {K} (bytes_of : K → string + error) of_bytes add ins m kb :
  (∀ v, ∃ d, bytes_of v = inl d ∧ of_bytes d = inl v) → (∀ k v kb, add k v kb = (Ok tt, ins k v kb)) →
  ∃ keys, keys ≡ₚ map_to_list m ∧
    load_part of_bytes add (Some (key_texts bytes_of m)) kb = (Ok tt, foldl (λ kb key, ins key.1 key.2 kb) kb keys).
Proof.
  intros Hall Hadd. assert (∀ v, ∃ d, bytes_of v = inl d) as Hbytes by (intros v; destruct (Hall v) as (d & ? & _); eauto).
  unfold load_part. rewrite key_texts_all by done.
  pose proof (walk_perm (text_of bytes_of <$> m)) as Hperm. rewrite map_to_list_fmap in Hperm.
  destruct (Permutation_map_inv _ _ Hperm) as (keys & Hkeys & Hm). exists keys. split; [done|].
  apply load_keys_run; [done|]. rewrite Hkeys. clear Hkeys Hm Hperm.
  induction keys as [|[k v] keys IH]; constructor; [|done]. split; [done|]. cbn. unfold text_of.
  destruct (Hall v) as (d & -> & Hd). exists d. split; [apply Decode_EncodeKey|done].
Qed.

Lemma foldl_pks keys kb : NoDup keys.*1 →
  foldl (λ kb key, mkKeyBook (<[key.1 := key.2]> (pks kb)) (sks kb)) kb keys =
    mkKeyBook (list_to_map keys ∪ pks kb) (sks kb).
Proof.
  intros Hnd. rewrite <- foldl_insert by done. clear Hnd. revert kb.
  induction keys as [|key keys IH]; intros kb; [by destruct kb|]. cbn [foldl]. by rewrite IH.
Qed.
Lemma foldl_sks keys kb : NoDup keys.*1 →
  foldl (λ kb key, mkKeyBook (pks kb) (<[key.1 := key.2]> (sks kb))) kb keys =
    mkKeyBook (pks kb) (list_to_map keys ∪ sks kb).
Proof.
  intros Hnd. rewrite <- foldl_insert by done. clear Hnd. revert kb.
  induction keys as [|key keys IH]; intros kb; [by destruct kb|]. cbn [foldl]. by rewrite IH.
Qed.

Lemma keys_of_map {K} (keys : list (string * K)) (m : gmap string K) :
  keys ≡ₚ map_to_list m → NoDup keys.*1 ∧ list_to_map keys = m.
Proof.
  intros Hperm. assert (NoDup keys.*1) as Hnd by (rewrite Hperm; apply NoDup_fst_map_to_list).
  split; [done|]. rewrite (list_to_map_proper _ _ Hnd Hperm). apply list_to_map_to_list.
Qed.

(** A book with identifiers that JSON keeps is what its JSON reads as. *)
Definition json_ids (kb : keyBook) : Prop :=
  (∀ id v, pks kb !! id = Some v → json_text id) ∧ (∀ id v, sks kb !! id = Some v → json_text id).

Lemma Unmarshal_Marshal_book kb : json_ids kb →
  ∃ d, kb_MarshalJSON kb = inl d ∧ kb_UnmarshalJSON d newKeyBook = (Ok tt, kb).
Proof.
  intros [Hpks Hsks]. unfold kb_MarshalJSON.
  destruct (Unmarshal_Marshal_keys (<["private_keys" := key_texts MarshalPrivateKey (sks kb)]>
    {[ "public_keys" := key_texts MarshalPublicKey (pks kb) ]})) as (d & Hd & Hdec).
  { assert (∀ v, ∃ d, MarshalPublicKey v = inl d) as Hpub by (intros v; destruct (Unmarshal_MarshalPublic v) as (d & ? & _); eauto).
    assert (∀ v, ∃ d, MarshalPrivateKey v = inl d) as Hpriv by (intros v; destruct (Unmarshal_MarshalPrivate v) as (d & ? & _); eauto).
    intros name part. rewrite !key_texts_all by done.
    intros [[<- <-]|[_ [<- <-]%lookup_singleton_Some]]%lookup_insert_Some; (split; [apply json_text_name|]);
      intros id v (x & <- & Hx)%lookup_fmap_Some; (split; [by eauto|]); unfold text_of.
    - destruct (Hpriv x) as [d ->]. apply json_text_key.
    - destruct (Hpub x) as [d ->]. apply json_text_key. }
  exists d. split; [done|]. unfold kb_UnmarshalJSON, mbind, stM_bind, st_lift. rewrite Hdec. cbn [of_sum].
  rewrite lookup_insert_ne, lookup_singleton_eq, lookup_insert_eq by done.
  destruct (load_part_run MarshalPublicKey UnmarshalPublicKey kb_AddPubKey
    (λ k pk kb, mkKeyBook (<[k := pk]> (pks kb)) (sks kb)) (pks kb) newKeyBook Unmarshal_MarshalPublic)
    as (keys & [Hnd Hm]%keys_of_map & ->); [done|].
  rewrite foldl_pks by done. rewrite Hm.
  destruct (load_part_run MarshalPrivateKey UnmarshalPrivateKey (λ k sk, kb_AddPrivKey k (Some sk))
    (λ k sk kb, mkKeyBook (pks kb) (<[k := sk]> (sks kb))) (sks kb)
    (mkKeyBook (pks kb ∪ pks newKeyBook) (sks newKeyBook)) Unmarshal_MarshalPrivate)
    as (skeys & [Hsnd Hsm]%keys_of_map & ->); [done|].
  rewrite foldl_sks by done. rewrite Hsm. cbn [newKeyBook pks sks]. rewrite (right_id_L (∅ : gmap string PubKey) (∪)), (right_id_L (∅ : gmap string PrivKey) (∪)). by destruct kb.
Qed.

(** What a text reads as has identifiers that JSON keeps. *)
Lemma load_keys_ids {K} of_bytes (add : string → K → stM keyBook unit) l kb :
  (∀ k v kb, json_text k → json_ids kb → json_ids (add k v kb).2) →
  Forall (λ t, json_text t.1) l → json_ids kb → json_ids (load_keys of_bytes add l kb).2.
Proof.
  intros Hadd Hl. revert kb. induction Hl as [|[k t] l Hk _ IH]; intros kb Hkb; [done|].
  cbn [load_keys]. unfold mbind, stM_bind, st_lift.
  destruct (ConfigDecodeKey t) as [d|e]; [|done]. cbn [of_sum]. destruct (of_bytes d) as [v|e]; [|done]. cbn [of_sum].
  pose proof (Hadd k v kb Hk Hkb) as Hkb'. destruct (add k v kb) as [[?|?|] kb']; [by apply IH|done..].
Qed.

Lemma AddPubKey_ids k v kb : json_text k → json_ids kb → json_ids (kb_AddPubKey k v kb).2.
Proof. intros Hk [Hp Hs]. split; [|done]. intros id x. cbn. intros [[<- _]|[_ Hx]]%lookup_insert_Some; [done|by eapply Hp]. Qed.
Lemma AddPrivKey_ids k v kb : json_text k → json_ids kb → json_ids (kb_AddPrivKey k (Some v) kb).2.
Proof. intros Hk [Hp Hs]. split; [done|]. intros id x. cbn. intros [[<- _]|[_ Hx]]%lookup_insert_Some; [done|by eapply Hs]. Qed.

Lemma load_part_ids {K} of_bytes (add : string → K → stM keyBook unit) data m name kb :
  (∀ k v kb, json_text k → json_ids kb → json_ids (add k v kb).2) →
  json_Unmarshal_keys data = inl m → json_ids kb → json_ids (load_part of_bytes add (m !! name) kb).2.
Proof.
  intros Hadd Hdata Hkb. unfold load_part. destruct (m !! name) as [part|] eqn:Hpart; [|done].
  apply load_keys_ids; [done| |done]. apply Forall_forall. intros [id v] Hid.
  rewrite walk_perm in Hid. apply elem_of_map_to_list in Hid. by eapply Unmarshal_text.
Qed.

Lemma Unmarshal_book_ids data kb : json_ids kb → json_ids (kb_UnmarshalJSON data kb).2.
Proof.
  intros Hkb. unfold kb_UnmarshalJSON, mbind at 1, stM_bind at 1, st_lift.
  destruct (json_Unmarshal_keys data) as [m|e] eqn:Hdata; [|done]. cbn [of_sum].
  pose proof (load_part_ids UnmarshalPublicKey kb_AddPubKey data m "public_keys" kb AddPubKey_ids Hdata Hkb) as Hpub.
  unfold mbind, stM_bind. destruct (load_part _ _ _ _) as [[?|?|] kb']; [|done..].
  exact (load_part_ids UnmarshalPrivateKey _ data m "private_keys" kb' AddPrivKey_ids Hdata Hpub).
Qed.

Lemma kb_UnmarshalJSON_no_panic data kb : (kb_UnmarshalJSON data kb).1 ≠ Panic.
Proof.
  assert (∀ K of_bytes (add : string → K → stM keyBook unit) part kb,
    (∀ k v kb, (add k v kb).1 ≠ Panic) → (load_part of_bytes add part kb).1 ≠ Panic) as Hpart.
  { clear. intros K of_bytes add [m|] kb Hadd; [|done]. cbn [load_part]. revert kb.
    induction (walk m) as [|[k t] l IH]; intros kb; [done|]. cbn [load_keys]. unfold mbind, stM_bind, st_lift.
    destruct (ConfigDecodeKey t) as [d|e]; [|done]. cbn [of_sum]. destruct (of_bytes d) as [v|e]; [|done]. cbn [of_sum].
    pose proof (Hadd k v kb). destruct (add k v kb) as [[?|?|] kb']; [apply IH|done..]. }
  unfold kb_UnmarshalJSON, mbind at 1, stM_bind at 1, st_lift.
  destruct (json_Unmarshal_keys data) as [m|e]; [|done]. cbn [of_sum].
  pose proof (Hpart _ UnmarshalPublicKey kb_AddPubKey (m !! "public_keys") kb ltac:(done)) as Hp.
  unfold mbind, stM_bind. destruct (load_part _ _ _ _) as [[?|?|] kb']; [by apply Hpart|done..].
Qed.
End book.

(** ** The promises *)
#[export] Instance memStore_laws `{KeyLib} : KeyStoreLaws keyBook.
Proof. refine {| key_contents kb := kb; key_id _ := True |}; [done..|by intros; eexists|by intros; eexists]. Defined.

Section local.
Context `{L : KeyLib, !KeyLibLaws L, W : MapWalk, J : KeyJSON, JL : !KeyJSONLaws J}.
Context {F : Type} `{!LockedFile F, FL : !LockedFileLaws F}.

Definition lk_contents (s : localKeys F) : keyBook := match lk_keys s with Ok kb => kb | _ => newKeyBook end.

Lemma lk_keys_run s : lk_keys s = Ok (lk_contents s) ∧ json_ids (lk_contents s).
Proof.
  assert (json_ids newKeyBook) as Hnew by (by split; intros ??).
  unfold lk_contents. assert (∃ kb, lk_keys s = Ok kb ∧ json_ids kb) as (kb & -> & Hkb); [|done].
  unfold lk_keys. rewrite Lock_free. pose proof (Read_content (lk_file s)) as Hread.
  destruct (file_content (lk_file s)) as [data|].
  - rewrite Hread. pose proof (Unmarshal_book_ids data newKeyBook Hnew) as Hids.
    pose proof (kb_UnmarshalJSON_no_panic data newKeyBook) as Hp.
    destruct (kb_UnmarshalJSON data newKeyBook) as [[?|?|] kb]; [by exists kb..|done].
  - destruct Hread as (e & -> & ->). by exists newKeyBook.
Qed.

Lemma lk_save_run kb s : json_ids kb →
  ∃ s', lk_saveFile kb s = (Ok tt, s') ∧ lk_contents s' = kb.
Proof.
  intros Hkb. destruct (Unmarshal_Marshal_book kb Hkb) as (d & Hd & Hread).
  unfold lk_saveFile, mbind, stM_bind, st_lift, st_get. rewrite Hd. cbn [of_sum]. rewrite Lock_free.
  unfold st_zoom. destruct (Write_content d (lk_file s)) as (f' & -> & Hf').
  eexists. split; [done|]. unfold lk_contents, lk_keys, set_lk_file. cbn [lk_file].
  rewrite Lock_free. pose proof (Read_content f') as Hf. rewrite Hf' in Hf. by rewrite Hf, Hread.
Qed.

Lemma lk_add_run add kb' s : add (lk_contents s) = (Ok tt, kb') → json_ids kb' →
  ∃ s', lk_add add s = (Ok tt, s') ∧ lk_contents s' = kb'.
Proof.
  intros Hadd Hkb'. unfold lk_add, mbind at 1, stM_bind at 1, st_get, mbind, stM_bind, st_lift.
  destruct (lk_keys_run s) as [-> _]. rewrite Hadd. by apply lk_save_run.
Qed.

#[export] Instance localStore_laws : KeyStoreLaws (localKeys F).
Proof.
  refine {| key_contents := lk_contents; key_id := json_text |}.
  - intros id s. cbn. unfold lk_PubKey. by destruct (lk_keys_run s) as [-> _].
  - intros id s. cbn. unfold lk_PrivKey. by destruct (lk_keys_run s) as [-> _].
  - intros id pk s Hid. apply lk_add_run; [done|]. apply (AddPubKey_ids id pk (lk_contents s)); [done|apply lk_keys_run].
  - intros id sk s Hid. apply lk_add_run; [done|]. apply (AddPrivKey_ids id sk (lk_contents s)); [done|apply lk_keys_run].
Defined.
End local.
