(* ===== verification/ProfileStores.v ===== *)
(** * Profile stores (src/profile)

    Profiles, their plain form for files, and the two stores: one in memory,
    which shares its profiles with its callers, and one in a file of JSON that
    is read before and written after every change. Identifiers, addresses,
    keys, files and JSON are the environment's; the key store behind a profile
    store is any [KeyStore]. *)
From S2P Require Export GoStrings Refstore KeyStores.

Definition ErrProfileNotFound : error := ErrSentinel "profile: not found".
Definition ErrAmbiguousUsername : error := ErrSentinel "ambiguous username".
(** [qfs.ErrNotFound] *)
Definition qfs_ErrNotFound : error := ErrSentinel "path not found".

(** ** Profiles (profile.go, type.go) *)

(** [type Type int] *)
Definition TypePeer : Z := 0.
Definition TypeOrganization : Z := 1.
Definition Type_String (t : Z) : string :=
  if decide (t = TypePeer) then "peer" else if decide (t = TypeOrganization) then "organization" else "unknown".
Definition ParseType (t : string) : outcome Z :=
  if decide (t = "" ∨ t = "user" ∨ t = "peer") then Ok TypePeer
  else if decide (t = "organization") then Ok TypeOrganization
  else Error (Errorf "invalid Type %q" [t]).

(** [ma.Multiaddr] *)
Class Multiaddrs : Type := {
  Multiaddr : Type;
  NewMultiaddr : string → Multiaddr + error;
  Multiaddr_String : Multiaddr → string;
}.

Section profiles.
Context `{KeyLib, ProfileIDs, Multiaddrs}.

(** [type Profile struct] *)
Record Profile : Type := mkProfile {
  PrivKey_ : option PrivKey;
  PubKey_ : option PubKey;
  KeyID : string;
  ID_ : string;
  Created : Z;
  Updated : Z;
  Peername : string;
  Type_ : Z;
  Email : string;
  Name_ : string;
  Description : string;
  HomeURL : string;
  Color : string;
  Thumb : string;
  Photo : string;
  Poster : string;
  Twitter : string;
  Online : bool;
  PeerIDs_ : list string;
  NetworkAddrs : list Multiaddr;
}.

(** [config.ProfilePod] *)
Record ProfilePod : Type := mkPod {
  pod_ID : string;
  pod_PrivKey : string;
  pod_Peername : string;
  pod_Created : Z;
  pod_Updated : Z;
  pod_Type : string;
  pod_Email : string;
  pod_Name : string;
  pod_Description : string;
  pod_HomeURL : string;
  pod_Color : string;
  pod_Thumb : string;
  pod_Photo : string;
  pod_Poster : string;
  pod_Twitter : string;
  pod_Online : bool;
  pod_PeerIDs : list string;
  pod_NetworkAddrs : list string;
}.

(** [Profile.GetKeyID] and what it leaves in the profile *)
Definition GetKeyID (p : Profile) : string := if decide (KeyID p = "") then ID_String (ID_ p) else KeyID p.
Definition set_keys (sk : option PrivKey) (pk : option PubKey) (k : string) (p : Profile) : Profile :=
  mkProfile sk pk k (ID_ p) (Created p) (Updated p) (Peername p) (Type_ p) (Email p) (Name_ p)
    (Description p) (HomeURL p) (Color p) (Thumb p) (Photo p) (Poster p) (Twitter p) (Online p)
    (PeerIDs_ p) (NetworkAddrs p).
Definition with_KeyID (p : Profile) : Profile := set_keys (PrivKey_ p) (PubKey_ p) (GetKeyID p) p.

(** The parts of [Profile.Decode]: a peer identifier that does not decode
    stays empty, an address that does not is left out. *)
Definition decode_peer (idstr : string) : string :=
  match IDB58Decode (strings_TrimPrefix idstr "/ipfs/") with Ok id => id | _ => "" end.
Definition decode_addrs (l : list string) : list Multiaddr :=
  omap (λ s, match NewMultiaddr s with inl a => Some a | inr _ => None end) l.
Definition decode_privkey (text : string) : outcome (option PrivKey) :=
  if decide (text = "") then Ok None
  else
    match base64_DecodeString text with
    | Error e => Error (Errorf "decoding private key: %s" [error_text e])
    | Panic => Panic
    | Ok data =>
        match UnmarshalPrivateKey data with
        | inr e => Error (Errorf "invalid private key: %s" [error_text e])
        | inl pk => Ok (Some pk)
        end
    end.

(** [Profile.Decode], and [NewProfile]: a profile decoded into is left as it
    was by an error. *)
Definition Decode (sp : ProfilePod) : outcome Profile :=
  match IDB58Decode (pod_ID sp) with
  | Error e => Error (Errorf ("parsing profile.ID " +:+ quoted "%s" +:+ ": %s") [pod_ID sp; error_text e])
  | Panic => Panic
  | Ok id =>
      match ParseType (pod_Type sp) with
      | Error e => Error (Errorf ("parsing profileType " +:+ quoted "%s" +:+ ": %s") [pod_Type sp; error_text e])
      | Panic => Panic
      | Ok t =>
          sk ← decode_privkey (pod_PrivKey sp);
          let pro := mkProfile None None "" id (pod_Created sp) (pod_Updated sp) (pod_Peername sp) t
            (pod_Email sp) (pod_Name sp) (pod_Description sp) (pod_HomeURL sp) (pod_Color sp)
            (pod_Thumb sp) (pod_Photo sp) (pod_Poster sp) (pod_Twitter sp) false
            (map decode_peer (pod_PeerIDs sp)) (decode_addrs (pod_NetworkAddrs sp)) in
          Ok (match sk with
              | Some pk => with_KeyID (set_keys (Some pk) (Some (GetPublic pk)) "" pro)
              | None => pro
              end)
      end
  end.

(** [Profile.Encode] *)
Definition encode_privkey (sk : option PrivKey) : outcome string :=
  match sk with
  | None => Ok ""
  | Some sk => pkB ← of_sum (MarshalPrivateKey sk); Ok (base64_EncodeToString pkB)
  end.
Definition Encode (p : Profile) : outcome ProfilePod :=
  text ← encode_privkey (PrivKey_ p);
  Ok (mkPod (ID_String (ID_ p)) text (Peername p) (Created p) (Updated p) (Type_String (Type_ p))
    (Email p) (Name_ p) (Description p) (HomeURL p) (Color p) (Thumb p) (Photo p) (Poster p) (Twitter p)
    (Online p) (map (λ pid, "/ipfs/" +:+ ID_String pid) (PeerIDs_ p)) (map Multiaddr_String (NetworkAddrs p))).

(** [Profile.ValidOwnerProfile] on a profile that is not nil *)
Definition ValidOwnerProfile (p : Profile) : outcome unit :=
  match PrivKey_ p with
  | None => Error (Errorf "private key is required" [])
  | Some _ => Ok tt
  end.

(** [newAmbiguousUsernamesError], whose text is that of the error it wraps and
    whose message is the argument, and [ResolveUsername], on what
    [ProfilesForUsername] answers *)
Definition tab : string := String (byte 9) "".
Definition newline : string := String (byte 10) "".
Definition describe (p : Profile) : string := ID_String (ID_ p) +:+ tab +:+ Email p.
Definition newAmbiguousUsernamesError (pros : list Profile) : error :=
  ErrWrap "%w" [match pros with
                | [] => ""
                | p :: _ =>
                    "multiple profiles exist for the username " +:+ quoted (Peername p) +:+ "." +:+ newline +:+
                    "profileID" +:+ tab +:+ "email" +:+ newline +:+ strings_Join (map describe pros) newline
                end] ErrAmbiguousUsername.
Definition ResolveUsername (found : outcome (list Profile)) : outcome Profile :=
  pros ← found;
  match pros with
  | [] => Error ErrProfileNotFound
  | [p] => Ok p
  | _ => Error (newAmbiguousUsernamesError pros)
  end.

(** ** The store in memory

    Its profiles live in the heap of the program, and callers hold pointers to
    them too; a nil or dangling pointer panics. *)
Section mem.
Context {K : Type} `{!KeyStore K, MapWalk}.
Abbreviation ptr := positive.

Record MemStore : Type := mkMemStore {
  m_owner : ptr;
  m_store : gmap string ptr;
  m_keys : K;
  m_heap : gmap ptr Profile;
}.
Abbreviation MM := (stM MemStore).
Definition set_m_owner (o : ptr) (m : MemStore) : MemStore := mkMemStore o (m_store m) (m_keys m) (m_heap m).
Definition set_m_store (s : gmap string ptr) (m : MemStore) : MemStore := mkMemStore (m_owner m) s (m_keys m) (m_heap m).
Definition set_m_keys (k : K) (m : MemStore) : MemStore := mkMemStore (m_owner m) (m_store m) k (m_heap m).
Definition set_m_heap (h : gmap ptr Profile) (m : MemStore) : MemStore := mkMemStore (m_owner m) (m_store m) (m_keys m) h.

Definition load_profile (l : ptr) : MM Profile := λ m, (of_option Panic (m_heap m !! l), m).
Definition store_ (l : ptr) (p : Profile) : MM unit := st_modify (λ m, set_m_heap (<[l := p]> (m_heap m)) m).
Definition on_keys {A} (c : stM K A) : MM A := st_zoom m_keys set_m_keys c.

(** [p.GetKeyID()] through a pointer *)
Definition load_KeyID (l : ptr) : MM string := p ← load_profile l; store_ l (with_KeyID p);; mret (GetKeyID p).

(** [NewMemStore] *)
Definition NewMemStore (owner : ptr) (ks : K) (heap : gmap ptr Profile) : outcome MemStore :=
  p ← of_option Panic (heap !! owner);
  ValidOwnerProfile p;;
  match ks_AddPrivKey (GetKeyID p) (PrivKey_ p) ks with
  | (Ok _, ks) => Ok (mkMemStore owner {[ ID_ p := owner ]} ks (<[owner := with_KeyID p]> heap))
  | (Error e, _) => Error e
  | (Panic, _) => Panic
  end.

Definition mem_Owner (m : MemStore) : ptr := m_owner m.
Definition mem_SetOwner (own : ptr) : MM unit := st_modify (set_m_owner own).

(** [MemStore.PutProfile] *)
Definition mem_PutProfile (l : ptr) : MM unit :=
  p ← load_profile l;
  if decide (ID_String (ID_ p) = "") then st_fail (Errorf "profile.ID is required" [])
  else
    st_modify (λ m, set_m_store (<[ID_ p := l]> (m_store m)) m);;
    match PubKey_ p with
    | Some pk => k ← load_KeyID l; on_keys (ks_AddPubKey k pk)
    | None => mret tt
    end;;
    match PrivKey_ p with
    | Some sk => k ← load_KeyID l; on_keys (ks_AddPrivKey k (Some sk))
    | None => mret tt
    end.

(** The walks over the map; a pointer of the map is dereferenced. *)
Fixpoint first_entry (f : string → Profile → bool) (l : list (string * ptr)) (h : gmap ptr Profile)
    : outcome (option (string * ptr)) :=
  match l with
  | [] => Ok None
  | (id, q) :: l => p ← of_option Panic (h !! q); if f id p then Ok (Some (id, q)) else first_entry f l h
  end.

Definition mem_PeernameID (peername : string) (m : MemStore) : outcome string :=
  found ← first_entry (λ _ p, bool_decide (Peername p = peername)) (walk (m_store m)) (m_heap m);
  match found with Some (id, _) => Ok id | None => Error ErrProfileNotFound end.
Definition mem_PeerProfile (id : string) (m : MemStore) : outcome ptr :=
  found ← first_entry (λ _ p, bool_decide (id ∈ PeerIDs_ p)) (walk (m_store m)) (m_heap m);
  match found with Some (_, l) => Ok l | None => Error ErrProfileNotFound end.
Definition mem_PeerIDs (id : string) (m : MemStore) : outcome (list string) :=
  match m_store m !! id with
  | Some l => p ← of_option Panic (m_heap m !! l); Ok (PeerIDs_ p)
  | None => Error ErrProfileNotFound
  end.
Definition mem_List (m : MemStore) : gmap string ptr := m_store m.

(** [MemStore.GetProfile] writes the keys into the profile it answers. *)
Definition mem_GetProfile (id : string) : MM ptr :=
  m ← st_get;
  match m_store m !! id with
  | None => st_fail ErrProfileNotFound
  | Some l =>
      k ← load_KeyID l;
      p ← load_profile l;
      m ← st_get;
      store_ l (set_keys (ks_PrivKey k (m_keys m)) (ks_PubKey k (m_keys m)) k p);;
      mret l
  end.

Fixpoint all_entries (f : Profile → bool) (l : list (string * ptr)) (h : gmap ptr Profile) : outcome (list ptr) :=
  match l with
  | [] => Ok []
  | (_, q) :: l =>
      p ← of_option Panic (h !! q);
      rest ← all_entries f l h;
      Ok (if f p then q :: rest else rest)
  end.
Definition mem_ProfilesForUsername (username : string) (m : MemStore) : outcome (list ptr) :=
  all_entries (λ p, bool_decide (Peername p = username)) (walk (m_store m)) (m_heap m).

Definition mem_DeleteProfile (id : string) : MM unit := st_modify (λ m, set_m_store (delete id (m_store m)) m).
End mem.

(** ** The store in a file *)

(** A map of pods as JSON: what was read before an error is kept, and [null]
    is a nil pointer. *)
Class PodJSON : Type := {
  json_Marshal_pods : gmap string (option ProfilePod) → string + error;
  json_Unmarshal_pods : string → gmap string (option ProfilePod) * option error;
}.

Section local.
Context {K F : Type} `{!KeyStore K, !LockedFile F, !PodJSON, MapWalk}.

Record LocalStore : Type := mkLocalStore {
  l_owner : Profile;
  l_keys : K;
  l_file : F;
}.
Abbreviation LM := (stM LocalStore).
Definition set_l_owner (o : Profile) (s : LocalStore) : LocalStore := mkLocalStore o (l_keys s) (l_file s).
Definition set_l_keys (k : K) (s : LocalStore) : LocalStore := mkLocalStore (l_owner s) k (l_file s).
Definition set_l_file (f : F) (s : LocalStore) : LocalStore := mkLocalStore (l_owner s) (l_keys s) f.

(** [NewLocalStore]: the owner is not written to the file. *)
Definition NewLocalStore (file : F) (owner : Profile) (ks : K) : outcome LocalStore :=
  ValidOwnerProfile owner;;
  match ks_AddPrivKey (GetKeyID owner) (PrivKey_ owner) ks with
  | (Ok _, ks) => Ok (mkLocalStore (with_KeyID owner) ks file)
  | (Error e, _) => Error e
  | (Panic, _) => Panic
  end.

(** [LocalStore.profiles]: a text that does not parse is read as what was
    parsed of it. *)
Definition l_profiles (s : LocalStore) : outcome (gmap string (option ProfilePod)) :=
  match flock_Lock (l_file s) with
  | Some e => Error e
  | None =>
      match file_Read (l_file s) with
      | inr e => if missing e then Ok ∅ else Error (Errorf "error loading peers: %s" [error_text e])
      | inl data => Ok (json_Unmarshal_pods data).1
      end
  end.

(** [LocalStore.saveFile] *)
Definition l_saveFile (ps : gmap string (option ProfilePod)) : LM unit :=
  data ← st_lift (of_sum (json_Marshal_pods ps));
  s ← st_get;
  match flock_Lock (l_file s) with
  | Some e => st_fail e
  | None => st_zoom l_file set_l_file (file_Write data)
  end.

Definition not_online (enc : ProfilePod) : ProfilePod :=
  mkPod (pod_ID enc) (pod_PrivKey enc) (pod_Peername enc) (pod_Created enc) (pod_Updated enc) (pod_Type enc)
    (pod_Email enc) (pod_Name enc) (pod_Description enc) (pod_HomeURL enc) (pod_Color enc) (pod_Thumb enc)
    (pod_Photo enc) (pod_Poster enc) (pod_Twitter enc) false (pod_PeerIDs enc) (pod_NetworkAddrs enc).

(** [LocalStore.PutProfile]; the key identifier it fills in in the caller's
    profile is the one every reader of a profile fills in. *)
Definition local_PutProfile (p : Profile) : LM unit :=
  if decide (ID_String (ID_ p) = "") then st_fail (Errorf "profile ID is required" [])
  else
    enc ← st_lift (match Encode p with
                   | Error e => Error (Errorf "error encoding profile: %s" [error_text e])
                   | r => r
                   end);
    match PubKey_ p with
    | Some pk => st_zoom l_keys set_l_keys (ks_AddPubKey (GetKeyID p) pk)
    | None => mret tt
    end;;
    match PrivKey_ p with
    | Some sk => st_zoom l_keys set_l_keys (ks_AddPrivKey (GetKeyID p) (Some sk))
    | None => mret tt
    end;;
    s ← st_get;
    ps ← st_lift (l_profiles s);
    l_saveFile (<[ID_String (ID_ p) := Some (not_online enc)]> ps).

Definition local_Owner (s : LocalStore) : Profile := l_owner s.
Definition local_SetOwner (own : Profile) : LM unit := st_modify (set_l_owner own);; local_PutProfile own.

(** [pro.Decode(cp)] of an entry *)
Definition decode_entry (cp : option ProfilePod) : outcome Profile :=
  match cp with Some cp => Decode cp | None => Panic end.
(** The keys of the key store, filled into a decoded profile *)
Definition fill_keys (s : LocalStore) (pro : Profile) : Profile :=
  set_keys (ks_PrivKey (GetKeyID pro) (l_keys s)) (ks_PubKey (GetKeyID pro) (l_keys s)) (GetKeyID pro) pro.

Definition local_PeerIDs (id : string) (s : LocalStore) : outcome (list string) :=
  ps ← l_profiles s;
  match ps !! ID_String id with
  | Some cp => pro ← decode_entry cp; Ok (PeerIDs_ pro)
  | None => Error ErrProfileNotFound
  end.

(** [LocalStore.GetProfile]; the profile that comes with an error is not
    looked at by callers. *)
Definition local_GetProfile (id : string) (s : LocalStore) : outcome Profile :=
  ps ← l_profiles s;
  match ps !! ID_String id with
  | Some cp => pro ← decode_entry cp; Ok (fill_keys s pro)
  | None => Error qfs_ErrNotFound
  end.

(** The walks over the entries; a nil pod is dereferenced. *)
Fixpoint first_pod (f : ProfilePod → bool) (l : list (string * option ProfilePod))
    : outcome (option (string * ProfilePod)) :=
  match l with
  | [] => Ok None
  | (id, cp) :: l => cp ← of_option Panic cp; if f cp then Ok (Some (id, cp)) else first_pod f l
  end.
Definition local_PeernameID (peername : string) (s : LocalStore) : outcome string :=
  ps ← l_profiles s;
  found ← first_pod (λ cp, bool_decide (pod_Peername cp = peername)) (walk ps);
  match found with Some (id, _) => IDB58Decode id | None => Error qfs_ErrNotFound end.
Definition local_PeerProfile (id : string) (s : LocalStore) : outcome Profile :=
  ps ← l_profiles s;
  found ← first_pod (λ cp, bool_decide ("/ipfs/" +:+ ID_String id ∈ pod_PeerIDs cp)) (walk ps);
  match found with Some (_, cp) => Decode cp | None => Error qfs_ErrNotFound end.

(** [LocalStore.List] *)
Fixpoint list_loop (l : list (string * option ProfilePod)) (profiles : gmap string Profile)
    : outcome (gmap string Profile) :=
  match l with
  | [] => Ok profiles
  | (_, cp) :: l => pro ← decode_entry cp; list_loop l (<[ID_ pro := pro]> profiles)
  end.
Definition local_List (s : LocalStore) : outcome (gmap string Profile) :=
  match l_profiles s with
  | Ok ps => list_loop (walk ps) ∅
  | Error e => if decide (error_text e = "EOF") then Ok ∅ else Error e
  | Panic => Panic
  end.

(** [LocalStore.ProfilesForUsername]: an entry that does not decode is passed
    over. *)
Fixpoint username_loop (username : string) (s : LocalStore) (l : list (string * option ProfilePod))
    : outcome (list Profile) :=
  match l with
  | [] => Ok []
  | (_, cp) :: l =>
      p ← of_option Panic cp;
      if decide (pod_Peername p = username) then
        match Decode p with
        | Ok pro => rest ← username_loop username s l; Ok (fill_keys s pro :: rest)
        | Error _ => username_loop username s l
        | Panic => Panic
        end
      else username_loop username s l
  end.
Definition local_ProfilesForUsername (username : string) (s : LocalStore) : outcome (list Profile) :=
  ps ← l_profiles s; username_loop username s (walk ps).

(** [LocalStore.DeleteProfile] *)
Definition local_DeleteProfile (id : string) : LM unit :=
  s ← st_get;
  ps ← st_lift (l_profiles s);
  l_saveFile (delete (ID_String id) ps).
End local.
End profiles.

Arguments MemStore {_ _} K.
Arguments LocalStore {_ _} K F.

(** [NewStore], once the owner's profile is decoded: which stores a
    configuration asks for. The files of a local store, peers.json and
    keystore.json, are in the directory of the configuration's path. The type
    of the repository is read before the test whether there is one. *)
Record StoreConfig : Type := mkStoreConfig { cfg_Repo_Type : option string; cfg_Path : string }.
Inductive store_kind : Type :=
| MemKind
| LocalKind (beside : string).
Definition key_NewStore_kind (cfg : StoreConfig) : outcome store_kind :=
  match cfg_Repo_Type cfg with
  | None => Ok MemKind
  | Some t =>
      if decide (t = "fs") then
        if decide (cfg_Path cfg = "") then Error (Errorf "new key.LocalStore requires non-empty path" [])
        else Ok (LocalKind (cfg_Path cfg))
      else if decide (t = "mem") then Ok MemKind
      else Error (Errorf "unknown repo type: %s" [t])
  end.
Definition NewStore_kind (cfg : StoreConfig) : outcome (store_kind * store_kind) :=
  t ← of_option Panic (cfg_Repo_Type cfg);
  if decide (t = "fs" ∧ cfg_Path cfg = "") then
    Error (Errorf "new Profile.FilesystemStore requires non-empty path" [])
  else
    keyStore ← key_NewStore_kind cfg;
    if decide (t = "fs") then Ok (LocalKind (cfg_Path cfg), keyStore)
    else if decide (t = "mem") then Ok (MemKind, keyStore)
    else Error (Errorf "unknown repo type: %s" [t]).
