(* ===== verification/ProfileStoreFacts.v ===== *)
(** * Facts of the profile stores

    Decoding undoes encoding, and what each store does with one put, get and
    delete, against an abstract store: a map of profiles without their keys,
    and a book of keys. *)
From S2P Require Export ProfileStores KeyStores.

(** Identifiers that are valid are read from their text, which is not empty. *)
Class ProfileIDLaws `(P : ProfileIDs) : Type := {
  valid_id : string → Prop;
  Decode_ID_String id : valid_id id → IDB58Decode (ID_String id) = Ok id;
  ID_String_nonempty id : valid_id id → ID_String id ≠ "";
}.
Class MultiaddrLaws `(A : Multiaddrs) : Prop :=
  New_Multiaddr_String a : NewMultiaddr (Multiaddr_String a) = inl a.
(** JSON keeps the pods whose texts are UTF-8, and gives no others. *)
Class PodJSONLaws `(J : PodJSON) : Type := {
  pod_kept : ProfilePod → Prop;
  Unmarshal_Marshal_pods m : (∀ id pod, m !! id = Some (Some pod) → pod_kept pod) →
    ∃ d, json_Marshal_pods m = inl d ∧ json_Unmarshal_pods d = (m, None);
  Unmarshal_kept d id pod : (json_Unmarshal_pods d).1 !! id = Some (Some pod) → pod_kept pod;
}.

Section profiles.
Context `{L : KeyLib, !KeyLibLaws L, P : ProfileIDs, PL : !ProfileIDLaws P, A : Multiaddrs, !MultiaddrLaws A}.

Definition offline (p : Profile) : Profile :=
  mkProfile (PrivKey_ p) (PubKey_ p) (KeyID p) (ID_ p) (Created p) (Updated p) (Peername p) (Type_ p) (Email p)
    (Name_ p) (Description p) (HomeURL p) (Color p) (Thumb p) (Photo p) (Poster p) (Twitter p) false
    (PeerIDs_ p) (NetworkAddrs p).

(** A profile without what its keys add, and what its connection adds *)
Definition bare (p : Profile) : Profile := set_keys None None "" p.
Definition core (p : Profile) : Profile := bare (offline p).

(** A profile a file can hold *)
Record encodable (p : Profile) : Prop := {
  enc_id : valid_id (ID_ p);
  enc_type : Type_ p = TypePeer ∨ Type_ p = TypeOrganization;
  enc_peers : Forall valid_id (PeerIDs_ p);
}.

(** What is read back of it *)
Definition stored_form (p : Profile) : Profile :=
  match PrivKey_ p with
  | Some sk => set_keys (Some sk) (Some (GetPublic sk)) (ID_String (ID_ p)) (offline p)
  | None => core p
  end.

Lemma decode_encode_privkey sk : ∃ text, encode_privkey sk = Ok text ∧ decode_privkey text = Ok sk.
Proof.
  destruct sk as [sk|]; [|by eexists]. destruct (Unmarshal_MarshalPrivate sk) as (d & Hd & Hsk).
  exists (base64_EncodeToString d). cbn [encode_privkey]. rewrite Hd. split; [done|].
  unfold decode_privkey. rewrite decide_False.
  - by rewrite base64_Decode_Encode, Hsk.
  - intros Heq. apply (MarshalPrivate_nonempty _ _ Hd). pose proof (base64_Decode_Encode d) as Hb.
    rewrite Heq in Hb. vm_compute in Hb. by injection Hb.
Qed.

Lemma decode_peers l : Forall valid_id l → map decode_peer (map (λ pid, "/ipfs/" +:+ ID_String pid) l) = l.
Proof.
  induction 1 as [|pid l Hpid _ IH]; [done|]. cbn [map]. rewrite IH. f_equal.
  unfold decode_peer. by rewrite strings_TrimPrefix_app, Decode_ID_String.
Qed.

Lemma decode_addrs_strings l : decode_addrs (map Multiaddr_String l) = l.
Proof. induction l as [|a l IH]; [done|]. cbn. rewrite New_Multiaddr_String. by f_equal. Qed.

Lemma ParseType_String t : t = TypePeer ∨ t = TypeOrganization → ParseType (Type_String t) = Ok t.
Proof. by intros [-> | ->]. Qed.

Lemma Decode_Encode_form p : encodable p →
  ∃ pod, Encode p = Ok pod ∧ Decode (not_online pod) = Ok (stored_form p).
Proof.
  intros [Hid Hty Hpeers]. destruct (decode_encode_privkey (PrivKey_ p)) as (text & Henc & Hdec).
  unfold Encode. rewrite Henc. eexists. split; [done|].
  unfold Decode, not_online. cbn [pod_ID pod_PrivKey pod_Peername pod_Created pod_Updated pod_Type pod_Email pod_Name
    pod_Description pod_HomeURL pod_Color pod_Thumb pod_Photo pod_Poster pod_Twitter pod_PeerIDs pod_NetworkAddrs].
  rewrite Decode_ID_String, ParseType_String, Hdec by done. cbn [mbind outcome_bind].
  rewrite decode_peers, decode_addrs_strings by done. unfold stored_form.
  by destruct (PrivKey_ p) as [sk|]; destruct p.
Qed.

Lemma core_stored_form p : core (stored_form p) = core p.
Proof. unfold stored_form. by destruct (PrivKey_ p). Qed.

(** Every reader uses the same key identifier. *)
Definition default_key (p : Profile) : Prop := KeyID p = "" ∨ KeyID p = ID_String (ID_ p).
Lemma GetKeyID_default p : default_key p → GetKeyID p = ID_String (ID_ p).
Proof. unfold GetKeyID. intros [-> | ->]; [done|]. by case_decide as Heq. Qed.

Lemma stored_default p : default_key (stored_form p).
Proof. unfold stored_form, default_key. destruct (PrivKey_ p); cbn; auto. Qed.

(** ** The abstract store *)
Record spec_store : Type := mkSpec {
  sp_profiles : gmap string Profile;
  sp_keys : keyBook;
}.

(** The profile with the keys of the book *)
Definition keyed (kb : keyBook) (p : Profile) : Profile :=
  set_keys (sks kb !! ID_String (ID_ p)) (pks kb !! ID_String (ID_ p)) (ID_String (ID_ p)) p.

Definition add_keys (p : Profile) (kb : keyBook) : keyBook :=
  let kb := match PubKey_ p with Some pk => mkKeyBook (<[ID_String (ID_ p) := pk]> (pks kb)) (sks kb) | None => kb end in
  match PrivKey_ p with Some sk => mkKeyBook (pks kb) (<[ID_String (ID_ p) := sk]> (sks kb)) | None => kb end.

Definition spec_Put (p : Profile) (a : spec_store) : spec_store :=
  mkSpec (<[ID_ p := bare p]> (sp_profiles a)) (add_keys p (sp_keys a)).
Definition spec_Get (id : string) (a : spec_store) : option Profile := keyed (sp_keys a) <$> sp_profiles a !! id.
Definition spec_Delete (id : string) (a : spec_store) : spec_store :=
  mkSpec (delete id (sp_profiles a)) (sp_keys a).

(** The keys of a profile, added to a key store *)
Section keys.
Context {K S : Type} `{!KeyStore K, KL : !KeyStoreLaws K}.
Context (get : S → K) (set : K → S → S).
Context (get_set : ∀ k s, get (set k s) = k) (set_set : ∀ k k' s, set k (set k' s) = set k s) (set_get : ∀ s, set (get s) s = s).

Definition put_keys (p : Profile) : stM S unit :=
  match PubKey_ p with Some pk => st_zoom get set (ks_AddPubKey (ID_String (ID_ p)) pk) | None => mret tt end;;
  match PrivKey_ p with Some sk => st_zoom get set (ks_AddPrivKey (ID_String (ID_ p)) (Some sk)) | None => mret tt end.

Lemma put_keys_run p s : key_id (ID_String (ID_ p)) →
  ∃ k, put_keys p s = (Ok tt, set k s) ∧ key_contents k = add_keys p (key_contents (get s)).
Proof.
  intros Hid. unfold put_keys.
  assert (∃ k, match PubKey_ p with Some pk => st_zoom get set (ks_AddPubKey (ID_String (ID_ p)) pk) | None => mret tt end s =
    (Ok tt, set k s) ∧ key_contents k =
      match PubKey_ p with
      | Some pk => mkKeyBook (<[ID_String (ID_ p) := pk]> (pks (key_contents (get s)))) (sks (key_contents (get s)))
      | None => key_contents (get s)
      end) as (k & Hrun & Hk).
  { destruct (PubKey_ p) as [pk|]; [|exists (get s); by rewrite set_get].
    destruct (AddPubKey_contents (ID_String (ID_ p)) pk (get s) Hid) as (k & Hadd & Hk).
    exists k. unfold st_zoom. by rewrite Hadd. }
  rewrite (bind_run _ _ _ _ _ Hrun). unfold add_keys. rewrite <- Hk.
  destruct (PrivKey_ p) as [sk|]; [|by exists k].
  destruct (AddPrivKey_contents (ID_String (ID_ p)) sk k Hid) as (k' & Hadd & Hk').
  exists k'. unfold st_zoom. rewrite get_set, Hadd. by rewrite set_set.
Qed.
End keys.

Lemma then_run {S B} (m1 m2 : stM S unit) (k : stM S B) s s' :
  (m1;; m2) s = (Ok tt, s') → (m1;; m2;; k) s = k s'.
Proof.
  unfold mbind, stM_bind. destruct (m1 s) as [[?|?|] s1]; [|done..].
  destruct (m2 s1) as [[[]|?|] s2]; [|done..]. by intros [= <-].
Qed.

(** ** The store in a file *)
Section local.
Context {K F : Type} `{!KeyStore K, KL : !KeyStoreLaws K, !LockedFile F, FL : !LockedFileLaws F}.
Context `{J : !PodJSON, JL : !PodJSONLaws J, W : MapWalk}.
Context (id_key : ∀ id, valid_id id → key_id (ID_String id)).

(** A store in a file represents an abstract one. *)
Record local_rep (s : LocalStore K F) (a : spec_store) : Prop := {
  lr_keys : key_contents (l_keys s) = sp_keys a;
  lr_profiles : ∃ ps, l_profiles s = Ok ps ∧
    (∀ id c, sp_profiles a !! id = Some c → valid_id id ∧ ∃ pod p,
       ps !! ID_String id = Some (Some pod) ∧ Decode pod = Ok p ∧ offline c = core p ∧ p = offline p ∧ default_key p ∧ ID_ p = id) ∧
    (∀ id, valid_id id → sp_profiles a !! id = None → ps !! ID_String id = None);
}.

(** A profile whose pod JSON keeps *)
Definition writable_pod (p : Profile) : Prop := ∀ pod, Encode p = Ok pod → pod_kept (not_online pod).

Lemma l_profiles_run (s : LocalStore K F) :
  ∃ ps, l_profiles s = Ok ps ∧ ∀ id pod, ps !! id = Some (Some pod) → pod_kept pod.
Proof.
  unfold l_profiles. rewrite Lock_free. pose proof (Read_content (l_file s)) as Hread.
  destruct (file_content (l_file s)) as [data|].
  - rewrite Hread. eexists. split; [done|]. intros id pod. apply Unmarshal_kept.
  - destruct Hread as (e & -> & ->). eexists. split; [done|]. intros id pod Hp. by rewrite lookup_empty in Hp.
Qed.

Lemma l_save_run ps (s : LocalStore K F) : (∀ id pod, ps !! id = Some (Some pod) → pod_kept pod) →
  ∃ s', l_saveFile ps s = (Ok tt, s') ∧ l_keys s' = l_keys s ∧ l_profiles s' = Ok ps.
Proof.
  intros Hps. destruct (Unmarshal_Marshal_pods ps Hps) as (d & Hd & Hread).
  unfold l_saveFile, mbind, stM_bind, st_lift, st_get. rewrite Hd. cbn [of_sum]. rewrite Lock_free.
  unfold st_zoom. destruct (Write_content d (l_file s)) as (f' & -> & Hf').
  eexists. split; [done|]. split; [done|]. unfold l_profiles, set_l_file. cbn [l_file]. rewrite Lock_free.
  pose proof (Read_content f') as Hf. rewrite Hf' in Hf. by rewrite Hf, Hread.
Qed.

Lemma ID_String_inj id id' : valid_id id → valid_id id' → ID_String id = ID_String id' → id = id'.
Proof.
  intros Hid Hid' Heq. apply Decode_ID_String in Hid, Hid'. rewrite Heq in Hid. congruence.
Qed.

(** A put writes the keys to the key store and the pod to the file, beside
    whatever could be read of it. *)
Lemma local_Put_file p (s : LocalStore K F) ps : l_profiles s = Ok ps →
  encodable p → default_key p → writable_pod p →
  ∃ s' pod, local_PutProfile p s = (Ok tt, s') ∧ Encode p = Ok pod ∧ Decode (not_online pod) = Ok (stored_form p) ∧
    l_profiles s' = Ok (<[ID_String (ID_ p) := Some (not_online pod)]> ps) ∧
    key_contents (l_keys s') = add_keys p (key_contents (l_keys s)).
Proof.
  intros Hps Henc Hdef Hpod. destruct (Decode_Encode_form p Henc) as (pod & He & Hd). pose proof (enc_id p Henc) as Hid.
  unfold local_PutProfile. rewrite decide_False by (by apply ID_String_nonempty). rewrite He.
  rewrite (bind_run (st_lift (Ok pod)) _ s pod s eq_refl). rewrite !(GetKeyID_default p Hdef).
  destruct (put_keys_run l_keys set_l_keys ltac:(done) ltac:(done) (λ s : LocalStore K F, ltac:(by destruct s)) p s
    (id_key _ Hid)) as (k & Hrun & Hk).
  unfold put_keys in Hrun. rewrite (then_run _ _ _ _ _ Hrun).
  rewrite (bind_run st_get _ _ _ _ eq_refl).
  change (l_profiles (set_l_keys k s)) with (l_profiles s).
  rewrite (bind_run (st_lift _) _ _ ps (set_l_keys k s)) by (unfold st_lift; by rewrite Hps).
  destruct (l_profiles_run s) as (ps' & Hps' & Hkept). rewrite Hps in Hps'. injection Hps' as <-.
  destruct (l_save_run (<[ID_String (ID_ p) := Some (not_online pod)]> ps) (set_l_keys k s)) as (s' & Hsave & Hkeys' & Hread).
  { intros id pod' [[_ [= <-]]|[_ Hin']]%lookup_insert_Some; [by apply Hpod|by eapply Hkept]. }
  exists s', pod. split_and!; [done..|]. rewrite Hkeys'. exact Hk.
Qed.

Lemma local_Put_run p s a : local_rep s a → encodable p → default_key p → writable_pod p →
  ∃ s', local_PutProfile p s = (Ok tt, s') ∧ local_rep s' (spec_Put p a).
Proof.
  intros [Hkeys (ps & Hps & Hin & Hout)] Henc Hdef Hpod. pose proof (enc_id p Henc) as Hid.
  destruct (local_Put_file p s ps Hps Henc Hdef Hpod) as (s' & pod & Hput & He & Hd & Hread & Hkeys').
  exists s'. split; [done|]. split; [cbn [spec_Put sp_keys]; by rewrite Hkeys', Hkeys|].
  eexists. split; [done|]. unfold spec_Put. cbn [sp_profiles]. split.
  - intros id c [[<- <-]|[Hne Hc]]%lookup_insert_Some.
    + split; [done|]. exists (not_online pod), (stored_form p).
      rewrite lookup_insert_eq, core_stored_form. split_and!; [done|done|done| |apply stored_default|];
        unfold stored_form; by destruct (PrivKey_ p).
    + destruct (Hin id c Hc) as (Hv & pod' & q & Hq & Hrest). split; [done|]. exists pod', q.
      rewrite lookup_insert_ne; [done|]. intros Heq. by apply Hne, ID_String_inj.
  - intros id Hv [Hnone Hne]%lookup_insert_None. rewrite lookup_insert_ne; [by apply Hout|].
    intros Heq. by apply Hne, ID_String_inj.
Qed.

Lemma local_Get_run id s a : local_rep s a → valid_id id →
  local_GetProfile id s = match spec_Get id a with Some p => Ok (offline p) | None => Error qfs_ErrNotFound end.
Proof.
  intros [Hkeys (ps & Hps & Hin & Hout)] Hid. unfold local_GetProfile, spec_Get. rewrite Hps. cbn [mbind outcome_bind].
  destruct (sp_profiles a !! id) as [c|] eqn:Hc; cbn [fmap option_fmap option_map].
  - destruct (Hin id c Hc) as (_ & pod & p & -> & Hdec & Hcp & Hoff & Hdef & <-). cbn [decode_entry]. rewrite Hdec.
    cbn [mbind outcome_bind]. unfold fill_keys, keyed.
    rewrite (GetKeyID_default p Hdef), PrivKey_contents, PubKey_contents, Hkeys.
    assert (ID_ c = ID_ p) as -> by exact (f_equal ID_ Hcp). f_equal.
    change (set_keys (sks (sp_keys a) !! ID_String (ID_ p)) (pks (sp_keys a) !! ID_String (ID_ p)) (ID_String (ID_ p)) p =
      set_keys (sks (sp_keys a) !! ID_String (ID_ p)) (pks (sp_keys a) !! ID_String (ID_ p)) (ID_String (ID_ p)) (offline c)).
    rewrite Hoff. exact (f_equal (set_keys _ _ _) (eq_sym Hcp)).
  - by rewrite (Hout id Hid Hc).
Qed.

Lemma local_Delete_run id s a : local_rep s a → valid_id id →
  ∃ s', local_DeleteProfile id s = (Ok tt, s') ∧ local_rep s' (spec_Delete id a).
Proof.
  intros [Hkeys (ps & Hps & Hin & Hout)] Hid. unfold local_DeleteProfile.
  rewrite (bind_run st_get _ _ _ _ eq_refl).
  rewrite (bind_run (st_lift _) _ _ ps s) by (unfold st_lift; by rewrite Hps).
  destruct (l_profiles_run s) as (ps' & Hps' & Hkept). rewrite Hps in Hps'. injection Hps' as <-.
  destruct (l_save_run (delete (ID_String id) ps) s) as (s' & Hsave & Hkeys' & Hread).
  { intros id' pod' [_ Hin']%lookup_delete_Some. by eapply Hkept. }
  exists s'. split; [done|]. split; [by rewrite Hkeys'|]. eexists. split; [done|].
  unfold spec_Delete. cbn [sp_profiles]. split.
  - intros id' c [Hne Hc]%lookup_delete_Some. destruct (Hin id' c Hc) as (Hv & pod' & q & Hq & Hrest).
    split; [done|]. exists pod', q. rewrite lookup_delete_ne; [done|]. intros Heq. by apply Hne, ID_String_inj.
  - intros id' Hv Hnone. destruct (decide (ID_String id = ID_String id')) as [->|Hne]; [apply lookup_delete_eq|].
    rewrite lookup_delete_ne by done. apply Hout; [done|]. rewrite lookup_delete_ne in Hnone; [done|]. congruence.
Qed.
End local.

(** ** The store in memory *)
Section mem.
Context {K : Type} `{!KeyStore K, KL : !KeyStoreLaws K, W : MapWalk}.
Context (id_key : ∀ id, valid_id id → key_id (ID_String id)).

(** A store in memory represents an abstract one. *)
Record mem_rep (m : MemStore K) (a : spec_store) : Prop := {
  mr_keys : key_contents (m_keys m) = sp_keys a;
  mr_held : ∀ id l, m_store m !! id = Some l → ∃ p, m_heap m !! l = Some p ∧ ID_ p = id ∧
    sp_profiles a !! id = Some (bare p) ∧ default_key p;
  mr_none : ∀ id, m_store m !! id = None → sp_profiles a !! id = None;
}.

(** What [GetKeyID] and the key store leave of the heap: the profile at [l]
    but for its key identifier *)
Record touched (l : positive) (p : Profile) (m m' : MemStore K) : Prop := {
  to_store : m_store m' = m_store m;
  to_owner : m_owner m' = m_owner m;
  to_heap : ∃ p', m_heap m' = <[l := p']> (m_heap m) ∧ bare p' = bare p ∧ default_key p';
}.

Lemma with_KeyID_default p : default_key p → default_key (with_KeyID p).
Proof. intros Hp. right. exact (GetKeyID_default p Hp). Qed.

Lemma load_KeyID_run l p (m : MemStore K) : m_heap m !! l = Some p →
  load_KeyID l m = (Ok (GetKeyID p), set_m_heap (<[l := with_KeyID p]> (m_heap m)) m).
Proof. intros Hp. unfold load_KeyID, load_profile, mbind, stM_bind. by rewrite Hp. Qed.

(** One of the two steps that hand a key to the key store *)
Lemma add_key_run {X} l p (m : MemStore K) (o : option X) add k' :
  m_heap m !! l = Some p → default_key p →
  match o with
  | Some x => ∃ k, add (ID_String (ID_ p)) x (m_keys m) = (Ok tt, k) ∧ key_contents k = k'
  | None => key_contents (m_keys m) = k'
  end →
  ∃ m', match o with Some x => k ← load_KeyID l; on_keys (add k x) | None => mret tt end m = (Ok tt, m') ∧
    touched l p m m' ∧ key_contents (m_keys m') = k'.
Proof.
  intros Hp Hdef Hadd. destruct o as [x|].
  - destruct Hadd as (k & Hadd & Hk). rewrite (bind_run _ _ _ _ _ (load_KeyID_run l p m Hp)).
    rewrite (GetKeyID_default p Hdef). unfold on_keys, st_zoom. cbn [m_keys set_m_heap]. rewrite Hadd.
    eexists. split; [done|]. split; [|done]. split; [done..|].
    exists (with_KeyID p). split_and!; [done|done|by apply with_KeyID_default].
  - exists m. split; [done|]. split; [|done]. split; [done..|]. exists p. by rewrite insert_id.
Qed.

Lemma bare_fields p p' : bare p' = bare p → ID_ p' = ID_ p ∧ Type_ p' = Type_ p.
Proof. by destruct p, p'; intros [=]. Qed.

(** A touched store represents what the one before represents. *)
Lemma touched_rep l p m m' a k :
  mem_rep m a → m_heap m !! l = Some p → touched l p m m' → key_contents (m_keys m') = k →
  mem_rep m' (mkSpec (sp_profiles a) k).
Proof.
  intros [Hkeys Hheld Hnone] Hp [Hst _ (p' & Hheap & Hbare & Hdef)] Hk. split; [done| |].
  - intros id l'. rewrite Hst, Hheap. intros Hl. destruct (Hheld id l' Hl) as (q & Hq & Hid & Hspec & Hqd).
    destruct (decide (l = l')) as [<-|Hne].
    + rewrite Hp in Hq. injection Hq as <-. exists p'. rewrite lookup_insert_eq.
      destruct (bare_fields p p' Hbare) as [-> _]. split_and!; [done|done|by rewrite Hbare|done].
    + exists q. by rewrite lookup_insert_ne.
  - intros id. rewrite Hst. apply Hnone.
Qed.

(** Putting a profile that no other entry of the store shares *)
Lemma mem_Put_run l p m a : mem_rep m a → m_heap m !! l = Some p → (∀ id, m_store m !! id ≠ Some l) →
  valid_id (ID_ p) → default_key p →
  ∃ m', mem_PutProfile l m = (Ok tt, m') ∧ mem_rep m' (spec_Put p a).
Proof.
  intros [Hkeys Hheld Hnone] Hp Hfresh Hid Hdef. unfold mem_PutProfile.
  rewrite (bind_run (load_profile l) _ m p m) by (unfold load_profile; by rewrite Hp).
  rewrite decide_False by (by apply ID_String_nonempty).
  set (m1 := set_m_store (<[ID_ p := l]> (m_store m)) m).
  rewrite (bind_run (st_modify (λ m, set_m_store (<[ID_ p := l]> (m_store m)) m)) _ m tt m1 eq_refl).
  assert (mem_rep m1 (mkSpec (<[ID_ p := bare p]> (sp_profiles a)) (sp_keys a))) as Hrep1.
  { split; [done| |].
    - cbn [m1 set_m_store m_store m_heap sp_profiles]. intros id l' [[<- <-]|[Hne Hl]]%lookup_insert_Some.
      + exists p. by rewrite lookup_insert_eq.
      + rewrite lookup_insert_ne by done. by apply Hheld.
    - cbn [m1 set_m_store m_store sp_profiles]. intros id [Hl Hne]%lookup_insert_None.
      rewrite lookup_insert_ne by done. by apply Hnone. }
  destruct (add_key_run l p m1 (PubKey_ p) ks_AddPubKey
    (match PubKey_ p with
     | Some pk => mkKeyBook (<[ID_String (ID_ p) := pk]> (pks (sp_keys a))) (sks (sp_keys a))
     | None => sp_keys a
     end) Hp Hdef) as (m2 & Hrun2 & Hto2 & Hk2).
  { destruct (PubKey_ p) as [pk|]; [|done]. cbn [m1 set_m_store m_keys]. rewrite <- Hkeys.
    destruct (AddPubKey_contents (ID_String (ID_ p)) pk (m_keys m) (id_key _ Hid)) as (k & ? & ?); eauto. }
  rewrite (bind_run _ _ _ _ _ Hrun2).
  pose proof (touched_rep l p m1 m2 _ _ Hrep1 Hp Hto2 Hk2) as Hrep2.
  destruct Hto2 as [_ _ (p2 & Hheap2 & Hbare2 & Hdef2)].
  assert (m_heap m2 !! l = Some p2) as Hp2 by (by rewrite Hheap2, lookup_insert_eq).
  destruct (bare_fields p p2 Hbare2) as [Hid2 _].
  destruct (add_key_run l p2 m2 (PrivKey_ p) (λ k sk, ks_AddPrivKey k (Some sk)) (add_keys p (sp_keys a)) Hp2 Hdef2)
    as (m3 & Hrun3 & Hto3 & Hk3).
  { rewrite Hid2. unfold add_keys. rewrite <- Hk2. destruct (PrivKey_ p) as [sk|]; [|done].
    destruct (AddPrivKey_contents (ID_String (ID_ p)) sk (m_keys m2) (id_key _ Hid)) as (k & ? & ?); eauto. }
  exists m3. split; [exact Hrun3|].
  exact (touched_rep l p2 m2 m3 _ _ Hrep2 Hp2 Hto3 Hk3).
Qed.

Lemma mem_Get_None id m a : mem_rep m a → m_store m !! id = None →
  mem_GetProfile id m = (Error ErrProfileNotFound, m) ∧ spec_Get id a = None.
Proof.
  intros Hrep Hl. unfold mem_GetProfile. rewrite (bind_run st_get _ m m m eq_refl), Hl.
  split; [done|]. unfold spec_Get. by rewrite (mr_none m a Hrep id Hl).
Qed.

Lemma mem_Get_run id l m a : mem_rep m a → m_store m !! id = Some l →
  ∃ m' p, mem_GetProfile id m = (Ok l, m') ∧ mem_rep m' a ∧ m_heap m' !! l = Some p ∧
    spec_Get id a = Some p.
Proof.
  intros Hrep Hl. destruct (mr_held m a Hrep id l Hl) as (p & Hp & <- & Hspec & Hdef).
  unfold mem_GetProfile. rewrite (bind_run st_get _ m m m eq_refl), Hl.
  rewrite (bind_run _ _ _ _ _ (load_KeyID_run l p m Hp)).
  set (m1 := set_m_heap _ m). assert (m_heap m1 !! l = Some (with_KeyID p)) as Hp1 by apply lookup_insert_eq.
  rewrite (bind_run (load_profile l) _ m1 (with_KeyID p) m1) by (unfold load_profile; by rewrite Hp1).
  rewrite (bind_run st_get _ m1 m1 m1 eq_refl). rewrite (GetKeyID_default p Hdef).
  set (p2 := set_keys _ _ _ (with_KeyID p)). eexists _, p2. split; [done|].
  assert (p2 = keyed (sp_keys a) (bare p)) as Hp2.
  { unfold p2, keyed. cbn [m1 set_m_heap m_keys]. by rewrite PrivKey_contents, PubKey_contents, (mr_keys m a Hrep). }
  split_and!.
  - destruct a as [sp kb]. apply (touched_rep l p m _ (mkSpec sp kb) kb); [done|done| |exact (mr_keys m _ Hrep)].
    split; [done..|]. exists p2. cbn [set_m_heap m_heap m1]. rewrite insert_insert_eq.
    split_and!; [done|done|by right].
  - apply lookup_insert_eq.
  - unfold spec_Get. rewrite Hspec. cbn [fmap option_fmap option_map]. by rewrite Hp2.
Qed.

Lemma mem_Delete_run id m a : mem_rep m a →
  mem_rep (mem_DeleteProfile id m).2 (spec_Delete id a) ∧ (mem_DeleteProfile id m).1 = Ok tt.
Proof.
  intros [Hkeys Hheld Hnone]. split; [|done]. cbn [mem_DeleteProfile st_modify snd]. split; [done| |].
  - cbn [set_m_store m_store m_heap spec_Delete sp_profiles]. intros id' l [Hne Hl]%lookup_delete_Some.
    rewrite lookup_delete_ne by done. by apply Hheld.
  - cbn [set_m_store m_store spec_Delete sp_profiles]. intros id' [Heq|Hl]%lookup_delete_None;
      apply lookup_delete_None; [by left|right]. by apply Hnone.
Qed.
End mem.
End profiles.
