(* ===== verification/Registry.v ===== *)
(** * The registry of profiles (src/registry, and its copy src/remote/registry)

    A set of profiles under their usernames, the rules by which a profile is
    registered, changed and removed, and the store in memory. The rules are
    written against the interface [Profiles]; [MemProfiles] is its instance.
    Keys and hashes are the key library's, and Go walks a map in an order of
    its own. *)
From S2P Require Export GoStrings.
From stdpp Require Export sorting.

Definition ErrUsernameTaken : error := ErrSentinel "username is taken".
Definition ErrNoRegistry : error := ErrSentinel "no registry is configured".
Definition ErrNotFound : error := ErrSentinel "not found".

(** Key pairs and the hash of a public key: the identifier of a profile is the
    base58 text of its multihash. *)
Class Keys : Type := {
  PrivKey : Type;
  PubKey : Type;
  priv_Sign : PrivKey → string → outcome string;
  priv_GetPublic : PrivKey → PubKey;
  pub_Verify : PubKey → string → string → outcome bool;
  pub_Bytes : PubKey → outcome string;
  crypto_UnmarshalPublicKey : string → outcome PubKey;
  multihash_Sum : string → outcome string;
  B58String : string → string;
}.

(** A signature verifies with the public key of its private key, and the bytes
    of a key give it back. A hash has a text. *)
Class KeysLaws (K : Keys) : Prop := {
  Verify_Sign : ∀ k m s, priv_Sign k m = Ok s → pub_Verify (priv_GetPublic k) m s = Ok true;
  Unmarshal_Bytes : ∀ k d, pub_Bytes k = Ok d → crypto_UnmarshalPublicKey d = Ok k;
  Sign_nonempty : ∀ k m s, priv_Sign k m = Ok s → s ≠ "";
  Bytes_nonempty : ∀ k d, pub_Bytes k = Ok d → d ≠ "";
  B58String_nonempty : ∀ d h, multihash_Sum d = Ok h → B58String h ≠ "";
}.

(** ** Profiles (profile.go, verify.go) *)

(** [type Profile struct] *)
Record Profile : Type := mkProfile {
  p_Created : Z;
  p_Username : string;
  p_Peername : string;
  p_Email : string;
  p_Password : string;
  p_Photo : string;
  p_Thumb : string;
  p_Name : string;
  p_Description : string;
  p_HomeURL : string;
  p_Twitter : string;
  p_ProfileID : string;
  p_PublicKey : string;
  p_Signature : string;
}.
#[export] Instance Profile_eq_dec : EqDecision Profile.
Proof. solve_decision. Defined.

(** [&Profile{}] and [&Profile{Username: name}] *)
Definition named_Profile (name : string) : Profile := mkProfile 0 name "" "" "" "" "" "" "" "" "" "" "" "".
Definition zero_Profile : Profile := named_Profile "".

Definition set_p_Created (t : Z) (p : Profile) : Profile :=
  mkProfile t (p_Username p) (p_Peername p) (p_Email p) (p_Password p) (p_Photo p) (p_Thumb p)
    (p_Name p) (p_Description p) (p_HomeURL p) (p_Twitter p) (p_ProfileID p) (p_PublicKey p) (p_Signature p).
Definition set_p_Peername (n : string) (p : Profile) : Profile :=
  mkProfile (p_Created p) (p_Username p) n (p_Email p) (p_Password p) (p_Photo p) (p_Thumb p)
    (p_Name p) (p_Description p) (p_HomeURL p) (p_Twitter p) (p_ProfileID p) (p_PublicKey p) (p_Signature p).
Definition set_p_Signature (s : string) (p : Profile) : Profile :=
  mkProfile (p_Created p) (p_Username p) (p_Peername p) (p_Email p) (p_Password p) (p_Photo p) (p_Thumb p)
    (p_Name p) (p_Description p) (p_HomeURL p) (p_Twitter p) (p_ProfileID p) (p_PublicKey p) s.
Definition set_p_identity (id key : string) (p : Profile) : Profile :=
  mkProfile (p_Created p) (p_Username p) (p_Peername p) (p_Email p) (p_Password p) (p_Photo p) (p_Thumb p)
    (p_Name p) (p_Description p) (p_HomeURL p) (p_Twitter p) id key (p_Signature p).

(** [Profile.Validate] *)
Definition Validate (p : Profile) : outcome unit :=
  if decide (p_Username p = "") then Error (Errorf "username is required" [])
  else if decide (p_ProfileID p = "") then Error (Errorf "profileID is required" [])
  else if decide (p_Signature p = "") then Error (Errorf "signature is required" [])
  else if decide (p_PublicKey p = "") then Error (Errorf "publickey is required" [])
  else Ok tt.

(** [fmt.Errorf(fmt, err.Error())] on the way out of a call *)
Definition explain {A} (fmt : string) (m : outcome A) : outcome A :=
  match m with Error e => Error (Errorf fmt [error_text e]) | _ => m end.

Section keys.
Context `{Keys}.

(** [verify] and [Profile.Verify] *)
Definition verify (b64PubKey b64Signature data : string) : outcome unit :=
  pkbytes ← explain "publickey base64 encoding: %s" (base64_DecodeString b64PubKey);
  pubkey ← explain "invalid publickey: %s" (crypto_UnmarshalPublicKey pkbytes);
  sigbytes ← explain "signature base64 encoding: %s" (base64_DecodeString b64Signature);
  valid ← explain "invalid signature: %s" (pub_Verify pubkey data sigbytes);
  if (valid : bool) then Ok tt else Error (Errorf "mismatched signature" []).

Definition Verify (p : Profile) : outcome unit := verify (p_PublicKey p) (p_Signature p) (p_Username p).

(** [ProfileFromPrivateKey] fills in the profile it is given, up to the step
    that fails. *)
Definition ProfileFromPrivateKey (privKey : PrivKey) : stM Profile Profile :=
  p ← st_get;
  sigbytes ← st_lift (explain "error signing %s" (priv_Sign privKey (p_Username p)));
  st_modify (set_p_Signature (base64_EncodeToString sigbytes));;
  pubkeybytes ← st_lift (explain "error getting pubkey bytes: %s" (pub_Bytes (priv_GetPublic privKey)));
  mh ← st_lift (explain "error summing pubkey: %s" (multihash_Sum pubkeybytes));
  st_modify (set_p_identity (B58String mh) (base64_EncodeToString pubkeybytes));;
  st_get.
End keys.

(** ** Sets of profiles (profiles.go) *)

(** The body of [Range]: [iter] is called until it declines to go on or fails. *)
Fixpoint range_loop {T} (iter : string → Profile → stM T bool) (l : list (string * Profile)) : stM T unit :=
  match l with
  | [] => mret tt
  | (key, p) :: l => kontinue ← iter key p; if (kontinue : bool) then range_loop iter l else mret tt
  end.

(** [type Profiles interface]; [iter] closes over variables of type [T]. *)
Class Profiles (S : Type) : Type := {
  Profiles_Len : stM S Z;
  Profiles_Load : string → stM S Profile;
  Profiles_Range : ∀ {T}, S → (string → Profile → stM T bool) → stM T unit;
  Profiles_SortedRange : ∀ {T}, S → (string → Profile → stM T bool) → stM T unit;
  Profiles_Create : string → Profile → stM S unit;
  Profiles_Update : string → Profile → stM S unit;
  Profiles_Delete : string → stM S unit;
}.

(** The entries in the order of their keys *)
Definition sorted_entries (m : gmap string Profile) : list (string * Profile) :=
  omap (λ key, p ← m !! key; Some (key, p)) (merge_sort String.le (map_to_list m).*1).

(** What a set of profiles promises: it is a map. *)
Class ProfilesLaws (S : Type) `{!Profiles S} : Type := {
  entries : S → gmap string Profile;
  Len_entries s : Profiles_Len s = (Ok (Z.of_nat (size (entries s))), s);
  Load_entries key s : Profiles_Load key s = (of_option (Error ErrNotFound) (entries s !! key), s);
  Range_entries s : ∃ l, l ≡ₚ map_to_list (entries s) ∧
    ∀ T (iter : string → Profile → stM T bool), Profiles_Range s iter = range_loop iter l;
  SortedRange_entries s T (iter : string → Profile → stM T bool) :
    Profiles_SortedRange s iter = range_loop iter (sorted_entries (entries s));
  Create_entries key p s : ∃ s', Profiles_Create key p s = (Ok tt, s') ∧ entries s' = <[key := p]> (entries s);
  Update_entries key p s : ∃ s', Profiles_Update key p s = (Ok tt, s') ∧ entries s' = <[key := p]> (entries s);
  Delete_entries key s : ∃ s', Profiles_Delete key s = (Ok tt, s') ∧ entries s' = delete key (entries s);
}.

Section rules.
Context `{Keys} {S : Type} `{!Profiles S}.

(** The callback of [RegisterProfile]: it sets [prev]. *)
Definition prev_iter (id : string) (key : string) (profile : Profile) : stM string bool := λ prev,
  if decide (p_ProfileID profile = id) then (Ok true, key) else (Ok false, prev).

(** A call whose error is handled by the caller *)
Definition attempt {A} (m : stM S A) : stM S (option A) := λ s,
  match m s with
  | (Ok a, s) => (Ok (Some a), s)
  | (Error _, s) => (Ok None, s)
  | (Panic, s) => (Panic, s)
  end.

(** [RegisterProfile] at the time [now], with the profile as it leaves it *)
Definition RegisterProfile (now : Z) (p : Profile) : stM S Profile :=
  st_lift (Validate p);;
  st_lift (Verify p);;
  pro ← attempt (Profiles_Load (p_Username p));
  match pro with
  | Some pro =>
      if decide (p_ProfileID pro = p_ProfileID p) then mret p
      else st_fail (Errorf "username '%s' is taken" [p_Username p])
  | None =>
      store ← st_get;
      prev ← (match Profiles_Range store (prev_iter (p_ProfileID p)) "" with
              | (Panic, _) => st_lift Panic
              | (_, prev) => mret prev
              end);
      (if decide (prev ≠ "") then Profiles_Delete prev else mret tt);;
      Profiles_Create (p_Username p) (set_p_Created now p);;
      mret (set_p_Created now p)
  end.

(** [UpdateProfile] *)
Definition UpdateProfile (p : Profile) : stM S unit :=
  st_lift (Validate p);;
  st_lift (Verify p);;
  Profiles_Update (p_Username p) p.

(** [DeregisterProfile]: an error of [Delete] is dropped. *)
Definition DeregisterProfile (p : Profile) : stM S unit :=
  st_lift (Validate p);;
  st_lift (Verify p);;
  attempt (Profiles_Delete (p_Username p));;
  mret tt.
End rules.

(** ** The store in memory

    [type MemProfiles struct], whose lock makes every call one step. The
    profiles behind its pointers are not written once they are stored. *)
Record MemProfiles : Type := mkMemProfiles { ps : gmap string Profile }.
Definition NewMemProfiles : MemProfiles := mkMemProfiles ∅.

(** The order in which Go walks a map *)
Class MapOrder : Type := {
  map_entries : gmap string Profile → list (string * Profile);
  map_entries_perm m : map_entries m ≡ₚ map_to_list m;
}.

Definition mem_Len : stM MemProfiles Z := st_read (λ s, Ok (Z.of_nat (size (ps s)))).
Definition mem_Load (key : string) : stM MemProfiles Profile :=
  st_read (λ s, of_option (Error ErrNotFound) (ps s !! key)).
Definition mem_Range `{MapOrder} {T} (s : MemProfiles) (iter : string → Profile → stM T bool) : stM T unit :=
  range_loop iter (map_entries (ps s)).
Definition mem_SortedRange {T} (s : MemProfiles) (iter : string → Profile → stM T bool) : stM T unit :=
  range_loop iter (sorted_entries (ps s)).
Definition mem_Create (key : string) (value : Profile) : stM MemProfiles unit :=
  st_modify (λ s, mkMemProfiles (<[key := value]> (ps s))).
Definition mem_Update (key : string) (value : Profile) : stM MemProfiles unit :=
  st_modify (λ s, mkMemProfiles (<[key := value]> (ps s))).
Definition mem_Delete (key : string) : stM MemProfiles unit :=
  st_modify (λ s, mkMemProfiles (delete key (ps s))).

#[export] Instance mem_Profiles `{MapOrder} : Profiles MemProfiles := {|
  Profiles_Len := mem_Len;
  Profiles_Load := mem_Load;
  Profiles_Range := @mem_Range _;
  Profiles_SortedRange := @mem_SortedRange;
  Profiles_Create := mem_Create;
  Profiles_Update := mem_Update;
  Profiles_Delete := mem_Delete;
|}.

#[export] Instance mem_ProfilesLaws `{MapOrder} : ProfilesLaws MemProfiles.
Proof.
  refine {| entries := ps |}; intros; try reflexivity; [|by eexists..].
  exists (map_entries (ps s)). split; [apply map_entries_perm|done].
Defined.
