(* ===== verification/RegistryHttp.v ===== *)
(** * The registry over HTTP (src/registry/regserver/handlers, src/registry/regclient)

    The handlers of a registry as functions from requests to responses, the
    protection of its administrative route, and the client. JSON is the
    environment's: the bodies of requests and responses are texts it writes and
    reads. *)
From S2P Require Export Registry.

(** ** Requests and responses *)
Record RegRequest : Type := mkRegRequest {
  rq_Method : string;
  rq_Path : string;
  rq_ContentType : string;
  rq_BasicAuth : option (string * string);
  rq_Body : string;
}.
Record RegResponse : Type := mkRegResponse { rs_StatusCode : Z; rs_Body : string }.

(** The envelope of a response, [Response] of src/api/util *)
Inductive RespData : Type :=
| NoData
| OneProfile (p : Profile)
| ManyProfiles (l : list (option Profile)).
Record Envelope : Type := mkEnvelope { env_Data : RespData; env_Code : Z; env_Error : string }.

(** JSON: a [null] in a list of profiles is a nil pointer. *)
Class RegistryJSON : Type := {
  Marshal_Profile : Profile → outcome string;
  Decode_Profile : string → outcome Profile;
  Decode_Profiles : string → outcome (list (option Profile));
  Marshal_Envelope : Envelope → string + error;
  MarshalIndent_Envelope : Envelope → string + error;
  Decode_Envelope : string → outcome (option Profile * string);
}.

(** The profiles and texts JSON keeps are those in UTF-8, with times of four
    digit years. *)
Class RegistryJSONLaws (J : RegistryJSON) : Type := {
  json_keeps : Profile → Prop;
  keeps_text : string → Prop;
  keeps_Created p t : json_keeps p → (0 ≤ t ≤ int64_max)%Z → json_keeps (set_p_Created t p);
  keeps_message p : keeps_text (p_Username p) →
    keeps_text (error_text (Errorf "username '%s' is taken" [p_Username p]));
  Decode_Marshal_Profile p : json_keeps p → ∃ d, Marshal_Profile p = Ok d ∧ Decode_Profile d = Ok p;
  Decode_Marshal_Envelope p : json_keeps p →
    ∃ d, Marshal_Envelope (mkEnvelope (OneProfile p) 200 "") = inl d ∧ Decode_Envelope d = Ok (Some p, "");
  Decode_Marshal_error code text : keeps_text text →
    ∃ d, MarshalIndent_Envelope (mkEnvelope NoData code text) = inl d ∧ Decode_Envelope d = Ok (None, text);
}.

Section handlers.
Context `{Keys, RegistryJSON} {S : Type} `{!Profiles S}.

(** [apiutil.WriteResponse], [apiutil.WriteErrResponse], [apiutil.NotFoundHandler]:
    an envelope that cannot be written is answered with [http.Error]. *)
Definition http_Error (e : error) : RegResponse :=
  mkRegResponse 500 (error_text e +:+ String (ascii_of_nat 10) "").
Definition WriteResponse (data : RespData) : RegResponse :=
  match Marshal_Envelope (mkEnvelope data 200 "") with
  | inl res => mkRegResponse 200 res
  | inr e => http_Error e
  end.
Definition WriteErrResponse (code : Z) (e : error) : RegResponse :=
  match MarshalIndent_Envelope (mkEnvelope NoData code (error_text e)) with
  | inl res => mkRegResponse code res
  | inr e => http_Error e
  end.
Definition not_found_body : string :=
  "{ " +:+ quoted "meta" +:+ ": { " +:+ quoted "code" +:+ ": 404, " +:+ quoted "status" +:+ ": " +:+ quoted "not found" +:+
  " }, " +:+ quoted "data" +:+ ": null }".
Definition NotFoundHandler : RegResponse := mkRegResponse 404 not_found_body.

(** A step whose error is the response *)
Definition or_status {A} (code : Z) (m : stM S A) (k : A → stM S RegResponse) : stM S RegResponse := λ s,
  match m s with
  | (Ok a, s) => k a s
  | (Error e, s) => (Ok (WriteErrResponse code e), s)
  | (Panic, s) => (Panic, s)
  end.
Definition or_bad_request {A} : stM S A → (A → stM S RegResponse) → stM S RegResponse := or_status 400.

Definition read_body {A} (decode : string → outcome A) (r : RegRequest) : outcome A :=
  if decide (rq_ContentType r = "application/json") then decode (rq_Body r)
  else Error (Errorf "Content-Type must be application/json" []).

(** The callback of a [GET]: the profile found takes the place of the one that
    is asked for, [p] and [ok]. *)
Definition find_iter (_ : string) (profile : Profile) : stM (Profile * bool) bool := λ '(p, ok),
  if decide (p_ProfileID profile = p_ProfileID p ∨ p_PublicKey profile = p_PublicKey p)
  then (Ok true, (profile, true)) else (Ok false, (p, ok)).

Definition get_profile (p : Profile) : stM S Profile :=
  if decide (p_Username p ≠ "") then Profiles_Load (p_Username p)
  else
    store ← st_get;
    match Profiles_Range store find_iter (p, false) with
    | (Panic, _) => st_lift Panic
    | (_, (_, false)) => st_fail ErrNotFound
    | (Error e, (_, true)) => st_fail e
    | (Ok _, (p, true)) => mret p
    end.

(** [NewProfileHandler] *)
Definition ProfileHandler (now : Z) (r : RegRequest) : stM S RegResponse :=
  or_bad_request (st_lift (read_body Decode_Profile r)) (λ p,
    if decide (rq_Method r = "GET") then
      found ← attempt (get_profile p);
      mret (match found with Some p => WriteResponse (OneProfile p) | None => NotFoundHandler end)
    else if decide (rq_Method r = "POST") then
      or_bad_request (RegisterProfile now p) (λ p, mret (WriteResponse (OneProfile p)))
    else if decide (rq_Method r = "PUT") then
      or_bad_request (UpdateProfile p) (λ _, mret (WriteResponse (OneProfile p)))
    else if decide (rq_Method r = "DELETE") then
      or_bad_request (DeregisterProfile p) (λ _, mret (WriteResponse (OneProfile p)))
    else mret NotFoundHandler).

(** The loop of a [POST] to the administrative route: errors are dropped, a
    nil profile is dereferenced. *)
Fixpoint create_loop (l : list (option Profile)) : stM S unit :=
  match l with
  | [] => mret tt
  | None :: _ => st_lift Panic
  | Some pro :: l => attempt (Profiles_Create (p_Username pro) pro);; create_loop l
  end.

(** The callback of its [GET]: [ps[i] = p; i++] *)
Definition fill_iter (_ : string) (p : Profile) : stM (list (option Profile) * Z) bool := λ '(ps, i),
  match assign ps i (Some p) with
  | Ok ps => (Ok true, (ps, i + 1)%Z)
  | _ => (Panic, (ps, i))
  end.

(** [NewProfilesHandler]; [make] panics on a negative length. After an error
    of [Len] the code goes on and writes a second response behind the first;
    the store in memory has no such error. *)
Definition ProfilesHandler (r : RegRequest) : stM S RegResponse :=
  if decide (rq_Method r = "POST") then
    or_bad_request (st_lift (read_body Decode_Profiles r)) (λ ps,
      create_loop ps;; mret (WriteResponse (ManyProfiles ps)))
  else if decide (rq_Method r = "GET") then
    or_status 500 Profiles_Len (λ l,
      store ← st_get;
      if decide (l < 0)%Z then st_lift Panic
      else match Profiles_SortedRange store fill_iter (replicate (Z.to_nat l) None, 0%Z) with
           | (Panic, _) => st_lift Panic
           | (_, (ps, _)) => mret (WriteResponse (ManyProfiles ps))
           end)
  else mret NotFoundHandler.

(** ** Protection (protector.go) *)

(** [type BAProtector struct] and [type NoopProtector] *)
Inductive Protector : Type :=
| BAProtector (username password : string)
| NoopProtector.

Fixpoint auth_loop (username password : string) (methods : list string) (r : RegRequest) : option RegResponse :=
  match methods with
  | [] => None
  | m :: methods =>
      if decide ((rq_Method r = m ∨ m = "*") ∧ rq_BasicAuth r ≠ Some (username, password))
      then Some (WriteErrResponse 403 (ErrSentinel "invalid key"))
      else auth_loop username password methods r
  end.

(** [ProtectMethods] of both *)
Definition ProtectMethods (pro : Protector) (methods : list string)
    (h : RegRequest → stM S RegResponse) (r : RegRequest) : stM S RegResponse :=
  match pro with
  | BAProtector username password =>
      match auth_loop username password methods r with
      | Some res => mret res
      | None => h r
      end
  | NoopProtector => h r
  end.

(** [NewRoutes] of a registry with profiles; [rest] answers the routes that do
    not touch them. *)
Definition Routes (pro : Protector) (rest : RegRequest → RegResponse) (now : Z) (r : RegRequest) : stM S RegResponse :=
  if decide (rq_Path r = "/registry/profile") then ProfileHandler now r
  else if decide (rq_Path r = "/registry/profiles") then ProtectMethods pro ["POST"] ProfilesHandler r
  else mret (rest r).

(** A server at work: requests with the times they arrive at. A handler that
    panics has its connection dropped, and the server goes on. *)
Fixpoint serve (pro : Protector) (rest : RegRequest → RegResponse) (reqs : list (Z * RegRequest)) (s : S) : S :=
  match reqs with
  | [] => s
  | (now, r) :: reqs => serve pro rest reqs (Routes pro rest now r s).2
  end.
End handlers.

(** ** The client (src/registry/regclient) *)

(** A connection: [http.NewRequest]'s check of an address, and one exchange *)
Class RegTransport (R : Type) : Type := {
  NewRequest_error : string → option error;
  reg_Do : string → RegRequest → stM R RegResponse;
}.

Definition ErrNoRegistry_client : error := ErrSentinel "registry: no registry specified".

Section client.
Context `{Keys, RegistryJSON} {R : Type} `{!RegTransport R}.

(** [type Client struct] with its connection; the methods are called on a
    pointer, which may be nil. *)
Record Client : Type := mkClient { Location : string; conn : R }.
Definition set_client_conn (r : R) (c : Client) : Client := mkClient (Location c) r.
Abbreviation CM := (stM (option Client)).

Definition no_such_host (e : error) : error :=
  if strings_Contains (error_text e) "no such host" then ErrNoRegistry_client else e.

(** [Client.doJSONProfileReq] on the client *)
Definition do_profile_req (method : string) (p : Profile) : stM Client Profile :=
  c ← st_get;
  if decide (Location c = "") then st_fail ErrNoRegistry_client
  else
    data ← st_lift (Marshal_Profile p);
    match NewRequest_error (Location c +:+ "/registry/profile") with
    | Some e => st_fail e
    | None =>
        res ← (λ c, match st_zoom conn set_client_conn
                      (reg_Do (Location c) (mkRegRequest method "/registry/profile" "application/json" None data)) c with
                    | (Error e, c) => (Error (no_such_host e), c)
                    | r => r
                    end);
        env ← st_lift (Decode_Envelope (rs_Body res));
        if decide (rs_StatusCode res ≠ 200%Z) then
          if strings_Contains env.2 "taken" then st_fail ErrUsernameTaken
          else st_fail (Errorf "registry: %s" [env.2])
        else match env.1 with
             | Some data => mret (set_p_Peername (p_Username data) data)
             | None => st_lift Panic
             end
    end.

(** The dereference of the receiver *)
Definition doJSONProfileReq (method : string) (p : Profile) : CM Profile := λ c,
  match c with
  | None => (Panic, None)
  | Some c => let '(r, c) := do_profile_req method p c in (r, Some c)
  end.

Definition nil_client {A} (m : CM A) : CM A := λ c,
  match c with None => (Error ErrNoRegistry, None) | Some _ => m c end.

(** [Client.GetProfile]: the contents of [p] when it is done *)
Definition GetProfile (p : Profile) : CM Profile := doJSONProfileReq "GET" p.

(** [Client.CreateProfile], [Client.UpdateProfile], [Client.PutProfile] and
    [Client.DeleteProfile] *)
Definition signed_req (method : string) (p : Profile) (pk : PrivKey) : CM Profile :=
  nil_client (pro ← st_lift (ProfileFromPrivateKey pk p).1; doJSONProfileReq method pro).
Definition CreateProfile (p : Profile) (pk : PrivKey) : CM Profile := signed_req "POST" p pk.
Definition Client_UpdateProfile (p : Profile) (pk : PrivKey) : CM Profile := signed_req "PUT" p pk.
Definition PutProfile (p : Profile) (pk : PrivKey) : CM Profile := signed_req "POST" p pk.
Definition DeleteProfile (p : Profile) (pk : PrivKey) : CM unit := signed_req "DELETE" p pk;; mret tt.
End client.

Arguments Client : clear implicits.

(** A registry behind a server, at the time of its clock *)
Record Server (S : Type) : Type := mkServer { srv_profiles : S; srv_now : Z }.
Arguments mkServer {S}. Arguments srv_profiles {S}. Arguments srv_now {S}.

#[export] Instance served_registry `{Keys, RegistryJSON} {S} `{!Profiles S} (pro : Protector)
    (rest : RegRequest → RegResponse) (urls : string → option error) : RegTransport (Server S) := {|
  NewRequest_error := urls;
  reg_Do _ r s :=
    match Routes pro rest (srv_now s) r (srv_profiles s) with
    | (Panic, ps) => (Error (ErrSentinel "EOF"), mkServer ps (srv_now s + 1))
    | (res, ps) => (res, mkServer ps (srv_now s + 1))
    end;
|}.

(** * Facts of the registry *)
Lemma base64_nonempty s : s ≠ "" → base64_EncodeToString s ≠ "".
Proof.
  intros Hs Heq. apply Hs. pose proof (base64_Decode_Encode s) as Hd. rewrite Heq in Hd.
  vm_compute in Hd. by injection Hd.
Qed.

Lemma strings_Contains_self s rest : strings_Contains (s +:+ rest) s = true.
Proof.
  assert (strings_HasPrefix (s +:+ rest) s = true) as Hp by (apply strings_HasPrefix_spec; eauto).
  destruct (s +:+ rest) as [|c t] eqn:Heq; cbn [strings_Contains]; by rewrite Hp.
Qed.

Lemma strings_Contains_app a s sub : strings_Contains s sub = true → strings_Contains (a +:+ s) sub = true.
Proof.
  intros Hs. induction a as [|c a IH]; [done|].
  change (strings_Contains (String c (a +:+ s)) sub = true). cbn [strings_Contains].
  by rewrite IH, orb_true_r.
Qed.

(** ** Profiles and keys *)
Section keys.
Context `{K : Keys}.

(** A profile a registry accepts *)
Definition accepted (p : Profile) : Prop := Validate p = Ok tt ∧ Verify p = Ok tt.

Lemma Validate_Ok p : Validate p = Ok tt ↔
  p_Username p ≠ "" ∧ p_ProfileID p ≠ "" ∧ p_Signature p ≠ "" ∧ p_PublicKey p ≠ "".
Proof. unfold Validate. repeat case_decide; split; try tauto; intros; try discriminate; intuition congruence. Qed.

Lemma accepted_Created t p : accepted (set_p_Created t p) ↔ accepted p.
Proof. unfold accepted, Validate, Verify. by destruct p. Qed.

Lemma ProfileFromPrivateKey_fields k p p' :
  (ProfileFromPrivateKey k p).1 = Ok p' →
  p_Username p' = p_Username p ∧ p_Peername p' = p_Peername p ∧ p_Created p' = p_Created p ∧
  ∃ sig pub h, priv_Sign k (p_Username p) = Ok sig ∧ pub_Bytes (priv_GetPublic k) = Ok pub ∧
    multihash_Sum pub = Ok h ∧ p' = set_p_identity (B58String h) (base64_EncodeToString pub)
      (set_p_Signature (base64_EncodeToString sig) p).
Proof.
  unfold ProfileFromPrivateKey, mbind, stM_bind, st_get, st_lift, st_modify, explain.
  destruct (priv_Sign _ _) as [sig|e|] eqn:Hsig; [|done..].
  destruct (pub_Bytes _) as [pub|e|] eqn:Hpub; [|done..].
  destruct (multihash_Sum pub) as [h|e|] eqn:Hh; [|done..].
  intros [= <-]. split_and!; [done..|]. by exists sig, pub, h.
Qed.

(** What a private key signs is accepted. *)
Lemma ProfileFromPrivateKey_accepted `{!KeysLaws K} k p p' :
  p_Username p ≠ "" → (ProfileFromPrivateKey k p).1 = Ok p' → accepted p'.
Proof.
  intros Hu Hp. apply ProfileFromPrivateKey_fields in Hp as (_ & _ & _ & sig & pub & h & Hsig & Hpub & Hh & ->).
  split.
  - apply Validate_Ok. cbn. split_and!; [done|by eapply B58String_nonempty| |];
      apply base64_nonempty; [by eapply Sign_nonempty|by eapply Bytes_nonempty].
  - unfold Verify, verify. cbn [p_PublicKey p_Signature p_Username set_p_identity set_p_Signature].
    rewrite !base64_Decode_Encode. cbn [explain mbind outcome_bind].
    rewrite (Unmarshal_Bytes _ _ Hpub). cbn [explain mbind outcome_bind].
    by rewrite (Verify_Sign _ _ _ Hsig).
Qed.
End keys.

(** ** The walk of [RegisterProfile] *)

(** The name it finds: that of the last entry of the run of entries with the
    identifier at the start of the walk *)
Fixpoint prev_name (id : string) (l : list (string * Profile)) (prev : string) : string :=
  match l with
  | [] => prev
  | (key, p) :: l => if decide (p_ProfileID p = id) then prev_name id l key else prev
  end.

Lemma range_prev id l prev : range_loop (prev_iter id) l prev = (Ok tt, prev_name id l prev).
Proof.
  revert prev. induction l as [|[key p] l IH]; intros prev; [done|].
  cbn [range_loop prev_name]. unfold mbind, stM_bind, prev_iter. by case_decide.
Qed.

Lemma prev_name_cases id l prev :
  prev_name id l prev = prev ∨ ∃ p, (prev_name id l prev, p) ∈ l ∧ p_ProfileID p = id.
Proof.
  revert prev. induction l as [|[key p] l IH]; intros prev; [by left|].
  cbn [prev_name]. case_decide as Hid; [|by left].
  destruct (IH key) as [-> | (q & Hq & Hqid)]; right; [exists p|exists q]; set_solver.
Qed.

(** ** The rules on a set of profiles *)
Section rules.
Context `{K : Keys} {S : Type} `{L : ProfilesLaws S}.

(** What a rule does to an accepted profile and to any other *)
Lemma checked_run {A} p (k : stM S A) s :
  (st_lift (Validate p);; st_lift (Verify p);; k) s =
    match Validate p with
    | Ok _ => match Verify p with Ok _ => k s | Error e => (Error e, s) | Panic => (Panic, s) end
    | Error e => (Error e, s)
    | Panic => (Panic, s)
    end.
Proof. unfold mbind, stM_bind, st_lift. destruct (Validate p) as [?|?|]; [|done..]. by destruct (Verify p). Qed.

Lemma accepted_run {A} p (k : stM S A) s : accepted p → (st_lift (Validate p);; st_lift (Verify p);; k) s = k s.
Proof. intros [Hval Hver]. by rewrite checked_run, Hval, Hver. Qed.

Lemma Load_run key s : attempt (Profiles_Load key) s = (Ok (entries s !! key), s).
Proof. unfold attempt. rewrite Load_entries. by destruct (entries s !! key). Qed.

(** [RegisterProfile], where the name is free: [l] is the order of the walk. *)
Lemma RegisterProfile_free now p s :
  accepted p → entries s !! p_Username p = None →
  ∃ l s', l ≡ₚ map_to_list (entries s) ∧
    (∀ T (iter : string → Profile → stM T bool), Profiles_Range s iter = range_loop iter l) ∧
    RegisterProfile now p s = (Ok (set_p_Created now p), s') ∧
    entries s' = <[p_Username p := set_p_Created now p]>
      (if decide (prev_name (p_ProfileID p) l "" ≠ "") then delete (prev_name (p_ProfileID p) l "") (entries s)
       else entries s).
Proof.
  intros Hacc Hfree. destruct (Range_entries s) as (l & Hl & Hrange). exists l.
  set (prev := prev_name (p_ProfileID p) l "").
  assert (∃ s1, (if decide (prev ≠ "") then Profiles_Delete prev else mret tt) s = (Ok tt, s1) ∧
    entries s1 = if decide (prev ≠ "") then delete prev (entries s) else entries s) as (s1 & Hdel & Hs1).
  { case_decide; [apply Delete_entries|by exists s]. }
  destruct (Create_entries (p_Username p) (set_p_Created now p) s1) as (s' & Hcreate & Hs').
  exists s'. rewrite <- Hs1. split_and!; [done|done| |done].
  unfold RegisterProfile. rewrite accepted_run by done.
  rewrite (bind_run _ _ _ _ _ (Load_run _ _)), Hfree.
  unfold mbind at 1, stM_bind at 1, st_get. rewrite Hrange, range_prev.
  fold prev. rewrite (bind_run (mret prev) _ s prev s eq_refl). cbv beta.
  rewrite (bind_run _ _ _ _ _ Hdel), (bind_run _ _ _ _ _ Hcreate). done.
Qed.

Lemma RegisterProfile_held now p q s :
  accepted p → entries s !! p_Username p = Some q →
  RegisterProfile now p s =
    (if decide (p_ProfileID q = p_ProfileID p) then Ok p
     else Error (Errorf "username '%s' is taken" [p_Username p]), s).
Proof.
  intros Hacc Hq. unfold RegisterProfile. rewrite accepted_run by done.
  rewrite (bind_run _ _ _ _ _ (Load_run _ _)), Hq. by case_decide.
Qed.

Lemma UpdateProfile_run p s : accepted p →
  ∃ s', UpdateProfile p s = (Ok tt, s') ∧ entries s' = <[p_Username p := p]> (entries s).
Proof. intros Hacc. unfold UpdateProfile. rewrite accepted_run by done. apply Update_entries. Qed.

Lemma DeregisterProfile_run p s : accepted p →
  ∃ s', DeregisterProfile p s = (Ok tt, s') ∧ entries s' = delete (p_Username p) (entries s).
Proof.
  intros Hacc. unfold DeregisterProfile. rewrite accepted_run by done.
  destruct (Delete_entries (p_Username p) s) as (s' & Hdel & Hs'). exists s'. split; [|done].
  unfold mbind, stM_bind, attempt. by rewrite Hdel.
Qed.

(** A profile that is not accepted leaves the set as it is. *)
Lemma refused_run {A} p (k : stM S A) s : ¬ accepted p →
  ∃ r, (∀ a, r ≠ Ok a) ∧ (st_lift (Validate p);; st_lift (Verify p);; k) s = (r, s).
Proof.
  intros Hn. rewrite checked_run. unfold accepted in Hn.
  destruct (Validate p) as [[]|e|]; [|eexists; split; [|done]; done..].
  destruct (Verify p) as [[]|e|]; [tauto|eexists; split; [|done]; done..].
Qed.
End rules.

#[export] Instance accepted_dec `{Keys} p : Decision (accepted p).
Proof. unfold accepted. apply _. Defined.
