(* ===== verification/Logsync.v ===== *)
(** * Log synchronization (src/logbook/logsync/logsync.go)

    A [Logsync] answers other nodes' requests to put, get and remove logs out
    of a book, and runs pushes and pulls of its own against a [Remote]. Author
    logs travel with one dataset, signed, as flatbuffer bytes. *)
From S2P Require Export Logbook.

Definition ErrNoLogsync : error := ErrSentinel "logsync: does not exist".

(** ** Signatures and the bytes of a log

    The key library and the flatbuffer format of a log, from the Go libraries
    the code calls. Bytes from the network may be no flatbuffer at all. *)
Class LogSigning `{BookCipher} : Type := {
  PubKey : Type;
  pk_GetPublic : PrivKey → PubKey;
  pk_Sign : PrivKey → string → outcome string;
  pub_Verify : PubKey → string → string → outcome bool;
  md5_Sum : string → string;
  fb_finish_Log : FbLog → string;
  fb_root_Log : string → outcome FbLog;
}.

(** A signature verifies with the public key of its private key; a finished
    flatbuffer has bytes, and reads back. *)
Class LogSigningLaws `(S : LogSigning) : Prop := {
  Verify_Sign : ∀ k m s, pk_Sign k m = Ok s → pub_Verify (pk_GetPublic k) m s = Ok true;
  fb_root_finish_Log : ∀ l, fb_root_Log (fb_finish_Log l) = Ok l;
  fb_finish_Log_nonempty : ∀ l, fb_finish_Log l ≠ "";
}.

Section logsync.
Context `{OpDigest, C : BookCipher, !LogSigning, Entropy} {F P : Type} `{Filesystem F, Publisher P}.

Abbreviation Book := (@Book C F P).

(** [Log.SigningBytes] and [Log.Verify] *)
Definition SigningBytes (lg : Log) : string :=
  md5_Sum (foldr (λ o s, op_Ref o +:+ s) "" (lg_Ops lg)).

Definition Log_Verify (pub : PubKey) (lg : Log) : outcome unit :=
  ok ← pub_Verify pub (SigningBytes lg) (lg_Signature lg);
  if (ok : bool) then Ok tt else Error (Errorf "invalid signature" []).

(** [profile.Author], and the book's own: [Book.Author] *)
Record LogAuthor : Type := mkAuthor {
  AuthorID : string;
  AuthorPubKey : PubKey;
  Author_Username : string;
}.

Definition Book_Author (b : Book) : LogAuthor :=
  mkAuthor (b_authorID b) (pk_GetPublic (b_pk b)) (b_authorName b).

(** [Book.SignLog] writes the signature into the log it is given. The logs
    it is called on are the parents [UserDatasetBranchesLog] answers: what the
    [parent] pointer of the log at an address refers to. *)
Definition sign_parent (a : addr) (sig : string) (j : Journal) : outcome Journal :=
  l ← deref a j;
  match lg_parent l with
  | NoParent => Panic
  | TreeParent =>
      p ← deref (removelast a) j; Ok (store_at (removelast a) (set_Signature sig p) j)
  | SparseParent pid ops _ pp => Ok (store_at a (set_parent (SparseParent pid ops sig pp) l) j)
  end.

(** [Book.LogBytes] on such a parent; [Log.FlatbufferBytes] *)
Definition Book_LogBytes (initID : string) (l : option Log) : stM Book string := λ b,
  match l with
  | None => (Panic, b)
  | Some l =>
      let sig := pk_Sign (b_pk b) (SigningBytes l) in
      (a ← with_store (Journal_Get initID);
       update_store (sign_parent a (match sig with Ok s => s | _ => "" end));;
       s ← st_lift sig;
       fb ← st_lift (Log_MarshalFlatbuffer (set_Signature s l));
       mret (fb_finish_Log fb)) b
  end.

(** ** The node *)

(** [type Hook]: hooks act on a world [W] of their own. *)
Definition Hook (W : Type) : Type := LogAuthor → Ref → option Log → stM W unit.

(** [type Logsync struct] *)
Record Logsync (W : Type) : Type := mkLogsync {
  ls_book : Book;
  ls_world : W;
  pushPreCheck : option (Hook W);
  pushFinalCheck : option (Hook W);
  pushed : option (Hook W);
  pullPreCheck : option (Hook W);
  pulled : option (Hook W);
  removePreCheck : option (Hook W);
  removed : option (Hook W);
}.
Arguments mkLogsync {W}.
Arguments ls_book {W}.
Arguments ls_world {W}.
Arguments pushPreCheck {W}.
Arguments pushFinalCheck {W}.
Arguments pushed {W}.
Arguments pullPreCheck {W}.
Arguments pulled {W}.
Arguments removePreCheck {W}.
Arguments removed {W}.

Section node.
Context {W : Type}.
Abbreviation N := (stM (Logsync W)).

Definition set_book (b : Book) (n : Logsync W) : Logsync W :=
  mkLogsync b (ls_world n) (pushPreCheck n) (pushFinalCheck n) (pushed n) (pullPreCheck n) (pulled n)
    (removePreCheck n) (removed n).
Definition set_world (w : W) (n : Logsync W) : Logsync W :=
  mkLogsync (ls_book n) w (pushPreCheck n) (pushFinalCheck n) (pushed n) (pullPreCheck n) (pulled n)
    (removePreCheck n) (removed n).

Definition on_book {A} (m : stM Book A) : N A := st_zoom ls_book set_book m.

(** [if hook != nil { if err := hook(..); err != nil { return err } }] *)
Definition check_hook (hook : Logsync W → option (Hook W)) (author : LogAuthor) (ref : Ref)
    (l : option Log) : N unit := λ n,
  match hook n with
  | None => (Ok tt, n)
  | Some h => st_zoom ls_world set_world (h author ref l) n
  end.

(** A hook whose error is only logged *)
Definition note_hook (hook : Logsync W → option (Hook W)) (author : LogAuthor) (ref : Ref)
    (l : option Log) : N unit := λ n,
  match check_hook hook author ref l n with
  | (Error _, n') => (Ok tt, n')
  | r => r
  end.

(** A method called on a nil [*Logsync] *)
Definition logsync_nil_guard {A} (m : N A) : stM (option (Logsync W)) A := λ on,
  match on with
  | None => (Error ErrNoLogsync, None)
  | Some n => let '(r, n') := m n in (r, Some n')
  end.

(** [Logsync.Author] *)
Definition Logsync_Author (n : Logsync W) : LogAuthor := Book_Author (ls_book n).

(** [Log.UnmarshalFlatbufferBytes] *)
Definition UnmarshalFlatbufferBytes (data : string) : outcome Log :=
  fb ← fb_root_Log data; Ok (Log_UnmarshalFlatbuffer fb NoParent).

(** [Logsync.put] *)
Definition logsync_put (author : LogAuthor) (ref : Ref) (data : string) : N unit :=
  check_hook pushPreCheck author ref None;;
  if decide (data = "") then st_fail (Errorf "no data provided to merge" [])
  else
    lg ← st_lift (UnmarshalFlatbufferBytes data);
    logRef ← st_lift (DsrefAliasForLog (Some lg));
    if decide (ref_Username logRef ≠ ref_Username ref ∨ ref_Name logRef ≠ ref_Name ref ∨
               ref_ProfileID logRef ≠ ref_ProfileID ref)
    then st_fail (Errorf "ref contained in log data does not match" [])
    else
      check_hook pushFinalCheck author logRef (Some lg);;
      on_book (Book_MergeLog (Log_Verify (AuthorPubKey author) lg) lg);;
      note_hook pushed author ref (Some lg).

(** [Logsync.get]: the reference is completed, the parent log of its dataset
    is signed and sent. One unit of fuel per ancestor of the dataset. *)
Definition logsync_get (fuel : nat) (author : LogAuthor) (ref : Ref) : N (LogAuthor * string) :=
  check_hook pullPreCheck author ref None;;
  n ← st_get;
  let '(resolved, ref') := Book_ResolveRef (Some (ls_book n)) ref in
  st_lift resolved;;
  l ← on_book (UserDatasetBranchesLog fuel (ref_InitID ref'));
  data ← on_book (Book_LogBytes (ref_InitID ref') l);
  note_hook pulled author ref' l;;
  n ← st_get;
  mret (Logsync_Author n, data).

(** [Logsync.del]; the walk to the root of the log found has no effect. *)
Definition logsync_del (sender : LogAuthor) (ref : Ref) : N unit :=
  check_hook removePreCheck sender ref None;;
  on_book (BranchRef ref);;
  on_book (Book_RemoveLog ref);;
  note_hook removed sender ref None.
End node.

(** ** Remotes *)

(** [type remote interface]: what pushes and pulls ask of the other side *)
Class Remote (R : Type) : Type := {
  rem_addr : R → outcome string;
  rem_put : LogAuthor → Ref → string → stM R unit;
  rem_get : LogAuthor → Ref → stM R (LogAuthor * string);
  rem_del : LogAuthor → Ref → stM R unit;
}.

(** A [Logsync] is a remote, with an address that must not be asked for. *)
Definition Logsync_Remote (W : Type) (fuel : nat) : Remote (Logsync W) := {|
  rem_addr _ := Panic;
  rem_put := logsync_put;
  rem_get := logsync_get fuel;
  rem_del := logsync_del;
|}.

Section client.
Context {R : Type} `{!Remote R}.

(** A book and the remote it talks to *)
Abbreviation L := (stM (Book * R)).
Definition local {A} (m : stM Book A) : L A := st_zoom fst (λ b s, (b, s.2)) m.
Definition remotely {A} (m : stM R A) : L A := st_zoom snd (λ r s, (s.1, r)) m.
Definition addr_of : L string := s ← st_get; st_lift (rem_addr s.2).

(** A failed push is rolled back; an error of the rollback is only logged. *)
Definition or_rollback {A} (initID : string) (m : L A) : L A := λ s,
  match m s with
  | (Error e, s') =>
      match local (rollback initID None) s' with
      | (Panic, s'') => (Panic, s'')
      | (_, s'') => (Error e, s'')
      end
  | r => r
  end.

(** [Push.Do] *)
Definition Push_Do (fuel : nat) (ref : Ref) : L unit :=
  addr ← addr_of;
  l ← local (WriteRemotePush fuel (ref_InitID ref) 1 addr);
  or_rollback (ref_InitID ref)
    (data ← local (Book_LogBytes (ref_InitID ref) l);
     s ← st_get;
     remotely (rem_put (Book_Author s.1) ref data)).

(** [Pull.Do] *)
Definition Pull_Do (Merge : bool) (ref : Ref) : L Log :=
  s ← st_get;
  '(sender, data) ← remotely (rem_get (Book_Author s.1) ref);
  l ← st_lift (UnmarshalFlatbufferBytes data);
  (if Merge then local (Book_MergeLog (Log_Verify (AuthorPubKey sender) l) l) else mret tt);;
  mret l.

(** [Logsync.DoRemove], on the remote the address stands for *)
Definition DoRemove (fuel : nat) (ref : Ref) (remoteAddr : string) : L unit :=
  s ← st_get;
  remotely (rem_del (Book_Author s.1) ref);;
  versions ← local (Items ref 0 (-1));
  local (WriteRemoteDelete fuel (ref_InitID ref) (Z.of_nat (length versions)) remoteAddr);;
  mret tt.
End client.

(** What a transport promises about the node it leads to: a put of a reference
    it can carry ([sendable]) happens at the node, under the same names, and
    is reported when it succeeds there. *)
Class PutCarrier (R W : Type) `{!Remote R} : Type := {
  node_of : R → Logsync W;
  sendable : R → LogAuthor → Ref → Prop;
  put_carried : ∀ r author ref, sendable r author ref →
    ∃ wire, ref_Username wire = ref_Username ref ∧ ref_Name wire = ref_Name ref ∧
      ref_ProfileID wire = ref_ProfileID ref ∧
      ∀ data n', logsync_put author wire data (node_of r) = (Ok tt, n') →
        ∃ r', rem_put author ref data r = (Ok tt, r') ∧ node_of r' = n';
}.

(** [Logsync.remoteClient]: which client an address asks for. [IDB58Decode]
    is the peer library's. *)
Inductive client_kind : Type :=
| HTTPClient (URL : string)
| P2PClient (remotePeerID : string).

Definition remoteClient (IDB58Decode : string → option string) (has_p2p : bool) (remoteAddr : string)
    (b : Book) : outcome client_kind :=
  if strings_HasPrefix remoteAddr "http" then Ok (HTTPClient remoteAddr)
  else
    addr ← (match Journal_Get remoteAddr (b_store b) with
            | Ok a => lg ← deref a (b_store b); Author lg
            | Error _ => Ok remoteAddr
            | Panic => Panic
            end);
    match IDB58Decode addr with
    | Some id => if has_p2p : bool then Ok (P2PClient id)
                 else Error (Errorf "no p2p host provided to perform p2p logsync" [])
    | None => Error (Errorf "unrecognized remote address string: %q" [addr])
    end.
End logsync.

Arguments mkLogsync {C H0 F P W}.
Arguments ls_book {C H0 F P W}.
Arguments ls_world {C H0 F P W}.
Arguments pushPreCheck {C H0 F P W}.
Arguments pushFinalCheck {C H0 F P W}.
Arguments pushed {C H0 F P W}.
Arguments pullPreCheck {C H0 F P W}.
Arguments pulled {C H0 F P W}.
Arguments removePreCheck {C H0 F P W}.
Arguments removed {C H0 F P W}.
