(* ===== verification/LogsyncFacts.v ===== *)
(** * Facts about log synchronization

    What [UserDatasetBranchesLog] answers for a dataset of a linked store, the
    bytes it becomes, and what a node that receives them makes of them. *)
From S2P Require Export Logsync LogbookEdits.

(** ** Logs with the same operations at the same places *)
Section extends.
Context `{OpDigest}.

Lemma extends_by_ops x y :
  wf_log x → lg_Ops x = lg_Ops y →
  (∀ a, lg_Ops <$> lookup_addr a (lg_Logs x) = lg_Ops <$> lookup_addr a (lg_Logs y)) → extends x y.
Proof.
  revert y. induction x as [x IH] using Log_ind'. intros y [Hi Hch] Hops Hall.
  apply extends_alt. split_and!; [done|by rewrite Hops|].
  intros c Hc. apply list_elem_of_lookup in Hc as [i Hi']. pose proof (Hall [i]) as Hci.
  rewrite !lookup_addr_cons, Hi' in Hci. cbn in Hci.
  destruct (lg_Logs y !! i) as [d|] eqn:Hd; [|done]. cbn in Hci. injection Hci as Hci.
  exists d. split; [by eapply list_elem_of_lookup_2|].
  rewrite Forall_lookup in IH, Hch. apply (IH i c Hi'); [by eapply Hch|done|].
  intros a. pose proof (Hall (i :: a)) as Ha. rewrite !lookup_addr_cons, Hi', Hd in Ha. cbn in Ha.
  by destruct a.
Qed.

Lemma extends_reload pid p x : wf_log x → extends x (reload pid p x).
Proof.
  intros Hwf. destruct x as [n au p0 pid0 s ops ls]. apply extends_by_ops; [done|done|].
  intros a. cbn [lg_Logs reload]. by rewrite lookup_addr_reload.
Qed.

Lemma wf_reload pid p x : wf_log x → wf_log (reload pid p x).
Proof.
  revert pid p. induction x as [x IH] using Log_ind'. intros pid p [Hi Hch].
  destruct x as [n au p0 pid0 s ops ls]. split; [done|].
  cbn [reload lg_Logs] in *. apply Forall_fmap. rewrite Forall_forall in *.
  intros c Hc. by apply IH; [|apply Hch].
Qed.
End extends.

Section book.
Context `{OpDigest, C : BookCipher, !LogSigning, Entropy} {F P : Type} `{Filesystem F, Publisher P}.
Implicit Types b : @Book C F P.

Lemma lookup_store_at a lg' j l :
  lookup_addr a (j_logs j) = Some l → lookup_addr a (j_logs (store_at a lg' j)) = Some lg'.
Proof. intros Hl. unfold store_at. cbn [j_logs set_j_logs]. by rewrite lookup_alter_addr, Hl. Qed.

(** ** The sparse parent of a dataset *)

(** The operations a sparse copy of the parent gets: those of the copy there
    already is or, without one, those of the parent in the store. *)
Definition sparse_ops (link : parent_link) (p : Log) : list Op :=
  match link with SparseParent _ ops _ _ => ops | _ => lg_Ops p end.

Lemma sparse_parent_ops pid sig par a j p ppid pops psig j' :
  (par = TreeParent → deref (removelast a) j = Ok p) →
  (par = NoParent → ∃ pa, Journal_Get pid j = Ok pa ∧ deref pa j = Ok p) →
  sparse_parent pid sig par a j = (Ok (ppid, pops, psig), j') → pops = sparse_ops par p.
Proof.
  intros Htree Hno. unfold sparse_parent, st_read, st_modify, mbind, stM_bind.
  destruct par as [| |ppid' pops' psig' rest]; cbn.
  - destruct (Hno eq_refl) as (pa & -> & ->). case_decide; by intros [= _ <- _ _].
  - rewrite Htree by done. case_decide; by intros [= _ <- _ _].
  - by intros [= _ <- _ _].
Qed.

Lemma sparse_ancestors_dataset fuel i k l p sig j :
  linked j → lookup_addr [i; k] (j_logs j) = Some l → lookup_addr [i] (j_logs j) = Some p →
  lg_ParentID l ≠ "" →
  ∃ psig j', sparse_ancestors (S fuel) (lg_ParentID l) sig (lg_parent l) [i; k] j =
    (Ok (SparseParent "" (sparse_ops (lg_parent l) p) psig NoParent, None), j').
Proof.
  intros Hj Hl Hp Hne. cbn [sparse_ancestors]. rewrite decide_False by done.
  destruct (linked_child j Hj [i] k l) as (p' & Hp' & Hpid & _ & Hget); [done..|].
  assert (p' = p) as -> by congruence.
  destruct (sparse_parent_up [i] k l sig (lg_parent l) [i; k] j Hj)
    as (p1 & ppid & pops & psig & j1 & Hp1 & Hstep & -> & Hj1 & _); [done..|by right|].
  rewrite Hstep. pose proof (proj1 (linked_root j1 Hj1 i p1 Hp1)) as Hroot.
  assert (pops = sparse_ops (lg_parent l) p) as ->.
  { eapply sparse_parent_ops; [| |exact Hstep].
    - intros _. by apply deref_Ok.
    - intros _. exists [i]. rewrite Hpid, Hget. split; [done|]. by apply deref_Ok. }
  exists psig, j1. unfold mbind, stM_bind.
  destruct fuel; cbn [sparse_ancestors]; rewrite Hroot, decide_True by done; done.
Qed.

(** A dataset of a linked store is answered under a sparse copy of its
    author's log, which has it as its only child. *)
Lemma UserDatasetBranchesLog_dataset fuel initID i k b l p :
  linked (b_store b) → Journal_Get initID (b_store b) = Ok [i; k] →
  lookup_addr [i; k] (j_logs (b_store b)) = Some l → lookup_addr [i] (j_logs (b_store b)) = Some p →
  lg_ParentID l ≠ "" → initID ≠ "" →
  ∃ psig l' b', UserDatasetBranchesLog (S fuel) initID b =
      (Ok (Some (mkLog "" "" NoParent "" psig (sparse_ops (lg_parent l) p) [l'])), b') ∧
    lookup_addr [i; k] (j_logs (b_store b')) = Some l' ∧
    lg_parent l' = SparseParent "" (sparse_ops (lg_parent l) p) psig NoParent ∧
    written [i; k] [] b b'.
Proof.
  intros Hj Hget Hl Hp Hne Hid.
  pose proof (UserDatasetBranchesLog_written (S fuel) initID [i; k] b) as Hw.
  destruct (sparse_ancestors_dataset fuel i k l p (lg_Signature l) (b_store b) Hj Hl Hp Hne)
    as (psig & j1 & Hsp).
  pose proof (sparse_ancestors_linked (S fuel) [i; k] l (lg_Signature l) (lg_parent l) [i; k]
    (b_store b) Hj Hl (or_intror (conj eq_refl eq_refl))) as (_ & Hlab & _).
  rewrite Hsp in Hlab. cbn in Hlab. specialize (Hlab [i; k]). rewrite Hl in Hlab.
  destruct (lookup_addr [i; k] (j_logs j1)) as [l1|] eqn:El1; [|done].
  set (link := SparseParent "" (sparse_ops (lg_parent l) p) psig NoParent) in *.
  assert (GetWithSparseAncestorsAllDescendants (S fuel) initID (b_store b) =
    (Ok [i; k], store_at [i; k] (set_parent link l1) j1)) as Hrun.
  { unfold GetWithSparseAncestorsAllDescendants, st_read.
    rewrite (bind_run _ _ (b_store b) [i; k] (b_store b)) by by rewrite Hget.
    apply deref_Ok in Hl as Hld. rewrite (bind_run _ _ (b_store b) l (b_store b)) by by rewrite Hld.
    rewrite (bind_run _ _ (b_store b) l (b_store b))
      by (case_decide; [by rewrite (Descendants_run initID [i; k])|done]).
    rewrite (bind_run (st_modify _) _ (b_store b) tt (b_store b))
      by (unfold st_modify; by rewrite store_at_same).
    unfold mbind, stM_bind. rewrite Hsp. apply deref_Ok in El1. by rewrite El1. }
  assert (lookup_addr [i; k] (j_logs (store_at [i; k] (set_parent link l1) j1)) =
    Some (set_parent link l1)) as Hl2 by by eapply lookup_store_at.
  unfold UserDatasetBranchesLog in *. rewrite decide_False in * by done.
  unfold mbind, stM_bind, st_zoom, with_store in *. rewrite Hrun in *. cbn [b_store set_store] in *.
  assert (Parent [i; k] (store_at [i; k] (set_parent link l1) j1) =
    Ok (Some (mkLog "" "" NoParent "" psig (sparse_ops (lg_parent l) p) [set_parent link l1]))) as Hpar.
  { unfold Parent. apply deref_Ok in Hl2. by rewrite Hl2. }
  rewrite Hpar in *. eexists psig, (set_parent link l1), _. split_and!; [done|done|done|done].
Qed.

(** Signing it changes nothing but the signature in the copy. *)
Lemma sign_parent_sparse i k sig pid ops sig0 pp j l :
  let a := [i; k] in
  lookup_addr a (j_logs j) = Some l → lg_parent l = SparseParent pid ops sig0 pp →
  ∃ j', sign_parent a sig j = Ok j' ∧ (∀ x, edits x [] j j') ∧
    lookup_addr a (j_logs j') = Some (set_parent (SparseParent pid ops sig pp) l).
Proof.
  intros a. intros Hl Hpar. unfold sign_parent. apply deref_Ok in Hl as Hd. rewrite Hd. cbn. rewrite Hpar.
  eexists. split; [done|]. split.
  - intros x. apply (edits_relabel x a l); [apply edits_refl|done|done|]. intros Hj.
    apply (linked_store_at a l); [done..| |done]. split_and!; [done..|]. right.
    destruct (linked_child j Hj [i] k l ltac:(done) Hl) as (p & Hp & _ & Hlink & _).
    exists p. split; [done|]. rewrite Hpar in Hlink. exact Hlink.
  - exact (lookup_store_at a _ j l Hl).
Qed.

Lemma Book_LogBytes_run initID i k b l lsp pid ops sig0 pp s :
  Journal_Get initID (b_store b) = Ok [i; k] →
  lookup_addr [i; k] (j_logs (b_store b)) = Some l → lg_parent l = SparseParent pid ops sig0 pp →
  pk_Sign (b_pk b) (SigningBytes lsp) = Ok s → wf_log lsp →
  ∃ fb b', Book_LogBytes initID (Some lsp) b = (Ok (fb_finish_Log fb), b') ∧
    (∀ q, Log_UnmarshalFlatbuffer fb q = reload "" q (set_Signature s lsp)) ∧
    (∀ x, written x [] b b') ∧
    lookup_addr [i; k] (j_logs (b_store b')) = Some (set_parent (SparseParent pid ops s pp) l).
Proof.
  intros Hget Hl Hpar Hs Hwf.
  destruct (sign_parent_sparse i k s pid ops sig0 pp (b_store b) l Hl Hpar) as (j' & Hsign & Hed & Hl').
  destruct (marshal_unmarshal (set_Signature s lsp)) as (fb & Hfb & Hun); [by destruct Hwf|].
  exists fb, (set_store j' b). split_and!; [|done|intros x; by split|done].
  unfold Book_LogBytes. rewrite Hs.
  rewrite (bind_run (with_store _) _ b [i; k] b) by (unfold with_store; by rewrite Hget).
  rewrite (bind_run (update_store _) _ b tt (set_store j' b)) by (unfold update_store; by rewrite Hsign).
  rewrite (bind_run (st_lift _) _ (set_store j' b) s (set_store j' b)) by done.
  rewrite (bind_run (st_lift _) _ (set_store j' b) fb (set_store j' b)); [done|].
  unfold st_lift. by rewrite Hfb.
Qed.

(** ** Merging what arrives *)

(** A journal can take a log in when it has no log of its author, or has one
    that shares a history with it. *)
Definition can_receive (l : Log) (j : Journal) : Prop :=
  match Journal_Get (ID l) j with
  | Ok a => ∃ lg u, lookup_addr a (j_logs j) = Some lg ∧ Log_Forall siblings_ok u ∧
                    extends lg u ∧ extends l u
  | _ => find_author l 0 (j_logs j) = Ok None
  end.

Lemma extends_store_at a lg m i top ls :
  Forall wf_log ls → lookup_addr a ls = Some lg → extends lg m → ls !! i = Some top →
  ∃ top', alter_addr (λ _, m) a ls !! i = Some top' ∧ extends top top'.
Proof.
  revert i top ls. induction a as [|k a IH]; intros i top ls Hwf; [done|].
  rewrite lookup_addr_cons. cbn [alter_addr]. destruct (ls !! k) as [y|] eqn:Hk; cbn; [|done].
  intros Hlk Hext Htop. destruct (decide (i = k)) as [->|Hi].
  - rewrite list_lookup_alter_eq, Htop. assert (y = top) as -> by congruence. cbn.
    eexists. split; [done|]. destruct a as [|k' a]; [by simplify_eq|].
    pose proof (Forall_lookup_1 _ _ _ _ Hwf Htop) as [Hi Hch].
    apply extends_alt. split_and!; [done|done|]. intros c Hc.
    apply list_elem_of_lookup in Hc as [n Hn].
    destruct (IH n c (lg_Logs top) Hch Hlk Hext Hn) as (c' & Hc' & Hcc).
    exists c'. split; [by eapply list_elem_of_lookup_2|done].
  - rewrite list_lookup_alter_ne by done. exists top. split; [done|].
    apply extends_refl. by eapply Forall_lookup_1.
Qed.

Lemma MergeLog_received l j :
  wf_journal j → wf_log l → ID l ≠ "" → can_receive l j →
  ∃ j' a l', MergeLog l j = Ok j' ∧ wf_journal j' ∧
    lookup_addr a (j_logs j') = Some l' ∧ extends l l' ∧
    ∀ i lg, j_logs j !! i = Some lg → ∃ lg', j_logs j' !! i = Some lg' ∧ extends lg lg'.
Proof.
  intros Hj Hl Hid Hcan. unfold MergeLog. rewrite decide_False by done. unfold can_receive in Hcan.
  destruct (Journal_Get (ID l) j) as [a|e|] eqn:Hget; [| |by destruct (Get_no_panic (ID l) j)].
  - destruct Hcan as (lg & u & Hlg & Hu & Hlgu & Hlu). apply deref_Ok in Hlg as Hd. rewrite Hd. cbn.
    destruct (Merge_lub l lg u Hu Hlgu Hlu) as (m & -> & Hlgm & Hlm & Hmu). cbn.
    exists (store_at a m j), a, m. split_and!; [done| |by eapply lookup_store_at|done|].
    + apply wf_store_at; [done|]. by eapply extends_wf_l.
    + intros i top Htop. by eapply extends_store_at.
  - unfold Journal_Get in Hget. destruct (find_addr _ 0 (j_logs j)); [done|]. injection Hget as <-.
    rewrite Hcan. cbn. exists (set_j_logs (j_logs j ++ [l]) j), [length (j_logs j)], l.
    split_and!; [done| | |by apply extends_refl|].
    + apply Forall_app. split; [done|]. by constructor.
    + cbn. by rewrite lookup_app_r, Nat.sub_diag.
    + intros i lg Hi. exists lg. split; [by apply lookup_app_l_Some|].
      apply extends_refl. by eapply Forall_lookup_1.
Qed.

(** Logs with the same operations everywhere are received alike. *)
Lemma can_receive_same l l' j :
  lg_Ops l = lg_Ops l' → extends l l' → can_receive l' j → can_receive l j.
Proof.
  intros Hops Hext. unfold can_receive. replace (ID l) with (ID l') by by rewrite (extends_ID l l').
  assert (find_author l 0 (j_logs j) = find_author l' 0 (j_logs j)) as ->.
  { assert (FirstOpAuthorID l = FirstOpAuthorID l') as Hf by (unfold FirstOpAuthorID, Model; by rewrite Hops).
    generalize 0. induction (j_logs j) as [|x ls IH]; intros k; [done|]. cbn. rewrite Hf.
    destruct (FirstOpAuthorID x); cbn; [|done..]. destruct (FirstOpAuthorID l'); cbn; [|done..].
    case_decide; [done|apply IH]. }
  destruct (Journal_Get (ID l') j); [|done..].
  intros (lg & u & Hlg & Hu & Hlgu & Hlu). exists lg, u. split_and!; [done..|]. by eapply extends_trans.
Qed.

(** ** What a push sends *)

(** The dataset at [[i; k]] with a push recorded in its branch, under its
    author's operations *)
Definition pushed_dataset (l : Log) (op : Op) : Log :=
  set_Logs (map (λ br, set_Ops (lg_Ops br ++ [op]) br) (lg_Logs l)) l.
Definition pushed_log (p l : Log) (op : Op) : Log :=
  mkLog "" "" NoParent "" "" (lg_Ops p) [pushed_dataset l op].

Lemma lookup_alter_below f i k n ls :
  lookup_addr [i; k] (alter_addr f [i; k; n] ls) =
    (λ l, set_Logs (alter f n (lg_Logs l)) l) <$> lookup_addr [i; k] ls ∧
  lg_Ops <$> lookup_addr [i] (alter_addr f [i; k; n] ls) = lg_Ops <$> lookup_addr [i] ls.
Proof.
  rewrite !lookup_addr_cons. cbn [alter_addr]. rewrite list_lookup_alter_eq.
  destruct (ls !! i) as [p|]; cbn; [|done]. split; [|done]. rewrite list_lookup_alter_eq.
  by destruct (lg_Logs p !! k).
Qed.

(** The place of a dataset: its author's log, and its one branch. *)
Record dataset_at (i k : nat) (p l br : Log) (initID : string) b : Prop := mkDatasetAt {
  da_get : Journal_Get initID (b_store b) = Ok [i; k];
  da_author : lookup_addr [i] (j_logs (b_store b)) = Some p;
  da_dataset : lookup_addr [i; k] (j_logs (b_store b)) = Some l;
  da_branch : lg_Logs l = [br];
  da_linked : linked (b_store b);
  da_wf : wf_journal (b_store b);
  da_parent : lg_ParentID l ≠ "" ∧ initID ≠ "";
}.

Lemma dataset_at_branch i k p l br initID b :
  dataset_at i k p l br initID b → branchLog initID b = (Ok [i; k; 0], b).
Proof.
  intros Hd. apply branchLog_Ok. split; [done|]. exists [i; k], l. split_and!; [done|apply Hd| |].
  - apply deref_Ok, Hd.
  - by rewrite (da_branch _ _ _ _ _ _ _ Hd).
Qed.

Lemma ops_below i k a j l :
  lookup_addr [i; k] (j_logs j) = Some l → a ≠ [] →
  lg_Ops <$> lookup_addr a (lg_Logs l) = ops_at (i :: k :: a) j.
Proof. intros Hl Ha. unfold ops_at. by rewrite <- (lookup_addr_app [i; k] a _ l Hl Ha). Qed.

Lemma wf_pushed l op : wf_log l → wf_log (pushed_dataset l op).
Proof.
  intros [Hi Hch]. split; [done|]. apply Forall_fmap. eapply Forall_impl; [exact Hch|].
  intros br Hbr. apply wf_set_ops; [by destruct (lg_Ops br)|done].
Qed.

(** A write to the branch makes the dataset the pushed one, up to names and
    signatures. *)
Lemma written_pushed i k p l br initID b b' l' op :
  dataset_at i k p l br initID b → written [i; k; 0] [op] b b' →
  lookup_addr [i; k] (j_logs (b_store b')) = Some l' →
  lg_Ops l' = lg_Ops l ∧ extends l' (pushed_dataset l op) ∧ extends (pushed_dataset l op) l'.
Proof.
  intros Hd [[Happ _ _ Hwf _] _] Hl'. pose proof (da_dataset _ _ _ _ _ _ _ Hd) as Hl.
  assert (lg_Ops l' = lg_Ops l) as Hops.
  { pose proof (Happ [i; k]) as Ha. unfold ops_at in Ha. rewrite Hl, Hl' in Ha. injection Ha as Ha.
    by rewrite decide_False in Ha. }
  assert (∀ a, lg_Ops <$> lookup_addr a (lg_Logs l') =
               lg_Ops <$> lookup_addr a (lg_Logs (pushed_dataset l op))) as Hall.
  { intros [|m a]; [done|]. rewrite (ops_below i k (m :: a) _ l' Hl'), (Happ _) by done.
    rewrite <- (ops_below i k (m :: a) _ l Hl) by done. unfold pushed_dataset. cbn [lg_Logs set_Logs].
    rewrite (da_branch _ _ _ _ _ _ _ Hd), !lookup_addr_cons. destruct m as [|m]; [|done]. cbn [lookup list_lookup map fmap].
    destruct a as [|m a]; [by destruct (decide ([i; k; 0] = [i; k; 0]))|].
    destruct (decide _) as [Heq|_]; [done|]. cbn [mbind option_bind set_Ops lg_Logs].
    by destruct (lookup_addr (m :: a) (lg_Logs br)). }
  assert (wf_log l') as Hwf'.
  { eapply wf_lookup; [|exact Hl']. apply Hwf, Hd. }
  assert (extends l' (pushed_dataset l op)) as He by by apply extends_by_ops.
  split_and!; [done|done|]. apply extends_by_ops; [|done|done].
  eapply wf_pushed, wf_lookup; [|exact Hl]. apply Hd.
Qed.

(** What the push answers, before its bytes *)
Lemma WriteRemotePush_dataset fuel i k p l br initID b key addr :
  dataset_at i k p l br initID b → cipher (b_pk b) = Ok key → owned [i; k; 0] b →
  sparse_ops (lg_parent l) p = lg_Ops p →
  let op := mkOp OpTypeInit PushModel "" "" [addr] "" "" (NewTimestamp (b_tick b)) 1 "" in
  ∃ psig l' b', WriteRemotePush (S fuel) initID 1 addr b =
      (Ok (Some (mkLog "" "" NoParent "" psig (lg_Ops p) [l'])), b') ∧
    lookup_addr [i; k] (j_logs (b_store b')) = Some l' ∧
    lg_parent l' = SparseParent "" (lg_Ops p) psig NoParent ∧
    written [i; k; 0] [op] b b'.
Proof.
  intros Hd Hk Ho Hfresh op. pose proof (dataset_at_branch _ _ _ _ _ _ _ Hd) as Hbr.
  destruct Hd as [Hget Hp Hl Hch Hlinked Hwf [Hpid Hid]].
  destruct (append_at_written [i; k; 0] op (tick b)) as (b1 & Hrun & Hw1 & _); [done|].
  destruct (owned_init _ _ Ho) as (lg0 & Hlg0 & Hi0).
  destruct (append_at_run [i; k; 0] op (tick b) lg0) as (br' & Hrun' & _); [done|done|].
  assert (b_store b1 = store_at [i; k; 0] br' (b_store b)) as Hstore.
  { rewrite Hrun in Hrun'. by injection Hrun' as ->. }
  assert (written [i; k; 0] [op] b (save b1).2) as Hw2
    by (eapply written_kept; [exact Hw1|apply save_kept]).
  destruct (lookup_alter_below (λ _, br') i k 0 (j_logs (b_store b))) as [Hl2 Hp2].
  rewrite Hl in Hl2. rewrite Hp in Hp2.
  assert (j_logs (b_store (save b1).2) = alter_addr (λ _, br') [i; k; 0] (j_logs (b_store b))) as Hs
    by (by rewrite (proj1 (save_kept b1)), Hstore).
  rewrite <- Hs in Hl2, Hp2.
  destruct (lookup_addr [i] (j_logs (b_store (save b1).2))) as [p2|] eqn:Ep2; [|done].
  injection Hp2 as Hp2. pose proof (proj1 Hw2) as [_ Hget2 _ Hwf2 Hlinked2].
  destruct (UserDatasetBranchesLog_dataset fuel initID i k (save b1).2 _ p2 (Hlinked2 Hlinked)
    (eq_trans (Hget2 initID) Hget) Hl2 Ep2 Hpid Hid) as (psig & l' & b' & Hrun2 & Hl' & Hpar' & Hw').
  cbn [lg_parent set_Logs] in Hrun2, Hpar'.
  assert (sparse_ops (lg_parent l) p2 = lg_Ops p) as Hsp
    by (rewrite <- Hfresh; unfold sparse_ops; by case_match).
  rewrite Hsp in *. exists psig, l', b'. split_and!; [|done..|].
  - unfold WriteRemotePush, write_remote. rewrite (bind_run _ _ _ _ _ Hbr).
    rewrite (bind_run _ _ _ _ _ (hasWriteAccess_owned _ _ Ho)), now_run.
    rewrite (bind_run _ _ _ tt b1) by by rewrite BranchLog_Append_eq by set_solver.
    assert (save b1 = (Ok tt, (save b1).2)) as Hsave.
    { apply (save_run b1 key); [by rewrite <- (proj1 (save_kept b1)); apply Hwf2|].
      destruct Hw1 as [_ (_ & Hpk & _)]. by rewrite Hpk. }
    rewrite (bind_run _ _ _ _ _ Hsave). unfold sparse_or_rollback. by rewrite Hrun2.
  - rewrite <- (app_nil_r [op]). eapply written_trans; [exact Hw2|].
    pose proof (UserDatasetBranchesLog_written (S fuel) initID [i; k; 0] (save b1).2) as Hw3.
    by rewrite Hrun2 in Hw3.
Qed.

(** A push up to the remote's answer: the push is recorded in the branch, and
    the bytes sent hold the dataset under its author, signed. *)
Lemma Push_Do_dataset `{!Remote R} fuel ref addr i k p l br b key (r : R) s :
  dataset_at i k p l br (ref_InitID ref) b → cipher (b_pk b) = Ok key → owned [i; k; 0] b →
  sparse_ops (lg_parent l) p = lg_Ops p → has_init p →
  rem_addr r = Ok addr → pk_Sign (b_pk b) (SigningBytes p) = Ok s →
  let op := mkOp OpTypeInit PushModel "" "" [addr] "" "" (NewTimestamp (b_tick b)) 1 "" in
  ∃ fb psig l' b', written [i; k; 0] [op] b b' ∧
    (∀ q, Log_UnmarshalFlatbuffer fb q =
       reload "" q (set_Signature s (mkLog "" "" NoParent "" psig (lg_Ops p) [l']))) ∧
    wf_log l' ∧ lg_Ops l' = lg_Ops l ∧ extends l' (pushed_dataset l op) ∧ extends (pushed_dataset l op) l' ∧
    Push_Do (S fuel) ref (b, r) =
      or_rollback (ref_InitID ref)
        (remotely (rem_put (Book_Author b') ref (fb_finish_Log fb))) (b', r).
Proof.
  intros Hd Hk Ho Hfresh Hp Haddr Hsign op.
  destruct (WriteRemotePush_dataset fuel i k p l br _ b key addr Hd Hk Ho Hfresh)
    as (psig & l' & b1 & Hrun & Hl' & Hpar' & Hw).
  pose proof (proj1 Hw) as [_ Hget _ Hwf _]. pose proof (Hwf (da_wf _ _ _ _ _ _ _ Hd)) as Hwf1.
  pose proof (wf_lookup _ _ _ Hwf1 Hl') as Hwfl.
  destruct (Book_LogBytes_run (ref_InitID ref) i k b1 l' (mkLog "" "" NoParent "" psig (lg_Ops p) [l'])
    "" (lg_Ops p) psig NoParent s) as (fb & b2 & Hbytes & Hun & Hw2 & Hl2); [|done|done| | |].
  { rewrite Hget. apply Hd. }
  { destruct Hw as [_ (_ & -> & _)]. exact Hsign. }
  { split; [done|]. by constructor. }
  destruct (written_pushed i k p l br _ b b1 l' op Hd Hw Hl') as (Hops & He1 & He2).
  exists fb, psig, l', b2. split_and!; [|done..|].
  - rewrite <- (app_nil_r [op]). by eapply written_trans.
  - unfold Push_Do, addr_of. rewrite (bind_run _ _ (b, r) addr (b, r)).
    2: { unfold mbind, stM_bind, st_get, st_lift. cbn. by rewrite Haddr. }
    rewrite (bind_run (local _) _ (b, r) _ (b1, r)) by (unfold local, st_zoom; cbn; by rewrite Hrun).
    unfold or_rollback.
    match goal with |- match (?m ≫= ?f) _ with _ => _ end = _ =>
      assert (m (b1, r) = (Ok (fb_finish_Log fb), (b2, r))) as ->%(bind_run _ f) end.
    { unfold local, st_zoom. cbn [fst snd]. by rewrite Hbytes. }
    by rewrite (bind_run st_get _ (b2, r) (b2, r) (b2, r)).
Qed.

(** ** The handlers of a node *)
Section node.
Context {W : Type}.
Implicit Types n : Logsync (C := C) (F := F) (P := P) W.

(** A hook that lets everything pass, and one that at least answers *)
Definition passes (hook : option (Hook W)) : Prop :=
  ∀ h, hook = Some h → ∀ a r l w, (h a r l w).1 = Ok tt.
Definition answers_always (hook : option (Hook W)) : Prop :=
  ∀ h, hook = Some h → ∀ a r l w, (h a r l w).1 ≠ Panic.

Lemma check_hook_world (hook : Logsync W → option (Hook W)) a r l n :
  ∃ w, (check_hook hook a r l n).2 = set_world w n.
Proof.
  unfold check_hook, st_zoom. destruct (hook n) as [h|]; [|by exists (ls_world n); destruct n].
  destruct (h a r l (ls_world n)) as [res w]. by exists w.
Qed.

Lemma check_hook_passes (hook : Logsync W → option (Hook W)) a r l n :
  passes (hook n) → ∃ w, check_hook hook a r l n = (Ok tt, set_world w n).
Proof.
  intros Hp. destruct (check_hook_world hook a r l n) as [w Hw]. exists w. rewrite <- Hw.
  rewrite (surjective_pairing (check_hook hook a r l n)) at 1. f_equal.
  unfold check_hook, st_zoom. destruct (hook n) as [h|] eqn:Hh; [|done].
  specialize (Hp h eq_refl a r l (ls_world n)). by destruct (h a r l (ls_world n)).
Qed.

Lemma note_hook_world (hook : Logsync W → option (Hook W)) a r l n :
  ∃ w, (note_hook hook a r l n).2 = set_world w n.
Proof.
  destruct (check_hook_world hook a r l n) as [w Hw]. exists w. unfold note_hook.
  by destruct (check_hook hook a r l n) as [[] n'].
Qed.

Lemma note_hook_answers (hook : Logsync W → option (Hook W)) a r l n :
  answers_always (hook n) → ∃ w, note_hook hook a r l n = (Ok tt, set_world w n).
Proof.
  intros Hp. destruct (note_hook_world hook a r l n) as [w Hw]. exists w. rewrite <- Hw.
  rewrite (surjective_pairing (note_hook hook a r l n)) at 1. f_equal.
  unfold note_hook, check_hook, st_zoom. destruct (hook n) as [h|] eqn:Hh; [|done].
  specialize (Hp h eq_refl a r l (ls_world n)). by destruct (h a r l (ls_world n)) as [[[]| |] w'].
Qed.

(** A put that every check lets pass *)
Lemma logsync_put_accepted author ref fb lg n k j' :
  passes (pushPreCheck n) → passes (pushFinalCheck n) → answers_always (pushed n) →
  fb_root_Log (fb_finish_Log fb) = Ok fb → fb_finish_Log fb ≠ "" →
  Log_UnmarshalFlatbuffer fb NoParent = lg →
  DsrefAliasForLog (Some lg) = Ok (mkRef "" (ref_Username ref) (ref_ProfileID ref) (ref_Name ref) "") →
  Log_Verify (AuthorPubKey author) lg = Ok tt →
  MergeLog lg (b_store (ls_book n)) = Ok j' → wf_journal j' → cipher (b_pk (ls_book n)) = Ok k →
  ∃ n', logsync_put author ref (fb_finish_Log fb) n = (Ok tt, n') ∧ b_store (ls_book n') = j'.
Proof.
  intros Hpre Hfinal Hpost Hroot Hne Hlg Halias Hver Hmerge Hwf Hk. unfold logsync_put.
  destruct (check_hook_passes pushPreCheck author ref None n Hpre) as [w1 Hw1].
  rewrite (bind_run _ _ _ _ _ Hw1), decide_False by done.
  rewrite (bind_run (st_lift _) _ (set_world w1 n) lg (set_world w1 n))
    by (unfold st_lift, UnmarshalFlatbufferBytes; rewrite Hroot; cbn; by rewrite Hlg).
  rewrite (bind_run (st_lift _) _ (set_world w1 n) _ (set_world w1 n)) by (unfold st_lift; by rewrite Halias).
  rewrite decide_False by (cbn; tauto).
  destruct (check_hook_passes pushFinalCheck author
    (mkRef "" (ref_Username ref) (ref_ProfileID ref) (ref_Name ref) "") (Some lg) (set_world w1 n) Hfinal)
    as [w2 Hw2].
  rewrite (bind_run _ _ _ _ _ Hw2).
  set (b' := (save (set_store j' (ls_book n))).2).
  rewrite (bind_run (on_book _) _ (set_world w2 (set_world w1 n)) tt
    (set_book b' (set_world w2 (set_world w1 n)))).
  2: { unfold on_book, st_zoom, Book_MergeLog. cbn [ls_book set_world]. rewrite Hver.
    rewrite (bind_run (st_lift _) _ (ls_book n) tt (ls_book n)) by done.
    rewrite (bind_run (update_store _) _ (ls_book n) tt (set_store j' (ls_book n)))
      by (unfold update_store; by rewrite Hmerge).
    by rewrite (save_run (set_store j' (ls_book n)) k). }
  destruct (note_hook_answers pushed author ref (Some lg) (set_book b' (set_world w2 (set_world w1 n))))
    as [w3 ->]; [done|].
  eexists. split; [done|]. cbn. destruct (save_kept (set_store j' (ls_book n))) as [Hs _]. exact Hs.
Qed.

(** Whatever becomes of a put, it changes the store only by merging a log
    that passed every check. *)
Definition put_checks author ref data n (lg : Log) : Prop :=
  ∃ logRef, UnmarshalFlatbufferBytes data = Ok lg ∧ DsrefAliasForLog (Some lg) = Ok logRef ∧
    ref_Username logRef = ref_Username ref ∧ ref_Name logRef = ref_Name ref ∧
    ref_ProfileID logRef = ref_ProfileID ref ∧ Log_Verify (AuthorPubKey author) lg = Ok tt ∧
    (∃ w, (check_hook pushPreCheck author ref None (set_world w n)).1 = Ok tt) ∧
    (∃ w, (check_hook pushFinalCheck author logRef (Some lg) (set_world w n)).1 = Ok tt).

Lemma Book_MergeLog_cases ver lg b r b' :
  Book_MergeLog ver lg b = (r, b') →
  b_store b' = b_store b ∨ ver = Ok tt ∧ MergeLog lg (b_store b) = Ok (b_store b').
Proof.
  unfold Book_MergeLog, mbind, stM_bind, st_lift, update_store.
  destruct ver as [[]|e|]; [|intros [= _ <-]; by left..].
  destruct (MergeLog lg (b_store b)) as [j|e|]; [|intros [= _ <-]; by left..].
  intros Hs. apply (f_equal snd) in Hs. cbn in Hs. subst b'.
  destruct (save_kept (set_store j b)) as [Hs _]. rewrite Hs. by right.
Qed.

Lemma logsync_put_cases author ref data n :
  wp (logsync_put author ref data)
     (λ _ n', b_store (ls_book n') = b_store (ls_book n) ∨
        ∃ lg, put_checks author ref data n lg ∧
              MergeLog lg (b_store (ls_book n)) = Ok (b_store (ls_book n'))) n.
Proof.
  unfold logsync_put. apply wp_bind. unfold wp at 1.
  destruct (check_hook_world pushPreCheck author ref None n) as [w1 Hw1].
  destruct (check_hook pushPreCheck author ref None n) as [[[]|e|] n1] eqn:Hpre; cbn [fst snd] in Hw1 |- *; subst n1;
    [|by left..].
  case_decide; [by left|]. apply wp_bind, wp_lift.
  destruct (UnmarshalFlatbufferBytes data) as [lg|e|] eqn:Hun; [|by left..].
  apply wp_bind, wp_lift.
  destruct (DsrefAliasForLog (Some lg)) as [logRef|e|] eqn:Hal; [|by left..].
  case_decide as Hm; [by left|]. apply wp_bind. unfold wp at 1.
  destruct (check_hook_world pushFinalCheck author logRef (Some lg) (set_world w1 n)) as [w2 Hw2].
  destruct (check_hook pushFinalCheck author logRef (Some lg) (set_world w1 n)) as [[[]|e|] n1] eqn:Hfin;
    cbn [fst snd] in Hw2 |- *; subst n1; [|by left..].
  apply wp_bind. unfold wp at 1, on_book, st_zoom. cbn [ls_book set_world].
  destruct (Book_MergeLog _ lg (ls_book n)) as [r b'] eqn:Hb. cbn [fst snd].
  apply Book_MergeLog_cases in Hb.
  assert (b_store b' = b_store (ls_book n) ∨ ∃ lg, put_checks author ref data n lg ∧
    MergeLog lg (b_store (ls_book n)) = Ok (b_store b')) as Hres.
  { destruct Hb as [?|[Hver Hmerge]]; [by left|right]. exists lg. split; [|done]. exists logRef.
    split_and!; [done|done|apply dec_stable; tauto|apply dec_stable; tauto|apply dec_stable; tauto|done|..].
    - exists (ls_world n). replace (set_world (ls_world n) n) with n by by destruct n. by rewrite Hpre.
    - exists w1. by rewrite Hfin. }
  destruct r as [[]|e|]; [|done..]. unfold wp.
  match goal with |- context [note_hook pushed author ref (Some lg) ?m] =>
    destruct (note_hook_world pushed author ref (Some lg) m) as [w3 ->] end.
  exact Hres.
Qed.
End node.
End book.
