(* ===== verification/LogsyncHttp.v ===== *)
(** * Log synchronization over HTTP (src/logbook/logsync/http.go)

    The handler a node exposes, as a function from requests to responses, and
    the client, which is a [Remote]. A request travels as its method, the
    [ref] parameter of its query, its headers and its body; the syntax of
    addresses and the key library are the environment's. *)
From S2P Require Export GoStrings Refstore Logsync.
From stdpp Require Export strings.
From S2P Require Export LogsyncFacts DsrefFacts.

(** Keys as bytes, from the key library *)
Class KeyBytes `(S : LogSigning) : Type := {
  PubKey_Bytes : PubKey → string + error;
  UnmarshalPublicKey : string → outcome PubKey;
}.
Class KeyBytesLaws `(K : KeyBytes) : Prop := {
  Unmarshal_Bytes : ∀ k d, PubKey_Bytes k = inl d → UnmarshalPublicKey d = Ok k;
}.

(** ** Requests and responses *)
Abbreviation Header := (gmap string string).
Definition Header_Get (h : Header) (key : string) : string := default "" (h !! key).

Record Request : Type := mkRequest {
  req_Method : string;
  req_ref : string;
  req_Header : Header;
  req_Body : string;
}.
Record Response : Type := mkResponse {
  res_StatusCode : Z;
  res_Header : Header;
  res_Body : string;
}.

Definition StatusOK : Z := 200.
Definition StatusBadRequest : Z := 400.
Definition StatusNotFound : Z := 404.

(** A connection: [url.Parse] of an address, and one exchange *)
Class HttpTransport (R : Type) : Type := {
  url_Parse : string → option error;
  http_Do : string → Request → stM R Response;
}.

Section http.
Context `{OpDigest, C : BookCipher, !LogSigning, Entropy} {F P : Type} `{Filesystem F, Publisher P}.
Context `{!KeyBytes _, !ProfileIDs, !MultihashLib}.

(** [addAuthorHTTPHeaders]: the headers set when it fails stay set. *)
Definition addAuthorHTTPHeaders (h : Header) (author : LogAuthor) : Header * option error :=
  let h := <["username" := Author_Username author]> (<["ID" := AuthorID author]> h) in
  match PubKey_Bytes (AuthorPubKey author) with
  | inl pubByteStr => (<["PubKey" := base64_EncodeToString pubByteStr]> h, None)
  | inr e => (h, Some e)
  end.

(** [senderFromHTTPHeaders] *)
Definition senderFromHTTPHeaders (h : Header) : outcome LogAuthor :=
  data ← base64_DecodeString (Header_Get h "PubKey");
  match UnmarshalPublicKey data with
  | Ok pub => Ok (mkAuthor (Header_Get h "ID") pub (Header_Get h "username"))
  | Error e => Error (Errorf "decoding public key: %s" [error_text e])
  | Panic => Panic
  end.

(** [dsref.Parse] as its callers see it *)
Definition dsref_Parse (text : string) : outcome Ref :=
  match Parse text with (ref, None) => Ok ref | (_, Some e) => Error e end.

(** ** The handler *)
Section handler.
Context {W : Type}.
Abbreviation N := (stM (Logsync (C := C) (F := F) (P := P) W)).

Definition bad_request (e : error) : Response := mkResponse StatusBadRequest ∅ (error_text e).

(** A step of the handler whose error ends the request: [fail] answers it. *)
Definition or_respond {A} (fail : error → Response) (m : N A) (k : A → N Response) : N Response := λ n,
  match m n with
  | (Ok a, n') => k a n'
  | (Error e, n') => (Ok (fail e), n')
  | (Panic, n') => (Panic, n')
  end.

Definition respond_as (author : LogAuthor) (body : string) : Response :=
  mkResponse StatusOK (addAuthorHTTPHeaders ∅ author).1 body.

Definition get_failed (e : error) : Response :=
  if errors_Is e "logbook: not found" then mkResponse StatusNotFound ∅ (error_text e) else bad_request e.

(** [HTTPHandler] *)
Definition HTTPHandler (fuel : nat) (r : Request) : N Response :=
  or_respond bad_request (st_lift (senderFromHTTPHeaders (req_Header r))) (λ sender,
    if decide (req_Method r = "PUT") then
      or_respond bad_request (st_lift (dsref_Parse (req_ref r))) (λ ref,
      or_respond bad_request (logsync_put sender ref (req_Body r)) (λ _,
      n ← st_get; mret (respond_as (Logsync_Author n) "")))
    else if decide (req_Method r = "GET") then
      or_respond bad_request (st_lift (dsref_Parse (req_ref r))) (λ ref,
      or_respond get_failed (logsync_get fuel sender ref) (λ '(receiver, data),
      mret (respond_as receiver data)))
    else if decide (req_Method r = "DELETE") then
      or_respond bad_request (st_lift (ParseDatasetRef (req_ref r))) (λ ref,
      or_respond bad_request (logsync_del sender (ConvertToDsref ref)) (λ _,
      n ← st_get; mret (respond_as (Logsync_Author n) "")))
    else mret (mkResponse StatusNotFound ∅ "not found")).
End handler.

(** ** The client *)
Section client.
Context {R : Type} `{!HttpTransport R}.

(** [type httpClient struct] and the connection it uses *)
Record httpClient : Type := mkHttpClient { hc_URL : string; hc_conn : R }.
Definition set_conn (r : R) (c : httpClient) : httpClient := mkHttpClient (hc_URL c) r.

Definition author_headers (author : LogAuthor) : outcome Header :=
  match addAuthorHTTPHeaders ∅ author with (h, None) => Ok h | (_, Some e) => Error e end.

(** The exchange all methods end with: a status other than OK is an error with
    the body for its text. *)
Definition exchange (r : Request) : stM httpClient Response :=
  c ← st_get;
  res ← st_zoom hc_conn set_conn (http_Do (hc_URL c) r);
  if decide (res_StatusCode res = StatusOK) then mret res else st_fail (Errorf (res_Body res) []).

Definition check_url : stM httpClient unit :=
  c ← st_get;
  match url_Parse (hc_URL c) with
  | Some e => st_fail (ErrWrap "invalid logsync client url: %w" [] e)
  | None => mret tt
  end.

Definition httpClient_put (author : LogAuthor) (ref : Ref) (r : string) : stM httpClient unit :=
  check_url;;
  h ← st_lift (author_headers author);
  exchange (mkRequest "PUT" (LegacyProfileIDString ref) h r);;
  mret tt.

Definition httpClient_get (author : LogAuthor) (ref : Ref) : stM httpClient (LogAuthor * string) :=
  check_url;;
  h ← st_lift (author_headers author);
  let ref := mkRef "" (ref_Username ref) (ref_ProfileID ref) (ref_Name ref) (ref_Path ref) in
  res ← exchange (mkRequest "GET" (Ref_String ref) h "");
  sender ← st_lift (senderFromHTTPHeaders (res_Header res));
  mret (sender, res_Body res).

(** The address of a [DELETE] is parsed with the reference in it, which is not
    escaped: its characters are those of names, identifiers and paths. *)
Definition httpClient_del (author : LogAuthor) (ref : Ref) : stM httpClient unit :=
  c ← st_get;
  match url_Parse (hc_URL c +:+ "?ref=" +:+ Ref_String ref) with
  | Some e => st_fail e
  | None =>
      h ← st_lift (author_headers author);
      exchange (mkRequest "DELETE" (Ref_String ref) h "");;
      mret tt
  end.

#[export] Instance httpClient_remote : Remote httpClient := {|
  rem_addr c := Ok (hc_URL c);
  rem_put := httpClient_put;
  rem_get := httpClient_get;
  rem_del := httpClient_del;
|}.
End client.

(** ** A node behind a server

    [net/http] drops the connection of a handler that panics. *)
Definition served_transport (fuel : nat) (W : Type) (urls : string → option error)
    : HttpTransport (Logsync (C := C) (F := F) (P := P) W) := {|
  url_Parse := urls;
  http_Do _ r n := match HTTPHandler fuel r n with
                   | (Panic, n') => (Error (ErrSentinel "EOF"), n')
                   | res => res
                   end;
|}.
End http.

Arguments httpClient : clear implicits.

(** * Facts about log synchronization over HTTP *)
(** ** References that travel with their profile *)
Record travels (r : Ref) : Prop := mkTravels {
  tv_user : valid_word (ref_Username r);
  tv_name : valid_word (ref_Name r) ∧ has_upper (ref_Name r) = false;
  tv_profile : valid_hash (ref_ProfileID r);
  tv_path : valid_path (ref_Path r);
}.

Lemma b58Id_tail h tail :
  valid_hash h → stops is_alnum tail = true → b58Id (h +:+ tail) = Some (h, tail).
Proof.
  intros (t & -> & Ht & Hlen) Htail. unfold b58Id. cbn [strip_prefix String.append].
  rewrite !Ascii.eqb_refl. cbn [mbind option_bind].
  rewrite scan_run; [done| |done|naive_solver].
  eapply string_all_impl, Ht. apply base58_alnum.
Qed.

Lemma parseConcreteRef_profile id p :
  valid_path p → valid_hash id → parseConcreteRef ("@" +:+ id +:+ p) = ("", mkRef "" "" id "" p, None).
Proof.
  intros (network & h & Hn & Hh & ->) Hid.
  unfold parseConcreteRef, concreteRef_match. cbn [strip_prefix String.append].
  rewrite Ascii.eqb_refl. cbn [mbind option_bind].
  set (tail := String "/" (network +:+ String "/" h)).
  assert (scan is_base32 (Some 52) (id +:+ tail) = ("", id +:+ tail)) as ->
    by (by destruct Hid as (t & -> & _ & _)).
  assert (concreteRef_tail (id +:+ tail) = None) as -> by (by destruct Hid as (t & -> & _ & _)).
  rewrite b58Id_tail by done. cbn [mbind option_bind].
  change tail with ("/" +:+ network +:+ "/" +:+ h). rewrite concreteRef_tail_path by done.
  cbn [mbind option_bind].
  replace (negb (bool_decide (network = "mem")) && negb (bool_decide (network = "ipfs")))
    with false by (by destruct Hn as [-> | ->]).
  rewrite (b58Strict_hash id), (b58Strict_hash h) by done.
  assert (nonempty id = true) as -> by (by apply nonempty_true, valid_hash_nonempty).
  assert (nonempty h = true) as -> by (by apply nonempty_true, valid_hash_nonempty).
  done.
Qed.

Lemma parse_legacy r :
  travels r → dsref_Parse (LegacyProfileIDString r) =
    Ok (mkRef "" (ref_Username r) (ref_ProfileID r) (ref_Name r) (ref_Path r)).
Proof.
  intros [Hu [Hn Hup] Hid Hp]. unfold dsref_Parse, Parse, LegacyProfileIDString, Alias, Human.
  assert (nonempty (ref_Name r) = true) as -> by (by apply nonempty_true, valid_word_nonempty).
  assert (nonempty (ref_Path r) = true) as ->
    by (apply nonempty_true; by destruct Hp as (? & ? & _ & _ & ->)).
  rewrite orb_true_r, !string_app_assoc. rewrite parse_human by done.
  unfold parse_concrete. rewrite parseConcreteRef_profile by done. cbn. by rewrite Hup.
Qed.

Section http.
Context `{OpDigest, C : BookCipher, LS : !LogSigning, Entropy} {F P : Type} `{Filesystem F, Publisher P}.
Context `{K : !KeyBytes LS, !KeyBytesLaws K, !ProfileIDs, !MultihashLib}.

(** ** Senders *)
Lemma sender_author author d :
  PubKey_Bytes (AuthorPubKey author) = inl d →
  ∃ h, author_headers author = Ok h ∧ senderFromHTTPHeaders h = Ok author.
Proof.
  intros Hd. unfold author_headers, addAuthorHTTPHeaders. rewrite Hd. eexists. split; [done|].
  unfold senderFromHTTPHeaders, Header_Get. rewrite lookup_insert_eq.
  rewrite lookup_insert_ne, lookup_insert_ne, lookup_insert_eq by done.
  rewrite lookup_insert_ne, lookup_insert_eq by done.
  change (default "" (Some ?x)) with x.
  rewrite base64_Decode_Encode. cbn. rewrite (Unmarshal_Bytes _ d Hd). by destruct author.
Qed.

Section served.
Context {W : Type} (fuel : nat) (urls : string → option error).
#[local] Instance served : HttpTransport (Logsync (C := C) (F := F) (P := P) W) :=
  served_transport fuel W urls.
Abbreviation client := (httpClient (Logsync (C := C) (F := F) (P := P) W)).

(** A put the node accepts is answered with OK, whatever its key. *)
Lemma httpClient_put_carried (c : client) author ref d data n' :
  urls (hc_URL c) = None → PubKey_Bytes (AuthorPubKey author) = inl d → travels ref →
  logsync_put author (mkRef "" (ref_Username ref) (ref_ProfileID ref) (ref_Name ref) (ref_Path ref))
    data (hc_conn c) = (Ok tt, n') →
  httpClient_put author ref data c = (Ok tt, set_conn n' c).
Proof.
  intros Hurl Hd Href Hput. destruct (sender_author author d Hd) as (h & Hh & Hsender).
  unfold httpClient_put.
  rewrite (bind_run check_url _ c tt c).
  2: { unfold check_url. rewrite (bind_run st_get _ c c c) by done. cbn [url_Parse served served_transport].
       by rewrite Hurl. }
  rewrite (bind_run (st_lift _) _ c h c) by (unfold st_lift; by rewrite Hh).
  assert (exchange (mkRequest "PUT" (LegacyProfileIDString ref) h data) c =
    (Ok (respond_as (Logsync_Author n') ""), set_conn n' c)) as Hex.
  { unfold exchange. rewrite (bind_run st_get _ c c c) by done.
    rewrite (bind_run (st_zoom _ _ _) _ c (respond_as (Logsync_Author n') "") (set_conn n' c)); [done|].
    unfold st_zoom. cbn [http_Do served served_transport]. unfold HTTPHandler.
    cbn [req_Header req_Method req_ref req_Body].
    unfold or_respond at 1, st_lift at 1. rewrite Hsender, decide_True by done.
    unfold or_respond at 1, st_lift at 1. rewrite parse_legacy by done.
    unfold or_respond at 1. by rewrite Hput. }
  by rewrite (bind_run (exchange _) _ _ _ _ Hex).
Qed.

#[export, refine] Instance served_carrier : PutCarrier (C := C) (F := F) (P := P) client W := {|
  node_of := hc_conn;
  sendable c author ref := urls (hc_URL c) = None ∧ (∃ d, PubKey_Bytes (AuthorPubKey author) = inl d) ∧ travels ref; put_carried := _;
|}.
Proof.
  intros c author ref (Hurl & [d Hd] & Href).
  exists (mkRef "" (ref_Username ref) (ref_ProfileID ref) (ref_Name ref) (ref_Path ref)).
  split_and!; [done..|]. intros data n' Hput. exists (set_conn n' c). split; [|done].
  by eapply httpClient_put_carried.
Defined.
End served.
End http.
