(* ===== verification/SyncInstances.v ===== *)
(** * Concrete instances for log synchronization

    Signatures, log bytes, key bytes and identifiers to compute with, an author
    whose reference travels, and a node behind a server. *)
From S2P Require Export Instances LogsyncHttp.

Module SyncDemo.
Import Demo.

(** ** The bytes of a log: texts end in [;], lists in [-] *)
Fixpoint put_str (s r : string) : string :=
  match s with EmptyString => String ";" r | String c s => String "." (String c (put_str s r)) end.
Fixpoint get_str (s : string) : option (string * string) :=
  match s with
  | String k (String c s' as t) =>
      if Ascii.eqb k "." then '(x, r) ← get_str s'; Some (String c x, r)
      else Some ("", t)
  | String _ EmptyString => Some ("", "")
  | EmptyString => None
  end.
Lemma get_put_str s r : get_str (put_str s r) = Some (s, r).
Proof. induction s as [|c s IH]; cbn; [by destruct r|]. by rewrite IH. Qed.

Definition put_list {A} (p : A → string → string) (l : list A) (r : string) : string :=
  foldr (λ x acc, String "+" (p x acc)) (String "-" r) l.
Fixpoint get_list {A} (fuel : nat) (g : string → option (A * string)) (s : string) : option (list A * string) :=
  match fuel, s with
  | S fuel, String k s =>
      if Ascii.eqb k "+" then '(x, r) ← g s; '(l, r) ← get_list fuel g r; Some (x :: l, r) else Some ([], s)
  | _, _ => None
  end.
Lemma get_put_list {A} (p : A → string → string) g l r fuel :
  length l < fuel → (∀ x r, x ∈ l → g (p x r) = Some (x, r)) → get_list fuel g (put_list p l r) = Some (l, r).
Proof.
  revert fuel. induction l as [|x l IH]; intros [|fuel] Hf Hg; cbn in *; [lia|done|lia|].
  rewrite Hg by set_solver. cbn. rewrite IH; [done|lia|]. intros y r' Hy. apply Hg. set_solver.
Qed.

Definition put_Z (z : Z) : string := bits_of (encode z).
Definition get_Z (s : string) : Z := default 0%Z (decode (of_bits s)).
Lemma get_put_Z z : get_Z (put_Z z) = z.
Proof. unfold get_Z, put_Z. by rewrite of_bits_of, decode_encode. Qed.

Definition op_texts (o : FbOperation) : list string :=
  [put_Z (fbo_type o); put_Z (fbo_model o); fbo_ref o; fbo_prev o; fbo_name o; fbo_authorID o;
   put_Z (fbo_timestamp o); put_Z (fbo_size o); fbo_note o] ++ fbo_relations o.
Definition texts_op (l : list string) : FbOperation :=
  match l with
  | t :: m :: r :: p :: n :: a :: ts :: sz :: nt :: rel =>
      mkFbOperation (get_Z t) (get_Z m) r rel p n a (get_Z ts) (get_Z sz) nt
  | _ => mkFbOperation 0 0 "" [] "" "" "" 0 0 ""
  end.
Lemma texts_op_texts o : texts_op (op_texts o) = o.
Proof. destruct o. cbn. by rewrite !get_put_Z. Qed.

Definition put_texts : list string → string → string := put_list put_str.
Definition put_ops (ops : list FbOperation) : string → string := put_list put_texts (map op_texts ops).
Fixpoint put_log (l : FbLog) (r : string) : string :=
  put_str (fbl_name l) (put_str (fbl_identifier l) (put_str (fbl_signature l)
    (put_ops (fbl_opset l) (put_list put_log (fbl_logs l) r)))).

(** Every list of a text is shorter than the text. *)
Fixpoint get_log (fuel : nat) (s : string) : option (FbLog * string) :=
  match fuel with
  | O => None
  | S fuel' =>
      '(n, s) ← get_str s; '(i, s) ← get_str s; '(sg, s) ← get_str s;
      '(ops, s) ← get_list fuel (get_list fuel get_str) s;
      '(logs, s) ← get_list fuel (get_log fuel') s;
      Some (mkFbLog n i sg (map texts_op ops) logs, s)
  end.

Fixpoint log_size (l : FbLog) : nat :=
  S (length (fbl_opset l) + sum_list_with (λ o, length (op_texts o)) (fbl_opset l) +
     length (fbl_logs l) + sum_list_with log_size (fbl_logs l)).

Lemma sum_list_with_elem {A} (f : A → nat) l x : x ∈ l → f x ≤ sum_list_with f l.
Proof. induction 1; cbn; lia. Qed.

Lemma get_put_log fuel l r : log_size l < fuel → get_log fuel (put_log l r) = Some (l, r).
Proof.
  revert l r. induction fuel as [|fuel IH]; intros [n i sg ops ls] r; cbn [log_size fbl_opset fbl_logs]; [lia|].
  intros Hs. cbn [get_log put_log fbl_name fbl_identifier fbl_signature fbl_opset fbl_logs].
  rewrite get_put_str. cbn [mbind option_bind]. rewrite get_put_str. cbn [mbind option_bind].
  rewrite get_put_str. cbn [mbind option_bind]. unfold put_ops.
  rewrite get_put_list; [|rewrite length_map; lia|].
  - cbn [mbind option_bind]. rewrite get_put_list; [|lia|].
    + cbn. rewrite map_map. do 3 f_equal. rewrite <- (map_id ops) at 2. apply map_ext. apply texts_op_texts.
    + intros x r' Hx. apply IH. apply (sum_list_with_elem log_size) in Hx. lia.
  - intros x r' (o & -> & Ho)%list_elem_of_fmap. apply get_put_list; [|intros; apply get_put_str].
    apply (sum_list_with_elem (λ o, length (op_texts o))) in Ho. lia.
Qed.

Lemma length_put_str s r : String.length r < String.length (put_str s r).
Proof. induction s; cbn; lia. Qed.
Lemma length_put_list {A} (p : A → string → string) (f : A → nat) l r :
  (∀ x r, x ∈ l → f x + String.length r ≤ String.length (p x r)) →
  length l + sum_list_with f l + String.length r < String.length (put_list p l r).
Proof.
  induction l as [|x l IH]; cbn; intros Hp; [lia|].
  pose proof (Hp x (put_list p l r) ltac:(set_solver)). unfold put_list in *. cbn in *.
  assert (∀ y r', y ∈ l → f y + String.length r' ≤ String.length (p y r')) as Hl by (intros; apply Hp; set_solver).
  specialize (IH Hl). lia.
Qed.
Lemma length_put_log l r : log_size l + String.length r ≤ String.length (put_log l r).
Proof.
  revert r. induction l as [l IH] using (well_founded_induction (well_founded_ltof _ log_size)).
  intros r. destruct l as [n i sg ops ls]. cbn [put_log fbl_name fbl_identifier fbl_signature fbl_opset fbl_logs].
  pose proof (length_put_str n (put_str i (put_str sg (put_ops ops (put_list put_log ls r))))).
  pose proof (length_put_str i (put_str sg (put_ops ops (put_list put_log ls r)))).
  pose proof (length_put_str sg (put_ops ops (put_list put_log ls r))).
  assert (length ls + sum_list_with log_size ls + String.length r < String.length (put_list put_log ls r)) as Hls.
  { apply length_put_list. intros x r' Hx. apply IH. unfold ltof. cbn.
    apply (sum_list_with_elem log_size) in Hx. lia. }
  pose proof (length_put_list put_texts (length (A := string)) (map op_texts ops) (put_list put_log ls r)) as Hops.
  rewrite length_map in Hops. cbn [log_size fbl_opset fbl_logs].
  assert (sum_list_with length (map op_texts ops) = sum_list_with (λ o, length (op_texts o)) ops) as Hsum
    by (clear; induction ops; cbn [map sum_list_with]; congruence).
  rewrite Hsum in Hops. unfold put_ops in *.
  assert (∀ x r', x ∈ map op_texts ops → length x + String.length r' ≤ String.length (put_texts x r')) as Hx.
  { intros x r' _. pose proof (length_put_list put_str (λ _, 0) x r') as Hl. unfold put_texts.
    assert (∀ y r'', y ∈ x → 0 + String.length r'' ≤ String.length (put_str y r'')) as Hy
      by (intros y r'' _; pose proof (length_put_str y r''); lia).
    specialize (Hl Hy). lia. }
  specialize (Hops Hx). lia.
Qed.

Definition finish_log (l : FbLog) : string := put_log l "".
Definition root_log (s : string) : outcome FbLog :=
  match get_log (S (String.length s)) s with
  | Some (l, _) => Ok l
  | None => Error (Errorf "not a log" [])
  end.

#[export] Instance signing : LogSigning := {|
  PubKey := string;
  pk_GetPublic k := k;
  pk_Sign k m := Ok (k +:+ m);
  pub_Verify k m s := Ok (bool_decide (s = k +:+ m));
  md5_Sum s := s;
  fb_finish_Log := finish_log;
  fb_root_Log := root_log;
|}.

#[export] Instance signing_laws : LogSigningLaws signing.
Proof.
  split.
  - intros k m s [= <-]. cbn. by rewrite bool_decide_eq_true_2.
  - intros l. cbn [fb_root_Log fb_finish_Log signing]. unfold root_log, finish_log.
    rewrite get_put_log; [done|]. pose proof (length_put_log l ""). cbn in *. lia.
  - intros l. cbn [fb_finish_Log signing]. unfold finish_log. intros Heq.
    pose proof (length_put_log l "") as Hl. rewrite Heq in Hl. destruct l. cbn in Hl. lia.
Qed.

#[export] Instance key_bytes : KeyBytes signing := {|
  PubKey_Bytes k := inl k : string + error;
  UnmarshalPublicKey s := Ok s;
|}.
#[export] Instance key_bytes_laws : KeyBytesLaws key_bytes.
Proof. split. by intros k d [= <-]. Qed.

#[export] Instance ids : ProfileIDs := {| ID_String id := id; IDB58Decode s := Ok s |}.
#[export] Instance multihash : MultihashLib := {|
  base58_Decode s := Ok s;
  multihash_Decode s := if strings_HasPrefix s "Qm" then Ok s else Error (Errorf "not a multihash" []);
|}.

(** Ada's book, with a saved version *)
Definition ada_init : book := Eval vm_compute in
  (WriteDatasetInit "cities" (NewJournal (Ok "QmAda") (mkBook (mkJournal "" []) "k" "" "ada" "loc" Sink [] 3)).2).2.
Definition ada_cities : string := Eval vm_compute in
  match WriteDatasetInit "cities" (NewJournal (Ok "QmAda") (mkBook (mkJournal "" []) "k" "" "ada" "loc" Sink [] 3 : book)).2
  with (Ok id, _) => id | _ => "" end.
Definition ada : book := Eval vm_compute in
  (WriteVersionSave ada_cities (version "/ipfs/Qm1" "" 10) None ada_init).2.
Definition ada_ref : Ref := mkRef ada_cities "ada" "QmAda" "cities" "/ipfs/Qm1".

Definition ada_author : Log := Eval vm_compute in default (InitLog zero_Op) (j_logs (b_store ada) !! 0).
Definition ada_dataset : Log := Eval vm_compute in
  default (InitLog zero_Op) (lookup_addr [0; 0] (j_logs (b_store ada))).
Definition ada_branch : Log := Eval vm_compute in
  default (InitLog zero_Op) (lookup_addr [0; 0; 0] (j_logs (b_store ada))).

(** A node with Bob's book, without hooks, behind a server *)
Definition bob_node : Logsync (C := bookcipher) (F := sink) (P := events) unit :=
  mkLogsync bob_book tt None None None None None None None.
#[export] Instance bob_served : HttpTransport (Logsync (C := bookcipher) (F := sink) (P := events) unit) :=
  served_transport 1 unit (λ _, None).
#[export] Instance bob_carrier : PutCarrier (httpClient (Logsync unit)) unit :=
  served_carrier 1 (λ _, None).
Definition bob_client : httpClient (Logsync (C := bookcipher) (F := sink) (P := events) unit) :=
  mkHttpClient "http://bob" bob_node.

Lemma ada_dataset_at : dataset_at 0 0 ada_author ada_dataset ada_branch ada_cities ada.
Proof.
  split; try (vm_compute; reflexivity); [|repeat first [constructor | discriminate]|split; discriminate].
  split.
  - intros [|i] lg; [|done]. intros [= <-]. split; [done|discriminate].
  - intros [|[|?] [|[|?] [|[|?] a]]] [|i] lg Ha; try done; try (destruct a; done).
    all: intros [= <-]; eexists; split_and!; [reflexivity|vm_compute; reflexivity|exact I|vm_compute; reflexivity].
Qed.

Lemma ada_ref_travels : travels ada_ref.
Proof.
  split.
  - by split.
  - by split.
  - exists "Ada". split; [done|]. split; [done|]. cbn; lia.
  - exists "ipfs", "Qm1". split; [by right|]. split; [|done].
    exists "1". split; [done|]. split; [done|]. cbn; lia.
Qed.
End SyncDemo.
