(* ===== verification/LogsyncP2p.v ===== *)
(** * Log synchronization over peer-to-peer streams
    (src/logbook/logsync/p2p.go)

    The three handlers, the messages a client sends, and a stream between a
    client and a node as a transition system: both ends read messages
    concurrently and hang up after the first one, the caller waits for a reply
    on a channel. Messages come from the [dag] repository. *)
From S2P Require Export LogsyncHttp LogsyncFacts DsrefFacts.

(** [p2putil.Message] *)
Class P2PMessages : Type := {
  Msg : Type;
  NewMessage : string → string → Msg;
  WithHeaders : Msg → list (string * string) → Msg;
  Msg_Update : Msg → string → Msg;
  Msg_Header : Msg → string → string;
  Msg_Body : Msg → string;
  Msg_Type : Msg → string;
}.

(** The last of several headers of one name *)
Fixpoint header_of (key : string) (hs : list (string * string)) : option string :=
  match hs with
  | [] => None
  | (k, v) :: hs' =>
      match header_of key hs' with
      | Some v' => Some v'
      | None => if decide (k = key) then Some v else None
      end
  end.

Class P2PMessagesLaws `(P2PMessages) : Prop := {
  Header_With : ∀ m hs key, Msg_Header (WithHeaders m hs) key = default (Msg_Header m key) (header_of key hs);
  Body_With : ∀ m hs, Msg_Body (WithHeaders m hs) = Msg_Body m;
  Type_With : ∀ m hs, Msg_Type (WithHeaders m hs) = Msg_Type m;
  Body_New : ∀ t d, Msg_Body (NewMessage t d) = d;
  Type_New : ∀ t d, Msg_Type (NewMessage t d) = t;
  Header_Update : ∀ m d key, Msg_Header (Msg_Update m d) key = Msg_Header m key;
  Body_Update : ∀ m d, Msg_Body (Msg_Update m d) = d;
  Type_Update : ∀ m d, Msg_Type (Msg_Update m d) = Msg_Type m;
}.

Definition mtPut : string := "put".
Definition mtGet : string := "get".
Definition mtDel : string := "del".

Section p2p.
Context `{OpDigest, C : BookCipher, LS : !LogSigning, Entropy} {F P : Type} `{Filesystem F, Publisher P}.
Context `{!KeyBytes LS, !ProfileIDs, !MultihashLib, !P2PMessages}.

(** [addAuthorP2PHeaders] and [authorFromP2PHeaders] *)
Definition addAuthorP2PHeaders (h : list (string * string)) (author : LogAuthor)
    : outcome (list (string * string)) :=
  match PubKey_Bytes (AuthorPubKey author) with
  | inl pkb => Ok (h ++ [("author_id", AuthorID author); ("pub_key", base64_EncodeToString pkb);
                         ("author_username", Author_Username author)])
  | inr e => Error e
  end.

Definition authorFromP2PHeaders (msg : Msg) : outcome LogAuthor :=
  data ← base64_DecodeString (Msg_Header msg "pub_key");
  match UnmarshalPublicKey data with
  | Ok pub => Ok (mkAuthor (Msg_Header msg "author_id") pub (Msg_Header msg "author_username"))
  | Error e => Error (Errorf "decoding public key: %s" [error_text e])
  | Panic => Panic
  end.

(** What the client's [put], [get] and [del] send *)
Definition request_headers (ref : Ref) : list (string * string) :=
  [("phase", "request"); ("ref", Ref_String ref)].

Definition request (mt : string) (author : LogAuthor) (ref : Ref) (data : string) : outcome Msg :=
  headers ← addAuthorP2PHeaders (request_headers ref) author;
  Ok (WithHeaders (NewMessage mt data) headers).

(** What the client's [get] makes of the reply *)
Definition get_reply (res : Msg) : outcome (LogAuthor * string) :=
  sender ← authorFromP2PHeaders res; Ok (sender, Msg_Body res).

(** ** The handlers

    A handler answers with at most one message; every path hangs up. *)
Section handlers.
Context {W : Type}.
Abbreviation N := (stM (Logsync (C := C) (F := F) (P := P) W)).

Definition or_hangup {A} (m : N A) (k : A → N (option Msg)) : N (option Msg) := λ n,
  match m n with
  | (Ok a, n') => k a n'
  | (Error _, n') => (Ok None, n')
  | (Panic, n') => (Panic, n')
  end.

Definition HandlePut (msg : Msg) : N (option Msg) :=
  if decide (Msg_Header msg "phase" = "request") then
    or_hangup (st_lift (authorFromP2PHeaders msg)) (λ author,
    or_hangup (st_lift (dsref_Parse (Msg_Header msg "ref"))) (λ ref,
    or_hangup (logsync_put author ref (Msg_Body msg)) (λ _,
    or_hangup (n ← st_get; st_lift (addAuthorP2PHeaders [("phase", "response")] (Logsync_Author n)))
      (λ headers, mret (Some (WithHeaders msg headers))))))
  else mret None.

Definition HandleGet (fuel : nat) (msg : Msg) : N (option Msg) :=
  if decide (Msg_Header msg "phase" = "request") then
    or_hangup (st_lift (authorFromP2PHeaders msg)) (λ author,
    or_hangup (st_lift (ParseDatasetRef (Msg_Header msg "ref"))) (λ ref,
    or_hangup (logsync_get fuel author (ConvertToDsref ref)) (λ '(sender, data),
    or_hangup (st_lift (addAuthorP2PHeaders [("phase", "response")] sender))
      (λ headers, mret (Some (Msg_Update (WithHeaders msg headers) data))))))
  else mret None.

Definition HandleDel (msg : Msg) : N (option Msg) :=
  if decide (Msg_Header msg "phase" = "request") then
    or_hangup (st_lift (authorFromP2PHeaders msg)) (λ author,
    or_hangup (st_lift (ParseDatasetRef (Msg_Header msg "ref"))) (λ ref,
    or_hangup (logsync_del author (ConvertToDsref ref)) (λ _,
    mret (Some (WithHeaders msg [("phase", "response")])))))
  else mret None.

(** The table of [newp2pHandler]; a message of another type is not answered. *)
Definition handle (fuel : nat) (msg : Msg) : N (option Msg) :=
  if decide (Msg_Type msg = mtPut) then HandlePut msg
  else if decide (Msg_Type msg = mtGet) then HandleGet fuel msg
  else if decide (Msg_Type msg = mtDel) then HandleDel msg
  else mret None.

(** ** The stream

    [sendMessage] starts a [handleStream] with a channel of replies, sends
    its message and waits on the channel; the node runs a [handleStream]
    without one. Each loop ends after one message, or at the end of what the
    other side sent before it closed. The caller closes the stream when it
    returns. A message to an end that is closed is an error to who sends it,
    which hangs up as it would have anyway: here it is never read. *)
Inductive caller : Type :=
| Waiting
| Returned (reply : Msg).

Record stream : Type := mkStream {
  to_server : list Msg;
  to_client : list Msg;
  server_open : bool;
  client_open : bool;
  replies : list Msg;
  sm_caller : caller;
  server_node : Logsync (C := C) (F := F) (P := P) W;
  client_node : Logsync (C := C) (F := F) (P := P) W;
}.

Definition replied (r : outcome (option Msg)) : list Msg :=
  match r with Ok (Some m) => [m] | _ => [] end.

Inductive stream_step (fuel : nat) : stream → stream → Prop :=
| server_receives m ms tc co rs cl sn cn :
    stream_step fuel
      (mkStream (m :: ms) tc true co rs cl sn cn)
      (mkStream ms (tc ++ replied (handle fuel m sn).1) false co rs cl (handle fuel m sn).2 cn)
| server_eof tc rs cl sn cn :
    stream_step fuel (mkStream [] tc true false rs cl sn cn) (mkStream [] tc false false rs cl sn cn)
| client_receives ts m ms so rs cl sn cn :
    stream_step fuel
      (mkStream ts (m :: ms) so true rs cl sn cn)
      (mkStream (ts ++ replied (handle fuel m cn).1) ms so false (rs ++ [m]) cl sn (handle fuel m cn).2)
| client_eof ts rs cl sn cn :
    stream_step fuel (mkStream ts [] false true rs cl sn cn) (mkStream ts [] false false rs cl sn cn)
| caller_returns ts tc so co m rs sn cn :
    stream_step fuel
      (mkStream ts tc so co (m :: rs) Waiting sn cn) (mkStream ts tc so false rs (Returned m) sn cn).

Definition sent (msg : Msg) (sn cn : Logsync W) : stream :=
  mkStream [msg] [] true true [] Waiting sn cn.

(** A stream on which nothing can happen any more *)
Definition stuck (fuel : nat) (s : stream) : Prop := ∀ s', ¬ stream_step fuel s s'.
End handlers.
End p2p.
