(* ===== verification/StatsCache.v ===== *)
(** * The cache of statistics (src/stats/cache.go, src/stats/stats.go)

    A directory of files, one per key, and an index of their properties that
    is kept in memory and written back after every change. The files' total
    size is bounded by dropping entries. The directory, the file properties of
    the [didmod] package, JSON and the order in which Go walks a map are the
    environment's. *)
From S2P Require Export GoStrings.

Definition ErrCacheMiss : error := ErrSentinel "stats: cache miss".
Definition ErrNoCache : error := ErrSentinel "stats: no cache".
Definition ErrCacheCorrupt : error := ErrSentinel "stats: cache is corrupt".

(** [didmod.Props] of a file, and the disk [D] *)
Class Disk (D : Type) : Type := {
  Props : Type;
  Props_Size : Props → Z;
  Props_Mtime_Unix : Props → Z;
  Props_Equal : Props → Props → bool;
  zero_Props : Props;
  NewProps : D → string → outcome Props;
  os_WriteFile : string → string → stM D unit;
  os_ReadFile : D → string → outcome string;
  os_Remove : string → stM D unit;
  os_MkdirAll : string → stM D unit;
  os_RemoveAll : string → stM D unit;
}.

(** [*dataset.Stats] is passed through; [qfs.PathKind] tells the kind of a
    path. *)
Class StatsEncoding (St : Type) : Type := {
  PathKind : string → string;
  json_Marshal : St → outcome string;
  json_Decode : string → outcome St;
}.

Definition MaxInt64 : Z := (2 ^ 63 - 1)%Z.
Definition localCacheInfoFilename : string := "info.json".

Section cache.
Context {D St : Type} `{!Disk D, !StatsEncoding St}.

(** [type cacheInfo struct] *)
Record cacheInfo : Type := mkCacheInfo {
  StatFileProps : gmap string Props;
  TargetFileProps : gmap string Props;
}.
Definition newCacheInfo : cacheInfo := mkCacheInfo ∅ ∅.

(** [cacheInfo.Size] adds in 64 bits. *)
Definition total (m : gmap string Props) : Z := map_fold (λ _ p size, (size + Props_Size p)%Z) 0%Z m.
Definition cacheInfo_Size (ci : cacheInfo) : Z := wrap64 (total (StatFileProps ci)).

(** The index as JSON: decoding fills what it read before an error. Walking a
    map gives its entries in an order of its own. *)
Context (json_Marshal_info : cacheInfo → outcome string)
        (json_Decode_info : string → cacheInfo * option error)
        (range : gmap string Props → list (string * Props)).

(** [type localCache struct] *)
Record localCache : Type := mkLocalCache {
  root : string;
  maxSize : Z;
  info : cacheInfo;
  disk : D;
}.
Definition set_info (ci : cacheInfo) (c : localCache) : localCache :=
  mkLocalCache (root c) (maxSize c) ci (disk c).
Definition set_disk (d : D) (c : localCache) : localCache :=
  mkLocalCache (root c) (maxSize c) (info c) d.
Abbreviation M := (stM localCache).
Definition on_disk {A} (m : stM D A) : M A := st_zoom disk set_disk m.

(** [filepath.Join] of the cache's directory, a clean path *)
Definition in_root (c : localCache) (name : string) : string := root c +:+ "/" +:+ name.

(** [localCache.cacheKey], [localCache.componentFilepath] *)
Definition cacheKey (key : string) : string := base32_encode key.
Definition componentFilepath (c : localCache) (ck : string) : string := in_root c (ck +:+ ".json").

(** One walk over the index for an entry to drop: [lowestModTime] stays at its
    first value. *)
Definition lower (keep lowest : string) (entry : string * Props) : string :=
  if decide (Props_Mtime_Unix entry.2 < MaxInt64 ∧ entry.1 ≠ keep)%Z then entry.1 else lowest.
Definition lowestKey (keep : string) (entries : list (string * Props)) : string :=
  foldl (lower keep) "" entries.

(** The loop of [localCache.addAndPurgeExpired], with its breaks; [None] is a
    run short of fuel. *)
Fixpoint purge (fuel : nat) (keep : string) (c : localCache) : option localCache :=
  if decide (maxSize c < cacheInfo_Size (info c))%Z then
    match fuel with
    | O => None
    | S fuel =>
        let lowest := lowestKey keep (range (StatFileProps (info c))) in
        if decide (lowest = "") then Some c
        else
          match on_disk (os_Remove (componentFilepath c lowest)) c with
          | (Ok _, c) =>
              purge fuel keep
                (set_info (mkCacheInfo (delete lowest (StatFileProps (info c)))
                                       (delete lowest (TargetFileProps (info c)))) c)
          | (_, c) => Some c
          end
    end
  else Some c.

(** [localCache.addAndPurgeExpired]: one unit of fuel per entry *)
Definition addAndPurgeExpired (ck : string) (statProps targetProps : Props) : M unit := λ c,
  let ci := mkCacheInfo (<[ck := statProps]> (StatFileProps (info c)))
                        (<[ck := targetProps]> (TargetFileProps (info c))) in
  match purge (size (StatFileProps ci)) ck (set_info ci c) with
  | Some c' => (Ok tt, c')
  | None => (Panic, c)
  end.

(** [localCache.readCacheInfo] and [localCache.writeCacheInfo] *)
Definition is_not_exist (e : error) : bool := errors_Is e "file does not exist".

Definition readCacheInfo : M unit := λ c,
  match os_ReadFile (disk c) (in_root c localCacheInfoFilename) with
  | Error e => if is_not_exist e then (Ok tt, set_info newCacheInfo c) else (Error e, c)
  | Panic => (Panic, c)
  | Ok data =>
      match json_Decode_info data with
      | (ci, None) => (Ok tt, set_info ci c)
      | (ci, Some e) =>
          (Error (ErrWrap "%w decoding stats info: %s" [error_text e] ErrCacheCorrupt), set_info ci c)
      end
  end.

Definition writeCacheInfo : M unit :=
  c ← st_get;
  data ← st_lift (json_Marshal_info (info c));
  on_disk (os_WriteFile (in_root c localCacheInfoFilename) data).

(** [NewLocalCache], from the disk: a corrupt cache loses its directory. *)
Definition NewLocalCache (rootDir : string) (max : Z) : stM D localCache := λ d,
  match readCacheInfo (mkLocalCache rootDir max newCacheInfo d) with
  | (Panic, c) => (Panic, disk c)
  | (Error e, c) =>
      if errors_Is e "stats: cache is corrupt" then
        match os_RemoveAll rootDir (disk c) with
        | (Ok _, d') => (Ok (set_disk d' c), d')
        | (Error e', d') => (Error e', d')
        | (Panic, d') => (Panic, d')
        end
      else
        match os_MkdirAll rootDir (disk c) with
        | (Ok _, d') => (Error e, d')
        | (Error e', d') => (Error e', d')
        | (Panic, d') => (Panic, d')
        end
  | (Ok _, c) =>
      match os_MkdirAll rootDir (disk c) with
      | (Ok _, d') => (Ok (set_disk d' c), d')
      | (Error e', d') => (Error e', d')
      | (Panic, d') => (Panic, d')
      end
  end.

(** [localCache.PutStats] *)
Definition PutStats (key : string) (sa : St) : M unit :=
  c ← st_get;
  let targetProps :=
    if decide (PathKind key = "local") then
      match NewProps (disk c) key with Ok p => p | _ => zero_Props end
    else zero_Props in
  let ck := cacheKey key in
  data ← st_lift (json_Marshal sa);
  if decide (maxSize c < Z.of_nat (String.length data))%Z
  then st_fail (Errorf "stats component size exceeds maximum size of cache" [])
  else
    on_disk (os_WriteFile (componentFilepath c ck) data);;
    c ← st_get;
    statProps ← st_lift (NewProps (disk c) (componentFilepath c ck));
    addAndPurgeExpired ck statProps targetProps;;
    writeCacheInfo.

(** [localCache.GetStats] *)
Definition GetStats (key : string) (c : localCache) : outcome St :=
  let ck := cacheKey key in
  match TargetFileProps (info c) !! ck with
  | None => Error ErrCacheMiss
  | Some targetFileProps =>
      let stale :=
        if decide (PathKind key = "local") then
          match NewProps (disk c) key with
          | Ok fileProps => negb (Props_Equal targetFileProps fileProps)
          | _ => false
          end
        else false in
      if stale then Error ErrCacheMiss
      else data ← os_ReadFile (disk c) (componentFilepath c ck); json_Decode data
  end.

(** ** The service (stats.go)

    What [Service.Stats] reads of a dataset; computing statistics from a body
    is [dsstats]'s work. *)
Record StatsRequest : Type := mkStatsRequest {
  sr_Stats : option St;
  sr_Path : string;
  sr_BodyFile : option string;
}.

(** [type Cache interface]: a local cache, or the stand-in for none *)
Inductive Cache : Type :=
| nilCache
| LocalCache (c : localCache).

Definition Cache_GetStats (key : string) (c : Cache) : outcome St :=
  match c with nilCache => Error ErrCacheMiss | LocalCache c => GetStats key c end.
Definition Cache_PutStats (key : string) (sa : St) : stM Cache unit := λ c,
  match c with
  | nilCache => (Error ErrNoCache, nilCache)
  | LocalCache c => let '(r, c') := PutStats key sa c in (r, LocalCache c')
  end.

(** [Service.cacheKey]; [IsFSIPath] asks for the prefix of working
    directories. *)
Definition Service_cacheKey (ds : StatsRequest) : outcome string :=
  if strings_HasPrefix (sr_Path ds) "/fsi" then
    match sr_BodyFile ds with
    | None => Error (Errorf "A Body File is required to calculate stats" [])
    | Some full => Ok full
    end
  else Ok (sr_Path ds).

(** [Service.Stats]: an error of the cache is only logged. *)
Definition Service_Stats (calculate : StatsRequest → outcome St) (ds : StatsRequest) : stM Cache St :=
  match sr_Stats ds with
  | Some sa => mret sa
  | None =>
      key ← st_lift (Service_cacheKey ds);
      c ← st_get;
      match Cache_GetStats key c with
      | Ok sa => mret sa
      | Panic => st_lift Panic
      | Error _ =>
          match sr_BodyFile ds with
          | None => st_fail (Errorf "can't calculate stats. dataset has no body" [])
          | Some _ =>
              sa ← st_lift (calculate ds);
              λ c, match Cache_PutStats key sa c with
                   | (Panic, c') => (Panic, c')
                   | (_, c') => (Ok sa, c')
                   end
          end
      end
  end.
End cache.
