(* ===== verification/Preprocess.v ===== *)
(** * The SQL preprocessor (src/sql/preprocess/preprocess.go)

    A scanner that turns a query into tokens, and two passes over them: the
    first replaces dataset references by legal table names and gives every
    table an alias, the second puts the alias before column names. The
    processor's state is threaded; recursion takes fuel, and a run short of it
    is a [Panic], which the code never does. A query is the list of the
    bytes of its runes: the scanner treats those of a longer rune like letters,
    and letters change case in ASCII. The number syntax of [strconv.ParseFloat]
    is a parameter. *)
From S2P Require Export GoStrings.

(** ** Tokens *)
Inductive tokenType : Type :=
| IllegalTok | eofTok
| indentTok | newlineTok | textTok | commaTok | leftParenTok | rightParenTok | starTok
| whitespaceTok | quoteTok
| selectTok | asTok | byTok | fromTok | groupTok | havingTok | joinTok | limitTok | orderTok
| unionTok | whereTok.

#[export] Instance tokenType_eq_dec : EqDecision tokenType.
Proof. solve_decision. Defined.

(** [tokenType.String] *)
Definition tokenType_String (t : tokenType) : string :=
  match t with
  | commaTok => "comma" | textTok => "text" | whitespaceTok => "WS"
  | starTok => "*" | selectTok => "select" | asTok => "as" | byTok => "by" | fromTok => "from"
  | groupTok => "group" | havingTok => "having" | joinTok => "join" | limitTok => "limit"
  | orderTok => "order" | unionTok => "union" | whereTok => "where" | eofTok => "EOF"
  | _ => "unknown"
  end.

(** [type token struct]; positions are only read in logs *)
Record token : Type := mkToken { tok_Type : tokenType; tok_Text : string }.

Definition IsKeyword (t : token) : bool :=
  match tok_Type t with
  | selectTok | asTok | byTok | fromTok | groupTok | havingTok | joinTok | limitTok | orderTok
  | unionTok | whereTok => true
  | _ => false
  end.

Definition IsLiteral (t : token) : bool :=
  match tok_Type t with
  | indentTok | newlineTok | textTok | commaTok | leftParenTok | rightParenTok | starTok
  | whitespaceTok | quoteTok => true
  | _ => false
  end.

(** ** The processor *)
(** [type processor struct]: the text accumulated by a scan is the scan's *)
Record processor : Type := mkProcessor {
  r : list ascii;
  processed : string;
  mapping : gmap string string;
  autoAliased : nat;
  aliases : gset string;
  parseBuf : option token;
  scanBuf : option token;
  nesting : Z;
}.

Definition set_r x p := mkProcessor x (processed p) (mapping p) (autoAliased p) (aliases p)
  (parseBuf p) (scanBuf p) (nesting p).
Definition set_processed x p := mkProcessor (r p) x (mapping p) (autoAliased p) (aliases p)
  (parseBuf p) (scanBuf p) (nesting p).
Definition set_mapping x p := mkProcessor (r p) (processed p) x (autoAliased p) (aliases p)
  (parseBuf p) (scanBuf p) (nesting p).
Definition set_autoAliased x p := mkProcessor (r p) (processed p) (mapping p) x (aliases p)
  (parseBuf p) (scanBuf p) (nesting p).
Definition set_aliases x p := mkProcessor (r p) (processed p) (mapping p) (autoAliased p) x
  (parseBuf p) (scanBuf p) (nesting p).
Definition set_parseBuf x p := mkProcessor (r p) (processed p) (mapping p) (autoAliased p)
  (aliases p) x (scanBuf p) (nesting p).
Definition set_scanBuf x p := mkProcessor (r p) (processed p) (mapping p) (autoAliased p)
  (aliases p) (parseBuf p) x (nesting p).
Definition set_nesting x p := mkProcessor (r p) (processed p) (mapping p) (autoAliased p)
  (aliases p) (parseBuf p) (scanBuf p) x.

(** What [ReadRune] reads of a text and [WriteRune] writes again: a byte that
    belongs to no rune is read as U+FFFD, which takes three. *)
Definition rune_cont (c : ascii) : bool := in_range 128 191 c.
Definition rune2 (c d : ascii) : bool := in_range 194 223 c && rune_cont d.
Definition rune3 (c d e : ascii) : bool :=
  in_range 224 239 c && rune_cont d && rune_cont e &&
  (if in_range 224 224 c then in_range 160 191 d else if in_range 237 237 c then in_range 128 159 d else true).
Definition rune4 (c d e f : ascii) : bool :=
  in_range 240 244 c && rune_cont d && rune_cont e && rune_cont f &&
  (if in_range 240 240 c then in_range 144 191 d else if in_range 244 244 c then in_range 128 143 d else true).
Definition RuneError : list ascii := [byte 239; byte 191; byte 189].
Fixpoint runes (l : list ascii) : list ascii :=
  match l with
  | [] => []
  | c :: l1 =>
      if in_range 0 127 c then c :: runes l1
      else match l1 with
           | d :: l2 =>
               if rune2 c d then c :: d :: runes l2
               else match l2 with
                    | e :: l3 =>
                        if rune3 c d e then c :: d :: e :: runes l3
                        else match l3 with
                             | f :: l4 => if rune4 c d e f then c :: d :: e :: f :: runes l4 else RuneError ++ runes l1
                             | [] => RuneError ++ runes l1
                             end
                    | [] => RuneError ++ runes l1
                    end
           | [] => RuneError ++ runes l1
           end
  end.
Definition NewReader (text : string) : list ascii := runes (bytes text).

Definition newProcessor (query : string) : processor :=
  mkProcessor (NewReader query) "" ∅ 0 ∅ None None 0.

Abbreviation M := (stM processor).

(** [p.processed.WriteString] *)
Definition WriteString (s : string) : M unit := st_modify (λ p, set_processed (processed p +:+ s) p).

(** ** The scanner *)
(** [processor.newTextualTok] *)
Definition keywords : list tokenType :=
  [selectTok; asTok; byTok; fromTok; groupTok; havingTok; joinTok; unionTok; limitTok; orderTok; whereTok].
Definition newTextualTok (text : list ascii) : token :=
  let t := of_bytes (TrimSpace text) in
  match find_index_from (λ k, bool_decide (strings_ToLower t = tokenType_String k)) 0 keywords with
  | Some (_, k) => mkToken k t
  | None => mkToken textTok t
  end.

(** The token of a character that ends a text, [None] for one that is part of
    it. [read] returns the zero rune at the end of the input. *)
Definition tab : ascii := byte 9.
Definition newline : ascii := byte 10.
Definition carriage : ascii := byte 13.
Definition zero_rune : ascii := byte 0.
Definition single (c : ascii) : string := String c "".

Definition delimiter (c : ascii) : option token :=
  if Ascii.eqb c newline then Some (mkToken whitespaceTok (single newline))
  else if Ascii.eqb c "(" then Some (mkToken leftParenTok "(")
  else if Ascii.eqb c ")" then Some (mkToken rightParenTok ")")
  else if Ascii.eqb c "," then Some (mkToken commaTok ",")
  else if Ascii.eqb c " " then Some (mkToken whitespaceTok " ")
  else if Ascii.eqb c zero_rune then Some (mkToken eofTok "")
  else None.

(** The loop of [processor.scan]: the token, the one left in [scanBuf] and the
    input left; [text] is what the scan has read, reversed. *)
Fixpoint scan_loop (text : list ascii) (input : list ascii) : token * option token * list ascii :=
  let ended (t : token) (rest : list ascii) :=
    match text with
    | [] => (t, None, rest)
    | _ => (newTextualTok (rev text), Some t, rest)
    end in
  match input with
  | [] => ended (mkToken eofTok "") []
  | c :: rest =>
      if Ascii.eqb c carriage then scan_loop text rest
      else if Ascii.eqb c "*" then (mkToken starTok "*", None, rest)
      else if Ascii.eqb c tab then (mkToken whitespaceTok (single tab), None, rest)
      else match delimiter c with
           | Some t => ended t rest
           | None => scan_loop (c :: text) rest
           end
  end.

(** [processor.scan] and [processor.unscan] *)
Definition scan : M token := λ p,
  match parseBuf p with
  | Some t => (Ok t, set_parseBuf None p)
  | None =>
      match scanBuf p with
      | Some t => (Ok t, set_scanBuf None p)
      | None => let '(t, buf, rest) := scan_loop [] (r p) in (Ok t, set_r rest (set_scanBuf buf p))
      end
  end.
Definition unscan (t : token) : M unit := st_modify (set_parseBuf (Some t)).

(** ** Names *)
(** [strings.Replace] of one character, once and everywhere *)
Fixpoint replace_first (c : ascii) (by_ : list ascii) (s : list ascii) : list ascii :=
  match s with
  | [] => []
  | d :: s' => if Ascii.eqb d c then by_ ++ s' else d :: replace_first c by_ s'
  end.
Definition replace_all (c d : ascii) (s : list ascii) : list ascii :=
  map (λ x, if Ascii.eqb x c then d else x) s.

(** [toLegalName] *)
Definition toLegalName (refStr : string) : string :=
  of_bytes (replace_all "-" "_" (replace_all "/" "_" (replace_first "@" (bytes "_at_") (bytes refStr)))).

(** [processor.newTableName]; a unit of fuel per alias in use *)
Definition alias_name (n : nat) : string :=
  if decide (n = 1) then "ds" else "ds" +:+ strconv_Itoa (Z.of_nat n).
Fixpoint newTableName_loop (fuel : nat) : M string := λ p,
  match fuel with
  | O => (Panic, p)
  | S fuel =>
      let n := S (autoAliased p) in
      let p := set_autoAliased n p in
      if decide (alias_name n ∈ aliases p) then newTableName_loop fuel p
      else (Ok (alias_name n), set_aliases ({[ alias_name n ]} ∪ aliases p) p)
  end.
Definition newTableName : M string := λ p, newTableName_loop (S (size (aliases p))) p.

(** ** The first pass: tables *)
(** The loop of [processor.processTableRef] *)
Fixpoint table_ref_loop (fuel : nat) (alias : string) : M unit :=
  match fuel with
  | O => st_lift Panic
  | S fuel =>
      tok ← scan;
      match tok_Type tok with
      | whitespaceTok | asTok => WriteString (tok_Text tok);; table_ref_loop fuel alias
      | textTok =>
          p ← st_get;
          if decide (tok_Text tok ∈ aliases p)
          then st_fail (Errorf "duplicate reference alias '%s'" [tok_Text tok])
          else
            st_modify (λ p, set_aliases ({[ tok_Text tok ]} ∪ aliases p) p);;
            WriteString (tok_Text tok);;
            table_ref_loop fuel (tok_Text tok)
      | ty =>
          (if decide (alias = "")
           then alias ← newTableName; WriteString " ";; WriteString alias
           else mret tt);;
          if decide (ty = commaTok) then WriteString (tok_Text tok) else unscan tok
      end
  end.

(** [processor.processTableRef] *)
Definition processTableRef (fuel : nat) (text : string) : M unit :=
  (if decide (text ≠ "") then
     let name := toLegalName text in
     st_modify (λ p, set_mapping (<[name := text]> (mapping p)) p);;
     WriteString name
   else mret tt);;
  table_ref_loop fuel "".

(** [processor.processReferences] and [processor.processTableRefs], one round
    of their loops at a time; [n0] is the nesting they were called at.
    [hasReadName] is never set, so a comma is always an error. *)
Definition pass_over {A} (m : M A) : M unit := λ p,
  match m p with (Panic, p') => (Panic, p') | (_, p') => (Ok tt, p') end.

Fixpoint references_loop (fuel : nat) (n0 : Z) {struct fuel} : M unit :=
  match fuel with
  | O => st_lift Panic
  | S fuel =>
      tok ← scan;
      match tok_Type tok with
      | fromTok | joinTok =>
          WriteString (tok_Text tok);;
          p ← st_get; table_refs_loop fuel (nesting p);;
          references_loop fuel n0
      | leftParenTok =>
          WriteString (tok_Text tok);;
          st_modify (λ p, set_nesting (nesting p + 1) p);;
          p ← st_get; references_loop fuel (nesting p);;
          references_loop fuel n0
      | rightParenTok =>
          WriteString (tok_Text tok);;
          st_modify (λ p, set_nesting (nesting p - 1) p);;
          p ← st_get;
          if decide (nesting p = n0) then mret tt else references_loop fuel n0
      | eofTok => mret tt
      | _ => WriteString (tok_Text tok);; references_loop fuel n0
      end
  end
with table_refs_loop (fuel : nat) (n0 : Z) {struct fuel} : M unit :=
  match fuel with
  | O => st_lift Panic
  | S fuel =>
      tok ← scan;
      match tok_Type tok with
      | textTok => processTableRef fuel (tok_Text tok);; table_refs_loop fuel n0
      | ty =>
          (if decide (tok_Text tok ≠ "") then WriteString (tok_Text tok) else mret tt);;
          match ty with
          | commaTok => st_fail (Errorf "encountered '%s' before table name" [tok_Text tok])
          | leftParenTok =>
              st_modify (λ p, set_nesting (nesting p + 1) p);;
              p ← st_get; references_loop fuel (nesting p);;
              table_refs_loop fuel n0
          | rightParenTok =>
              st_modify (λ p, set_nesting (nesting p - 1) p);;
              p ← st_get;
              if decide (nesting p = n0) then mret tt
              else pass_over (processTableRef fuel "");; table_refs_loop fuel n0
          | whereTok | groupTok | havingTok | limitTok | orderTok | unionTok | eofTok => mret tt
          | _ => table_refs_loop fuel n0
          end
      end
  end.

Definition processReferences (fuel : nat) : M unit := p ← st_get; references_loop fuel (nesting p).

(** ** The second pass: columns *)
Section columns.
Context (ParseFloat_ok : string → bool).

Definition IsNumeric (t : token) : bool := ParseFloat_ok (tok_Text t).

(** [strings.Trim] of quotes, and [strings.Count] of dots *)
Definition is_quote (c : ascii) : bool := Ascii.eqb c "'" || Ascii.eqb c (byte 34).
Fixpoint drop_while {A} (f : A → bool) (l : list A) : list A :=
  match l with [] => [] | x :: l' => if f x then drop_while f l' else l end.
Definition trim_quotes (s : string) : string :=
  of_bytes (rev (drop_while is_quote (rev (drop_while is_quote (bytes s))))).
Definition count_dots (s : string) : nat := length (filter (λ c, c = "."%char) (bytes s)).

(** [processor.processColumnReference]; the one alias is the last the walk
    over the map gives *)
Definition processColumnReference (tok : token) : M unit :=
  if IsNumeric tok then WriteString (tok_Text tok)
  else
    match count_dots (tok_Text tok) with
    | 0 =>
        p ← st_get;
        match elements (aliases p) with
        | [alias] => WriteString (alias +:+ "." +:+ trim_quotes (tok_Text tok))
        | _ => st_fail (Errorf "ambiguous column: %q, in statement that references multiple datasets. use aliases to distinguish datasets" [tok_Text tok])
        end
    | 1 => WriteString (tok_Text tok)
    | _ => st_fail (Errorf "illegal column reference: %q" [tok_Text tok])
    end.

(** [processor.processSelectCols] and [processor.processSelects] *)
Fixpoint processSelectCols (fuel : nat) : M unit :=
  match fuel with
  | O => st_lift Panic
  | S fuel =>
      tok ← scan;
      if IsKeyword tok then unscan tok
      else match tok_Type tok with
           | textTok => processColumnReference tok;; processSelectCols fuel
           | eofTok => mret tt
           | _ => WriteString (tok_Text tok);; processSelectCols fuel
           end
  end.

Fixpoint processSelects (fuel : nat) : M unit :=
  match fuel with
  | O => st_lift Panic
  | S fuel =>
      tok ← scan;
      match tok_Type tok with
      | selectTok => WriteString (tok_Text tok);; processSelectCols fuel;; processSelects fuel
      | eofTok => mret tt
      | _ => WriteString (tok_Text tok);; processSelects fuel
      end
  end.

(** [processor.Process]: each pass has fuel for its input. *)
Definition input_fuel (p : processor) : nat := 2 * length (r p) + 3.

Definition Process : M unit :=
  p ← st_get; processReferences (input_fuel p);;
  st_modify (λ p, set_r (NewReader (processed p)) (set_processed "" p));;
  p ← st_get; processSelects (input_fuel p).

(** [Query] *)
Definition Query (query : string) : string * gmap string string * outcome unit :=
  let '(res, p) := Process (newProcessor query) in (processed p, mapping p, res).
End columns.

(** ** The package's own examples *)
Example reads_runes : runes [byte 195; byte 169; byte 255; byte 226; byte 130] =
  [byte 195; byte 169] ++ RuneError ++ RuneError ++ RuneError.
Proof. vm_compute. reflexivity. Qed.
Definition test_float (s : string) : bool := match strconv_Atoi s with Some _ => true | None => false end.
Definition query_text (q : string) : string := (Query test_float q).1.1.

Example query_1 :
  query_text "select * from b5/country_codes@/ipfs/QmFoo t1" =
    "select * from b5_country_codes_at__ipfs_QmFoo t1".
Proof. vm_compute. reflexivity. Qed.
Example query_2 : query_text "select foo from b5/country_codes" = "select ds.foo from b5_country_codes ds".
Proof. vm_compute. reflexivity. Qed.
Example query_3 :
  query_text "SELECT 1 FROM (SELECT 2 FROM (SELECT 3 FROM foo/dataset), peer/dataset b) AS c, b5/world_bank_population" =
    "SELECT 1 FROM (SELECT 2 FROM (SELECT 3 FROM foo_dataset ds) ds2, peer_dataset b) AS c, b5_world_bank_population ds3".
Proof. vm_compute. reflexivity. Qed.
Example query_4 : query_text "SELECT (SELECT 1 FROM foo/dataset t1) as t2" = "SELECT (SELECT 1 FROM foo_dataset t1) as t2".
Proof. vm_compute. reflexivity. Qed.
Example query_5 : query_text "select 'from' from b5/country_codes@/ipfs/QmFoo as t1" =
  "select t1.from from b5_country_codes_at__ipfs_QmFoo as t1".
Proof. vm_compute. reflexivity. Qed.
Example query_6 : (Query test_float "SELECT * FROM foo b,,").2 = Error (Errorf "encountered '%s' before table name" [","]).
Proof. vm_compute. reflexivity. Qed.
Example query_7 : (Query test_float "SELECT * FROM foo b, bar b").2 = Error (Errorf "duplicate reference alias '%s'" ["b"]).
Proof. vm_compute. reflexivity. Qed.
