(* ===== verification/Dscache.v ===== *)
(** * The dataset cache (src/dscache/dscache.go, mutator.go, builder.go)

    One entry per dataset, with the latest version and what is known of it, in
    a flatbuffer that is rebuilt for every change and written to a file. The
    cache listens to the events of the logbook and answers lookups by name.
    The bytes of a flatbuffer and the file are the environment's. *)
From stdpp Require Export sorting.
From S2P Require Export Bus Refstore.
From S2P Require Export ErrorCollector.

Definition ErrNoDscache : error := ErrSentinel "dscache: does not exist".
Definition ErrInvalidProfileID : error := ErrSentinel "invalid profileID".
Definition lengthOfProfileID : nat := 46.

(** ** The flatbuffer (def.fbs) *)
Record UserAssoc : Type := mkUserAssoc {
  ua_Username : string;
  ua_ProfileID : string;
}.
Record RefEntryInfo : Type := mkRefEntryInfo {
  re_InitID : string;
  re_ProfileID : string;
  re_TopIndex : Z;
  re_CursorIndex : Z;
  re_PrettyName : string;
  re_Published : bool;
  re_Foreign : bool;
  re_MetaTitle : string;
  re_ThemeList : string;
  re_BodySize : Z;
  re_BodyRows : Z;
  re_BodyFormat : string;
  re_NumErrors : Z;
  re_CommitTime : Z;
  re_NumVersions : Z;
  re_HeadRef : string;
  re_FsiPath : string;
}.
Record FbDscache : Type := mkFbDscache {
  fb_users : list UserAssoc;
  fb_refs : list RefEntryInfo;
}.

(** The flatbuffer library: the bytes of a finished table and their reader,
    what is read past the end of the references, and what an integer field
    holds when its default, zero, is added after another value. *)
Class DscacheBytes : Type := {
  fb_finish_Dscache : FbDscache → string;
  fb_root_Dscache : string → FbDscache;
  fb_Refs_beyond : FbDscache → nat → outcome RefEntryInfo;
  fb_add_default : Z → Z;
}.
Class DscacheBytesLaws (B : DscacheBytes) : Prop :=
  root_finish_Dscache c : fb_root_Dscache (fb_finish_Dscache c) = c.

(** [ioutil.WriteFile] *)
Class FileWriter (F : Type) : Type := WriteFile : string → string → stM F unit.

(** A conversion to [int32] *)
Definition int32 (z : Z) : Z := ((z + 2 ^ 31) mod 2 ^ 32 - 2 ^ 31)%Z.

(** [Time.Unix] and [time.Unix(s, 0)]; Go's zero time, which is 0 here, is in
    the year 1. *)
Definition zero_time_Unix : Z := -62135596800.
Definition Time_Unix (t : Z) : Z := if decide (t = 0)%Z then zero_time_Unix else (t / 1000000000)%Z.
Definition time_Unix (s : Z) : Z := if decide (s = zero_time_Unix) then 0%Z else (s * 1000000000)%Z.

(** ** Building a cache (builder.go, convert.go) *)

(** [type entryInfo struct] and [type userProfilePair struct] *)
Record entryInfo : Type := mkEntryInfo {
  ei_VersionInfo : VersionInfo;
  ei_TopIndex : Z;
  ei_CursorIndex : Z;
}.
Record userProfilePair : Type := mkPair { up_Username : string; up_ProfileID : string }.

(** The order [buildDscacheFlatbuffer] sorts by. [sort.Slice] leaves entries
    with the same key in any order; the model keeps them in the order they
    were in. *)
Definition userMap (users : list userProfilePair) : gmap string string :=
  foldl (λ m pair, <[up_ProfileID pair := up_Username pair]> m) ∅ users.
Definition entry_key (m : gmap string string) (e : entryInfo) : string :=
  default "" (m !! vi_ProfileID (ei_VersionInfo e)) +:+ "/" +:+ vi_Name (ei_VersionInfo e).
Definition entry_le (m : gmap string string) (e f : entryInfo) : Prop :=
  String.leb (entry_key m e) (entry_key m f) = true.
#[export] Instance entry_le_dec m : RelDecision (entry_le m).
Proof. intros e f. unfold entry_le. apply _. Defined.

(** The table of one entry. Four fields are never written. *)
Definition entry_table (ce : entryInfo) : RefEntryInfo :=
  let vi := ei_VersionInfo ce in
  mkRefEntryInfo (vi_InitID vi) (vi_ProfileID vi) (int32 (ei_TopIndex ce)) (int32 (ei_CursorIndex ce))
    (vi_Name vi) false false (vi_MetaTitle vi) (vi_ThemeList vi) (vi_BodySize vi) (int32 (vi_BodyRows vi)) ""
    (int32 (vi_NumErrors vi)) (Time_Unix (vi_CommitTime vi)) 0 (vi_Path vi) (vi_FSIPath vi).

(** [buildDscacheFlatbuffer]: the root of the cache it builds *)
Definition buildDscacheFlatbuffer (users : list userProfilePair) (infos : list entryInfo) : FbDscache :=
  mkFbDscache (map (λ up, mkUserAssoc (up_Username up) (up_ProfileID up)) users)
    (map entry_table (merge_sort (entry_le (userMap users)) infos)).

(** [type Builder struct] and its methods *)
Record Builder : Type := mkBuilder {
  bd_filename : string;
  bd_users : list userProfilePair;
  bd_infos : list entryInfo;
}.
Definition NewBuilder : Builder := mkBuilder "" [] [].
Definition SetFilename (filename : string) (b : Builder) : Builder := mkBuilder filename (bd_users b) (bd_infos b).
Definition AddUser (username profileID : string) (b : Builder) : Builder :=
  mkBuilder (bd_filename b) (bd_users b ++ [mkPair username profileID]) (bd_infos b).
Definition AddDsVersionInfoWithIndexes (ver : VersionInfo) (topIndex cursorIndex : Z) (b : Builder) : Builder :=
  mkBuilder (bd_filename b) (bd_users b) (bd_infos b ++ [mkEntryInfo ver topIndex cursorIndex]).
(** [Builder.Build]: the root and the file name of the cache *)
Definition Build (b : Builder) : FbDscache * string :=
  (buildDscacheFlatbuffer (bd_users b) (bd_infos b), bd_filename b).
Definition AddDsVersionInfo (ver : VersionInfo) (b : Builder) : Builder := AddDsVersionInfoWithIndexes ver 0 0 b.

(** [convertEntryToVersionInfo] *)
Definition convertEntryToVersionInfo (r : RefEntryInfo) : VersionInfo :=
  mkVersionInfo (re_InitID r) "" (re_ProfileID r) (re_PrettyName r) (re_HeadRef r) (re_Published r) (re_Foreign r)
    (re_MetaTitle r) (re_ThemeList r) (re_BodySize r) (re_BodyRows r) (re_BodyFormat r) (re_NumErrors r)
    (time_Unix (re_CommitTime r)) "" "" (re_NumVersions r) (re_FsiPath r) "" "" 0.

(** ** The cache *)
Section dscache.
Context `{DscacheBytes} {F : Type} `{!FileWriter F}.

(** [type Dscache struct], with the disk behind it *)
Record Dscache : Type := mkDscache {
  d_Filename : string;
  d_Root : option FbDscache;
  d_Buffer : string;
  d_CreateNewEnabled : bool;
  d_ProfileIDToUsername : option (gmap string string);
  d_DefaultUsername : string;
  d_disk : F;
}.
Abbreviation DM := (stM Dscache).
Definition set_root (root : option FbDscache) (buffer : string) (d : Dscache) : Dscache :=
  mkDscache (d_Filename d) root buffer (d_CreateNewEnabled d) (d_ProfileIDToUsername d) (d_DefaultUsername d) (d_disk d).
Definition set_usernames (m : gmap string string) (d : Dscache) : Dscache :=
  mkDscache (d_Filename d) (d_Root d) (d_Buffer d) (d_CreateNewEnabled d) (Some m) (d_DefaultUsername d) (d_disk d).
Definition set_disk (f : F) (d : Dscache) : Dscache :=
  mkDscache (d_Filename d) (d_Root d) (d_Buffer d) (d_CreateNewEnabled d) (d_ProfileIDToUsername d)
    (d_DefaultUsername d) f.

(** [NewDscache] on what the filesystem answers for the file; its subscription
    is [subscribe_cache]. *)
Definition NewDscache (file : outcome string) (username filename : string) (disk : F) : Dscache :=
  match file with
  | Ok buffer => mkDscache filename (Some (fb_root_Dscache buffer)) buffer false None username disk
  | _ => mkDscache filename None "" false None username disk
  end.

(** [Dscache.IsEmpty] of a cache that is not nil *)
Definition Dscache_IsEmpty (d : Dscache) : bool := match d_Root d with None => true | Some _ => false end.

(** [Dscache.save] *)
Definition save_cache : DM unit := λ d,
  if decide (d_Filename d = "") then (Ok tt, d)
  else st_zoom d_disk set_disk (WriteFile (d_Filename d) (d_Buffer d)) d.

(** [Dscache.Assign], on the root and the buffer of the other cache *)
Definition Assign (root : option FbDscache) (buffer : string) : DM unit := st_modify (set_root root buffer);; save_cache.

(** A root with its bytes, taken over and saved *)
Definition install (root : FbDscache) : DM unit := Assign (Some root) (fb_finish_Dscache root).

(** A call whose error is dropped, or only logged *)
Definition ignore_error (m : DM unit) : DM unit := λ d,
  match m d with (Error _, d') => (Ok tt, d') | r => r end.

(** ** Lookups *)

(** [Dscache.LookupByName]: a cache without a root panics. *)
Definition LookupByName (ref : Ref) (d : Dscache) : outcome VersionInfo :=
  root ← of_option Panic (d_Root d);
  let profileID :=
    match find_index_from (λ u, bool_decide (ref_Username ref = ua_Username u)) 0 (fb_users root) with
    | Some (_, u) => ua_ProfileID u
    | None => ref_ProfileID ref
    end in
  if decide (profileID = "") then Error (Errorf "unknown username %q" [ref_Username ref])
  else
    match find_index_from (λ r, bool_decide (re_ProfileID r = profileID ∧ re_PrettyName r = ref_Name ref)) 0
            (fb_refs root) with
    | Some (_, r) => Ok (convertEntryToVersionInfo r)
    | None => Error (Errorf "dataset ref not found %s/%s" [ref_Username ref; ref_Name ref])
    end.

(** [Dscache.ResolveRef] *)
#[export] Instance Dscache_ResolveRef : Resolver (option Dscache) := λ od ref,
  match od with
  | None => (Error ErrRefNotFound, ref)
  | Some d =>
      if Dscache_IsEmpty d then (Error ErrRefNotFound, ref)
      else
        match LookupByName ref d with
        | Panic => (Panic, ref)
        | Error _ => (Error ErrRefNotFound, ref)
        | Ok vi =>
            (Ok "", mkRef (vi_InitID vi) (ref_Username ref) (vi_ProfileID vi) (ref_Name ref)
                      (if decide (ref_Path ref = "") then vi_Path vi else ref_Path ref))
        end
  end.

(** [Dscache.ensureProToUserMap] *)
Definition user_table (root : FbDscache) : gmap string string :=
  foldl (λ m u, <[ua_ProfileID u := ua_Username u]> m) ∅ (fb_users root).
Definition ensureProToUserMap : DM unit := λ d,
  match d_ProfileIDToUsername d, d_Root d with
  | Some _, _ => (Ok tt, d)
  | None, Some root => (Ok tt, set_usernames (user_table root) d)
  | None, None => (Panic, d)
  end.

(** [Dscache.ListRefs] *)
Definition entry_ref `{ProfileIDs} (usernames : gmap string string) (r : RefEntryInfo) : DatasetRef :=
  mkDatasetRef (default "" (usernames !! re_ProfileID r)) (IDB58DecodeOrEmpty (re_ProfileID r)) (re_PrettyName r)
    (re_HeadRef r) (re_FsiPath r)
    (Some (mkDataset "" "" "" "" "" (re_TopIndex r) (Some (mkCommit 0 "" "" "")) (Some (mkMeta (re_MetaTitle r) None))
             (Some (mkStructure "" (re_BodySize r) (re_BodyRows r) (re_NumErrors r))))) false false.
Definition ListRefs `{ProfileIDs} : DM (list DatasetRef) :=
  d ← st_get;
  match d_Root d with
  | None => st_fail ErrNoDscache
  | Some root =>
      ensureProToUserMap;;
      d ← st_get;
      mret (map (entry_ref (default ∅ (d_ProfileIDToUsername d))) (fb_refs root))
  end.

(** ** Copying with a change (mutator.go) *)

(** [Dscache.copyUserAssoc], [copyUserAssociationList] and [finishBuilding] *)
Definition copyUserAssoc (ua : UserAssoc) : UserAssoc := mkUserAssoc (ua_Username ua) (ua_ProfileID ua).
Definition copyUserAssociationList (root : FbDscache) : list UserAssoc := map copyUserAssoc (fb_users root).
Definition finishBuilding (users : list UserAssoc) (refs : list RefEntryInfo) : FbDscache := mkFbDscache users refs.

(** [Dscache.copyReference]: four fields are not copied. *)
Definition copyReference (r : RefEntryInfo) : RefEntryInfo :=
  mkRefEntryInfo (re_InitID r) (re_ProfileID r) (int32 (re_TopIndex r)) (int32 (re_CursorIndex r)) (re_PrettyName r)
    false false (re_MetaTitle r) (re_ThemeList r) (re_BodySize r) (int32 (re_BodyRows r)) "" (int32 (re_NumErrors r))
    (re_CommitTime r) 0 (re_HeadRef r) (re_FsiPath r).

(** [Dscache.copyReferenceListWithReplacement]: an entry that matches is
    replaced by what [replaceRefFunc] makes of its copy, or left out when
    there is no such function. *)
Definition copyReferenceListWithReplacement (findMatchFunc : RefEntryInfo → bool)
    (replaceRefFunc : option (RefEntryInfo → RefEntryInfo)) (refs : list RefEntryInfo) : list RefEntryInfo :=
  flat_map (λ r,
    if findMatchFunc r then match replaceRefFunc with Some f => [f (copyReference r)] | None => [] end
    else [copyReference r]) refs.

(** The body the three updates share *)
Definition update_refs (findMatchFunc : RefEntryInfo → bool) (replaceRefFunc : option (RefEntryInfo → RefEntryInfo))
    : DM unit :=
  d ← st_get;
  match d_Root d with
  | None => st_fail ErrNoDscache
  | Some root =>
      install (finishBuilding (copyUserAssociationList root)
                 (copyReferenceListWithReplacement findMatchFunc replaceRefFunc (fb_refs root)))
  end.

(** An integer added to a field that holds one already *)
Definition readd (new old : Z) : Z := if decide (new = 0)%Z then fb_add_default old else new.

(** The replacement of [Dscache.updateChangeCursor] *)
Definition change_entry (act : DsChange) (r : RefEntryInfo) : RefEntryInfo :=
  let top := readd (int32 (dc_TopIndex act)) in
  match dc_Info act with
  | Some info =>
      mkRefEntryInfo (re_InitID r) (re_ProfileID r) (top (re_TopIndex r)) (top (re_CursorIndex r)) (re_PrettyName r)
        (re_Published r) (re_Foreign r) (vi_MetaTitle info) (re_ThemeList r)
        (readd (vi_BodySize info) (re_BodySize r)) (readd (int32 (vi_BodyRows info)) (re_BodyRows r)) (re_BodyFormat r)
        (readd (int32 (vi_NumErrors info)) (re_NumErrors r))
        (readd (Time_Unix (vi_CommitTime info)) (re_CommitTime r)) (re_NumVersions r) (dc_HeadRef act) (re_FsiPath r)
  | None =>
      mkRefEntryInfo (re_InitID r) (re_ProfileID r) (top (re_TopIndex r)) (top (re_CursorIndex r)) (re_PrettyName r)
        (re_Published r) (re_Foreign r) (re_MetaTitle r) (re_ThemeList r) (re_BodySize r) (re_BodyRows r)
        (re_BodyFormat r) (re_NumErrors r) (re_CommitTime r) (re_NumVersions r) (dc_HeadRef act) (re_FsiPath r)
  end.
Definition set_FsiPath (dir : string) (r : RefEntryInfo) : RefEntryInfo :=
  mkRefEntryInfo (re_InitID r) (re_ProfileID r) (re_TopIndex r) (re_CursorIndex r) (re_PrettyName r) (re_Published r)
    (re_Foreign r) (re_MetaTitle r) (re_ThemeList r) (re_BodySize r) (re_BodyRows r) (re_BodyFormat r) (re_NumErrors r)
    (re_CommitTime r) (re_NumVersions r) (re_HeadRef r) dir.

(** [Dscache.updateChangeCursor], [updateDeleteDataset] and [updateCreateLink] *)
Definition updateChangeCursor (act : DsChange) : DM unit :=
  update_refs (λ r, bool_decide (re_InitID r = dc_InitID act)) (Some (change_entry act)).
Definition updateDeleteDataset (act : DsChange) : DM unit :=
  update_refs (λ r, bool_decide (re_InitID r = dc_InitID act)) None.
Definition updateCreateLink (act : DsChange) : DM unit := λ d,
  update_refs (λ r,
    if decide (dc_InitID act ≠ "") then bool_decide (re_InitID r = dc_InitID act)
    else bool_decide (d_DefaultUsername d = dc_Username act) && bool_decide (re_PrettyName r = dc_PrettyName act))
    (Some (set_FsiPath (dc_Dir act))) d.

(** ** Events *)

Definition validateProfileID (profileID : string) : bool :=
  bool_decide (String.length profileID = lengthOfProfileID).
Definition init_info (act : DsChange) : VersionInfo :=
  mkVersionInfo (dc_InitID act) "" (dc_ProfileID act) (dc_PrettyName act) "" false false "" "" 0 0 "" 0 0 "" "" 0 "" "" "" 0.

(** The loop that copies the entries in [updateInitDataset]. Its bound is the
    number of users, not that of entries. *)
Fixpoint copy_infos (root : FbDscache) (i n : nat) (b : Builder) : outcome Builder :=
  match n with
  | 0 => Ok b
  | S n =>
      r ← match fb_refs root !! i with Some r => Ok r | None => fb_Refs_beyond root i end;
      copy_infos root (S i) n
        (AddDsVersionInfoWithIndexes (convertEntryToVersionInfo r) (re_TopIndex r) (re_CursorIndex r) b)
  end.

(** [Dscache.updateInitDataset] *)
Definition updateInitDataset (act : DsChange) : DM unit :=
  d ← st_get;
  match d_Root d with
  | None =>
      if negb (d_CreateNewEnabled d) then mret tt
      else if negb (validateProfileID (dc_ProfileID act)) then st_fail ErrInvalidProfileID
      else
        let builder := AddDsVersionInfo (init_info act) (AddUser (dc_Username act) (dc_ProfileID act) NewBuilder) in
        ignore_error (install (Build builder).1)
  | Some root =>
      let builder := foldl (λ b up, AddUser (ua_Username up) (ua_ProfileID up) b) NewBuilder (fb_users root) in
      builder ← st_lift (copy_infos root 0 (length (fb_users root)) builder);
      ignore_error (install (Build (AddDsVersionInfo (init_info act) builder)).1)
  end.

(** [Dscache.handler]; [cast] is the assertion that a payload is a
    [DsChange]. *)
Definition cache_handler {P} (cast : P → option DsChange) (e : Event P) : DM unit :=
  match cast (ev_Payload e) with
  | None => mret tt
  | Some act =>
      if decide (ev_Type e = ETDatasetNameInit) then ignore_error (updateInitDataset act)
      else if decide (ev_Type e = ETDatasetCommitChange) then ignore_error (updateChangeCursor act)
      else if decide (ev_Type e = ETDatasetDeleteAll) then ignore_error (updateDeleteDataset act)
      else if decide (ev_Type e = ETDatasetRename) then mret tt
      else if decide (ev_Type e = ETDatasetCreateLink) then ignore_error (updateCreateLink act)
      else mret tt
  end.

(** The subscription [NewDscache] makes, on a bus that carries [DsChange] *)
Definition subscribe_cache (b : bus DsChange Dscache) : bus DsChange Dscache :=
  SubscribeTypes (cache_handler Some)
    [ETDatasetNameInit; ETDatasetCommitChange; ETDatasetDeleteAll; ETDatasetRename; ETDatasetCreateLink] b.
End dscache.
#[global] Arguments Dscache : clear implicits.

(** * Building the cache from the logbook (src/dscache/convert.go, fill_info.go *)
(** [convertHistoryToIndexAndRef]: every operation that is not a removal
    counts as a version. *)
Fixpoint history_refs (ops : list Op) (refs : list string) : outcome (list string) :=
  match ops with
  | [] => Ok refs
  | op :: ops =>
      if decide (op_Type op = OpTypeRemove) then
        refs ← slice_to refs (Z.of_nat (length refs) - op_Size op);
        history_refs ops refs
      else history_refs ops (refs ++ [op_Ref op])
  end.
Definition convertHistoryToIndexAndRef (historyLog : Log) : outcome (Z * string) :=
  refs ← history_refs (lg_Ops historyLog) [];
  let lastIndex := (Z.of_nat (length refs) - 1)%Z in
  lastRef ← index refs lastIndex;
  Ok (lastIndex, lastRef).

(** [convertDatasetHistoryToDsInfo]; [None] where it returns nil *)
Fixpoint dataset_name (ops : list Op) (prettyName : string) : option string :=
  match ops with
  | [] => Some prettyName
  | op :: ops =>
      if decide (op_Model op ≠ DatasetModel) then None
      else if decide (op_Type op = OpTypeRemove) then None
      else dataset_name ops (op_Name op)
  end.
Definition history_info (initID name path : string) : VersionInfo :=
  mkVersionInfo initID "" "" name path false false "" "" 0 0 "" 0 0 "" "" 0 "" "" "" 0.
Definition convertDatasetHistoryToDsInfo `{OpDigest} (dsLog : Log) : outcome (option entryInfo) :=
  match dataset_name (lg_Ops dsLog) "" with
  | None => Ok None
  | Some prettyName =>
      match lg_Logs dsLog with
      | [historyLog] =>
          '(topIndex, headRef) ← convertHistoryToIndexAndRef historyLog;
          Ok (Some (mkEntryInfo (history_info (ID dsLog) prettyName headRef) topIndex topIndex))
      | _ => Ok None
      end
  end.

(** [convertLogbookUserToDsInfoList] *)
Definition with_info (f : VersionInfo → VersionInfo) (e : entryInfo) : entryInfo :=
  mkEntryInfo (f (ei_VersionInfo e)) (ei_TopIndex e) (ei_CursorIndex e).
Definition set_vi_ProfileID (id : string) (v : VersionInfo) : VersionInfo :=
  mkVersionInfo (vi_InitID v) (vi_Username v) id (vi_Name v) (vi_Path v) (vi_Published v) (vi_Foreign v)
    (vi_MetaTitle v) (vi_ThemeList v) (vi_BodySize v) (vi_BodyRows v) (vi_BodyFormat v) (vi_NumErrors v)
    (vi_CommitTime v) (vi_CommitTitle v) (vi_CommitMessage v) (vi_NumVersions v) (vi_FSIPath v) (vi_RunID v)
    (vi_RunStatus v) (vi_RunDuration v).
Definition set_vi_FSIPath (path : string) (v : VersionInfo) : VersionInfo :=
  mkVersionInfo (vi_InitID v) (vi_Username v) (vi_ProfileID v) (vi_Name v) (vi_Path v) (vi_Published v) (vi_Foreign v)
    (vi_MetaTitle v) (vi_ThemeList v) (vi_BodySize v) (vi_BodyRows v) (vi_BodyFormat v) (vi_NumErrors v)
    (vi_CommitTime v) (vi_CommitTitle v) (vi_CommitMessage v) (vi_NumVersions v) path (vi_RunID v)
    (vi_RunStatus v) (vi_RunDuration v).
Fixpoint convertLogbookUserToDsInfoList `{OpDigest} (profileID : string) (dsLogs : list Log) : outcome (list entryInfo) :=
  match dsLogs with
  | [] => Ok []
  | dsLog :: dsLogs =>
      info ← convertDatasetHistoryToDsInfo dsLog;
      infoList ← convertLogbookUserToDsInfoList profileID dsLogs;
      Ok (option_list (with_info (set_vi_ProfileID profileID) <$> info) ++ infoList)
  end.

Section convert.
Context `{OpDigest, ProfileIDs}.

(** [findMatchingInfo]: the position of the entry *)
Definition findMatchingInfo (ref : DatasetRef) (infos : list entryInfo) : option nat :=
  fst <$> find_index_from (λ info,
    bool_decide (ID_String (dr_ProfileID ref) = vi_ProfileID (ei_VersionInfo info) ∧
                 dr_Name ref = vi_Name (ei_VersionInfo info))) 0 infos.

(** The two loops of [convertLogbookAndRefs] *)
Fixpoint users_infos (userLogs : list Log) : outcome (list entryInfo) :=
  match userLogs with
  | [] => Ok []
  | userLog :: userLogs =>
      infoList ← match lg_Ops userLog with
                 | [] => Ok []
                 | op :: _ => convertLogbookUserToDsInfoList (op_AuthorID op) (lg_Logs userLog)
                 end;
      rest ← users_infos userLogs;
      Ok (infoList ++ rest)
  end.
Definition missing_info (ref : DatasetRef) : entryInfo :=
  mkEntryInfo (mkVersionInfo "" "" (ID_String (dr_ProfileID ref)) (dr_Name ref) (dr_Path ref) false false "" "" 0 0 ""
                 0 0 "" "" 0 (dr_FSIPath ref) "" "" 0) 0 0.
Fixpoint merge_refs (dsrefs : list DatasetRef) (infos missing : list entryInfo) : list entryInfo :=
  match dsrefs with
  | [] => infos ++ missing
  | ref :: dsrefs =>
      match findMatchingInfo ref infos with
      | Some i => merge_refs dsrefs (alter (with_info (set_vi_FSIPath (dr_FSIPath ref))) i infos) missing
      | None => merge_refs dsrefs infos (missing ++ [missing_info ref])
      end
  end.
(** [convertLogbookAndRefs], on the logs the book lists *)
Definition convertLogbookAndRefs (userLogs : outcome (list Log)) (dsrefs : list DatasetRef) : outcome (list entryInfo) :=
  logs ← userLogs;
  infos ← users_infos logs;
  Ok (merge_refs dsrefs infos []).

(** [fillInfoForDatasets], with [dsfs.LoadDataset] as an argument *)
Definition fill_info (ds : Dataset) (v : VersionInfo) : VersionInfo :=
  let md f d := from_option f d (ds_Meta ds) in
  let st {A} (f : Structure → A) d := from_option f d (ds_Structure ds) in
  let cm {A} (f : Commit → A) d := from_option f d (ds_Commit ds) in
  mkVersionInfo (vi_InitID v) (vi_Username v) (vi_ProfileID v) (vi_Name v) (vi_Path v) (vi_Published v) (vi_Foreign v)
    (md md_Title (vi_MetaTitle v)) (md (λ m, strings_Join (default [] (md_Theme m)) ",") (vi_ThemeList v))
    (st st_Length (vi_BodySize v)) (st st_Entries (vi_BodyRows v)) (st st_Format (vi_BodyFormat v))
    (st st_ErrCount (vi_NumErrors v)) (cm cm_Timestamp (vi_CommitTime v)) (cm cm_Title (vi_CommitTitle v))
    (cm cm_Message (vi_CommitMessage v)) (vi_NumVersions v) (vi_FSIPath v) (cm cm_RunID (vi_RunID v))
    (vi_RunStatus v) (vi_RunDuration v).
Fixpoint fill_loop (LoadDataset : string → outcome Dataset) (infos : list entryInfo) (c : ErrorCollector)
    : outcome (list entryInfo * ErrorCollector) :=
  match infos with
  | [] => Ok ([], c)
  | info :: infos =>
      let v := ei_VersionInfo info in
      '(info, c) ←
        (if decide (vi_Path v = "") then Ok (info, c)
         else match LoadDataset (vi_Path v) with
              | Ok ds => Ok (with_info (fill_info ds) info, c)
              | Error e => Ok (info, Add (Errorf "for initID %q: %s" [vi_InitID v; error_text e]) c)
              | Panic => Panic
              end);
      '(rest, c) ← fill_loop LoadDataset infos c;
      Ok (info :: rest, c)
  end.
Definition fillInfoForDatasets (LoadDataset : string → outcome Dataset) (infos : list entryInfo)
    : outcome (list entryInfo * option error) :=
  '(infos, c) ← fill_loop LoadDataset infos NewErrorCollector;
  Ok (infos, AsSingleError c).

(** [BuildDscacheFromLogbookAndProfilesAndDsref]: the root of the cache, from
    what the profile store and the book list. An error of filling in is only
    logged. *)
Definition BuildDscacheFromLogbookAndProfilesAndDsref `{MapWalk} (refs : list DatasetRef)
    (profiles : outcome (gmap string string)) (userLogs : outcome (list Log)) (LoadDataset : string → outcome Dataset)
    : outcome FbDscache :=
  profileList ← profiles;
  let userProfileList := map (λ p, mkPair p.2 (ID_String p.1)) (walk profileList) in
  entryInfoList ← convertLogbookAndRefs userLogs refs;
  filled ← fillInfoForDatasets LoadDataset entryInfoList;
  Ok (buildDscacheFlatbuffer userProfileList filled.1).
End convert.
