(* ===== verification/Fill.v ===== *)
(** * Filling structures (src/base/fill/struct.go)

    Deserialized data put into the fields of Go structures by reflection. Data
    are the values a JSON or YAML decoder makes; a structure is described by
    its type, as reflection sees it, and by the places of its fields. A Go map
    is the list of its entries in the order in which Go walks it, its keys are
    strings, and a map in the data is never nil. *)
From Stdlib Require SpecFloat.
From S2P Require Export ErrorCollector.

(** ** Floats: IEEE binary64 *)
Abbreviation float64 := SpecFloat.spec_float.
Definition float64_of_int (z : Z) : float64 := SpecFloat.binary_normalize 53 1024 z 0 false.
Definition float64_trunc (f : float64) : option Z :=
  match f with
  | SpecFloat.S754_zero _ => Some 0%Z
  | SpecFloat.S754_finite s m e => let z := Z.shiftl (Zpos m) e in Some (if s then (- z)%Z else z)
  | _ => None
  end.

(** Whether a pointer or an entry is there *)
Definition is_there {A} (o : option A) : bool := match o with Some _ => true | None => false end.

(** ** Data, as decoders make them *)
Inductive data : Type :=
| VNil
| VBool (b : bool)
| VInt (z : Z)
| VInt64 (z : Z)
| VUint (z : Z)
| VUint64 (z : Z)
| VFloat (f : float64)
| VString (s : string)
| VBytes (s : string)
| VMap (m : list (string * data))
| VIMap (m : list (data * data))
| VSlice (l : list data).

(** [fmt]'s texts of a value, the parser of times, and what converting a float
    out of the range of an integer gives, which Go leaves open *)
Class FillEnv : Type := {
  fmt_s : data → string;
  fmt_v : data → string;
  fmt_sharp_v : data → string;
  time_Parse_RFC3339 : string → option Z;
  float_out_of_int64 : float64 → Z;
  float_out_of_uint64 : float64 → Z;
}.

(** ** Types and places *)
Record field_info : Type := mkField {
  f_Name : string;
  f_json : string;
  f_exported : bool;
}.
Inductive gtype : Type :=
| TBool | TInt | TInt64 | TUint64 | TFloat64 | TString | TByte | TInterface | TTime
| TStruct (name : string) (setter : bool) (fields : list (field_info * gtype))
| TMap (elem : gtype)
| TSlice (elem : gtype)
| TArray (size : nat) (elem : gtype)
| TPtr (elem : gtype)
| TOther (kind : string).

(** What is at a place; a structure keeps the calls made of [SetArbitrary]. *)
Inductive place : Type :=
| PBool (b : bool) | PInt (z : Z) | PInt64 (z : Z) | PUint64 (z : Z) | PFloat64 (f : float64)
| PString (s : string) | PByte (z : Z) | PInterface (v : data) | PTime (t : Z)
| PStruct (fields : list place) (arbitrary : list (string * data))
| PStrMap (m : option (list (string * string)))
| PMap (m : option (list (string * data)))
| PMapOf (m : option (list (string * place)))
| PBytes (s : option string)
| PSlice (l : option (list place))
| PArray (l : list place)
| PPtr (p : option place)
| POther.

(** [reflect.New(t).Elem()] *)
Fixpoint zero_place (t : gtype) : place :=
  match t with
  | TBool => PBool false
  | TInt => PInt 0
  | TInt64 => PInt64 0
  | TUint64 => PUint64 0
  | TFloat64 => PFloat64 (SpecFloat.S754_zero false)
  | TString => PString ""
  | TByte => PByte 0
  | TInterface => PInterface VNil
  | TTime => PTime 0
  | TStruct _ _ fields => PStruct (map (λ f, zero_place f.2) fields) []
  | TMap TString => PStrMap None
  | TMap TInterface => PMap None
  | TMap _ => PMapOf None
  | TSlice TByte => PBytes None
  | TSlice _ => PSlice None
  | TArray n elem => PArray (replicate n (zero_place elem))
  | TPtr _ => PPtr None
  | TOther _ => POther
  end.

(** [reflect.TypeOf(val).Name()]: a nil value has no type, and maps and slices
    no name. *)
Definition type_name (v : data) : outcome string :=
  match v with
  | VNil => Panic
  | VBool _ => Ok "bool"
  | VInt _ => Ok "int"
  | VInt64 _ => Ok "int64"
  | VUint _ => Ok "uint"
  | VUint64 _ => Ok "uint64"
  | VFloat _ => Ok "float64"
  | VString _ => Ok "string"
  | _ => Ok ""
  end.

Section fill.
Context `{FillEnv}.
Abbreviation CM := (stM ErrorCollector).

Definition float64_to_int64 (f : float64) : Z :=
  match float64_trunc f with
  | Some z => if decide (int64_min ≤ z ≤ int64_max)%Z then z else float_out_of_int64 f
  | None => float_out_of_int64 f
  end.
Definition float64_to_uint64 (f : float64) : Z :=
  match float64_trunc f with
  | Some z => if decide (0 ≤ z < 2 ^ 64)%Z then z else float_out_of_uint64 f
  | None => float_out_of_uint64 f
  end.

(** [FieldError], made with the name of the type of the value *)
Definition FieldError (want : string) (val : data) : outcome error :=
  got ← type_name val; Ok (Errorf "need %s, got %s: %#v" [want; got; fmt_sharp_v val]).

(** [collector.Add] *)
Definition add_err (e : error) : CM unit := st_modify (Add e).

(** A part of the walk between [PushField] and [PopField] *)
Definition in_field {A} (fieldName : string) (m : CM A) : CM A :=
  st_modify (PushField fieldName);;
  a ← m;
  c ← st_get; c ← st_lift (PopField c); st_modify (λ _, c);;
  mret a.

(** [ensureMapsHaveStringKeys]: maps under the map and in slices under it. Of
    two keys with the same text the later entry stays. *)
Definition assoc_insert {A} (m : list (string * A)) (k : string) (v : A) : list (string * A) :=
  if decide (k ∈ m.*1) then map (λ kv, if decide (kv.1 = k) then (k, v) else kv) m else m ++ [(k, v)].
Definition assoc_build {A} (l : list (string * A)) : list (string * A) :=
  foldl (λ m kv, assoc_insert m kv.1 kv.2) [] l.
Fixpoint ensureMapsHaveStringKeys (v : data) : data :=
  match v with
  | VIMap m =>
      VMap (assoc_build (map (λ kv,
        (fmt_s kv.1,
         match kv.2 with
         | VIMap _ => ensureMapsHaveStringKeys kv.2
         | VSlice l => VSlice (map (λ x, match x with VIMap _ => ensureMapsHaveStringKeys x | _ => x end) l)
         | x => x
         end)) m))
  | _ => v
  end.

(** [toStringMap] *)
Definition toStringMap (v : data) : option (list (string * data)) :=
  match v with
  | VMap m => Some m
  | VIMap _ => match ensureMapsHaveStringKeys v with VMap m => Some m | _ => None end
  | _ => None
  end.

(** Setting a place: one reached through an unexported field panics. *)
Definition set (ro : bool) (p : place) : CM place := if ro then st_lift Panic else mret p.

(** [putValueToUnit]: the error, if any, and the place *)
Definition putValueToUnit (t : gtype) (ro : bool) (val : data) (old : place) : CM place :=
  let wrong want := e ← st_lift (FieldError want val); add_err e;; mret old in
  match t, val with
  | TInt, VInt num => set ro (PInt num)
  | TInt, VFloat numFloat => set ro (PInt (float64_to_int64 numFloat))
  | TInt, _ => wrong "int"
  | TInt64, VInt num => set ro (PInt64 num)
  | TInt64, VInt64 num64 => set ro (PInt64 num64)
  | TInt64, VFloat f => set ro (PInt64 (float64_to_int64 f))
  | TInt64, _ => wrong "int64"
  | TUint64, VUint num => set ro (PUint64 num)
  | TUint64, VUint64 num64 => set ro (PUint64 num64)
  | TUint64, VFloat f => set ro (PUint64 (float64_to_uint64 f))
  | TUint64, _ => wrong "uint64"
  | TFloat64, VInt num => set ro (PFloat64 (float64_of_int num))
  | TFloat64, VFloat f => set ro (PFloat64 f)
  | TFloat64, _ => wrong "float64"
  | TString, VString text => set ro (PString text)
  | TString, _ => wrong "string"
  | TBool, VBool b => set ro (PBool b)
  | TBool, _ => wrong "bool"
  | TInterface, VNil => st_lift Panic
  | TInterface, VIMap _ => set ro (PInterface (ensureMapsHaveStringKeys val))
  | TInterface, _ => set ro (PInterface val)
  | TByte, _ => add_err (Errorf "unknown kind %s" ["uint8"]);; mret old
  | TOther kind, _ => add_err (Errorf "unknown kind %s" [kind]);; mret old
  | _, _ => mret old
  end.

(** ** Structures *)

(** The name a field is looked up by: its own, or the one of its json tag *)
Definition lower_name (f : field_info) : string :=
  if decide (f_json f = "") then strings_ToLower (f_Name f)
  else strings_ToLower (match strings_Split (f_json f) "," with n :: _ => n | [] => "" end).

(** [caseMap]: from lowercase keys to keys; a missing one reads as the empty
    string. *)
Definition caseMap (realKeys : list string) : gmap string string :=
  foldl (λ m k, <[strings_ToLower k := k]> m) ∅ realKeys.
Definition field_value (m : list (string * data)) (f : field_info) : option (string * data) :=
  let key := default "" (caseMap m.*1 !! lower_name f) in
  snd <$> find_index_from (λ kv, bool_decide (kv.1 = key)) 0 m.

(** The loop over the fields: the places they are left with, and the keys that
    were used *)
Section loops.
Context (put : gtype → bool → data → place → CM place).
Fixpoint fields_loop (m : list (string * data)) (ro : bool) (fields : list (field_info * gtype)) (olds : list place)
    : CM (list place * list string) :=
  match fields, olds with
  | f :: fields, old :: olds =>
      one ← match field_value m f.1 with
            | None => mret (old, [])
            | Some (key, VNil) => mret (old, [key])
            | Some (key, val) =>
                new ← in_field (f_Name f.1) (put f.2 (ro || negb (f_exported f.1)) val old);
                mret (new, [key])
            end;
      rest ← fields_loop m ro fields olds;
      mret (one.1 :: rest.1, one.2 ++ rest.2)
  | _, _ => mret ([], [])
  end.

(** The loop over the keys that were not used *)
Fixpoint unknown_loop (name : string) (setter : bool) (used : list string) (m : list (string * data))
    : CM (list (string * data)) :=
  match m with
  | [] => mret []
  | (k, v) :: m =>
      if decide (k ∈ used) then unknown_loop name setter used m
      else if setter then rest ← unknown_loop name setter used m; mret ((k, v) :: rest)
      else add_err (Errorf ("at " +:+ quoted "%s" +:+ ": not found in struct %s") [k; name]);;
           unknown_loop name setter used m
  end.

(** [putFieldsToTargetStruct]; looking for a setter in a structure reached
    through an unexported field panics. *)
Definition put_struct (name : string) (setter : bool) (fields : list (field_info * gtype)) (ro : bool)
    (m : list (string * data)) (old : place) : CM place :=
  match old with
  | PStruct olds arbitrary =>
      r ← fields_loop m ro fields olds;
      if ro then st_lift Panic
      else
        extra ← unknown_loop name setter r.2 m;
        mret (PStruct r.1 (arbitrary ++ extra))
  | _ => mret old
  end.

(** The loops over the elements of slices and arrays *)
Fixpoint elems_loop (push : bool) (elem : gtype) (i : nat) (l : list data) : CM (list place) :=
  match l with
  | [] => mret []
  | v :: l =>
      p ← (let fill := put elem false v (zero_place elem) in
           if push then in_field (strconv_Itoa (Z.of_nat i)) fill else fill);
      rest ← elems_loop push elem (S i) l;
      mret (p :: rest)
  end.
End loops.

(** A map put into a map place; one of other elements cannot be set. *)
Definition put_map (elem : gtype) (ro : bool) (strings : list (string * string)) (m : list (string * data)) (old : place)
    : CM place :=
  match elem with
  | TString => set ro (PStrMap (Some strings))
  | TInterface => mret (if ro then old else PMap (Some m))
  | _ => if ro then mret old else st_lift Panic
  end.

(** [putValueToPlace] *)
Fixpoint putValueToPlace (t : gtype) (ro : bool) (val : data) (old : place) : CM place :=
  match t with
  | TTime =>
      match val with
      | VString timeText =>
          match time_Parse_RFC3339 timeText with
          | Some ts => set ro (PTime ts)
          | None => add_err (Errorf ("could not parse time: " +:+ quoted "%s") [timeText]);; mret old
          end
      | _ => e ← st_lift (FieldError "time" val); add_err e;; mret old
      end
  | TStruct name setter fields =>
      match toStringMap val with
      | None => add_err (Errorf "could not convert to map[string]" []);; mret old
      | Some component => put_struct putValueToPlace name setter fields ro component old
      end
  | TMap elem =>
      match val with
      | VNil => mret old
      | VMap ms => put_map elem ro (map (λ kv, (kv.1, fmt_s kv.2)) ms) ms old
      | VIMap mi =>
          put_map elem ro (assoc_build (map (λ kv, (fmt_s kv.1, fmt_s kv.2)) mi))
            (default [] (toStringMap val)) old
      | _ => e ← st_lift (FieldError "map" val); add_err e;; mret old
      end
  | TSlice TByte =>
      match val with
      | VNil => mret old
      | VBytes s | VString s => set ro (PBytes (Some s))
      | _ => add_err (Errorf "need type byte slice, value %v" [fmt_v val]);; mret old
      end
  | TSlice elem =>
      match val with
      | VNil => mret old
      | VSlice slice =>
          create ← elems_loop putValueToPlace true elem 0 slice;
          set ro (PSlice (Some create))
      | _ => add_err (Errorf "need type slice, value %v" [fmt_v val]);; mret old
      end
  | TArray targetSize elem =>
      match val with
      | VNil => mret old
      | VSlice slice =>
          if decide (length slice = targetSize) then
            create ← elems_loop putValueToPlace false elem 0 slice;
            set ro (PArray create)
          else
            add_err (Errorf "need array of size %d, got size %d"
                       [strconv_Itoa (Z.of_nat targetSize); strconv_Itoa (Z.of_nat (length slice))]);;
            mret old
      | _ => add_err (Errorf "need type array, value %s" [fmt_s val]);; mret old
      end
  | TPtr elem =>
      match val with
      | VNil => mret old
      | _ =>
          if ro then st_lift Panic
          else inner ← putValueToPlace elem false val (zero_place elem); mret (PPtr (Some inner))
      end
  | _ => putValueToUnit t ro val old
  end.

(** [putFieldsToTargetStruct] and [Struct], into what a pointer to a place of
    type [t] points to *)
Definition putFieldsToTargetStruct (fields : list (string * data)) (t : gtype) (ro : bool) (old : place) : CM place :=
  match t with
  | TStruct name setter fs => put_struct putValueToPlace name setter fs ro fields old
  | _ => add_err (Errorf "can only assign fields to a struct" []);; mret old
  end.
Definition Struct (fields : list (string * data)) (t : gtype) (output : place) : outcome (place * option error) :=
  match putFieldsToTargetStruct fields t false output NewErrorCollector with
  | (Ok p, c) => Ok (p, AsSingleError c)
  | (Error e, _) => Error e
  | (Panic, _) => Panic
  end.
End fill.
