(* ===== verification/FillFacts.v ===== *)
(** * Facts of filling structures

    The typing of places, and what every part of the filling does with it. *)
From S2P Require Export Fill.

(** Induction on types, through the fields of structures *)
Section gtype_ind.
Context (P : gtype → Prop).
Context (Hbase : ∀ t, match t with TStruct _ _ _ | TMap _ | TSlice _ | TArray _ _ | TPtr _ => False | _ => True end → P t).
Context (Hstruct : ∀ name setter fields, Forall (λ f, P f.2) fields → P (TStruct name setter fields)).
Context (Hmap : ∀ e, P e → P (TMap e)) (Hslice : ∀ e, P e → P (TSlice e)).
Context (Harray : ∀ n e, P e → P (TArray n e)) (Hptr : ∀ e, P e → P (TPtr e)).
Fixpoint gtype_fields_ind (t : gtype) : P t :=
  match t with
  | TStruct name setter fields =>
      Hstruct name setter fields
        ((fix go (fs : list (field_info * gtype)) : Forall (λ f, P f.2) fs :=
            match fs with
            | [] => Forall_nil_2 _
            | f :: fs => Forall_cons_2 _ f fs (gtype_fields_ind f.2) (go fs)
            end) fields)
  | TMap e => Hmap e (gtype_fields_ind e)
  | TSlice e => Hslice e (gtype_fields_ind e)
  | TArray n e => Harray n e (gtype_fields_ind e)
  | TPtr e => Hptr e (gtype_fields_ind e)
  | t => Hbase t I
  end.
End gtype_ind.

(** ** Typing *)
Definition all2 {A B} (R : A → B → Prop) : list A → list B → Prop :=
  fix go l k := match l, k with [], [] => True | x :: l, y :: k => R x y ∧ go l k | _, _ => False end.
Lemma all2_Forall2 {A B} (R : A → B → Prop) l k : all2 R l k ↔ Forall2 R l k.
Proof.
  revert k. induction l as [|x l IH]; intros [|y k]; cbn; split; try done; try (by inversion 1).
  - intros [? ?]. constructor; [done|by apply IH].
  - inversion 1; subst. split; [done|by apply IH].
Qed.

Fixpoint has_type (t : gtype) (p : place) {struct t} : Prop :=
  match t, p with
  | TBool, PBool _ | TInt, PInt _ | TInt64, PInt64 _ | TUint64, PUint64 _ | TFloat64, PFloat64 _ | TString, PString _
  | TByte, PByte _ | TInterface, PInterface _ | TTime, PTime _ | TOther _, POther => True
  | TStruct _ _ fields, PStruct ps _ => all2 (λ f, has_type f.2) fields ps
  | TMap TString, PStrMap _ => True
  | TMap TInterface, PMap _ => True
  | TMap elem, PMapOf m =>
      match elem with TString | TInterface => False | _ => True end ∧
      match m with Some m => Forall (λ kv, has_type elem kv.2) m | None => True end
  | TSlice TByte, PBytes _ => True
  | TSlice elem, PSlice l => elem ≠ TByte ∧ match l with Some l => Forall (has_type elem) l | None => True end
  | TArray n elem, PArray l => length l = n ∧ Forall (has_type elem) l
  | TPtr elem, PPtr p => match p with Some p => has_type elem p | None => True end
  | _, _ => False
  end.

Lemma zero_typed t : has_type t (zero_place t).
Proof.
  induction t as [t Ht|name setter fields IH|e IH|e IH|n e IH|e IH] using gtype_fields_ind.
  - by destruct t.
  - cbn. induction IH as [|f fields Hf _ IH']; cbn; auto.
  - by destruct e.
  - by destruct e.
  - cbn. rewrite length_replicate. split; [done|]. by apply Forall_replicate.
  - done.
Qed.

(** ** Runs

    [ends pan Q m]: [m] ends with a value that satisfies [Q], under the fields
    it began with, or with a panic where [pan] allows one; never with an error
    of its own. *)
Section runs.
Context (pan : Prop).
Definition ends {A} (Q : A → Prop) (m : stM ErrorCollector A) : Prop :=
  ∀ c, match m c with (Ok a, c') => Q a ∧ ec_fields c' = ec_fields c | (Error _, _) => False | (Panic, _) => pan end.

Lemma place_bind {A B} Q R (m : stM ErrorCollector A) (f : A → stM ErrorCollector B) :
  ends Q m → (∀ a, Q a → ends R (f a)) → ends R (m ≫= f).
Proof.
  intros Hm Hf c. specialize (Hm c). unfold mbind, stM_bind. destruct (m c) as [[a|e|] c']; [|done..].
  destruct Hm as [Ha Hc]. specialize (Hf a Ha c'). destruct (f a c') as [[b|e|] c'']; [|done..].
  destruct Hf as [Hb Hc']. split; [done|congruence].
Qed.
Lemma place_ret {A} (Q : A → Prop) a : Q a → ends Q (mret a).
Proof. by intros ??. Qed.
Lemma ends_panic {A} (Q : A → Prop) : pan → ends Q (st_lift Panic).
Proof. by intros ??. Qed.
Lemma ends_mono {A} (Q R : A → Prop) m : (∀ a, Q a → R a) → ends Q m → ends R m.
Proof. intros HQR Hm c. specialize (Hm c). destruct (m c) as [[a|e|] c']; naive_solver. Qed.
Lemma ends_add e : ends (λ _, True) (add_err e).
Proof. by intros c. Qed.
Lemma place_then {A B} Q (m : stM ErrorCollector A) (k : stM ErrorCollector B) :
  ends (λ _, True) m → ends Q k → ends Q (m;; k).
Proof. intros Hm Hk. by eapply place_bind. Qed.

Lemma ends_in_field {A} Q name (m : stM ErrorCollector A) : ends Q m → ends Q (in_field name m).
Proof.
  intros Hm c. specialize (Hm (PushField name c)). unfold in_field, mbind, stM_bind, st_modify, st_get, st_lift.
  destruct (m (PushField name c)) as [[a|e|] c']; [|done..]. destruct Hm as [Ha Hc].
  unfold PopField. rewrite Hc. cbn [PushField ec_fields]. rewrite slice_to_drop_last. cbn. by split.
Qed.

Lemma ends_set Q ro p : (ro = true → pan) → Q p → ends Q (set ro p).
Proof. intros Hro Hp. destruct ro; [by apply ends_panic; auto|by apply place_ret]. Qed.

Lemma ends_FieldError `{FillEnv} (Q : place → Prop) want val old : (val = VNil → pan) → Q old →
  ends Q (e ← st_lift (FieldError want val); add_err e;; mret old).
Proof.
  intros Hnil Hold c. unfold FieldError. destruct val; [by apply Hnil|by split..].
Qed.
End runs.
#[export] Hint Resolve place_ret ends_panic ends_add place_then ends_in_field ends_set ends_FieldError : qri.

(** ** What cannot panic *)

(** Types whose fields are exported and whose maps hold strings or anything *)
Fixpoint settable (t : gtype) : Prop :=
  match t with
  | TStruct _ _ fields =>
      (fix go (fs : list (field_info * gtype)) :=
         match fs with [] => True | f :: fs => f_exported f.1 = true ∧ settable f.2 ∧ go fs end) fields
  | TMap elem => elem = TString ∨ elem = TInterface
  | TSlice elem | TArray _ elem | TPtr elem => settable elem
  | _ => True
  end.

(** Data as a JSON decoder makes them, with nulls in objects only *)
Fixpoint clean (v : data) : Prop :=
  match v with
  | VNil | VIMap _ => False
  | VMap m =>
      (fix go (m : list (string * data)) :=
         match m with [] => True | kv :: m => (kv.2 = VNil ∨ clean kv.2) ∧ go m end) m
  | VSlice l => (fix go l := match l with [] => True | v :: l => clean v ∧ go l end) l
  | _ => True
  end.

Lemma clean_entry m kv : clean (VMap m) → kv ∈ m → kv.2 = VNil ∨ clean kv.2.
Proof.
  induction m as [|x m IH]; [by intros _ ?%not_elem_of_nil|]. intros [Hx Hm] [->|Hin]%elem_of_cons; [done|by apply IH].
Qed.

Lemma clean_elem l v : clean (VSlice l) → v ∈ l → clean v.
Proof.
  induction l as [|x l IH]; [by intros _ ?%not_elem_of_nil|]. intros [Hx Hl] [->|Hin]%elem_of_cons; [done|by apply IH].
Qed.

Section filling.
Context `{FillEnv} (pan : Prop).

(** A panic is allowed, or none can happen. *)
Definition safe (ro : bool) (t : gtype) (val : data) : Prop := pan ∨ (ro = false ∧ settable t ∧ clean val).

Lemma safe_ro ro t val : safe ro t val → ro = true → pan.
Proof. intros [?|[-> _]]; done. Qed.
Lemma safe_nil ro t val : safe ro t val → val = VNil → pan.
Proof. by intros [?|(_ & _ & ?)] ->. Qed.
Hint Resolve safe_ro safe_nil : qri.

Lemma unit_ends t ro val old : has_type t old → safe ro t val →
  ends pan (has_type t) (putValueToUnit t ro val old).
Proof.
  intros Hold Hs. unfold putValueToUnit.
  destruct t, val; eauto with qri; cbn;
    first [by apply ends_set; [eauto with qri|] | by apply ends_panic; eauto with qri
          | by eapply ends_FieldError; [eauto with qri|] | by apply place_ret | by apply place_then; auto with qri].
Qed.

Definition fills (t : gtype) : Prop := ∀ ro val old, has_type t old → safe ro t val →
  ends pan (has_type t) (putValueToPlace t ro val old).

Lemma elems_ends push e i l : fills e → (∀ v, v ∈ l → safe false e v) →
  ends pan (Forall (has_type e)) (elems_loop putValueToPlace push e i l) ∧
  ends pan (λ ps, length ps = length l) (elems_loop putValueToPlace push e i l).
Proof.
  intros He. revert i. induction l as [|v l IH]; intros i Hl; cbn [elems_loop]; [by split; apply place_ret|].
  destruct (IH (S i)) as [IHt IHl]; [set_solver|].
  assert (ends pan (has_type e) (if push then in_field (strconv_Itoa (Z.of_nat i)) (putValueToPlace e false v (zero_place e))
    else putValueToPlace e false v (zero_place e))) as Hv.
  { assert (ends pan (has_type e) (putValueToPlace e false v (zero_place e))) by (apply He; [apply zero_typed|set_solver]).
    destruct push; [by apply ends_in_field|done]. }
  split; (eapply place_bind; [exact Hv|intros p Hp]).
  - eapply place_bind; [exact IHt|]. intros ps Hps. apply place_ret. by constructor.
  - eapply place_bind; [exact IHl|]. intros ps Hps. apply place_ret. cbn. by rewrite Hps.
Qed.

Lemma unknown_ends name setter used m : ends pan (λ _, True) (unknown_loop name setter used m).
Proof.
  induction m as [|[k v] m IH]; cbn [unknown_loop]; [by apply place_ret|].
  case_decide; [done|]. destruct setter; [|by apply place_then; auto with qri].
  eapply place_bind; [exact IH|]. intros ??. by apply place_ret.
Qed.

Lemma field_value_in m f kv : field_value m f = Some kv → kv ∈ m.
Proof.
  unfold field_value. destruct (find_index_from _ _ _) as [[i x]|] eqn:Hf; [|done]. intros [= <-].
  apply find_index_from_Some in Hf as (j & _ & Hj & _). by eapply list_elem_of_lookup_2.
Qed.

Lemma fields_ends m ro fields olds :
  Forall (λ f, fills f.2) fields → Forall2 (λ f p, has_type f.2 p) fields olds →
  (pan ∨ ro = false ∧ settable (TStruct "" false fields) ∧ clean (VMap m)) →
  ends pan (λ r, Forall2 (λ f p, has_type f.2 p) fields r.1) (fields_loop putValueToPlace m ro fields olds).
Proof.
  intros Hf Holds. induction Holds as [|f old fields olds Hold Holds IH]; intros Hs; cbn [fields_loop]; [by apply place_ret|].
  apply Forall_cons in Hf as [Hf Hfs].
  apply (place_bind _ (λ one, has_type f.2 one.1)).
  - destruct (field_value m f.1) as [[key val]|] eqn:Hv; [|by apply place_ret].
    assert (val = VNil ∨ ends pan (λ one : place * list string, has_type f.2 one.1)
      (new ← in_field (f_Name f.1) (putValueToPlace f.2 (ro || negb (f_exported f.1)) val old); mret (new, [key])))
      as [->|Hrun]; [|by apply place_ret|by destruct val; try done; apply place_ret].
    assert (val = VNil ∨ val ≠ VNil) as [?|Hnil] by (destruct val; by (left + right)); [by left|right].
    eapply place_bind; [|intros p Hp; by apply place_ret]. apply ends_in_field, Hf; [done|].
    destruct Hs as [?|(-> & (Hex & Hset & _) & Hclean)]; [by left|right]. rewrite Hex. split_and!; [done..|].
    by destruct (clean_entry m (key, val) Hclean (field_value_in _ _ _ Hv)).
  - intros one Hone. eapply place_bind.
    + apply IH; [done|]. destruct Hs as [?|(? & (_ & _ & ?) & ?)]; [by left|by right].
    + intros rest Hrest. apply place_ret. by constructor.
Qed.

Lemma struct_ends name setter fields ro m old :
  Forall (λ f, fills f.2) fields → has_type (TStruct name setter fields) old →
  (pan ∨ ro = false ∧ settable (TStruct "" false fields) ∧ clean (VMap m)) →
  ends pan (has_type (TStruct name setter fields)) (put_struct putValueToPlace name setter fields ro m old).
Proof.
  intros Hf Hold Hs. destruct old; try done. cbn [has_type] in Hold. apply all2_Forall2 in Hold. unfold put_struct.
  eapply place_bind; [by apply fields_ends|]. intros r Hr. destruct ro eqn:Hro.
  - apply ends_panic. by destruct Hs as [?|[? _]].
  - eapply place_bind; [apply unknown_ends|]. intros extra _. apply place_ret. cbn [has_type]. by apply all2_Forall2.
Qed.

Lemma map_ends elem ro strings m old : has_type (TMap elem) old →
  (pan ∨ ro = false ∧ settable (TMap elem)) → ends pan (has_type (TMap elem)) (put_map elem ro strings m old).
Proof.
  intros Hold Hs. assert (ro = true → pan) as Hro by (destruct Hs as [?|[-> _]]; done).
  assert (elem = TString ∨ elem = TInterface ∨ pan) as Helem by (cbn in Hs; tauto).
  destruct elem; try (destruct Helem as [?|[?|Hpan]]; [done..|]; cbn; destruct ro; [by apply place_ret|by apply ends_panic]).
  - by apply ends_set.
  - apply place_ret. by destruct ro.
Qed.

Lemma set_slice_ends elem ro create : elem ≠ TByte → (ro = true → pan) → Forall (has_type elem) create →
  ends pan (has_type (TSlice elem)) (set ro (PSlice (Some create))).
Proof. intros Hne Hro Hc. apply ends_set; [done|]. by destruct elem. Qed.

Lemma put_fills t : fills t.
Proof.
  induction t as [t Ht|name setter fields IH|e IH|e IH|n e IH|e IH] using gtype_fields_ind; intros ro val old Hold Hs.
  - destruct t; try done; try (by apply unit_ends). cbn [putValueToPlace].
    destruct val; try (by eapply ends_FieldError; eauto using safe_nil).
    destruct (time_Parse_RFC3339 _); [apply ends_set; eauto using safe_ro|by apply place_then; auto with qri].
  - cbn [putValueToPlace]. destruct (toStringMap val) as [m|] eqn:Hm; [|by apply place_then; auto with qri].
    apply struct_ends; [done..|]. destruct Hs as [?|(? & ? & Hc)]; [by left|right]. split_and!; [done..|].
    destruct val; try done. by injection Hm as ->.
  - cbn [putValueToPlace].
    assert (pan ∨ ro = false ∧ settable (TMap e)) as Hs' by (destruct Hs as [?|(? & ? & _)]; auto).
    destruct val; try (by eapply ends_FieldError; eauto using safe_nil); [by apply place_ret|by apply map_ends..].
  - assert (∀ create, e ≠ TByte → Forall (has_type e) create → ends pan (has_type (TSlice e)) (set ro (PSlice (Some create)))) as Hset.
    { intros create Hne Hc. apply set_slice_ends; eauto using safe_ro. }
    assert (∀ l, e ≠ TByte → val = VSlice l → ends pan (has_type (TSlice e))
      (create ← elems_loop putValueToPlace true e 0 l; set ro (PSlice (Some create)))) as Hrun.
    { intros l Hne ->. eapply place_bind; [|intros create Hc; by apply Hset].
      apply elems_ends; [done|]. intros v Hv. destruct Hs as [?|(? & ? & Hc)]; [by left|right].
      split_and!; [done..|by eapply clean_elem]. }
    cbn [putValueToPlace].
    destruct e; try (destruct val; try (by apply place_then; auto with qri); [by apply place_ret|by apply Hrun]).
    destruct val; try (by apply place_then; auto with qri); [by apply place_ret|by apply ends_set; eauto using safe_ro..].
  - cbn [putValueToPlace]. destruct val as [| | | | | | | | | | |l]; try (by apply place_then; auto with qri); [by apply place_ret|].
    case_decide as Hlen; [|by apply place_then; auto with qri].
    destruct (elems_ends false e 0 l IH) as [Htyped Hlength].
    { intros v Hv. destruct Hs as [?|(? & ? & Hc)]; [by left|right].
      split_and!; [done..|by eapply clean_elem]. }
    apply (place_bind _ (λ ps, Forall (has_type e) ps ∧ length ps = n)).
    + intros c. specialize (Htyped c). specialize (Hlength c). rewrite Hlen in Hlength.
      destruct (elems_loop _ _ _ _ _ _) as [[?|?|] ?]; naive_solver.
    + intros ps [Hps Hn]. apply ends_set; [eauto using safe_ro|done].
  - cbn [putValueToPlace].
    assert (val ≠ VNil → ends pan (has_type (TPtr e))
      (if ro then st_lift Panic else inner ← putValueToPlace e false val (zero_place e); mret (PPtr (Some inner)))) as Hrun.
    { intros Hne. destruct ro; [apply ends_panic; eauto using safe_ro|].
      eapply place_bind; [apply IH; [apply zero_typed|]|intros p Hp; by apply place_ret].
      destruct Hs as [?|(? & ? & ?)]; [by left|by right]. }
    destruct val; try (by apply Hrun). by apply place_ret.
Qed.
End filling.
