(* ===== verification/PathValue.v ===== *)
(** * Values at paths (src/base/fill/path_value.go)

    Setting and getting what a dot-separated path of field names, map keys and
    indices leads to, by reflection. A walk leaves changes behind: nil pointers
    and maps on the way are allocated, also when the path ends nowhere.
    Structures have no embedded fields, and the private fields of times are
    left out. *)
From S2P Require Export Fill.

(** [ErrNotFound] *)
Definition ErrNotFound : error := ErrSentinel "not found".

(** [strconv.ParseInt(str, 10, bits)] *)
Definition strconv_ParseInt (bits : Z) (str : string) : option Z :=
  n ← strconv_Atoi str;
  if decide (- 2 ^ (bits - 1) ≤ n < 2 ^ (bits - 1))%Z then Some n else None.

(** [reflect.Kind.String] *)
Definition kind_name (t : gtype) : string :=
  match t with
  | TBool => "bool" | TInt => "int" | TInt64 => "int64" | TUint64 => "uint64" | TFloat64 => "float64"
  | TString => "string" | TByte => "uint8" | TInterface => "interface" | TTime | TStruct _ _ _ => "struct"
  | TMap _ => "map" | TSlice _ => "slice" | TArray _ _ => "array" | TPtr _ => "ptr" | TOther kind => kind
  end.
Definition data_kind (v : data) : string :=
  match v with
  | VNil => "invalid" | VBool _ => "bool" | VInt _ => "int" | VInt64 _ => "int64" | VUint _ => "uint" | VUint64 _ => "uint64"
  | VFloat _ => "float64" | VString _ => "string" | VBytes _ | VSlice _ => "slice" | VMap _ | VIMap _ => "map"
  end.

(** Running on one element of a list, and on one part of an entry *)
Definition at_index {S A} (i : nat) (m : stM S A) : stM (list S) A := λ l,
  match l !! i with Some x => let '(r, x') := m x in (r, <[i := x']> l) | None => (Panic, l) end.
Definition at_value {K S A} (m : stM S A) : stM (K * S) A := st_zoom snd (λ v kv, (kv.1, v)) m.

(** [mapLookupCaseInsensitive]: the entry, with its position *)
Definition first_of {B} (l : list (option B)) : option B := foldr (λ o r, match o with Some b => Some b | None => r end) None l.
Definition mapLookupCaseInsensitive {B} (m : list (string * B)) (k : string) : option (nat * (string * B)) :=
  let klower := strings_ToLower k in
  first_of
    [find_index_from (λ kv, bool_decide (kv.1 = k)) 0 m;
     find_index_from (λ kv, bool_decide (kv.1 = klower)) 0 m;
     find_index_from (λ kv, bool_decide (strings_ToLower kv.1 = klower)) 0 m].

(** The same in a map whose keys can be anything: a key is equal to a string
    that it is, and its text is that of a value of interface type. *)
Definition is_string (s : string) (v : data) : bool := match v with VString s' => bool_decide (s' = s) | _ => false end.
Definition imapLookupCaseInsensitive (m : list (data * data)) (k : string) : option (nat * (data * data)) :=
  let klower := strings_ToLower k in
  first_of
    [find_index_from (λ kv, is_string k kv.1) 0 m;
     find_index_from (λ kv, is_string klower kv.1) 0 m;
     find_index_from (λ kv, bool_decide (strings_ToLower "<interface {} Value>" = klower)) 0 m].

(** [getFieldCaseInsensitive]: the one field whose name matches; several that
    match hide each other. *)
Definition getFieldCaseInsensitive (fields : list (field_info * gtype)) (name : string) : option (nat * (field_info * gtype)) :=
  let matches := λ f : field_info * gtype, bool_decide (strings_ToLower (f_Name f.1) = strings_ToLower name) in
  match find_index_from matches 0 fields with
  | Some (i, f) => if existsb matches (drop (S i) fields) then None else Some (i, f)
  | None => None
  end.

Section paths.
Context `{FillEnv}.

(** [coerceToInt] *)
Definition coerceToInt (str : string) : outcome Z :=
  match strconv_ParseInt 32 str with
  | Some n => Ok n
  | None => e ← FieldError "int" (VString str); Error e
  end.

(** [coerceToTargetType] *)
Fixpoint coerceToTargetType (val : data) (t : gtype) : outcome data :=
  let wrong want := e ← FieldError want val; Error e in
  match t with
  | TBool =>
      match val with
      | VString str =>
          if decide (strings_ToLower str = "true") then Ok (VBool true)
          else if decide (strings_ToLower str = "false") then Ok (VBool false)
          else wrong "bool"
      | VBool b => Ok (VBool b)
      | _ => wrong "bool"
      end
  | TInt =>
      match val with
      | VInt num => Ok (VInt num)
      | VString str => match strconv_ParseInt 32 str with Some n => Ok (VInt n) | None => wrong "int" end
      | _ => wrong "int"
      end
  | TInt64 =>
      match val with
      | VInt _ | VInt64 _ | VFloat _ => Ok val
      | VString str => match strconv_ParseInt 64 str with Some n => Ok (VInt64 n) | None => wrong "int64" end
      | _ => wrong "int64"
      end
  | TPtr elem => coerceToTargetType val elem
  | TString => match val with VString str => Ok (VString str) | _ => wrong "string" end
  | _ => Error (Errorf "unknown kind: %s" [kind_name t])
  end.

(** ** [findTargetAtPath]

    The walk, with what is done at its end: [k] at a place of a type, reached
    through an unexported field or not, addressable or not, and a key left to
    look up in it when it is a map; [ki] at a map whose keys can be anything. *)
Section walk.
Context {A : Type} (k : gtype → bool → bool → string → stM place A) (ki : bool → string → stM (list (data * data)) A).

Definition at_slice {S} (s : string) (m : stM S A) : stM (list S) A := λ l,
  match coerceToInt s with
  | Ok num =>
      if decide (Z.of_nat (length l) ≤ num)%Z then
        (Error (Errorf "index outside of range: %d, len is %d"
                  [strconv_Itoa num; strconv_Itoa (Z.of_nat (length l))]), l)
      else if decide (num < 0)%Z then (Panic, l)
      else at_index (Z.to_nat num) m l
  | Error e => (Error e, l)
  | Panic => (Panic, l)
  end.
Definition no_field (kind : string) : error := Errorf "cannot set field of type %s" [kind].

(** The bytes of a slice are places themselves, that nothing sets. *)
Definition at_bytes (steps : list string) (ro : bool) : stM ascii A := λ b,
  match steps with
  | [] => ((k TByte ro true "" (PByte (byte_val b))).1, b)
  | _ => (Error (no_field "uint8"), b)
  end.

(** The value of a key in a map *)
Definition at_entry {K S} (found : option (nat * (K * S))) (m : stM S A) : stM (list (K * S)) A := λ l,
  match found with
  | None => (Error ErrNotFound, l)
  | Some (i, _) => at_index i (at_value m) l
  end.

(** A place of interface type, in what is in it *)
Fixpoint at_data (steps : list string) (ro addr : bool) : stM data A := λ v,
  match steps with
  | [] => let '(r, p) := k TInterface ro addr "" (PInterface v) in (r, match p with PInterface v' => v' | _ => v end)
  | s :: rest =>
      match v with
      | VNil => (Panic, v)
      | VMap m =>
          match rest with
          | [] => let '(r, p) := k (TMap TInterface) ro false s (PMap (Some m)) in
                  (r, match p with PMap (Some m') => VMap m' | _ => v end)
          | _ =>
              let '(r, m') := at_entry (mapLookupCaseInsensitive m s) (at_data rest ro false) m in (r, VMap m')
          end
      | VIMap m =>
          match rest with
          | [] => let '(r, m') := ki ro s m in (r, VIMap m')
          | _ =>
              let '(r, m') := at_entry (imapLookupCaseInsensitive m s) (at_data rest ro false) m in (r, VIMap m')
          end
      | VSlice l => let '(r, l') := at_slice s (at_data rest ro true) l in (r, VSlice l')
      | VBytes bs => let '(r, _) := at_slice s (at_bytes rest ro) (bytes bs) in (r, v)
      | _ => (Error (no_field (data_kind v)), v)
      end
  end.

(** The field of a structure the path goes through *)
Section through.
Context (walk : gtype → bool → bool → stM place A).
Fixpoint at_field (fields : list (field_info * gtype)) (i : nat) (ro addr : bool) : stM (list place) A := λ ps,
  match fields, i, ps with
  | f :: _, O, p :: ps => let '(r, p') := walk f.2 (ro || negb (f_exported f.1)) addr p in (r, p' :: ps)
  | _ :: fields, S i, p :: ps => let '(r, ps') := at_field fields i ro addr ps in (r, p :: ps')
  | _, _, _ => (Panic, ps)
  end.
End through.

(** A map on the way: a nil one is made, and with one step left the map itself
    is the target. *)
Definition make_map (p : place) : place :=
  match p with PStrMap None => PStrMap (Some []) | PMap None => PMap (Some []) | PMapOf None => PMapOf (Some []) | _ => p end.
Definition is_nil_map (p : place) : bool :=
  match p with PStrMap None | PMap None | PMapOf None => true | _ => false end.

Fixpoint at_path (t : gtype) (steps : list string) (ro addr : bool) {struct t} : stM place A := λ p,
  match steps with
  | [] => k t ro addr "" p
  | s :: rest =>
      match t, p with
      | TStruct _ _ fields, PStruct ps arbitrary =>
          match getFieldCaseInsensitive fields s with
          | None => (Error ErrNotFound, p)
          | Some (i, _) =>
              let '(r, ps') := at_field (λ t ro addr, at_path t rest ro addr) fields i ro addr ps in
              (r, PStruct ps' arbitrary)
          end
      | TTime, _ => (Error ErrNotFound, p)
      | TInterface, PInterface v => let '(r, v') := at_data steps ro addr v in (r, PInterface v')
      | TPtr elem, PPtr inner =>
          match inner with
          | None =>
              if ro || negb addr then (Panic, p)
              else let '(r, q') := at_path elem steps ro true (zero_place elem) in (r, PPtr (Some q'))
          | Some q => let '(r, q') := at_path elem steps ro true q in (r, PPtr (Some q'))
          end
      | TMap elem, _ =>
          if is_nil_map p && (ro || negb addr) then (Panic, p)
          else
            let p := make_map p in
            match rest with
            | [] => k t ro addr s p
            | _ =>
                match p with
                | PStrMap (Some m) =>
                    let '(r, _) := at_entry (mapLookupCaseInsensitive m s) (λ text, (Error (no_field "string"), text)) m in (r, p)
                | PMap (Some m) => let '(r, m') := at_entry (mapLookupCaseInsensitive m s) (at_data rest ro false) m in (r, PMap (Some m'))
                | PMapOf (Some m) => let '(r, m') := at_entry (mapLookupCaseInsensitive m s) (at_path elem rest ro false) m in (r, PMapOf (Some m'))
                | _ => (Panic, p)
                end
            end
      | TSlice _, PBytes bs =>
          let '(r, _) := at_slice s (at_bytes rest ro) (bytes (default "" bs)) in (r, p)
      | TSlice elem, PSlice l =>
          let '(r, l') := at_slice s (at_path elem rest ro true) (default [] l) in
          (r, PSlice (match l with Some _ => Some l' | None => None end))
      | _, _ => (Error (no_field (kind_name t)), p)
      end
  end.
End walk.

(** ** [SetPathValue] *)

(** A value in a place of a type that is its own *)
Definition assign_to (elem : gtype) (v : data) : option place :=
  match elem, v with
  | TBool, VBool b => Some (PBool b)
  | TInt, VInt z => Some (PInt z)
  | TInt64, VInt64 z => Some (PInt64 z)
  | TUint64, VUint64 z => Some (PUint64 z)
  | TFloat64, VFloat f => Some (PFloat64 f)
  | TString, VString s => Some (PString s)
  | TInterface, v => Some (PInterface v)
  | TMap TInterface, VMap m => Some (PMap (Some m))
  | TSlice TByte, VBytes s => Some (PBytes (Some s))
  | TSlice TInterface, VSlice l => Some (PSlice (Some (map PInterface l)))
  | _, _ => None
  end.

(** [reflect.Value.SetMapIndex]: the zero value removes the key, and a value
    of another type panics. *)
Definition set_key {B} (field : string) (b : option B) (m : list (string * B)) : list (string * B) :=
  match b with Some b => assoc_insert m field b | None => filter (λ kv, kv.1 ≠ field) m end.
Definition SetMapIndex (t : gtype) (field : string) (val : data) : stM place unit := λ p,
  match t, p, val with
  | TMap _, PStrMap (Some m), VNil => (Ok tt, PStrMap (Some (set_key field None m)))
  | TMap _, PMap (Some m), VNil => (Ok tt, PMap (Some (set_key field None m)))
  | TMap _, PMapOf (Some m), VNil => (Ok tt, PMapOf (Some (set_key field None m)))
  | TMap _, PStrMap (Some m), VString s => (Ok tt, PStrMap (Some (set_key field (Some s) m)))
  | TMap _, PMap (Some m), v => (Ok tt, PMap (Some (set_key field (Some v) m)))
  | TMap elem, PMapOf (Some m), v =>
      match assign_to elem v with
      | Some q => (Ok tt, PMapOf (Some (set_key field (Some q) m)))
      | None => (Panic, p)
      end
  | _, _, _ => (Panic, p)
  end.
Definition iset_key (field : string) (val : data) (m : list (data * data)) : list (data * data) :=
  match val with
  | VNil => filter (λ kv, is_string field kv.1 = false) m
  | _ => if existsb (λ kv, is_string field kv.1) m
         then map (λ kv, if is_string field kv.1 then (kv.1, val) else kv) m
         else m ++ [(VString field, val)]
  end.

(** The last step of [SetPathValue] *)
Definition set_place (val : data) (collector : ErrorCollector) (t : gtype) (ro addr : bool) (field : string)
    : stM place (option error) := λ p,
  if decide (field = "") then
    match coerceToTargetType val t with
    | Ok v =>
        match putValueToPlace t (ro || negb addr) v p collector with
        | (Ok p', c) => (Ok (AsSingleError c), p')
        | (Error e, _) => (Error e, p)
        | (Panic, _) => (Panic, p)
        end
    | Error e => (Ok (AsSingleError (Add e collector)), p)
    | Panic => (Panic, p)
    end
  else if ro then (Panic, p) else (SetMapIndex t field val;; mret None) p.
Definition set_imap (val : data) (collector : ErrorCollector) (ro : bool) (field : string)
    : stM (list (data * data)) (option error) := λ m,
  if decide (field = "") then (Ok (AsSingleError (Add (Errorf "unknown kind: %s" ["map"]) collector)), m)
  else if ro then (Panic, m) else (Ok None, iset_key field val m).

(** [SetPathValue], with a pointer to a place of type [t] *)
Definition SetPathValue (path : string) (val : data) (t : gtype) : stM place (option error) := λ p,
  let steps := strings_Split path "." in
  let collector := foldl (λ c s, PushField s c) NewErrorCollector steps in
  match at_path (set_place val collector) (set_imap val collector) t steps false true p with
  | (Error e, p') =>
      (Ok (if decide (e = ErrNotFound) then Some (ErrWrap "at %q: %w" [path] ErrNotFound)
           else AsSingleError (Add e collector)), p')
  | r => r
  end.

(** ** [GetPathValue]: a value, with its type *)
Definition entry_of {B} (f : B → place) (elem : gtype) (m : list (string * B)) (field : string) : outcome (gtype * place) :=
  match mapLookupCaseInsensitive m field with
  | Some (_, (_, b)) => Ok (elem, f b)
  | None => Error ErrNotFound
  end.
Definition get_place (t : gtype) (ro addr : bool) (field : string) : stM place (gtype * place) := λ p,
  (if decide (field = "") then if ro then Panic else Ok (t, p)
   else
     entry ← match t, p with
             | TMap elem, PStrMap m => entry_of PString elem (default [] m) field
             | TMap elem, PMap m => entry_of PInterface elem (default [] m) field
             | TMap elem, PMapOf m => entry_of id elem (default [] m) field
             | _, _ => Panic
             end;
     if ro then Panic else Ok entry, p).
Definition get_imap (ro : bool) (field : string) : stM (list (data * data)) (gtype * place) := λ m,
  (if decide (field = "") then if ro then Panic else Ok (TInterface, PInterface (VIMap m))
   else match imapLookupCaseInsensitive m field with
        | Some (_, (_, v)) => if ro then Panic else Ok (TInterface, PInterface v)
        | None => Error ErrNotFound
        end, m).

(** With a pointer to a place of type [t], which is addressable, or with its
    value *)
Definition GetPathValue (path : string) (t : gtype) (addr : bool) : stM place (gtype * place) := λ p,
  match at_path get_place get_imap t (strings_Split path ".") false addr p with
  | (Error e, p') => (Error (ErrWrap "at %q: %w" [path] e), p')
  | r => r
  end.
End paths.
