(* ===== verification/Changes.v ===== *)
(** * Change reports (src/changes/changes.go)

    What changed between two versions of a dataset: the status of each of its
    components, and how the statistics of its columns differ. Loading a dataset
    and computing its statistics are services that change the world [W]; the
    columns of a schema and JSON are libraries'. Numbers of statistics are
    binary64, and the order in which Go walks a map is any. *)
From S2P Require Export Dsref Fill.

(** [fsi]'s statuses of components *)
Definition STUnmodified : string := "unmodified".
Definition STAdd : string := "add".
Definition STChange : string := "modified".
Definition STRemoved : string := "removed".
Definition STMissing : string := "missing".

(** [qerr.New]: the text of the error, with a message for users kept aside *)
Definition qerr_New (err : error) (msg : string) : error := ErrWrap "%w" [msg] err.

(** [EmptyObject], and the statistics of a column as decoded JSON *)
Abbreviation object := (gmap string data).

(** [tabular.Column]: a title, and whether its type has a name *)
Record Column : Type := mkColumn {
  col_Title : string;
  col_HasType : string → bool;
}.

(** ** Datasets, as reports read them

    Beyond what version infos are made of: the paths of components, the text of
    scripts, the schema and the statistics. *)
Record ReportDataset {Schema St : Type} : Type := mkReportDataset {
  rd_Dataset : Dataset;
  rd_CommitPath : string;
  rd_MetaPath : string;
  rd_MetaIsEmpty : bool;
  rd_StructurePath : string;
  rd_Schema : Schema;
  rd_Readme : option string;
  rd_Transform : option string;
  rd_Stats : option St;
}.
Arguments ReportDataset : clear implicits.
Arguments mkReportDataset {Schema St}.

(** The libraries and services a report is made with *)
Class ReportEnv (W Schema St : Type) : Type := {
  LoadDataset : Ref → string → stM W (ReportDataset Schema St);
  stats_Stats : ReportDataset Schema St → stM W St;
  ColumnsFromJSONSchema : Schema → outcome (list Column);
  json_Marshal_stats : St → outcome string;
  json_Unmarshal_objects : string → outcome (list object);
  json_Marshal_object : object → outcome string;
  json_Unmarshal_object : string → outcome object;
}.

(** ** Reports

    [ChangeReportComponent] and [ChangeReportDeltaComponent]; a side that is not
    there is the empty object, here [None] or the empty map. *)
Record ChangeReportComponent {A : Type} : Type := mkComponent {
  c_Left : A;
  c_Right : A;
  c_Status : string;
}.
Arguments ChangeReportComponent : clear implicits.
Arguments mkComponent {A}.
Record StatsChangeSummaryFields : Type := mkSummaryFields {
  sf_Entries : Z;
  sf_Columns : Z;
  sf_TotalSize : Z;
}.
Record SummaryChange : Type := mkSummary {
  s_Left : option StatsChangeSummaryFields;
  s_Right : option StatsChangeSummaryFields;
  s_Delta : StatsChangeSummaryFields;
}.
Record ColumnChange : Type := mkColumnChange {
  cc_Title : string;
  cc_Component : ChangeReportComponent object;
  cc_Delta : gmap string float64;
}.
Record StatsChangeComponent : Type := mkStatsChange {
  Summary : SummaryChange;
  Columns : list ColumnChange;
}.
Record ChangeReportResponse : Type := mkResponse {
  r_VersionInfo : ChangeReportComponent VersionInfo;
  r_Commit : option (ChangeReportComponent (option Commit));
  r_Meta : option (ChangeReportComponent (option Meta));
  r_Readme : option (ChangeReportComponent string);
  r_Structure : option (ChangeReportComponent (option Structure));
  r_Transform : option (ChangeReportComponent string);
  r_Stats : StatsChangeComponent;
}.

(** binary64 addition, subtraction and comparison *)
Definition float_add : float64 → float64 → float64 := SpecFloat.SFadd 53 1024.
Definition float_sub : float64 → float64 → float64 := SpecFloat.SFsub 53 1024.
Definition float_zero : float64 := SpecFloat.S754_zero false.
Definition float_eqb : float64 → float64 → bool := SpecFloat.SFeqb.

Section service.
Context {W Schema St : Type} `{E : !ReportEnv W Schema St, MW : !MapWalk}.
Abbreviation DS := (ReportDataset Schema St).

(** [service.parseColumns] *)
Definition parseColumns (data : DS) : outcome (option StatsChangeSummaryFields * list Column) :=
  match ds_Structure (rd_Dataset data) with
  | Some st =>
      colItems ← ColumnsFromJSONSchema (rd_Schema data);
      Ok (Some (mkSummaryFields (st_Entries st) (Z.of_nat (length colItems)) (st_Length st)), colItems)
  | None => Ok (None, [])
  end.

(** [service.maybeLoadStats]: the statistics the dataset then has *)
Definition maybeLoadStats (ds : DS) : stM W St :=
  match rd_Stats ds with
  | Some sa => mret sa
  | None => λ w,
      match stats_Stats ds w with
      | (Error e, w') => (Error (qerr_New e "missing stats components"), w')
      | r => r
      end
  end.

(** [service.parseStats] *)
Definition with_message {A} (msg : string) (m : outcome A) : outcome A :=
  match m with Error e => Error (qerr_New e msg) | _ => m end.
Definition parseStats (sa : St) : outcome (list object) :=
  statsStr ← with_message "failed to load stats" (json_Marshal_stats sa);
  with_message "failed to parse stats" (json_Unmarshal_objects statsStr).

(** [parseStatsMap] *)
Definition parseStatsMap (stats : object) : outcome object :=
  serialized ← json_Marshal_object stats; json_Unmarshal_object serialized.

(** [service.columnStatsDelta], of columns that are there or not. The shape of
    the difference is that of the types both columns have; types that do not
    fit are an error, and printing the type of a column that is not there
    panics. *)
Definition fits (types : list string) (col : option Column) : bool :=
  match col with Some c => existsb (col_HasType c) types | None => true end.
Definition shape (lCol rCol : option Column) : outcome (list string) :=
  if fits ["number"; "integer"] rCol && fits ["number"; "integer"] lCol then
    Ok ["count"; "max"; "min"; "median"; "mean"]
  else if fits ["string"] rCol && fits ["string"] lCol then
    Ok ["count"; "maxLength"; "minLength"; "unique"]
  else if fits ["boolean"] rCol && fits ["boolean"] lCol then
    Ok ["count"; "trueCount"; "falseCount"]
  else
    match lCol, rCol with
    | Some _, Some _ => Error (Errorf "incompatible column types" [])
    | _, _ => Panic
    end.

(** A number of the statistics; one that is missing or null is passed over,
    and anything else panics. *)
Definition stat (statsMap : object) (k : string) : outcome (option float64) :=
  match statsMap !! k with
  | None | Some VNil => Ok None
  | Some (VFloat f) => Ok (Some f)
  | Some _ => Panic
  end.
Definition stat_of (side : option object) (k : string) : outcome (option float64) :=
  match side with Some m => stat m k | None => Ok None end.
Definition delta_of (left right : option object) (k : string) : outcome float64 :=
  l ← stat_of left k;
  let d := match l with Some l => float_sub float_zero l | None => float_zero end in
  r ← stat_of right k;
  Ok (match r with Some r => float_add d r | None => d end).
Fixpoint deltas (left right : option object) (ks : list string) : outcome (gmap string float64) :=
  match ks with
  | [] => Ok ∅
  | k :: ks => d ← delta_of left right k; rest ← deltas left right ks; Ok (<[k := d]> rest)
  end.
Definition parse_side (col : option Column) (stats : object) : outcome (option object) :=
  match col with Some _ => m ← parseStatsMap stats; Ok (Some m) | None => Ok None end.
Definition column_status (lCol rCol : option Column) (deltaCol : gmap string float64) : string :=
  match lCol, rCol with
  | Some _, None => STRemoved
  | None, Some _ => STAdd
  | Some _, Some _ =>
      let sum := foldl (λ sum kd, float_add sum kd.2) float_zero (walk deltaCol) in
      if float_eqb sum float_zero then STUnmodified else STChange
  | None, None => STMissing
  end.
Definition columnStatsDelta (left right : object) (lCol rCol : option Column) : outcome (gmap string float64 * string) :=
  leftStatsMap ← parse_side lCol left;
  rightStatsMap ← parse_side rCol right;
  ks ← shape lCol rCol;
  deltaCol ← deltas leftStatsMap rightStatsMap ks;
  Ok (deltaCol, column_status lCol rCol deltaCol).

(** [service.matchColumns]: the positions of a title on both sides, -1 for
    none; of columns with the same title the last one counts. *)
Definition set_left (i : nat) (title : string) (m : gmap string (Z * Z)) : gmap string (Z * Z) :=
  <[title := (Z.of_nat i, from_option snd (-1)%Z (m !! title))]> m.
Definition set_right (i : nat) (title : string) (m : gmap string (Z * Z)) : gmap string (Z * Z) :=
  <[title := (from_option fst (-1)%Z (m !! title), Z.of_nat i)]> m.
Definition index_step (left right : list Column) (m : gmap string (Z * Z)) (i : nat) : gmap string (Z * Z) :=
  let m := match left !! i with Some c => set_left i (col_Title c) m | None => m end in
  match right !! i with Some c => set_right i (col_Title c) m | None => m end.
Definition colIndex (left right : list Column) : gmap string (Z * Z) :=
  foldl (index_step left right) ∅ (seq 0 (length left `max` length right)).

Definition side_at (pos : Z) (stats : list object) (cols : list Column) : outcome (object * option Column) :=
  if decide (0 ≤ pos)%Z then s ← index stats pos; c ← index cols pos; Ok (s, Some c) else Ok (∅, None).
Definition column_change (leftCols rightCols : list Column) (leftStats rightStats : list object)
    (kv : string * (Z * Z)) : outcome ColumnChange :=
  l ← side_at kv.2.1 leftStats leftCols;
  r ← side_at kv.2.2 rightStats rightCols;
  d ← with_message ("failed to calculate stats column delta for " +:+ quoted kv.1)
        (columnStatsDelta l.1 r.1 l.2 r.2);
  Ok (mkColumnChange kv.1 (mkComponent l.1 r.1 d.2) d.1).
Fixpoint columns_loop (leftCols rightCols : list Column) (leftStats rightStats : list object)
    (l : list (string * (Z * Z))) : outcome (list ColumnChange) :=
  match l with
  | [] => Ok []
  | kv :: l =>
      c ← column_change leftCols rightCols leftStats rightStats kv;
      rest ← columns_loop leftCols rightCols leftStats rightStats l;
      Ok (c :: rest)
  end.
Definition matchColumns (leftCols rightCols : list Column) (leftStats rightStats : list object)
    : outcome (list ColumnChange) :=
  columns_loop leftCols rightCols leftStats rightStats (walk (colIndex leftCols rightCols)).

(** [service.statsDiff] *)
Definition summary_delta (left right : option StatsChangeSummaryFields) (leftCount rightCount : nat)
    : StatsChangeSummaryFields :=
  let columns := (Z.of_nat rightCount - Z.of_nat leftCount)%Z in
  match left, right with
  | Some l, Some r =>
      mkSummaryFields (wrap64 (sf_Entries r - sf_Entries l)) columns (wrap64 (sf_TotalSize r - sf_TotalSize l))
  | Some l, None => mkSummaryFields (wrap64 (- sf_Entries l)) columns (wrap64 (- sf_TotalSize l))
  | None, Some r => mkSummaryFields (sf_Entries r) columns (sf_TotalSize r)
  | None, None => mkSummaryFields 0 0 0
  end.
Definition statsDiff (leftDs rightDs : DS) : stM W StatsChangeComponent :=
  l ← st_lift (parseColumns leftDs);
  r ← st_lift (parseColumns rightDs);
  let summary := mkSummary l.1 r.1 (summary_delta l.1 r.1 (length l.2) (length r.2)) in
  leftSt ← maybeLoadStats leftDs;
  rightSt ← maybeLoadStats rightDs;
  leftStats ← st_lift (parseStats leftSt);
  rightStats ← st_lift (parseStats rightSt);
  columns ← st_lift (with_message "failed to calculate stats change report"
                       (matchColumns l.2 r.2 leftStats rightStats));
  mret (mkStatsChange summary columns).

(** ** [service.Report] *)

(** The status of a component: which sides have it, and whether they are the
    same *)
Definition component_status (hasLeft hasRight same : bool) : string :=
  if hasLeft && negb hasRight then STRemoved
  else if negb hasLeft && hasRight then STAdd
  else if hasLeft && hasRight then if same then STUnmodified else STChange
  else STMissing.
Definition report_option {A} (left right : option A) (same : bool) : option (ChangeReportComponent (option A)) :=
  if is_there left || is_there right then
    Some (mkComponent left right (component_status (is_there left) (is_there right) same))
  else None.
Definition report_meta (left right : DS) : option (ChangeReportComponent (option Meta)) :=
  let meta ds := ds_Meta (rd_Dataset ds) in
  if is_there (meta left) || is_there (meta right) then
    let side ds := if rd_MetaIsEmpty ds then None else meta ds in
    Some (mkComponent (side left) (side right)
            (component_status (is_there (side left)) (is_there (side right))
               (bool_decide (rd_MetaPath left = rd_MetaPath right))))
  else None.
Definition report_script (left right : option string) : option (ChangeReportComponent string) :=
  if is_there left || is_there right then
    let l := default "" left in let r := default "" right in
    Some (mkComponent l r (component_status (nonempty l) (nonempty r) (bool_decide (l = r))))
  else None.
Definition check_csv (st : option Structure) : outcome unit :=
  match st with
  | Some s => if decide (st_Format s = "csv") then Ok tt
              else Error (Errorf "changes are only supported for CSV datasets" [])
  | None => Ok tt
  end.

Definition Report (leftRef rightRef : Ref) (loadSource : string) : stM W ChangeReportResponse :=
  leftDs ← LoadDataset leftRef loadSource;
  let rightRef :=
    if decide (ref_Path rightRef = "") then
      mkRef (ref_InitID rightRef) (ref_Username rightRef) (ref_ProfileID rightRef) (ref_Name rightRef)
        (ds_PreviousPath (rd_Dataset leftDs))
    else rightRef in
  rightDs ← LoadDataset rightRef loadSource;
  let left := rd_Dataset leftDs in
  let right := rd_Dataset rightDs in
  let leftVi := ConvertDatasetToVersionInfo left in
  let rightVi := ConvertDatasetToVersionInfo right in
  let versionInfo :=
    mkComponent leftVi rightVi (if decide (vi_Path leftVi = vi_Path rightVi) then STUnmodified else STChange) in
  let commit :=
    report_option (ds_Commit left) (ds_Commit right) (bool_decide (rd_CommitPath leftDs = rd_CommitPath rightDs)) in
  let meta := report_meta leftDs rightDs in
  let readme := report_script (rd_Readme leftDs) (rd_Readme rightDs) in
  st_lift (check_csv (ds_Structure left));;
  st_lift (check_csv (ds_Structure right));;
  let structure :=
    report_option (ds_Structure left) (ds_Structure right)
      (bool_decide (rd_StructurePath leftDs = rd_StructurePath rightDs)) in
  let transform := report_script (rd_Transform leftDs) (rd_Transform rightDs) in
  stats ← statsDiff leftDs rightDs;
  mret (mkResponse versionInfo commit meta readme structure transform stats).
End service.
