(* ===== verification/Friendly.v ===== *)
(** * Descriptions of changes (src/base/friendly/friendly.go)

    The differences between two versions of a dataset, as the [deepdiff]
    package gives them, told in a title and a message. *)
From S2P Require Export Fill.

(** ** [deepdiff]'s differences *)
Inductive Operation : Type :=
| DTDelete | DTInsert | DTUpdate | DTContext | dtReplace | DTOther (text : string).
#[export] Instance Operation_eq_dec : EqDecision Operation.
Proof. solve_decision. Defined.

(** [deepdiff.Delta]; a path is the text of its address. *)
Inductive Delta : Type := mkDelta {
  d_Type : Operation;
  d_Path : string;
  d_Value : data;
  d_Deltas : list Delta;
}.
(** [deepdiff.Stats] *)
Record DiffStats : Type := mkDiffStats {
  df_Left : Z;
  df_Right : Z;
}.

(** [type ComponentChanges struct]; no rows are nil. *)
Record ComponentChanges : Type := mkChanges {
  EntireMessage : string;
  Num : nat;
  Size : Z;
  Rows : list string;
}.
Definition no_changes : ComponentChanges := mkChanges "" 0 0 [].
Definition smallNumberOfChangesToBody : nat := 3.

Definition newline : string := String (ascii_of_nat 10) "".
Definition newline_tab : string := String (ascii_of_nat 10) (String (ascii_of_nat 9) "").

(** [joinPath] *)
Definition joinPath (parent element : string) : string :=
  if decide (parent = "") then element else parent +:+ "." +:+ element.

(** [pastTense] *)
Definition pastTense (op : Operation) : string :=
  match op with
  | DTDelete => "removed"
  | DTInsert => "added"
  | DTUpdate | dtReplace => "updated"
  | DTContext => " "
  | DTOther text => text
  end.

(** [preprocess]: an insertion after a deletion at the same path replaces it. *)
Definition prep_step (build : list Delta) (d : Delta) : list Delta :=
  match last build with
  | Some l =>
      if decide (d_Path l = d_Path d ∧ d_Type l = DTDelete ∧ d_Type d = DTInsert)
      then removelast build ++ [mkDelta dtReplace (d_Path l) (d_Value l) (d_Deltas l)]
      else build ++ [d]
  | None => build ++ [d]
  end.
Fixpoint prep (d : Delta) : Delta :=
  match d with mkDelta t p v ds => mkDelta t p v (foldl prep_step [] (map prep ds)) end.
Definition preprocess (deltas : list Delta) : list Delta := foldl prep_step [] (map prep deltas).

(** [buildChanges]: a row for every change, at any depth *)
Fixpoint delta_rows (parentPath : string) (d : Delta) : list string :=
  match d with
  | mkDelta t p _ ds =>
      (if decide (t = DTContext) then [] else [pastTense t +:+ " " +:+ joinPath parentPath p]) ++
      flat_map (delta_rows (joinPath parentPath p)) ds
  end.
Definition buildChanges (changes : ComponentChanges) (parentPath : string) (deltas : list Delta) : ComponentChanges :=
  mkChanges (EntireMessage changes) (Num changes) (Size changes) (Rows changes ++ flat_map (delta_rows parentPath) deltas).

(** [buildBodyChanges]: changes are counted and sized, and the first three
    described; with more of them there are no rows. *)
Definition value_size (v : data) : Z :=
  match v with VSlice l => Z.of_nat (length l) + 1 | VMap m => Z.of_nat (length m) + 1 | _ => 1 end.
Definition is_change (t : Operation) : bool :=
  match t with DTDelete | DTInsert | DTUpdate | dtReplace => true | _ => false end.
Definition count_change (row : string) (v : data) (changes : ComponentChanges) : ComponentChanges :=
  let n := S (Num changes) in
  mkChanges (EntireMessage changes) n (Size changes + value_size v)
    (if decide (n ≤ smallNumberOfChangesToBody) then Rows changes ++ [row] else []).
Fixpoint body_change (parentPath : string) (changes : ComponentChanges) (d : Delta) : ComponentChanges :=
  match d with
  | mkDelta t p v ds =>
      if is_change t then count_change (pastTense t +:+ " row " +:+ joinPath parentPath p) v changes
      else foldl (body_change (joinPath parentPath p)) changes ds
  end.
Definition buildBodyChanges (changes : ComponentChanges) (parentPath : string) (deltas : list Delta) : ComponentChanges :=
  foldl (body_change parentPath) changes deltas.

(** [buildComponentChanges] *)
Definition head_change (m : gmap string ComponentChanges) (d : Delta) : gmap string ComponentChanges :=
  match d_Type d with
  | DTContext =>
      match d_Deltas d with
      | [] => m
      | ds => <[d_Path d := buildChanges no_changes "" ds]> m
      end
  | DTInsert | DTDelete | dtReplace =>
      let changes := default no_changes (m !! d_Path d) in
      <[d_Path d := mkChanges (pastTense (d_Type d)) (Num changes) (Size changes) (Rows changes)]> m
  | _ => m
  end.
Definition buildComponentChanges (headDeltas bodyDeltas : list Delta) (bodyStats : option DiffStats) (assumeBodyChanged : bool)
    : gmap string ComponentChanges :=
  let m := foldl head_change ∅ headDeltas in
  if assumeBodyChanged then <["body" := mkChanges "changed" 0 0 []]> m
  else
    match bodyDeltas, bodyStats with
    | _ :: _, Some _ =>
        let bodyChanges := buildBodyChanges no_changes "" bodyDeltas in
        if decide (0 < Num bodyChanges) then <["body" := bodyChanges]> m else m
    | _, _ => m
    end.

(** ** [DiffDescriptions]

    The message of one component, and the title it would have alone; a change
    of the body in per cent of the larger side divides by nothing when both
    sides are empty. *)
Definition percentChange (changes : ComponentChanges) (bodyStats : option DiffStats) : outcome Z :=
  match bodyStats with
  | None => Panic
  | Some s =>
      let divisor := if decide (df_Left s < df_Right s)%Z then df_Right s else df_Left s in
      if decide (divisor = 0)%Z then Panic else Ok (Z.quot (100 * Size changes) divisor)
  end.
Definition rows_message (compName : string) (rows : list string) : string :=
  foldl (λ msg r, msg +:+ newline_tab +:+ r) (compName +:+ ":") rows.
Definition component_message (compName : string) (changes : ComponentChanges) (bodyStats : option DiffStats) (shortTitle : string)
    : outcome (string * string) :=
  if decide (EntireMessage changes ≠ "") then
    let msg := compName +:+ " " +:+ EntireMessage changes in Ok (msg, msg)
  else if decide (compName = "body") then
    match Rows changes with
    | [] =>
        percent ← percentChange changes bodyStats;
        let action := "changed by " +:+ strconv_Itoa percent +:+ "%" in
        Ok (compName +:+ ":" +:+ newline_tab +:+ action, compName +:+ " " +:+ action)
    | rows => Ok (rows_message compName rows, compName +:+ " " +:+ strings_Join rows " and ")
    end
  else
    match Rows changes with
    | [] => Ok ("", shortTitle)
    | [row] => Ok (compName +:+ ":" +:+ newline_tab +:+ row, compName +:+ " " +:+ row)
    | rows =>
        Ok (rows_message compName rows,
            compName +:+ " updated " +:+ strconv_Itoa (Z.of_nat (length rows)) +:+ " fields")
    end.

(** The loop over the components that are told about: the title, the message
    and the names so far *)
Definition componentsToCheck : list string := ["meta"; "structure"; "readme"; "viz"; "transform"; "body"].
Fixpoint describe (m : gmap string ComponentChanges) (bodyStats : option DiffStats) (names : list string)
    (acc : string * string * list string) : outcome (string * string * list string) :=
  match names with
  | [] => Ok acc
  | compName :: names =>
      match m !! compName with
      | None => describe m bodyStats names acc
      | Some changes =>
          let '(shortTitle, longMessage, changed) := acc in
          r ← component_message compName changes bodyStats shortTitle;
          describe m bodyStats names
            (r.2, if decide (longMessage = "") then r.1 else longMessage +:+ newline +:+ r.1, changed ++ [compName])
      end
  end.

(** The title of several components lists their names. *)
Fixpoint list_names (text : string) (names : list string) : string :=
  match names with
  | [] => text
  | [compName] => text +:+ "and " +:+ compName
  | compName :: names => list_names (text +:+ compName +:+ ", ") names
  end.
Definition title_of (shortTitle : string) (changed : list string) : string :=
  match changed with
  | [a; b] => "updated " +:+ a +:+ " and " +:+ b
  | _ :: _ :: _ :: _ => list_names "updated " changed
  | _ => shortTitle
  end.

Definition DiffDescriptions (headDeltas bodyDeltas : list Delta) (bodyStats : option DiffStats) (assumeBodyChanged : bool)
    : outcome (string * string) :=
  match headDeltas, bodyDeltas with
  | [], [] => Ok ("", "")
  | _, _ =>
      let perComponentChanges :=
        buildComponentChanges (preprocess headDeltas) (preprocess bodyDeltas) bodyStats assumeBodyChanged in
      r ← describe perComponentChanges bodyStats componentsToCheck ("", "", []);
      let '(shortTitle, longMessage, changed) := r in
      Ok (title_of shortTitle changed, longMessage)
  end.

(** A change of two components *)
Example describe_two :
  DiffDescriptions
    [mkDelta DTContext "meta" VNil [mkDelta DTDelete "title" (VString "abc") []; mkDelta DTInsert "title" (VString "def") []];
     mkDelta DTContext "structure" VNil
       [mkDelta DTContext "formatConfig" VNil
          [mkDelta DTDelete "headerRow" (VBool false) []; mkDelta DTInsert "headerRow" (VBool true) []]]] [] None false =
  Ok ("updated meta and structure",
      "meta:" +:+ newline_tab +:+ "updated title" +:+ newline +:+ "structure:" +:+ newline_tab +:+
      "updated formatConfig.headerRow").
Proof. reflexivity. Qed.
