(* ===== verification/Commit.v ===== *)
(** * Commits of datasets (src/base/dsfs/commit.go, dataset.go, package.go)

    What a save checks and writes before a version is stored: whether anything
    changed, which components became references to files, and the title and
    message of the commit. What the [dataset], [deepdiff] and [dsio] packages
    do is the environment's. *)
From S2P Require Export Dsref Friendly.

Definition ErrNoChanges : error := ErrSentinel "no changes".
Definition ErrStrictMode : error := ErrSentinel "dataset body did not validate against schema in strict-mode".

(** ** Package files (package.go) *)
Inductive PackageFile : Type :=
| PackageFileUnknown | PackageFileDataset | PackageFileStructure | PackageFileAbstract | PackageFileResources
| PackageFileCommit | PackageFileTransform | PackageFileAbstractTransform | PackageFileMeta | PackageFileViz
| PackageFileVizScript | PackageFileRenderedViz | PackageFileReadme | PackageFileReadmeScript
| PackageFileRenderedReadme | PackageFileStats.
#[export] Instance PackageFile_eq_dec : EqDecision PackageFile.
Proof. solve_decision. Defined.
Definition PackageFile_String (p : PackageFile) : string :=
  match p with
  | PackageFileUnknown => ""
  | PackageFileDataset => "dataset.json"
  | PackageFileStructure => "structure.json"
  | PackageFileAbstract => "abstract.json"
  | PackageFileAbstractTransform => "abstract_transform.json"
  | PackageFileResources => "resources"
  | PackageFileCommit => "commit.json"
  | PackageFileTransform => "transform.json"
  | PackageFileMeta => "meta.json"
  | PackageFileViz => "viz.json"
  | PackageFileVizScript => "viz_script"
  | PackageFileRenderedViz => "index.html"
  | PackageFileReadme => "readme.json"
  | PackageFileReadmeScript => "readme.md"
  | PackageFileRenderedReadme => "readme.html"
  | PackageFileStats => "stats.json"
  end.
Definition Filename (p : PackageFile) : string := "/" +:+ PackageFile_String p.

(** ** Datasets, as a save reads and changes them

    [C] is what a component holds besides the fields named here. *)
Record CStructure {C : Type} : Type := mkCStructure { cs_Path : string; cs_Length : Z; cs_Rest : C }.
Record CComponent {C : Type} : Type := mkCComponent { cc_Path : string; cc_Rest : C }.
Record CViz {C : Type} : Type := mkCViz { cv_Path : string; cv_ScriptPath : string; cv_RenderedPath : string; cv_Rest : C }.
Record Script {C : Type} : Type := mkScript { sc_ScriptPath : string; sc_ScriptBytes : string; sc_Rest : C }.
Arguments CStructure : clear implicits.
Arguments CComponent : clear implicits.
Arguments CViz : clear implicits.
Arguments Script : clear implicits.
Arguments mkCStructure {C}.
Arguments mkCComponent {C}.
Arguments mkCViz {C}.
Arguments mkScript {C}.
Record CDataset {C : Type} : Type := mkCDataset {
  cd_Commit : option Commit;
  cd_Structure : option (CStructure C);
  cd_Meta : option (CComponent C);
  cd_Stats : option (CComponent C);
  cd_Viz : option (CViz C);
  cd_Readme : option (Script C);
  cd_Transform : option (Script C);
  cd_BodyPath : string;
  cd_BodyFile : option string;
  cd_Body : data;
  cd_Rest : C;
}.
Arguments CDataset : clear implicits.
Arguments mkCDataset {C}.

(** The packages a commit is made with; a script that cannot be opened is
    [None], one whose reading fails half way is what was read of it. *)
Class CommitEnv (C : Type) : Type := {
  no_contents : C;
  ds_IsEmpty : CDataset C → bool;
  Viz_ShallowCompare : option (CViz C) → option (CViz C) → bool;
  Readme_ShallowCompare : option (Script C) → option (Script C) → bool;
  Transform_ShallowCompare : option (Script C) → option (Script C) → bool;
  PathMap : CDataset C → list string → gmap string string;
  StructToMap : CDataset C → outcome (gmap string data);
  StatDiff : data → data → outcome (list Delta * option DiffStats);
  read_script : string → option string;
  read_entries : CStructure C → string → option data;
}.

(** [BodyAction] *)
Inductive BodyAction : Type := BodyDefault | BodySame | BodyTooBig.
#[export] Instance BodyAction_eq_dec : EqDecision BodyAction.
Proof. solve_decision. Defined.
Definition BodySizeSmallEnoughToDiff : Z := 20000000.
Definition defaultCreatedDescription : string := "created dataset".

(** [filepath.Base] *)
Definition filepath_Base (path : string) : string :=
  if decide (path = "") then "."
  else
    let is_slash c := bool_decide (c = "/"%char) in
    let fix strip l := match l with c :: l' => if is_slash c then strip l' else l | [] => [] end in
    let fix take_name l := match l with c :: l' => if is_slash c then [] else c :: take_name l' | [] => [] end in
    match take_name (strip (reverse (bytes path))) with
    | [] => "/"
    | name => of_bytes (reverse name)
    end.

Section commit.
Context {C : Type} `{E : !CommitEnv C, W : !MapWalk}.
Abbreviation DS := (CDataset C).

Definition set_Commit (c : option Commit) (ds : DS) : DS :=
  mkCDataset c (cd_Structure ds) (cd_Meta ds) (cd_Stats ds) (cd_Viz ds) (cd_Readme ds) (cd_Transform ds)
    (cd_BodyPath ds) (cd_BodyFile ds) (cd_Body ds) (cd_Rest ds).
Definition set_scripts (readme transform : option (Script C)) (ds : DS) : DS :=
  mkCDataset (cd_Commit ds) (cd_Structure ds) (cd_Meta ds) (cd_Stats ds) (cd_Viz ds) readme transform
    (cd_BodyPath ds) (cd_BodyFile ds) (cd_Body ds) (cd_Rest ds).
Definition set_Viz (viz : option (CViz C)) (ds : DS) : DS :=
  mkCDataset (cd_Commit ds) (cd_Structure ds) (cd_Meta ds) (cd_Stats ds) viz (cd_Readme ds) (cd_Transform ds)
    (cd_BodyPath ds) (cd_BodyFile ds) (cd_Body ds) (cd_Rest ds).
Definition set_Body (body : data) (ds : DS) : DS :=
  mkCDataset (cd_Commit ds) (cd_Structure ds) (cd_Meta ds) (cd_Stats ds) (cd_Viz ds) (cd_Readme ds) (cd_Transform ds)
    (cd_BodyPath ds) (cd_BodyFile ds) body (cd_Rest ds).
Definition set_refs (structure : option (CStructure C)) (meta stats : option (CComponent C)) (bodyPath : string) (ds : DS) : DS :=
  mkCDataset (cd_Commit ds) structure meta stats (cd_Viz ds) (cd_Readme ds) (cd_Transform ds)
    bodyPath (cd_BodyFile ds) (cd_Body ds) (cd_Rest ds).
Definition empty_dataset : DS := mkCDataset None None None None None None None "" None VNil no_contents.

(** ** References to files *)

(** [updateScriptPaths]; a script without its component panics. *)
Definition script_path (ds : DS) (kv : string * string) : outcome DS :=
  let '(file, addr) := kv in
  if decide (file = Filename PackageFileVizScript) then
    match cd_Viz ds with
    | Some v => Ok (set_Viz (Some (mkCViz (cv_Path v) addr (cv_RenderedPath v) (cv_Rest v))) ds)
    | None => Panic
    end
  else if decide (file = Filename PackageFileRenderedViz) then
    match cd_Viz ds with
    | Some v => Ok (set_Viz (Some (mkCViz (cv_Path v) (cv_ScriptPath v) addr (cv_Rest v))) ds)
    | None => Panic
    end
  else if decide (file = Filename PackageFileReadmeScript) then
    match cd_Readme ds with
    | Some r => Ok (set_scripts (Some (mkScript addr (sc_ScriptBytes r) (sc_Rest r))) (cd_Transform ds) ds)
    | None => Panic
    end
  else Ok ds.
Fixpoint script_paths (ds : DS) (l : list (string * string)) : outcome DS :=
  match l with [] => Ok ds | kv :: l => ds ← script_path ds kv; script_paths ds l end.
Definition updateScriptPaths (ds : DS) (added : gmap string string) : outcome DS := script_paths ds (walk added).

(** [replaceComponentsWithRefs] *)
Definition component_ref (bodyPathName : string) (ds : DS) (kv : string * string) : DS :=
  let '(file, addr) := kv in
  if decide (file = Filename PackageFileStructure) then
    set_refs (Some (mkCStructure addr 0 no_contents)) (cd_Meta ds) (cd_Stats ds) (cd_BodyPath ds) ds
  else if decide (file = Filename PackageFileViz) then set_Viz (Some (mkCViz addr "" "" no_contents)) ds
  else if decide (file = Filename PackageFileMeta) then
    set_refs (cd_Structure ds) (Some (mkCComponent addr no_contents)) (cd_Stats ds) (cd_BodyPath ds) ds
  else if decide (file = Filename PackageFileStats) then
    set_refs (cd_Structure ds) (cd_Meta ds) (Some (mkCComponent addr no_contents)) (cd_BodyPath ds) ds
  else if decide (file = bodyPathName) then set_refs (cd_Structure ds) (cd_Meta ds) (cd_Stats ds) addr ds
  else ds.
Definition replaceComponentsWithRefs (ds : DS) (added : gmap string string) (bodyPathName : string) : DS :=
  foldl (component_ref bodyPathName) ds (walk added).

(** ** [confirmByteChangesExist]

    A forced save is told so where its commit says nothing else. *)
Definition with_default (s d : string) : string := if decide (s = "") then d else s.
Definition describe_commit (title message : string) (c : Commit) : Commit :=
  mkCommit (cm_Timestamp c) (with_default (cm_Title c) title) (with_default (cm_Message c) message) (cm_RunID c).
Definition refs_differ (refs others : gmap string string) : bool :=
  existsb (λ kp, negb (bool_decide (default "" (others !! kp.1) = kp.2))) (walk refs).
Definition confirmByteChangesExist (ds : DS) (prev : option DS) (added : gmap string string) (bodyPathName : string)
    (force : bool) : outcome DS :=
  if force then
    match cd_Commit ds with
    | None => Panic
    | Some c => Ok (set_Commit (Some (describe_commit "forced update" "forced update" c)) ds)
    end
  else
    match prev with
    | None => Ok ds
    | Some prev =>
        if negb (Viz_ShallowCompare (cd_Viz ds) (cd_Viz prev)) then Ok ds
        else if negb (Readme_ShallowCompare (cd_Readme ds) (cd_Readme prev)) then Ok ds
        else if negb (Transform_ShallowCompare (cd_Transform ds) (cd_Transform prev)) then Ok ds
        else
          let prevRefs := PathMap prev ["dataset"; "commit"] in
          let nextRefs := PathMap (replaceComponentsWithRefs empty_dataset added bodyPathName) [] in
          if refs_differ nextRefs prevRefs then Ok ds
          else if refs_differ prevRefs nextRefs then Ok ds
          else Error ErrNoChanges
    end.

(** ** [generateCommitDescriptions] *)

(** The body of the previous version, when it is small enough, and the texts
    of scripts are read into the datasets first; a body that cannot
    be read is left out, and so is a script that cannot be opened. *)
Definition inline_body (bodyAct : BodyAction) (prev : DS) : DS :=
  if decide (bodyAct = BodySame) then prev
  else
    match cd_Structure prev, cd_BodyFile prev with
    | Some st, Some file =>
        if decide (cs_Length st < BodySizeSmallEnoughToDiff)%Z then
          match read_entries st file with Some body => set_Body body prev | None => prev end
        else prev
    | _, _ => prev
    end.
Definition inline_script (s : option (Script C)) : option (Script C) :=
  match s with
  | Some sc =>
      if decide (sc_ScriptPath sc = "") then s
      else match read_script (sc_ScriptPath sc) with
           | Some text => Some (mkScript (sc_ScriptPath sc) text (sc_Rest sc))
           | None => s
           end
  | None => None
  end.
Definition inline_scripts (ds : DS) : DS :=
  set_scripts (inline_script (cd_Readme ds)) (inline_script (cd_Transform ds)) ds.

(** What differs without a change is taken out of the data. *)
Definition delete_keys (ks : list string) (v : data) : data :=
  match v with VMap m => VMap (filter (λ kv, kv.1 ∉ ks) m) | _ => v end.
Definition checksum (m : gmap string data) : string :=
  match m !! "structure" with
  | Some (VMap o) =>
      match snd <$> find_index_from (λ kv, bool_decide (kv.1 = "checksum")) 0 o with
      | Some (_, VString s) => s
      | _ => ""
      end
  | _ => ""
  end.
Definition comparable_data (m : gmap string data) : gmap string data :=
  alter (delete_keys ["checksum"; "entries"; "length"; "depth"; "path"]) "structure"
    (alter (delete_keys ["path"; "qri"]) "meta"
       (alter (delete_keys ["scriptPath"]) "readme"
          (alter (delete_keys ["scriptPath"]) "transform" (delete "body" m)))).
Definition data_of (m : gmap string data) : data := VMap (map_to_list m).

(** The differences of the bodies, where both are there, and of the rest,
    described *)
Definition diff_bodies (prevBody nextBody : data) : outcome (list Delta * option DiffStats) :=
  match prevBody, nextBody with
  | VNil, _ | _, VNil => Ok ([], None)
  | _, _ => StatDiff prevBody nextBody
  end.
Definition describe_data (bodyAct : BodyAction) (force : bool) (prevData nextData : gmap string data) : outcome (string * string) :=
  let body (m : gmap string data) :=
    if decide (bodyAct = BodyDefault) then default VNil (m !! "body") else VNil in
  let assumeBodyChanged :=
    bool_decide (bodyAct = BodyTooBig ∧ checksum prevData ≠ checksum nextData) in
  head ← StatDiff (data_of (comparable_data prevData)) (data_of (comparable_data nextData));
  bodies ← diff_bodies (body prevData) (body nextData);
  r ← DiffDescriptions head.1 bodies.1 bodies.2 assumeBodyChanged;
  if decide (r.1 = "") then
    if force then Ok ("forced update", "forced update") else Error ErrNoChanges
  else Ok r.

Definition generateCommitDescriptions (bodyAct : BodyAction) (force : bool) : stM (DS * option DS) (string * string) := λ s,
  let '(ds, prev) := s in
  match prev with
  | None => (Ok (defaultCreatedDescription, defaultCreatedDescription), s)
  | Some prev =>
      if ds_IsEmpty prev then (Ok (defaultCreatedDescription, defaultCreatedDescription), s)
      else
        let prev := inline_scripts (inline_body bodyAct prev) in
        let ds := inline_scripts ds in
        (prevData ← StructToMap prev; nextData ← StructToMap ds; describe_data bodyAct force prevData nextData,
         (ds, Some prev))
  end.

(** [ensureCommitTitleAndMessage] *)
Definition from_hint (fileHint text : string) : string :=
  if decide (text = defaultCreatedDescription ∧ fileHint ≠ "")
  then text +:+ " from " +:+ filepath_Base fileHint else text.
Definition ensureCommitTitleAndMessage (bodyAct : BodyAction) (fileHint : string) (forceIfNoChanges : bool)
    : stM (DS * option DS) unit := λ s,
  match cd_Commit s.1 with
  | None => (Panic, s)
  | Some c =>
      if decide (cm_Title c ≠ "" ∧ cm_Message c ≠ "") then (Ok tt, s)
      else
        match generateCommitDescriptions bodyAct forceIfNoChanges s with
        | (Ok (shortTitle, longMessage), (ds, prev)) =>
            let c' := describe_commit (from_hint fileHint shortTitle) (from_hint fileHint longMessage) c in
            (Ok tt, (set_Commit (Some c') ds, prev))
        | (Error e, s) => (Error e, s)
        | (Panic, s) => (Panic, s)
        end
  end.

(** The hook of the commit file over a body whose fields are computed, up to
    its signature: the scripts' paths, the check for changes, the descriptions,
    and the references that stay *)
Definition wrap_saving {A} (m : outcome A) : outcome A :=
  match m with Error e => Error (ErrWrap "error saving: %w" [] e) | _ => m end.
Definition commit_hook (added : gmap string string) (bodyPathName : string) (bodyAct : BodyAction) (fileHint : string)
    (force : bool) : stM (DS * option DS) unit :=
  s ← st_get;
  ds ← st_lift (updateScriptPaths s.1 added);
  st_modify (λ _, (ds, s.2));;
  ds ← st_lift (wrap_saving (confirmByteChangesExist ds s.2 added bodyPathName force));
  st_modify (λ _, (ds, s.2));;
  (λ s, let '(r, s') := ensureCommitTitleAndMessage bodyAct fileHint force s in (wrap_saving r, s'));;
  st_modify (λ s, (replaceComponentsWithRefs s.1 added bodyPathName, s.2)).
End commit.
