(* ===== verification/ComputeFields.v ===== *)
(** * Fields computed from a body (src/base/dsfs/compute_fields.go)

    While the body of a dataset is stored its entries are read, counted,
    measured, validated in batches, and kept for the description of the commit
    as long as the body is small. Reading entries, validation against a schema
    and statistics are the environment's; the pipe between the reader and the
    store is not modelled. *)
From S2P Require Export Commit.

(** [getDepth] *)
Fixpoint getDepth (x : data) : nat :=
  match x with
  | VMap m => S ((fix go (m : list (string * data)) := match m with [] => 0 | kv :: m => getDepth kv.2 `max` go m end) m)
  | VSlice l => S ((fix go (l : list data) := match l with [] => 0 | v :: l => getDepth v `max` go l end) l)
  | _ => 0
  end.

Definition batchSize : nat := 5000.

(** What rows are processed with: the number of validation errors of a batch,
    the accumulator of statistics, and how many bytes were read when a row was *)
Class RowEnv (Acc : Type) : Type := {
  validate_batch : list data → outcome nat;
  NewAccumulator : Acc;
  acc_WriteEntry : Acc → data → outcome Acc;
  bytes_read : nat → Z;
}.

Section rows.
Context {Acc : Type} `{E : !RowEnv Acc}.

(** [type computeFieldsFile struct], with the variables of [handleRows] *)
Record computing : Type := mkComputing {
  batches : nat;
  bodyAct : BodyAction;
  diffMessageBuf : option (list data);
  batchBuf : list data;
  valErrorCount : nat;
  entries : nat;
  depth : nat;
  acc : Acc;
}.
Definition start_computing : computing := mkComputing 0 BodyDefault (Some []) [] 0 0 0 NewAccumulator.

(** [flushBatch]: the errors of the batch are added up, and a body that has
    grown too large is no longer kept; in strict mode an error is the end. *)
Definition flushBatch (strict : bool) (c : computing) : outcome computing :=
  let too_big := is_there (diffMessageBuf c) && bool_decide (BodySizeSmallEnoughToDiff < bytes_read (entries c))%Z in
  n ← validate_batch (batchBuf c);
  if strict && bool_decide (0 < n) then
    Error (ErrWrap "%w. found at least %d errors" [strconv_Itoa (Z.of_nat n)] ErrStrictMode)
  else
    Ok (mkComputing (S (batches c)) (if too_big then BodyTooBig else bodyAct c)
          (if too_big then None else diffMessageBuf c) [] (valErrorCount c + n) (entries c) (depth c) (acc c)).

(** One entry, the [i]-th; one that cannot be read is an error. *)
Definition row_step (strict : bool) (i : nat) (row : outcome data) (c : computing) : outcome computing :=
  match row with
  | Error e => Error (ErrWrap "reading row %d: %w" [strconv_Itoa (Z.of_nat i)] e)
  | Panic => Panic
  | Ok ent =>
      a ← acc_WriteEntry (acc c) ent;
      let c := mkComputing (batches c) (bodyAct c) (diffMessageBuf c) (batchBuf c) (valErrorCount c) (S (entries c))
                 (depth c `max` getDepth ent) a in
      c ← (if decide (i mod batchSize = 0 ∧ i ≠ 0) then flushBatch strict c else Ok c);
      Ok (mkComputing (batches c) (bodyAct c) ((λ l, l ++ [ent]) <$> diffMessageBuf c) (batchBuf c ++ [ent])
            (valErrorCount c) (entries c) (depth c) (acc c))
  end.
Fixpoint rows_loop (strict : bool) (i : nat) (rows : list (outcome data)) (c : computing) : outcome computing :=
  match rows with
  | [] => Ok c
  | row :: rows => c ← row_step strict i row c; rows_loop strict (S i) rows c
  end.

(** [handleRows]: the fields of the structure, the body when it is small, and
    what is to be done about it *)
Record computed : Type := mkComputed {
  f_ErrCount : nat;
  f_Entries : nat;
  f_Depth : nat;
  f_Length : Z;
  f_Body : option (list data);
  f_bodyAct : BodyAction;
  f_acc : Acc;
}.
Definition handleRows (strict : bool) (rows : list (outcome data)) : outcome computed :=
  c ← match rows_loop strict 0 rows start_computing with
      | Error e => Error (ErrWrap "processing body data: %w" [] e)
      | r => r
      end;
  c ← flushBatch strict c;
  Ok (mkComputed (valErrorCount c) (entries c) (S (depth c)) (bytes_read (entries c)) (diffMessageBuf c) (bodyAct c) (acc c)).
End rows.

(** * Theorems of computed fields

    Every entry is counted, measured and validated once, in batches of a
    bounded size, and a small body is kept as it was read. *)
Section spec.
Context {Acc : Type} `{E : !RowEnv Acc}.

(** The deepest of some values *)
Definition max_depth (l : list data) : nat := foldr (λ v n, getDepth v `max` n) 0 l.
Lemma getDepth_slice l : getDepth (VSlice l) = S (max_depth l).
Proof. reflexivity. Qed.
Lemma max_depth_snoc l v : max_depth (l ++ [v]) = max_depth l `max` getDepth v.
Proof. unfold max_depth. induction l as [|x l IH]; cbn; [lia|]. rewrite IH. lia. Qed.

Definition batch_errors (b : list data) (n : nat) : Prop := validate_batch b = Ok n.

(** After the rows [ents], with the batches [bs] flushed and their numbers of
    errors *)
Record computing_of (strict : bool) (ents : list data) (bs : list (list data)) (ns : list nat) (c : @computing Acc) : Prop := {
  co_rows : concat bs ++ batchBuf c = ents;
  co_full : Forall (λ b, length b = batchSize) bs;
  co_buffer : length (batchBuf c) ≤ batchSize ∧ (batchBuf c = [] → ents = []);
  co_errors : Forall2 batch_errors bs ns;
  co_count : valErrorCount c = sum_list ns ∧ (strict = true → valErrorCount c = 0);
  co_entries : entries c = length ents;
  co_depth : depth c = max_depth ents;
  co_body : (diffMessageBuf c = Some ents ∧ bodyAct c = BodyDefault) ∨ (diffMessageBuf c = None ∧ bodyAct c = BodyTooBig);
}.

Lemma concat_full bs : Forall (λ b : list data, length b = batchSize) bs → length (concat bs) = batchSize * length bs.
Proof. induction 1 as [|b bs Hb _ IH]; cbn [concat]; [cbn; lia|]. rewrite length_app, Hb, IH. cbn [length]. lia. Qed.

Lemma flush_Ok strict (c : @computing Acc) n : validate_batch (batchBuf c) = Ok n → (strict = true → n = 0) →
  ∃ c', flushBatch strict c = Ok c' ∧ batchBuf c' = [] ∧ valErrorCount c' = valErrorCount c + n ∧ entries c' = entries c ∧
    depth c' = depth c ∧ acc c' = acc c ∧
    (diffMessageBuf c' = diffMessageBuf c ∧ bodyAct c' = bodyAct c ∨ diffMessageBuf c' = None ∧ bodyAct c' = BodyTooBig).
Proof.
  intros Hv Hn. unfold flushBatch. rewrite Hv. cbn [mbind outcome_bind].
  assert (strict && bool_decide (0 < n) = false) as ->.
  { destruct strict; [|done]. rewrite Hn by done. done. }
  eexists. split; [done|]. cbn. split_and!; try done. destruct (_ && _); auto.
Qed.

(** Batches can be validated, and, in strict mode, have no errors. *)
Context (strict : bool) (Hvalidate : ∀ b, ∃ n, validate_batch b = Ok n ∧ (strict = true → n = 0)).
Context (Hacc : ∀ a v, ∃ a', acc_WriteEntry a v = Ok a').

Lemma flush_full ents bs ns c : computing_of strict ents bs ns c →
  ∃ c' n, flushBatch strict c = Ok c' ∧ batchBuf c' = [] ∧ acc c' = acc c ∧ batch_errors (batchBuf c) n ∧
    concat (bs ++ [batchBuf c]) = ents ∧ Forall2 batch_errors (bs ++ [batchBuf c]) (ns ++ [n]) ∧
    valErrorCount c' = sum_list (ns ++ [n]) ∧ (strict = true → valErrorCount c' = 0) ∧
    entries c' = entries c ∧ depth c' = depth c ∧
    (diffMessageBuf c' = Some ents ∧ bodyAct c' = BodyDefault ∨ diffMessageBuf c' = None ∧ bodyAct c' = BodyTooBig).
Proof.
  intros [Hrows _ _ Herr [Hcount Hz] _ _ Hbody]. destruct (Hvalidate (batchBuf c)) as (n & Hn & Hstrict).
  destruct (flush_Ok strict c n Hn Hstrict) as (c' & -> & H1 & H2 & H3 & H4 & H5 & H6). exists c', n.
  rewrite concat_app. cbn [concat]. rewrite app_nil_r. split_and!; try done.
  - apply Forall2_app; [done|]. by constructor.
  - rewrite H2, Hcount, sum_list_with_app. cbn. lia.
  - intros Hs. rewrite H2, Hz, Hstrict by done. done.
  - destruct H6 as [[-> ->]|?]; [done|by right].
Qed.

Lemma row_Ok ents bs ns c v : computing_of strict ents bs ns c →
  ∃ c' bs' ns', row_step strict (length ents) (Ok v) c = Ok c' ∧ computing_of strict (ents ++ [v]) bs' ns' c'.
Proof.
  intros Hc. unfold row_step. destruct (Hacc (acc c) v) as [a ->]. cbn [mbind outcome_bind].
  set (c1 := mkComputing _ _ _ _ _ _ _ _).
  pose proof Hc as [Hrows Hfull [Hle Hempty] Herr [Hcount Hz] Hent Hdepth Hbody].
  pose proof (concat_full bs Hfull) as Hlen. assert (length ents = batchSize * length bs + length (batchBuf c)) as Hents
    by (rewrite <- Hrows, length_app, Hlen; done).
  assert (length (batchBuf c) = batchSize ∨ length (batchBuf c) < batchSize) as [Hb|Hb] by lia.
  - rewrite decide_True; [|rewrite Hents, Hb; split;
      [by replace (batchSize * length bs + batchSize) with ((length bs + 1) * batchSize) by lia; apply Nat.Div0.mod_mul|unfold batchSize; lia]].
    assert (computing_of strict ents bs ns (mkComputing (batches c) (bodyAct c) (diffMessageBuf c) (batchBuf c) (valErrorCount c)
      (length ents) (max_depth ents) a)) as Hc1 by (by constructor).
    destruct (Hvalidate (batchBuf c)) as (n & Hn & Hstrict).
    destruct (flush_Ok strict c1 n Hn Hstrict) as (c2 & -> & B1 & B2 & B3 & B4 & B5 & B6). cbn [mbind outcome_bind].
    eexists _, (bs ++ [batchBuf c]), (ns ++ [n]). split; [done|]. constructor; cbn.
    + rewrite B1, concat_app. cbn [concat app]. rewrite app_nil_r. by rewrite Hrows.
    + apply Forall_app_2; [done|]. by constructor.
    + rewrite B1. cbn. unfold batchSize. split; [lia|done].
    + apply Forall2_app; [done|]. by constructor.
    + rewrite B2. cbn [valErrorCount c1]. rewrite sum_list_with_app, Hcount. cbn. split; [lia|]. intros Hs. rewrite <- Hcount, Hz, Hstrict by done. done.
    + rewrite B3. cbn. rewrite Hent, length_app. cbn. lia.
    + rewrite B4. cbn. by rewrite Hdepth, max_depth_snoc.
    + destruct B6 as [[-> ->]|[-> ->]]; cbn; [destruct Hbody as [[-> ->]|[-> ->]]|]; auto.
  - rewrite decide_False.
    + cbn [mbind outcome_bind]. eexists _, bs, ns. split; [done|]. constructor; cbn; try done.
      * by rewrite app_assoc, Hrows.
      * rewrite length_app. cbn. split; [lia|]. by intros [_ ?]%app_eq_nil.
      * rewrite Hent, length_app. cbn. lia.
      * by rewrite Hdepth, max_depth_snoc.
      * destruct Hbody as [[-> ->]|[-> ->]]; auto.
    + intros [Hmod Hne]. rewrite Hents, Nat.add_comm, Nat.mul_comm, Nat.Div0.mod_add, Nat.mod_small in Hmod by lia.
      apply length_zero_iff_nil in Hmod. by rewrite (Hempty Hmod) in Hne.
Qed.

Lemma rows_Ok rows ents bs ns c : computing_of strict ents bs ns c →
  ∃ c' bs' ns', rows_loop strict (length ents) (map Ok rows) c = Ok c' ∧ computing_of strict (ents ++ rows) bs' ns' c'.
Proof.
  revert ents bs ns c. induction rows as [|v rows IH]; intros ents bs ns c Hc; cbn [map rows_loop].
  { exists c, bs, ns. by rewrite app_nil_r. }
  destruct (row_Ok ents bs ns c v Hc) as (c1 & bs1 & ns1 & -> & Hc1). cbn [mbind outcome_bind].
  destruct (IH _ _ _ _ Hc1) as (c2 & bs2 & ns2 & Hrun & Hc2). rewrite length_app, Nat.add_1_r in Hrun.
  exists c2, bs2, ns2. by rewrite <- app_assoc in Hc2.
Qed.

(** C34: fields are computed from every entry. When every entry can be read, and
    batches be validated, in strict mode without an error, the fields are
    computed: the number of entries, the depth of the body as a whole, and the
    errors of batches that make up the body in order, each of at most the size
    of a batch; the body is kept exactly as it was read, unless it is too big. *)
Theorem handleRows_computes rows :
  ∃ r bs ns, handleRows strict (map Ok rows) = Ok r ∧
    f_Entries r = length rows ∧ f_Depth r = getDepth (VSlice rows) ∧
    concat bs = rows ∧ Forall (λ b, length b ≤ batchSize) bs ∧ Forall2 batch_errors bs ns ∧
    f_ErrCount r = sum_list ns ∧ (strict = true → f_ErrCount r = 0) ∧
    (f_Body r = Some rows ∧ f_bodyAct r = BodyDefault ∨ f_Body r = None ∧ f_bodyAct r = BodyTooBig).
Proof.
  assert (computing_of strict [] [] [] start_computing) as Hstart.
  { constructor; cbn; auto; [split; [unfold batchSize; lia|done]]. }
  destruct (rows_Ok rows [] [] [] start_computing Hstart) as (c & bs & ns & Hrun & Hc). cbn [length app] in *.
  destruct (flush_full rows bs ns c Hc) as (c' & n & Hflush & _ & _ & _ & H1 & H2 & H3 & H4 & H5 & H6 & H7).
  unfold handleRows. rewrite Hrun. cbn [mbind outcome_bind]. rewrite Hflush. cbn [mbind outcome_bind].
  eexists _, (bs ++ [batchBuf c]), (ns ++ [n]). split; [done|]. cbn [f_Entries f_Depth f_ErrCount f_Body f_bodyAct].
  destruct Hc as [_ Hfull [Hle _] _ _ Hent Hdepth _]. rewrite H5, H6, Hent, Hdepth, getDepth_slice.
  split_and!; try done. apply Forall_app_2; [|by constructor]. eapply Forall_impl; [exact Hfull|]. cbn. lia.
Qed.
End spec.

(** A row that cannot be read ends the computation with its position. *)
Theorem handleRows_unread {Acc} `{!RowEnv Acc} strict e rows :
  handleRows strict (Error e :: rows) = Error (ErrWrap "processing body data: %w" [] (ErrWrap "reading row %d: %w" ["0"] e)).
Proof. reflexivity. Qed.

Module RowsDemo.
(** Rows of one field, an empty one being an error *)
#[local] Instance demo_rows : RowEnv nat := {|
  validate_batch := λ b, Ok (length (List.filter (λ v, match v with VSlice [] => true | _ => false end) b));
  NewAccumulator := 0;
  acc_WriteEntry := λ n _, Ok (S n);
  bytes_read := λ n, Z.of_nat (10 * n);
|}.
Lemma handleRows_computes_witness : ∃ r, handleRows false (map Ok [VSlice [VString "a"]; VSlice []]) = Ok r ∧ f_Entries r = 2.
Proof.
  destruct (handleRows_computes false ltac:(intros b; by eexists) ltac:(intros a v; by eexists) [VSlice [VString "a"]; VSlice []])
    as (r & _ & _ & Hr & Hent & _). by exists r.
Defined.
End RowsDemo.
