(* ===== verification/DatasetFiles.v ===== *)
(** * Datasets as files (src/base/dsfs/dataset.go, meta.go, structure.go, ...)

    A stored dataset is a package of files; its components are inlined or
    references to files that are read on demand. Writing plans which files
    there are and which of them each one waits for. JSON, the filesystem and
    writing with hooks are the environment's. *)
From S2P Require Export Commit.

(** ** Components and references to them

    A component is its path and, unless it is empty, what it holds. *)
Record Component {K : Type} : Type := mkComponentRef {
  co_Path : string;
  co_Contents : option K;
}.
Arguments Component : clear implicits.
Arguments mkComponentRef {K}.
Inductive kind : Type := KMeta | KStructure | KTransform | KViz | KReadme | KStats | KCommit.
#[export] Instance kind_eq_dec : EqDecision kind.
Proof. solve_decision. Defined.

(** The dataset of components; [K] is what any of them holds. *)
Record StoredDataset {K : Type} : Type := mkStored {
  sd_Path : string;
  sd_component : kind → option (Component K);
}.
Arguments StoredDataset : clear implicits.
Arguments mkStored {K}.

(** The filesystem and the [dataset] package's parsers *)
Class DatasetStore (K : Type) : Type := {
  fs_Type : string;
  known_fs_types : list string;
  fs_read : string → outcome string;
  UnmarshalDataset : string → outcome (kind → option (Component K));
  Unmarshal : kind → string → outcome (option K);
}.

(** ** Paths (package.go) *)
Definition trim_slashes (s : string) : string :=
  let fix go l := match l with c :: l' => if bool_decide (c = "/"%char) then go l' else l | [] => [] end in
  of_bytes (go (bytes s)).

Section store.
Context {K : Type} `{E : !DatasetStore K}.

(** [GetHashBase] and [PackageFilepath]; [muxfs.FilestoreType] is [mux]. *)
Definition GetHashBase (s : string) : string :=
  let s := foldl (λ s fsType, strings_TrimPrefix s fsType) (trim_slashes s) known_fs_types in
  default "" (head (strings_Split (trim_slashes s) "/")).
Definition PackageFilepath (mux : string) (path : string) (pf : PackageFile) : string :=
  if decide (fs_Type = mux) then strings_Join [path; PackageFile_String pf] "/"
  else if decide (fs_Type = "") then path
  else strings_Join [""; fs_Type; GetHashBase path; PackageFile_String pf] "/".

(** ** Dereferencing *)

(** The errors of each kind of component: of its file, told as text or wrapped,
    and of the component *)
Definition load_error (k : kind) (e : error) : error :=
  match k with
  | KMeta => ErrWrap "loading metadata file: %w" [] e
  | KStructure => Errorf "error loading structure file: %s" [error_text e]
  | KTransform => Errorf "error loading transform raw data: %s" [error_text e]
  | KViz => Errorf "error loading viz file: %s" [error_text e]
  | KReadme => ErrWrap "error loading readme file: %w" [] e
  | KStats => ErrWrap "loading stats file: %w" [] e
  | KCommit => Errorf "loading commit file: %s" [error_text e]
  end.
Definition deref_error (k : kind) (e : error) : error :=
  ErrWrap (match k with
           | KMeta => "loading dataset metadata: %w"
           | KStructure => "loading dataset structure: %w"
           | KTransform => "loading dataset transform: %w"
           | KViz => "loading dataset viz: %w"
           | KReadme => "loading dataset readme: %w"
           | KStats => "loading stats component: %w"
           | KCommit => "loading dataset commit: %w"
           end) [] e.
Definition map_error {A} (f : error → error) (m : outcome A) : outcome A :=
  match m with Error e => Error (f e) | _ => m end.

(** [loadMeta], [loadStructure] and the like *)
Definition load_component (k : kind) (path : string) : outcome (option K) :=
  data ← map_error (load_error k) (fs_read path); Unmarshal k data.

(** [DerefMeta], [DerefStructure] and the like: a component that is there, empty,
    and has a path is read, and keeps its path. *)
Definition set_component (k : kind) (c : Component K) (ds : StoredDataset K) : StoredDataset K :=
  mkStored (sd_Path ds) (λ k', if decide (k' = k) then Some c else sd_component ds k').
Definition deref (k : kind) : stM (StoredDataset K) unit := λ ds,
  match sd_component ds k with
  | Some (mkComponentRef path None) =>
      if decide (path = "") then (Ok tt, ds)
      else
        match map_error (deref_error k) (load_component k path) with
        | Ok contents => (Ok tt, set_component k (mkComponentRef path contents) ds)
        | Error e => (Error e, ds)
        | Panic => (Panic, ds)
        end
  | _ => (Ok tt, ds)
  end.
Definition DerefMeta := deref KMeta.
Definition DerefStructure := deref KStructure.
Definition DerefTransform := deref KTransform.
Definition DerefViz := deref KViz.
Definition DerefReadme := deref KReadme.
Definition DerefStats := deref KStats.
Definition DerefCommit := deref KCommit.

(** [DerefDataset] *)
Definition DerefDataset : stM (StoredDataset K) unit :=
  DerefMeta;; DerefStructure;; DerefTransform;; DerefViz;; DerefReadme;; DerefStats;; DerefCommit.

(** [LoadDatasetRefs] and [LoadDataset] *)
Definition LoadDatasetRefs (mux path : string) : outcome (StoredDataset K) :=
  data ← map_error (ErrWrap "reading %s file: %w" [PackageFile_String PackageFileDataset])
           (fs_read (PackageFilepath mux path PackageFileDataset));
  ds ← map_error (ErrWrap "unmarshaling %s file: %w" [PackageFile_String PackageFileDataset]) (UnmarshalDataset data);
  Ok (mkStored path ds).
Definition LoadDataset (mux path : string) : outcome (StoredDataset K) :=
  ds ← map_error (ErrWrap "loading dataset: %w" []) (LoadDatasetRefs mux path);
  match DerefDataset ds with
  | (Ok _, ds) => Ok ds
  | (Error e, _) => Error e
  | (Panic, _) => Panic
  end.
End store.

(** ** Planning the files of a dataset *)

(** A file to be written, with the files it waits for *)
Record PlannedFile : Type := mkFile {
  pf_name : string;
  pf_requires : list string;
}.

(** [type writeFiles struct] *)
Record writeFiles : Type := mkWriteFiles {
  wf_meta : option PlannedFile;
  wf_body : option PlannedFile;
  wf_readmeScript : option PlannedFile;
  wf_vizScript : option PlannedFile;
  wf_transformScript : option PlannedFile;
  wf_transform : option PlannedFile;
  wf_structure : option PlannedFile;
  wf_stats : option PlannedFile;
  wf_vizRendered : option PlannedFile;
  wf_commit : option PlannedFile;
  wf_dataset : option PlannedFile;
}.

(** [writeFiles.files] and [filePaths] *)
Definition wf_files (w : writeFiles) : list PlannedFile :=
  concat (map option_list
    [wf_meta w; wf_body w; wf_readmeScript w; wf_vizScript w; wf_transformScript w; wf_transform w; wf_structure w;
     wf_stats w; wf_vizRendered w; wf_commit w; wf_dataset w]).
Definition filePaths (files : list PlannedFile) : list string := map pf_name files.

(** What a dataset to be written has: the JSON of its components where they can
    be written, the resources of its transform, its scripts, and whether its
    body computes fields *)
Record WritePlan : Type := mkWritePlan {
  wp_meta : option (outcome unit);
  wp_structure : option (outcome unit);
  wp_body : option string;
  wp_body_computes : bool;
  wp_transform : option (outcome unit);
  wp_resources : list (string * string);
  wp_transformScript : bool;
  wp_readmeScript : bool;
  wp_vizScript : bool;
  wp_vizRendered : bool;
  wp_viz : bool;
  wp_commit : bool;
  wp_ShouldRender : bool;
}.
Definition transformScriptFilename : string := "/transform_script".
Definition no_deps (name : string) : PlannedFile := mkFile name [].
Definition package_file (p : PackageFile) : PlannedFile := no_deps (Filename p).

(** The functions that add files, in the order in which they are called *)
Definition addMetaFile (p : WritePlan) (w : writeFiles) : outcome writeFiles :=
  match wp_meta p with
  | None => Ok w
  | Some json =>
      json;;
      Ok (mkWriteFiles (Some (package_file PackageFileMeta)) (wf_body w) (wf_readmeScript w) (wf_vizScript w)
            (wf_transformScript w) (wf_transform w) (wf_structure w) (wf_stats w) (wf_vizRendered w) (wf_commit w) (wf_dataset w))
  end.
Fixpoint check_resources (l : list (string * string)) : outcome unit :=
  match l with
  | [] => Ok tt
  | (key, path) :: l =>
      if decide (path = "") then Error (Errorf "transform resource %s requires a path to save" [key]) else check_resources l
  end.
Definition addTransformFile (p : WritePlan) (w : writeFiles) : outcome writeFiles :=
  match wp_transform p with
  | None => Ok w
  | Some json =>
      check_resources (wp_resources p);;
      let set script t :=
        mkWriteFiles (wf_meta w) (wf_body w) (wf_readmeScript w) (wf_vizScript w) script (Some t) (wf_structure w)
          (wf_stats w) (wf_vizRendered w) (wf_commit w) (wf_dataset w) in
      if wp_transformScript p then
        Ok (set (Some (no_deps transformScriptFilename)) (mkFile (Filename PackageFileTransform) [transformScriptFilename]))
      else json;; Ok (set (wf_transformScript w) (package_file PackageFileTransform))
  end.
Definition structureFileAddFunc (p : WritePlan) (w : writeFiles) : outcome writeFiles :=
  match wp_structure p with
  | None => Ok w
  | Some json =>
      let set s :=
        mkWriteFiles (wf_meta w) (wf_body w) (wf_readmeScript w) (wf_vizScript w) (wf_transformScript w) (wf_transform w)
          (Some s) (wf_stats w) (wf_vizRendered w) (wf_commit w) (wf_dataset w) in
      match wf_body w with
      | None => json;; Ok (set (package_file PackageFileStructure))
      | Some body => Ok (set (mkFile (Filename PackageFileStructure) [pf_name body]))
      end
  end.
Definition addStatsFile (p : WritePlan) (w : writeFiles) : outcome writeFiles :=
  match wf_structure w with
  | None => Ok w
  | Some structure =>
      if is_there (wf_body w) && wp_body_computes p then
        Ok (mkWriteFiles (wf_meta w) (wf_body w) (wf_readmeScript w) (wf_vizScript w) (wf_transformScript w) (wf_transform w)
              (wf_structure w) (Some (mkFile (Filename PackageFileStats) [pf_name structure])) (wf_vizRendered w)
              (wf_commit w) (wf_dataset w))
      else Ok w
  end.
Definition addReadmeFile (p : WritePlan) (w : writeFiles) : outcome writeFiles :=
  if wp_readmeScript p then
    Ok (mkWriteFiles (wf_meta w) (wf_body w) (Some (package_file PackageFileReadmeScript)) (wf_vizScript w)
          (wf_transformScript w) (wf_transform w) (wf_structure w) (wf_stats w) (wf_vizRendered w) (wf_commit w) (wf_dataset w))
  else Ok w.
Definition vizFilesAddFunc (p : WritePlan) (w : writeFiles) : outcome writeFiles :=
  if wp_viz p then
    let w :=
      if wp_vizScript p then
        mkWriteFiles (wf_meta w) (wf_body w) (wf_readmeScript w) (Some (package_file PackageFileVizScript))
          (wf_transformScript w) (wf_transform w) (wf_structure w) (wf_stats w) (wf_vizRendered w) (wf_commit w) (wf_dataset w)
      else w in
    let set r :=
      mkWriteFiles (wf_meta w) (wf_body w) (wf_readmeScript w) (wf_vizScript w) (wf_transformScript w) (wf_transform w)
        (wf_structure w) (wf_stats w) (Some r) (wf_commit w) (wf_dataset w) in
    if wp_vizRendered p then Ok (set (package_file PackageFileRenderedViz))
    else if wp_vizScript p && wp_ShouldRender p then
      Ok (set (mkFile (Filename PackageFileRenderedViz) (Filename PackageFileVizScript :: filePaths (wf_files w))))
    else Ok w
  else Ok w.
Definition commitFileAddFunc (p : WritePlan) (w : writeFiles) : outcome writeFiles :=
  if wp_commit p then
    Ok (mkWriteFiles (wf_meta w) (wf_body w) (wf_readmeScript w) (wf_vizScript w) (wf_transformScript w) (wf_transform w)
          (wf_structure w) (wf_stats w) (wf_vizRendered w)
          (Some (mkFile (Filename PackageFileCommit) (filePaths (wf_files w)))) (wf_dataset w))
  else Ok w.
Definition addDatasetFile (w : writeFiles) : outcome writeFiles :=
  match filePaths (wf_files w) with
  | [] => Error (Errorf "cannot save empty dataset" [])
  | pkgFiles =>
      Ok (mkWriteFiles (wf_meta w) (wf_body w) (wf_readmeScript w) (wf_vizScript w) (wf_transformScript w) (wf_transform w)
            (wf_structure w) (wf_stats w) (wf_vizRendered w) (wf_commit w)
            (Some (mkFile (Filename PackageFileDataset) pkgFiles)))
  end.

(** [WriteDataset], up to writing the files *)
Definition plan_files (p : WritePlan) : outcome (list PlannedFile) :=
  let w := mkWriteFiles None (no_deps <$> wp_body p) None None None None None None None None None in
  w ← addMetaFile p w;
  w ← addTransformFile p w;
  w ← structureFileAddFunc p w;
  w ← addStatsFile p w;
  w ← addReadmeFile p w;
  w ← vizFilesAddFunc p w;
  w ← commitFileAddFunc p w;
  w ← addDatasetFile w;
  Ok (wf_files w).
