(* ===== verification/Disk.v ===== *)
(** * Files (Go's [path/filepath], and the calls of [os] and [ioutil] the code makes)

    Paths of Unix, and a disk as a map from clean paths to files and
    directories. Which call is refused for other reasons, and the times of
    files, are the operating system's. *)
From stdpp Require Export sorting.
From S2P Require Export GoStrings.

(** ** Paths *)
Definition slash : ascii := "/"%char.
Fixpoint strip_slashes (l : list ascii) : list ascii :=
  match l with c :: l' => if decide (c = slash) then strip_slashes l' else l | [] => [] end.
Fixpoint upto_slash (l : list ascii) : list ascii :=
  match l with c :: l' => if decide (c = slash) then [] else c :: upto_slash l' | [] => [] end.

(** [filepath.Base] *)
Definition filepath_Base (path : string) : string :=
  if decide (path = "") then "."
  else
    match upto_slash (strip_slashes (reverse (bytes path))) with
    | [] => "/"
    | name => of_bytes (reverse name)
    end.

(** [filepath.Clean] and [filepath.Join] *)
Definition clean_step (rooted : bool) (acc : list string) (c : string) : list string :=
  if decide (c = "" ∨ c = ".") then acc
  else if decide (c = "..") then
    match acc with
    | top :: acc' => if decide (top = "..") then c :: acc else acc'
    | [] => if rooted then [] else [c]
    end
  else c :: acc.
Definition clean_elems (rooted : bool) (path : string) : list string :=
  reverse (foldl (clean_step rooted) [] (strings_Split path slash)).
Definition filepath_Clean (path : string) : string :=
  let rooted := strings_HasPrefix path "/" in
  match clean_elems rooted path with
  | [] => if rooted then "/" else "."
  | elems => (if rooted then "/" else "") +:+ strings_Join elems "/"
  end.
Fixpoint filepath_Join (elems : list string) : string :=
  match elems with
  | [] => ""
  | e :: rest => if decide (e = "") then filepath_Join rest else filepath_Clean (strings_Join elems "/")
  end.

(** [filepath.Dir] *)
Fixpoint from_slash (l : list ascii) : list ascii :=
  match l with c :: l' => if decide (c = slash) then l else from_slash l' | [] => [] end.
Definition filepath_Dir (path : string) : string :=
  filepath_Clean (of_bytes (reverse (from_slash (reverse (bytes path))))).

(** [filepath.Ext]: from the last dot on, when no slash follows it *)
Fixpoint ext_of (rev ext : list ascii) : string :=
  match rev with
  | [] => ""
  | c :: rev =>
      if decide (c = slash) then ""
      else if decide (c = "."%char) then of_bytes (c :: ext)
      else ext_of rev (c :: ext)
  end.
Definition filepath_Ext (path : string) : string := ext_of (reverse (bytes path)) [].

Example paths_clean :
  map filepath_Clean ["a//b/../c/."; "/../a"; "../../x"; ""; "/"] = ["a/c"; "/a"; "../../x"; "."; "/"] ∧
  filepath_Join ["/work/"; "meta.json"] = "/work/meta.json" ∧ filepath_Dir "/a/b" = "/a" ∧
  filepath_Ext "/x.y/body.tar.gz" = ".gz" ∧ filepath_Base "/a/b/" = "b".
Proof. by vm_compute. Qed.

(** A name of an entry of a directory *)
Definition plain (name : string) : Prop :=
  no_byte slash name ∧ name ≠ "" ∧ name ≠ "." ∧ name ≠ "..".
#[export] Instance plain_dec name : Decision (plain name).
Proof. unfold plain, no_byte. apply _. Defined.

(** ** The disk *)
Inductive node : Type := File (data : string) (ModTime : Z) | Dir.
Abbreviation Disk := (gmap string node).

(** What the operating system refuses besides, the times of new files and of
    directories, and the working directory *)
Class OS : Type := {
  os_fault : string → string → option error;
  os_now : string → string → Z;
  os_dir_time : string → Z;
  os_Getwd : string;
}.

Definition ErrNotExist : error := ErrSentinel "no such file or directory".
Definition os_IsNotExist (e : error) : bool := errors_Is e "no such file or directory".
Definition path_error (op path : string) (e : error) : error := ErrWrap "%s %s: %w" [op; path] e.

Definition is_dir (n : option node) : bool := match n with Some Dir => true | _ => false end.
Definition stat_exists (path : string) (d : Disk) : bool :=
  match d !! path with Some _ => true | None => false end.

(** The names in a directory, sorted *)
Definition entry_names (dir : string) (d : Disk) : list string :=
  merge_sort String.le
    (omap (λ pn : string * node,
             let name := filepath_Base pn.1 in
             if decide (plain name ∧ filepath_Join [dir; name] = pn.1) then Some name else None) (map_to_list d)).

Section os.
Context `{!OS}.

(** [filepath.Abs] *)
Definition filepath_Abs (path : string) : string :=
  if strings_HasPrefix path "/" then filepath_Clean path else filepath_Join [os_Getwd; path].
Definition node_time (path : string) (n : node) : Z := match n with File _ t => t | Dir => os_dir_time path end.

Definition refused (op path : string) : outcome unit :=
  match os_fault op path with Some e => Error (path_error op path e) | None => Ok tt end.

(** [ioutil.ReadFile] and [ioutil.ReadDir] *)
Definition ReadFile (path : string) (d : Disk) : outcome string :=
  refused "open" path;;
  match d !! path with
  | Some (File data _) => Ok data
  | Some Dir => Error (path_error "read" path (ErrSentinel "is a directory"))
  | None => Error (path_error "open" path ErrNotExist)
  end.
Definition ReadDir (dir : string) (d : Disk) : outcome (list string) :=
  refused "open" dir;;
  match d !! dir with
  | Some Dir => Ok (entry_names dir d)
  | Some (File _ _) => Error (path_error "readdirent" dir (ErrSentinel "not a directory"))
  | None => Error (path_error "open" dir ErrNotExist)
  end.

(** [ioutil.WriteFile] *)
Definition WriteFile (path data : string) : stM Disk unit := λ d,
  match refused "open" path with
  | Ok _ =>
      match d !! path with
      | Some Dir => (Error (path_error "open" path (ErrSentinel "is a directory")), d)
      | Some (File _ _) => (Ok tt, <[path := File data (os_now path data)]> d)
      | None =>
          if is_dir (d !! filepath_Dir path) then (Ok tt, <[path := File data (os_now path data)]> d)
          else (Error (path_error "open" path ErrNotExist), d)
      end
  | Error e => (Error e, d)
  | Panic => (Panic, d)
  end.

(** [os.Remove]: a file, or a directory without entries *)
Definition Remove (path : string) : stM Disk unit := λ d,
  match refused "remove" path with
  | Ok _ =>
      match d !! path with
      | Some (File _ _) => (Ok tt, delete path d)
      | Some Dir =>
          if decide (entry_names path d = []) then (Ok tt, delete path d)
          else (Error (path_error "remove" path (ErrSentinel "directory not empty")), d)
      | None => (Error (path_error "remove" path ErrNotExist), d)
      end
  | Error e => (Error e, d)
  | Panic => (Panic, d)
  end.

(** [os.RemoveAll]: whatever is at the path or below it *)
Definition below (path p : string) : bool := bool_decide (p = path) || strings_HasPrefix p (path +:+ "/").
Definition RemoveAll (path : string) : stM Disk unit := λ d,
  match refused "unlinkat" path with
  | Ok _ => (Ok tt, filter (λ pn, below path pn.1 = false) d)
  | Error e => (Error e, d)
  | Panic => (Panic, d)
  end.

(** [os.Mkdir] *)
Definition Mkdir (path : string) : stM Disk unit := λ d,
  match refused "mkdir" path with
  | Ok _ =>
      match d !! path with
      | Some _ => (Error (path_error "mkdir" path (ErrSentinel "file exists")), d)
      | None =>
          if is_dir (d !! filepath_Dir path) then (Ok tt, <[path := Dir]> d) else (Error (path_error "mkdir" path ErrNotExist), d)
      end
  | Error e => (Error e, d)
  | Panic => (Panic, d)
  end.

(** [os.MkdirAll]: every directory on the way that is missing; a file on the
    way is an error. *)
Fixpoint mkdirs (prefix : string) (elems : list string) : stM Disk unit := λ d,
  match elems with
  | [] => (Ok tt, d)
  | e :: elems =>
      let path := filepath_Join [prefix; e] in
      match d !! path with
      | Some Dir => mkdirs path elems d
      | Some (File _ _) => (Error (path_error "mkdir" path (ErrSentinel "not a directory")), d)
      | None => mkdirs path elems (<[path := Dir]> d)
      end
  end.
Definition MkdirAll (path : string) : stM Disk unit := λ d,
  match refused "mkdir" path with
  | Ok _ =>
      let rooted := strings_HasPrefix path "/" in
      mkdirs (if rooted then "/" else "") (clean_elems rooted path) d
  | Error e => (Error e, d)
  | Panic => (Panic, d)
  end.
End os.

(** ** Facts of paths *)
Lemma upto_slash_app l r : Forall (λ c, c ≠ slash) l → upto_slash (l ++ slash :: r) = l.
Proof. induction 1 as [|c l Hc _ IH]; cbn; [done|]. by rewrite decide_False, IH. Qed.
Lemma upto_slash_all l : Forall (λ c, c ≠ slash) l → upto_slash l = l.
Proof. induction 1 as [|c l Hc _ IH]; cbn; [done|]. by rewrite decide_False, IH. Qed.
Lemma strip_slashes_id c l : c ≠ slash → strip_slashes (c :: l) = c :: l.
Proof. intros Hc. cbn. by rewrite decide_False. Qed.

Lemma plain_rev name : plain name → ∃ c l, reverse (bytes name) = c :: l ∧ Forall (λ c, c ≠ slash) (c :: l).
Proof.
  intros (Hs & Hne & _). destruct (reverse (bytes name)) as [|c l] eqn:Hr.
  - exfalso. apply Hne. apply bytes_inj. apply (inj reverse). by rewrite Hr.
  - exists c, l. split; [done|]. rewrite <- Hr. apply Forall_forall. intros x. rewrite elem_of_reverse.
    revert x. by apply Forall_forall.
Qed.

Lemma Base_name name : plain name → filepath_Base name = name.
Proof.
  intros Hp. destruct (plain_rev name Hp) as (c & l & Hr & Hs). unfold filepath_Base.
  rewrite decide_False by apply Hp. rewrite Hr, strip_slashes_id by by inversion Hs.
  rewrite upto_slash_all by done. by rewrite <- Hr, reverse_involutive, of_bytes_bytes.
Qed.
Lemma Base_slash s name : plain name → filepath_Base (s +:+ "/" +:+ name) = name.
Proof.
  intros Hp. destruct (plain_rev name Hp) as (c & l & Hr & Hs). unfold filepath_Base.
  rewrite decide_False by (intros [_ [? _]%string_app_eq_nil]%string_app_eq_nil; done).
  rewrite !bytes_app, !reverse_app, Hr, <- app_assoc. cbn [app]. rewrite strip_slashes_id by by inversion Hs.
  change (bytes "/") with [slash]. rewrite reverse_singleton. cbn [app].
  rewrite app_comm_cons, upto_slash_app by done. by rewrite <- Hr, reverse_involutive, of_bytes_bytes.
Qed.

Lemma strings_Join_snoc l x : l ≠ [] → strings_Join (l ++ [x]) "/" = strings_Join l "/" +:+ "/" +:+ x.
Proof.
  induction l as [|a l IH]; [done|]. intros _. destruct l as [|b l]; [done|].
  cbn [app strings_Join] in *. rewrite IH by done. by rewrite !string_app_assoc.
Qed.
Lemma Split_snoc s name : no_byte slash name → strings_Split (s +:+ "/" +:+ name) slash = strings_Split s slash ++ [name].
Proof.
  intros Hn. rewrite <- (Join_Split s slash) at 1. rewrite <- strings_Join_snoc by apply Split_nonempty.
  apply Split_Join; [by intros [_ ?]%app_eq_nil|]. apply Forall_app. split; [apply Split_no_sep|by constructor].
Qed.

Lemma clean_elems_snoc rooted dir name : plain name →
  clean_elems rooted (dir +:+ "/" +:+ name) = clean_elems rooted dir ++ [name].
Proof.
  intros (Hn & ? & ? & ?). unfold clean_elems. rewrite Split_snoc, foldl_app by done. cbn [foldl].
  unfold clean_step at 1. rewrite decide_False by naive_solver. rewrite decide_False by done. by rewrite reverse_cons.
Qed.
Lemma HasPrefix_slash dir t : dir ≠ "" → strings_HasPrefix (dir +:+ t) "/" = strings_HasPrefix dir "/".
Proof.
  intros Hd. destruct dir as [|c dir]; [done|]. unfold strings_HasPrefix. cbn. repeat case_match; done.
Qed.

(** What joining a name to a directory gives *)
Lemma Join_name dir name : dir ≠ "" → plain name → ∃ s,
  (filepath_Join [dir; name] = s +:+ "/" +:+ name ∨ filepath_Join [dir; name] = name).
Proof.
  intros Hd Hp. cbn [filepath_Join]. rewrite decide_False by done. cbn [strings_Join].
  unfold filepath_Clean. rewrite clean_elems_snoc, HasPrefix_slash by done.
  destruct (clean_elems _ dir) as [|e es]; cbn [app].
  - cbn [strings_Join]. destruct (strings_HasPrefix dir "/"); [exists ""; by left|exists ""; by right].
  - rewrite app_comm_cons, strings_Join_snoc by done.
    exists ((if strings_HasPrefix dir "/" then "/" else "") +:+ strings_Join (e :: es) "/"). left.
    by rewrite !string_app_assoc.
Qed.
Lemma Base_Join dir name : dir ≠ "" → plain name → filepath_Base (filepath_Join [dir; name]) = name.
Proof.
  intros Hd Hp. destruct (Join_name dir name Hd Hp) as [s [->| ->]]; [by apply Base_slash|by apply Base_name].
Qed.
Lemma Join_inj dir name name' : dir ≠ "" → plain name → plain name' →
  filepath_Join [dir; name] = filepath_Join [dir; name'] → name = name'.
Proof. intros Hd Hn Hn' Heq. by rewrite <- (Base_Join dir name), Heq, Base_Join. Qed.

Lemma elem_of_entry_names dir d name : dir ≠ "" →
  name ∈ entry_names dir d ↔ plain name ∧ is_Some (d !! filepath_Join [dir; name]).
Proof.
  intros Hd. unfold entry_names. rewrite merge_sort_Permutation, list_elem_of_omap. split.
  - intros ([p n] & Hin%elem_of_map_to_list & Hsome). cbn [fst] in *. case_decide as Hc; [|done].
    injection Hsome as <-. destruct Hc as [Hp Hj]. split; [done|]. rewrite Hj. by eexists.
  - intros [Hp [n Hn]]. exists (filepath_Join [dir; name], n). cbn [fst]. rewrite Base_Join by done.
    split; [by apply elem_of_map_to_list|]. by rewrite decide_True.
Qed.
Lemma entry_names_NoDup dir d : NoDup (entry_names dir d).
Proof.
  unfold entry_names. rewrite merge_sort_Permutation.
  assert (NoDup (map_to_list d).*1) as Hnd by apply NoDup_fst_map_to_list.
  induction (map_to_list d) as [|[p n] l IH]; cbn [omap list_omap fst]; [constructor|].
  cbn in Hnd. apply NoDup_cons in Hnd as [Hp Hnd]. case_decide as Hc; [|by apply IH].
  constructor; [|by apply IH]. intros ([p' n'] & Hin & Hsome)%list_elem_of_omap. cbn [fst] in Hsome.
  case_decide as Hc'; [|done]. injection Hsome as Hb. apply Hp.
  destruct Hc as [_ <-], Hc' as [_ Hj']. rewrite <- Hb, Hj'. by apply (list_elem_of_fmap_2 fst) in Hin.
Qed.

(** Cleaning a path that is rooted, again *)
Lemma clean_step_plain acc c : Forall plain acc → no_byte slash c → Forall plain (clean_step true acc c).
Proof.
  intros Ha Hc. unfold clean_step. case_decide as H1; [done|]. case_decide as H2.
  - destruct acc as [|t acc]; [constructor|]. inversion Ha as [|? ? Ht Hacc]; subst.
    case_decide as H3; [|done]. subst. by destruct Ht as (_ & _ & _ & []).
  - constructor; [|done]. split_and!; [done|naive_solver..].
Qed.
Lemma clean_elems_plain path : Forall plain (clean_elems true path).
Proof.
  unfold clean_elems. apply Forall_reverse. generalize (Forall_nil_2 plain). generalize (@nil string).
  pose proof (Split_no_sep path slash) as Hs. induction Hs as [|c l Hc _ IH]; intros acc Ha; [done|].
  cbn. by apply IH, clean_step_plain.
Qed.
Lemma clean_steps_id es acc : Forall plain es → foldl (clean_step true) acc es = reverse es ++ acc.
Proof.
  intros Hes. revert acc. induction Hes as [|e es (_ & ? & ? & ?) _ IH]; intros acc; [done|].
  cbn [foldl]. rewrite IH, reverse_cons, <- app_assoc. unfold clean_step.
  rewrite decide_False by naive_solver. by rewrite decide_False.
Qed.
Lemma Clean_rooted path : strings_HasPrefix path "/" = true → filepath_Clean (filepath_Clean path) = filepath_Clean path.
Proof.
  intros Hr. unfold filepath_Clean at 2 3. rewrite Hr. pose proof (clean_elems_plain path) as Hp.
  destruct (clean_elems true path) as [|e es] eqn:He; [by vm_compute|].
  assert (clean_elems true ("/" +:+ strings_Join (e :: es) "/") = e :: es) as Hc.
  { unfold clean_elems. change ("/" +:+ strings_Join (e :: es) "/") with (strings_Join ("" :: e :: es) "/").
    rewrite (Split_Join _ slash); [|done|].
    - change (foldl (clean_step true) [] ("" :: e :: es)) with (foldl (clean_step true) [] (e :: es)).
      by rewrite clean_steps_id, app_nil_r, reverse_involutive.
    - constructor; [constructor|]. eapply Forall_impl; [exact Hp|]. by intros x [? _]. }
  unfold filepath_Clean. assert (strings_HasPrefix ("/" +:+ strings_Join (e :: es) "/") "/" = true) as ->.
  { apply strings_HasPrefix_spec. by eexists. }
  by rewrite Hc.
Qed.
Lemma Join_Clean dir name : dir ≠ "" → filepath_Join [dir; name] = filepath_Clean (dir +:+ "/" +:+ name).
Proof. intros Hd. cbn [filepath_Join]. by rewrite decide_False. Qed.
Lemma Abs_Join `{!OS} dir name : strings_HasPrefix dir "/" = true → filepath_Abs (filepath_Join [dir; name]) = filepath_Join [dir; name].
Proof.
  intros Hd. assert (dir ≠ "") as Hne by (by intros ->). rewrite Join_Clean by done.
  assert (strings_HasPrefix (dir +:+ "/" +:+ name) "/" = true) as Hp by (by rewrite HasPrefix_slash).
  unfold filepath_Abs.
  assert (strings_HasPrefix (filepath_Clean (dir +:+ "/" +:+ name)) "/" = true) as ->; [|by apply Clean_rooted].
  unfold filepath_Clean. rewrite Hp. apply strings_HasPrefix_spec. destruct (clean_elems _ _); by eexists.
Qed.

(** Entries of a clean directory *)
Definition clean_dir (dir : string) : Prop := strings_HasPrefix dir "/" = true ∧ filepath_Clean dir = dir.
#[export] Instance clean_dir_dec dir : Decision (clean_dir dir).
Proof. unfold clean_dir. apply _. Defined.
Lemma clean_dir_nonempty dir : clean_dir dir → dir ≠ "".
Proof. by intros [? _] ->. Qed.

Lemma clean_elems_trailing rooted s : clean_elems rooted (s +:+ "/") = clean_elems rooted s.
Proof.
  unfold clean_elems. change (s +:+ "/") with (s +:+ "/" +:+ ""). rewrite Split_snoc by constructor.
  rewrite foldl_app. cbn [foldl]. unfold clean_step at 1. by rewrite decide_True by (by left).
Qed.
Lemma Join_entry dir name : clean_dir dir → plain name →
  filepath_Join [dir; name] = (if decide (dir = "/") then "" else dir) +:+ "/" +:+ name.
Proof.
  intros [Hr Hc] Hp. rewrite Join_Clean by (by intros ->). unfold filepath_Clean.
  rewrite HasPrefix_slash by (by intros ->). rewrite Hr, clean_elems_snoc by done.
  revert Hc. unfold filepath_Clean. rewrite Hr. destruct (clean_elems true dir) as [|e es] eqn:He; intros Hd; cbn [app].
  - by rewrite decide_True.
  - rewrite app_comm_cons, strings_Join_snoc by done. rewrite decide_False; [by rewrite <- Hd, string_app_assoc|].
    intros ->. by vm_compute in He.
Qed.
Lemma Dir_Join dir name : clean_dir dir → plain name → filepath_Dir (filepath_Join [dir; name]) = dir.
Proof.
  intros Hc Hp. rewrite Join_entry by done. unfold filepath_Dir. destruct (plain_rev name Hp) as (c & l & Hrev & Hs).
  rewrite !bytes_app, !reverse_app, Hrev, <- app_assoc.
  assert (∀ l r, Forall (λ c, c ≠ slash) l → from_slash (l ++ slash :: r) = slash :: r) as Hfrom.
  { intros l' r. induction 1 as [|x l' Hx _ IH]; [done|]. cbn. by rewrite decide_False. }
  change (reverse (bytes "/")) with [slash]. cbn [app]. rewrite app_comm_cons, Hfrom by done.
  rewrite reverse_cons, reverse_involutive, of_bytes_app, of_bytes_bytes. change (of_bytes [slash]) with "/".
  destruct Hc as [Hr Hc]. case_decide as Hd; [by subst|].
  unfold filepath_Clean. rewrite clean_elems_trailing, HasPrefix_slash by (by intros ->). exact Hc.
Qed.
