(* ===== verification/Components.v ===== *)
(** * Components of datasets (src/base/component)

    A component is a part of a dataset, or of a directory of files that hold
    such parts, loaded when it is needed. The values of components belong to the
    [dataset] package; JSON, YAML and the entries of bodies are libraries'. *)
From S2P Require Export Disk Fill.

(** ** Component values and the libraries behind them *)
Inductive value_kind : Type := VCommit | VMeta | VStructure.
Inductive script_kind : Type := SReadme | STransform.

(** [dataset.Dataset], as far as components are concerned *)
Record WDataset {V : Type} : Type := mkWDataset {
  wd_Commit : option V;
  wd_Meta : option V;
  wd_Structure : option V;
  wd_Readme : option V;
  wd_Transform : option V;
  wd_Body : option data;
  wd_BodyFile : option string;
  wd_BodyPath : string;
  wd_Path : string;
  wd_Peername : string;
  wd_PreviousPath : string;
}.
Arguments WDataset : clear implicits.
Arguments mkWDataset {V}.
Definition no_dataset {V} : WDataset V := mkWDataset None None None None None None None "" "" "" "".

(** The types of component values are those of the [dataset] package, as
    reflection sees them, and [value_in] is the value at a place of that type.
    Dropping derived values is asked of pointers, which may be nil. *)
Class ComponentLib (V : Type) : Type := {
  json_Unmarshal : string → outcome (list (string * data));
  yaml_Unmarshal : string → outcome (list (string * data));
  fill_env :: FillEnv;
  value_type : value_kind → gtype;
  value_in : value_kind → place → V;
  script_type : script_kind → gtype;
  script_in : script_kind → place → V;
  dataset_type : gtype;
  dataset_in : place → WDataset V;
  json_Marshal : option V → outcome string;
  json_MarshalIndent : V → outcome string;
  json_Marshal_body : option data → outcome string;
  json_Marshal_ds : option (WDataset V) → outcome string;
  v_IsEmpty : V → bool;
  v_DropDerivedValues : option V → outcome (option V);
  ds_DropDerivedValues : WDataset V → WDataset V;
  v_ScriptBytes : V → string;
  v_Format : V → string;
  InlineScriptFile : V → outcome V;
  Resolver_Get : string → outcome string;
  ReadEntries : option V → string → outcome data;
  DetectEntries : string → string → outcome data;
  SerializeBody : data → V → outcome string;
}.

(** ** Components *)

(** [type BaseComponent struct], without its subcomponents, which only
    collections have *)
Record BaseComponent : Type := mkBase {
  ProblemKind : string;
  ProblemMessage : string;
  c_ModTime : Z;
  SourceFile : string;
  IsLoaded : bool;
  c_Format : string;
}.
Definition zero_base : BaseComponent := mkBase "" "" 0 "" false "".
Definition set_loaded (b : BaseComponent) : BaseComponent :=
  mkBase (ProblemKind b) (ProblemMessage b) (c_ModTime b) (SourceFile b) true (c_Format b).
Definition set_problem (kind message : string) (b : BaseComponent) : BaseComponent :=
  mkBase kind message (c_ModTime b) (SourceFile b) (IsLoaded b) (c_Format b).
(** [SetErrorAsProblem] *)
Definition SetErrorAsProblem (kind : string) (err : error) (b : BaseComponent) : BaseComponent :=
  set_problem kind (error_text err) b.

Section components.
Context {V : Type} `{L : !ComponentLib V, O : !OS}.

(** [CommitComponent], [MetaComponent] and [StructureComponent], whose
    serialization may be disabled; [ReadmeComponent] and [TransformComponent],
    which may have a resolver; [BodyComponent] and [DatasetComponent] *)
Inductive Component : Type :=
| ValueComponent (k : value_kind) (b : BaseComponent) (v : option V) (DisableSerialization : bool)
| ScriptComponent (k : script_kind) (b : BaseComponent) (resolver : bool) (v : option V)
| BodyComponent (b : BaseComponent) (resolver : bool) (bodyFile : option string) (structure : option V) (v : option data)
| DatasetComponent (b : BaseComponent) (v : option (WDataset V)).

(** [Base] *)
Definition Base (c : Component) : BaseComponent :=
  match c with
  | ValueComponent _ b _ _ | ScriptComponent _ b _ _ | BodyComponent b _ _ _ _ | DatasetComponent b _ => b
  end.
Definition set_Base (b : BaseComponent) (c : Component) : Component :=
  match c with
  | ValueComponent k _ v dis => ValueComponent k b v dis
  | ScriptComponent k _ r v => ScriptComponent k b r v
  | BodyComponent _ r f st v => BodyComponent b r f st v
  | DatasetComponent _ v => DatasetComponent b v
  end.

(** [SetSubcomponent]'s choice of a type *)
Definition new_component (name : string) (base : BaseComponent) : option Component :=
  if decide (name = "meta") then Some (ValueComponent VMeta base None false)
  else if decide (name = "commit") then Some (ValueComponent VCommit base None false)
  else if decide (name = "structure") then Some (ValueComponent VStructure base None false)
  else if decide (name = "readme") then Some (ScriptComponent SReadme base false None)
  else if decide (name = "transform") then Some (ScriptComponent STransform base false None)
  else if decide (name = "body") then Some (BodyComponent base false None None None)
  else if decide (name = "dataset") then Some (DatasetComponent base None)
  else None.

(** A collection: [FilesysComponent], or a [DatasetComponent] with what it is
    made of, itself under the name of a dataset *)
Inductive container : Type := FilesysContainer | DatasetContainer.
Record Collection : Type := mkCollection {
  co_container : container;
  Subcomponents : gmap string Component;
}.
Definition GetSubcomponent (name : string) (c : Collection) : option Component := Subcomponents c !! name.
Definition put_component (name : string) (x : Component) (c : Collection) : Collection :=
  mkCollection (co_container c) (<[name := x]> (Subcomponents c)).
Definition SetSubcomponent (name : string) (base : BaseComponent) (c : Collection) : Collection :=
  match new_component name base with Some x => put_component name x c | None => c end.
Definition RemoveSubcomponent (name : string) (c : Collection) : Collection :=
  mkCollection (co_container c) (delete name (Subcomponents c)).

(** [NumberPossibleComponents] and [AllSubcomponentNames] *)
Definition AllSubcomponentNames : list string := ["commit"; "meta"; "structure"; "readme"; "viz"; "transform"; "body"].

(** ** Loading *)

(** [LoadFile]: a file that was read counts as loaded, though it does not parse. *)
Definition parse_with (f : string → outcome (list (string * data))) (text : string) (b : BaseComponent)
    : outcome (list (string * data)) * BaseComponent :=
  match f text with
  | Ok fields => (Ok fields, b)
  | Error e => (Error e, SetErrorAsProblem "parse" e b)
  | Panic => (Panic, b)
  end.
Definition LoadFile (d : Disk) (b : BaseComponent) : outcome (list (string * data)) * BaseComponent :=
  if IsLoaded b then (Ok [], b)
  else
    match ReadFile (SourceFile b) d with
    | Error e => (Error e, SetErrorAsProblem "file-open" e b)
    | Panic => (Panic, b)
    | Ok text =>
        let b := set_loaded b in
        if decide (c_Format b = "json") then parse_with json_Unmarshal text b
        else if decide (c_Format b = "yaml") then parse_with yaml_Unmarshal text b
        else if decide (c_Format b ∈ ["html"; "md"; "star"]) then (Ok [("ScriptBytes", VBytes text)], b)
        else (Error (Errorf "unknown local file format %s" [quoted (c_Format b)]), b)
    end.

(** [fill.Struct] into a new value, which keeps what was filled before an error *)
Definition filled {A} (t : gtype) (read : place → A) (fields : list (string * data)) : outcome unit * A :=
  match Struct fields t (zero_place t) with
  | Ok (p, None) => (Ok tt, read p)
  | Ok (p, Some e) => (Error e, read p)
  | Error e => (Error e, read (zero_place t))
  | Panic => (Panic, read (zero_place t))
  end.
Definition fill_value (k : value_kind) : list (string * data) → outcome unit * V := filled (value_type k) (value_in k).
Definition fill_script (k : script_kind) : list (string * data) → outcome unit * V := filled (script_type k) (script_in k).
Definition fill_dataset (fields : list (string * data)) : outcome (WDataset V) :=
  let '(r, ds) := filled dataset_type dataset_in fields in r;; Ok ds.

(** [LoadAndFill]: whether the dataset it is given, if any, is assigned the
    value *)
Definition load_value (k : value_kind) (d : Disk) (b : BaseComponent) (v : option V) (dis : bool) : outcome bool * Component :=
  if IsLoaded b then (Ok false, ValueComponent k b v dis)
  else
    match v with
    | Some _ => (Ok false, ValueComponent k (set_loaded b) v dis)
    | None =>
        match LoadFile d b with
        | (Ok fields, b) =>
            match fill_value k fields with
            | (Ok _, v) => (Ok true, ValueComponent k b (Some v) dis)
            | (Error e, v) => (Error e, ValueComponent k b (Some v) dis)
            | (Panic, v) => (Panic, ValueComponent k b (Some v) dis)
            end
        | (Error e, b) => (Error e, ValueComponent k b v dis)
        | (Panic, b) => (Panic, ValueComponent k b v dis)
        end
    end.
Definition inline_with (k : script_kind) (b : BaseComponent) (resolver : bool) (v : V) : outcome bool * Component :=
  let b := set_loaded b in
  if resolver then
    match InlineScriptFile v with
    | Ok v => (Ok true, ScriptComponent k b resolver (Some v))
    | Error e => (Error e, ScriptComponent k b resolver (Some v))
    | Panic => (Panic, ScriptComponent k b resolver (Some v))
    end
  else (Ok true, ScriptComponent k b resolver (Some v)).
Definition load_script (k : script_kind) (d : Disk) (b : BaseComponent) (resolver : bool) (v : option V) : outcome bool * Component :=
  if IsLoaded b then (Ok false, ScriptComponent k b resolver v)
  else
    match v with
    | Some v => inline_with k b resolver v
    | None =>
        match LoadFile d b with
        | (Ok fields, b) =>
            match fill_script k fields with
            | (Ok _, v) => inline_with k b resolver v
            | (Error e, v) => (Error e, ScriptComponent k b resolver (Some v))
            | (Panic, v) => (Panic, ScriptComponent k b resolver (Some v))
            end
        | (Error e, b) => (Error e, ScriptComponent k b resolver None)
        | (Panic, b) => (Panic, ScriptComponent k b resolver None)
        end
    end.
Definition body_entries (d : Disk) (b : BaseComponent) (resolver : bool) (bodyFile : option string) (structure : option V)
    : outcome data :=
  match bodyFile with
  | Some text => ReadEntries structure text
  | None =>
      if resolver then text ← Resolver_Get (SourceFile b); ReadEntries structure text
      else text ← ReadFile (SourceFile b) d; DetectEntries (c_Format b) text
  end.
Definition LoadAndFill (d : Disk) (c : Component) : outcome bool * Component :=
  match c with
  | ValueComponent k b v dis => load_value k d b v dis
  | ScriptComponent k b resolver v => load_script k d b resolver v
  | BodyComponent b resolver bodyFile structure None =>
      match body_entries d b resolver bodyFile structure with
      | Ok v => (Ok false, BodyComponent b resolver bodyFile structure (Some v))
      | Error e => (Error e, c)
      | Panic => (Panic, c)
      end
  | BodyComponent _ _ _ _ (Some _) | DatasetComponent _ _ => (Ok false, c)
  end.

(** ** Comparing *)

(** [compareComponentData] *)
Definition compare_data (first second : outcome string) : outcome bool :=
  left ← first; rite ← second; Ok (bool_decide (left = rite)).

(** Both sides are loaded, the left one first. *)
Definition loaded_both (d : Disk) (c other : Component) : outcome unit * (Component * Component) :=
  match LoadAndFill d c with
  | (Ok _, c) =>
      match LoadAndFill d other with
      | (Ok _, other) => (Ok tt, (c, other))
      | (Error e, other) => (Error e, (c, other))
      | (Panic, other) => (Panic, (c, other))
      end
  | (Error e, c) => (Error e, (c, other))
  | (Panic, c) => (Panic, (c, other))
  end.
Definition same_type (c other : Component) : bool :=
  match c, other with
  | ValueComponent VCommit _ _ _, ValueComponent VCommit _ _ _
  | ValueComponent VMeta _ _ _, ValueComponent VMeta _ _ _
  | ValueComponent VStructure _ _ _, ValueComponent VStructure _ _ _
  | ScriptComponent SReadme _ _ _, ScriptComponent SReadme _ _ _
  | ScriptComponent STransform _ _ _, ScriptComponent STransform _ _ _
  | BodyComponent _ _ _ _ _, BodyComponent _ _ _ _ _
  | DatasetComponent _ _, DatasetComponent _ _ => true
  | _, _ => false
  end.

(** Two loaded components of one type; scripts of transforms are compared as
    they are, and a nil one cannot be. *)
Definition compare_loaded (c other : Component) : outcome bool :=
  match c, other with
  | ValueComponent VStructure _ v _, ValueComponent _ _ v' _ =>
      v ← v_DropDerivedValues v; v' ← v_DropDerivedValues v'; compare_data (json_Marshal v) (json_Marshal v')
  | ValueComponent _ _ v _, ValueComponent _ _ v' _ => compare_data (json_Marshal v) (json_Marshal v')
  | ScriptComponent SReadme _ _ v, ScriptComponent _ _ _ v' => compare_data (json_Marshal v) (json_Marshal v')
  | ScriptComponent STransform _ _ (Some v), ScriptComponent _ _ _ (Some v') =>
      Ok (bool_decide (v_ScriptBytes v = v_ScriptBytes v'))
  | ScriptComponent STransform _ _ _, ScriptComponent _ _ _ _ => Panic
  | BodyComponent _ _ _ _ v, BodyComponent _ _ _ _ v' => compare_data (json_Marshal_body v) (json_Marshal_body v')
  | DatasetComponent _ v, DatasetComponent _ v' => compare_data (json_Marshal_ds v) (json_Marshal_ds v')
  | _, _ => Ok false
  end.
Definition Compare (d : Disk) (c other : Component)
    : outcome bool * (Component * Component) :=
  if same_type c other then
    match loaded_both d c other with
    | (Ok _, (c, other)) => (compare_loaded c other, (c, other))
    | (Error e, cs) => (Error e, cs)
    | (Panic, cs) => (Panic, cs)
    end
  else (Ok false, (c, other)).

(** ** Writing, removing and dropping derived values *)
Definition on_disk {A B} (m : stM Disk A) : stM (B * Disk) A := st_zoom snd (λ d s, (s.1, d)) m.
Definition load_here : stM (Component * Disk) unit := λ s,
  let '(r, c) := LoadAndFill s.2 s.1 in ((r;; Ok tt), (c, s.2)).

(** [writeComponentFile] *)
Definition writeComponentFile (v : V) (dirPath basefile : string) : stM Disk string :=
  text ← st_lift (json_MarshalIndent v);
  let targetFile := filepath_Join [dirPath; basefile] in
  WriteFile targetFile text;;
  mret targetFile.
Definition value_file (k : value_kind) : string :=
  match k with VCommit => "commit.json" | VMeta => "meta.json" | VStructure => "structure.json" end.
Definition script_file (k : script_kind) (b : BaseComponent) : string :=
  (match k with SReadme => "readme." | STransform => "transform." end) +:+ c_Format b.
Definition body_file (b : BaseComponent) : string := "body." +:+ c_Format b.

(** [WriteTo]: the name of the file; an empty meta is written too, and a script
    has no name to tell. *)
Definition write_loaded (dirPath : string) (c : Component) : stM Disk string :=
  match c with
  | ValueComponent k _ (Some v) _ =>
      if match k with VMeta => false | _ => v_IsEmpty v end then mret "" else writeComponentFile v dirPath (value_file k)
  | ScriptComponent k b _ (Some v) =>
      if v_IsEmpty v then mret ""
      else WriteFile (filepath_Join [dirPath; script_file k b]) (v_ScriptBytes v);; mret ""
  | BodyComponent b _ _ None _ => st_fail (Errorf "cannot write body without a structure" [])
  | BodyComponent b _ _ (Some st) v =>
      text ← st_lift (SerializeBody (default VNil v) st);
      let targetFile := filepath_Join [dirPath; body_file b] in
      WriteFile targetFile text;;
      mret targetFile
  | DatasetComponent _ _ => st_fail (Errorf "cannot write dataset component" [])
  | _ => mret ""
  end.
Definition WriteTo (dirPath : string) : stM (Component * Disk) string :=
  s ← st_get;
  match s.1 with
  | ValueComponent VMeta _ _ true => st_fail (Errorf "serialization is disabled" [])
  | DatasetComponent _ _ => st_fail (Errorf "cannot write dataset component" [])
  | _ =>
      load_here;;
      s ← st_get;
      on_disk (write_loaded dirPath s.1)
  end.

(** [RemoveFrom]; a file that is not there is no error. *)
Definition remove_if_there (path : string) : stM Disk unit := λ d,
  match Remove path d with
  | (Error e, d) => if os_IsNotExist e then (Ok tt, d) else (Error e, d)
  | r => r
  end.
Definition RemoveFrom (dirPath : string) (c : Component) : stM Disk unit :=
  match c with
  | ValueComponent k _ _ _ => remove_if_there (filepath_Join [dirPath; value_file k])
  | ScriptComponent k b _ _ => remove_if_there (filepath_Join [dirPath; script_file k b])
  | BodyComponent b _ _ _ _ => remove_if_there (filepath_Join [dirPath; body_file b])
  | DatasetComponent _ _ => st_fail (Errorf "cannot write dataset component" [])
  end.

(** [DropDerivedValues] of a component, and of a collection *)
Definition DropDerivedValues (c : Component) : outcome Component :=
  match c with
  | ValueComponent k b v dis => v ← v_DropDerivedValues v; Ok (ValueComponent k b v dis)
  | ScriptComponent k b r v => v ← v_DropDerivedValues v; Ok (ScriptComponent k b r v)
  | BodyComponent _ _ _ _ _ => Ok c
  | DatasetComponent b v => Ok (DatasetComponent b (ds_DropDerivedValues <$> v))
  end.
Fixpoint drop_all (l : list (string * Component)) : outcome (list (string * Component)) :=
  match l with
  | [] => Ok []
  | (name, c) :: l => c ← DropDerivedValues c; l ← drop_all l; Ok ((name, c) :: l)
  end.
(** A body points to the structure of its collection. *)
Definition share_structure (c : Collection) : Collection :=
  match GetSubcomponent "body" c, GetSubcomponent "structure" c with
  | Some (BodyComponent b r f (Some _) v), Some (ValueComponent _ _ st _) => put_component "body" (BodyComponent b r f st v) c
  | _, _ => c
  end.
Definition drop_derived (c : Collection) : outcome Collection :=
  l ← drop_all (map_to_list (Subcomponents c)); Ok (share_structure (mkCollection (co_container c) (list_to_map l))).

(** ** Datasets and components (component.go)

    [ConvertDatasetToComponents]; a body needs a structure to have a format. *)
Definition add_some {A} (o : option A) (name : string) (f : A → Component) (m : gmap string Component) : gmap string Component :=
  match o with Some v => <[name := f v]> m | None => m end.
Definition with_format (format : string) : BaseComponent := mkBase "" "" 0 "" false format.
Definition body_of (ds : WDataset V) : outcome (option Component) :=
  match wd_Body ds with
  | Some body =>
      match wd_Structure ds with
      | Some st => Ok (Some (BodyComponent (with_format (v_Format st)) true (wd_BodyFile ds) (Some st) (Some body)))
      | None => Panic
      end
  | None =>
      if decide (wd_BodyPath ds = "") then Ok None
      else
        match wd_Structure ds with
        | Some st =>
            Ok (Some (BodyComponent (mkBase "" "" 0 (wd_BodyPath ds) false (v_Format st)) true (wd_BodyFile ds) (Some st) None))
        | None => Panic
        end
  end.
Definition ConvertDatasetToComponents (ds : WDataset V) : outcome Collection :=
  body ← body_of ds;
  let m := {[ "dataset" := DatasetComponent zero_base (Some ds) ]} in
  let m := add_some (wd_Meta ds) "meta" (λ v, ValueComponent VMeta zero_base (Some v) false) m in
  let m := add_some (wd_Structure ds) "structure" (λ v, ValueComponent VStructure zero_base (Some v) false) m in
  let m := add_some (wd_Commit ds) "commit" (λ v, ValueComponent VCommit zero_base (Some v) false) m in
  let m := add_some (wd_Readme ds) "readme" (λ v, ScriptComponent SReadme (with_format "md") true (Some v)) m in
  let m := add_some (wd_Transform ds) "transform" (λ v, ScriptComponent STransform (with_format "star") true (Some v)) m in
  let m := add_some body "body" (λ c, c) m in
  Ok (mkCollection DatasetContainer m).

(** [ToDataset]: components are loaded into the dataset, or the dataset of the
    collection; a body that was not loaded is its file. *)
Definition assign_value (name : string) (v : option V) (ds : WDataset V) : WDataset V :=
  mkWDataset (if decide (name = "commit") then v else wd_Commit ds) (if decide (name = "meta") then v else wd_Meta ds)
    (if decide (name = "structure") then v else wd_Structure ds) (if decide (name = "readme") then v else wd_Readme ds)
    (if decide (name = "transform") then v else wd_Transform ds) (wd_Body ds) (wd_BodyFile ds) (wd_BodyPath ds)
    (wd_Path ds) (wd_Peername ds) (wd_PreviousPath ds).
Definition set_BodyPath (path : string) (ds : WDataset V) : WDataset V :=
  mkWDataset (wd_Commit ds) (wd_Meta ds) (wd_Structure ds) (wd_Readme ds) (wd_Transform ds) (wd_Body ds) (wd_BodyFile ds)
    path (wd_Path ds) (wd_Peername ds) (wd_PreviousPath ds).
Definition comp_value (c : Component) : option V :=
  match c with ValueComponent _ _ v _ | ScriptComponent _ _ _ v => v | _ => None end.
Fixpoint load_into (d : Disk) (names : list string) (c : Collection) (ds : WDataset V) : outcome (Collection * WDataset V) :=
  match names with
  | [] => Ok (c, ds)
  | name :: names =>
      match GetSubcomponent name c with
      | None => load_into d names c ds
      | Some x =>
          match LoadAndFill d x with
          | (Ok assigns, x) =>
              load_into d names (put_component name x c) (if assigns : bool then assign_value name (comp_value x) ds else ds)
          | (Error e, _) => Error e
          | (Panic, _) => Panic
          end
      end
  end.
Definition ToDataset (d : Disk) (c : Collection) : outcome (WDataset V) :=
  ds ← match GetSubcomponent "dataset" c with
       | None => Ok no_dataset
       | Some (DatasetComponent _ (Some ds)) => Ok ds
       | Some (DatasetComponent _ None) => Panic
       | Some _ => Error (Errorf "could not cast component to a Dataset" [])
       end;
  r ← load_into d ["meta"; "commit"; "structure"; "readme"; "transform"] c ds;
  Ok (match GetSubcomponent "body" c with
      | Some body => if IsLoaded (Base body) then r.2 else set_BodyPath (SourceFile (Base body)) r.2
      | None => r.2
      end).
End components.
