(* ===== verification/WorkingDir.v ===== *)
(** * Working directories (src/base/component/list_dir.go, src/fsi/mapping.go,
    src/fsi/status.go)

    The components in a directory, datasets written to directories and read
    from them, and how a directory differs from the stored version. *)
From S2P Require Export Components.

Definition ErrNoDatasetFiles : error := ErrSentinel "no dataset files provided".

(** ** Listing a directory *)

(** [GetKnownFilenames] *)
Definition componentExtensionTypes : list string := [".json"; ".yml"; ".yaml"].
Definition GetKnownFilenames : list (string * list string) :=
  [("dataset", componentExtensionTypes); ("commit", componentExtensionTypes); ("meta", componentExtensionTypes);
   ("structure", componentExtensionTypes); ("viz", [".html"]); ("readme", [".md"; ".html"]); ("transform", [".star"]);
   ("body", [".csv"; ".json"; ".cbor"; ".xlsx"])].
Definition allowed_extensions (name : string) : option (list string) :=
  snd ∘ snd <$> find_index_from (λ ne, bool_decide (ne.1 = name)) 0 GetKnownFilenames.
Definition normalizeExtensionFormat (text : string) : string :=
  let text := strings_TrimPrefix text "." in
  if decide (text = "yml") then "yaml" else text.

(** The component a file name stands for, and its extension, when it is known;
    [IsKnownFilename] of a path *)
Definition drop_suffix (s suffix : string) : string :=
  of_bytes (take (String.length s - String.length suffix) (bytes s)).
Definition known_file (name : string) : option (string * string) :=
  let ext := filepath_Ext name in
  let componentName := strings_ToLower (drop_suffix name ext) in
  match allowed_extensions componentName with
  | Some exts => if decide (ext ∈ exts) then Some (componentName, ext) else None
  | None => None
  end.
Definition IsKnownFilename (fullpath : string) : bool :=
  bool_decide (is_Some (known_file (filepath_Base fullpath))).

Section working.
Context {V : Type} `{L : !ComponentLib V, O : !OS}.
Abbreviation Coll := (@Collection V).
Abbreviation Comp := (@Component V).

(** [ListDirectoryComponents]: a second file for a component is a conflict. *)
Definition conflict_with (name : string) (b : BaseComponent) : BaseComponent :=
  let msg := if decide (ProblemMessage b = "") then filepath_Base (SourceFile b) else ProblemMessage b in
  set_problem "conflict" (strings_Join (merge_sort String.le (strings_Split msg " " ++ [name])) " ") b.
Definition list_step (dir : string) (d : Disk) (c : Coll) (name : string) : Coll :=
  match known_file name with
  | None => c
  | Some (componentName, ext) =>
      let absPath := filepath_Abs (filepath_Join [dir; name]) in
      match GetSubcomponent componentName c with
      | Some holder =>
          put_component componentName (set_Base (conflict_with (filepath_Base absPath) (Base holder)) holder) c
      | None =>
          let time := from_option (node_time absPath) 0%Z (d !! filepath_Join [dir; name]) in
          SetSubcomponent componentName (mkBase "" "" time absPath false (normalizeExtensionFormat ext)) c
      end
  end.
Definition ListDirectoryComponents (dir : string) (d : Disk) : outcome Coll :=
  names ← ReadDir dir d;
  let c := foldl (list_step dir d) (mkCollection FilesysContainer ∅) names in
  if decide (Subcomponents c = ∅) then Error ErrNoDatasetFiles else Ok c.

(** [assignField]: a component of the dataset's file that has a file of its own
    is a conflict. *)
Definition assignField (name : string) (parent : BaseComponent) (fill : Comp → Comp) (c : Coll) : Coll :=
  match GetSubcomponent name c with
  | Some found =>
      let msg := filepath_Base (SourceFile (Base found)) +:+ " " +:+ filepath_Base (SourceFile parent) in
      put_component name (set_Base (set_problem "conflict" msg (Base found)) found) c
  | None =>
      match new_component name (mkBase "" "" (c_ModTime parent) (SourceFile parent) false (c_Format parent)) with
      | Some x => put_component name (fill x) c
      | None => c
      end
  end.
Definition assign_if {A} (o : option A) (name : string) (parent : BaseComponent) (fill : A → Comp → Comp)
    (c : Coll) : Coll :=
  match o with Some v => assignField name parent (fill v) c | None => c end.

(** [ExpandListedComponents]; the structure of a body that is inlined too is
    kept with it unless it was in conflict. *)
Definition filled_value (v : V) (x : Comp) : Comp :=
  match x with ValueComponent k b _ dis => ValueComponent k (set_loaded b) (Some v) dis | _ => x end.
Definition filled_script (resolver : bool) (v : V) (x : Comp) : Comp :=
  match x with ScriptComponent k b _ _ => ScriptComponent k (set_loaded b) resolver (Some v) | _ => x end.
Definition filled_body (resolver : bool) (structure : option V) (x : Comp) : Comp :=
  match x with
  | BodyComponent b _ f st v => BodyComponent b resolver f (match structure with Some _ => structure | None => st end) v
  | _ => x
  end.
Definition expand_dataset (resolver : bool) (ds : WDataset V) (base : BaseComponent) (c : Coll) : Coll :=
  let c := put_component "dataset" (DatasetComponent base (Some ds)) c in
  let c := assign_if (wd_Commit ds) "commit" base filled_value c in
  let c := assign_if (wd_Meta ds) "meta" base filled_value c in
  let bodyStructure := match GetSubcomponent "structure" c with Some _ => None | None => wd_Structure ds end in
  let c := assign_if (wd_Structure ds) "structure" base filled_value c in
  let c := assign_if (wd_Readme ds) "readme" base (filled_script resolver) c in
  let c := assign_if (wd_Transform ds) "transform" base (filled_script resolver) c in
  assign_if (wd_Body ds) "body" base (λ _, filled_body resolver bodyStructure) c.
Definition ExpandListedComponents (resolver : bool) (d : Disk) (c : Coll) : outcome Coll :=
  match co_container c with
  | DatasetContainer => Error (Errorf "cannot expand non-filesys container" [])
  | FilesysContainer =>
      match GetSubcomponent "dataset" c with
      | None => Ok (expand_dataset resolver no_dataset zero_base c)
      | Some x =>
          match LoadFile d (Base x) with
          | (Ok fields, base) => ds ← fill_dataset fields; Ok (expand_dataset resolver ds base c)
          | (Error e, _) => Error e
          | (Panic, _) => Panic
          end
      end
  end.

(** ** Datasets as directories (mapping.go) *)

Context `{W : !MapWalk}.

(** [GetProblems], in the order of a walk *)
Definition GetProblems (c : Coll) : string :=
  match co_container c with
  | DatasetContainer => ""
  | FilesysContainer =>
      foldl (λ problems kc,
               let b := Base kc.2 in
               if decide (ProblemKind b = "") then problems
               else (if decide (problems = "") then problems else problems +:+ " ") +:+
                    ProblemKind b +:+ ":[" +:+ ProblemMessage b +:+ "]") "" (walk (Subcomponents c))
  end.

(** [localPathToFSIPath] and [ReadDir], here of a dataset *)
Definition PathPrefix : string := "/fsi".
Definition localPathToFSIPath (absLocalPath : string) : string :=
  if decide (absLocalPath = "") then ""
  else if strings_HasPrefix absLocalPath PathPrefix then absLocalPath
  else PathPrefix +:+ absLocalPath.
Definition set_Path (path : string) (ds : WDataset V) : WDataset V :=
  mkWDataset (wd_Commit ds) (wd_Meta ds) (wd_Structure ds) (wd_Readme ds) (wd_Transform ds) (wd_Body ds) (wd_BodyFile ds)
    (wd_BodyPath ds) path (wd_Peername ds) (wd_PreviousPath ds).
Definition ReadDir_dataset (dir : string) (d : Disk) : outcome (WDataset V) :=
  c ← ListDirectoryComponents dir d;
  c ← ExpandListedComponents false d c;
  if decide (GetProblems c = "") then
    ds ← ToDataset d c; Ok (set_Path (localPathToFSIPath (wd_Path ds)) ds)
  else Error (Errorf (GetProblems c) []).

(** [WriteComponents]; errors of writing a component are not looked at. *)
Fixpoint write_each (dirPath : string) (c : Coll) (names : list string) : stM Disk unit := λ d,
  match names with
  | [] => (Ok tt, d)
  | name :: names =>
      match GetSubcomponent name c with
      | None => write_each dirPath c names d
      | Some x =>
          match WriteTo dirPath (x, d) with
          | (Panic, (_, d)) => (Panic, d)
          | (_, (_, d)) => write_each dirPath c names d
          end
      end
  end.
Definition WriteComponents (ds : WDataset V) (dirPath : string) : stM Disk unit :=
  c ← st_lift (ConvertDatasetToComponents ds);
  let c := RemoveSubcomponent "stats" (RemoveSubcomponent "commit" c) in
  c ← st_lift (drop_derived c);
  write_each dirPath c AllSubcomponentNames.

(** [WriteComponent] and [DeleteComponent] *)
Definition WriteComponent (c : Coll) (name dirPath : string) : stM Disk string := λ d,
  match GetSubcomponent name c with
  | None => (Ok "", d)
  | Some x => let '(r, (_, d)) := WriteTo dirPath (x, d) in (r, d)
  end.
Definition DeleteComponent (c : Coll) (name dirPath : string) : stM Disk unit :=
  match GetSubcomponent name c with None => mret tt | Some x => RemoveFrom dirPath x end.

(** [DeleteDatasetFiles], and [DeleteComponentFiles] of fsi.go *)
Fixpoint remove_sources (ignore_missing : bool) (c : Coll) (names : list string) : stM Disk unit :=
  match names with
  | [] => mret tt
  | name :: names =>
      match GetSubcomponent name c with
      | None => remove_sources ignore_missing c names
      | Some x =>
          (if ignore_missing then remove_if_there (SourceFile (Base x)) else Remove (SourceFile (Base x)));;
          remove_sources ignore_missing c names
      end
  end.
Definition remove_if_empty (dirPath : string) : stM Disk unit := λ d,
  match Remove dirPath d with
  | (Error e, d) => if strings_Contains (error_text e) "directory not empty" then (Ok tt, d) else (Error e, d)
  | r => r
  end.
Definition DeleteDatasetFiles (dirPath : string) : stM Disk unit :=
  c ← st_read (ListDirectoryComponents dirPath);
  remove_sources true c (AllSubcomponentNames ++ ["dataset"]);;
  remove_if_empty dirPath.
Definition DeleteComponentFiles (dir : string) : stM Disk unit :=
  c ← st_read (ListDirectoryComponents dir); remove_sources false c AllSubcomponentNames.

(** ** Status (status.go) *)
Record StatusItem : Type := mkStatusItem {
  si_SourceFile : string;
  si_Component : string;
  si_Type : string;
  si_Mtime : Z;
}.
Definition item_of (name type : string) (b : BaseComponent) : StatusItem := mkStatusItem (SourceFile b) name type (c_ModTime b).

(** [CalculateStateTransition]; Go's zero time is 0. *)
Definition transition (d : Disk) (name : string) (prevComp nextComp : option Comp) : outcome (list StatusItem) :=
  match nextComp with
  | Some next =>
      if decide (ProblemKind (Base next) ≠ "") then Ok [item_of name (ProblemKind (Base next)) (Base next)]
      else
        match prevComp with
        | None => Ok [item_of name "add" (Base next)]
        | Some prev =>
            match Compare d prev next with
            | (Ok isEqual, (_, next)) => Ok [item_of name (if isEqual : bool then "unmodified" else "modified") (Base next)]
            | (Error _, (_, next)) => Ok [item_of name "parse error" (Base next)]
            | (Panic, _) => Panic
            end
        end
  | None => match prevComp with Some _ => Ok [mkStatusItem "" name "removed" 0] | None => Ok [] end
  end.
Fixpoint transitions (d : Disk) (names : list string) (prev next : Coll) : outcome (list StatusItem) :=
  match names with
  | [] => Ok []
  | name :: names =>
      items ← transition d name (GetSubcomponent name prev) (GetSubcomponent name next);
      rest ← transitions d names prev next;
      Ok (items ++ rest)
  end.
Definition CalculateStateTransition (d : Disk) (prev next : Coll) : outcome (list StatusItem) :=
  rest ← transitions d AllSubcomponentNames prev next;
  Ok (match GetSubcomponent "dataset" next with
      | Some x => if decide (ProblemKind (Base x) = "") then [] else [item_of "dataset" (ProblemKind (Base x)) (Base x)]
      | None => []
      end ++ rest).

(** [FSI.Status] once the stored version is loaded, and the check that
    [IsWorkingDirectoryClean] makes of it *)
Definition ErrWorkingDirectoryDirty : error := ErrSentinel "working directory is dirty".
Definition without_commit (ds : WDataset V) : WDataset V :=
  mkWDataset None (wd_Meta ds) (wd_Structure ds) (wd_Readme ds) (wd_Transform ds) (wd_Body ds) (wd_BodyFile ds)
    (wd_BodyPath ds) (wd_Path ds) "" (wd_PreviousPath ds).
Definition status_against (stored : WDataset V) (dir : string) (d : Disk) : outcome (list StatusItem) :=
  working ← ListDirectoryComponents dir d;
  working ← ExpandListedComponents true d working;
  prev ← ConvertDatasetToComponents (without_commit (ds_DropDerivedValues stored));
  CalculateStateTransition d prev working.
Definition all_unmodified (changes : list StatusItem) : bool := forallb (λ ch, bool_decide (si_Type ch = "unmodified")) changes.
Definition clean_error (changes : list StatusItem) : outcome unit :=
  if all_unmodified changes then Ok tt else Error ErrWorkingDirectoryDirty.

(** [StatusAtVersion] once both versions are loaded *)
Definition version_components (ds : WDataset V) : outcome Coll :=
  c ← ConvertDatasetToComponents ds; drop_derived (RemoveSubcomponent "commit" c).
Definition status_between (d : Disk) (prev next : WDataset V) : outcome (list StatusItem) :=
  prevCompCollect ← version_components prev;
  nextCompCollect ← version_components next;
  changes ← CalculateStateTransition d prevCompCollect nextCompCollect;
  Ok (map (λ ch, if decide (si_Component ch ∈ ["meta"; "body"; "structure"])
                 then mkStatusItem (si_Component ch) (si_Component ch) (si_Type ch) (si_Mtime ch) else ch) changes).
End working.
