(* ===== verification/Links.v ===== *)
(** * Linked directories (src/fsi/fsi.go, src/fsi/init.go, src/fsi/linkfile)

    A dataset is linked to a working directory from both ends: by a hidden file
    in the directory, and by the directory's path in the reference store. The
    store, the logbook and the disk are one state; events go to the publisher
    of the logbook, which is the same bus. *)
From S2P Require Export Refstore Logbook WorkingDir.

Definition ErrNoLink : error := ErrSentinel "dataset is not linked to the filesystem".

(** ** Link files (linkfile.go, hiddenfile_unix.go) *)
Definition RefLinkTextFilename : string := "qri-ref.txt".
Definition RefLinkHiddenFilename : string := ".qri-ref".
Definition refText (ref : Ref) : string :=
  if decide (ref_Path ref = "") then ref_Username ref +:+ "/" +:+ ref_Name ref
  else ref_Username ref +:+ "/" +:+ ref_Name ref +:+ "@" +:+ ref_Path ref.

Section linkfile.
Context `{!OS}.
Definition linkfile_Read (filename : string) (d : Disk) : outcome Ref :=
  text ← ReadFile filename d;
  match Parse (strings_TrimSpace text) with (ref, None) => Ok ref | (_, Some e) => Error e end.
Definition ExistsInDir (dir : string) (d : Disk) : bool :=
  stat_exists (filepath_Join [dir; RefLinkTextFilename]) d || stat_exists (filepath_Join [dir; RefLinkHiddenFilename]) d.
Definition WriteTextInDir (dir : string) (ref : Ref) : stM Disk string :=
  let filename := filepath_Join [dir; RefLinkTextFilename] in WriteFile filename (refText ref);; mret filename.
Definition WriteHiddenFile (path content : string) : stM Disk unit :=
  if strings_HasPrefix (filepath_Base path) "." then WriteFile path content
  else st_fail (Errorf "hidden files must begin with %s" [quoted "."]).
Definition WriteHiddenInDir (dir : string) (ref : Ref) : stM Disk string :=
  let filename := filepath_Join [dir; RefLinkHiddenFilename] in WriteHiddenFile filename (refText ref);; mret filename.
Definition GetLinkedFilesysRef (dir : string) (d : Disk) : option Ref :=
  match linkfile_Read (filepath_Join [dir; RefLinkHiddenFilename]) d with Ok ref => Some ref | _ => None end.

(** ** Removing directories

    [isLowValueFile] by name, [filepath.Walk] in its order, and the two ways to
    remove a directory, which log what fails *)
Definition strings_HasSuffix (s suffix : string) : bool :=
  strings_HasPrefix (of_bytes (reverse (bytes s))) (of_bytes (reverse (bytes suffix))).
Definition newline_byte : ascii := ascii_of_nat 10.
Definition isLowValueFile (name : string) : bool :=
  (strings_HasPrefix name "." && strings_HasSuffix name ".swp" && bool_decide (5 ≤ String.length name) &&
   forallb (λ c, negb (bool_decide (c = newline_byte))) (bytes name)) ||
  bool_decide (name ∈ [".DS_Store"; ".AppleDouble"; ".LSOverride"; "Icon" +:+ String (ascii_of_nat 13) ""; "__MACOSX";
                       "Thumbs.db"; "ehthumbs.db"; "Desktop.ini"]) ||
  strings_HasPrefix name "._" || strings_Contains name ".Trashes".
Fixpoint walk_files (fuel : nat) (path : string) (d : Disk) : list string :=
  match fuel with
  | 0 => []
  | S fuel =>
      path :: match d !! path with
              | Some Dir => flat_map (λ name, walk_files fuel (filepath_Join [path; name]) d) (entry_names path d)
              | _ => []
              end
  end.
Definition getLowValueFiles (dir : string) (d : Disk) : list string :=
  filter (λ path, isLowValueFile (filepath_Base path) = true ∧ stat_exists path d = true) (walk_files (S (size d)) dir d).
Fixpoint remove_each (paths : list string) : stM Disk unit :=
  match paths with [] => mret tt | path :: paths => Remove path;; remove_each paths end.
Definition removeLowValueFiles (dir : string) : stM Disk unit := λ d, remove_each (getLowValueFiles dir d) d.
Definition logged {S} (m : stM S unit) : stM S unit := λ s,
  match m s with (Error _, s) => (Ok tt, s) | r => r end.
Definition fsi_Remove (dirPath : string) : stM Disk unit := logged (remove_if_empty dirPath).
Definition fsi_RemoveAll (dirPath : string) : stM Disk unit :=
  logged (removeLowValueFiles dirPath);; logged (remove_if_empty dirPath).
End linkfile.

(** [FilesystemPathToLocal], [IsFSIPath] and [RepoPath] *)
Definition FilesystemPathToLocal (qfsPath : string) : string := strings_TrimPrefix qfsPath PathPrefix.
Definition IsFSIPath (path : string) : bool := strings_HasPrefix path PathPrefix.
Definition RepoPath (repoPath : string) : string := filepath_Join [repoPath; "fsi.qfb"].

(** ** FSI *)

(** [event.FSICreateLinkEvent], published next to changes of datasets *)
Class LinkPublisher (P : Type) : Type := PublishLink : string → string → string → stM P unit.

Section fsi.
Context `{OpDigest, BookCipher, Entropy} {F P : Type} `{Filesystem F, Publisher P, LinkPublisher P}.
Context `{ProfileIDs, ProfileStore PS} (ps : PS) `{!OS}.

(** [type FSI struct], with the disk *)
Record FSI : Type := mkFSI {
  fsi_refs : MemRefstore;
  fsi_book : @Book _ F P;
  fsi_disk : Disk;
}.
Definition on_refs {A} (m : MemRefstore → outcome (A * MemRefstore)) : stM FSI A := λ w,
  match m (fsi_refs w) with
  | Ok (a, r) => (Ok a, mkFSI r (fsi_book w) (fsi_disk w))
  | Error e => (Error e, w)
  | Panic => (Panic, w)
  end.
Definition on_fsi_book {A} (m : stM (@Book _ F P) A) : stM FSI A :=
  st_zoom fsi_book (λ b w, mkFSI (fsi_refs w) b (fsi_disk w)) m.
Definition on_fsi_disk {A} (m : stM Disk A) : stM FSI A := st_zoom fsi_disk (λ d w, mkFSI (fsi_refs w) (fsi_book w) d) m.
Definition on_bus {A} (m : stM P A) : stM FSI A := on_fsi_book (st_zoom b_publisher set_publisher m).

Definition get_info (ref : Ref) : stM FSI VersionInfo := on_refs (λ r, vi ← GetVersionInfoShim ref r; Ok (vi, r)).
Definition put_info (vi : VersionInfo) : stM FSI unit := on_refs (λ r, r ← PutVersionInfoShim ps vi r; Ok (tt, r)).
Definition delete_info (ref : Ref) : stM FSI unit := on_refs (λ r, vr ← DeleteVersionInfoShim ps ref r; Ok (tt, vr.2)).

Definition set_FSIPath (path : string) (vi : VersionInfo) : VersionInfo :=
  mkVersionInfo (vi_InitID vi) (vi_Username vi) (vi_ProfileID vi) (vi_Name vi) (vi_Path vi) (vi_Published vi) (vi_Foreign vi)
    (vi_MetaTitle vi) (vi_ThemeList vi) (vi_BodySize vi) (vi_BodyRows vi) (vi_BodyFormat vi) (vi_NumErrors vi)
    (vi_CommitTime vi) (vi_CommitTitle vi) (vi_CommitMessage vi) (vi_NumVersions vi) path (vi_RunID vi) (vi_RunStatus vi)
    (vi_RunDuration vi).
Definition set_ref_Path (path : string) (ref : Ref) : Ref :=
  mkRef (ref_InitID ref) (ref_Username ref) (ref_ProfileID ref) (ref_Name ref) path.

(** [ResolvedPath] *)
Definition ResolvedPath (ref : Ref) (w : FSI) : outcome Ref :=
  if decide (ref_InitID ref = "") then Error (Errorf "initID is required" [])
  else
    match GetVersionInfoShim ref (fsi_refs w) with
    | Ok vi => if decide (vi_FSIPath vi = "") then Error ErrNoLink else Ok (set_ref_Path (PathPrefix +:+ vi_FSIPath vi) ref)
    | Error _ => Error ErrNoLink
    | Panic => Panic
    end.

(** [ListLinks]; the offset has been applied to the list already. *)
Fixpoint links_loop (offset limit : Z) (refs vis : list VersionInfo) : list VersionInfo :=
  match vis with
  | [] => refs
  | vi :: vis =>
      if decide (vi_FSIPath vi = "") then
        if decide (Z.of_nat (length refs) = limit) then refs else links_loop offset limit refs vis
      else if decide (0 < offset)%Z then links_loop (offset - 1) limit refs vis
      else
        let refs := refs ++ [vi] in
        if decide (Z.of_nat (length refs) = limit) then refs else links_loop offset limit refs vis
  end.
Definition ListLinks (offset limit : Z) (w : FSI) : outcome (list VersionInfo) :=
  allRefs ← ListDatasetsShim offset 100000 (fsi_refs w); Ok (links_loop offset limit [] allRefs).

(** [EnsureRefNotLinked] *)
Definition EnsureRefNotLinked (ref : Ref) : stM FSI unit := λ w,
  match GetVersionInfoShim ref (fsi_refs w) with
  | Ok stored =>
      if decide (vi_FSIPath stored ≠ "" ∧ ExistsInDir (vi_FSIPath stored) (fsi_disk w) = true)
      then (Error (Errorf "%s is already linked to %s" [quoted (Human ref); vi_FSIPath stored]), w)
      else (Ok tt, w)
  | Error _ => (Ok tt, w)
  | Panic => (Panic, w)
  end.

(** [ModifyLinkDirectory] and [ModifyLinkReference] *)
Definition ModifyLinkDirectory (dirPath : string) (ref : Ref) : stM FSI VersionInfo :=
  vi ← get_info ref;
  if decide (vi_FSIPath vi = dirPath) then mret vi
  else let vi := set_FSIPath dirPath vi in put_info vi;; mret vi.
Definition ModifyLinkReference (dirPath : string) (ref : Ref) : stM FSI string :=
  on_fsi_disk (WriteHiddenInDir dirPath (set_ref_Path "" ref)).

(** [CreateLink] with the function that undoes it, here what that function does *)
Inductive link_undo : Type := NoUndo | RemoveRef (ref : Ref) | RemoveLinkAndRef (linkfilePath : string) (ref : Ref).
Definition run_link_undo (u : link_undo) : stM FSI unit :=
  match u with
  | NoUndo => mret tt
  | RemoveRef ref => logged (delete_info ref)
  | RemoveLinkAndRef path ref => logged (on_fsi_disk (Remove path));; logged (delete_info ref)
  end.
Definition or_undo {A} (u : link_undo) (m : stM FSI A) (k : A → FSI → (outcome VersionInfo * link_undo) * FSI) (w : FSI)
    : (outcome VersionInfo * link_undo) * FSI :=
  match m w with
  | (Ok a, w) => k a w
  | (Error e, w) => ((Error e, u), w)
  | (Panic, w) => ((Panic, u), w)
  end.
Definition CreateLink (dirPath : string) (ref : Ref) : FSI → (outcome VersionInfo * link_undo) * FSI :=
  or_undo NoUndo (EnsureRefNotLinked ref) (λ _,
  or_undo NoUndo (ModifyLinkDirectory dirPath ref) (λ vi,
  or_undo (RemoveRef ref) (ModifyLinkReference dirPath ref) (λ linkfilePath,
  let undo := RemoveLinkAndRef linkfilePath ref in
  or_undo undo (on_bus (PublishLink dirPath (vi_Username vi) (vi_Name vi))) (λ _,
  or_undo undo (on_bus (Publish ETDatasetCreateLink
    (mkDsChange (ref_InitID ref) 0 "" (vi_Username vi) (vi_Name vi) "" None dirPath))) (λ _,
  λ w, ((Ok vi, undo), w)))))).

(** [Unlink]: the link file goes in any case; a reference without a version is
    deleted. *)
Definition Unlink (dirPath : string) (ref : Ref) : stM FSI unit :=
  logged (on_fsi_disk (Remove (filepath_Join [dirPath; RefLinkHiddenFilename])));;
  if IsEmpty ref then mret tt
  else
    vi ← get_info ref;
    if decide (ref_Path ref = "") then delete_info ref else put_info (set_FSIPath "" vi).

(** ** Creating a dataset with its directory (init.go) *)

(** [type InitParams struct] *)
Record InitParams : Type := mkInitParams {
  ip_TargetDir : string;
  ip_Name : string;
  ip_Format : string;
  ip_BodyPath : string;
}.

(** [SplitDirByExist]: the path up to the first segment that is missing, and
    the rest *)
Definition join_rooted (segments : list string) : string := "/" +:+ filepath_Join segments.
Fixpoint split_dir_loop (n : nat) (segments : list string) (d : Disk) (i : nat) : option nat :=
  match n with
  | 0 => None
  | S n =>
      if stat_exists (join_rooted (take (S i) segments)) d then split_dir_loop n segments d (S i) else Some i
  end.
Definition SplitDirByExist (fullpath : string) (d : Disk) : string * string :=
  let segments := strings_Split fullpath "/" in
  match split_dir_loop (length segments - 1) segments d 1 with
  | Some i => (join_rooted (take i segments), filepath_Join (drop i segments))
  | None => (fullpath, "")
  end.

(** [CanInitDatasetWorkDir] *)
Definition CanInitDatasetWorkDir (dir bodyPath : string) (d : Disk) : outcome unit :=
  let relBodyPath :=
    if strings_HasPrefix bodyPath dir then strings_TrimPrefix (strings_TrimPrefix bodyPath dir) "/" else bodyPath in
  let there name := stat_exists (filepath_Join [dir; name]) d in
  if ExistsInDir dir d then Error (Errorf "working directory is already linked, .qri-ref exists" [])
  else if there "meta.json" then Error (Errorf "cannot initialize new dataset, meta.json exists" [])
  else if there "structure.json" then Error (Errorf "cannot initialize new dataset, structure.json exists" [])
  else if there "body.csv" && negb (bool_decide (relBodyPath = "body.csv"))
  then Error (Errorf "cannot initialize new dataset, body.csv exists" [])
  else if there "body.json" && negb (bool_decide (relBodyPath = "body.json"))
  then Error (Errorf "cannot initialize new dataset, body.json exists" [])
  else Ok tt.

(** What is undone when a later step fails, the last step first; errors of it
    are only logged. *)
Inductive undo : Type :=
| UndoMkdir (cleanupPath : string)
| UndoLog (ref : Ref)
| UndoLink (u : link_undo)
| UndoWrite (wroteFile : string).
Definition run_undo (u : undo) : stM FSI unit :=
  match u with
  | UndoMkdir path => logged (on_fsi_disk (RemoveAll path))
  | UndoLog ref => logged (on_fsi_book (Book_RemoveLog ref))
  | UndoLink u => run_link_undo u
  | UndoWrite file => if decide (file = "") then mret tt else logged (on_fsi_disk (Remove file))
  end.
Fixpoint run_undos (us : list undo) : stM FSI unit :=
  match us with [] => mret tt | u :: us => run_undo u;; run_undos us end.

(** The steps, over the state and what has to be undone *)
Abbreviation Init := (stM (FSI * list undo)).
Definition in_fsi {A} (m : stM FSI A) : Init A := st_zoom fst (λ w s, (w, s.2)) m.
Definition undo_with (u : undo) : Init unit := st_modify (λ s, (s.1, u :: s.2)).
Definition set_InitID (id : string) (ref : Ref) : Ref :=
  mkRef id (ref_Username ref) (ref_ProfileID ref) (ref_Name ref) (ref_Path ref).

(** The components of a new dataset: an empty meta, and a body that is given,
    whose structure is detected, or an example *)
Context {V : Type} `{L : !ComponentLib V} (empty_meta : V) (new_structure : string → bool → V)
  (detect_structure : string → string → outcome V) (resolve : Ref → FSI → outcome Ref).
Definition example_body (format : string) : data :=
  if decide (format = "csv") then
    VSlice [VSlice [VString "one"; VString "two"; VInt 3]; VSlice [VString "four"; VString "five"; VInt 6]]
  else VMap [("key", VString "value")].
Definition init_dataset (format bodyPath : string) (d : Disk) : outcome (WDataset V) :=
  if decide (bodyPath = "") then
    Ok (mkWDataset None (Some empty_meta) (Some (new_structure format (bool_decide (format = "json")))) None None
          (Some (example_body format)) None "" "" "" "")
  else
    text ← ReadFile bodyPath d;
    st ← detect_structure format text;
    Ok (mkWDataset None (Some empty_meta) (Some st) None None None None bodyPath "" "" "").

Fixpoint init_components (dir : string) (c : @Collection V) (names : list string) : Init unit :=
  match names with
  | [] => mret tt
  | name :: names =>
      match GetSubcomponent name c with
      | None => init_components dir c names
      | Some x =>
          wroteFile ← in_fsi (on_fsi_disk (λ d, let '(r, (_, d)) := WriteTo dir (x, d) in (r, d)));
          undo_with (UndoWrite wroteFile);;
          init_components dir c names
      end
  end.

Definition make_directory (dir : string) : Init unit :=
  s ← st_get;
  let '(baseDir, createDir) := SplitDirByExist dir (fsi_disk s.1) in
  if decide (createDir = "") then mret tt
  else
    in_fsi (on_fsi_disk (MkdirAll dir));;
    undo_with (UndoMkdir (filepath_Join [baseDir; default "" (head (strings_Split createDir "/"))])).
Definition format_of (p : InitParams) : string :=
  if decide (ip_Format p = "" ∧ ip_BodyPath p ≠ "") then strings_TrimPrefix (filepath_Ext (ip_BodyPath p)) "."
  else ip_Format p.
Definition create_link (dir : string) (ref : Ref) : Init unit := λ s,
  match CreateLink dir ref s.1 with
  | ((Ok _, u), w) => (Ok tt, (w, UndoLink u :: s.2))
  | ((Error e, _), w) => (Error e, (w, s.2))
  | ((Panic, _), w) => (Panic, (w, s.2))
  end.
Definition init_steps (p : InitParams) : Init Ref :=
  if negb (IsValidName (ip_Name p)) then st_fail ErrDescribeValidName
  else if decide (ip_TargetDir p = "") then st_fail (Errorf "directory is required to initialize a dataset" [])
  else
    let dir := ip_TargetDir p in
    make_directory dir;;
    s ← st_get;
    st_lift (CanInitDatasetWorkDir dir (ip_BodyPath p) (fsi_disk s.1));;
    let ref := mkRef "" (b_authorName (fsi_book s.1)) "" (ip_Name p) "" in
    match resolve ref s.1 with
    | Ok _ => st_fail (ErrWrap "%w" ["can't init a dataset with a name that already exists"]
                         (Errorf "a dataset named %s already exists" [quoted (Human ref)]))
    | Panic => st_lift Panic
    | Error _ =>
        id ← in_fsi (on_fsi_book (WriteDatasetInit (ip_Name p)));
        let ref := set_InitID id ref in
        undo_with (UndoLog ref);;
        let format := format_of p in
        if negb (bool_decide (format ∈ ["csv"; "json"]))
        then st_fail (Errorf "invalid format %s, only %s and %s accepted" [quoted format; quoted "csv"; quoted "json"])
        else
          in_fsi (put_info (set_FSIPath dir (NewVersionInfoFromRef ref)));;
          create_link dir ref;;
          s ← st_get;
          ds ← st_lift (init_dataset format (ip_BodyPath p) (fsi_disk s.1));
          c ← st_lift (ConvertDatasetToComponents ds);
          init_components dir c AllSubcomponentNames;;
          mret ref
    end.

(** [InitDataset]: whatever was done is undone unless every step went well. *)
Definition InitDataset (p : InitParams) : stM FSI Ref := λ w,
  match init_steps p (w, []) with
  | (Ok ref, (w, _)) => (Ok ref, w)
  | (r, (w, us)) => match run_undos us w with (Panic, w) => (Panic, w) | (_, w) => (r, w) end
  end.
End fsi.
