(* ===== verification/Library.v ===== *)
(** * The library of working directories (src/lib/resolve.go, load.go, fsi.go)

    References are resolved by the dataset cache, the logbook and the network,
    datasets are loaded from a directory or from the store, and the methods of
    [FSIMethods] put links, status, checkouts and restores together. The
    instance has the in-memory repository, whose references resolve by its
    logbook, and makes no remote procedure calls. *)
From S2P Require Import DatasetFiles.
From S2P Require Export Dscache Links.

(** The network's resolvers: what answers for an address, and for peers; the
    reports of two of them come in any order. *)
Class Network : Type := {
  remote_ResolveRef : string → stM Ref string;
  p2p_ResolveRef : stM Ref string;
  report_schedule : list nat;
}.

(** Opening what a dataset points to. The text of an opened script belongs to its
    value, which [ScriptFile] tells about. *)
Class DatasetFilesLib (V : Type) : Type := {
  OpenBodyFile : WDataset V → outcome (option string);
  ScriptFile : V → bool;
  OpenScriptFile : V → outcome unit;
}.

Section library.
Context `{OpDigest, BookCipher, Entropy} {F P : Type} `{Filesystem F, Publisher P, LinkPublisher P}.
Context `{ProfileIDs, ProfileStore PS} (ps : PS) `{!OS} {V : Type} `{L : !ComponentLib V} `{W : !MapWalk}.
Context `{N : !Network, !DatasetFilesLib V} {K : Type} `{!DatasetStore K} (mux : string) (of_stored : StoredDataset K → WDataset V)
  {CF : Type}.

(** ** The instance *)
Record Instance : Type := mkInstance {
  inst_fsi : @FSI _ F P;
  inst_dscache : option (Dscache CF);
  inst_Peername : string;
  inst_Registry : option string;
  inst_Remotes : gmap string string;
}.
Definition on_fsi {A} (m : stM (@FSI _ F P) A) : stM Instance A :=
  st_zoom inst_fsi (λ w i, mkInstance w (inst_dscache i) (inst_Peername i) (inst_Registry i) (inst_Remotes i)) m.
Definition refs_of (w : Instance) : MemRefstore := fsi_refs (inst_fsi w).
Definition disk_of (w : Instance) : Disk := fsi_disk (inst_fsi w).

(** ** Resolving references (resolve.go; [Address] of src/remote/remote.go) *)
Definition Address (w : Instance) (name : string) : outcome string :=
  if decide (name = "" ∨ name = "registry") then
    match inst_Registry w with
    | Some location => if decide (location = "") then Error (Errorf "no registry specifiied to use as default remote" []) else Ok location
    | None => Error (Errorf "no registry specifiied to use as default remote" [])
    end
  else
    match inst_Remotes w !! name with
    | Some dst => Ok dst
    | None => Error (Errorf "remote name %s not found" [quoted name])
    end.
Definition registryResolver (w : Instance) : stM Ref string := remote_ResolveRef (default "" (inst_Registry w)).
Definition repoResolver (w : Instance) : stM Ref string := ResolveRef (Some (fsi_book (inst_fsi w))).
Definition cacheResolver (w : Instance) : stM Ref string := ResolveRef (inst_dscache w).

(** Resolvers side by side; a wait that does not end is the context's. *)
Definition in_parallel (rs : list (stM Ref string)) : stM Ref string := λ ref,
  match parallelResolver_ResolveRef (map Some rs) (match rs with [_] => [0] | _ => report_schedule end) ref with
  | PRFound source ref' => (Ok source, ref')
  | PRError e => (Error e, ref)
  | PRPanic => (Panic, ref)
  | PRBlocked => (Error (ErrSentinel "context deadline exceeded"), ref)
  end.
Definition defaultResolver (w : Instance) : stM Ref string :=
  sequentialResolver_ResolveRef [Some (cacheResolver w); Some (repoResolver w); Some (in_parallel [registryResolver w])].
Definition resolverForMode (mode : string) (w : Instance) : outcome (stM Ref string) :=
  if decide (mode = "") then Ok (defaultResolver w)
  else if decide (mode = "local") then Ok (sequentialResolver_ResolveRef [Some (cacheResolver w); Some (repoResolver w)])
  else if decide (mode = "network") then Ok (in_parallel [registryResolver w; p2p_ResolveRef])
  else if decide (mode = "registry") then Ok (registryResolver w)
  else if decide (mode = "p2p") then Ok p2p_ResolveRef
  else addr ← Address w mode; Ok (remote_ResolveRef addr).

Definition set_ref_Username (username : string) (ref : Ref) : Ref :=
  mkRef (ref_InitID ref) username (ref_ProfileID ref) (ref_Name ref) (ref_Path ref).
Definition not_me (username : string) (ref : Ref) : Ref :=
  if decide (ref_Username ref = "me") then set_ref_Username username ref else ref.
Definition ResolveReference (mode : string) (w : Instance) : stM Ref string := λ ref,
  let ref := not_me (inst_Peername w) ref in
  match resolverForMode mode w with
  | Ok resolver => resolver ref
  | Error e => (Error e, ref)
  | Panic => (Panic, ref)
  end.
Definition not_a_reference (refStr : string) (e : error) : error :=
  ErrWrap "%s is not a valid dataset reference: %w" [quoted refStr] e.
Definition resolved (r : outcome string * Ref) : outcome (Ref * string) :=
  match r with (Ok source, ref) => Ok (ref, source) | (Error e, _) => Error e | (Panic, _) => Panic end.
Definition ParseAndResolveRef (refStr source : string) (w : Instance) : outcome (Ref * string) :=
  match Parse refStr with
  | (_, Some e) => Error (not_a_reference refStr e)
  | (ref, None) => resolved (ResolveReference source w ref)
  end.

(** [ParseAndResolveRefWithWorkingDir]: a name in upper case is let through, and
    a linked directory stands for a path that is not given. *)
Definition ParseAndResolveRefWithWorkingDir (refStr source : string) (w : Instance) : outcome (Ref * string) :=
  let '(ref, err) := Parse refStr in
  match (match err with Some e => if decide (e = ErrBadCaseName) then None else Some e | None => None end) with
  | Some e => Error (not_a_reference refStr e)
  | None =>
      rs ← resolved (ResolveReference source w ref);
      if decide (ref_Path ref = "") then
        match ResolvedPath rs.1 (inst_fsi w) with
        | Ok ref' => Ok (ref', rs.2)
        | Error e => if decide (e = ErrNoLink) then Ok rs else Error e
        | Panic => Panic
        end
      else Ok rs
  end.

(** ** Loading datasets (load.go; [OpenDataset] of src/base/dataset.go, without
    the deprecated viz)

    A readme that is not found, or takes too long, is left out. *)
Definition openReadme (ds : WDataset V) : outcome unit :=
  match wd_Readme ds with
  | Some readme =>
      if ScriptFile readme then Ok tt
      else
        match OpenScriptFile readme with
        | Error e =>
            if errors_Is e "context deadline exceeded" || strings_Contains (error_text e) "not found" then Ok tt else Error e
        | r => r
        end
  | None => Ok tt
  end.
Definition set_BodyFile (file : option string) (ds : WDataset V) : WDataset V :=
  mkWDataset (wd_Commit ds) (wd_Meta ds) (wd_Structure ds) (wd_Readme ds) (wd_Transform ds) (wd_Body ds) file
    (wd_BodyPath ds) (wd_Path ds) (wd_Peername ds) (wd_PreviousPath ds).
Definition OpenDataset (ds : WDataset V) : outcome (WDataset V) :=
  ds ← match wd_BodyFile ds with
       | Some _ => Ok ds
       | None => file ← map_error (ErrWrap "opening body file: %w" []) (OpenBodyFile ds); Ok (set_BodyFile file ds)
       end;
  match wd_Transform ds with
  | Some transform =>
      if ScriptFile transform then Ok tt else map_error (ErrWrap "opening transform file: %w" []) (OpenScriptFile transform)
  | None => Ok tt
  end;;
  map_error (ErrWrap "opening readme file: %w" []) (openReadme ds);;
  Ok ds.

Definition set_Peername (username : string) (ds : WDataset V) : WDataset V :=
  mkWDataset (wd_Commit ds) (wd_Meta ds) (wd_Structure ds) (wd_Readme ds) (wd_Transform ds) (wd_Body ds) (wd_BodyFile ds)
    (wd_BodyPath ds) (wd_Path ds) username (wd_PreviousPath ds).
Definition dsfs_LoadDataset (path : string) : outcome (WDataset V) := ds ← DatasetFiles.LoadDataset mux path; Ok (of_stored ds).
Definition loadLocalDataset (ref : Ref) (w : Instance) : outcome (WDataset V) :=
  ds ← (if IsFSIPath (ref_Path ref) then ReadDir_dataset (FilesystemPathToLocal (ref_Path ref)) (disk_of w)
        else dsfs_LoadDataset (ref_Path ref));
  OpenDataset (set_Peername (ref_Username ref) ds).

Context (PullDataset : Ref → string → stM Instance Ref).
Definition LoadDataset (ref : Ref) (source : string) : stM Instance (WDataset V) :=
  if decide (source = "") then st_read (loadLocalDataset ref)
  else ref ← PullDataset ref source; st_read (loadLocalDataset ref).

(** [NewParseResolveLoadFunc], with the resolver of a mode *)
Definition parse_resolve_load (username : string) (resolver : stM Ref string) (refStr : string) : stM Instance (WDataset V) :=
  match Parse refStr with
  | (_, Some e) => st_fail e
  | (ref, None) =>
      if decide (username = "" ∧ ref_Username ref = "me") then
        st_fail (ErrWrap "%w" ["Can't use the me keyword to refer to a dataset in this context."]
                   (Errorf "invalid contextual reference" []))
      else
        match resolver (if decide (username = "") then ref else not_me username ref) with
        | (Error e, _) =>
            if errors_Is e "reference not found" then st_fail (ErrWrap "%w" ["reference not found: " +:+ quoted refStr] e) else st_fail e
        | (Panic, _) => st_lift Panic
        | (Ok source, ref) =>
            if decide (ref_Path ref = "") then
              st_fail (ErrWrap "%w" ["can't load a dataset without saved versions: " +:+ quoted (Human ref)] (ErrSentinel "no history"))
            else LoadDataset ref source
        end
  end.
Definition NewParseResolveLoadFunc (remote : string) (w : Instance) : outcome (string → stM Instance (WDataset V)) :=
  resolver ← resolverForMode remote w; Ok (parse_resolve_load (inst_Peername w) resolver).

(** ** Status of a linked directory, whole (status.go of src/fsi) *)
Definition Status (dir : string) (w : Instance) : outcome (list StatusItem) :=
  match GetLinkedFilesysRef dir (disk_of w) with
  | None => Error (Errorf "not a linked directory" [])
  | Some ref =>
      vi ← GetVersionInfoShim ref (refs_of w);
      stored ← (if decide (vi_Path vi = "") then Ok no_dataset else dsfs_LoadDataset (vi_Path vi));
      status_against stored dir (disk_of w)
  end.
Definition IsWorkingDirectoryClean (dir : string) (w : Instance) : outcome unit :=
  changes ← Status dir w; clean_error changes.
Definition StatusAtVersion (ref : Ref) (w : Instance) : outcome (list StatusItem) :=
  if decide (ref_Path ref = "") then Error (Errorf "path is required to determine status at version" [])
  else
    next ← dsfs_LoadDataset (ref_Path ref);
    prev ← (if decide (wd_PreviousPath next = "") then Ok no_dataset
            else match dsfs_LoadDataset (wd_PreviousPath next) with
                 | Error e => if strings_Contains (error_text e) "deadline exceeded" then Ok no_dataset else Error e
                 | r => r
                 end);
    status_between (disk_of w) prev next.

(** ** FSIMethods (fsi.go) *)

(** [CreateLink]: the version info of the link does not reach the caller. *)
Definition FSIMethods_CreateLink (dir refStr : string) : stM Instance unit :=
  rs ← st_read (ParseAndResolveRef refStr "local");
  on_fsi (λ w, let '((r, _), w) := CreateLink ps (filepath_Abs dir) rs.1 w in ((r;; Ok tt), w)).

(** [Unlink]: given a directory or a reference *)
Definition FSIMethods_Unlink (dir refStr : string) : stM Instance string :=
  if decide (dir ≠ "" ∧ refStr ≠ "") then st_fail (Errorf "Unlink should be called with either Dir or Ref, not both" [])
  else
    dr ← (if decide (dir = "") then
            rs ← st_read (ParseAndResolveRef refStr "local");
            vi ← st_read (λ w, GetVersionInfoShim rs.1 (refs_of w));
            if decide (vi_FSIPath vi = "") then st_fail (Errorf "%s is not linked to a working directory" [Human rs.1])
            else mret (vi_FSIPath vi, rs.1)
          else mret (dir, zero_Ref));
    on_fsi (Unlink ps dr.1 dr.2);;
    mret (Alias dr.2).

(** [StatusForAlias] and [WhatChanged] *)
Definition StatusForAlias (alias : string) (w : Instance) : outcome (list StatusItem) :=
  match ParseHumanFriendly alias with
  | (_, Some e) => Error e
  | (ref, None) => vi ← GetVersionInfoShim ref (refs_of w); Status (vi_FSIPath vi) w
  end.
Definition WhatChanged (refStr : string) (w : Instance) : outcome (list StatusItem) :=
  rs ← ParseAndResolveRef refStr "local" w; StatusAtVersion rs.1 w.

(** [Checkout]; a failing link or write leaves what was done. *)
Definition Checkout (dir refStr : string) : stM Instance unit :=
  if negb (strings_HasPrefix dir "/") then st_fail (Errorf "need Dir to be a non-empty, absolute path" [])
  else
    w ← st_get;
    if stat_exists dir (disk_of w) then st_fail (Errorf "directory with name %s already exists" [quoted dir])
    else
      rs ← st_read (ParseAndResolveRef refStr "");
      if decide (rs.2 ≠ "") then
        st_fail (Errorf "auto-adding on checkout is not yet supported, please run `qri add %s` first" [quoted (Human rs.1)])
      else
        on_fsi (EnsureRefNotLinked rs.1);;
        ds ← LoadDataset rs.1 "";
        on_fsi (on_fsi_disk (Mkdir dir));;
        on_fsi (λ w, let '((r, _), w) := CreateLink ps dir rs.1 w in ((r;; Ok tt), w));;
        logged (on_fsi (on_fsi_disk (WriteComponents ds dir))).

(** [Write] *)
Definition FSIMethods_Write (refStr : string) (ds : option (WDataset V)) : stM Instance (list StatusItem) :=
  match ds with
  | None => st_fail (Errorf "dataset is required" [])
  | Some ds =>
      rs ← st_read (ParseAndResolveRef refStr "local");
      vi ← st_read (λ w, match GetVersionInfoShim rs.1 (refs_of w) with
                         | Error e => if decide (e = ErrNoHistory) then Panic else Error e
                         | r => r
                         end);
      if decide (vi_FSIPath vi = "") then st_fail ErrNoLink
      else
        on_fsi (on_fsi_disk (WriteComponents ds (vi_FSIPath vi)));;
        st_read (Status (vi_FSIPath vi))
  end.

(** [Restore]: components of the version are written, others deleted; errors of
    it are not looked at. *)
Fixpoint restore_each (component dir : string) (repoContainer diskContainer : @Collection V) (names : list string) : stM Disk unit :=
  match names with
  | [] => mret tt
  | name :: names =>
      (if decide (component = "" ∨ component = name) then
         match GetSubcomponent name repoContainer with
         | None => logged (DeleteComponent diskContainer name dir)
         | Some _ => logged (WriteComponent repoContainer name dir;; mret tt)
         end
       else mret tt);;
      restore_each component dir repoContainer diskContainer names
  end.
Definition Restore (dir refStr component : string) : stM Instance unit :=
  rs ← st_read (ParseAndResolveRef refStr "local");
  let ref := rs.1 in
  dir ← (if decide (dir = "") then
           fsiRef ← st_read (λ w, ResolvedPath ref (inst_fsi w)); mret (FilesystemPathToLocal (ref_Path fsiRef))
         else mret dir);
  if decide (dir = "") then st_fail (Errorf "no FSIPath or Dir given" [])
  else
    ds ← st_lift (if decide (ref_Path ref = "") then Ok no_dataset
                  else
                    ds ← match dsfs_LoadDataset (ref_Path ref) with
                         | Error e => Error (Errorf "loading dataset: %s" [error_text e])
                         | r => r
                         end;
                    OpenDataset ds);
    c ← st_lift (ConvertDatasetToComponents ds);
    repoContainer ← st_lift (drop_derived (RemoveSubcomponent "commit" c));
    diskContainer ← st_read (λ w, ListDirectoryComponents dir (disk_of w));
    diskContainer ← st_read (λ w, ExpandListedComponents true (disk_of w) diskContainer);
    on_fsi (on_fsi_disk (restore_each component dir repoContainer diskContainer AllSubcomponentNames)).

(** [InitDataset] and [CanInitDatasetWorkDir]; [qfs.AbsPath] leaves a path
    that is empty or not a local one as it is. *)
Context (AbsPath : string → outcome string) (empty_meta : V) (new_structure : string → bool → V)
  (detect_structure : string → string → outcome V).
Definition book_resolve (ref : Ref) (w : @FSI _ F P) : outcome Ref :=
  match ResolveRef (Some (fsi_book w)) ref with (Ok _, ref) => Ok ref | (Error e, _) => Error e | (Panic, _) => Panic end.
Definition enable_dscache : stM Instance unit := λ w,
  match inst_dscache w with
  | None => (Panic, w)
  | Some d =>
      let d := mkDscache (d_Filename d) (d_Root d) (d_Buffer d) true (d_ProfileIDToUsername d) (d_DefaultUsername d) (d_disk d) in
      (Ok tt, mkInstance (inst_fsi w) (Some d) (inst_Peername w) (inst_Registry w) (inst_Remotes w))
  end.
Definition FSIMethods_InitDataset (UseDscache : bool) (p : InitParams) : stM Instance string :=
  bodyPath ← st_lift (AbsPath (ip_BodyPath p));
  dir ← st_lift (AbsPath (if decide (ip_TargetDir p = "") then "." else ip_TargetDir p));
  (if UseDscache then enable_dscache else mret tt);;
  ref ← on_fsi (InitDataset ps empty_meta new_structure detect_structure book_resolve
                  (mkInitParams dir (ip_Name p) (ip_Format p) bodyPath));
  mret (Human ref).
Definition FSIMethods_CanInitDatasetWorkDir (p : InitParams) (w : Instance) : outcome unit :=
  CanInitDatasetWorkDir (ip_TargetDir p) (ip_BodyPath p) (disk_of w).

(** [EnsureRef]: what is stored, once the error is looked at *)
Definition EnsureRef (dir refStr : string) : stM Instance VersionInfo :=
  match Parse refStr with
  | (_, Some e) => st_fail e
  | (ref, None) => λ w,
      match on_fsi (get_info ref) w with
      | (Error _, w) => (Panic, w)
      | _ => on_fsi (ModifyLinkDirectory ps dir ref) w
      end
  end.

(** [PathJoinPosix] *)
Definition PathJoinPosix (left right : string) : string := filepath_Join [left; right].
End library.
