(* ===== verification/Repository.v ===== *)
(** * The operations of a repository (src/base/ref.go, remove.go, log.go)

    A repository has the store of references, the logbook, and the filesystem
    that holds the versions. Renaming, removing and rewinding change all three,
    one after the other, without a transaction. The repository is the in-memory
    one, whose references resolve by its logbook. *)
From S2P Require Import DatasetFiles.
From S2P Require Export Refstore Logbook.

(** ** The filesystem of versions

    What it holds is read as [DatasetStore] says; deleting may fail. A read
    that waits longer than its time allows is an error of the filesystem. *)
Class VersionFS (S K : Type) : Type := {
  store_of : S → DatasetStore K;
  fs_Delete : string → stM S unit;
  fs_Has : string → S → outcome bool;
}.

Definition ErrDatasetLogTimeout : error := ErrSentinel "datasetLog: timeout".
Definition ErrDsrefPathRequired : error := ErrSentinel "reference path value is required".

(** Going on after an error, which is kept *)
Definition attempt {S A} (m : stM S A) : stM S (A + error) := λ s,
  match m s with
  | (Ok a, s) => (Ok (inl a), s)
  | (Error e, s) => (Ok (inr e), s)
  | (Panic, s) => (Panic, s)
  end.

Section repository.
Context `{OpDigest, BookCipher, Entropy} {F P : Type} `{Filesystem F, Publisher P} `{ProfileIDs, ProfileStore PS} (ps : PS).
Context {S K : Type} `{!VersionFS S K} (mux : string) (view : StoredDataset K → Dataset).

Record Repo : Type := mkRepo {
  r_refs : MemRefstore;
  r_book : @Book _ F P;
  r_store : S;
}.
Definition on_repo_refs {A} (m : MemRefstore → outcome (A * MemRefstore)) : stM Repo A := λ r,
  match m (r_refs r) with
  | Ok (a, refs) => (Ok a, mkRepo refs (r_book r) (r_store r))
  | Error e => (Error e, r)
  | Panic => (Panic, r)
  end.
Definition on_repo_book {A} (m : stM (@Book _ F P) A) : stM Repo A :=
  st_zoom r_book (λ b r, mkRepo (r_refs r) b (r_store r)) m.
Definition on_repo_store {A} (m : stM S A) : stM Repo A := st_zoom r_store (λ s r, mkRepo (r_refs r) (r_book r) s) m.

Definition repo_get (ref : Ref) : stM Repo VersionInfo := on_repo_refs (λ r, vi ← GetVersionInfoShim ref r; Ok (vi, r)).
Definition repo_put (vi : VersionInfo) : stM Repo unit := on_repo_refs (λ r, r ← PutVersionInfoShim ps vi r; Ok (tt, r)).
Definition repo_delete (ref : Ref) : stM Repo VersionInfo := on_repo_refs (DeleteVersionInfoShim ps ref).
Definition repo_PutRef (ref : Refstore.DatasetRef) : stM Repo unit := on_repo_refs (λ r, r ← PutRef ref r; Ok (tt, r)).
Definition repo_DeleteRef (ref : Refstore.DatasetRef) : stM Repo unit := on_repo_refs (λ r, r ← DeleteRef ref r; Ok (tt, r)).

(** [MemRepo.ResolveRef] of a copy of the reference *)
Definition repo_ResolveRef (ref : Ref) (r : Repo) : outcome string * Ref := ResolveRef (Some (r_book r)) ref.

(** Reading versions: [dsfs.LoadDatasetRefs] and [dsfs.LoadDataset] *)
Definition load_refs (path : string) (s : S) : outcome (StoredDataset K) := @LoadDatasetRefs K (store_of s) mux path.
Definition load_full (path : string) (s : S) : outcome (StoredDataset K) := @DatasetFiles.LoadDataset K (store_of s) mux path.

(** ** References (ref.go) *)

(** [InLocalNamespace] and [SetPublishStatus] *)
Definition InLocalNamespace (ref : Ref) : bool := bool_decide (ID_String (pro_ID (Owner ps)) = ref_ProfileID ref).
Definition SetPublishStatus (ref : Ref) (published : bool) : stM Repo unit :=
  if InLocalNamespace ref then repo_put (set_Published published (NewVersionInfoFromRef ref))
  else st_fail (Errorf "can't publish datasets that are not in your namespace" []).

(** [ReplaceRefIfMoreRecent] *)
Definition commit_time (r : option Refstore.DatasetRef) : option Z :=
  r ← r; ds ← dr_Dataset r; c ← ds_Commit ds; Some (cm_Timestamp c).
Definition ReplaceRefIfMoreRecent (prev curr : option Refstore.DatasetRef) : stM Repo unit :=
  match curr, commit_time curr with
  | Some new, Some currTime =>
      match commit_time prev with
      | Some prevTime =>
          if decide (prevTime ≤ currTime)%Z then
            λ r, match repo_PutRef new r with
                 | (Error e, r) => (Error (Errorf "error putting dataset name in repo: %s" [error_text e]), r)
                 | x => x
                 end
          else mret tt
      | None => st_fail (Errorf "previous dataset ref is not fully derefernced" [])
      end
  | _, _ => st_fail (Errorf "added dataset ref is not fully dereferenced" [])
  end.

(** [RenameDatasetRef]: the logbook is renamed before the reference is. *)
Definition renamed (id name : string) (vi : VersionInfo) : VersionInfo :=
  mkVersionInfo id (vi_Username vi) (vi_ProfileID vi) name (vi_Path vi) (vi_Published vi) (vi_Foreign vi)
    (vi_MetaTitle vi) (vi_ThemeList vi) (vi_BodySize vi) (vi_BodyRows vi) (vi_BodyFormat vi) (vi_NumErrors vi)
    (vi_CommitTime vi) (vi_CommitTitle vi) (vi_CommitMessage vi) (vi_NumVersions vi) (vi_FSIPath vi) (vi_RunID vi)
    (vi_RunStatus vi) (vi_RunDuration vi).
Definition RenameDatasetRef (ref : Ref) (newName : string) : stM Repo VersionInfo :=
  if negb (IsValidName newName) then st_fail ErrDescribeValidName
  else if decide (ref_Name ref = newName) then st_fail (Errorf "cannot rename without changing the dataset names" [])
  else
    let next := mkRef "" (ref_Username ref) "" newName "" in
    r ← st_get;
    match (repo_ResolveRef next r).1 with
    | Ok _ => st_fail (Errorf "dataset %s already exists" [quoted (Human next)])
    | Panic => st_lift Panic
    | Error e =>
        if errors_Is e "reference not found" then
          on_repo_book (WriteDatasetRename (ref_InitID ref) newName);;
          vi ← repo_delete ref;
          let vi := renamed (ref_InitID ref) newName vi in
          repo_put vi;;
          mret vi
        else st_fail (ErrWrap "error with new reference: %w" [] e)
    end.

(** [ModifyRepoUsername] *)
Definition with_peername (to : string) (ref : Refstore.DatasetRef) : Refstore.DatasetRef :=
  mkDatasetRef to (dr_ProfileID ref) (dr_Name ref) (dr_Path ref) (dr_FSIPath ref) None false false.
Fixpoint rename_refs (from to : string) (refs : list Refstore.DatasetRef) : stM Repo unit :=
  match refs with
  | [] => mret tt
  | ref :: refs =>
      (if decide (dr_Peername ref = from) then repo_DeleteRef ref;; repo_PutRef (with_peername to ref) else mret tt);;
      rename_refs from to refs
  end.
Definition ModifyRepoUsername (from to : string) : stM Repo unit :=
  r ← st_get;
  match References 0 10000000 (r_refs r) with
  | Ok refs => rename_refs from to refs
  | Error _ => mret tt
  | Panic => st_lift Panic
  end;;
  on_repo_book (WriteAuthorRename to).

(** ** Removing versions (remove.go) *)

(** [RewindDatasetRef]: the reference's path goes back to that of [next]. *)
Definition existing (ref : Ref) : stM Repo (option VersionInfo) := λ r,
  match repo_get ref r with
  | (Ok vi, r) => (Ok (Some vi), r)
  | (Error e, r) => if decide (e = ErrNoHistory) then (Ok None, r) else (Error (Errorf "error with existing reference: %s" [error_text e]), r)
  | (Panic, r) => (Panic, r)
  end.
Definition set_vi_Path (path : string) (vi : VersionInfo) : VersionInfo :=
  mkVersionInfo (vi_InitID vi) (vi_Username vi) (vi_ProfileID vi) (vi_Name vi) path (vi_Published vi) (vi_Foreign vi)
    (vi_MetaTitle vi) (vi_ThemeList vi) (vi_BodySize vi) (vi_BodyRows vi) (vi_BodyFormat vi) (vi_NumErrors vi)
    (vi_CommitTime vi) (vi_CommitTitle vi) (vi_CommitMessage vi) (vi_NumVersions vi) (vi_FSIPath vi) (vi_RunID vi)
    (vi_RunStatus vi) (vi_RunDuration vi).
Definition RewindDatasetRef (curr next : Ref) : stM Repo VersionInfo :=
  if negb (IsValidName (ref_Name next)) then st_fail ErrDescribeValidName
  else if decide (ref_Username curr ≠ ref_Username next ∨ ref_ProfileID curr ≠ ref_ProfileID next)
  then st_fail (Errorf "cannot change username or profileID of a dataset" [])
  else if decide (ref_Name curr ≠ ref_Name next) then st_fail (Errorf "cannot rewind dataset ref with a different name" [])
  else
    currVi ← existing curr;
    nextVi ← existing next;
    match currVi with
    | None => st_lift Panic
    | Some currVi =>
        repo_delete (SimpleRef currVi);;
        match nextVi with
        | None => st_lift Panic
        | Some nextVi =>
            let nextVi := set_vi_Path (ref_Path next) nextVi in
            repo_put nextVi;;
            mret nextVi
        end
    end.

(** The loop of [RemoveNVersionsFromStore] over the versions: the path it ends
    at. Without a bound on the number, it takes as many steps as the history
    is long, or [fuel]. *)
Fixpoint remove_loop (fuel : nat) (i : Z) (path : string) (ds : StoredDataset K) : stM S string :=
  if decide (i = 0)%Z then mret path
  else
    match fuel with
    | 0 => st_lift Panic
    | Datatypes.S fuel =>
        fs_Delete path;;
        let previous := ds_PreviousPath (view ds) in
        if decide (previous = "") then mret path
        else
          s ← st_get;
          match load_refs previous s with
          | Ok loadedPrev => remove_loop fuel (i - 1) (sd_Path loadedPrev) loadedPrev
          | Error _ => mret path
          | Panic => st_lift Panic
          end
    end.

(** [RemoveNVersionsFromStore] *)
Definition with_path (path : string) (ref : Ref) : Ref :=
  mkRef (ref_InitID ref) (ref_Username ref) (ref_ProfileID ref) (ref_Name ref) path.
Definition RemoveNVersionsFromStore (fuel : nat) (curr : Ref) (n : Z) : stM Repo VersionInfo :=
  if decide (ref_Path curr = "") then st_fail (Errorf "need a dataset reference with a path" [])
  else if decide (n < -1)%Z then
    st_fail (Errorf "invalid 'n', n should be n >= 0 or n == -1 to indicate removing all versions" [])
  else
    ds ← st_read (λ r, load_refs (ref_Path curr) (r_store r));
    path ← on_repo_store (remove_loop fuel n (ref_Path curr) ds);
    info ← RewindDatasetRef curr (with_path path curr);
    id ← attempt (on_repo_book (RefToInitID curr));
    match id with
    | inr e => if decide (e = ErrLogbookNotFound) then mret info else on_repo_book (WriteVersionDelete "" n);; mret info
    | inl initID => on_repo_book (WriteVersionDelete initID n);; mret info
    end.

(** [RemoveEntireDataset]: what was removed, and the last error, if any *)
Definition appendString (first second : string) : string :=
  if decide (first = "") then second else first +:+ ", " +:+ second.
Definition note {A} (what : string) (m : stM Repo A) (acc : string * option error) : stM Repo (string * option error) :=
  x ← attempt m;
  mret (match x with inl _ => (appendString acc.1 what, acc.2) | inr e => (acc.1, Some e) end).
Definition RemoveEntireDataset (fuel : nat) (ref : Ref) (history : list VersionInfo) : stM Repo (string * option error) :=
  acc ← (if decide (0 < length history) then note "history" (RemoveNVersionsFromStore fuel ref (-1)) ("", None)
         else mret ("", None));
  id ← attempt (on_repo_book (RefToInitID ref));
  let acc := match id with inl _ => acc | inr e => (acc.1, Some e) end in
  let initID := match id with inl initID => initID | inr _ => "" end in
  r ← st_get;
  acc ← (if decide (ref_Username ref = b_authorName (r_book r))
         then note "logbook" (on_repo_book (WriteDatasetDelete initID)) acc
         else note "logbook" (on_repo_book (Book_RemoveLog ref)) acc);
  there ← attempt (repo_get ref);
  let acc := match there with inl _ => (appendString acc.1 "refstore", acc.2) | inr _ => acc end in
  gone ← attempt (repo_delete ref);
  mret (match gone with inl _ => acc | inr e => (acc.1, Some e) end).

(** ** History (log.go) *)

(** The walk of [StoredHistoricalDatasets]: a version that does not load leaves
    it waiting until its time is over. *)
Fixpoint stored_history (fuel : nat) (path : string) (offset limit : Z) (loadDatasets : bool) (s : S)
    : outcome (list (StoredDataset K)) :=
  match fuel with
  | 0 => Error ErrDatasetLogTimeout
  | Datatypes.S fuel =>
      match (if loadDatasets then load_full path s else load_refs path s) with
      | Error _ => Error ErrDatasetLogTimeout
      | Panic => Panic
      | Ok ds =>
          let sent := bool_decide (offset ≤ 0)%Z in
          let limit := if sent then (limit - 1)%Z else limit in
          let here := if sent then [ds] else [] in
          if sent && bool_decide (limit = 0)%Z then Ok here
          else if decide (ds_PreviousPath (view ds) = "") then Ok here
          else rest ← stored_history fuel (ds_PreviousPath (view ds)) (offset - 1) limit loadDatasets s; Ok (here ++ rest)
      end
  end.

(** [DatasetLog]: the logbook's items, with what is stored here; or the stored
    history. *)
Definition local_item (item : VersionInfo) (s : S) : outcome VersionInfo :=
  if decide (vi_Path item = "") then Ok item
  else
    match fs_Has (vi_Path item) s with
    | Error _ => Ok item
    | Panic => Panic
    | Ok local =>
        message ← (if (local : bool) then
                     match load_full (vi_Path item) s with
                     | Ok ds => Ok (match ds_Commit (view ds) with Some c => cm_Message c | None => vi_CommitMessage item end)
                     | Error _ => Ok (vi_CommitMessage item)
                     | Panic => Panic
                     end
                   else Ok (vi_CommitMessage item));
        Ok (mkVersionInfo (vi_InitID item) (vi_Username item) (vi_ProfileID item) (vi_Name item) (vi_Path item)
              (vi_Published item) (negb local) (vi_MetaTitle item) (vi_ThemeList item) (vi_BodySize item) (vi_BodyRows item)
              (vi_BodyFormat item) (vi_NumErrors item) (vi_CommitTime item) (vi_CommitTitle item) message
              (vi_NumVersions item) (vi_FSIPath item) (vi_RunID item) (vi_RunStatus item) (vi_RunDuration item))
    end.
Fixpoint local_items (items : list VersionInfo) (s : S) : outcome (list VersionInfo) :=
  match items with [] => Ok [] | i :: items => i ← local_item i s; rest ← local_items items s; Ok (i :: rest) end.
Definition named_version (ref : Ref) (ds : Dataset) : VersionInfo :=
  ConvertDatasetToVersionInfo
    (mkDataset (ref_Username ref) (ref_ProfileID ref) (ref_Name ref) (ds_Path ds) (ds_PreviousPath ds) (ds_NumVersions ds)
       (ds_Commit ds) (ds_Meta ds) (ds_Structure ds)).
Definition DatasetLog (fuel : nat) (ref : Ref) (limit offset : Z) (loadDatasets : bool) (r : Repo) : outcome (list VersionInfo) :=
  match (Items ref offset limit (r_book r)).1 with
  | Ok [] => Error ErrNoHistory
  | Ok items => local_items items (r_store r)
  | Panic => Panic
  | Error _ =>
      if decide (ref_Path ref = "") then Error (ErrWrap "cannot build history: %w" [] ErrDsrefPathRequired)
      else
        datasets ← stored_history fuel (ref_Path ref) offset limit loadDatasets (r_store r);
        Ok (map (named_version ref ∘ view) datasets)
  end.

(** [constructDatasetLogFromHistory], which [DatasetLog] starts on the side when
    the owner's dataset has no log *)
Definition constructDatasetLogFromHistory (fuel : nat) (ref : Ref) : stM Repo unit :=
  history ← st_read (λ r, stored_history fuel (ref_Path ref) 0 1000000 true (r_store r));
  on_repo_book (ConstructDatasetLog ref (map view history)).
End repository.
