(* ===== verification/Datasets.v ===== *)
(** * The library of datasets: renaming and removing (src/lib/datasets.go)

    What the methods do to the whole of an instance: its working directories,
    references and logbook ([Library], [Repository]), and the filesystem that
    holds the versions. The instance makes no remote procedure calls. *)
From S2P Require Import DatasetFiles Revisions.
From S2P Require Export Library Repository.

Definition ErrCantRemoveDirectoryDirty : error := ErrSentinel "cannot remove files while working directory is dirty".

(** [type RemoveParams struct] and [type RemoveResponse struct] *)
Record RemoveParams : Type := mkRemoveParams {
  rp_Ref : string;
  rp_Revision : option Revisions.Rev;
  rp_KeepFiles : bool;
  rp_Force : bool;
}.
Record RemoveResponse : Type := mkRemoveResponse {
  rr_Ref : string;
  rr_NumDeleted : Z;
  rr_Message : string;
  rr_Unlinked : bool;
}.

(** [RemoveParams.SetNonZeroDefaults] *)
Definition SetNonZeroDefaults (p : RemoveParams) : RemoveParams :=
  match rp_Revision p with
  | Some _ => p
  | None => mkRemoveParams (rp_Ref p) (Some (Revisions.mkRev "ds" (-1))) (rp_KeepFiles p) (rp_Force p)
  end.

(** [RemoveParams.UnmarshalFromRequest], on the form of a request *)
Definition UnmarshalFromRequest (form : string → string) (p : RemoveParams) : RemoveParams :=
  mkRemoveParams (if decide (rp_Ref p = "") then form "refstr" else rp_Ref p)
    (if decide (form "all" = "true") then Some Revisions.NewAllRevisions else rp_Revision p)
    (rp_KeepFiles p || bool_decide (form "keep-files" = "true"))
    (rp_Force p || bool_decide (form "force" = "true")).

Section datasets.
Context `{OpDigest, BookCipher, Entropy} {F P : Type} `{Filesystem F, Publisher P, LinkPublisher P}.
Context `{ProfileIDs, ProfileStore PS} (ps : PS) `{!OS} {V : Type} `{L : !ComponentLib V} `{W : !MapWalk}.
Context `{N : !Network, !DatasetFilesLib V} {S K : Type} `{!VersionFS S K} (mux : string)
  (of_stored : StoredDataset K → WDataset V) (view : StoredDataset K → Dataset) {CF : Type}.

(** ** The instance with its filesystem of versions *)
Record World : Type := mkWorld {
  w_inst : @Instance _ F P CF;
  w_store : S;
}.
Definition on_inst {A} (m : stM Instance A) : stM World A := st_zoom w_inst (λ i w, mkWorld i (w_store w)) m.
Definition on_disk {A} (m : stM Disk A) : stM World A := on_inst (on_fsi (on_fsi_disk m)).
Definition repo_of (w : World) : Repo := mkRepo (refs_of (w_inst w)) (fsi_book (inst_fsi (w_inst w))) (w_store w).
Definition set_repo (r : Repo) (w : World) : World :=
  let i := w_inst w in
  mkWorld (mkInstance (mkFSI (r_refs r) (r_book r) (disk_of i)) (inst_dscache i) (inst_Peername i) (inst_Registry i) (inst_Remotes i))
    (r_store r).
Definition on_repo {A} (m : stM Repo A) : stM World A := st_zoom repo_of set_repo m.

(** The readings of [Library], with what the filesystem holds *)
Definition directory_clean (dir : string) (w : World) : outcome unit :=
  let E := store_of (w_store w) in IsWorkingDirectoryClean mux of_stored dir (w_inst w).
Definition load_version (path : string) (w : World) : outcome (WDataset V) :=
  let E := store_of (w_store w) in dsfs_LoadDataset mux of_stored path.

(** ** Renaming *)

(** [DatasetMethods.Rename]; a linked directory gets the new reference. *)
Definition parse_current (current : string) : outcome Ref :=
  match ParseHumanFriendly current with
  | (ref, None) => Ok ref
  | (ref, Some e) => if decide (e = ErrBadCaseName) then Ok ref else Error (ErrWrap "original name: %w" [] e)
  end.
Definition parse_next (next : string) : outcome Ref :=
  match ParseHumanFriendly next with
  | (ref, None) => Ok ref
  | (_, Some e) =>
      Error (Errorf "destination name: %s" [error_text (if decide (e = ErrNotHumanFriendly) then e else ErrDescribeValidName)])
  end.
Definition Rename (Current Next : string) : stM World VersionInfo :=
  if decide (Current = "") then st_fail (Errorf "current name is required to rename a dataset" [])
  else
    ref ← st_lift (parse_current Current);
    rs ← st_read (λ w, resolved (ResolveReference "local" (w_inst w) ref));
    let ref := rs.1 in
    next ← st_lift (parse_next Next);
    if decide (ref_Username ref ≠ ref_Username next ∧ ref_Username next ≠ "me")
    then st_fail (Errorf "cannot change username or profileID of a dataset" [])
    else
      vi ← on_repo (RenameDatasetRef ps ref (ref_Name next));
      (if decide (vi_FSIPath vi = "") then mret tt
       else on_inst (on_fsi (ModifyLinkReference (vi_FSIPath vi) (SimpleRef vi)));; mret tt);;
      mret vi.

(** ** Removing *)

(** What is left of a reference that did not resolve *)
Definition unresolved (refStr : string) (w : World) : Ref :=
  let '(ref, err) := Parse refStr in
  match err with
  | Some e => if decide (e = ErrBadCaseName) then (ResolveReference "local" (w_inst w) ref).2 else ref
  | None => (ResolveReference "local" (w_inst w) ref).2
  end.

(** A directory must be clean, unless it is gone. *)
Definition clean_to_remove (dir : string) (w : World) : outcome unit :=
  match directory_clean dir w with
  | Error e =>
      if decide (e = ErrWorkingDirectoryDirty) then Error ErrCantRemoveDirectoryDirty
      else if strings_Contains (error_text e) "not a linked directory" then Ok tt
      else Error e
  | r => r
  end.

(** The revisions that will be deleted: how many, and the history it was read from *)
Definition removal (fuel : nat) (gen : Z) (ref : Ref) (w : World) : outcome (Z * list VersionInfo) :=
  match DatasetLog mux view fuel ref (gen + 1) 0 false (repo_of w) with
  | Ok history => Ok (if decide (Z.of_nat (length history) ≤ gen)%Z then Revisions.AllGenerations else gen, history)
  | Error e =>
      if decide (e = ErrNoHistory) then Ok (Revisions.AllGenerations, [])
      else if errors_Is e "reference path value is required" then Ok (Revisions.AllGenerations, [])
      else Ok (gen, [])
  | Panic => Panic
  end.

(** The files of a directory, once its dataset is removed *)
Definition unless_missing (m : stM World unit) : stM World unit := λ w,
  match m w with
  | (Error e, w) => if strings_Contains (error_text e) "no such file or directory" then (Ok tt, w) else (Error e, w)
  | r => r
  end.
Definition remove_directory (force : bool) (dir : string) : stM World unit :=
  on_disk (logged (DeleteComponentFiles (V := V) dir));;
  unless_missing (on_disk (if force then fsi_RemoveAll dir else fsi_Remove dir)).

(** All revisions *)
Definition remove_all (fuel : nat) (p : RemoveParams) (ref : Ref) (fsiPath : string) (history : list VersionInfo)
    : stM World RemoveResponse :=
  unlinked ← (if decide (fsiPath = "") then mret false
              else
                r ← attempt (on_inst (on_fsi (Unlink ps fsiPath ref)));
                mret (match r with inl _ => true | inr _ => false end));
  removed ← on_repo (RemoveEntireDataset ps mux view fuel ref history);
  (if decide (fsiPath ≠ "" ∧ rp_KeepFiles p = false) then remove_directory (rp_Force p) fsiPath else mret tt);;
  mret (mkRemoveResponse (Ref_String ref) Revisions.AllGenerations removed.1 unlinked).

(** Some revisions; a linked directory, found by the reference that is stored,
    gets the files of the version that is the newest now. *)
Definition update_directory (info : VersionInfo) : stM World unit :=
  ds ← st_read (load_version (vi_Path info));
  ds ← st_lift (OpenDataset (set_Peername (vi_Username info) ds));
  on_disk (logged (DeleteComponentFiles (V := V) (vi_FSIPath info)));;
  on_disk (logged (WriteComponents ds (vi_FSIPath info))).
Definition remove_some (fuel : nat) (p : RemoveParams) (gen : Z) (ref : Ref) (fsiPath : string) : stM World RemoveResponse :=
  ref' ← (if decide (fsiPath = "") then mret ref
          else
            rs ← st_read (λ w, resolved (ResolveReference "local" (w_inst w) (set_ref_Path "" ref)));
            mret rs.1);
  info ← on_repo (RemoveNVersionsFromStore ps mux view fuel ref' gen);
  (if decide (vi_FSIPath info ≠ "" ∧ rp_KeepFiles p = false) then update_directory info else mret tt);;
  mret (mkRemoveResponse (Ref_String ref) gen "" false).

(** [DatasetMethods.Remove] *)
Definition Remove (fuel : nat) (p : RemoveParams) : stM World RemoveResponse :=
  match rp_Revision p with
  | None => st_lift Panic
  | Some (Revisions.mkRev field gen) =>
      if decide (gen = 0)%Z then st_fail (Errorf "invalid number of revisions to delete: 0" [])
      else if decide (field ≠ "ds") then st_fail (Errorf "can only remove whole dataset versions, not individual components" [])
      else
        w ← st_get;
        match ParseAndResolveRefWithWorkingDir (rp_Ref p) "local" (w_inst w) with
        | Panic => st_lift Panic
        | Error e =>
            if rp_Force p || errors_Is e "logbook: not found" then
              removed ← on_repo (RemoveEntireDataset ps mux view fuel (unresolved (rp_Ref p) w) []);
              if decide (removed.1 = "") then st_fail e else mret (mkRemoveResponse "" 0 removed.1 false)
            else st_fail e
        | Ok (ref, _) =>
            let fsiPath := if IsFSIPath (ref_Path ref) then FilesystemPathToLocal (ref_Path ref) else "" in
            (if decide (fsiPath = "") then
               if rp_KeepFiles p then st_fail (Errorf "dataset is not linked to filesystem, cannot use keep-files" []) else mret tt
             else if rp_KeepFiles p || rp_Force p then mret tt
             else st_read (clean_to_remove fsiPath));;
            gh ← st_read (removal fuel gen ref);
            if decide (gh.1 = Revisions.AllGenerations) then remove_all fuel p ref fsiPath gh.2
            else if decide (0 < length gh.2) then remove_some fuel p gh.1 ref fsiPath
            else mret (mkRemoveResponse (Ref_String ref) 0 "" false)
        end
  end.
End datasets.
