(* ===== verification/Remote.v ===== *)
(** * The remote (src/remote/remote.go, signature.go)

    What a node that takes datasets of others asks of its policy and its hooks,
    and does to its repository; the parameters requests are described by, and
    their signatures. The blocks of a dataset travel by dsync, of another
    repository, which calls the checks of this file. *)
From S2P Require Import Access Paging DatasetFiles.
From S2P Require Export Repository Logsync LogsyncHttp.

(** The text of the multihash of a key's bytes, which stands for the key's owner *)
Class KeyHash : Type := multihash_Sum : string → outcome string.
Abbreviation Params := (gmap string string).
Definition param (key : string) (meta : Params) : string := default "" (meta !! key).

(** [Hook]: called with a profile and a reference, and the log a log's hook finds
    in its context; hooks act on a world of their own. *)
Definition RemoteHook (HS : Type) : Type := string → Ref → option Log → stM HS unit.

(** [profile.KeyIDFromPub] of src/profile/key.go and [calcProfileID] *)
Section keys.
Context `{C : BookCipher, Sg : !LogSigning, !KeyBytes Sg, !KeyHash}.
Definition KeyIDFromPub (pubKey : option PubKey) : outcome string :=
  match pubKey with
  | None => Error (Errorf "identity: public key is required" [])
  | Some pubKey =>
      match PubKey_Bytes pubKey with
      | inr e => Error (Errorf "getting pubkey bytes: %s" [error_text e])
      | inl data =>
          match multihash_Sum data with Error e => Error (Errorf "summing pubkey: %s" [error_text e]) | r => r end
      end
  end.
Definition KeyIDFromPriv (pk : PrivKey) : outcome string := KeyIDFromPub (Some (pk_GetPublic pk)).
Definition calcProfileID (pk : PrivKey) : outcome string :=
  match PubKey_Bytes (pk_GetPublic pk) with
  | inr e => Error (Errorf "error getting pubkey bytes: %s" [error_text e])
  | inl data =>
      match multihash_Sum data with Error e => Error (Errorf "error summing pubkey: %s" [error_text e]) | r => r end
  end.

(** ** Signed parameters (signature.go) *)
Definition requestSigningString (timestamp peerID cidStr : string) : string :=
  timestamp +:+ "." +:+ peerID +:+ "." +:+ cidStr.
Definition signString (pk : PrivKey) (str : string) : outcome string :=
  match pk_Sign pk str with
  | Ok sig => Ok (base64_EncodeToString sig)
  | Error e => Error (Errorf "error signing %s" [error_text e])
  | Panic => Panic
  end.
Definition sigParams (unix_now : Z) (pk : PrivKey) (subjectUsername : string) (ref : Ref) : outcome Params :=
  pid ← calcProfileID pk;
  let now := strconv_Itoa unix_now in
  b64Sig ← signString pk (requestSigningString now pid (ref_Path ref));
  Ok (list_to_map
    [("username", ref_Username ref); ("peername", ref_Username ref); ("name", ref_Name ref);
     ("profileID", ref_ProfileID ref); ("path", ref_Path ref); ("pid", pid); ("subject_username", subjectUsername);
     ("timestamp", now); ("signature", b64Sig)]).
Definition need_param (key : string) (params : Params) : outcome string :=
  match params !! key with Some v => Ok v | None => Error (Errorf "params need key %s" ["'" +:+ key +:+ "'"]) end.
Definition VerifySigParams (pubkey : PubKey) (params : Params) : outcome bool :=
  timestamp ← need_param "timestamp" params;
  pid ← need_param "pid" params;
  path ← need_param "path" params;
  signature ← need_param "signature" params;
  need_param "subject_username" params;;
  sigBytes ← base64_DecodeString signature;
  let str := base64_EncodeToString sigBytes in
  if decide (str ≠ signature)
  then Error (Errorf "signature was '%s', after decode then encode it was '%s" [signature; str])
  else pub_Verify pubkey (requestSigningString timestamp pid path) sigBytes.
End keys.

(** ** The policy of a remote: [OptLoadPolicyFileIfExists]

    [file] is what reading the file answers, [None] when there is none; errors are
    logged. *)
Definition OptLoadPolicyFileIfExists (json_Policy : string → outcome Policy) (file : option (outcome string))
    (policy : option Policy) : outcome (option Policy) :=
  match file with
  | None => Ok policy
  | Some Panic => Panic
  | Some (Error _) => Ok policy
  | Some (Ok data) =>
      match json_Policy data with Ok p => Ok (Some p) | Error _ => Ok policy | Panic => Panic end
  end.

Section remote.
Context `{OpDigest, C : BookCipher, Sg : !LogSigning, Kb : !KeyBytes Sg, Hsh : !KeyHash, Entropy} {F P : Type} `{Filesystem F, Publisher P}.
Context `{ProfileIDs, ProfileStore PS} (ps : PS).
Context {S K : Type} `{!VersionFS S K} (mux : string) (view : StoredDataset K → Dataset) {HS : Type}.
Context (localResolver : @Repo _ F P S → stM Ref string).

(** ** The remote *)

(** The options [NewRemote] copies to a [Remote]; those of the log hooks go to
    the log synchronization. *)
Record RemoteNode : Type := mkRemoteNode {
  acceptSizeMax : Z;
  policy : option Policy;
  datasetPushPreCheck : option (RemoteHook HS);
  datasetPushFinalCheck : option (RemoteHook HS);
  datasetPushed : option (RemoteHook HS);
  datasetRemovePreCheck : option (RemoteHook HS);
  datasetRemoved : option (RemoteHook HS);
  datasetPulled : option (RemoteHook HS);
  FeedPreCheck : option (RemoteHook HS);
  PreviewPreCheck : option (RemoteHook HS);
}.

(** The node's repository, and the world of the hooks *)
Record Node : Type := mkNode {
  n_repo : @Repo _ F P S;
  n_hooks : HS;
}.
Definition on_node_repo {A} (m : stM Repo A) : stM Node A := st_zoom n_repo (λ r n, mkNode r (n_hooks n)) m.
Definition run_hook (h : option (RemoteHook HS)) (pid : string) (ref : Ref) : stM Node unit :=
  match h with
  | None => mret tt
  | Some h => st_zoom n_hooks (λ s n, mkNode (n_repo n) s) (h pid ref None)
  end.

Implicit Types (r : RemoteNode) (meta : Params).

(** [subjAndRefFromMeta]: who asks, and about what, as the request says it *)
Definition subjAndRefFromMeta meta : outcome (Subject * Ref) :=
  let username := if decide (param "username" meta = "") then param "peername" meta else param "username" meta in
  pid ← IDB58Decode (param "pid" meta);
  let profileID := if decide (param "profileID" meta = "") then ID_String pid else param "profileID" meta in
  Ok (mkSubject pid (param "subject_username" meta), mkRef "" username profileID (param "name" meta) (param "path" meta)).
Definition enforce r (subj : Subject) (ref : Ref) (action : string) : outcome unit :=
  match policy r with None => Ok tt | Some p => Enforce p subj (ResourceStrFromRef ref) action end.

(** [RemoveDataset]; a reference that resolves in part is removed anyway. *)
Definition resolve_to_remove (ref : Ref) (n : Node) : outcome Ref :=
  match localResolver (n_repo n) ref with
  | (Ok _, ref) => Ok ref
  | (Error e, ref) =>
      if errors_Is e "reference not found" || errors_Is e "logbook: not found" then Ok ref else Error e
  | (Panic, _) => Panic
  end.
Definition RemoveDataset r (fuel : nat) (params : Params) : stM Node unit :=
  sr ← st_lift (subjAndRefFromMeta params);
  st_lift (enforce r sr.1 sr.2 "remote:remove");;
  run_hook (datasetRemovePreCheck r) (subj_ID sr.1) sr.2;;
  ref ← st_read (resolve_to_remove sr.2);
  on_node_repo (RemoveNVersionsFromStore ps mux view fuel ref (-1));;
  attempt (on_node_repo (repo_DeleteRef (RefFromDsref ref)));;
  run_hook (datasetRemoved r) (subj_ID sr.1) ref.

(** The checks of dsync. [dag.Info] is read for the sizes of its blocks, which are
    added as [uint64]s. *)
Definition add_uint64 (a b : Z) : Z := ((a + b) mod 2 ^ 64)%Z.
Definition to_uint64 (a : Z) : Z := (a mod 2 ^ 64)%Z.
Definition total_size (sizes : list Z) : Z := foldl add_uint64 0%Z sizes.
Definition accepts_size r (sizes : list Z) : outcome unit :=
  if decide (acceptSizeMax r = 0)%Z then Error (Errorf "not accepting any datasets" [])
  else if decide (acceptSizeMax r = -1)%Z then Ok tt
  else if decide (to_uint64 (acceptSizeMax r) ≤ total_size sizes)%Z then Error (Errorf "dataset size too large" [])
  else Ok tt.
Definition dsPushPreCheck r (sizes : list Z) meta : stM Node unit :=
  sr ← st_lift (subjAndRefFromMeta meta);
  st_lift (enforce r sr.1 sr.2 "remote:push");;
  st_lift (accepts_size r sizes);;
  run_hook (datasetPushPreCheck r) (subj_ID sr.1) sr.2.
Definition dsPushFinalCheck r meta : stM Node unit :=
  match datasetPushFinalCheck r with
  | None => mret tt
  | Some h => sr ← st_lift (subjAndRefFromMeta meta); run_hook (Some h) (subj_ID sr.1) sr.2
  end.
Definition dsPushComplete r meta : stM Node unit :=
  sr ← st_lift (subjAndRefFromMeta meta);
  ref ← st_read (λ n, match localResolver (n_repo n) sr.2 with
                      | (Ok _, ref) => Ok ref
                      | (Error e, ref) => if decide (e = ErrRefNotFound) then Ok ref else Error e
                      | (Panic, _) => Panic
                      end);
  run_hook (datasetPushed r) (subj_ID sr.1) ref;;
  on_node_repo (repo_put ps (set_Published true (Ref_VersionInfo ref))).
Definition dsRemovePreCheck r meta : stM Node unit :=
  sr ← st_lift (subjAndRefFromMeta meta);
  st_lift (enforce r sr.1 sr.2 "remote:remove");;
  run_hook (datasetRemovePreCheck r) (subj_ID sr.1) sr.2.
Definition dsGetDagInfo r meta : stM Node unit :=
  sr ← st_lift (subjAndRefFromMeta meta); run_hook (datasetPulled r) (subj_ID sr.1) sr.2.

(** [logHook] and [logPreCheckHook]: the hooks of log synchronization. Here the
    subject is the author whose key signed the request. *)
Definition author_pid (author : LogAuthor) : outcome string :=
  kid ← KeyIDFromPub (Some (AuthorPubKey author)); IDB58Decode kid.
Definition logHook (h : option (RemoteHook HS)) : Logsync.Hook HS := λ author ref l,
  match h with
  | None => mret tt
  | Some h => pid ← st_lift (author_pid author); h pid ref l
  end.
Definition logPreCheckHook r (action : string) (h : option (RemoteHook HS)) : Logsync.Hook HS := λ author ref l,
  pid ← st_lift (author_pid author);
  st_lift (enforce r (mkSubject pid (Author_Username author)) ref action);;
  match h with None => mret tt | Some h => h pid ref l end.

(** [NewRemote], as far as the log synchronization goes *)
Record LogOptions : Type := mkLogOptions {
  LogPushPreCheck : option (RemoteHook HS);
  LogPushFinalCheck : option (RemoteHook HS);
  LogPushed : option (RemoteHook HS);
  LogPullPreCheck : option (RemoteHook HS);
  LogPulled : option (RemoteHook HS);
  LogRemovePreCheck : option (RemoteHook HS);
  LogRemoved : option (RemoteHook HS);
}.
Definition remote_logsync r (o : LogOptions) (b : @Logbook.Book _ F P) (s : HS) : Logsync.Logsync HS :=
  mkLogsync b s (Some (logPreCheckHook r "remote:push" (LogPushPreCheck o))) (Some (logHook (LogPushFinalCheck o)))
    (Some (logHook (LogPushed o))) (Some (logPreCheckHook r "remote:pull" (LogPullPreCheck o)))
    (Some (logHook (LogPulled o))) (Some (logPreCheckHook r "remote:remove" (LogRemovePreCheck o)))
    (Some (logHook (LogRemoved o))).

(** ** HTTP handlers: what they write *)
Inductive write : Type :=
| WriteHeader (code : Z)
| WriteText (text : string)
| WriteErrResponse (code : Z) (e : error)
| WriteFeeds (feeds : list (string * list VersionInfo))
| WritePageResponse (refs : list VersionInfo) (page : Page)
| WritePreview (preview : Dataset).

(** [Feeds] and [Previews] are interfaces. *)
Context (Feeds : outcome (list (string * list VersionInfo))) (Feed : string → Z → Z → outcome (list VersionInfo))
  (Preview : string → outcome Dataset) (json_Ref : Ref → outcome string).

(** The request's check, with the identifier of its header; any failure is told
    the same way. *)
Definition missing_signature : write := WriteErrResponse 400 (Errorf "missing signature details" []).
Definition pre_check (h : option (RemoteHook HS)) (pid_header : string) (rest : stM Node (list write)) : stM Node (list write) :=
  match h with
  | None => rest
  | Some h =>
      ok ← attempt (id ← st_lift (IDB58Decode pid_header); run_hook (Some h) id zero_Ref);
      match ok with inl _ => rest | inr _ => mret [missing_signature] end
  end.
Definition FeedsHTTPHandler r (pid_header : string) : stM Node (list write) :=
  pre_check (FeedPreCheck r) pid_header
    match Feeds with
    | Ok feeds => mret [WriteFeeds feeds]
    | Error e => mret [WriteErrResponse 400 e]
    | Panic => st_lift Panic
    end.

(** A feed that fails is answered twice. *)
Definition FeedHTTPHandler r (prefix path pid_header : string) (form : string → string) : stM Node (list write) :=
  pre_check (FeedPreCheck r) pid_header
    (let page := PageFromRequest form in
     match Feed (strings_TrimPrefix path prefix) (Page_Offset page) (Page_Limit page) with
     | Ok refs => mret [WritePageResponse refs page]
     | Error e => mret [WriteErrResponse 400 e; WritePageResponse [] page]
     | Panic => st_lift Panic
     end).
Definition PreviewHTTPHandler r (prefix path pid_header : string) : stM Node (list write) :=
  pre_check (PreviewPreCheck r) pid_header
    match Preview (strings_TrimPrefix path prefix) with
    | Ok preview => mret [WritePreview preview]
    | Error e => mret [WriteErrResponse 400 e]
    | Panic => st_lift Panic
    end.
Definition ComponentHTTPHandler : list write := [WriteText "unfinished: ComponentHTTPHandler"].

(** [RefsHTTPHandler]: the query of a GET or DELETE request, by its keys *)
Definition RefsHTTPHandler r (fuel : nat) (method : string) (query : Params) : stM Node (list write) :=
  if decide (method = "GET") then
    n ← st_get;
    match localResolver (n_repo n) (mkRef "" (param "username" query) "" (param "name" query) (param "path" query)) with
    | (Error e, _) => mret [WriteHeader 404; WriteText (error_text e)]
    | (Panic, _) => st_lift Panic
    | (Ok _, ref) =>
        match json_Ref ref with
        | Ok res => mret [WriteHeader 200; WriteText res]
        | Error e => mret [WriteHeader 500; WriteText (error_text e)]
        | Panic => st_lift Panic
        end
    end
  else if decide (method = "DELETE") then
    removed ← attempt (RemoveDataset r fuel query);
    mret (match removed with inl _ => [WriteHeader 200] | inr e => [WriteHeader 500; WriteText (error_text e)] end)
  else mret [WriteHeader 404].
End remote.
