(* ===== verification/Client.v ===== *)
(** * The client of remotes (src/remote/client.go)

    What a node asks of remotes: feeds and previews, the resolving of
    references, and pushing, pulling and removing datasets with their logs. The
    network is the environment's: HTTP requests by their targets, the other end
    of a log synchronization, and dsync, of another repository. The progress of
    transfers, which goroutines publish, is not modelled. *)
From S2P Require Import DatasetFiles.
From S2P Require Export Remote.

Definition ErrNoRemoteClient : error := ErrSentinel "remote: no client to make remote requests".
Definition ErrRemoteNotFound : error := ErrSentinel "remote not found".

(** The types of events: [ETRemoteClient...] of src/event/remote.go *)
Definition ETRemoteClientPushVersionCompleted : string := "remoteClient:PushVersionCompleted".
Definition ETRemoteClientPushDatasetCompleted : string := "remoteClient:PushDatasetCompleted".
Definition ETRemoteClientPullVersionCompleted : string := "remoteClient:PullVersionCompleted".
Definition ETRemoteClientPullDatasetCompleted : string := "remoteClient:PullDatasetCompleted".
Definition ETRemoteClientRemoveDatasetCompleted : string := "remoteClient:RemoveDatasetCompleted".

(** [event.RemoteEvent], without its progress, published on the bus of the
    logbook *)
Record RemoteEvent : Type := mkRemoteEvent {
  re_Ref : Ref;
  re_RemoteAddr : string;
  re_Error : option error;
}.
Class RemotePublisher (P : Type) : Type := PublishRemote : string → RemoteEvent → stM P unit.

(** The address of an HTTP request: text appended to a remote's address, or a
    path and a query put in its place *)
Inductive Target : Type :=
| Appended (addr rest : string)
| Replaced (addr path : string) (query : Params).

(** What the network does, on its own state [T]; dsync reads and writes the
    blocks of versions [S]. *)
Class RemoteNetwork `{BookCipher, !LogSigning} (S T : Type) : Type := {
  net_logsync : client_kind → Remote T;
  net_Parse : Target → option error;
  net_Path : Target → string;
  net_Do : string → Target → Header → stM T Response;
  dsync_NewPush : string → string → T → outcome unit;
  dsync_Push : string → string → Params → stM (S * T) unit;
  dsync_NewPull : string → string → T → outcome unit;
  dsync_Pull : string → string → Params → stM (S * T) unit;
  ipfs_Pin : option (string → stM S unit);
}.

(** Decoding JSON: responses with the error of their meta, and a reference into
    one that has values already *)
Class ClientJSON : Type := {
  decode_feeds : string → outcome (list (string * list VersionInfo) * string);
  decode_feed : string → outcome (list VersionInfo * string);
  decode_preview : string → outcome (option Dataset * string);
  decode_Ref : Ref → string → outcome unit * Ref;
}.

Section client.
Context `{OpDigest, C : BookCipher, Sg : !LogSigning, Kb : !KeyBytes Sg, Hsh : !KeyHash, Entropy} {F P : Type}.
Context `{Filesystem F, Publisher P, !RemotePublisher P} `{ProfileIDs, ProfileStore PS} (ps : PS).
Context {S K T : Type} `{!VersionFS S K, !RemoteNetwork S T, !ClientJSON} (mux : string) (view : StoredDataset K → Dataset).
Context (peer_IDB58Decode : string → option string) (version : string).

(** [type client struct]: the key and the name of its profile, and whether the
    node has a peer-to-peer host. Its node's repository and the network are its
    state. *)
Record Client : Type := mkClient {
  c_pk : PrivKey;
  c_Peername : string;
  c_has_p2p : bool;
}.
Record Side : Type := mkSide {
  cs_repo : @Repo _ F P S;
  cs_net : T;
}.
Implicit Types (c : Client) (ref : Ref).

Definition on_client_repo {A} (m : stM Repo A) : stM Side A := st_zoom cs_repo (λ r s, mkSide r (cs_net s)) m.
Definition on_net {A} (m : stM T A) : stM Side A := st_zoom cs_net (λ t s, mkSide (cs_repo s) t) m.
Definition on_blocks {A} (m : stM (S * T) A) : stM Side A :=
  st_zoom (λ s, (r_store (cs_repo s), cs_net s))
    (λ st s, mkSide (mkRepo (r_refs (cs_repo s)) (r_book (cs_repo s)) st.1) st.2) m.
Definition on_logs {A} (m : stM (@Logbook.Book C F P * T) A) : stM Side A :=
  st_zoom (λ s, (r_book (cs_repo s), cs_net s))
    (λ bt s, mkSide (mkRepo (r_refs (cs_repo s)) bt.1 (r_store (cs_repo s))) bt.2) m.
Definition events_Publish (typ : string) (ev : RemoteEvent) : stM Side unit :=
  on_client_repo (on_repo_book (st_zoom b_publisher set_publisher (PublishRemote typ ev))).

(** A method of a nil client *)
Definition client_guard {A} (oc : option Client) (m : Client → stM Side A) : stM Side A :=
  match oc with None => st_fail ErrNoRemoteClient | Some c => m c end.

(** ** Addresses *)
Definition addressType (remoteAddr : string) : string :=
  match peer_IDB58Decode remoteAddr with
  | Some _ => "p2p"
  | None => if strings_HasPrefix remoteAddr "http" then "http" else ""
  end.
Definition with_endpoint (endpoint remoteAddr : string) : string :=
  if decide (addressType remoteAddr = "http") then remoteAddr +:+ endpoint else remoteAddr.

(** ** HTTP requests *)
Definition signHTTPRequest (unix_now : Z) c (path : string) : outcome Header :=
  let now := strconv_Itoa unix_now in
  peerID ← calcProfileID (c_pk c);
  b64Sig ← signString (c_pk c) (requestSigningString now peerID path);
  Ok (list_to_map [("timestamp", now); ("pid", peerID); ("signature", b64Sig); ("qri-version", version)]).

(** The exchange of [Feeds], [Feed] and [previewDatasetVersionHTTP] *)
Definition no_such_host (known : error) {A} (m : stM Side A) : stM Side A := λ s,
  match m s with
  | (Error e, s) => (Error (if strings_Contains (error_text e) "no such host" then known else e), s)
  | r => r
  end.
Definition get_signed {A} (unix_now : Z) c (unknown_host : error) (decode : string → outcome (A * string)) (target : Target) : stM Side A :=
  match net_Parse target with
  | Some e => st_fail e
  | None =>
      h ← st_lift (signHTTPRequest unix_now c (net_Path target));
      res ← no_such_host unknown_host (on_net (net_Do "GET" target h));
      env ← st_lift (decode (res_Body res));
      if decide (res_StatusCode res ≠ StatusOK)
      then st_fail (Errorf "error %d: %s" [strconv_Itoa (res_StatusCode res); env.2])
      else mret env.1
  end.
Definition only_http {A} (remoteAddr : string) (m : stM Side A) : stM Side A :=
  if decide (addressType remoteAddr ≠ "http") then st_fail (Errorf "feeds are only supported over HTTP" []) else m.

(** [Feeds] and [Feed] do not ask whether there is a client. *)
Definition client_Feeds (unix_now : Z) (oc : option Client) (remoteAddr : string) : stM Side (list (string * list VersionInfo)) :=
  only_http remoteAddr
    match oc with
    | None => st_lift Panic
    | Some c => get_signed unix_now c ErrNoRemoteClient decode_feeds (Appended remoteAddr "/remote/feeds")
    end.
Definition client_Feed (unix_now : Z) (oc : option Client) (remoteAddr feedName : string) (page pageSize : Z) : stM Side (list VersionInfo) :=
  only_http remoteAddr
    match oc with
    | None => st_lift Panic
    | Some c =>
        get_signed unix_now c ErrNoRemoteClient decode_feed
          (Appended remoteAddr ("/remote/feeds/" +:+ feedName +:+ "?page=" +:+ strconv_Itoa page +:+ "&pageSize=" +:+ strconv_Itoa pageSize))
    end.
Definition PreviewDatasetVersion (unix_now : Z) (oc : option Client) ref (remoteAddr : string) : stM Side (option Dataset) :=
  client_guard oc (λ c, only_http remoteAddr
    (get_signed unix_now c ErrRemoteNotFound decode_preview (Appended remoteAddr ("/remote/dataset/preview/" +:+ Ref_String ref)))).

(** ** Resolving over the network

    The answer comes with the reference as far as it was completed. *)
Definition resolveRefHTTP ref (remoteAddr : string) : T → (outcome unit * Ref) * T := λ t,
  let target := Replaced remoteAddr "/remote/refs"
    (list_to_map [("username", ref_Username ref); ("name", ref_Name ref); ("path", ref_Path ref)]) in
  match net_Parse target with
  | Some e => ((Error e, ref), t)
  | None =>
      match net_Do "GET" target ∅ t with
      | (Panic, t) => ((Panic, ref), t)
      | (Error e, t) => ((Error e, ref), t)
      | (Ok res, t) =>
          if decide (res_StatusCode res ≠ StatusOK) then
            ((Error (if decide (res_Body res = error_text ErrRefNotFound) then ErrRefNotFound
                     else Errorf "resolving dataset ref from remote %s failed: %s" [remoteAddr; res_Body res]), ref), t)
          else (decode_Ref ref (res_Body res), t)
      end
  end.
Definition remote_ResolveRef ref (remoteAddr : string) : T → (outcome string * Ref) * T := λ t,
  if decide (remoteAddr = "") then ((Error ErrRefNotFound, ref), t)
  else if decide (addressType remoteAddr = "http") then
    let '((r, ref), t) := resolveRefHTTP ref remoteAddr t in ((_ ← r; Ok remoteAddr, ref), t)
  else ((Error (Errorf "dataset name resolution currently only works over HTTP" []), ref), t).

(** ** Logs *)
Definition logsync_client c (remoteAddr : string) : stM Side client_kind :=
  st_read (λ s, remoteClient peer_IDB58Decode (c_has_p2p c) remoteAddr (r_book (cs_repo s))).
Definition FetchLogs (oc : option Client) ref (remoteAddr : string) : stM Side Log :=
  client_guard oc (λ c,
    kind ← logsync_client c (with_endpoint "/remote/logsync" remoteAddr);
    on_logs (Pull_Do (Remote0 := net_logsync kind) false ref)).
Definition pushLogs (fuel : nat) c ref (remoteAddr : string) : stM Side unit :=
  kind ← logsync_client c (with_endpoint "/remote/logsync" remoteAddr);
  on_logs (Push_Do (Remote0 := net_logsync kind) fuel ref).
Definition pullLogs c ref (remoteAddr : string) : stM Side unit :=
  kind ← logsync_client c (with_endpoint "/remote/logsync" remoteAddr);
  on_logs (Pull_Do (Remote0 := net_logsync kind) true ref);;
  mret tt.

(** ** Versions *)
Definition version_pushed ref (addr : string) (pushed : unit + error) : stM Side unit :=
  match pushed with
  | inr e => attempt (events_Publish ETRemoteClientPushVersionCompleted (mkRemoteEvent ref addr (Some e)));; st_fail e
  | inl _ => events_Publish ETRemoteClientPushVersionCompleted (mkRemoteEvent ref addr None)
  end.
Definition pushDatasetVersion (unix_now : Z) c ref (remoteAddr : string) : stM Side unit :=
  let addr := with_endpoint "/remote/dsync" remoteAddr in
  st_read (λ s, dsync_NewPush (ref_Path ref) addr (cs_net s));;
  params ← st_lift (sigParams unix_now (c_pk c) (c_Peername c) ref);
  pushed ← attempt (on_blocks (dsync_Push (ref_Path ref) addr params));
  version_pushed ref addr pushed.
Definition pull_head ref (remoteAddr : string) : stM Side Ref := λ s,
  if decide (ref_Path ref = "") then
    let '((r, ref), t) := remote_ResolveRef ref remoteAddr (cs_net s) in (_ ← r; Ok ref, mkSide (cs_repo s) t)
  else (Ok ref, s).
Definition version_pulled ref (addr : string) : stM Side unit :=
  match ipfs_Pin (T := T) with
  | Some pin => on_client_repo (on_repo_store (pin (ref_Path ref)))
  | None => mret tt
  end;;
  events_Publish ETRemoteClientPullVersionCompleted (mkRemoteEvent ref addr None).
Definition pullDatasetVersion (unix_now : Z) c ref (remoteAddr : string) : stM Side Ref :=
  ref ← pull_head ref remoteAddr;
  params ← st_lift (sigParams unix_now (c_pk c) (c_Peername c) ref);
  let addr := with_endpoint "/remote/dsync" remoteAddr in
  st_read (λ s, dsync_NewPull (ref_Path ref) addr (cs_net s));;
  on_blocks (dsync_Pull (ref_Path ref) addr params);;
  version_pulled ref addr;;
  mret ref.

(** ** Datasets *)
Definition PushDataset (fuel : nat) (unix_now : Z) (oc : option Client) ref (addr : string) : stM Side unit :=
  client_guard oc (λ c,
    pushLogs fuel c ref addr;;
    pushDatasetVersion unix_now c ref addr;;
    events_Publish ETRemoteClientPushDatasetCompleted (mkRemoteEvent ref addr None)).

(** [PullDataset], and what it does to the references once the version is
    here *)
Definition set_dr_Dataset (ds : Dataset) (r : Refstore.DatasetRef) : Refstore.DatasetRef :=
  mkDatasetRef (dr_Peername r) (dr_ProfileID r) (dr_Name r) (dr_Path r) (dr_FSIPath r) (Some ds) (dr_Published r) (dr_Foreign r).
Definition failing_with (e : error) {A} (m : stM (@Repo _ F P S) A) : stM (@Repo _ F P S) A := λ r,
  match m r with (Error _, r) => (Error e, r) | x => x end.
Definition store_pulled ref : stM Repo (StoredDataset K) :=
  prev ← attempt (on_repo_refs (λ refs, prev ← GetRef (mkDatasetRef (ref_Username ref) "" (ref_Name ref) "" "" None false false) refs; Ok (prev, refs)));
  match prev with
  | inr e =>
      if decide (e = ErrRepoNotFound) then
        λ r, match repo_PutRef (RefFromDsref ref) r with
             | (Error e, r) => (Error (Errorf "error putting dataset in repo: %s" [error_text e]), r)
             | (Panic, r) => (Panic, r)
             | (Ok _, r) => (load_full mux (ref_Path ref) (r_store r), r)
             end
      else st_fail e
  | inl prevRef =>
      old ← failing_with (Errorf "error loading repo dataset: %s" [dr_Path prevRef])
              (st_read (λ r, load_full mux (dr_Path prevRef) (r_store r)));
      ds ← failing_with (Errorf "error loading added dataset: %s" [ref_Path ref])
             (st_read (λ r, load_full mux (ref_Path ref) (r_store r)));
      ReplaceRefIfMoreRecent (Some (set_dr_Dataset (view old) prevRef)) (Some (set_dr_Dataset (view ds) (RefFromDsref ref)));;
      mret ds
  end.
Definition PullDataset (unix_now : Z) (oc : option Client) ref (remoteAddr : string) : stM Side (Ref * StoredDataset K) :=
  client_guard oc (λ c,
    pullLogs c ref remoteAddr;;
    ref ← pullDatasetVersion unix_now c ref remoteAddr;
    events_Publish ETRemoteClientPullDatasetCompleted (mkRemoteEvent ref remoteAddr None);;
    ds ← on_client_repo (store_pulled ref);
    mret (ref, ds)).

(** ** Removing *)
Definition removeDatasetHTTP (params : Params) (remoteAddr : string) : stM Side unit :=
  let target := Replaced remoteAddr "/remote/refs" params in
  match net_Parse target with
  | Some e => st_fail e
  | None =>
      res ← on_net (net_Do "DELETE" target ∅);
      if decide (res_StatusCode res ≠ StatusOK) then st_fail (Errorf "failed to remove dataset from remote" []) else mret tt
  end.
Definition RemoveDatasetVersion (unix_now : Z) (oc : option Client) ref (remoteAddr : string) : stM Side unit :=
  client_guard oc (λ c,
    params ← st_lift (sigParams unix_now (c_pk c) (c_Peername c) ref);
    if decide (addressType remoteAddr = "http") then removeDatasetHTTP params remoteAddr
    else st_fail (Errorf "dataset remove requests currently only work over HTTP" [])).

(** [client.RemoveDataset]: the version is asked to be removed at the address of
    the logs, whose path is replaced. *)
Definition client_RemoveDataset (fuel : nat) (unix_now : Z) (oc : option Client) ref (remoteAddr : string) : stM Side unit :=
  client_guard oc (λ c,
    let addr := with_endpoint "/remote/logsync" remoteAddr in
    kind ← logsync_client c addr;
    on_logs (DoRemove (Remote0 := net_logsync kind) fuel ref addr);;
    RemoveDatasetVersion unix_now oc ref addr;;
    events_Publish ETRemoteClientRemoveDatasetCompleted (mkRemoteEvent ref addr None)).
End client.

(** ** A remote at the other end

    The network of one address, behind which a remote answers: its handlers by
    the paths of [AddDefaultRoutes], and log synchronization with the hooks of
    [NewRemote], over the HTTP handler and client of that package, whose
    addresses [urls] parses. What is left, dsync, peers and other addresses, is
    as in [base]. *)
Section served.
Context `{OpDigest, C : BookCipher, Sg : !LogSigning, Kb : !KeyBytes Sg, Hsh : !KeyHash, Entropy} {F P : Type} `{Filesystem F, Publisher P}.
Context `{ProfileIDs, !MultihashLib, ProfileStore PS} (ps : PS).
Context {S K : Type} `{!VersionFS S K} (mux : string) (view : StoredDataset K → Dataset) {HS : Type}.
Context (localResolver : @Repo _ F P S → stM Ref string) (json_Ref : Ref → outcome string).
Abbreviation N := (@Node _ F P S HS).

Definition on_logsync {A} (r : @RemoteNode HS) (o : LogOptions) (m : stM (Logsync.Logsync HS) A) : stM N A :=
  st_zoom (λ n, remote_logsync r o (r_book (n_repo n)) (n_hooks n))
    (λ l n, mkNode (mkRepo (r_refs (n_repo n)) (ls_book l) (r_store (n_repo n))) (ls_world l)) m.

(** What was written, as a response: the first status counts. *)
Definition written_status (ws : list write) : Z :=
  match ws with WriteHeader code :: _ => code | _ => StatusOK end.
Definition written_body (ws : list write) : string :=
  foldr (λ w body, match w with WriteText text => text +:+ body | _ => body end) "" ws.
Definition respond (m : stM N (list write)) : stM N Response := λ n,
  match m n with
  | (Ok ws, n) => (Ok (mkResponse (written_status ws) ∅ (written_body ws)), n)
  | (_, n) => (Error (ErrSentinel "EOF"), n)
  end.

(** [AddDefaultRoutes], for requests of references *)
Definition serve (r : @RemoteNode HS) (fuel : nat) (method : string) (target : Target) : stM N Response :=
  match target with
  | Replaced _ path query =>
      if decide (path = "/remote/refs") then respond (RefsHTTPHandler ps mux view localResolver json_Ref r fuel method query)
      else mret (mkResponse StatusNotFound ∅ "404 page not found")
  | Appended _ _ => mret (mkResponse StatusNotFound ∅ "404 page not found")
  end.

(** Log synchronization with the remote over HTTP; a handler that panics closes
    the connection. *)
Definition remote_transport (urls : string → option error) (r : @RemoteNode HS) (o : LogOptions) (fuel : nat) : HttpTransport N := {|
  url_Parse := urls;
  http_Do _ req n := match on_logsync r o (HTTPHandler fuel req) n with
                     | (Panic, n) => (Error (ErrSentinel "EOF"), n)
                     | res => res
                     end;
|}.
Definition with_client {A} (url : string) (m : stM (httpClient N) A) : stM N A := λ n,
  let '(res, c) := m (mkHttpClient url n) in (res, hc_conn c).

Definition served_network (base : RemoteNetwork S N) (urls : string → option error) (r : @RemoteNode HS) (o : LogOptions) (fuel : nat)
    : RemoteNetwork S N :=
  let T := remote_transport urls r o fuel in {|
  net_logsync kind :=
    match kind with
    | HTTPClient url => {|
        rem_addr _ := Ok url;
        rem_put author ref data := with_client url (httpClient_put (HttpTransport0 := T) author ref data);
        rem_get author ref := with_client url (httpClient_get (HttpTransport0 := T) author ref);
        rem_del author ref := with_client url (httpClient_del (HttpTransport0 := T) author ref);
      |}
    | P2PClient _ => net_logsync (S := S) kind
    end;
  net_Parse := net_Parse;
  net_Path := net_Path (S := S) (T := N);
  net_Do method target _ := serve r fuel method target;
  dsync_NewPush := dsync_NewPush (S := S);
  dsync_Push := dsync_Push;
  dsync_NewPull := dsync_NewPull (S := S);
  dsync_Pull := dsync_Pull;
  ipfs_Pin := ipfs_Pin (T := N);
|}.
End served.
