(* ===== verification/OplogSpec.v ===== *)
(** * The operation log's properties

    Replicas of a log merge to their least upper bound; the caches of a log
    never show; identifiers and names lead to the logs they should. *)
From S2P Require Import LogbookFacts Instances.

Section spec.
Context `{OpDigest}.

(** C6: merging replicas. When two replicas of a log hold prefixes of one
    history, [u], merging one into the other succeeds, the result holds
    everything each of them holds and nothing that the history does not: it is
    their least upper bound. *)
Theorem Merge_join l lg u :
  Log_Forall siblings_ok u → extends lg u → extends l u →
  ∃ m, Merge l lg = Ok m ∧ extends lg m ∧ extends l m ∧ extends m u.
Proof. apply Merge_lub. Qed.

(** Merging converges. When two replicas of a history each merge the
    other's log, in whichever order that happens, both end up with the same
    operations at the same places. *)
Theorem Merge_converges l lg u :
  Log_Forall siblings_ok u → extends lg u → extends l u →
  Log_Forall siblings_ok lg → Log_Forall siblings_ok l →
  ∃ m m', Merge l lg = Ok m ∧ Merge lg l = Ok m' ∧ extends m m' ∧ extends m' m.
Proof.
  intros Hu Hlg Hl Hslg Hsl.
  destruct (Merge_lub l lg u Hu Hlg Hl) as (m & Hm & Hlm & Hlm' & _).
  destruct (Merge_lub lg l u Hu Hl Hlg) as (m' & Hm' & Hl1 & Hl2 & _).
  pose proof (Merge_siblings l lg u m Hu Hlg Hl Hslg Hsl Hm) as Hsm.
  pose proof (Merge_siblings lg l u m' Hu Hl Hlg Hsl Hslg Hm') as Hsm'.
  exists m, m'. split_and!; [done|done|..].
  - destruct (Merge_lub l lg m' Hsm' Hl2 Hl1) as (x & Hx & _ & _ & Hxm). congruence.
  - destruct (Merge_lub lg l m Hsm Hlm' Hlm) as (x & Hx & _ & _ & Hxm). congruence.
Qed.

(** The logs appending and merging make *)
Inductive log_history : Log → Prop :=
| hist_init op : log_history (InitLog op)
| hist_append lg op lg' : log_history lg → Append op lg = Ok lg' → log_history lg'
| hist_merge lg l : log_history lg → log_history (merge_ops l lg).

(** The caches never show. From a new log, whatever operations are
    appended and whatever operation lists are taken over while merging, the
    name and the author a log answers are those its operations determine. *)
Theorem caches_transparent lg :
  log_history lg → Name lg = computed op_Name lg ∧ Author lg = computed op_AuthorID lg.
Proof.
  intros Hh. assert (caches_ok lg) as [Hn Ha].
  { induction Hh as [op|lg op lg' Hh IH Hop|lg l Hh IH].
    - split; by left.
    - by eapply Append_caches_ok.
    - by apply merge_ops_caches_ok. }
  split; [by apply Name_computed|by apply Author_computed].
Qed.

(** Identifiers. [Get] answers a log with the identifier whenever the
    journal holds one, at any depth, and only then; it never panics. *)
Theorem Journal_Get_spec id j :
  (∀ a, Journal_Get id j = Ok a → ∃ lg, deref a j = Ok lg ∧ ID lg = id) ∧
  ((∃ a lg, deref a j = Ok lg ∧ ID lg = id) ↔ ∃ a, Journal_Get id j = Ok a) ∧
  Journal_Get id j ≠ Panic.
Proof.
  split_and!; [|split|apply Get_no_panic].
  - intros a (lg & Hlg & Hid & _)%Get_sound. eauto.
  - intros (a & lg & Hlg & Hid). destruct (Journal_Get id j) as [a'|e|] eqn:Hget; [by eexists| |].
    + by destruct (Get_complete id j (ex_intro _ e Hget) a lg Hlg).
    + by destruct (Get_no_panic id j).
  - intros (a & (lg & Hlg & Hid & _)%Get_sound). eauto.
Qed.

(** Names. A name path leads to a log only through logs of those names,
    none of them removed; on a journal whose logs all have operations it is an
    error otherwise, never a panic. *)
Theorem HeadRef_spec names j :
  wf_journal j →
  Journal_HeadRef names j ≠ Panic ∧
  ∀ a, Journal_HeadRef names j = Ok a →
    ∃ lg, named_path (j_logs j) names a lg ∧ deref a j = Ok lg ∧
          Name lg = Ok (default "" (last names)) ∧ Removed lg = Ok false.
Proof.
  intros Hwf. split.
  - destruct names; [done|]. by apply headref_addr_no_panic.
  - intros a Ha. destruct names as [|n ns]; [done|].
    destruct (headref_addr_named (n :: ns) (j_logs j) a) as [lg Hp]; [done..|].
    exists lg. split; [done|]. split; [by eapply deref_Ok, named_path_lookup|].
    by eapply named_path_end.
Qed.

(** Identifiers of operations are 52 letters and digits of base 32, so a
    log with an operation has one and it fits the identifiers references
    accept. *)
Theorem Hash_shape `{!OpDigestLaws _} o :
  String.length (Hash o) = 52 ∧ string_all is_base32 (Hash o) = true.
Proof.
  unfold Hash. split; [|apply base32_encode_alphabet].
  by rewrite base32_encode_length, sum256_length.
Qed.

(** Deep copies. Copying a log with its operations yields the same tree of
    operations and signatures under the same parent identifier, cut off from
    the parent it had. *)
Theorem DeepCopy_same lg :
  wf_log lg → ∃ c, DeepCopy lg = Ok c ∧ lg_Ops c = lg_Ops lg ∧ lg_Signature c = lg_Signature lg ∧
    lg_ParentID c = lg_ParentID lg ∧ lg_parent c = NoParent ∧ ID c = ID lg ∧
    ∀ a, lg_Ops <$> lookup_addr a (lg_Logs c) = lg_Ops <$> lookup_addr a (lg_Logs lg).
Proof.
  intros Hwf. destruct (marshal_unmarshal lg Hwf) as (fb & Hfb & Hun).
  exists (set_ParentID (lg_ParentID lg) (reload "" NoParent lg)).
  unfold DeepCopy. rewrite Hfb. cbn [mbind outcome_bind]. rewrite Hun.
  destruct lg as [n au p pid s ops ls]. split_and!; [done..|].
  intros a. cbn. apply lookup_addr_reload.
Qed.

(** A journal survives its storage format. What [FlatbufferCipher] makes of
    a journal, [UnmarshalFlatbufferCipher] reads with the same key as a
    journal with the same identifier and the same operations everywhere. *)
Theorem FlatbufferCipher_roundtrip `{BookCipher, !BookCipherLaws _} nonce pk j ct :
  String.length nonce = gcm_NonceSize → wf_journal j →
  FlatbufferCipher nonce pk j = Ok ct →
  ∃ j', UnmarshalFlatbufferCipher pk ct = Ok j' ∧ j_id j' = j_id j ∧
        (∀ a, ops_at a j' = ops_at a j) ∧ wf_journal j'.
Proof.
  intros Hn Hwf Hct. exists (reload_journal j). rewrite (load_saved _ _ _ _ Hn Hwf Hct).
  split_and!; [done|done|intros a; apply lookup_addr_reload|].
  unfold wf_journal, reload_journal. cbn. apply Forall_map. eapply Forall_impl; [done|].
  intros lg. cbn. generalize "" as pid. generalize NoParent as p.
  induction lg as [lg IH] using Log_ind'. intros p pid [Hi Hch].
  constructor; [by destruct lg|]. destruct lg as [n au p0 pid0 s ops ls]. cbn in *.
  apply Forall_map. rewrite Forall_forall in *. intros x Hx. by apply IH; [|apply Hch].
Qed.
End spec.

Import Demo.

(** Logs with at most one child at every node *)
Lemma single_siblings lg : length (lg_Logs lg) ≤ 1 → siblings_ok lg.
Proof. intros Hl i j x y ?%lookup_lt_Some ?%lookup_lt_Some _. lia. Qed.

Ltac single_chain :=
  repeat (first [apply Log_Forall_intro; [apply single_siblings; cbn; lia|cbn]
                | apply List.Forall_nil | apply List.Forall_cons]).
Ltac extends_chain :=
  repeat (apply extends_alt; split; [discriminate|]; split; [eexists; reflexivity|];
          first [by intros x Hx; apply not_elem_of_nil in Hx
                | intros x Hx; apply list_elem_of_singleton in Hx; subst x;
                  eexists; split; [left|]]).

Lemma replica_u_ok : Log_Forall siblings_ok replica_u.
Proof. single_chain. Qed.
Lemma replica_l_u : extends replica_l replica_u.
Proof. extends_chain. Qed.
Lemma replica_r_u : extends replica_r replica_u.
Proof. extends_chain. Qed.

Lemma Merge_join_witness :
  ∃ m, Merge replica_l replica_r = Ok m ∧ extends replica_r m ∧ extends replica_l m ∧
       extends m replica_u.
Proof. apply (Merge_join _ _ _ replica_u_ok replica_r_u replica_l_u). Defined.

Lemma Merge_converges_witness :
  ∃ m m', Merge replica_l replica_r = Ok m ∧ Merge replica_r replica_l = Ok m' ∧
          extends m m' ∧ extends m' m.
Proof.
  apply (Merge_converges _ _ _ replica_u_ok replica_r_u replica_l_u); single_chain.
Defined.

Definition renamed : Log :=
  default (InitLog zero_Op)
    (match Append bob_rename (InitLog (Head bob_log)) with Ok l => Some l | _ => None end).

Lemma caches_transparent_witness : Name renamed = Ok "robert".
Proof.
  destruct (caches_transparent renamed) as [Hn _].
  - eapply hist_append; [apply (hist_init (Head bob_log))|]. reflexivity.
  - rewrite Hn. vm_compute. reflexivity.
Defined.

Lemma HeadRef_spec_witness :
  ∃ lg, named_path (j_logs (b_store saved)) ["alice"; "cities"] [0; 0] lg.
Proof.
  destruct (HeadRef_spec ["alice"; "cities"] (b_store saved)) as [_ H].
  - repeat first [constructor | discriminate].
  - destruct (H [0; 0]) as (lg & Hp & _); [vm_compute; reflexivity|]. exists lg. exact Hp.
Defined.

Lemma Hash_shape_witness : String.length (Hash zero_Op) = 52.
Proof. apply Hash_shape. Defined.

Lemma DeepCopy_same_witness : ∃ c, DeepCopy replica_l = Ok c ∧ ID c = ID replica_l.
Proof.
  destruct (DeepCopy_same replica_l) as (c & Hc & _ & _ & _ & _ & Hid & _).
  - repeat first [constructor | discriminate].
  - exists c. split; [exact Hc|exact Hid].
Defined.

Lemma FlatbufferCipher_roundtrip_witness :
  ∃ ct j', FlatbufferCipher "nn" (b_pk saved) (b_store saved) = Ok ct ∧
    UnmarshalFlatbufferCipher (b_pk saved) ct = Ok j' ∧ j_id j' = j_id (b_store saved).
Proof.
  assert (wf_journal (b_store saved)) as Hwf by (repeat first [constructor | discriminate]).
  destruct (FlatbufferCipher_Ok "nn" (b_pk saved) (b_store saved) "k" Hwf eq_refl) as [ct Hct].
  destruct (FlatbufferCipher_roundtrip "nn" (b_pk saved) (b_store saved) ct eq_refl Hwf Hct)
    as (j' & Hj' & Hid & _).
  exists ct, j'. split; [exact Hct|]. split; [exact Hj'|exact Hid].
Defined.
