(* ===== verification/LogbookSpec.v ===== *)
(** * The logbook's properties: writing

    Who may write what, what each call records, and that nothing recorded is
    lost. The witnesses run the calls on the books of [Instances]. *)
From S2P Require Import LogbookEdits Instances.
From S2P Require Export HistoryFacts.

Section spec.
Context `{OpDigest, BookCipher, Entropy} {F P : Type} `{!Filesystem F, !Publisher P}.
Implicit Types b : @Book _ F P.

(** C2: write access. Whatever sequence of calls that write to datasets and
    branches is made, and whatever each of them answers, the operations of a
    log whose first operation is by somebody other than the book's author stay
    as they are. *)
Theorem foreign_logs_untouched b b' x o ops :
  rtc step b b' → ops_at x (b_store b) = Some (o :: ops) → op_AuthorID o ≠ b_authorID b →
  ops_at x (b_store b') = Some (o :: ops).
Proof.
  intros Hr. induction Hr as [|b1 b2 b3 Hs Hr IH]; intros Hx Hne; [done|].
  apply IH; [by eapply step_foreign|]. by destruct (step_owner _ _ Hs) as [-> _].
Qed.

(** C5: append only. Along any sequence of such calls, failing ones included,
    every log keeps its place, the operations it had stay the beginning of the
    operations it has, no log appears, every identifier is found at the same
    place, the store stays well formed, and a linked store stays linked. *)
Theorem history_append_only b b' :
  rtc step b b' → wf_journal (b_store b) →
  wf_journal (b_store b') ∧ (linked (b_store b) → linked (b_store b')) ∧
  (∀ id, Journal_Get id (b_store b') = Journal_Get id (b_store b)) ∧
  ∀ x, match ops_at x (b_store b), ops_at x (b_store b') with
       | Some ops, Some ops' => ops `prefix_of` ops'
       | None, None => True
       | _, _ => False
       end.
Proof.
  intros Hr Hwf. induction Hr as [b1|b1 b2 b3 Hs Hr IH].
  { split_and!; [done..|]. intros x. by destruct (ops_at x _). }
  destruct (IH (step_wf _ _ Hs Hwf)) as (Hwf' & Hlk & Hget & Hops). split_and!; [done| | |].
  - intros Hl. apply Hlk. by eapply step_linked.
  - intros id. rewrite Hget. by apply step_Get.
  - intros x. specialize (Hops x). destruct (ops_at x (b_store b1)) as [ops|] eqn:Hx.
    + destruct (step_ops _ _ _ _ Hs Hx) as [extra Hx2]. rewrite Hx2 in Hops.
      destruct (ops_at x (b_store b3)); [|done]. etrans; [by eexists|done].
    + by rewrite (step_no_new _ _ _ Hs Hx) in Hops.
Qed.

(** A call on a log of another author answers "access denied", or that the
    new name is invalid, and leaves the book as it was. *)
Theorem write_denied e b a lg o ops :
  edit_target e b = (Ok a, b) → deref a (b_store b) = Ok lg → lg_Ops lg = o :: ops →
  op_AuthorID o ≠ b_authorID b →
  ∃ err, run_edit e b = (Error err, b) ∧
         (errors_Is err "access denied" ∨
          ∃ id n, e = EDatasetRename id n ∧ IsValidName n = false).
Proof.
  intros Ht Hlg Hops Ho.
  assert (∀ A (k : addr → stM _ A),
    (a ← edit_target e; hasWriteAccess a;; k a) b =
      (Error (ErrWrap "%w: you do not have write access" [] ErrAccessDenied), b)) as Hg.
  { intros A k. by eapply guarded_denied. }
  destruct e as [id n|id|id ds rs|id rs|id ds|id n|fuel id n addr|fuel id n addr]; cbn in *.
  1: unfold WriteDatasetRename; destruct (IsValidName n) eqn:Hn; cbn; [|by eexists; eauto 10].
  all: exists (ErrWrap "%w: you do not have write access" [] ErrAccessDenied); split; [|by left].
  1-6: apply Hg.
  all: unfold mbind at 1, stM_bind at 1, WriteRemotePush, WriteRemoteDelete, write_remote.
  all: by rewrite Hg.
Qed.

(** Saving a version. With write access, a commit that names the run it is
    given and a readable key, the call succeeds; the branch's operations are
    extended by the run, if there is one, and the version; the path of the
    version is the branch's latest path; and the event names the dataset, the
    path and the position of the version in the branch. *)
Theorem WriteVersionSave_records initID ds rs cm a lg b k :
  publisher_ok → wf_journal (b_store b) → cipher (b_pk b) = Ok k →
  branchLog initID b = (Ok a, b) → owned a b → deref a (b_store b) = Ok lg →
  ds_Commit ds = Some cm → (∀ r, rs = Some r → rs_ID r = cm_RunID cm) →
  ∃ b' lg' op, WriteVersionSave initID ds rs b = (Ok tt, b') ∧
    versionSaveOp ds = Ok op ∧
    written a (option_list (transformRunOp <$> rs) ++ [op]) b b' ∧
    deref a (b_store b') = Ok lg' ∧
    lg_Ops lg' = lg_Ops lg ++ option_list (transformRunOp <$> rs) ++ [op] ∧
    latestSavePath lg' = ds_Path ds ∧
    b_publisher b' =
      (Publish ETDatasetCommitChange
         (mkDsChange initID (Z.of_nat (length (lg_Ops lg')) - 1) "" "" "" (ds_Path ds)
            (Some (ConvertDatasetToVersionInfo ds)) "") (b_publisher b)).2.
Proof. intros Hpub. apply WriteVersionSave_run. by intros ?. Qed.

(** C19: a saved version is what the dataset's name resolves to. When the name
    stands for the dataset with the identifier and the version is saved under
    it, resolving the name afterwards answers that identifier and the path of
    the version. *)
Theorem ResolveRef_after_save initID ds rs cm d dl lg b b' k username name profileID :
  publisher_ok → wf_journal (b_store b) → cipher (b_pk b) = Ok k →
  Journal_HeadRef [username; name] (b_store b) = Ok d → deref d (b_store b) = Ok dl → ID dl = initID →
  Journal_Get initID (b_store b) = Ok d → length (lg_Logs dl) = 1 →
  owned (d ++ [0]) b → deref (d ++ [0]) (b_store b) = Ok lg →
  ds_Commit ds = Some cm → (∀ r, rs = Some r → rs_ID r = cm_RunID cm) → profileID ≠ "" →
  WriteVersionSave initID ds rs b = (Ok tt, b') →
  Book_ResolveRef (Some b') (mkRef "" username profileID name "") =
    (Ok "", mkRef initID username profileID name (ds_Path ds)).
Proof.
  intros Hpub. apply saved_resolves. by intros ?.
Qed.
End spec.

Import Demo.

(** Saving to one's own dataset, then trying to rename and delete Bob's *)
Definition demo_edits : list edit :=
  [EVersionSave cities_id (version "/ipfs/Qm2" "/ipfs/Qm1" 20) None;
   EDatasetRename birds_id "fish"; EDatasetDelete birds_id].

Lemma demo_steps :
  rtc step shared (foldl (λ b e, (run_edit e b).2) shared demo_edits).
Proof. cbn [foldl demo_edits]. do 3 (eapply rtc_l; [constructor|]). apply rtc_refl. Qed.

Lemma foreign_logs_untouched_witness :
  ops_at [1; 0] (b_store (foldl (λ b e, (run_edit e b).2) shared demo_edits)) =
  Some (lg_Ops birds).
Proof.
  apply (foreign_logs_untouched _ _ [1; 0] (Head birds) [] demo_steps).
  - vm_compute. reflexivity.
  - vm_compute. discriminate.
Defined.

Lemma wf_shared : wf_journal (b_store shared).
Proof. repeat first [constructor | discriminate]. Qed.

Lemma history_append_only_witness :
  Journal_Get birds_id (b_store (foldl (λ b e, (run_edit e b).2) shared demo_edits)) =
  Journal_Get birds_id (b_store shared).
Proof. apply (history_append_only _ _ demo_steps wf_shared). Defined.

Lemma write_denied_witness :
  ∃ err, run_edit (EVersionDelete birds_id 1) shared = (Error err, shared) ∧
         (errors_Is err "access denied" ∨
          ∃ id n, EVersionDelete birds_id 1 = EDatasetRename id n ∧ IsValidName n = false).
Proof.
  eapply (write_denied _ _ [1; 0; 0]).
  - vm_compute. reflexivity.
  - vm_compute. reflexivity.
  - cbn. reflexivity.
  - vm_compute. discriminate.
Defined.

Lemma demo_publisher_ok : publisher_ok (P := events).
Proof. done. Qed.

Lemma wf_inited : wf_journal (b_store inited).
Proof. repeat first [constructor | discriminate]. Qed.

Lemma owned_inited : owned [0; 0; 0] inited.
Proof. unfold owned. eexists _, _, _. split_and!; vm_compute; reflexivity. Qed.

Definition cities1 : Dataset := version "/ipfs/Qm1" "" 10.

Lemma WriteVersionSave_records_witness :
  ∃ b' lg', WriteVersionSave cities_id cities1 None inited = (Ok tt, b') ∧
    deref [0; 0; 0] (b_store b') = Ok lg' ∧ latestSavePath lg' = "/ipfs/Qm1".
Proof.
  destruct (WriteVersionSave_records cities_id cities1 None (commit 10 "edit") [0; 0; 0]
    (default (InitLog zero_Op) (lookup_addr [0; 0; 0] (j_logs (b_store inited)))) inited "k")
    as (b' & lg' & op & Hrun & _ & _ & Hlg' & _ & Hpath & _).
  - exact demo_publisher_ok.
  - exact wf_inited.
  - reflexivity.
  - vm_compute. reflexivity.
  - exact owned_inited.
  - vm_compute. reflexivity.
  - reflexivity.
  - discriminate.
  - exists b', lg'. split; [exact Hrun|]. split; [exact Hlg'|exact Hpath].
Defined.

Lemma ResolveRef_after_save_witness :
  Book_ResolveRef (Some saved) (mkRef "" "alice" "QmAlice" "cities" "") =
    (Ok "", mkRef cities_id "alice" "QmAlice" "cities" "/ipfs/Qm1").
Proof.
  apply (ResolveRef_after_save cities_id cities1 None (commit 10 "edit") [0; 0]
    (default (InitLog zero_Op) (lookup_addr [0; 0] (j_logs (b_store inited))))
    (default (InitLog zero_Op) (lookup_addr [0; 0; 0] (j_logs (b_store inited)))) inited saved "k"
    "alice" "cities" "QmAlice").
  - exact demo_publisher_ok.
  - exact wf_inited.
  - reflexivity.
  - vm_compute. reflexivity.
  - vm_compute. reflexivity.
  - vm_compute. reflexivity.
  - vm_compute. reflexivity.
  - reflexivity.
  - exact owned_inited.
  - vm_compute. reflexivity.
  - reflexivity.
  - discriminate.
  - discriminate.
  - vm_compute. reflexivity.
Defined.

(** * The logbook's properties: remotes and deletes *)
Section spec.
Context `{OpDigest, BookCipher, Entropy} {F P : Type} `{!Filesystem F, !Publisher P}.
Implicit Types b : @Book _ F P.

Lemma sparse_or_rollback_ends fuel initID a op b b2 k b3 :
  wf_journal (b_store b) → cipher (b_pk b) = Ok k →
  branchLog initID b = (Ok a, b) → owned a b → written a [op] b b2 →
  (UserDatasetBranchesLog fuel initID b2).1 ≠ Panic → sparse_or_rollback fuel initID b2 ≠ (Panic, b3).
Proof.
  intros Hwf Hk Ha Ho Hw Hends. unfold sparse_or_rollback.
  pose proof (UserDatasetBranchesLog_written fuel initID a b2) as Hu.
  destruct (UserDatasetBranchesLog fuel initID b2) as [[l|e|] b'] eqn:Hsp; [done| |done].
  assert (written a [op] b b') as Hw' by (rewrite <- (app_nil_r [op]); by eapply written_trans).
  destruct (rollback_op_Ok initID a op b b' k Hwf Hk Ha Ho Hw') as (b4 & -> & _). done.
Qed.

(** Pushing and rolling back. A push that succeeds records one operation;
    calling the rollback it returns takes that operation back and leaves every
    log with the operations it had before the push; calling it again does
    nothing. A push that fails on the way has taken its operation back. In a
    linked store it always ends, without a panic. *)
Theorem WriteRemotePush_rollback fuel initID revisions remoteAddr a b k r b1 :
  wf_journal (b_store b) → linked (b_store b) → cipher (b_pk b) = Ok k →
  branchLog initID b = (Ok a, b) → owned a b → length a ≤ S (S fuel) →
  WriteRemotePush fuel initID revisions remoteAddr b = (r, b1) →
  match r with
  | Ok _ =>
      written a (edit_ops (ERemotePush fuel initID revisions remoteAddr) b) b b1 ∧
      ∃ b2, rollback initID None b1 = (Ok (Ok tt), b2) ∧ written a [] b b2 ∧
            rollback initID (Some (Ok tt)) b2 = (Ok (Ok tt), b2)
  | Error _ => written a [] b b1
  | Panic => False
  end.
Proof.
  intros Hwf Hlinked Hk Ha Ho Hlen Hrun. set (op := mkOp OpTypeInit PushModel "" "" [remoteAddr] "" ""
    (NewTimestamp (b_tick b)) revisions "").
  assert (push_body OpTypeInit fuel initID revisions remoteAddr a b = (r, b1)) as Hbody.
  { rewrite <- Hrun. unfold WriteRemotePush, write_remote. rewrite (bind_run _ _ _ _ _ Ha).
    by rewrite (bind_run _ _ _ _ _ (hasWriteAccess_owned _ _ Ho)). }
  destruct (append_at_written a op (tick b)) as (b2 & Hop & Hw & _); [done|].
  assert (written a [op] b (save b2).2) as Hw3 by (eapply written_kept; [exact Hw|apply save_kept]).
  assert (push_body OpTypeInit fuel initID revisions remoteAddr a b =
          sparse_or_rollback fuel initID (save b2).2) as Hsparse.
  { unfold push_body. rewrite now_run.
    rewrite (bind_run (BranchLog_Append a op) _ (tick b) tt b2)
      by (rewrite BranchLog_Append_eq by set_solver; done).
    rewrite (bind_run save _ b2 tt (save b2).2); [done|]. apply (save_run b2 k).
    - apply (edits_wf _ _ _ _ (proj1 Hw) Hwf).
    - by destruct Hw as [_ (_ & -> & _)]. }
  assert ((UserDatasetBranchesLog fuel initID (save b2).2).1 ≠ Panic) as Hends.
  { destruct (proj1 (branchLog_Ok _ _ _ _) Ha) as (_ & d & lg & -> & Hd & _).
    apply (UserDatasetBranchesLog_no_panic _ _ d).
    - by apply (edits_linked _ _ _ _ (proj1 Hw3)).
    - by rewrite (edits_Get _ _ _ _ (proj1 Hw3)).
    - rewrite length_app in Hlen. cbn in Hlen. lia. }
  destruct r as [l|e|].
  - pose proof (push_body_edited OpTypeInit fuel initID revisions remoteAddr a b Ha Ho) as (ex & Hwex & _ & Hex).
    rewrite Hbody in Hwex, Hex. cbn in Hwex, Hex. rewrite Hex in Hwex by done. split; [done|].
    destruct (rollback_op_Ok initID a _ b b1 k Hwf Hk Ha Ho Hwex) as (b4 & Hrb & Hw2).
    exists b4. unfold rollback. by rewrite Hrb.
  - rewrite Hsparse in Hbody. unfold sparse_or_rollback in Hbody.
    pose proof (UserDatasetBranchesLog_written fuel initID a (save b2).2) as Hu.
    destruct (UserDatasetBranchesLog fuel initID (save b2).2) as [[l|e'|] b3] eqn:Hsp; [done| |done].
    assert (written a [op] b b3) as Hw4.
    { rewrite <- (app_nil_r [op]). by eapply written_trans. }
    destruct (rollback_op_Ok initID a op b b3 k Hwf Hk Ha Ho Hw4) as (b4 & Hrb & Hw5).
    rewrite Hrb in Hbody. by injection Hbody as _ <-.
  - rewrite Hsparse in Hbody. revert Hbody.
    apply (sparse_or_rollback_ends fuel initID a op b _ k); done.
Qed.

(** Deleting versions announces the wrong head. When the last [k] of the
    versions [cs] of a branch are deleted, the event's head reference is the
    path of the first version ever saved, not of the newest one left. *)
Theorem WriteVersionDelete_event initID a lg o cs c0 k key b b' :
  publisher_ok → wf_journal (b_store b) → cipher (b_pk b) = Ok key →
  branchLog initID b = (Ok a, b) → owned a b → deref a (b_store b) = Ok lg →
  lg_Ops lg = o :: c0 :: cs → op_Model o = BranchModel → Forall plain_init (c0 :: cs) →
  (0 < k < Z.of_nat (length (c0 :: cs)))%Z →
  WriteVersionDelete initID k b = (Ok tt, b') →
  b_publisher b' =
    (Publish ETDatasetCommitChange
       (mkDsChange initID (Z.of_nat (length (c0 :: cs)) - k) "" "" "" (op_Ref c0)
          (Some (versionInfoFromOp zero_Ref c0)) "") (b_publisher b)).2.
Proof.
  intros Hpub Hwf Hkey Ha Ho Hlg Hops Hom Hcs Hk Hrun.
  destruct (append_at_written a (deleteOp k) b Ho) as (b1 & Hap & Hw & _ & Hp).
  destruct (edits_deref _ _ _ _ _ (proj1 Hw) Hlg) as (lg1 & Hlg1 & Hops1).
  unfold WriteVersionDelete in Hrun. rewrite (bind_run _ _ _ _ _ Ha) in Hrun.
  rewrite (bind_run _ _ _ _ _ (hasWriteAccess_owned _ _ Ho)) in Hrun.
  rewrite (bind_run (BranchLog_Append a _) _ b tt b1) in Hrun
    by (rewrite BranchLog_Append_eq by set_solver; done).
  rewrite (bind_run (with_store (deref a)) _ b1 lg1 b1) in Hrun by (unfold with_store; by rewrite Hlg1).
  rewrite Hops in Hops1.
  pose proof (branchToVersionInfos_pending zero_Ref lg1 o (c0 :: cs) k Hops1 Hom Hcs Hk) as Hitems.
  rewrite (bind_run (st_lift _) _ b1 _ b1) in Hrun by (unfold st_lift; by rewrite Hitems).
  assert (∃ n, length (c0 :: cs) - Z.to_nat k = S n) as [n Hn]
    by (exists (length (c0 :: cs) - Z.to_nat k - 1); lia).
  rewrite Hn in Hrun. cbn [take map] in Hrun. rewrite reverse_cons, last_snoc in Hrun.
  rewrite length_app, length_reverse, length_map, length_take in Hrun.
  rewrite (bind_run _ _ _ _ _ (publish_run _ _ b1 Hpub)) in Hrun.
  apply (f_equal (λ r, b_publisher r.2)) in Hrun. rewrite save_publisher in Hrun.
  cbn [snd] in Hrun. rewrite <- Hrun. cbn [b_publisher set_publisher vi_Path versionInfoFromOp]. rewrite Hp.
  do 3 f_equal. cbn [length] in *. lia.
Qed.
End spec.

Import Demo.

Lemma owned_saved3 : owned [0; 0; 0] saved3.
Proof. unfold owned. eexists _, _, _. split_and!; vm_compute; reflexivity. Qed.

Lemma wf_saved3 : wf_journal (b_store saved3).
Proof. repeat first [constructor | discriminate]. Qed.

Lemma linked_saved3 : linked (b_store saved3).
Proof.
  split.
  - intros [|i] lg; [|done]. intros [= <-]. split; [done|discriminate].
  - intros [|[|?] [|[|?] [|[|?] a]]] [|i] lg Ha; try done; try (destruct a; done).
    all: intros [= <-]; eexists; split_and!; [reflexivity|vm_compute; reflexivity|exact I|vm_compute; reflexivity].
Qed.

Definition demo_push := WriteRemotePush 1 cities_id 1 "registry" saved3.

Lemma WriteRemotePush_rollback_witness :
  ∃ b2, rollback cities_id None demo_push.2 = (Ok (Ok tt), b2) ∧ written [0; 0; 0] [] saved3 b2.
Proof.
  pose proof (WriteRemotePush_rollback 1 cities_id 1 "registry" [0; 0; 0] saved3 "k"
    demo_push.1 demo_push.2 wf_saved3 linked_saved3 eq_refl) as Hpush.
  assert (∃ l, demo_push.1 = Ok l) as [l Hl].
  { eexists. vm_compute. reflexivity. }
  rewrite Hl in Hpush. destruct Hpush as (_ & b2 & Hrb & Hw & _).
  - vm_compute. reflexivity.
  - exact owned_saved3.
  - cbn. lia.
  - rewrite <- Hl. apply surjective_pairing.
  - exists b2. split; [exact Hrb|exact Hw].
Defined.

Definition saved3_branch : Log :=
  default (InitLog zero_Op) (lookup_addr [0; 0; 0] (j_logs (b_store saved3))).

Lemma WriteVersionDelete_event_witness :
  from_option (λ e : string * DsChange, dc_HeadRef e.2) ""
    (last (b_publisher (WriteVersionDelete cities_id 1 saved3).2)) = "/ipfs/Qm1".
Proof.
  rewrite (WriteVersionDelete_event cities_id [0; 0; 0] saved3_branch
    (Head (set_Ops (take 1 (lg_Ops saved3_branch)) saved3_branch))
    (drop 2 (lg_Ops saved3_branch)) (default zero_Op (lg_Ops saved3_branch !! 1)) 1 "k" saved3).
  - vm_compute. reflexivity.
  - intros typ payload p. discriminate.
  - exact wf_saved3.
  - reflexivity.
  - vm_compute. reflexivity.
  - exact owned_saved3.
  - vm_compute. reflexivity.
  - vm_compute. reflexivity.
  - reflexivity.
  - repeat (apply List.Forall_cons; [vm_compute; tauto|]). apply List.Forall_nil.
  - vm_compute. tauto.
  - rewrite (surjective_pairing (WriteVersionDelete cities_id 1 saved3)) at 1. f_equal.
Defined.
