(* ===== verification/LogbookInit.v ===== *)
(** * The logbook's properties: creating a dataset

    A new dataset is a log added below the author's: it is found by its
    identifier and by its name, and its branch can be written. *)
From S2P Require Import LogbookEdits Instances.

(** ** Names in a list of logs that grew *)
Lemma find_named_app n i ls ls' :
  find_named n i ls = Ok None → find_named n i (ls ++ ls') = find_named n (i + length ls) ls'.
Proof.
  revert i. induction ls as [|x ls IH]; intros i; cbn [app find_named length].
  { by rewrite Nat.add_0_r. }
  rewrite Nat.add_succ_r. destruct (Name x) as [nm| |]; cbn; [|done..].
  case_decide; [|apply IH]. destruct (Removed x) as [[]| |]; cbn; [apply IH|done..].
Qed.

Lemma headref_addr_graft u n i ls lg lg' x :
  Forall wf_log ls → headref_addr [u] ls = Ok [i] → ls !! i = Some lg →
  headref_addr [u; n] ls = Error ErrNotFound →
  Name lg' = Name lg → Removed lg' = Removed lg → lg_Logs lg' = lg_Logs lg ++ [x] →
  Name x = Ok n → Removed x = Ok false →
  headref_addr [u; n] (alter_addr (λ _, lg') [i] ls) = Ok [i; length (lg_Logs lg)].
Proof.
  intros Hwf Hu Hlg Hn HN HR Hlogs Hx Hxr. cbn [headref_addr] in *.
  change (alter_addr (λ _, lg') [i] ls) with (alter (λ _, lg') i ls).
  rewrite find_named_alter by (intros l Hl; by simplify_eq).
  destruct (find_named u 0 ls) as [[[k l]|]| |] eqn:Hf; cbn [mbind outcome_bind] in *; [|done..].
  injection Hu as ->.
  apply find_named_Some in Hf as (m & -> & Hl & _). cbn [plus] in *.
  assert (l = lg) as -> by congruence. cbn. rewrite decide_True by done. rewrite Hlogs.
  destruct (find_named_no_panic n 0 (lg_Logs lg)) as [r Hr].
  { apply wf_children. rewrite Forall_lookup in Hwf. by eapply Hwf. }
  rewrite Hr in Hn. cbn in Hn. destruct r as [[k' l']|]; [done|].
  rewrite (find_named_app _ _ _ _ Hr). cbn. rewrite Hx, Hxr. cbn. by rewrite decide_True.
Qed.

Section digest.
Context `{OpDigest}.

(** ** Identifiers of a store that grew *)
Definition absent id ls : Prop := ∀ a x, lookup_addr a ls = Some x → ID x ≠ id.

Lemma absent_child id ls i l : absent id ls → ls !! i = Some l → ID l ≠ id ∧ absent id (lg_Logs l).
Proof.
  intros Ha Hl. split.
  - apply (Ha [i]). rewrite lookup_addr_cons, Hl. done.
  - intros [|k a] x Hx; [done|]. apply (Ha (i :: k :: a)). by rewrite lookup_addr_cons, Hl.
Qed.

Lemma absent_Log_Log id lg : ID lg ≠ id → absent id (lg_Logs lg) → Log_Log id lg = None.
Proof.
  intros Hid Ha. destruct (Log_Log id lg) as [a|] eqn:E; [|done].
  apply Log_Log_lookup in E as (lg' & Hid' & Ha'). destruct a; [by subst|].
  by apply Ha in Ha'.
Qed.

Lemma find_addr_graft id a ls lg lg' x :
  absent id ls → lookup_addr a ls = Some lg → ID lg' = ID lg →
  lg_Logs lg' = lg_Logs lg ++ [x] → ID x = id →
  find_addr (Log_Log id) 0 (alter_addr (λ _, lg') a ls) = Some (a ++ [length (lg_Logs lg)]).
Proof.
  intros Habs Hlg Hid Hlogs Hx. revert ls Habs Hlg.
  induction a as [|i a IH]; intros ls Habs; [done|].
  rewrite lookup_addr_cons. destruct (ls !! i) as [l|] eqn:Hl; cbn [mbind option_bind]; [|done].
  destruct (absent_child _ _ _ _ Habs Hl) as [Hlid Hlabs]. intros Hlg.
  apply find_addr_Some. eexists i, _, (a ++ [length (lg_Logs lg)]).
  split_and!; [done|cbn [alter_addr]; by rewrite list_lookup_alter_eq, Hl| |].
  - rewrite Log_Log_unfold. destruct a as [|i' a].
    + injection Hlg as ->. rewrite decide_False by congruence. rewrite Hlogs.
      apply find_addr_Some. exists (length (lg_Logs lg)), x, []. split_and!; [done| | |].
      * by rewrite lookup_app_r, Nat.sub_diag by done.
      * rewrite Log_Log_unfold. by rewrite decide_True.
      * intros k' l' Hk Hl'. rewrite lookup_app_l in Hl' by done.
        destruct (absent_child _ _ _ _ Hlabs Hl'). by apply absent_Log_Log.
    + rewrite decide_False by done. by apply IH.
  - intros k' l' Hk Hl'. cbn [alter_addr] in Hl'. rewrite list_lookup_alter_ne in Hl' by lia.
    destruct (absent_child _ _ _ _ Habs Hl'). by apply absent_Log_Log.
Qed.

Lemma wf_AddChild l lg : wf_log l → wf_log lg → wf_log (AddChild l lg).
Proof.
  intros [Hil Hcl] [Hi Hc]. unfold AddChild.
  assert (wf_log (set_parent TreeParent (set_ParentID (ID lg) l))) as Hl' by (by constructor).
  destruct (find_index_from _ _ _) as [[i ch]|].
  - case_decide; constructor; [done| |done..]. by apply Forall_insert.
  - constructor; [done|]. apply Forall_app; split; [done|by constructor].
Qed.
End digest.

Section spec.
Context `{OpDigest, BookCipher, Entropy} {F P : Type} `{!Filesystem F, !Publisher P}.
Implicit Types b : @Book _ F P.

(** The initial operations of a dataset and of its branch *)
Definition datasetInitOp b dsName : Op :=
  mkOp OpTypeInit DatasetModel "" "" [] dsName (b_authorID b) (NewTimestamp (b_tick b)) 0 "".
Definition branchInitOp b : Op :=
  mkOp OpTypeInit BranchModel "" "" [] DefaultBranchName (b_authorID b) (NewTimestamp (S (b_tick b))) 0 "".

Definition newDataset b dsName : Log :=
  AddChild (InitLog (branchInitOp b)) (InitLog (datasetInitOp b dsName)).

Lemma check_existing_absent b dsName :
  Journal_HeadRef [b_authorName b; dsName] (b_store b) = Error ErrNotFound →
  check_existing dsName b = (Ok tt, b).
Proof.
  intros Hno. unfold check_existing, DatasetRef. cbn [ref_Username ref_Name].
  case_decide; [done|]. case_decide; [done|]. unfold with_store. by rewrite Hno.
Qed.

Lemma WriteDatasetInit_run b dsName a alog profileID :
  publisher_ok → dsName ≠ "" → IsValidName dsName = true →
  Journal_HeadRef [b_authorName b; dsName] (b_store b) = Error ErrNotFound →
  Journal_Get (b_authorID b) (b_store b) = Ok a → deref a (b_store b) = Ok alog →
  UserLog_ProfileID alog = Ok profileID →
  let dsLog := newDataset b dsName in
  let b1 := set_store (store_at a (AddChild dsLog alog) (b_store b)) (tick (tick b)) in
  let b2 := set_publisher (Publish ETDatasetNameInit
    (mkDsChange (ID dsLog) 0 profileID (b_authorName b) dsName "" None "") (b_publisher b)).2 b1 in
  WriteDatasetInit dsName b = (save;; mret (ID dsLog)) b2.
Proof.
  intros Hpub Hne Hv Hno Ha Halog Hpid dsLog b1 b2. unfold WriteDatasetInit.
  rewrite decide_False by done. rewrite Hv. cbn [negb].
  rewrite (bind_run _ _ _ _ _ (check_existing_absent b dsName Hno)).
  rewrite (bind_run authorLog _ b a b) by (unfold authorLog, with_store, mbind, stM_bind; cbn; by rewrite Ha).
  rewrite (bind_run (with_store (deref a)) _ b alog b) by (unfold with_store; by rewrite Halog).
  rewrite (bind_run (st_lift _) _ b profileID b) by (unfold st_lift; by rewrite Hpid).
  rewrite (bind_run st_get _ b b b) by done. rewrite !now_run.
  cbv zeta. fold (datasetInitOp b dsName).
  rewrite (bind_run (st_modify _) _ _ tt b1) by done.
  rewrite (bind_run _ _ _ _ _ (publish_run _ _ b1 Hpub)). done.
Qed.

(** Where a dataset that is added to its author's log is found *)
Lemma dataset_added b dsName i alog :
  let dsLog := newDataset b dsName in
  let x := set_parent TreeParent (set_ParentID (ID alog) dsLog) in
  let n := length (lg_Logs alog) in
  let js := alter_addr (λ _, AddChild dsLog alog) [i] (j_logs (b_store b)) in
  j_logs (b_store b) !! i = Some alog → absent (Hash (datasetInitOp b dsName)) (j_logs (b_store b)) →
  AddChild dsLog alog = set_Logs (lg_Logs alog ++ [x]) alog ∧
  lookup_addr [i; n] js = Some x ∧
  lookup_addr [i; n; 0] js = Some (set_parent TreeParent (set_ParentID (ID dsLog) (InitLog (branchInitOp b)))) ∧
  absent (Hash (datasetInitOp b dsName)) (lg_Logs alog).
Proof.
  intros dsLog x n js Hi Habs.
  assert (ID dsLog = Hash (datasetInitOp b dsName)) as Hid by done.
  destruct (absent_child _ _ _ _ Habs Hi) as [_ Hchabs].
  assert (AddChild dsLog alog = set_Logs (lg_Logs alog ++ [x]) alog) as Hadd.
  { apply AddChild_fresh. intros ch [m Hm]%list_elem_of_lookup.
    rewrite Hid. by destruct (absent_child _ _ _ _ Hchabs Hm). }
  assert (lookup_addr [i] js = Some (AddChild dsLog alog)) as Hl1.
  { unfold js. rewrite lookup_alter_addr. cbn. by rewrite Hi. }
  assert (lookup_addr [i; n] js = Some x) as Hl2.
  { change [i; n] with ([i] ++ [n]). rewrite (lookup_addr_app [i] [n] _ _ Hl1) by done. rewrite Hadd. cbn.
    rewrite lookup_app_r by done. subst n. by rewrite Nat.sub_diag. }
  split_and!; [done..| |done].
  change [i; n; 0] with ([i; n] ++ [0]). by rewrite (lookup_addr_app [i; n] [0] _ _ Hl2).
Qed.

(** The call, and what can be done with the new branch *)
Lemma dataset_created b dsName i alog profileID k :
  publisher_ok → wf_journal (b_store b) → cipher (b_pk b) = Ok k →
  dsName ≠ "" → IsValidName dsName = true →
  Journal_HeadRef [b_authorName b] (b_store b) = Ok [i] →
  Journal_HeadRef [b_authorName b; dsName] (b_store b) = Error ErrNotFound →
  Journal_Get (b_authorID b) (b_store b) = Ok [i] → deref [i] (b_store b) = Ok alog →
  UserLog_ProfileID alog = Ok profileID →
  absent (Hash (datasetInitOp b dsName)) (j_logs (b_store b)) →
  ∃ id b' a br, WriteDatasetInit dsName b = (Ok id, b') ∧
    RefToInitID (mkRef "" (b_authorName b) "" dsName "") b' = (Ok id, b') ∧
    branchLog id b' = (Ok a, b') ∧ owned a b' ∧
    deref a (b_store b') = Ok br ∧ lg_Ops br = [branchInitOp b] ∧ latestSavePath br = "" ∧
    wf_journal (b_store b') ∧ b_pk b' = b_pk b ∧ length a = 3 ∧
    b_publisher b' = (Publish ETDatasetNameInit
      (mkDsChange id 0 profileID (b_authorName b) dsName "" None "") (b_publisher b)).2.
Proof.
  intros Hpub Hwf Hk Hne Hv Hu Hno Hget Hlg Hpid Habs.
  pose proof (WriteDatasetInit_run b dsName [i] alog profileID Hpub Hne Hv Hno Hget Hlg Hpid) as Hrun.
  cbv zeta in Hrun. set (dsLog := newDataset b dsName) in *.
  set (b2 := set_publisher _ _) in Hrun.
  assert (ID dsLog = Hash (datasetInitOp b dsName)) as Hid by done.
  pose proof Hlg as Hi. rewrite deref_Ok in Hi. cbn in Hi.
  destruct (j_logs (b_store b) !! i) as [l|] eqn:Hl; [|done]. injection Hi as ->.
  destruct (dataset_added b dsName i alog Hl Habs) as (Hadd & Hl2 & Hl3 & Hchabs).
  fold dsLog in Hadd, Hl2, Hl3. set (x := set_parent TreeParent (set_ParentID (ID alog) dsLog)) in *.
  assert (wf_log alog) as Halog by (by eapply wf_deref).
  assert (wf_journal (b_store b2)) as Hwf2.
  { apply wf_store_at; [done|]. apply wf_AddChild; [|done].
    apply wf_AddChild; (constructor; [discriminate|constructor]). }
  pose proof (save_run b2 k Hwf2 Hk) as Hsave. destruct (save_kept b2) as [Hs (Hauth & _)].
  set (b3 := (save b2).2) in *.
  assert (j_logs (b_store b3) = alter_addr (λ _, AddChild dsLog alog) [i] (j_logs (b_store b))) as Hst.
  { by rewrite Hs. }
  rewrite <- Hst in Hl2, Hl3. set (n := length (lg_Logs alog)) in *.
  exists (ID dsLog), b3, [i; n; 0], (set_parent TreeParent (set_ParentID (ID dsLog) (InitLog (branchInitOp b)))).
  split_and!.
  - rewrite Hrun. by rewrite (bind_run _ _ _ _ _ Hsave).
  - unfold RefToInitID, Journal_HeadRef. cbn [ref_Username ref_Name]. rewrite Hst.
    assert (Name x = Ok dsName ∧ Removed x = Ok false) as [Hx Hxr].
    { split; [|done]. change (Name x) with
        (Ok (last_field op_Name DatasetModel ([] ++ [datasetInitOp b dsName]) "")).
      by rewrite last_field_same_model. }
    rewrite (headref_addr_graft _ _ _ _ alog _ x); try (done || by rewrite Hadd).
    fold n. unfold deref. by rewrite Hl2.
  - apply branchLog_Ok. split; [done|]. exists [i; n], x. split_and!; [done| |by apply deref_Ok|done].
    unfold Journal_Get. rewrite Hst, (find_addr_graft _ _ _ alog _ x); try done.
    + cbn. by rewrite Hl.
    + by rewrite Hadd.
    + by rewrite Hadd.
  - eexists _, _, _. split_and!; [by apply deref_Ok|done|]. cbn. by rewrite Hauth.
  - by apply deref_Ok.
  - done.
  - done.
  - by rewrite Hs.
  - destruct (save_kept b2) as (_ & _ & Hpk & _). exact Hpk.
  - done.
  - unfold b3. by rewrite save_publisher.
Qed.

(** C20: creating a dataset. When the author's log is found under the author's
    identifier and name, the name is valid and not in use, and the new
    identifier is not in the store, the call succeeds; afterwards the name
    leads to the new identifier, the identifier to the branch of the dataset,
    the branch has its first operation only and belongs to the book's author,
    and the event carries the identifier and the name. *)
Theorem WriteDatasetInit_creates b dsName i alog profileID k :
  publisher_ok → wf_journal (b_store b) → cipher (b_pk b) = Ok k →
  dsName ≠ "" → IsValidName dsName = true →
  Journal_HeadRef [b_authorName b] (b_store b) = Ok [i] →
  Journal_HeadRef [b_authorName b; dsName] (b_store b) = Error ErrNotFound →
  Journal_Get (b_authorID b) (b_store b) = Ok [i] → deref [i] (b_store b) = Ok alog →
  UserLog_ProfileID alog = Ok profileID →
  absent (Hash (datasetInitOp b dsName)) (j_logs (b_store b)) →
  ∃ id b' a br, WriteDatasetInit dsName b = (Ok id, b') ∧
    RefToInitID (mkRef "" (b_authorName b) "" dsName "") b' = (Ok id, b') ∧
    branchLog id b' = (Ok a, b') ∧ owned a b' ∧
    deref a (b_store b') = Ok br ∧ lg_Ops br = [branchInitOp b] ∧ latestSavePath br = "" ∧
    b_publisher b' = (Publish ETDatasetNameInit
      (mkDsChange id 0 profileID (b_authorName b) dsName "" None "") (b_publisher b)).2.
Proof.
  intros Hpub Hwf Hk Hne Hv Hu Hno Hget Hlg Hpid Habs.
  destruct (dataset_created b dsName i alog profileID k) as (id & b' & a & br & Hrest); [done..|].
  exists id, b', a, br. naive_solver.
Qed.
End spec.

Import Demo.

Lemma WriteDatasetInit_creates_witness :
  ∃ id b', WriteDatasetInit "cities" new_book = (Ok id, b') ∧
    RefToInitID (mkRef "" "alice" "" "cities" "") b' = (Ok id, b').
Proof.
  destruct (WriteDatasetInit_creates new_book "cities" 0
    (default (InitLog zero_Op) (j_logs (b_store new_book) !! 0)) "QmAlice" "k")
    as (id & b' & a & br & Hrun & Href & _).
  - intros typ payload p. discriminate.
  - repeat first [constructor | discriminate].
  - reflexivity.
  - discriminate.
  - reflexivity.
  - vm_compute. reflexivity.
  - vm_compute. reflexivity.
  - vm_compute. reflexivity.
  - vm_compute. reflexivity.
  - reflexivity.
  - intros [|[|j] [|j' y]] x Hx; try discriminate.
    injection Hx as <-. vm_compute. discriminate.
  - exists id, b'. split; [exact Hrun|exact Href].
Defined.

(** * Storage

    What saving a book and opening it again keeps, and what a failing write
    loses. *)
(** A filesystem reads back what it stored. *)
Class FilesystemLaws (F : Type) `{Filesystem F} : Prop :=
  fs_Get_Put : ∀ (fs : F) loc data loc' fs',
    fs_Put fs loc data = ((loc', None), fs') → fs_Get fs' loc' = Ok data.

Section spec.
Context `{OpDigest, BookCipher, Entropy} {F P : Type} `{!Filesystem F, !Publisher P}.
Context `{!BookCipherLaws _}.
Implicit Types b : @Book _ F P.

(** What a process that opens the book again starts from *)
Definition reopens b b0 : Prop :=
  b_pk b0 = b_pk b ∧ b_fs b0 = b_fs b ∧ b_fsLocation b0 = b_fsLocation b.

(** C21: a book survives a restart. When the filesystem stores what [save]
    puts, opening a journal at that location with the same key succeeds and
    yields a book in which every identifier and every name leads to the same
    log, with the same operations, and that belongs to the author the store
    was saved for. *)
Theorem reopen_saved `{!FilesystemLaws F} b b0 k keyID :
  wf_journal (b_store b) → Forall (Log_Forall caches_ok) (j_logs (b_store b)) →
  cipher (b_pk b) = Ok k → String.length (rand_nonce (b_tick b)) = gcm_NonceSize →
  (∀ data, (fs_Put (b_fs b) (b_fsLocation b) data).1.2 = None) →
  reopens (save b).2 b0 → b_fsLocation b0 ≠ "" →
  ∃ b', NewJournal keyID b0 = (Ok tt, b') ∧ b_authorID b' = j_id (b_store b) ∧
    (∀ id, Journal_Get id (b_store b') = Journal_Get id (b_store b)) ∧
    (∀ names, Journal_HeadRef names (b_store b') = Journal_HeadRef names (b_store b)) ∧
    (∀ x, ops_at x (b_store b') = ops_at x (b_store b)).
Proof.
  intros Hwf Hc Hk Hnonce Hput (Hpk & Hfs & Hloc) Hne.
  destruct (FlatbufferCipher_Ok (rand_nonce (b_tick b)) _ _ _ Hwf Hk) as [ct Hct].
  unfold save in Hpk, Hfs, Hloc. rewrite Hct in Hpk, Hfs, Hloc.
  specialize (Hput ct). destruct (fs_Put _ _ ct) as [[loc err] fs'] eqn:Hp. cbn in *. subst err.
  exists (set_authorID (j_id (reload_journal (b_store b))) (set_store (reload_journal (b_store b)) b0)).
  split_and!.
  - unfold NewJournal, load. rewrite decide_False by done. rewrite Hfs, Hloc, (fs_Get_Put _ _ _ _ _ Hp), Hpk.
    by rewrite (load_saved _ _ _ _ Hnonce Hwf Hct).
  - done.
  - intros id. apply Get_reload.
  - intros names. by apply HeadRef_reload.
  - intros x. apply ops_at_reload.
Qed.

(** A failed write is not reported. When the filesystem refuses the data,
    [save] answers success all the same; the book then looks for its data at
    the location that came with the error, and a restart finds no logbook. *)
Theorem save_drops_write_failure b ct loc err missing fs' :
  FlatbufferCipher (rand_nonce (b_tick b)) (b_pk b) (b_store b) = Ok ct →
  fs_Put (b_fs b) (b_fsLocation b) ct = ((loc, Some err), fs') →
  fs_Get fs' loc = Error missing → is_not_found missing = true →
  ∃ b', save b = (Ok tt, b') ∧ b_fsLocation b' = loc ∧ load b' = (Error ErrLogbookNotFound, b').
Proof.
  intros Hct Hput Hget Hmissing. exists (tick (set_fs loc fs' b)). unfold save, load. cbn.
  by rewrite Hct, Hput, Hget, Hmissing.
Qed.
End spec.

Import Demo.

#[export] Instance demo_fs_laws : FilesystemLaws (gmap string string).
Proof.
  intros fs loc data loc' fs'. cbn. intros [= <- <-]. unfold of_option. by rewrite lookup_insert_eq.
Qed.

(** A book on a filesystem that keeps its data *)
Definition kept_book : Book (F := gmap string string) (P := events) :=
  mkBook (b_store saved) "k" (b_authorID saved) "alice" "loc" ∅ [] 5.
Definition reopened : Book (F := gmap string string) (P := events) :=
  mkBook (mkJournal "" []) "k" "" "alice" "loc" (b_fs (save kept_book).2) [] 0.

Lemma reopen_saved_witness :
  ∃ b', NewJournal (Ok "QmAlice") reopened = (Ok tt, b') ∧
    Journal_HeadRef ["alice"; "cities"] (b_store b') = Ok [0; 0].
Proof.
  destruct (reopen_saved kept_book reopened "k" (Ok "QmAlice")) as (b' & Hrun & _ & _ & Hhead & _).
  - repeat first [constructor | discriminate].
  - repeat constructor.
  - reflexivity.
  - reflexivity.
  - intros data. reflexivity.
  - split; [reflexivity|]. split; [reflexivity|].
    unfold save. destruct (FlatbufferCipher _ _ _); reflexivity.
  - discriminate.
  - exists b'. split; [exact Hrun|]. exact (Hhead ["alice"; "cities"]).
Defined.

Definition full_disk : Book (F := broken) (P := events) :=
  mkBook (b_store saved) "k" (b_authorID saved) "alice" "loc" Broken [] 5.

Lemma save_drops_write_failure_witness :
  ∃ b', save full_disk = (Ok tt, b') ∧ b_fsLocation b' = "" ∧
        load b' = (Error ErrLogbookNotFound, b').
Proof.
  destruct (FlatbufferCipher_Ok (rand_nonce (b_tick full_disk)) (b_pk full_disk)
    (b_store full_disk) "k") as [ct Hct].
  - repeat first [constructor | discriminate].
  - reflexivity.
  - apply (save_drops_write_failure full_disk ct ""
             (Errorf "no space left on device" []) (ErrSentinel "not found") Broken);
      [exact Hct|reflexivity..].
Defined.
