(* ===== verification/LogbookSession.v ===== *)
(** * The logbook's properties: sessions on a branch

    The contract of a branch as its users see it: a stack of versions that can
    be saved onto, have its top amended, and have versions deleted off. The
    logbook, which only ever appends operations, implements it. *)
From S2P Require Import LogbookEdits HistoryFacts Instances.

(** ** The abstract branch *)

(** What is listed of a version *)
Record Version : Type := mkVersion {
  v_Path : string;
  v_Time : Z;
  v_Size : Z;
  v_Title : string;
}.

Inductive command : Type :=
| Save (ds : Dataset)
| Amend (ds : Dataset)
| Delete (revisions : Z).

(** [None] when the command makes no sense for the stack *)
Definition spec_step (vs : list Version) (c : command) : option (list Version) :=
  match c with
  | Save ds =>
      cm ← ds_Commit ds;
      Some (vs ++ [mkVersion (ds_Path ds) (cm_Timestamp cm)
                     (from_option st_Length 0%Z (ds_Structure ds)) (cm_Title cm)])
  | Amend ds =>
      cm ← ds_Commit ds;
      match vs with
      | [] => None
      | _ => Some (removelast vs ++ [mkVersion (ds_Path ds) (cm_Timestamp cm) 0 (cm_Title cm)])
      end
  | Delete k =>
      if decide (0 ≤ k ≤ Z.of_nat (length vs))%Z
      then Some (take (length vs - Z.to_nat k) vs) else None
  end.

Fixpoint spec_run (vs : list Version) (cs : list command) : option (list Version) :=
  match cs with
  | [] => Some vs
  | c :: cs' => vs' ← spec_step vs c; spec_run vs' cs'
  end.

(** How a version is listed for a reference *)
Definition listed (ref : Ref) (v : Version) : VersionInfo :=
  mkVersionInfo "" (ref_Username ref) (ref_ProfileID ref) (ref_Name ref) (v_Path v)
    false false "" "" (v_Size v) 0 "" 0 (v_Time v) (v_Title v) "" 0 "" "" "" 0.

(** ** Operations represent versions *)
Definition version_of (op : Op) : Version :=
  mkVersion (op_Ref op) (op_Timestamp op) (op_Size op) (op_Note op).

Definition represents (ops : list Op) (vs : list Version) : Prop :=
  Forall plain_op ops ∧ ∃ live_ops, live [] ops = Some live_ops ∧ map version_of live_ops = vs.

(** The operation a command records *)
Definition command_op (c : command) : option Op :=
  match c with
  | Save ds => match versionSaveOp ds with Ok op => Some op | _ => None end
  | Amend ds => head (amendOp ds)
  | Delete k => Some (deleteOp k)
  end.

Lemma command_represented ops vs c vs' :
  represents ops vs → spec_step vs c = Some vs' →
  ∃ op, command_op c = Some op ∧ represents (ops ++ [op]) vs'.
Proof.
  intros (Hp & lv & Hl & <-) Hs.
  assert (∀ op lv', plain_op op → live_step lv op = Some lv' → map version_of lv' = vs' →
    represents (ops ++ [op]) vs') as Hrep.
  { intros op lv' Hop Hls Hv. split; [by apply Forall_app_2; [|constructor]|].
    exists lv'. rewrite live_app, Hl. cbn [mbind option_bind live]. by rewrite Hls. }
  destruct c as [ds|ds|k]; cbn in Hs |- *; unfold versionSaveOp, amendOp.
  - destruct (ds_Commit ds) as [cm|]; [|done]. cbn in Hs. injection Hs as <-. eexists. split; [done|].
    eapply Hrep; [right; cbn; tauto|unfold live_step; cbn [op_Model op_Type]; decide_const; done|].
    by rewrite map_app.
  - destruct (ds_Commit ds) as [cm|]; [|done]. cbn in Hs. destruct lv as [|v lv]; [done|].
    eexists. split; [done|].
    eapply Hrep; [right; cbn; tauto|unfold live_step; cbn [op_Model op_Type]; decide_const; done|].
    rewrite map_app, <- (removelast_map version_of (v :: lv)). by injection Hs as <-.
  - rewrite length_map in Hs. case_decide as Hk; [|done]. injection Hs as <-. eexists. split; [done|].
    eapply Hrep; [right; cbn; tauto| |symmetry; apply firstn_map].
    unfold live_step. cbn [deleteOp op_Model op_Type op_Size]. decide_const. by rewrite decide_True.
Qed.

(** Without collapsing, the listing keeps at least the versions left, so that
    an amend always finds one. *)
Lemma history_run_pending ref ops lv n0 vs0 vs :
  Forall plain_op ops → live vs0 ops = Some vs → length vs0 ≤ length lv →
  ∃ lv' n, history_run ref false (map (versionInfoFromOp ref) lv, n0) ops =
             Ok (map (versionInfoFromOp ref) lv', n).
Proof.
  intros Hops. revert lv n0 vs0. induction Hops as [|op ops Hop Hops IH]; intros lv n0 vs0; cbn [live history_run].
  { eauto. }
  destruct (live_step vs0 op) as [vs1|] eqn:Hs; [|done]. intros Hl Hlen.
  assert (∃ lv1 n1, history_step ref false (map (versionInfoFromOp ref) lv, n0) op =
    Ok (map (versionInfoFromOp ref) lv1, n1) ∧ length vs1 ≤ length lv1) as (lv1 & n1 & -> & Hlen1).
  { destruct Hop as [Hm|(Hm & [Ht|[Ht|Ht]])].
    - exists lv, n0. unfold live_step in Hs. unfold history_step. rewrite Hm in *. decide_const.
      decide_const_in Hs. by injection Hs as <-.
    - exists (lv ++ [op]), n0. rewrite history_save by done. split; [done|].
      unfold live_step in Hs. rewrite Hm, Ht in Hs. decide_const_in Hs. injection Hs as <-.
      rewrite !length_app. lia.
    - unfold live_step in Hs. rewrite Hm, Ht in Hs. decide_const_in Hs.
      destruct vs0 as [|v vs0]; [done|]. apply (inj Some) in Hs as <-.
      destruct lv as [|w lv _] using rev_ind; [cbn in Hlen; lia|].
      exists (lv ++ [op]), 0%Z. split.
      + unfold history_step. rewrite Hm, Ht. decide_const.
        rewrite map_app. cbn. rewrite removelast_last.
        rewrite map_app. by destruct (map (versionInfoFromOp ref) lv).
      + rewrite removelast_firstn_len, !length_app, length_take. rewrite length_app in Hlen. cbn in *. lia.
    - exists lv, (n0 + op_Size op)%Z. unfold live_step in Hs. unfold history_step. rewrite Hm, Ht in *.
      decide_const. decide_const_in Hs. case_decide; [|done]. injection Hs as <-.
      split; [done|]. rewrite length_take. lia. }
  cbn [mbind outcome_bind]. by apply IH with vs1.
Qed.

Lemma pending_listed ref blog ops vs k :
  lg_Ops blog = ops ++ [deleteOp k] → represents ops vs →
  ∃ items, branchToVersionInfos blog ref 0 (-1) false = Ok items.
Proof.
  intros Hops (Hp & lv & Hl & _). unfold branchToVersionInfos. rewrite Hops, history_run_app.
  destruct (history_run_pending ref ops [] 0 [] lv Hp Hl) as (lv' & n & Hrun); [done|].
  cbn [map] in Hrun. rewrite Hrun. cbn [mbind outcome_bind history_run].
  rewrite history_step_delete. cbn [mbind outcome_bind]. rewrite history_page_eq by lia. eauto.
Qed.

(** Listing more deletes than versions slices below zero. *)
Lemma overdelete_listed ref blog ops vs k offset limit :
  lg_Ops blog = ops ++ [deleteOp k] → represents ops vs → (Z.of_nat (length vs) < k)%Z →
  branchToVersionInfos blog ref offset limit true = Panic.
Proof.
  intros Hops (Hp & lv & Hl & <-) Hk. rewrite length_map in Hk.
  unfold branchToVersionInfos. rewrite Hops, history_run_app, (history_run_live0 ref ops lv Hp Hl).
  cbn [mbind outcome_bind history_run]. unfold history_step.
  cbn [deleteOp op_Model op_Type op_Size]. decide_const. unfold slice_to.
  by rewrite decide_False by (rewrite length_map; lia).
Qed.

Section session.
Context `{OpDigest, BookCipher, Entropy} {F P : Type} `{!Filesystem F, !Publisher P}.
Implicit Types b : @Book _ F P.

(** ** The logbook's calls *)
Definition run_command (initID : string) (c : command) : stM Book unit :=
  match c with
  | Save ds => WriteVersionSave initID ds None
  | Amend ds => WriteVersionAmend initID ds
  | Delete k => WriteVersionDelete initID k
  end.

Fixpoint run_session (initID : string) (cs : list command) : stM Book unit :=
  match cs with
  | [] => mret tt
  | c :: cs' => run_command initID c;; run_session initID cs'
  end.

(** The branch at [a] can be written and stands for the versions [vs]. *)
Record branch_at (initID : string) (a : addr) (vs : list Version) b : Prop := mkBranchAt {
  at_wf : wf_journal (b_store b);
  at_key : ∃ k, cipher (b_pk b) = Ok k;
  at_branch : branchLog initID b = (Ok a, b);
  at_owned : owned a b;
  at_represents : ∃ lg, deref a (b_store b) = Ok lg ∧ represents (lg_Ops lg) vs;
}.

Lemma branch_at_written initID a vs b op vs' b' lg :
  branch_at initID a vs b → deref a (b_store b) = Ok lg → written a [op] b b' →
  represents (lg_Ops lg ++ [op]) vs' → branch_at initID a vs' b'.
Proof.
  intros [Hwf [k Hk] Ha Ho _] Hlg Hw Hrep. split.
  - by apply (edits_wf _ _ _ _ (proj1 Hw)).
  - exists k. by destruct Hw as [_ (_ & -> & _)].
  - by eapply written_branchLog.
  - by eapply written_owned.
  - destruct (edits_deref _ _ _ _ _ (proj1 Hw) Hlg) as (lg' & Hlg' & Hops').
    exists lg'. by rewrite Hops'.
Qed.

(** After the operation is recorded, the book is saved. *)
Lemma written_saved initID a vs b op b1 :
  branch_at initID a vs b → written a [op] b b1 →
  save b1 = (Ok tt, (save b1).2) ∧ written a [op] b (save b1).2.
Proof.
  intros [Hwf [k Hk] _ _ _] Hw. split; [|eapply written_kept; [exact Hw|apply save_kept]].
  apply (save_run b1 k); [by apply (edits_wf _ _ _ _ (proj1 Hw))|by destruct Hw as [_ (_ & -> & _)]].
Qed.

Lemma delete_runs initID a vs k b :
  publisher_ok → branch_at initID a vs b →
  ∃ b', WriteVersionDelete initID k b = (Ok tt, b') ∧ written a [deleteOp k] b b'.
Proof.
  intros Hpub Hb. pose proof Hb as [_ _ Ha Ho (lg & Hlg & Hrep)].
  destruct (append_at_written a (deleteOp k) b Ho) as (b1 & Hap & Hw & _).
  destruct (edits_deref _ _ _ _ _ (proj1 Hw) Hlg) as (lg1 & Hlg1 & Hops1).
  destruct (pending_listed zero_Ref lg1 _ vs k Hops1 Hrep) as [items Hitems].
  unfold WriteVersionDelete. rewrite (bind_run _ _ _ _ _ Ha), (bind_run _ _ _ _ _ (hasWriteAccess_owned _ _ Ho)).
  rewrite (bind_run (BranchLog_Append a _) _ b tt b1) by (rewrite BranchLog_Append_eq by set_solver; done).
  rewrite (bind_run (with_store (deref a)) _ b1 lg1 b1) by (unfold with_store; by rewrite Hlg1).
  rewrite (bind_run (st_lift _) _ b1 items b1) by (unfold st_lift; by rewrite Hitems).
  set (ev := match last items with Some li => _ | None => _ end).
  assert (∃ b2, ev b1 = (Ok tt, b2) ∧ written a [deleteOp k] b b2) as (b2 & Hev & Hw2).
  { subst ev. destruct (last items); [|by exists b1].
    rewrite publish_run by done. eexists. split; [done|]. by destruct Hw. }
  rewrite (bind_run _ _ _ _ _ Hev). destruct (written_saved _ _ _ _ _ _ Hb Hw2) as [Hs Hw3].
  by exists (save b2).2.
Qed.

(** One command: it succeeds and the branch stands for what it specifies. *)
Lemma command_refines initID a vs c vs' b :
  publisher_ok → branch_at initID a vs b → spec_step vs c = Some vs' →
  ∃ b' op, run_command initID c b = (Ok tt, b') ∧ written a [op] b b' ∧ branch_at initID a vs' b'.
Proof.
  intros Hpub Hb Hs. pose proof Hb as [Hwf [k Hk] Ha Ho (lg & Hlg & Hrep)].
  destruct (command_represented _ _ _ _ Hrep Hs) as (op & Hop & Hrep').
  assert (∃ b', run_command initID c b = (Ok tt, b') ∧ written a [op] b b') as (b' & Hrun & Hw).
  2: { exists b', op. split_and!; [done..|]. by eapply branch_at_written. }
  destruct c as [ds|ds|n]; cbn in Hop |- *.
  - destruct (ds_Commit ds) as [cm|] eqn:Hcm; [|by cbn in Hs; rewrite Hcm in Hs].
    destruct (WriteVersionSave_run initID ds None cm a lg b k (λ payload, Hpub _ payload _) Hwf Hk Ha Ho Hlg Hcm)
      as (b' & lg' & op' & Hrun & Hop' & Hw & _); [done|].
    rewrite Hop' in Hop. injection Hop as <-. by exists b'.
  - unfold amendOp in Hop. destruct (ds_Commit ds) as [cm|] eqn:Hcm; [|done].
    cbn [head] in Hop. injection Hop as <-. set (op := mkOp _ _ _ _ _ _ _ _ _ _) in *.
    destruct (append_at_written a op b Ho) as (b1 & Hap & Hw & _).
    destruct (written_saved _ _ _ _ _ _ Hb Hw) as [Hsave Hw2].
    exists (save b1).2. split; [|done]. unfold WriteVersionAmend.
    rewrite (bind_run _ _ _ _ _ Ha), (bind_run _ _ _ _ _ (hasWriteAccess_owned _ _ Ho)), Hcm.
    rewrite (bind_run (BranchLog_Append a op) _ b tt b1); [done|].
    by rewrite BranchLog_Append_eq by set_solver.
  - injection Hop as <-. by eapply delete_runs.
Qed.

(** A name that leads to the dataset keeps doing so. *)
Lemma RefToInitID_written ref initID a extra b b' :
  wf_journal (b_store b) → length a = 3 → written a extra b b' →
  RefToInitID ref b = (Ok initID, b) → RefToInitID ref b' = (Ok initID, b').
Proof.
  intros Hwf Hlen Hw. unfold RefToInitID.
  assert (Journal_HeadRef [ref_Username ref; ref_Name ref] (b_store b') =
          Journal_HeadRef [ref_Username ref; ref_Name ref] (b_store b)) as ->.
  { cbn -[headref_addr]. apply (edits_HeadRef _ _ _ _ (proj1 Hw)). cbn. lia. }
  destruct (Journal_HeadRef _ (b_store b)) as [d|e|]; [|done..]. intros Hid. f_equal.
  destruct (deref d (b_store b)) as [lg|e|] eqn:Hlg; [|done..]. cbn in Hid. injection Hid as Hid.
  pose proof (wf_deref _ _ _ Hwf Hlg) as [Hi _]. unfold has_init in Hi.
  apply deref_Ok in Hlg. pose proof (edits_appended _ _ _ _ (proj1 Hw) d) as Happ.
  unfold ops_at in Happ. rewrite Hlg in Happ. cbn in Happ.
  destruct (lookup_addr d (j_logs (b_store b'))) as [lg'|] eqn:Hlg'; [|done]. cbn in Happ.
  apply deref_Ok in Hlg'. rewrite Hlg'. cbn. f_equal. rewrite <- Hid. unfold ID.
  apply (inj Some) in Happ. rewrite Happ. destruct (lg_Ops lg); [done|]. by case_decide.
Qed.

Lemma session_refines initID a vs cs vs' b ref :
  publisher_ok → branch_at initID a vs b → spec_run vs cs = Some vs' →
  length a = 3 → RefToInitID ref b = (Ok initID, b) →
  ∃ b', run_session initID cs b = (Ok tt, b') ∧ branch_at initID a vs' b' ∧
        RefToInitID ref b' = (Ok initID, b').
Proof.
  intros Hpub. revert vs b. induction cs as [|c cs IH]; intros vs b Hb; cbn [spec_run].
  { intros [= <-] Hlen Hid. by exists b. }
  destruct (spec_step vs c) as [vs1|] eqn:Hs; [|done]. intros Hrun Hlen Hid.
  destruct (command_refines _ _ _ _ _ _ Hpub Hb Hs) as (b1 & op & Hrun1 & Hw & Hb1).
  pose proof (RefToInitID_written _ _ _ _ _ _ (at_wf _ _ _ _ Hb) Hlen Hw Hid) as Hid1.
  destruct (IH vs1 b1 Hb1 Hrun Hlen Hid1) as (b' & Hrun' & Hb' & Hid').
  exists b'. split; [|done]. cbn [run_session]. by rewrite (bind_run _ _ _ _ _ Hrun1).
Qed.

(** What [Items] answers for the branch a name leads to *)
Lemma Items_run initID a lg ref offset limit b :
  RefToInitID (mkRef "" (ref_Username ref) "" (ref_Name ref) "") b = (Ok initID, b) →
  branchLog initID b = (Ok a, b) → deref a (b_store b) = Ok lg →
  Items ref offset limit b = (branchToVersionInfos lg ref offset limit true, b).
Proof.
  intros Hid Ha Hlg. unfold Items. rewrite (bind_run _ _ _ _ _ Hid), (bind_run _ _ _ _ _ Ha).
  by rewrite (bind_run (with_store (deref a)) _ b lg b) by (unfold with_store; by rewrite Hlg).
Qed.

(** What [Items] lists of a branch that stands for some versions *)
Lemma Items_listed initID a vs ref offset limit b : branch_at initID a vs b →
  RefToInitID (mkRef "" (ref_Username ref) "" (ref_Name ref) "") b = (Ok initID, b) → (0 ≤ offset)%Z → (-1 ≤ limit)%Z →
  Items ref offset limit b = (Ok (page offset limit (reverse (map (listed ref) vs))), b).
Proof.
  intros [_ _ Ha _ (lg & Hlg & Hp & lv & Hlv & <-)] Hid Ho Hl.
  rewrite (Items_run _ _ _ _ _ _ _ Hid Ha Hlg). f_equal. unfold branchToVersionInfos.
  rewrite (history_run_live0 ref _ lv Hp Hlv). cbn [mbind outcome_bind].
  rewrite history_page_eq by done. do 3 f_equal. unfold kept_versions. cbn. by rewrite map_map.
Qed.

(** C1: a branch is a stack of versions. From a branch that can be written and
    stands for some versions, any commands that make sense for them (saving,
    amending the newest, deleting some of the newest) succeed; the history
    listed afterwards, whole or a page of it, is what the stack specifies,
    newest first. *)
Theorem session_history initID a vs cs vs' ref offset limit b :
  publisher_ok → branch_at initID a vs b → spec_run vs cs = Some vs' →
  length a = 3 → RefToInitID (mkRef "" (ref_Username ref) "" (ref_Name ref) "") b = (Ok initID, b) →
  (0 ≤ offset)%Z → (-1 ≤ limit)%Z →
  ∃ b', run_session initID cs b = (Ok tt, b') ∧
        Items ref offset limit b' = (Ok (page offset limit (reverse (map (listed ref) vs'))), b').
Proof.
  intros Hpub Hb Hrun Hlen Hid Ho Hl.
  destruct (session_refines _ _ _ _ _ _ _ Hpub Hb Hrun Hlen Hid) as (b' & Hrun' & Hb' & Hid').
  exists b'. split; [done|]. by apply (Items_listed initID a vs').
Qed.

(** Deleting too much is accepted and makes the history unreadable. When
    more versions are deleted than a branch has, the delete is recorded and
    reported as a success, and from then on listing the history panics. *)
Theorem overdelete_unreadable initID a vs k ref offset limit b :
  publisher_ok → branch_at initID a vs b → (Z.of_nat (length vs) < k)%Z →
  length a = 3 → RefToInitID (mkRef "" (ref_Username ref) "" (ref_Name ref) "") b = (Ok initID, b) →
  ∃ b', WriteVersionDelete initID k b = (Ok tt, b') ∧ Items ref offset limit b' = (Panic, b').
Proof.
  intros Hpub Hb Hk Hlen Hid. destruct (delete_runs _ _ _ k _ Hpub Hb) as (b' & Hrun & Hw).
  exists b'. split; [done|]. destruct Hb as [Hwf _ Ha _ (lg & Hlg & Hrep)].
  destruct (edits_deref _ _ _ _ _ (proj1 Hw) Hlg) as (lg' & Hlg' & Hops').
  rewrite (Items_run initID a lg').
  - f_equal. by eapply overdelete_listed.
  - by eapply RefToInitID_written.
  - by eapply written_branchLog.
  - done.
Qed.
End session.

Import Demo.

(** ** The theorems at work *)
Lemma owned_saved : owned [0; 0; 0] saved.
Proof. unfold owned. eexists _, _, _. split_and!; vm_compute; reflexivity. Qed.

Definition saved_version : Version := mkVersion "/ipfs/Qm1" 10 0 "edit".

Lemma saved_branch_at : branch_at cities_id [0; 0; 0] [saved_version] saved.
Proof.
  split.
  - repeat first [constructor | discriminate].
  - by exists "k".
  - vm_compute. reflexivity.
  - exact owned_saved.
  - eexists. split; [vm_compute; reflexivity|]. split; [|by eexists].
    repeat (apply List.Forall_cons; [first [by left | right; cbv; tauto]|]); apply List.Forall_nil.
Qed.

Definition demo_session : list command :=
  [Save (version "/ipfs/Qm2" "/ipfs/Qm1" 20); Save (version "/ipfs/Qm3" "/ipfs/Qm2" 30);
   Delete 1; Amend (version "/ipfs/Qm4" "/ipfs/Qm1" 40)].
Definition demo_ref : Ref := mkRef "" "alice" "" "cities" "".

Lemma session_history_witness :
  ∃ b', run_session cities_id demo_session saved = (Ok tt, b') ∧
    map vi_Path <$> (Items demo_ref 0 (-1) b').1 = Ok ["/ipfs/Qm4"; "/ipfs/Qm1"].
Proof.
  destruct (session_history cities_id [0; 0; 0] [saved_version] demo_session
    [saved_version; mkVersion "/ipfs/Qm4" 40 0 "edit"] demo_ref 0 (-1) saved) as (b' & Hrun & Hitems).
  - intros typ payload p. discriminate.
  - exact saved_branch_at.
  - reflexivity.
  - reflexivity.
  - vm_compute. reflexivity.
  - lia.
  - lia.
  - exists b'. split; [exact Hrun|]. rewrite Hitems. reflexivity.
Defined.

Lemma overdelete_unreadable_witness :
  ∃ b', WriteVersionDelete cities_id 2 saved = (Ok tt, b') ∧ (Items demo_ref 0 (-1) b').1 = Panic.
Proof.
  destruct (overdelete_unreadable cities_id [0; 0; 0] [saved_version] 2 demo_ref 0 (-1) saved)
    as (b' & Hrun & Hitems).
  - intros typ payload p. discriminate.
  - exact saved_branch_at.
  - cbn. lia.
  - reflexivity.
  - vm_compute. reflexivity.
  - exists b'. split; [exact Hrun|]. rewrite Hitems. reflexivity.
Defined.
