(* ===== verification/TransformRunSpec.v ===== *)
(** * The properties of transform runs

    A transcript describes the run of a transform; [described] is the state
    that summarises it, and the theorem is that the handler which follows the
    run on the bus arrives at that state. *)
From S2P Require Import LogbookEdits Bus TransformRun.

(** ** Transcripts *)

(** What a script puts out: lines it prints, errors and previews. *)
Inductive out_kind : Type := Printed | Reported | Previewed.
Definition out_type (k : out_kind) : string :=
  match k with
  | Printed => ETTransformPrint
  | Reported => ETTransformError
  | Previewed => ETTransformDatasetPreview
  end.

Record out_doc : Type := OutDoc { o_kind : out_kind; o_time : Z; o_payload : payload }.

(** A step was skipped, or it started at a time and perhaps ended, with the
    payload its last event carried. *)
Inductive step_doc : Type :=
| Skipped (name category status : string) (time : Z) (outs : list out_doc)
| Executed (name category status : string) (start : Z) (outs : list out_doc)
    (ended : option (Z * payload)).

Record run_doc : Type := RunDoc {
  r_start : Z; r_intro : payload; r_steps : list step_doc; r_end : option (Z * payload) }.

(** ** The events of a transcript *)
Section events.
Variable id : string.

Definition out_event (o : out_doc) : TransformEvent :=
  mkEvent (out_type (o_kind o)) (o_time o) id (o_payload o).

Definition end_event (typ : string) (ended : option (Z * payload)) : list TransformEvent :=
  match ended with Some (t, p) => [mkEvent typ t id p] | None => [] end.

Definition step_events (d : step_doc) : list TransformEvent :=
  match d with
  | Skipped name category status t outs =>
      mkEvent ETTransformStepSkip t id (TransformStepLifecycle name category status) :: map out_event outs
  | Executed name category status t outs ended =>
      mkEvent ETTransformStepStart t id (TransformStepLifecycle name category status) ::
      map out_event outs ++ end_event ETTransformStepStop ended
  end.

Definition run_events (d : run_doc) : list TransformEvent :=
  mkEvent ETTransformStart (r_start d) id (r_intro d) ::
  flat_map step_events (r_steps d) ++ end_event ETTransformStop (r_end d).

(** ** The state a transcript describes *)
Definition described_step (d : step_doc) : StepState :=
  match d with
  | Skipped name category _ _ outs =>
      mkStepState name category RSSkipped None None 0 (map out_event outs)
  | Executed name category _ t outs None =>
      mkStepState name category RSRunning (Some t) None 0 (map out_event outs)
  | Executed name category _ t outs (Some (u, p)) =>
      mkStepState name category
        (match p with TransformStepLifecycle _ _ status => status | _ => RSFailed end)
        (Some t) (Some u) (time_Sub u t) (map out_event outs)
  end.

Definition described (d : run_doc) : RunOf :=
  let t := r_start d in
  let steps := map described_step (r_steps d) in
  match r_end d with
  | None => mkState id 0 RSRunning "" (Some t) None 0 steps
  | Some (u, p) =>
      mkState id 0 (match p with TransformLifecycle _ status => status | _ => RSRunning end) ""
        (Some t) (Some u) (time_Sub u t) steps
  end.
End events.

(** The text a list of outputs shows: one line for each message printed. *)
Definition line_of (o : out_doc) : string :=
  match o with
  | OutDoc Printed _ (TransformMessage _ msg) => msg ++ newline
  | _ => ""
  end.
Definition shown (outs : list out_doc) : string := foldr (λ o s, line_of o ++ s)%string "" outs.

Definition outputs (d : step_doc) : list out_doc :=
  match d with Skipped _ _ _ _ outs | Executed _ _ _ _ outs _ => outs end.

(** Publishing events to a bus, one after the other *)
Fixpoint publish_all {W} (b : bus payload W) (es : list TransformEvent) : stM W unit :=
  match es with
  | [] => mret tt
  | e :: es' =>
      bus_publish (ev_Timestamp e) (ev_Type e) (ev_SessionID e) (ev_Payload e) b;; publish_all b es'
  end.

(** ** The handler of one event after the other *)
Definition follow (es : list TransformEvent) (w : RunOf * string) : RunOf * string :=
  foldl (λ w e, (save_handler true e w).2) w es.

Lemma follow_cons e es w : follow (e :: es) w = follow es (save_handler true e w).2.
Proof. done. Qed.

Lemma follow_app es es' w : follow (es ++ es') w = follow es' (follow es w).
Proof. apply foldl_app. Qed.

Lemma update_lastStep_snoc f rs steps s :
  update_lastStep f (set_Steps (steps ++ [s]) rs) = Ok (set_Steps (steps ++ [f s]) rs).
Proof. unfold update_lastStep. cbn. by rewrite last_snoc, removelast_last. Qed.

Lemma AddTransformEvent_id e rs rs' : AddTransformEvent e rs = Ok rs' → run_ID rs' = run_ID rs.
Proof.
  unfold AddTransformEvent, on_step_start, on_step_stop, on_step_skip, appendStepOutputLog,
    update_lastStep, NewStepStateFromEvent.
  repeat (case_decide || case_match); intros [= <-] || done; done.
Qed.

Definition with_outputs (es : list TransformEvent) (s : StepState) : StepState :=
  mkStepState (ss_Name s) (ss_Category s) (ss_Status s) (ss_StartTime s) (ss_StopTime s)
    (ss_Duration s) (ss_Output s ++ es).

Lemma shown_app outs outs' : shown (outs ++ outs') = (shown outs ++ shown outs')%string.
Proof. unfold shown. induction outs as [|o outs IH]; [done|]. cbn. by rewrite IH, string_app_assoc. Qed.

Section follow.
Variable id : string.

(** Events of the run's own session *)
Ltac own := rewrite (decide_False (P := _ ≠ _)) by (intros Hne; apply Hne; done || congruence); decide_const.

Lemma save_handler_output rs steps s out o :
  run_ID rs = id →
  (save_handler true (out_event id o) (set_Steps (steps ++ [s]) rs, out)).2 =
    (set_Steps (steps ++ [with_outputs [out_event id o] s]) rs, (out ++ line_of o)%string).
Proof.
  intros Hid. destruct o as [k t p]. unfold save_handler, AddTransformEvent, appendStepOutputLog.
  cbn [ev_SessionID ev_Type ev_Payload out_event o_kind o_payload set_Steps run_ID fst snd].
  f_equal.
  - destruct k; cbn [out_type]; own; rewrite decide_True by tauto;
      by rewrite (update_lastStep_snoc _ rs).
  - destruct k; cbn [out_type]; decide_const; destruct p; cbn; rewrite ?string_app_nil_r; done.
Qed.

Lemma follow_outputs rs steps s out outs :
  run_ID rs = id →
  follow (map (out_event id) outs) (set_Steps (steps ++ [s]) rs, out) =
    (set_Steps (steps ++ [with_outputs (map (out_event id) outs) s]) rs, (out ++ shown outs)%string).
Proof.
  intros Hid. revert s out. induction outs as [|o outs IH]; intros s out; cbn [follow foldl map shown foldr].
  - rewrite string_app_nil_r. destruct s. unfold with_outputs. cbn. by rewrite app_nil_r.
  - rewrite save_handler_output by done. unfold follow in IH. rewrite IH.
    rewrite string_app_assoc. unfold with_outputs. cbn. by rewrite <- app_assoc.
Qed.

Lemma follow_step rs out d :
  run_ID rs = id →
  follow (step_events id d) (rs, out) =
    (set_Steps (run_Steps rs ++ [described_step id d]) rs, (out ++ shown (outputs d))%string).
Proof.
  intros Hid.
  assert (∀ typ t p s, typ ≠ ETTransformPrint →
    AddTransformEvent (mkEvent typ t id p) rs = Ok (set_Steps (run_Steps rs ++ [s]) rs) →
    (save_handler true (mkEvent typ t id p) (rs, out)).2 =
      (set_Steps (run_Steps rs ++ [s]) rs, out)) as Hhead.
  { intros typ t p s Ht Hadd. unfold save_handler. cbn [snd ev_Type]. rewrite Hadd.
    by rewrite decide_False by done. }
  destruct d as [name category status t outs|name category status t outs ended]; cbn [step_events]; rewrite follow_cons.
  - erewrite Hhead; [|done|unfold AddTransformEvent; cbn [ev_SessionID ev_Type]; own; reflexivity].
    by rewrite follow_outputs.
  - erewrite Hhead; [|done|unfold AddTransformEvent; cbn [ev_SessionID ev_Type]; own; reflexivity].
    rewrite follow_app, follow_outputs by done.
    destruct ended as [[u p]|]; [|done]. cbn [end_event outputs]. rewrite follow_cons.
    unfold save_handler. cbn [snd ev_Type]. decide_const. f_equal.
    unfold AddTransformEvent. cbn [ev_SessionID ev_Type set_Steps run_ID]. own.
    unfold on_step_stop. by rewrite (update_lastStep_snoc _ rs).
Qed.

Lemma follow_steps rs out ds :
  run_ID rs = id →
  follow (flat_map (step_events id) ds) (rs, out) =
    (set_Steps (run_Steps rs ++ map (described_step id) ds) rs,
     (out ++ shown (flat_map outputs ds))%string).
Proof.
  revert rs out. induction ds as [|d ds IH]; intros rs out Hid; cbn [flat_map map].
  - cbn. rewrite string_app_nil_r, app_nil_r. by destruct rs.
  - rewrite follow_app, follow_step, IH by done. cbn.
    by rewrite <- app_assoc, shown_app, string_app_assoc.
Qed.

Lemma follow_run out d :
  follow (run_events id d) (NewState id, out) =
    (described id d, (out ++ shown (flat_map outputs (r_steps d)))%string).
Proof.
  destruct d as [t p ds ended]. unfold run_events. cbn [r_start r_intro r_steps r_end].
  rewrite follow_cons. unfold save_handler. unfold AddTransformEvent. cbn [snd ev_Type ev_SessionID NewState run_ID].
  own. rewrite follow_app, follow_steps by done.
  unfold described. cbn [r_start r_steps r_end]. destruct ended as [[u q]|]; [|done].
  cbn [end_event]. rewrite follow_cons. unfold save_handler. cbn [snd ev_Type]. decide_const. cbn [follow foldl]. f_equal.
  unfold AddTransformEvent. cbn [ev_SessionID ev_Type set_Steps run_ID on_start NewState]. own. by destruct q.
Qed.

(** The handler sees the events of its session, and no other. *)
Lemma publish_one e w :
  id ≠ "" →
  bus_publish (ev_Timestamp e) (ev_Type e) (ev_SessionID e) (ev_Payload e)
    (SubscribeID (save_handler true) id NewBus) w =
    (Ok tt, if decide (ev_SessionID e = id) then (save_handler true e w).2 else w).
Proof.
  intros Hid. rewrite bus_publish_receivers by done. destruct e as [typ t sid p], w as [rs out].
  cbn [ev_Timestamp ev_Type ev_SessionID ev_Payload].
  unfold receivers, SubscribeID, handlers_at, add_handler, handlers_at, NewBus.
  cbn [bus_subs bus_idSubs bus_allSubs].
  rewrite !lookup_empty. destruct (decide (sid = id)) as [->|Hne].
  - by rewrite (decide_True (P := id ≠ "")), lookup_insert_eq by done.
  - rewrite lookup_insert_ne, lookup_empty by done. by case_decide.
Qed.

Lemma publish_all_follow es w :
  id ≠ "" →
  publish_all (SubscribeID (save_handler true) id NewBus) es w =
    (Ok tt, follow (filter (λ e, ev_SessionID e = id) es) w).
Proof.
  intros Hid. revert w. induction es as [|e es IH]; intros w; [done|]. cbn [publish_all].
  unfold mbind, stM_bind. rewrite publish_one, IH, filter_cons by done. by case_decide.
Qed.
End follow.

(** C39: runs are recorded as they happened. When events are published to the
    bus, among them those of a run, in order and mixed in any way with those
    of other sessions, the handler subscribed to the run's session ends with
    the state the run's transcript describes: its times, its status, and every
    step with its name, status, duration and outputs. It has shown what the
    run printed, and no publication failed. *)
Theorem run_recorded id es d :
  id ≠ "" → filter (λ e, ev_SessionID e = id) es = run_events id d →
  publish_all (SubscribeID (save_handler true) id NewBus) es (NewState id, "") =
    (Ok tt, (described id d, shown (flat_map outputs (r_steps d)))).
Proof. intros Hid Hes. by rewrite publish_all_follow, Hes, follow_run by done. Qed.

(** ** The theorem at work: a run of three steps while another one goes on *)
Definition demo_run : run_doc :=
  (RunDoc 100 (TransformLifecycle 3 "running")
    [Executed "setup" "setup" "" 110 [OutDoc Printed 112 (TransformMessage "info" "hi")]
       (Some (120, TransformStepLifecycle "setup" "setup" "succeeded"));
     Skipped "download" "download" "" 121 [];
     Executed "transform" "transform" "" 130
       [OutDoc Printed 131 (TransformMessage "info" "there");
        OutDoc Reported 140 (TransformMessage "error" "no such thing")] (Some (141, OtherPayload))]
    (Some (150, TransformLifecycle 3 "failed")))%Z.

Definition demo_noise : list TransformEvent :=
  [mkEvent ETTransformPrint 111 "other" (TransformMessage "info" "not mine");
   mkEvent ETTransformStop 145 "" OtherPayload].

Lemma run_recorded_witness :
  publish_all (SubscribeID (save_handler true) "run" NewBus)
    (demo_noise ++ run_events "run" demo_run ++ demo_noise) (NewState "run", "") =
    (Ok tt, (described "run" demo_run, "hi" ++ newline ++ "there" ++ newline)%string) ∧
  map ss_Status (run_Steps (described "run" demo_run)) = ["succeeded"; "skipped"; "failed"] ∧
  run_Duration (described "run" demo_run) = 50%Z.
Proof.
  split_and!; [|vm_compute; reflexivity..].
  apply (run_recorded "run" (demo_noise ++ run_events "run" demo_run ++ demo_noise) demo_run);
    [discriminate|vm_compute; reflexivity].
Defined.

(** * The properties of the event bus *)
Section spec.
Context {Payload W : Type}.
Implicit Types (b : bus Payload W) (h : Handler Payload W).

(** Delivery. An open bus calls the subscribers of the event's type, then
    those of its session if it has one, then those of everything, each group in
    the order of subscription, up to the first that answers an error, which it
    answers; a closed bus calls nobody. *)
Theorem bus_publish_delivers now typ sid payload b w :
  bus_publish now typ sid payload b w =
    if bus_closed b then (Error ErrBusClosed, w)
    else run_handlers (receivers typ sid b) (mkEvent typ now sid payload) w.
Proof. destruct (bus_closed b) eqn:E; [|by apply bus_publish_receivers]. unfold bus_publish. by rewrite E. Qed.

(** Subscribing. A handler subscribed to types is called last among those
    of each of the types, once for every time the type is named, and its
    subscription changes no other type's receivers. *)
Theorem SubscribeTypes_receivers h types b typ sid :
  receivers typ sid (SubscribeTypes h types b) =
    handlers_at typ (bus_subs b) ++ replicate (length (filter (λ t, t = typ) types)) h ++
    drop (length (handlers_at typ (bus_subs b))) (receivers typ sid b).
Proof.
  unfold receivers, SubscribeTypes. cbn. rewrite handlers_add_all, <- app_assoc.
  by rewrite drop_app_length.
Qed.
End spec.

(** A bus is a publisher the logbook can use. When no handler of the bus
    panics, publishing to it never does, open or closed. *)
Theorem bus_publisher_ok `{Entropy} {W} (b : bus DsChange W) w typ payload :
  (∀ t hs, bus_subs b !! t = Some hs → Forall handler_ok hs) → Forall handler_ok (bus_allSubs b) →
  (Publish typ payload (b, w)).1 ≠ Panic ∧ (Publish typ payload (b, w)).2.1 = b.
Proof.
  intros Hsubs Hall. unfold Publish, bus_publisher, bus_Publish. rewrite (surjective_pairing (bus_publish _ _ _ _ _ _)).
  cbn [fst snd]. split; [|done]. destruct (bus_closed b) eqn:E.
  { unfold bus_publish. by rewrite E. }
  rewrite bus_publish_receivers by done. apply run_handlers_ok.
  unfold receivers. apply Forall_app. split; [|by apply Forall_app].
  unfold handlers_at. destruct (bus_subs b !! typ) as [hs|] eqn:Ht; cbn; [by eapply Hsubs|done].
Qed.

(** ** The theorems at work: a handler that records, and one that fails *)
Definition recorder : Handler DsChange (list string) := λ e w, (Ok tt, w ++ [ev_Type e]).
Definition refuser : Handler DsChange (list string) := λ e w, (Error (Errorf "refused" []), w).

Lemma bus_publisher_ok_witness :
  let b := SubscribeAll recorder (SubscribeTypes refuser ["dataset:Init"] NewBus) in
  (Publish (Publisher := bus_publisher (H := {| NewTimestamp _ := 0%Z; rand_nonce _ := "" |}))
     "dataset:Rename" (mkDsChange "id" 0 "" "" "n" "" None "") (b, [])).1 ≠ Panic.
Proof.
  intros b. apply bus_publisher_ok.
  - intros t hs. subst b. cbn. intros [[<- <-]|[_ Hx]]%lookup_insert_Some; [|by rewrite lookup_empty in Hx].
    apply List.Forall_cons; [|apply List.Forall_nil]. intros e w. discriminate.
  - apply List.Forall_cons; [|apply List.Forall_nil]. intros e w. discriminate.
Defined.
