(* ===== verification/RefstoreSpec.v ===== *)
(** * The properties of the reference store *)
From S2P Require Import Refstore DsrefFacts.

(** ** Putting and getting *)
Lemma Match_refl r : Match r r = true.
Proof. unfold Match. rewrite !bool_decide_eq_true_2 by done. by rewrite orb_true_r. Qed.

(** After [PutRef], the reference is the first that matches it. *)
Definition first_match (get ref : DatasetRef) (r : list DatasetRef) : Prop :=
  ∃ i, r !! i = Some ref ∧ Match ref get = true ∧
       ∀ j x, j < i → r !! j = Some x → Match x get = false.

Lemma GetRef_first_match get ref r : first_match get ref r → GetRef get r = Ok ref.
Proof.
  intros (i & Hi & Hm & Hmin). unfold GetRef.
  rewrite (proj2 (find_index_from_Some _ 0 r i ref)); [done|]. by exists i.
Qed.

Lemma unique_first_match put r :
  put ∈ r → (∀ x, x ∈ r → Match x put = true → x = put) → first_match put put r.
Proof.
  intros Hin Huniq. destruct (find_index_from (λ x, Match x put) 0 r) as [[i x]|] eqn:E.
  - apply find_index_from_Some in E as (j & -> & Hj & Hx & Hmin).
    assert (x = put) as -> by (apply Huniq; [|done]; apply list_elem_of_lookup; eauto).
    exists j. done.
  - pose proof (proj1 (find_index_from_None _ _ _) E put Hin) as Hm. cbn in Hm.
    by rewrite Match_refl in Hm.
Qed.

Lemma PutRef_cases put r r' :
  PutRef put r = Ok r' →
  (∃ i old, r !! i = Some old ∧ Match old put = true ∧ r' = <[i := put]> r ∧
            ∀ j x, j < i → r !! j = Some x → Match x put = false) ∨
  (Forall (λ x, Match x put = false) r ∧ r' = merge_sort key_le (r ++ [put])).
Proof.
  unfold PutRef. do 4 (case_decide; [done|]).
  destruct (find_index_from _ 0 r) as [[i old]|] eqn:E; intros [= <-].
  - left. apply find_index_from_Some in E as (j & -> & Hj & Hx & Hmin). eauto 10.
  - right. split; [|done]. apply Forall_forall. exact (proj1 (find_index_from_None _ _ _) E).
Qed.

Lemma PutRef_first_match put r r' : PutRef put r = Ok r' → first_match put put r'.
Proof.
  intros [(i & old & Hi & _ & -> & Hmin)|[Hnone ->]]%PutRef_cases.
  - exists i. split_and!; [|apply Match_refl|].
    + apply list_lookup_insert_eq. by eapply lookup_lt_Some.
    + intros j x Hj. rewrite list_lookup_insert_ne by lia. by apply Hmin.
  - apply unique_first_match.
    + rewrite merge_sort_Permutation. set_solver.
    + intros x. rewrite merge_sort_Permutation, elem_of_app, list_elem_of_singleton.
      rewrite Forall_forall in Hnone. intros [Hx| ->] Hm; [|done]. by rewrite Hnone in Hm.
Qed.

(** What is put is what is got. After a reference is put, getting it
    answers it, whatever matched it before; no other reference is touched
    except the one it replaces, the first that matched it. *)
Theorem PutRef_GetRef put r r' :
  PutRef put r = Ok r' →
  GetRef put r' = Ok put ∧
  ((∃ i old, r !! i = Some old ∧ Match old put = true ∧ r' = <[i := put]> r) ∨
   (Forall (λ x, Match x put = false) r ∧ r' ≡ₚ put :: r)).
Proof.
  intros Hput. split; [by eapply GetRef_first_match, PutRef_first_match|].
  apply PutRef_cases in Hput as [(i & old & Hi & Hm & -> & _)|[Hnone ->]]; [left; eauto|right].
  split; [done|]. rewrite merge_sort_Permutation. by rewrite Permutation_app_comm.
Qed.

(** ** Listing *)
Lemma references_loop_skip offset limit i refs res :
  (i + Z.of_nat (length refs) ≤ offset)%Z →
  references_loop offset limit i refs res = Ok (false, res).
Proof.
  revert i. induction refs as [|ref refs IH]; intros i Hi; cbn in *; [done|].
  rewrite decide_True by lia. apply IH. lia.
Qed.

Lemma references_loop_fill offset limit k refs done_ todo :
  (0 ≤ offset)%Z → (0 ≤ limit)%Z → length done_ = k → length (done_ ++ todo) = Z.to_nat limit →
  references_loop offset limit (offset + Z.of_nat k) refs (done_ ++ todo) =
    if decide (length todo < length refs)
    then Ok (true, done_ ++ take (length todo) refs)
    else Ok (false, done_ ++ refs ++ drop (length refs) todo).
Proof.
  intros Ho Hl. revert k done_ todo. induction refs as [|ref refs IH]; intros k dn todo Hk Hlen; cbn [references_loop].
  { rewrite decide_False by (cbn; lia). done. }
  rewrite decide_False by lia. rewrite length_app in Hlen.
  case_decide as Hlim.
  - destruct todo as [|x todo]; [|cbn in Hlen; lia]. by rewrite decide_True by (cbn; lia).
  - destruct todo as [|x todo]; [cbn in Hlen; lia|]. cbn in Hlen.
    replace (offset + Z.of_nat k - offset)%Z with (Z.of_nat k) by lia.
    unfold assign. rewrite decide_True by (rewrite length_app; cbn; lia). cbn [mbind outcome_bind].
    rewrite Nat2Z.id. replace k with (length dn + 0) at 2 by lia. rewrite insert_app_r. cbn [insert list_insert].
    replace (dn ++ ref :: todo) with ((dn ++ [ref]) ++ todo) by (by rewrite <- app_assoc).
    replace (offset + Z.of_nat k + 1)%Z with (offset + Z.of_nat (S k))%Z by lia.
    rewrite IH by (rewrite ?length_app; cbn; lia). cbn [length].
    repeat case_decide; try lia; by rewrite <- app_assoc.
Qed.

Lemma references_loop_offset offset limit i refs res :
  (i ≤ offset)%Z → (offset ≤ i + Z.of_nat (length refs))%Z →
  references_loop offset limit i refs res =
    references_loop offset limit offset (drop (Z.to_nat (offset - i)) refs) res.
Proof.
  revert i. induction refs as [|ref refs IH]; intros i Hi Hle; cbn [length] in *.
  { by rewrite drop_nil. }
  destruct (decide (i = offset)) as [->|Hne]; [by rewrite Z.sub_diag|].
  cbn [references_loop]. rewrite decide_True by lia. rewrite IH by lia.
  replace (Z.to_nat (offset - i)) with (S (Z.to_nat (offset - (i + 1)))) by lia. done.
Qed.

Lemma References_page offset limit r :
  (0 ≤ offset ≤ Z.of_nat (length r))%Z → (0 ≤ limit)%Z →
  References offset limit r = Ok (take (Z.to_nat limit) (drop (Z.to_nat offset) r)).
Proof.
  intros Ho Hl. unfold References. rewrite decide_False by lia.
  rewrite references_loop_offset by lia. rewrite Z.sub_0_r.
  set (l := drop (Z.to_nat offset) r). set (n := Z.to_nat limit).
  assert (length l = length r - Z.to_nat offset) as Hlen by apply length_drop.
  pose proof (references_loop_fill offset limit 0 l [] (replicate n zero_DatasetRef)) as Hfill.
  cbn [app length Z.of_nat] in Hfill. rewrite Z.add_0_r in Hfill. rewrite length_replicate in Hfill.
  rewrite Hfill by (done || lia). case_decide as Hlt; cbn [mbind outcome_bind]; [done|].
  unfold slice_to. rewrite decide_True by (rewrite length_app, length_drop, length_replicate; lia).
  f_equal. rewrite (take_ge l n) by lia. replace (Z.to_nat _) with (length l) by lia.
  by rewrite take_app_length.
Qed.

(** Paging through the store. An offset up to the number of references
    yields the references from there on, up to the limit; a larger one panics. *)
Theorem References_spec offset limit r :
  (0 ≤ offset)%Z → (0 ≤ limit)%Z →
  References offset limit r =
    if decide (offset ≤ Z.of_nat (length r))%Z
    then Ok (take (Z.to_nat limit) (drop (Z.to_nat offset) r)) else Panic.
Proof.
  intros Ho Hl. case_decide as Hle; [by apply References_page|].
  unfold References. rewrite decide_False by lia. rewrite references_loop_skip by lia.
  cbn [mbind outcome_bind]. unfold slice_to. by rewrite decide_False by lia.
Qed.

Section canonicalize.
Context `{ProfileIDs, ProfileStore PS}.

Lemma list_datasets_loop_eq offset limit vis refs :
  (0 ≤ offset)%Z → (Z.of_nat (length vis) < limit)%Z →
  list_datasets_loop offset limit vis refs =
    vis ++ map ConvertToVersionInfo
      (take (Z.to_nat limit - length vis) (drop (Z.to_nat offset) refs)).
Proof.
  revert offset vis. induction refs as [|ref refs IH]; intros offset vis Ho Hl; cbn [list_datasets_loop].
  { by rewrite drop_nil, take_nil, app_nil_r. }
  case_decide as Hpos.
  - rewrite IH by lia. by replace (Z.to_nat offset) with (S (Z.to_nat (offset - 1))) by lia.
  - replace (Z.to_nat offset) with 0 by lia. cbn [drop].
    destruct (Z.to_nat limit - length vis) as [|n] eqn:E; [lia|]. cbn [take map].
    case_decide as Hlim; rewrite length_app in Hlim; cbn in Hlim.
    + assert (n = 0) as -> by lia. done.
    + rewrite IH by (rewrite ?length_app; cbn; lia). rewrite length_app. cbn [length].
      replace (Z.to_nat limit - (length vis + 1)) with n by lia.
      replace (Z.to_nat offset) with 0 by lia. by rewrite <- app_assoc.
Qed.

(** Listing datasets applies the offset twice. From a store, the shim skips
    [offset] references of the page that already starts at [offset]: it lists
    what follows the first [2 * offset], and fewer than the limit asks for. *)
Theorem ListDatasetsShim_offset_twice offset limit r :
  (0 ≤ offset ≤ Z.of_nat (length r))%Z → (0 < limit)%Z →
  ListDatasetsShim offset limit r =
    Ok (map ConvertToVersionInfo
          (drop (Z.to_nat offset) (take (Z.to_nat limit) (drop (Z.to_nat offset) r)))).
Proof.
  intros Ho Hl. unfold ListDatasetsShim. rewrite References_page by lia. cbn [mbind outcome_bind].
  rewrite list_datasets_loop_eq by (cbn; lia). cbn [app length]. rewrite Nat.sub_0_r.
  rewrite (take_ge (drop _ _)); [done|]. rewrite length_drop, length_take. lia.
Qed.

(** ** Completing *)
Lemma canonicalize_own_me p name :
  canonicalize_own p (mkDatasetRef "me" "" name "" "" None false false) =
    (Ok tt, mkDatasetRef (pro_Peername p) (pro_ID p) name "" "" None false false).
Proof.
  unfold canonicalize_own. cbn [dr_Peername dr_ProfileID]. rewrite decide_True by done.
  cbn [set_dr_names dr_Peername dr_ProfileID dr_Name dr_Path dr_FSIPath dr_Dataset dr_Published dr_Foreign].
  repeat (case_bool_decide || case_decide); cbn; try naive_solver.
Qed.

(** "me" finds what was put. After a reference of the repository's owner
    with a path is put, completing "me/<name>" yields its owner, identifier,
    name, path and publication, without an error. *)
Theorem canonicalizeDatasetRef_me (ps : PS) put r r' :
  dr_ProfileID put = pro_ID (Owner ps) → dr_Peername put = pro_Peername (Owner ps) →
  dr_Path put ≠ "" → PutRef put r = Ok r' →
  canonicalizeDatasetRef ps r' (mkDatasetRef "me" "" (dr_Name put) "" "" None false false) =
    (Ok tt, mkDatasetRef (dr_Peername put) (dr_ProfileID put) (dr_Name put) (dr_Path put)
              (dr_FSIPath put) None (dr_Published put) false).
Proof.
  intros Hid Hname Hpath Hput.
  assert (dr_ProfileID put ≠ "" ∧ dr_Peername put ≠ "" ∧ dr_Name put ≠ "") as (Hne1 & Hne2 & Hne3).
  { unfold PutRef in Hput. by repeat case_decide. }
  set (ref1 := mkDatasetRef (pro_Peername (Owner ps)) (pro_ID (Owner ps)) (dr_Name put) "" "" None false false).
  assert (GetRef ref1 r' = Ok put) as Hget.
  { apply GetRef_first_match. destruct (PutRef_first_match _ _ _ Hput) as (i & Hi & _ & Hmin).
    exists i. split_and!; [done| |].
    - unfold Match. cbn. rewrite Hid, Hname, andb_false_r. cbn. by rewrite !bool_decide_eq_true_2.
    - intros j x Hj Hx. specialize (Hmin j x Hj Hx). revert Hmin. unfold Match. cbn.
      rewrite Hid, Hname. rewrite !andb_false_r. cbn. by intros [_ ->]%orb_false_iff. }
  set (ref0 := mkDatasetRef "me" "" (dr_Name put) "" "" None false false).
  assert (canonicalizeProfile ps ref0 = (Ok tt, ref1)) as Hprof.
  { unfold canonicalizeProfile. rewrite decide_False by (by intros [? _]).
    rewrite decide_True by (by left). apply canonicalize_own_me. }
  unfold canonicalizeDatasetRef. rewrite (bind_run st_get _ ref0 ref0 ref0) by done.
  assert (DatasetRef_IsEmpty ref0 = false) as -> by done.
  rewrite (bind_run _ _ _ _ _ Hprof), (bind_run st_get _ ref1 ref1 ref1) by done.
  rewrite (bind_run (st_lift _) _ ref1 put ref1) by (unfold st_lift; by rewrite Hget).
  rewrite (bind_run (st_modify _) _ ref1 tt (fill_from put ref1)) by done.
  rewrite (bind_run st_get _ (fill_from put ref1) _ _ eq_refl).
  assert (fill_from put ref1 = mkDatasetRef (dr_Peername put) (dr_ProfileID put) (dr_Name put)
    (dr_Path put) (dr_FSIPath put) None (dr_Published put) false) as ->.
  { unfold fill_from, ref1.
    cbn [dr_Peername dr_ProfileID dr_Name dr_Path dr_FSIPath dr_Dataset dr_Published dr_Foreign].
    rewrite <- Hid, <- Hname. apply nonempty_true in Hne1, Hne3. rewrite Hne1, Hne3. cbn [nonempty].
    by rewrite decide_False by naive_solver. }
  cbn [dr_ProfileID dr_Name]. rewrite decide_False by naive_solver. by rewrite decide_False.
Qed.
End canonicalize.

(** ** The theorems at work *)
#[local] Instance demo_ids : ProfileIDs := {| ID_String id := id; IDB58Decode s := Ok s |}.
(** A profile store that knows its owner only *)
#[local] Instance owner_store : ProfileStore Profile := {|
  Owner p := p;
  GetProfile p id := if decide (id = pro_ID p) then Ok p else Error (ErrSentinel "profile: not found");
  PeernameID p n := if decide (n = pro_Peername p) then Ok (pro_ID p) else Error (ErrSentinel "profile: not found");
|}.

Definition demo_owner : Profile := mkProfile "QmAlice" "alice".
Definition stored (name path : string) : DatasetRef :=
  mkDatasetRef "alice" "QmAlice" name path "" None false false.
Definition demo_store : list DatasetRef := [stored "airports" "/a"; stored "cities" "/c"; stored "rivers" "/r"].

Lemma PutRef_GetRef_witness : GetRef (stored "cities" "/c2") [stored "airports" "/a"; stored "cities" "/c2"; stored "rivers" "/r"] = Ok (stored "cities" "/c2").
Proof. apply (PutRef_GetRef (stored "cities" "/c2") demo_store). vm_compute. reflexivity. Defined.

Lemma References_spec_witness : References 4 10 demo_store = Panic.
Proof. rewrite (References_spec 4 10 demo_store); [reflexivity|lia|lia]. Defined.

Lemma ListDatasetsShim_offset_twice_witness :
  map vi_Name <$> ListDatasetsShim 1 10 demo_store = Ok ["rivers"].
Proof.
  rewrite (ListDatasetsShim_offset_twice 1 10 demo_store).
  - reflexivity.
  - cbn. lia.
  - lia.
Defined.

Lemma canonicalizeDatasetRef_me_witness :
  canonicalizeDatasetRef demo_owner [stored "airports" "/a"; stored "cities" "/c2"; stored "rivers" "/r"]
    (mkDatasetRef "me" "" "cities" "" "" None false false) =
  (Ok tt, mkDatasetRef "alice" "QmAlice" "cities" "/c2" "" None false false).
Proof.
  apply (canonicalizeDatasetRef_me demo_owner (stored "cities" "/c2") demo_store).
  - reflexivity.
  - reflexivity.
  - discriminate.
  - vm_compute. reflexivity.
Defined.
