(* ===== verification/LogsyncSpec.v ===== *)
(** * The properties of log synchronization

    A put merges nothing its checks refuse, a push that is answered delivers
    the dataset, and one that is refused leaves no trace. *)
From S2P Require Import SyncInstances.

(** ** What receivers read *)
Section logsync.
Context `{OpDigest, C : BookCipher, !LogSigning, Entropy} {F P : Type} `{Filesystem F, Publisher P}.
Implicit Types b : @Book C F P.

(** The operations of an author [p] and of a dataset [l] name them as [ref]
    does, with [ref]'s profile. *)
Definition named_by (p l : Log) (ref : Ref) : Prop :=
  DsrefAliasForLog (Some (mkLog "" "" NoParent "" "" (lg_Ops p) [mkLog "" "" NoParent "" "" (lg_Ops l) []])) =
    Ok (mkRef "" (ref_Username ref) (ref_ProfileID ref) (ref_Name ref) "").

Lemma alias_reload p l l' s psig ref q :
  named_by p l ref → lg_Ops l' = lg_Ops l →
  DsrefAliasForLog (Some (reload "" q (set_Signature s (mkLog "" "" NoParent "" psig (lg_Ops p) [l'])))) =
    Ok (mkRef "" (ref_Username ref) (ref_ProfileID ref) (ref_Name ref) "").
Proof. intros <- Hops. destruct l' as [n au p' pid sg ops ls]. cbn in Hops. by subst ops. Qed.

Lemma SigningBytes_ops l l' : lg_Ops l = lg_Ops l' → SigningBytes l = SigningBytes l'.
Proof. unfold SigningBytes. by intros ->. Qed.

Lemma extends_author p l l' s psig q :
  has_init p → wf_log l' → extends l' l → extends l l' →
  let received := reload "" q (set_Signature s (mkLog "" "" NoParent "" psig (lg_Ops p) [l'])) in
  let sent := mkLog "" "" NoParent "" "" (lg_Ops p) [l] in
  extends received sent ∧ extends sent received.
Proof.
  intros Hp Hwf He1 He2 received sent. subst received sent. rewrite !extends_alt.
  cbn [reload lg_Ops lg_Logs set_Signature map].
  split; (split_and!; [done|done|]); intros x Hx; apply list_elem_of_singleton in Hx as ->.
  - exists l. split; [by apply list_elem_of_singleton|].
    eapply extends_trans; [|exact He1]. destruct l' as [n au p' pid sg ops ls].
    apply extends_by_ops; [by apply wf_reload|done|]. intros a. apply lookup_addr_reload.
  - eexists. split; [by apply list_elem_of_singleton|].
    eapply extends_trans; [exact He2|by apply extends_reload].
Qed.

Lemma edits_same_ops a j j' x : edits a [] j j' → ops_at x j' = ops_at x j.
Proof.
  intros [Ha _ _ _ _]. rewrite (Ha x). destruct (ops_at x j); cbn; [|done].
  case_decide; by rewrite ?app_nil_r.
Qed.

(** ** Put *)
(** C4: safety of [Logsync.put]. Whoever asks and whatever the bytes, a put
    leaves the node's store alone, or merges a log those bytes hold, whose
    names and profile are those of the reference, whose signature verifies
    with the sender's key, and which both checks of the node let pass. *)
Theorem put_authorised {W} (n n' : Logsync (C := C) (F := F) (P := P) W) author ref data r :
  logsync_put author ref data n = (r, n') →
  b_store (ls_book n') = b_store (ls_book n) ∨
  ∃ lg, put_checks author ref data n lg ∧ MergeLog lg (b_store (ls_book n)) = Ok (b_store (ls_book n')).
Proof. intros Hput. pose proof (logsync_put_cases author ref data n) as Hwp. unfold wp in Hwp. by rewrite Hput in Hwp. Qed.

(** ** The author's log that is sent *)
(** Later changes of the author's log do not reach what is sent. Once a
    dataset's parent has been replaced by a copy, as every push and every get
    of it do, the log answered for it holds the author's operations of that
    moment, whatever the author's log has become. *)
Theorem stale_author_sent fuel initID i k b l p pid ops sig pp :
  linked (b_store b) → Journal_Get initID (b_store b) = Ok [i; k] →
  lookup_addr [i; k] (j_logs (b_store b)) = Some l → lookup_addr [i] (j_logs (b_store b)) = Some p →
  lg_ParentID l ≠ "" → initID ≠ "" → lg_parent l = SparseParent pid ops sig pp →
  ∃ lsp l' b', UserDatasetBranchesLog (S fuel) initID b = (Ok (Some lsp), b') ∧
    lg_Ops lsp = ops ∧ lg_Logs lsp = [l'] ∧ lg_Ops l' = lg_Ops l.
Proof.
  intros Hj Hget Hl Hp Hpid Hid Hpar.
  destruct (UserDatasetBranchesLog_dataset fuel initID i k b l p Hj Hget Hl Hp Hpid Hid)
    as (psig & l' & b' & Hrun & Hl' & _ & [He _]).
  rewrite Hpar in Hrun. cbn in Hrun. do 3 eexists. split_and!; [exact Hrun|done..|].
  pose proof (edits_appended _ _ _ _ He [i; k]) as Happ. unfold ops_at in Happ.
  rewrite Hl, Hl' in Happ. injection Happ as ->. destruct (decide ([i; k] = [i; k])); by rewrite ?app_nil_r.
Qed.

(** ** Push *)
Section push.
Context {R W : Type} `{!LogSigningLaws _, !Remote R, !PutCarrier (C := C) (F := F) (P := P) R W}.

(** What the local side of a push needs: the dataset is the caller's to write
    to, its author's log has not changed since a copy was taken, the key signs. *)
Record can_push (i k : nat) (p l br : Log) (ref : Ref) b (s : string) : Prop := {
  cp_dataset : dataset_at i k p l br (ref_InitID ref) b;
  cp_cipher : ∃ key, cipher (b_pk b) = Ok key;
  cp_owned : owned [i; k; 0] b;
  cp_fresh : sparse_ops (lg_parent l) p = lg_Ops p;
  cp_sign : pk_Sign (b_pk b) (SigningBytes p) = Ok s;
  cp_named : named_by p l ref;
}.

(** What the node at the other side needs to take the log in *)
Record can_take (l : Log) (n : Logsync (C := C) (F := F) (P := P) W) : Prop := {
  ct_pre : passes (pushPreCheck n);
  ct_final : passes (pushFinalCheck n);
  ct_pushed : answers_always (pushed n);
  ct_wf : wf_journal (b_store (ls_book n));
  ct_cipher : ∃ key, cipher (b_pk (ls_book n)) = Ok key;
  ct_receive : can_receive l (b_store (ls_book n));
}.

Definition push_op b (addr : string) : Op :=
  mkOp OpTypeInit PushModel "" "" [addr] "" "" (NewTimestamp (b_tick b)) 1 "".

(** C3: a push delivers. The dataset is one's own, has one branch, and its logs
    bear the names of the reference; the author's log is as it was when the
    dataset's log last took a sparse copy of it, if it did ([cp_fresh], without
    which [stale_author_sent] is what is sent); the transport carries puts to a
    node ([sendable]), whose hooks let the author through and whose store can
    take the log in ([can_take]). Then a push ends without an error, has
    recorded the push and nothing else in the local book, and leaves the node
    with a log that has every operation of the author and of the dataset, the
    push included; nothing the node had is lost. *)
Theorem Push_delivers fuel ref addr i k p l br b s r :
  can_push i k p l br ref b s → rem_addr r = Ok addr →
  sendable r (Book_Author b) ref → can_take (pushed_log p l (push_op b addr)) (node_of r) →
  ID p ≠ "" →
  ∃ b' r', Push_Do (S fuel) ref (b, r) = (Ok tt, (b', r')) ∧
    written [i; k; 0] [push_op b addr] b b' ∧
    (∃ a lg, lookup_addr a (j_logs (b_store (ls_book (node_of r')))) = Some lg ∧
             extends (pushed_log p l (push_op b addr)) lg) ∧
    ∀ m lg, j_logs (b_store (ls_book (node_of r))) !! m = Some lg →
      ∃ lg', j_logs (b_store (ls_book (node_of r'))) !! m = Some lg' ∧ extends lg lg'.
Proof.
  intros [Hd [key Hk] Ho Hfresh Hs Hnamed] Haddr Hsend [Hpre Hfin Hpost Hwfr [key' Hkr] Hrec] Hid.
  assert (has_init p) as Hp.
  { pose proof (wf_lookup _ _ _ (da_wf _ _ _ _ _ _ _ Hd) (da_author _ _ _ _ _ _ _ Hd)) as [Hi _]. done. }
  destruct (Push_Do_dataset fuel ref addr i k p l br b key r s Hd Hk Ho Hfresh Hp Haddr Hs)
    as (fb & psig & l' & b' & Hw & Hun & Hwfl & Hops & He1 & He2 & Hrun).
  destruct (extends_author p (pushed_dataset l (push_op b addr)) l' s psig NoParent Hp Hwfl He1 He2)
    as [Hx1 Hx2].
  set (lg := reload "" NoParent _) in Hx1, Hx2.
  destruct (MergeLog_received lg (b_store (ls_book (node_of r)))) as (j' & a & lg' & Hmerge & Hj' & Hlk & Hext & Hall);
    [done|by eapply extends_wf_l|done| |].
  { eapply (can_receive_same lg); [|exact Hx1|exact Hrec]. done. }
  destruct (put_carried r (Book_Author b) ref Hsend) as (wire & Hu & Hn & Hpr & Hcarry).
  destruct (logsync_put_accepted (Book_Author b) wire fb lg (node_of r) key' j') as (n' & Hput & Hst);
    [done|done|done|apply (fb_root_finish_Log (LogSigningLaws := _))|apply fb_finish_Log_nonempty|apply Hun| | |done..|].
  { rewrite Hu, Hn, Hpr. by apply (alias_reload p l). }
  { unfold Log_Verify. replace (pub_Verify _ _ _) with (Ok (A := bool) true); [done|].
    symmetry. exact (Verify_Sign (b_pk b) (SigningBytes p) s Hs). }
  destruct (Hcarry _ _ Hput) as (r' & Hremote & Hnode).
  exists b', r'. rewrite Hnode, Hst. split_and!; [|done|..].
  - rewrite Hrun. unfold or_rollback, remotely, st_zoom. cbn [fst snd].
    destruct Hw as [_ (Ha & Hpk & Hname)].
    assert (Book_Author b' = Book_Author b) as -> by (unfold Book_Author; by rewrite Ha, Hpk, Hname).
    by rewrite Hremote.
  - exists a, lg'. split; [done|]. by eapply extends_trans.
  - exact Hall.
Qed.

(** C22: a refused push leaves no trace. Whatever the other side, a push it
    answers with an error ends with that error, and every log of the local
    book has the operations it had: the recorded push is taken back. *)
Theorem Push_refused fuel ref addr i k p l br b s (r : R) e :
  can_push i k p l br ref b s → rem_addr r = Ok addr →
  (∀ data, ∃ r', rem_put (Book_Author b) ref data r = (Error e, r')) →
  ∃ b' r', Push_Do (S fuel) ref (b, r) = (Error e, (b', r')) ∧
    ∀ x, ops_at x (b_store b') = ops_at x (b_store b).
Proof.
  intros [Hd [key Hk] Ho Hfresh Hs _] Haddr Hrefuse.
  assert (has_init p) as Hp.
  { pose proof (wf_lookup _ _ _ (da_wf _ _ _ _ _ _ _ Hd) (da_author _ _ _ _ _ _ _ Hd)) as [Hi _]. done. }
  destruct (Push_Do_dataset fuel ref addr i k p l br b key r s Hd Hk Ho Hfresh Hp Haddr Hs)
    as (fb & psig & l' & b' & Hw & _ & _ & _ & _ & _ & ->).
  pose proof (dataset_at_branch _ _ _ _ _ _ _ Hd) as Hbr.
  destruct Hw as [He (Ha & Hpk & Hname)].
  assert (Book_Author b' = Book_Author b) as Hauthor by (unfold Book_Author; by rewrite Ha, Hpk, Hname).
  destruct (Hrefuse (fb_finish_Log fb)) as [r' Hput].
  destruct (rollback_op_Ok (ref_InitID ref) [i; k; 0] _ b b' key (da_wf _ _ _ _ _ _ _ Hd) Hk Hbr Ho
    (conj He (conj Ha (conj Hpk Hname)))) as (b'' & Hrb & Hw).
  exists b'', r'. split; [|intros x; apply (edits_same_ops [i; k; 0]), Hw].
  unfold or_rollback, remotely, local, st_zoom, rollback. cbn [fst snd]. rewrite Hauthor, Hput. cbn [fst snd].
  by rewrite Hrb.
Qed.
End push.
End logsync.

(** ** The theorems at work *)
Import Demo SyncDemo.

Lemma ada_can_push : can_push 0 0 ada_author ada_dataset ada_branch ada_ref ada
  ("k" +:+ SigningBytes ada_author).
Proof.
  split; [exact ada_dataset_at|by exists "k"| |vm_compute; reflexivity..].
  unfold owned. eexists _, _, _. split_and!; vm_compute; reflexivity.
Qed.

Lemma bob_can_take op : can_take (pushed_log ada_author ada_dataset op) bob_node.
Proof.
  split; [done..| |by exists "k2"|vm_compute; reflexivity].
  repeat first [constructor | discriminate].
Qed.

Lemma Push_delivers_witness :
  ∃ b' r', Push_Do 1 ada_ref (ada, bob_client) = (Ok tt, (b', r')) ∧
    ∃ a lg, lookup_addr a (j_logs (b_store (ls_book (hc_conn r')))) = Some lg ∧
            extends (pushed_log ada_author ada_dataset (push_op ada "http://bob")) lg.
Proof.
  destruct (Push_delivers 0 ada_ref "http://bob" 0 0 ada_author ada_dataset ada_branch ada
    ("k" +:+ SigningBytes ada_author) bob_client ada_can_push) as (b' & r' & Hrun & _ & Hgot & _).
  - reflexivity.
  - split_and!; [done|by eexists|exact ada_ref_travels].
  - apply bob_can_take.
  - discriminate.
  - exists b', r'. by split.
Defined.

(** A node that refuses every push *)
Definition closed_node : Logsync (C := bookcipher) (F := sink) (P := events) unit :=
  mkLogsync bob_book tt (Some (λ _ _ _ w, (Error (Errorf "no pushes" []), w))) None None None None None None.

Lemma Push_refused_witness :
  ∃ b' r', Push_Do 1 ada_ref (ada, mkHttpClient "http://bob" closed_node) =
      (Error (Errorf "no pushes" []), (b', r')) ∧
    ∀ x, ops_at x (b_store b') = ops_at x (b_store ada).
Proof.
  apply (Push_refused 0 ada_ref "http://bob" 0 0 ada_author ada_dataset ada_branch ada
    ("k" +:+ SigningBytes ada_author) _ _ ada_can_push).
  - reflexivity.
  - intros data. eexists. reflexivity.
Defined.

Definition ada_bytes : string := Eval vm_compute in
  match (l ← WriteRemotePush 1 ada_cities 1 "http://bob"; Book_LogBytes ada_cities l) ada with
  | (Ok d, _) => d | _ => "" end.

Lemma put_authorised_witness :
  ∃ r n', logsync_put (Book_Author ada) ada_ref ada_bytes bob_node = (r, n') ∧
    ∃ lg, put_checks (Book_Author ada) ada_ref ada_bytes bob_node lg ∧
          MergeLog lg (b_store bob_book) = Ok (b_store (ls_book n')).
Proof.
  destruct (logsync_put (Book_Author ada) ada_ref ada_bytes bob_node) as [r n'] eqn:Hput.
  exists r, n'. split; [done|].
  destruct (put_authorised bob_node n' (Book_Author ada) ada_ref ada_bytes r Hput) as [Hs|Hs]; [|exact Hs].
  apply (f_equal (λ p, length (j_logs (b_store (ls_book p.2))))) in Hput. cbn [snd] in Hput.
  rewrite Hs in Hput. vm_compute in Hput. discriminate.
Defined.

(** Ada's dataset is pushed once, then she takes a new name. *)
Definition ada_renamed : book := Eval vm_compute in
  ((UserDatasetBranchesLog 1 ada_cities;; WriteAuthorRename "augusta") ada).2.
Definition renamed_author : Log := Eval vm_compute in
  default (InitLog zero_Op) (j_logs (b_store ada_renamed) !! 0).
Definition renamed_dataset : Log := Eval vm_compute in
  default (InitLog zero_Op) (lookup_addr [0; 0] (j_logs (b_store ada_renamed))).

Lemma linked_ada_renamed : linked (b_store ada_renamed).
Proof.
  split.
  - intros [|i] lg; [|done]. intros [= <-]. split; [done|discriminate].
  - intros [|[|?] [|[|?] [|[|?] a]]] [|i] lg Ha; try done; try (destruct a; done).
    all: intros [= <-]; eexists; split_and!; [reflexivity|vm_compute; reflexivity|done|vm_compute; reflexivity].
Qed.

Lemma stale_author_sent_witness :
  Name renamed_author = Ok "augusta" ∧
  ∃ lsp b', UserDatasetBranchesLog 1 ada_cities ada_renamed = (Ok (Some lsp), b') ∧
    lg_Ops lsp = lg_Ops ada_author ∧ lg_Ops lsp ≠ lg_Ops renamed_author.
Proof.
  split; [vm_compute; reflexivity|].
  destruct (stale_author_sent 0 ada_cities 0 0 ada_renamed renamed_dataset renamed_author "" (lg_Ops ada_author)
    "" NoParent linked_ada_renamed) as (lsp & l' & b' & Hrun & Hops & _);
    [vm_compute; reflexivity..|discriminate|discriminate|vm_compute; reflexivity|].
  exists lsp, b'. split_and!; [exact Hrun|exact Hops|]. rewrite Hops. discriminate.
Defined.
