(* ===== verification/LogsyncP2pSpec.v ===== *)
(** * The properties of peer-to-peer synchronization

    A stream always comes to rest; the caller has its reply exactly when the
    node's handler sent one. No put over a stream is ever answered. *)
From S2P Require Import LogsyncP2p SyncInstances.

Section p2p.
Context `{OpDigest, C : BookCipher, LS : !LogSigning, Entropy} {F P : Type} `{Filesystem F, Publisher P}.
Context `{KB : !KeyBytes LS, !ProfileIDs, !MultihashLib, PM : !P2PMessages}.

Section stream.
Context {W : Type}.
Abbreviation node := (Logsync (C := C) (F := F) (P := P) W).
Abbreviation stream := (stream (C := C) (F := F) (P := P) (W := W)).
Implicit Types s : stream.
Implicit Types sn cn : node.

(** Each step closes an end or returns to the caller. *)
Definition left_to_do s : nat :=
  Nat.b2n (server_open s) + Nat.b2n (client_open s) +
  match sm_caller s with Waiting => 1 | Returned _ => 0 end.

Lemma stream_step_decreases fuel s s' : stream_step fuel s s' → left_to_do s' < left_to_do s.
Proof. destruct 1; unfold left_to_do; cbn; lia. Qed.

Lemma stream_steps_bounded fuel n s s' : nsteps (stream_step fuel) n s s' → n + left_to_do s' ≤ left_to_do s.
Proof.
  induction 1 as [s|n s1 s2 s3 Hstep _ IH]; [done|].
  apply stream_step_decreases in Hstep. lia.
Qed.

(** The states of a stream that carries one message [msg] *)
Definition on_the_way fuel msg sn cn s : Prop :=
  let r := handle fuel msg sn in
  s = sent msg sn cn ∨
  s = mkStream [] (replied r.1) false true [] Waiting r.2 cn ∨
  match r.1 with
  | Ok (Some m) => ∃ ts cn', s = mkStream ts [] false false [m] Waiting r.2 cn' ∨
                             s = mkStream ts [] false false [] (Returned m) r.2 cn'
  | _ => s = mkStream [] [] false false [] Waiting r.2 cn
  end.

Lemma on_the_way_step fuel msg sn cn s s' :
  on_the_way fuel msg sn cn s → stream_step fuel s s' → on_the_way fuel msg sn cn s'.
Proof.
  unfold on_the_way. destruct (handle fuel msg sn) as [[[m|]|e|] sn'] eqn:Hh; cbn [fst snd replied].
  1: intros [-> |[-> |(ts & cn' & [-> | ->])]] Hstep.
  5,6,7: intros [-> |[-> | ->]] Hstep.
  all: inversion Hstep; subst; clear Hstep; rewrite ?Hh; cbn [fst snd replied]; eauto 8.
Qed.

Lemma on_the_way_steps fuel msg sn cn s :
  rtc (stream_step fuel) (sent msg sn cn) s → on_the_way fuel msg sn cn s.
Proof.
  intros Hsteps. remember (sent msg sn cn) as s0 eqn:E.
  assert (on_the_way fuel msg sn cn s0) as Hinv by (subst; by left). clear E.
  induction Hsteps as [|s1 s2 s3 Hstep _ IH]; [done|]. apply IH. by eapply on_the_way_step.
Qed.

(** At rest, the node has handled the message, and the caller has what was
    replied. *)
Lemma stream_at_rest fuel msg sn cn s : rtc (stream_step fuel) (sent msg sn cn) s → stuck fuel s →
  server_node s = (handle fuel msg sn).2 ∧
  sm_caller s = match (handle fuel msg sn).1 with Ok (Some m) => Returned m | _ => Waiting end.
Proof.
  intros Hinv%on_the_way_steps Hstuck. unfold on_the_way in Hinv. destruct Hinv as [-> |[-> |Hinv]].
  - exfalso. eapply Hstuck. constructor.
  - exfalso. destruct (handle fuel msg sn) as [[[m|]|e|] sn']; cbn in Hstuck; eapply Hstuck; constructor.
  - destruct (handle fuel msg sn) as [[[m|]|e|] sn']; cbn [fst snd] in *; [|by subst..].
    destruct Hinv as (ts & cn' & [-> | ->]); [|done]. exfalso. eapply Hstuck. constructor.
Qed.
Lemma stream_rests fuel msg sn cn s : rtc (stream_step fuel) (sent msg sn cn) s →
  ∃ s', rtc (stream_step fuel) s s' ∧ stuck fuel s'.
Proof.
  remember (left_to_do s) as k eqn:Hk. revert s Hk. induction (lt_wf k) as [k _ IH]. intros s -> Hs.
  pose proof (on_the_way_steps _ _ _ _ _ Hs) as Hway. unfold on_the_way in Hway.
  assert ((∃ s', stream_step fuel s s') ∨ stuck fuel s) as [[s' Hstep]|Hstuck].
  { destruct Hway as [-> |[-> |Hway]].
    - left. eexists. constructor.
    - left. destruct (handle fuel msg sn) as [[[m|]|e|] sn']; eexists; constructor.
    - destruct (handle fuel msg sn) as [[[m|]|e|] sn']; cbn [fst snd] in Hway.
      + destruct Hway as (ts & cn' & [-> | ->]); [left; eexists; constructor|right; intros s' Hs'; inversion Hs'].
      + subst. right. intros s' Hs'. inversion Hs'.
      + subst. right. intros s' Hs'. inversion Hs'.
      + subst. right. intros s' Hs'. inversion Hs'. }
  - destruct (IH (left_to_do s') (stream_step_decreases _ _ _ Hstep) s' eq_refl) as (s2 & Hs2 & Hrest).
    { eapply rtc_r; [exact Hs|exact Hstep]. }
    exists s2. split; [by eapply rtc_l|done].
  - exists s. by split.
Qed.

(** C30: a request over a stream. Whatever the message and however the two ends
    and the caller interleave, a stream takes at most three steps and can always
    go on until it rests; at rest the node has handled the message once, and the
    caller has the handler's reply, or still waits when the handler hung up
    without one. *)
Theorem stream_outcome fuel msg sn cn n s :
  nsteps (stream_step fuel) n (sent msg sn cn) s →
  n ≤ 3 ∧ (∃ s', rtc (stream_step fuel) s s' ∧ stuck fuel s') ∧
  (stuck fuel s →
   server_node s = (handle fuel msg sn).2 ∧
   sm_caller s = match (handle fuel msg sn).1 with Ok (Some m) => Returned m | _ => Waiting end).
Proof.
  intros Hsteps. assert (rtc (stream_step fuel) (sent msg sn cn) s) as Hs by (apply rtc_nsteps; by exists n).
  split; [apply stream_steps_bounded in Hsteps; cbn in Hsteps; lia|].
  split; [exact (stream_rests fuel msg sn cn s Hs)|exact (stream_at_rest fuel msg sn cn s Hs)].
Qed.

(** ** Puts *)
Definition without_profile (r : Ref) : Ref :=
  mkRef (ref_InitID r) (ref_Username r) "" (ref_Name r) (ref_Path r).

Lemma parse_sent_ref r :
  printable (without_profile r) → dsref_Parse (Ref_String r) = Ok (without_profile r).
Proof.
  intros Hr. unfold dsref_Parse, Parse.
  change (Ref_String r) with (Ref_String (without_profile r)). by rewrite parse_print.
Qed.

Lemma put_without_profile author ref data sn :
  ref_ProfileID ref = "" → (∀ lg, UnmarshalFlatbufferBytes data = Ok lg → FirstOpAuthorID lg ≠ Ok "") →
  (logsync_put author ref data sn).1 ≠ Ok tt ∧
  b_store (ls_book (logsync_put author ref data sn).2) = b_store (ls_book sn).
Proof.
  intros Hp Hlg.
  assert (∀ lg r, UnmarshalFlatbufferBytes data = Ok lg → DsrefAliasForLog (Some lg) = Ok r → ref_ProfileID r ≠ "")
    as Halias.
  { intros lg r Hun Hal Hr. apply (Hlg lg Hun). unfold DsrefAliasForLog in Hal.
    destruct (Model lg); cbn in Hal; [|done..]. case_decide; [done|].
    destruct (lg_Logs lg) as [|l [|]]; [done| |done].
    destruct (Name lg); cbn in Hal; [|done..]. destruct (Name l); cbn in Hal; [|done..].
    destruct (FirstOpAuthorID lg); cbn in Hal; [|done..]. injection Hal as <-. cbn in Hr. by subst. }
  split.
  - unfold logsync_put, mbind, stM_bind, st_lift.
    destruct (check_hook pushPreCheck author ref None sn) as [[[]|e|] n1]; [|done..].
    case_decide; [done|]. destruct (UnmarshalFlatbufferBytes data) as [lg|e|] eqn:Hun; [|done..].
    destruct (DsrefAliasForLog (Some lg)) as [r|e|] eqn:Hal; [|done..].
    specialize (Halias lg r eq_refl Hal). rewrite decide_True; [done|]. right; right. congruence.
  - destruct (logsync_put author ref data sn) as [r n'] eqn:Hput.
    pose proof (logsync_put_cases author ref data sn) as Hwp. unfold wp in Hwp. rewrite Hput in Hwp.
    destruct Hwp as [Hs|(lg & (lr & Hun & Hal & _ & _ & Hid & _) & _)]; [done|].
    exfalso. apply (Halias lg lr Hun Hal). congruence.
Qed.

Lemma request_fields `{!P2PMessagesLaws PM} mt author ref data msg :
  request mt author ref data = Ok msg →
  Msg_Type msg = mt ∧ Msg_Header msg "phase" = "request" ∧
  Msg_Header msg "ref" = Ref_String ref ∧ Msg_Body msg = data.
Proof.
  unfold request, addAuthorP2PHeaders.
  destruct (PubKey_Bytes (AuthorPubKey author)); cbn; [|done]. intros [= <-].
  rewrite Type_With, Type_New, Body_With, Body_New, !Header_With. done.
Qed.

Lemma or_hangup_Ok {A} (m : stM node A) k n a n' :
  m n = (Ok a, n') → or_hangup m k n = k a n'.
Proof. unfold or_hangup. by intros ->. Qed.

Lemma or_hangup_stop {A} (m : stM node A) k n r n' :
  m n = (r, n') → (∀ a, r ≠ Ok a) → or_hangup m k n = (Ok None, n') ∨ or_hangup m k n = (Panic, n').
Proof. unfold or_hangup. intros -> Hr. destruct r as [a|e|]; [by destruct (Hr a)|by left|by right]. Qed.

Lemma handle_put_silent `{!P2PMessagesLaws PM} fuel author ref data msg sn :
  request mtPut author ref data = Ok msg → printable (without_profile ref) →
  (∀ lg, UnmarshalFlatbufferBytes data = Ok lg → FirstOpAuthorID lg ≠ Ok "") →
  (∀ m, (handle fuel msg sn).1 ≠ Ok (Some m)) ∧
  b_store (ls_book (handle fuel msg sn).2) = b_store (ls_book sn).
Proof.
  intros (Ht & Hp & Hr & Hb)%request_fields Href Hlg.
  unfold handle. rewrite Ht, decide_True by done. unfold HandlePut. rewrite Hp, decide_True by done.
  destruct (authorFromP2PHeaders msg) as [a|e|]; [|by split..].
  rewrite (or_hangup_Ok _ _ sn a sn) by done.
  rewrite Hr, parse_sent_ref, Hb by done. rewrite (or_hangup_Ok _ _ sn (without_profile ref) sn) by done.
  destruct (put_without_profile a (without_profile ref) data sn) as [Hok Hs]; [done..|].
  destruct (logsync_put a (without_profile ref) data sn) as [r n'] eqn:Hput; cbn [fst snd] in *.
  destruct (or_hangup_stop (logsync_put a (without_profile ref) data) (λ _,
    or_hangup (n ← st_get; st_lift (addAuthorP2PHeaders [("phase", "response")] (Logsync_Author n)))
      (λ headers, mret (Some (WithHeaders msg headers)))) sn r n') as [-> | ->]; [done| |by split..].
  by intros [] ->.
Qed.

(** A put over a stream hangs. Whoever sends it, whatever the dataset and
    whatever the node, a client that puts a log of an author with a profile
    over a stream waits forever: the reference it sends leaves the profile
    out, so the node's check refuses the log, hangs up without a reply, and
    keeps its store. *)
Theorem p2p_put_hangs `{!P2PMessagesLaws PM} fuel author ref data msg sn cn n s :
  request mtPut author ref data = Ok msg → printable (without_profile ref) →
  (∀ lg, UnmarshalFlatbufferBytes data = Ok lg → FirstOpAuthorID lg ≠ Ok "") →
  nsteps (stream_step fuel) n (sent msg sn cn) s →
  sm_caller s = Waiting ∧ b_store (ls_book (server_node s)) = b_store (ls_book sn).
Proof.
  intros Hreq Href Hlg Hsteps.
  destruct (handle_put_silent fuel author ref data msg sn Hreq Href Hlg) as [Hno Hs].
  assert (rtc (stream_step fuel) (sent msg sn cn) s) as Hinv%on_the_way_steps
    by (apply rtc_nsteps; by exists n).
  unfold on_the_way in Hinv. destruct (handle fuel msg sn) as [r n']. cbn [fst snd] in *.
  destruct Hinv as [-> |[-> |Hinv]]; [done..|].
  destruct r as [[m|]|e|]; [by destruct (Hno m)|by subst..].
Qed.

(** ** Gets *)
Lemma header_of_app key l1 l2 :
  header_of key (l1 ++ l2) = match header_of key l2 with Some v => Some v | None => header_of key l1 end.
Proof.
  induction l1 as [|[k v] l1 IH]; cbn; [by destruct (header_of key l2)|].
  rewrite IH. by destruct (header_of key l2).
Qed.

(** The headers of an author name that author, on any message that has them. *)
Lemma headers_author `{!KeyBytesLaws KB} hs author d :
  PubKey_Bytes (AuthorPubKey author) = inl d →
  ∃ hs', addAuthorP2PHeaders hs author = Ok hs' ∧
    ∀ m m0, (∀ key, Msg_Header m key = default (Msg_Header m0 key) (header_of key hs')) →
      authorFromP2PHeaders m = Ok author.
Proof.
  intros Hd. unfold addAuthorP2PHeaders. rewrite Hd. eexists. split; [done|]. intros m m0 Hm.
  unfold authorFromP2PHeaders. rewrite !Hm, !header_of_app.
  change (default _ match header_of "pub_key" _ with Some v => Some v | None => _ end)
    with (base64_EncodeToString d).
  rewrite base64_Decode_Encode. cbn [mbind]. unfold outcome_bind.
  rewrite (Unmarshal_Bytes _ d Hd). by destruct author.
Qed.

(** A get over a stream returns. When the node answers the get of the
    reference it reads, every run ends with the caller holding the sender and
    the bytes the node answered. *)
Theorem p2p_get_returns `{!P2PMessagesLaws PM, !KeyBytesLaws KB} fuel author ref msg dr sender data d d' sn sn' cn n s :
  request mtGet author ref "" = Ok msg → PubKey_Bytes (AuthorPubKey author) = inl d' →
  ParseDatasetRef (Ref_String ref) = Ok dr →
  logsync_get fuel author (ConvertToDsref dr) sn = (Ok (sender, data), sn') →
  PubKey_Bytes (AuthorPubKey sender) = inl d →
  nsteps (stream_step fuel) n (sent msg sn cn) s → stuck fuel s →
  ∃ m, sm_caller s = Returned m ∧ get_reply m = Ok (sender, data) ∧ server_node s = sn'.
Proof.
  intros Hreq Hd' Hdr Hget Hd Hsteps Hstuck.
  assert (rtc (stream_step fuel) (sent msg sn cn) s) as Hs by (apply rtc_nsteps; by exists n).
  destruct (stream_at_rest fuel msg sn cn s Hs Hstuck) as [-> ->]. clear Hs Hsteps Hstuck.
  pose proof (request_fields mtGet author ref "" msg Hreq) as (Ht & Hp & Hr & Hb).
  assert (authorFromP2PHeaders msg = Ok author) as Ha.
  { unfold request in Hreq. destruct (headers_author (request_headers ref) author d' Hd') as (hs & Hhs & Hau).
    rewrite Hhs in Hreq. cbn in Hreq. injection Hreq as <-. apply (Hau _ (NewMessage mtGet "")).
    intros key. by rewrite Header_With. }
  destruct (headers_author [("phase", "response")] sender d Hd) as (hs & Hhs & Hau).
  exists (Msg_Update (WithHeaders msg hs) data).
  assert (handle fuel msg sn = (Ok (Some (Msg_Update (WithHeaders msg hs) data)), sn')) as ->.
  { unfold handle. rewrite Ht, decide_False, decide_True by done.
    unfold HandleGet. rewrite Hp, decide_True by done.
    rewrite (or_hangup_Ok _ _ sn author sn) by (unfold st_lift; by rewrite Ha).
    rewrite Hr. rewrite (or_hangup_Ok _ _ sn dr sn) by (unfold st_lift; by rewrite Hdr).
    rewrite (or_hangup_Ok _ _ sn (sender, data) sn') by done.
    by rewrite (or_hangup_Ok _ _ sn' hs sn') by (unfold st_lift; by rewrite Hhs). }
  split_and!; [done| |done]. unfold get_reply. rewrite (Hau _ msg); [cbn; by rewrite Body_Update|].
  intros key. by rewrite Header_Update, Header_With.
Qed.
End stream.
End p2p.

(** ** The theorems at work *)
Import Demo SyncDemo.

#[local] Instance messages : P2PMessages := {|
  Msg := string * string * list (string * string);
  NewMessage t d := (t, d, []);
  WithHeaders m hs := (m.1, m.2 ++ hs);
  Msg_Update m d := (m.1.1, d, m.2);
  Msg_Header m key := default "" (header_of key m.2);
  Msg_Body m := m.1.2;
  Msg_Type m := m.1.1;
|}.
#[local] Instance messages_laws : P2PMessagesLaws messages.
Proof.
  split; try done. intros [m h] hs key. cbn [Msg_Header WithHeaders messages snd].
  rewrite header_of_app. by destruct (header_of key hs).
Qed.

Definition ada_node : Logsync (C := bookcipher) (F := sink) (P := events) unit :=
  mkLogsync ada tt None None None None None None None.

Definition ada_log_bytes : string := Eval vm_compute in
  match (l ← UserDatasetBranchesLog 1 ada_cities; Book_LogBytes ada_cities l) ada with
  | (Ok d, _) => d | _ => "" end.

Lemma ada_ref_printable : printable (without_profile ada_ref).
Proof.
  split; [left; by repeat split|done|]. right. split; [exact (tv_path _ ada_ref_travels)|].
  split; [vm_compute; reflexivity|cbn; lia].
Qed.

Definition put_msg : Msg := default (NewMessage "" "")
  match request mtPut (Book_Author ada) ada_ref ada_log_bytes with Ok m => Some m | _ => None end.

Lemma p2p_put_hangs_witness :
  ∃ s, rtc (stream_step 1) (sent put_msg bob_node ada_node) s ∧ stuck 1 s ∧ sm_caller s = Waiting.
Proof.
  set (s := mkStream (C := bookcipher) (F := sink) (P := events) [] [] false false [] Waiting
              (handle 1 put_msg bob_node).2 ada_node).
  assert (nsteps (stream_step 1) 2 (sent put_msg bob_node ada_node) s) as Hsteps.
  { econstructor; [constructor|]. econstructor; [|constructor].
    assert ((handle 1 put_msg bob_node).1 = Ok None) as -> by (vm_compute; reflexivity). constructor. }
  exists s. split; [apply rtc_nsteps; by exists 2|].
  split; [intros s' Hs'; inversion Hs'|].
  apply (p2p_put_hangs 1 (Book_Author ada) ada_ref ada_log_bytes put_msg bob_node ada_node 2 s);
    [vm_compute; reflexivity|exact ada_ref_printable| |exact Hsteps].
  intros lg Hlg. vm_compute in Hlg. injection Hlg as <-. vm_compute. discriminate.
Defined.

Definition get_msg : Msg := default (NewMessage "" "")
  match request mtGet (Book_Author bob_book) ada_ref "" with Ok m => Some m | _ => None end.

(** Ada's node answers Bob's get: delivered, handled, replied, returned. *)
Definition answered : Msg := Eval vm_compute in
  match (handle 1 get_msg ada_node).1 with Ok (Some m) => m | _ => NewMessage "" "" end.
Definition at_rest : stream (C := bookcipher) (F := sink) (P := events) :=
  mkStream (replied (handle 1 answered bob_node).1) [] false false [] (Returned answered)
    (handle 1 get_msg ada_node).2 (handle 1 answered bob_node).2.
Lemma answered_run : nsteps (stream_step 1) 3 (sent get_msg ada_node bob_node) at_rest.
Proof.
  econstructor; [constructor|]. assert ((handle 1 get_msg ada_node).1 = Ok (Some answered)) as -> by (vm_compute; reflexivity).
  econstructor; [constructor|]. econstructor; [apply caller_returns|constructor].
Qed.
Lemma stream_outcome_witness :
  nsteps (stream_step 1) 3 (sent get_msg ada_node bob_node) at_rest ∧ stuck 1 at_rest ∧
  server_node at_rest = (handle 1 get_msg ada_node).2 ∧ sm_caller at_rest = Returned answered.
Proof.
  split; [exact answered_run|]. assert (stuck 1 at_rest) as Hstuck by (intros s' Hs'; inversion Hs').
  split; [exact Hstuck|].
  destruct (stream_outcome 1 get_msg ada_node bob_node 3 at_rest answered_run) as (_ & _ & Hrest).
  destruct (Hrest Hstuck) as [Hnode Hcaller]. split; [exact Hnode|]. rewrite Hcaller. vm_compute. reflexivity.
Defined.

Lemma p2p_get_returns_witness :
  ∃ s m, rtc (stream_step 1) (sent get_msg ada_node bob_node) s ∧ sm_caller s = Returned m ∧
    ∃ data, get_reply m = Ok (Book_Author ada, data).
Proof.
  destruct (logsync_get 1 (Book_Author bob_book) (ConvertToDsref (mkDatasetRef "ada" ada_cities "cities" "/ipfs/Qm1" "" None false false)) ada_node) as [r sn'] eqn:Hget.
  assert (∃ data, r = Ok (Book_Author ada, data)) as [data ->].
  { apply (f_equal fst) in Hget. cbn [fst] in Hget. subst r. vm_compute. eexists. reflexivity. }
  destruct (handle 1 get_msg ada_node) as [r n'] eqn:Hh.
  assert (∃ m, r = Ok (Some m)) as [m ->].
  { apply (f_equal fst) in Hh. cbn [fst] in Hh. subst r. vm_compute. eexists. reflexivity. }
  set (s := mkStream (C := bookcipher) (F := sink) (P := events) (replied (handle 1 m bob_node).1) []
              false false [] (Returned m) n' (handle 1 m bob_node).2).
  assert (nsteps (stream_step 1) 3 (sent get_msg ada_node bob_node) s) as Hsteps.
  { econstructor; [constructor|]. rewrite Hh. econstructor; [constructor|].
    econstructor; [apply caller_returns|constructor]. }
  exists s, m. split_and!; [apply rtc_nsteps; by exists 3|done|].
  destruct (p2p_get_returns 1 (Book_Author bob_book) ada_ref get_msg
    (mkDatasetRef "ada" ada_cities "cities" "/ipfs/Qm1" "" None false false) (Book_Author ada) data
    "k" "k2" ada_node sn' bob_node 3 s) as (m' & Hm & Hreply & _);
    [vm_compute; reflexivity..|exact Hget|reflexivity|exact Hsteps|intros s' Hs'; inversion Hs'|].
  injection Hm as <-. by exists data.
Defined.
