(* ===== verification/StatsCacheSpec.v ===== *)
(** * The properties of the stats cache

    Adding an entry ends and keeps the cache within its size; what was put can
    be read back; which entry goes is a matter of map order. *)
From S2P Require Import StatsCache.

(** What the cache relies on of a disk: a written file reads back with the
    size of its data, and a change of a file leaves the others alone. *)
Class DiskLaws {D} `(Dk : Disk D) : Prop := {
  write_read : ∀ d n data d', os_WriteFile n data d = (Ok tt, d') → os_ReadFile d' n = Ok data;
  write_size : ∀ d n data d' p, os_WriteFile n data d = (Ok tt, d') → NewProps d' n = Ok p →
    Props_Size p = Z.of_nat (String.length data);
  write_other : ∀ d n data n', n' ≠ n → os_ReadFile (os_WriteFile n data d).2 n' = os_ReadFile d n';
  remove_other : ∀ d n n', n' ≠ n → os_ReadFile (os_Remove n d).2 n' = os_ReadFile d n';
}.

Section cache.
Context {D St : Type} `{Dk : !Disk D, !StatsEncoding St}.
Context (json_Marshal_info : cacheInfo → outcome string) (range : gmap string Props → list (string * Props)).
Hypothesis range_perm : ∀ m, range m ≡ₚ map_to_list m.
Abbreviation localCache := (localCache (D := D)).
Abbreviation purge := (purge range).
Abbreviation addAndPurgeExpired := (addAndPurgeExpired range).
Abbreviation PutStats := (PutStats (St := St) json_Marshal_info range).
Implicit Types c : localCache.

(** ** The entry to drop *)
Definition may_go (keep : string) (e : string * Props) : Prop :=
  (Props_Mtime_Unix e.2 < MaxInt64)%Z ∧ e.1 ≠ keep.

Lemma lower_foldl keep acc es :
  (foldl (lower keep) acc es = acc ∧ Forall (λ e, ¬ may_go keep e) es) ∨
  ∃ e, e ∈ es ∧ may_go keep e ∧ foldl (lower keep) acc es = e.1.
Proof.
  revert acc. induction es as [|e es IH]; intros acc; cbn [foldl]; [by left|]. unfold lower at 2 4.
  destruct (decide _) as [Hm|Hm].
  - right. destruct (IH e.1) as [[-> _]|(e' & Hin & Hm' & ->)].
    + exists e. by split; [left|].
    + exists e'. by split; [right|].
  - destruct (IH acc) as [[-> Hall]|(e' & Hin & Hm' & ->)]; [left; by auto|right].
    exists e'. by split; [right|].
Qed.

Lemma lowestKey_cases keep (m : gmap string Props) :
  (lowestKey keep (range m) = "" ∧ ∀ k p, m !! k = Some p → ¬ may_go keep (k, p)) ∨
  ∃ k p, m !! k = Some p ∧ may_go keep (k, p) ∧ lowestKey keep (range m) = k.
Proof.
  destruct (lower_foldl keep "" (range m)) as [[Hl Hall]|([k p] & Hin & Hm & Hl)].
  - left. split; [exact Hl|]. intros k p Hk. rewrite Forall_forall in Hall. apply Hall.
    rewrite range_perm. by apply elem_of_map_to_list.
  - right. exists k, p. rewrite range_perm in Hin. apply elem_of_map_to_list in Hin. done.
Qed.

(** ** The loop ends *)
(** What the loop leaves behind, and why it stopped *)
Definition purged keep c c' : Prop :=
  StatFileProps (info c') ⊆ StatFileProps (info c) ∧
  StatFileProps (info c') !! keep = StatFileProps (info c) !! keep ∧
  TargetFileProps (info c') !! keep = TargetFileProps (info c) !! keep ∧
  root c' = root c ∧ maxSize c' = maxSize c.
Definition stopped keep c' : Prop :=
  (cacheInfo_Size (info c') ≤ maxSize c')%Z ∨
  lowestKey keep (range (StatFileProps (info c'))) = "" ∨
  ∃ d k, (os_Remove (componentFilepath c' k) d).1 ≠ Ok tt.

Lemma purge_ends fuel keep c :
  is_Some (StatFileProps (info c) !! keep) → size (StatFileProps (info c)) ≤ fuel →
  ∃ c', purge fuel keep c = Some c' ∧ purged keep c c' ∧ stopped keep c'.
Proof.
  revert c. induction fuel as [|fuel IH]; intros c [p Hp] Hsize.
  { assert (StatFileProps (info c) = ∅) as Hm by (apply map_size_empty_inv; lia).
    by rewrite Hm, lookup_empty in Hp. }
  cbn [StatsCache.purge]. destruct (decide _) as [Hbig|Hsmall].
  2: { exists c. split_and!; [done..|left; lia]. }
  destruct (decide (lowestKey _ _ = "")) as [Hl|Hl].
  { exists c. split_and!; [done..|by right; left]. }
  destruct (lowestKey_cases keep (StatFileProps (info c))) as [[? _]|(k & q & Hk & [_ Hne] & Hlow)]; [done|].
  rewrite Hlow in *. cbn [fst] in Hne. unfold on_disk, st_zoom.
  destruct (os_Remove (componentFilepath c k) (disk c)) as [r d'] eqn:Hrm.
  destruct r as [[]|e|].
  2,3: exists (set_disk d' c); split_and!; [done..|]; right; right;
       exists (disk c), k; change (componentFilepath (set_disk d' c) k) with (componentFilepath c k);
       by rewrite Hrm.
  match goal with |- context [purge fuel keep ?c1] => destruct (IH c1) as (c' & -> & (Hsub & Hkeep & Hkeep' & Hroot & Hmax) & Hstop) end.
  - exists p. cbn. by rewrite lookup_delete_ne.
  - cbn. rewrite map_size_delete, Hk. lia.
  - exists c'. split_and!; [done| |done]. cbn in *. rewrite lookup_delete_ne in Hkeep, Hkeep' by done.
    split_and!; [|done..]. etrans; [exact Hsub|]. apply delete_subseteq.
Qed.

Lemma wrap64_small z : (0 ≤ z ≤ MaxInt64)%Z → wrap64 z = z.
Proof. unfold MaxInt64. intros Hz. apply wrap64_id. unfold in_int64, int64_min, int64_max. lia. Qed.

(** Only the new entry is left when no other may go. *)
Lemma stopped_alone keep c :
  lowestKey keep (range (StatFileProps (info c))) = "" →
  (∀ k p, StatFileProps (info c) !! k = Some p → k ≠ "" ∧ (Props_Mtime_Unix p < MaxInt64)%Z) →
  ∀ k p, StatFileProps (info c) !! k = Some p → k = keep.
Proof.
  intros Hl Hall k p Hk. destruct (decide (k = keep)) as [|Hne]; [done|].
  destruct (Hall k p Hk) as [Hk0 Hm].
  destruct (lowestKey_cases keep (StatFileProps (info c))) as [[_ Hno]|(k' & p' & Hk' & _ & Hlow)].
  - by destruct (Hno k p Hk).
  - destruct (Hall k' p' Hk'). congruence.
Qed.

Lemma total_alone keep p (m : gmap string Props) :
  m !! keep = Some p → (∀ k q, m !! k = Some q → k = keep) → total m = Props_Size p.
Proof.
  intros Hk Hall. assert (m = {[keep := p]}) as ->.
  { apply map_eq. intros k. destruct (decide (k = keep)) as [->|Hne].
    - by rewrite Hk, lookup_singleton_eq.
    - rewrite lookup_singleton_ne by done. destruct (m !! k) eqn:E; [|done]. by destruct Hne, (Hall k p0). }
  unfold total. rewrite map_fold_singleton. lia.
Qed.

Lemma addAndPurge_ends ck sp tp c :
  ∃ c', addAndPurgeExpired ck sp tp c = (Ok tt, c') ∧
    purged ck (set_info (mkCacheInfo (<[ck := sp]> (StatFileProps (info c)))
                                     (<[ck := tp]> (TargetFileProps (info c)))) c) c' ∧
    stopped ck c'.
Proof.
  unfold StatsCache.addAndPurgeExpired.
  destruct (purge_ends (size (<[ck := sp]> (StatFileProps (info c)))) ck
    (set_info (mkCacheInfo (<[ck := sp]> (StatFileProps (info c))) (<[ck := tp]> (TargetFileProps (info c)))) c))
    as (c' & Hp & Hpurged & Hstop); [exists sp; cbn; by rewrite lookup_insert_eq|done|].
  exists c'. cbn in Hp |- *. by rewrite Hp.
Qed.

(** The purge ends within the bound. [addAndPurgeExpired] never runs out of
    entries to look at: it ends with the new entry in the index and nothing
    that was not there; and when files can be removed, and the entries have
    keys and times, the sizes add up to at most the maximum or the new entry
    is alone. *)
Theorem addAndPurgeExpired_bounded ck sp tp c :
  (∀ d n, (os_Remove n d).1 = Ok tt) →
  (∀ k p, <[ck := sp]> (StatFileProps (info c)) !! k = Some p → k ≠ "" ∧ (Props_Mtime_Unix p < MaxInt64)%Z) →
  ∃ c', addAndPurgeExpired ck sp tp c = (Ok tt, c') ∧
    StatFileProps (info c') !! ck = Some sp ∧ TargetFileProps (info c') !! ck = Some tp ∧
    StatFileProps (info c') ⊆ <[ck := sp]> (StatFileProps (info c)) ∧
    ((cacheInfo_Size (info c') ≤ maxSize c)%Z ∨ StatFileProps (info c') = {[ck := sp]}).
Proof.
  intros Hrm Hall. destruct (addAndPurge_ends ck sp tp c) as (c' & Hrun & (Hsub & Hs & Ht & _ & Hmax) & Hstop).
  cbn in Hsub, Hs, Ht, Hmax. rewrite lookup_insert_eq in Hs, Ht.
  exists c'. split_and!; [done..|]. destruct Hstop as [Hsize|[Hl|(d & k & Hd)]]; [|right|by destruct Hd].
  - left. by rewrite <- Hmax.
  - assert (∀ k p, StatFileProps (info c') !! k = Some p → k = ck) as Halone.
    { apply (stopped_alone ck c' Hl). intros k p Hk. apply Hall. by eapply lookup_weaken. }
    apply map_eq. intros k. destruct (decide (k = ck)) as [->|Hne].
    + by rewrite Hs, lookup_singleton_eq.
    + rewrite lookup_singleton_ne by done. destruct (StatFileProps (info c') !! k) eqn:E; [|done].
      by destruct Hne, (Halone k p).
Qed.

(** Which entry goes. Any entry but the new one, the newest included, is
    the one dropped under some order of the walk over the map: the comparison
    never moves the lowest time. *)
Theorem eviction_arbitrary keep (m : gmap string Props) k p :
  m !! k = Some p → may_go keep (k, p) →
  ∃ order, order ≡ₚ map_to_list m ∧ lowestKey keep order = k.
Proof.
  intros Hk Hm. exists (map_to_list (delete k m) ++ [(k, p)]). split.
  - rewrite (comm (++)). cbn. by apply map_to_list_delete.
  - unfold lowestKey. rewrite foldl_app. cbn [foldl]. unfold lower at 1. by rewrite decide_True.
Qed.

(** ** What was put *)
Lemma cacheKey_info key : cacheKey key +:+ ".json" ≠ localCacheInfoFilename.
Proof.
  intros Heq. assert (String.length key = 2) as Hlen.
  { pose proof (f_equal String.length Heq) as Hl. rewrite string_length_app in Hl.
    unfold cacheKey in Hl. rewrite base32_encode_length in Hl.
    change (String.length ".json") with 5 in Hl.
    change (String.length localCacheInfoFilename) with 9 in Hl.
    pose proof (Nat.div_mod_eq (8 * String.length key + 4) 5).
    pose proof (Nat.mod_upper_bound (8 * String.length key + 4) 5 ltac:(lia)). lia. }
  destruct key as [|[] [|[] [|]]]; try done. unfold cacheKey, base32_encode in Heq. cbn in Heq.
  apply (f_equal (String.get 3)) in Heq. cbn [String.get] in Heq. by destruct b7.
Qed.

Lemma componentFilepath_info c c' key : root c' = root c →
  in_root c' localCacheInfoFilename ≠ componentFilepath c (cacheKey key).
Proof.
  unfold componentFilepath, in_root. intros -> Heq. apply (cacheKey_info key).
  apply (inj (String.append (root c))) in Heq. by apply (inj (String.append "/")) in Heq.
Qed.

Lemma componentFilepath_inj c ck ck' : componentFilepath c ck = componentFilepath c ck' → ck = ck'.
Proof.
  unfold componentFilepath, in_root. intros Heq.
  apply (inj (String.append (root c))), (inj (String.append "/")) in Heq.
  apply (f_equal bytes) in Heq. rewrite !bytes_app in Heq. by apply app_inv_tail, bytes_inj in Heq.
Qed.

Lemma purge_keeps_file `{!DiskLaws Dk} fuel keep c c' :
  purge fuel keep c = Some c' →
  os_ReadFile (disk c') (componentFilepath c keep) = os_ReadFile (disk c) (componentFilepath c keep).
Proof.
  revert c. induction fuel as [|fuel IH]; intros c; cbn [StatsCache.purge].
  { case_decide; [done|]. by intros [= <-]. }
  case_decide; [|by intros [= <-]]. case_decide as Hl; [by intros [= <-]|].
  destruct (lowestKey_cases keep (StatFileProps (info c))) as [[? _]|(k & q & _ & [_ Hne] & Hlow)]; [done|].
  rewrite Hlow in *. unfold on_disk, st_zoom. cbn [fst] in Hne.
  pose proof (remove_other (disk c) (componentFilepath c k) (componentFilepath c keep)) as Hother.
  assert (componentFilepath c keep ≠ componentFilepath c k) as Hpath
    by (intros Heq%componentFilepath_inj; by subst).
  specialize (Hother Hpath). destruct (os_Remove (componentFilepath c k) (disk c)) as [[[]|e|] d']; cbn [snd] in Hother.
  - intros Hrun%IH. rewrite <- Hother. exact Hrun.
  - by intros [= <-].
  - by intros [= <-].
Qed.

(** What was put is found. After a put that succeeded, whatever other
    entries it dropped, the statistics are read back under the key, unless a
    file has to be compared with its state at the time. *)
Theorem PutStats_GetStats `{!DiskLaws Dk} key (sa : St) c c' :
  (∀ sa data, json_Marshal sa = Ok data → json_Decode data = Ok sa) →
  PutStats key sa c = (Ok tt, c') → PathKind key ≠ "local" → GetStats key c' = Ok sa.
Proof.
  intros Hjson Hput Hkind. unfold StatsCache.PutStats in Hput.
  apply stM_bind_Ok in Hput as (c0 & ? & [= <- <-] & Hput).
  apply stM_bind_Ok in Hput as (data & ? & [= Hdata <-] & Hput). case_decide; [done|].
  apply stM_bind_Ok in Hput as ([] & c1 & Hwrite & Hput). unfold on_disk, st_zoom in Hwrite.
  destruct (os_WriteFile _ data (disk c)) as [r d1] eqn:Hw. injection Hwrite as -> <-.
  apply stM_bind_Ok in Hput as (c1 & ? & [= <- <-] & Hput).
  apply stM_bind_Ok in Hput as (sp & ? & [= Hsp <-] & Hput).
  apply stM_bind_Ok in Hput as ([] & c2 & Hadd & Hput).
  rewrite decide_False in Hadd by done.
  destruct (addAndPurge_ends (cacheKey key) sp zero_Props (set_disk d1 c)) as (c2' & Hrun & (_ & _ & Ht & Hroot & _) & _).
  assert (c2' = c2) as -> by congruence. unfold StatsCache.addAndPurgeExpired in Hadd.
  destruct (purge _ _ _) as [c2'|] eqn:Hpurge; [|done]. injection Hadd as ->.
  apply purge_keeps_file in Hpurge.
  apply stM_bind_Ok in Hput as (c3 & ? & [= <- <-] & Hput).
  apply stM_bind_Ok in Hput as (idx & ? & [= Hidx <-] & Hput). unfold on_disk, st_zoom in Hput.
  destruct (os_WriteFile _ idx (disk c2)) as [r d3] eqn:Hw3. injection Hput as -> <-.
  unfold GetStats. cbn in Ht. rewrite lookup_insert_eq in Ht. cbn [info set_disk]. rewrite Ht, decide_False by done.
  replace (os_ReadFile (disk (set_disk d3 c2)) _) with (Ok (A := string) data).
  { cbn. by apply Hjson. }
  change (root (set_info _ (set_disk d1 c))) with (root c) in Hroot.
  assert (componentFilepath (set_disk d3 c2) (cacheKey key) = componentFilepath c (cacheKey key)) as ->
    by (unfold componentFilepath, in_root; cbn; by rewrite Hroot).
  pose proof (write_other (disk c2) (in_root c2 localCacheInfoFilename) idx (componentFilepath c (cacheKey key)))
    as Hother. rewrite Hw3 in Hother. cbn [snd] in Hother. cbn [disk set_disk]. rewrite Hother.
  - etrans; [|symmetry; exact Hpurge]. symmetry. by apply (write_read (disk c) _ data).
  - intros Heq. symmetry in Heq. by apply componentFilepath_info in Heq.
Qed.

(** A put panics nowhere of its own. *)
Lemma PutStats_no_panic key (sa : St) c :
  (∀ n data d, (os_WriteFile n data d).1 ≠ Panic) → (∀ d n, NewProps d n ≠ Panic) →
  json_Marshal sa ≠ Panic → (∀ ci, json_Marshal_info ci ≠ Panic) → (PutStats key sa c).1 ≠ Panic.
Proof.
  intros Hw Hn Hj Hi. unfold StatsCache.PutStats, mbind, stM_bind, st_get, st_lift.
  destruct (json_Marshal sa) as [data|e|]; [|done..]. case_decide; [done|]. unfold on_disk, st_zoom.
  specialize (Hw (componentFilepath c (cacheKey key)) data (disk c)) as Hw1.
  destruct (os_WriteFile _ data (disk c)) as [[[]|e|] d1]; [|done..].
  pose proof (Hn (disk (set_disk d1 c)) (componentFilepath (set_disk d1 c) (cacheKey key))) as Hn1.
  destruct (NewProps _ (componentFilepath (set_disk d1 c) _)) as [sp|e|]; [|done..].
  match goal with |- context [addAndPurgeExpired ?ck ?sp ?tp ?c0] =>
    destruct (addAndPurge_ends ck sp tp c0) as (c2 & -> & _) end.
  unfold writeCacheInfo, mbind, stM_bind, st_get, st_lift. pose proof (Hi (info c2)) as Hi2.
  destruct (json_Marshal_info (info c2)) as [idx|e|]; [|done..]. unfold on_disk, st_zoom.
  specialize (Hw (in_root c2 localCacheInfoFilename) idx (disk c2)).
  by destruct (os_WriteFile _ idx (disk c2)) as [[[]|e|] d3].
Qed.

(** ** The service *)
(** The service answers. Whatever the cache holds or refuses, a dataset
    that carries statistics gets those, and one with a body gets those in the
    cache or those computed; without a cache they are always computed. *)
Theorem Service_Stats_spec calculate (ds : StatsRequest) (ca : Cache) key full :
  Service_cacheKey ds = Ok key → sr_BodyFile ds = Some full →
  (∀ c, ca = LocalCache c → GetStats (St := St) key c ≠ Panic ∧ ∀ sa, (PutStats key sa c).1 ≠ Panic) →
  (Service_Stats json_Marshal_info range calculate ds ca).1 =
    match sr_Stats ds, Cache_GetStats (St := St) key ca with
    | Some sa, _ => Ok sa
    | None, Ok sa => Ok sa
    | None, _ => calculate ds
    end.
Proof.
  intros Hkey Hbody Hno. unfold Service_Stats. destruct (sr_Stats ds) as [sa|]; [done|].
  rewrite Hkey, Hbody. unfold mbind, stM_bind, st_lift, st_get. cbn [fst snd].
  destruct ca as [|c]; cbn [Cache_GetStats].
  - destruct (calculate ds); done.
  - destruct (Hno c eq_refl) as [Hget Hput]. destruct (GetStats key c) as [sa|e|]; [done| |done].
    destruct (calculate ds) as [sa|e'|]; [|done..]. cbn [Cache_PutStats].
    specialize (Hput sa). by destruct (PutStats key sa c) as [[]].
Qed.
End cache.

(** ** The theorems at work *)
#[local] Instance demo_disk : Disk (gmap string string) := {|
  Props := Z * Z;
  Props_Size := fst;
  Props_Mtime_Unix := snd;
  Props_Equal p q := bool_decide (p = q);
  zero_Props := (0, 0)%Z;
  NewProps d n := match d !! n with
                  | Some data => Ok (Z.of_nat (String.length data), 7%Z)
                  | None => Error (ErrSentinel "file does not exist")
                  end;
  os_WriteFile n data d := (Ok tt, <[n := data]> d);
  os_ReadFile d n := of_option (Error (ErrSentinel "file does not exist")) (d !! n);
  os_Remove n d := (Ok tt, delete n d);
  os_MkdirAll _ d := (Ok tt, d);
  os_RemoveAll _ d := (Ok tt, ∅);
|}.
#[local] Instance demo_disk_laws : DiskLaws demo_disk.
Proof.
  split; cbn.
  - intros d n data d' [= <-]. by rewrite lookup_insert_eq.
  - intros d n data d' p [= <-]. rewrite lookup_insert_eq. by intros [= <-].
  - intros d n data n' Hne. by rewrite lookup_insert_ne.
  - intros d n n' Hne. by rewrite lookup_delete_ne.
Qed.
#[local] Instance demo_encoding : StatsEncoding string := {|
  PathKind p := if strings_HasPrefix p "/ipfs" then "ipfs" else "local";
  json_Marshal s := Ok s;
  json_Decode s := Ok s;
|}.

Definition demo_index (_ : cacheInfo) : outcome string := Ok "{}".
Definition demo_range (m : gmap string Props) : list (string * Props) := map_to_list m.
Definition new_cache : localCache := mkLocalCache "/cache" 10 newCacheInfo ∅.
Definition after_put : localCache :=
  (PutStats (St := string) demo_index demo_range "/ipfs/QmA" "aaaaaa" new_cache).2.
Definition after_two : localCache :=
  (PutStats (St := string) demo_index demo_range "/ipfs/QmB" "bbbbbb" after_put).2.

Lemma PutStats_GetStats_witness :
  GetStats (St := string) "/ipfs/QmB" after_two = Ok "bbbbbb" ∧
  GetStats (St := string) "/ipfs/QmA" after_two = Error ErrCacheMiss.
Proof.
  split; [|vm_compute; reflexivity].
  apply (PutStats_GetStats demo_index demo_range (λ m, Permutation_refl _) "/ipfs/QmB" "bbbbbb" after_put).
  - by intros sa data [= ->].
  - unfold after_two. rewrite (surjective_pairing (PutStats _ _ _ _ after_put)) at 1. by f_equal.
  - vm_compute. discriminate.
Defined.

Lemma addAndPurgeExpired_bounded_witness :
  ∃ c', addAndPurgeExpired demo_range "b" (6, 8)%Z (0, 0)%Z
    (set_info (mkCacheInfo {[ "a" := (6, 7)%Z ]} {[ "a" := (0, 0)%Z ]}) new_cache) = (Ok tt, c') ∧
    (cacheInfo_Size (info c') ≤ 10)%Z.
Proof.
  destruct (addAndPurgeExpired_bounded demo_range (λ m, Permutation_refl _) "b" (6, 8)%Z (0, 0)%Z
    (set_info (mkCacheInfo {[ "a" := (6, 7)%Z ]} {[ "a" := (0, 0)%Z ]}) new_cache))
    as (c' & Hrun & _ & _ & _ & Hsize).
  - done.
  - intros k p. rewrite lookup_insert_Some. intros [[<- <-]|[_ Hk]]; [by vm_compute|].
    cbn in Hk. apply lookup_singleton_Some in Hk as [<- <-]. by vm_compute.
  - exists c'. split; [done|]. destruct Hsize as [Hs|Hs]; [exact Hs|].
    unfold cacheInfo_Size. rewrite Hs. vm_compute. discriminate.
Defined.

(** The newest of three entries goes. *)
Definition props (size mtime : Z) : Props := (size, mtime).
Definition three : gmap string Props :=
  {[ "new" := props 1 9; "old" := props 1 2; "added" := props 1 8 ]}.

Lemma eviction_arbitrary_witness :
  ∃ order, order ≡ₚ map_to_list three ∧ lowestKey "added" order = "new".
Proof.
  apply (eviction_arbitrary "added" three "new" (props 1 9)); [reflexivity|].
  split; vm_compute; [reflexivity|discriminate].
Defined.

Lemma Service_Stats_spec_witness :
  (Service_Stats demo_index demo_range (λ _, Ok "computed") (mkStatsRequest None "/ipfs/QmB" (Some "body.csv"))
    (LocalCache new_cache)).1 = Ok "computed".
Proof.
  rewrite (Service_Stats_spec demo_index demo_range (λ _, Ok "computed")
    (mkStatsRequest None "/ipfs/QmB" (Some "body.csv")) (LocalCache new_cache) "/ipfs/QmB" "body.csv");
    [vm_compute; reflexivity|reflexivity|reflexivity|].
  intros c [= <-]. split; [done|]. intros sa.
  apply (PutStats_no_panic demo_index demo_range (λ m, Permutation_refl _)); [done| |done..].
  intros d n. cbn. by destruct (d !! n).
Defined.
