(* ===== verification/PreprocessSpec.v ===== *)
(** * The properties of the SQL preprocessor

    It ends on every query, names the tables it finds legally and apart, and
    where its scanner keeps the text and where it loses some. *)
From S2P Require Import Preprocess.

(** ** What is left to scan *)
Definition counts (buf : option token) : nat :=
  match buf with Some t => if decide (tok_Type t = eofTok) then 0 else 1 | None => 0 end.
Definition left_to_scan (p : processor) : nat := 2 * length (r p) + counts (parseBuf p) + counts (scanBuf p).

Lemma newTextualTok_counts text : counts (Some (newTextualTok text)) = 1.
Proof.
  cbn. rewrite decide_False; [done|]. unfold newTextualTok.
  destruct (find_index_from _ _ _) as [[n k]|] eqn:E; [|done].
  apply find_index_from_Some in E as (j & _ & Hk & _). cbn.
  do 11 (destruct j; [by injection Hk as <-|]). done.
Qed.

Lemma counts_eof s : counts (Some (mkToken eofTok s)) = 0.
Proof. done. Qed.
Lemma counts_le buf : counts buf ≤ 1.
Proof. destruct buf; cbn; [case_decide|]; lia. Qed.

Lemma scan_loop_counts text input t buf rest :
  scan_loop text input = (t, buf, rest) →
  2 * length rest + counts buf + counts (Some t) ≤ 2 * length input + match text with [] => 0 | _ => 1 end.
Proof.
  revert text. induction input as [|c input IH]; intros text.
  - cbn [scan_loop]. destruct text as [|d text]; intros [= <- <- <-]; [done|].
    rewrite newTextualTok_counts, counts_eof. cbn. lia.
  - cbn [scan_loop]. destruct (Ascii.eqb c carriage); [intros Hs%IH; cbn [length]; lia|].
    destruct (Ascii.eqb c "*"); [intros [= <- <- <-]; pose proof (counts_le (Some (mkToken starTok "*"))); cbn [length counts] in *; lia|].
    destruct (Ascii.eqb c tab); [intros [= <- <- <-];
      pose proof (counts_le (Some (mkToken whitespaceTok (single tab)))); cbn [length counts] in *; lia|].
    destruct (delimiter c) as [d|].
    + destruct text as [|e text]; intros [= <- <- <-].
      * pose proof (counts_le (Some d)). cbn [length counts] in *. lia.
      * rewrite newTextualTok_counts. pose proof (counts_le (Some d)). cbn [length] in *. lia.
    + intros Hs%IH. cbn [length] in *. destruct text; lia.
Qed.

(** ** New table names *)
Lemma alias_name_inj m n : 1 ≤ m → 1 ≤ n → alias_name m = alias_name n → m = n.
Proof.
  unfold alias_name. intros Hm Hn. repeat case_decide; subst; try done.
  - intros Heq. exfalso. apply (strconv_Itoa_nonempty (Z.of_nat n)).
    by destruct (strconv_Itoa (Z.of_nat n)).
  - intros Heq. exfalso. apply (strconv_Itoa_nonempty (Z.of_nat m)).
    by destruct (strconv_Itoa (Z.of_nat m)).
  - intros Heq. apply (inj (String.append "ds")) in Heq. apply strconv_Itoa_inj in Heq. lia.
Qed.

(** The loop stops at the first name that is not in use. *)
Lemma newTableName_loop_run fuel p :
  (∃ n p', newTableName_loop fuel p = (Ok (alias_name n), p') ∧ alias_name n ∉ aliases p ∧
     p' = set_aliases ({[ alias_name n ]} ∪ aliases p) (set_autoAliased n p)) ∨
  ∀ k, k < fuel → alias_name (S (autoAliased p + k)) ∈ aliases p.
Proof.
  revert p. induction fuel as [|fuel IH]; intros p; [right; lia|]. cbn [newTableName_loop].
  destruct (decide _) as [Hin|Hout].
  - destruct (IH (set_autoAliased (S (autoAliased p)) p)) as [(n & p' & -> & Hn & ->)|Hall].
    + left. by exists n; eexists.
    + right. intros [|k] Hk; [by rewrite Nat.add_0_r|].
      specialize (Hall k ltac:(lia)). cbn in Hall. by rewrite Nat.add_succ_r.
  - left. by exists (S (autoAliased p)); eexists.
Qed.

(** A new alias is new. Looking for a name ends within as many tries as
    aliases are in use, and finds one that is not among them. *)
Theorem newTableName_fresh p :
  ∃ n p', newTableName p = (Ok (alias_name n), p') ∧ alias_name n ∉ aliases p ∧
    p' = set_aliases ({[ alias_name n ]} ∪ aliases p) (set_autoAliased n p).
Proof.
  destruct (newTableName_loop_run (S (size (aliases p))) p) as [Hok|Hall]; [exact Hok|exfalso].
  set (names := map (λ k, alias_name (S (autoAliased p + k))) (seq 0 (S (size (aliases p))))).
  assert (NoDup names) as Hnd.
  { apply NoDup_fmap_2_strong; [|apply NoDup_seq].
    intros x y _ _ Heq%alias_name_inj; lia. }
  assert (list_to_set names ⊆ aliases p) as Hsub.
  { intros a. rewrite elem_of_list_to_set. intros (k & -> & Hk)%list_elem_of_fmap.
    apply Hall. apply elem_of_seq in Hk. lia. }
  apply subseteq_size in Hsub. rewrite size_list_to_set in Hsub by done.
  unfold names in Hsub. rewrite length_map, length_seq in Hsub. lia.
Qed.

(** ** An invariant of both passes

    [I] is kept by each change the parsers make; then it is kept by the
    parsers, which end when they have more fuel than is left to scan. *)
Section passes.
Context (I : processor → Prop).
Record kept : Prop := mkKept {
  kept_scan : ∀ p x y z, I p → I (set_r x (set_scanBuf y (set_parseBuf z p)));
  kept_write : ∀ p s, I p → I (set_processed (processed p +:+ s) p);
  kept_nesting : ∀ p n, I p → I (set_nesting n p);
  kept_alias : ∀ p a n, I p → I (set_aliases ({[ a ]} ∪ aliases p) (set_autoAliased n p));
  kept_table : ∀ p text, I p →
    I (set_processed (processed p +:+ toLegalName text) (set_mapping (<[toLegalName text := text]> (mapping p)) p));
}.
Hypothesis HI : kept.

(** The computation keeps the invariant, does not panic, and leaves at most
    [n] to scan. *)
Definition ends {A} (n : nat) (m : M A) (p : processor) : Prop :=
  I (m p).2 ∧ (m p).1 ≠ Panic ∧ left_to_scan (m p).2 ≤ n.

Lemma ends_bind {A B} k n (m : M A) (f : A → M B) p :
  ends k m p → (∀ a p', m p = (Ok a, p') → I p' → left_to_scan p' ≤ k → ends n (f a) p') → k ≤ n →
  ends n (m ≫= f) p.
Proof.
  intros (Hi & Hp & Hl) Hf Hkn. unfold ends, mbind, stM_bind.
  destruct (m p) as [[a|e|] p'] eqn:Hm; cbn [fst snd] in *; [by apply Hf| |done].
  split_and!; [done..|lia].
Qed.

(** A step that leaves the buffers alone, and one that needs no bound *)
Lemma ends_step {A} n (m : M A) p :
  I (m p).2 → (m p).1 ≠ Panic → left_to_scan (m p).2 = left_to_scan p → left_to_scan p ≤ n → ends n m p.
Proof. intros Hi Hp Hl Hn. split_and!; [done..|lia]. Qed.
Lemma ends_then {A B} n (m : M A) (f : A → M B) p :
  I (m p).2 → (m p).1 ≠ Panic → left_to_scan (m p).2 = left_to_scan p → left_to_scan p ≤ n →
  (∀ a p', m p = (Ok a, p') → I p' → left_to_scan p' = left_to_scan p → ends n (f a) p') → ends n (m ≫= f) p.
Proof.
  intros Hi Hp Hl Hn Hf. unfold ends, mbind, stM_bind.
  destruct (m p) as [[a|e|] p'] eqn:Hm; cbn [fst snd] in *; [by apply Hf| |done].
  split_and!; [done..|lia].
Qed.

Lemma ends_ret {A} n (a : A) p : I p → left_to_scan p ≤ n → ends n (mret a) p.
Proof. done. Qed.
Lemma ends_fail {A} n e p : I p → left_to_scan p ≤ n → ends n (st_fail (A := A) e) p.
Proof. done. Qed.
Lemma ends_get {B} n (f : processor → M B) p : ends n (f p) p → ends n (st_get ≫= f) p.
Proof. done. Qed.
Lemma ends_write {B} n s (f : unit → M B) p :
  (∀ p', I p' → left_to_scan p' = left_to_scan p → ends n (f tt) p') → I p → ends n (WriteString s ≫= f) p.
Proof. intros Hf Hi. apply (Hf (set_processed (processed p +:+ s) p)); [by apply kept_write|done]. Qed.
Lemma ends_write_end n s p : I p → left_to_scan p ≤ n → ends n (WriteString s) p.
Proof. intros Hi Hn. split_and!; [by apply kept_write|done|done]. Qed.
Lemma ends_nesting {B} n g (f : unit → M B) p :
  (∀ p', I p' → left_to_scan p' = left_to_scan p → ends n (f tt) p') → I p →
  ends n (st_modify (λ p, set_nesting (g p) p) ≫= f) p.
Proof. intros Hf Hi. apply (Hf (set_nesting (g p) p)); [by apply kept_nesting|done]. Qed.

Lemma ends_scan {B} n (f : token → M B) p :
  I p → (∀ t p', I p' → left_to_scan p' + counts (Some t) ≤ left_to_scan p → ends n (f t) p') →
  ends n (scan ≫= f) p.
Proof.
  intros Hi Hf. unfold scan. destruct p as [inp pr mp au al pb sb ne].
  assert (∃ t p', scan (mkProcessor inp pr mp au al pb sb ne) = (Ok t, p') ∧ I p' ∧
    left_to_scan p' + counts (Some t) ≤ left_to_scan (mkProcessor inp pr mp au al pb sb ne))
    as (t & p' & Hs & Hi' & Hl).
  2: { unfold ends. rewrite (bind_run scan _ _ _ _ Hs). by apply Hf. }
  unfold scan. cbn [parseBuf scanBuf r]. unfold left_to_scan at 2. cbn [parseBuf scanBuf r].
  destruct pb as [t|]; [|destruct sb as [t|]].
  - exists t. eexists. split; [done|]. split; [by apply (kept_scan HI _ inp sb None) in Hi|].
    unfold left_to_scan. cbn [r parseBuf scanBuf set_parseBuf set_scanBuf]. change (counts None) with 0. lia.
  - exists t. eexists. split; [done|]. split; [by apply (kept_scan HI _ inp None None) in Hi|].
    unfold left_to_scan. cbn [r parseBuf scanBuf set_parseBuf set_scanBuf]. change (counts None) with 0. lia.
  - destruct (scan_loop [] inp) as [[t buf] rest] eqn:Hs. exists t. eexists. split; [done|].
    split; [by apply (kept_scan HI _ rest buf None) in Hi|].
    apply scan_loop_counts in Hs. unfold left_to_scan.
    cbn [r parseBuf scanBuf set_parseBuf set_scanBuf set_r]. change (counts None) with 0. lia.
Qed.

Lemma ends_unscan n t p : I p → left_to_scan p + counts (Some t) ≤ n → ends n (unscan t) p.
Proof.
  intros Hi Hn. destruct p as [inp pr mp au al pb sb ne]. split_and!; [|done|].
  - by apply (kept_scan HI _ inp sb (Some t)) in Hi.
  - unfold left_to_scan in *. cbn [r parseBuf scanBuf unscan st_modify set_parseBuf snd] in *. lia.
Qed.

Lemma ends_newTableName {B} n (f : string → M B) p :
  (∀ a p', I p' → left_to_scan p' = left_to_scan p → ends n (f a) p') → I p → ends n (newTableName ≫= f) p.
Proof.
  intros Hf Hi. destruct (newTableName_fresh p) as (k & p' & Hrun & _ & ->). unfold ends.
  rewrite (bind_run newTableName _ _ _ _ Hrun). apply Hf; [by apply kept_alias|done].
Qed.

Lemma ends_alias {B} n a (f : unit → M B) p :
  (∀ p', I p' → left_to_scan p' = left_to_scan p → ends n (f tt) p') → I p →
  ends n (st_modify (λ p, set_aliases ({[ a ]} ∪ aliases p) p) ≫= f) p.
Proof.
  intros Hf Hi. apply (kept_alias HI p a (autoAliased p)) in Hi.
  apply (Hf (set_aliases ({[ a ]} ∪ aliases p) p)); [by destruct p|done].
Qed.

(** ** The parsers *)
Lemma counts_other t : tok_Type t ≠ eofTok → counts (Some t) = 1.
Proof. intros Ht. cbn. by rewrite decide_False. Qed.

Lemma ends_table_ref fuel n alias p :
  left_to_scan p < fuel → left_to_scan p ≤ n → I p → ends n (table_ref_loop fuel alias) p.
Proof.
  revert alias p. induction fuel as [|fuel IH]; intros alias p Hf Hn Hi; [lia|]. cbn [table_ref_loop].
  apply ends_scan; [done|]. intros t p1 Hi1 Hl1.
  assert (tok_Type t ≠ eofTok → ∀ alias' p', I p' → left_to_scan p' = left_to_scan p1 →
    ends n (table_ref_loop fuel alias') p') as Hrec.
  { intros Ht alias' p' Hi' Hl'. rewrite counts_other in Hl1 by done. apply IH; [lia..|done]. }
  assert (∀ ty, ends n ((if decide (alias = "")
           then alias ← newTableName; WriteString " ";; WriteString alias else mret tt);;
          if decide (ty = commaTok) then WriteString (tok_Text t) else unscan t) p1) as Hend.
  { intros ty. apply (ends_bind (left_to_scan p1)); [| |lia].
    - case_decide; [|by apply ends_ret].
      apply ends_newTableName; [|done]. intros a p2 Hi2 Hl2.
      apply ends_write; [|done]. intros p3 Hi3 Hl3. apply ends_write_end; [done|lia].
    - intros _ p2 _ Hi2 Hl2. case_decide; [apply ends_write_end; [done|lia]|].
      apply ends_unscan; [done|lia]. }
  destruct t as [[] x]; cbn [tok_Type tok_Text] in *; try apply Hend;
    (try (apply ends_write; [|done]; intros p2 Hi2 Hl2; by apply Hrec)).
  clear Hend. apply ends_get. case_decide; [apply ends_fail; [done|lia]|].
  apply ends_alias; [|done]. intros p2 Hi2 Hl2. apply ends_write; [|done]. intros p3 Hi3 Hl3.
  apply Hrec; [done|done|lia].
Qed.

Lemma ends_processTableRef fuel n text p :
  left_to_scan p < fuel → left_to_scan p ≤ n → I p → ends n (processTableRef fuel text) p.
Proof.
  intros Hf Hn Hi. unfold processTableRef. case_decide as Ht.
  - assert (ends n (table_ref_loop fuel "")
      (set_processed (processed p +:+ toLegalName text) (set_mapping (<[toLegalName text := text]> (mapping p)) p))) as Hend.
    { apply ends_table_ref; [done|done|]. by apply kept_table. }
    exact Hend.
  - by apply ends_table_ref.
Qed.

Lemma ends_pass_over {A B} n (m : M A) (f : unit → M B) p :
  ends (left_to_scan p) m p → (∀ p', I p' → left_to_scan p' ≤ left_to_scan p → ends n (f tt) p') →
  ends n (pass_over m ≫= f) p.
Proof.
  intros (Hi & Hp & Hl) Hf. unfold ends, mbind, stM_bind, pass_over.
  destruct (m p) as [[a|e|] p']; cbn [fst snd] in *; [by apply Hf..|done].
Qed.

Lemma ends_tables fuel :
  (∀ n n0 p, left_to_scan p < fuel → left_to_scan p ≤ n → I p → ends n (references_loop fuel n0) p) ∧
  (∀ n n0 p, left_to_scan p < fuel → left_to_scan p ≤ n → I p → ends n (table_refs_loop fuel n0) p).
Proof.
  induction fuel as [|fuel [IHr IHt]]; [split; intros; lia|].
  split; intros n n0 p Hf Hn Hi; cbn [references_loop table_refs_loop]; (apply ends_scan; [done|]);
    intros t p1 Hi1 Hl1.
  - assert (tok_Type t ≠ eofTok → ∀ p', I p' → left_to_scan p' ≤ left_to_scan p1 →
      ends n (references_loop fuel n0) p') as Hrec.
    { intros Ht p' Hi' Hl'. rewrite counts_other in Hl1 by done. apply IHr; [lia..|done]. }
    assert (tok_Type t ≠ eofTok → ends n (WriteString (tok_Text t);; references_loop fuel n0) p1) as Hplain.
    { intros Ht. apply ends_write; [|done]. intros p2 Hi2 Hl2. apply Hrec; [done..|lia]. }
    assert (tok_Type t ≠ eofTok → ends n (WriteString (tok_Text t);;
      p ← st_get; table_refs_loop fuel (nesting p);; references_loop fuel n0) p1) as Htables.
    { intros Ht. apply ends_write; [|done]. intros p2 Hi2 Hl2. apply ends_get.
      apply (ends_bind (left_to_scan p1)); [|intros _ p3 _ Hi3 Hl3; apply Hrec; [done..|lia]|lia].
      rewrite counts_other in Hl1 by done. apply IHt; [lia..|done]. }
    assert (tok_Type t ≠ eofTok → counts (Some t) = 1) as Hcount by apply counts_other.
    destruct (tok_Type t); try (by apply Hplain); try (by apply Htables); [apply ends_ret; [done|lia]|..].
    + apply ends_write; [|done]. intros p2 Hi2 Hl2. apply ends_nesting; [|done]. intros p3 Hi3 Hl3.
      apply ends_get. apply (ends_bind (left_to_scan p1)); [|intros _ p4 _ Hi4 Hl4; apply Hrec; [done..|lia]|lia].
      rewrite Hcount in Hl1 by done. apply IHr; [lia..|done].
    + apply ends_write; [|done]. intros p2 Hi2 Hl2. apply ends_nesting; [|done]. intros p3 Hi3 Hl3.
      apply ends_get. case_decide; [apply ends_ret; [done|lia]|]. apply Hrec; [done..|lia].
  - assert (tok_Type t ≠ eofTok → ∀ p', I p' → left_to_scan p' ≤ left_to_scan p1 →
      ends n (table_refs_loop fuel n0) p') as Hrec.
    { intros Ht p' Hi' Hl'. rewrite counts_other in Hl1 by done. apply IHt; [lia..|done]. }
    assert (∀ f : unit → M unit, (∀ p', I p' → left_to_scan p' = left_to_scan p1 → ends n (f tt) p') →
      ends n ((if decide (tok_Text t ≠ "") then WriteString (tok_Text t) else mret tt) ≫= f) p1) as Hwrite.
    { intros f Hf'. case_decide; [by apply ends_write|]. by apply (Hf' p1). }
    assert (tok_Type t ≠ eofTok → counts (Some t) = 1) as Hcount by apply counts_other.
    destruct (tok_Type t);
      try (apply Hwrite; intros p2 Hi2 Hl2; by first [apply ends_ret; [done|lia] | apply Hrec; [done..|lia]]).
    + rewrite Hcount in Hl1 by done. apply (ends_bind (left_to_scan p1)); [|intros _ p3 _ Hi3 Hl3; apply Hrec; [done..|lia]|lia].
      apply ends_processTableRef; [lia..|done].
    + apply Hwrite. intros p2 Hi2 Hl2. apply ends_fail; [done|lia].
    + rewrite Hcount in Hl1 by done. apply Hwrite. intros p2 Hi2 Hl2. apply ends_nesting; [|done]. intros p3 Hi3 Hl3.
      apply ends_get. apply (ends_bind (left_to_scan p1)); [|intros _ p4 _ Hi4 Hl4; apply Hrec; [done..|lia]|lia].
      apply IHr; [lia..|done].
    + rewrite Hcount in Hl1 by done. apply Hwrite. intros p2 Hi2 Hl2. apply ends_nesting; [|done]. intros p3 Hi3 Hl3.
      apply ends_get. clear Hwrite. case_decide; [apply ends_ret; [done|lia]|]. apply ends_pass_over.
      * apply ends_processTableRef; [lia..|done].
      * intros p4 Hi4 Hl4. apply Hrec; [done..|lia].
Qed.

Section second.
Context (ParseFloat_ok : string → bool).

Lemma ends_column n tok p : I p → left_to_scan p ≤ n → ends n (processColumnReference ParseFloat_ok tok) p.
Proof.
  intros Hi Hn. unfold processColumnReference. destruct (IsNumeric _ tok); [by apply ends_write_end|].
  destruct (count_dots _) as [|[|m]]; [|by apply ends_write_end|by apply ends_fail].
  apply ends_get. destruct (elements (aliases p)) as [|a [|]];
    [by apply ends_fail|by apply ends_write_end|by apply ends_fail].
Qed.

Lemma ends_select_cols fuel n p :
  left_to_scan p < fuel → left_to_scan p ≤ n → I p → ends n (processSelectCols ParseFloat_ok fuel) p.
Proof.
  revert p. induction fuel as [|fuel IH]; intros p Hf Hn Hi; [lia|]. cbn [processSelectCols].
  apply ends_scan; [done|]. intros t p1 Hi1 Hl1.
  assert (tok_Type t ≠ eofTok → ∀ p', I p' → left_to_scan p' ≤ left_to_scan p1 →
      ends n (processSelectCols ParseFloat_ok fuel) p') as Hrec.
  { intros Ht p' Hi' Hl'. rewrite counts_other in Hl1 by done. apply IH; [lia..|done]. }
  destruct (IsKeyword t); [apply ends_unscan; [done|lia]|].
  assert (tok_Type t ≠ eofTok → ends n (WriteString (tok_Text t);; processSelectCols ParseFloat_ok fuel) p1) as Hplain.
  { intros Ht. apply ends_write; [|done]. intros p2 Hi2 Hl2. apply Hrec; [done..|lia]. }
  destruct (tok_Type t); try (by apply Hplain); [apply ends_ret; [done|lia]|].
  apply (ends_bind (left_to_scan p1)); [by apply ends_column|intros _ p2 _ Hi2 Hl2; apply Hrec; [done..|lia]|lia].
Qed.

Lemma ends_selects fuel n p :
  left_to_scan p < fuel → left_to_scan p ≤ n → I p → ends n (processSelects ParseFloat_ok fuel) p.
Proof.
  revert p. induction fuel as [|fuel IH]; intros p Hf Hn Hi; [lia|]. cbn [processSelects].
  apply ends_scan; [done|]. intros t p1 Hi1 Hl1.
  assert (tok_Type t ≠ eofTok → ∀ p', I p' → left_to_scan p' ≤ left_to_scan p1 →
      ends n (processSelects ParseFloat_ok fuel) p') as Hrec.
  { intros Ht p' Hi' Hl'. rewrite counts_other in Hl1 by done. apply IH; [lia..|done]. }
  assert (tok_Type t ≠ eofTok → ends n (WriteString (tok_Text t);; processSelects ParseFloat_ok fuel) p1) as Hplain.
  { intros Ht. apply ends_write; [|done]. intros p2 Hi2 Hl2. apply Hrec; [done..|lia]. }
  assert (tok_Type t ≠ eofTok → counts (Some t) = 1) as Hcount by apply counts_other.
  destruct (tok_Type t); try (by apply Hplain); [apply ends_ret; [done|lia]|].
  apply ends_write; [|done]. intros p2 Hi2 Hl2. rewrite Hcount in Hl1 by done.
  apply (ends_bind (left_to_scan p1)); [|intros _ p3 _ Hi3 Hl3; apply Hrec; [done..|lia]|lia].
  apply ends_select_cols; [lia..|done].
Qed.
End second.
End passes.

Lemma left_to_scan_fuel p : left_to_scan p < input_fuel p.
Proof.
  unfold left_to_scan, input_fuel. pose proof (counts_le (parseBuf p)). pose proof (counts_le (scanBuf p)). lia.
Qed.

(** What both passes keep, they keep with the restart between them. *)
Lemma Process_keeps (I : processor → Prop) ParseFloat_ok p :
  kept I → (∀ p, I p → I (set_r (NewReader (processed p)) (set_processed "" p))) → I p →
  I (Process ParseFloat_ok p).2 ∧ (Process ParseFloat_ok p).1 ≠ Panic.
Proof.
  intros HI Hrestart Hi.
  pose proof (proj1 (ends_tables I HI (input_fuel p)) (left_to_scan p) (nesting p) p
    (left_to_scan_fuel p) (le_n _) Hi) as He.
  assert (ends I (left_to_scan p) (processReferences (input_fuel p)) p) as (Hi1 & Hp1 & _) by exact He.
  unfold Process. rewrite (bind_run st_get _ p p p) by done.
  destruct (processReferences (input_fuel p) p) as [[[]|e|] p1] eqn:Hrun; cbn [fst snd] in *; [| |done].
  2: { unfold mbind, stM_bind. by rewrite Hrun. }
  rewrite (bind_run _ _ _ _ _ Hrun).
  set (p2 := set_r (NewReader (processed p1)) (set_processed "" p1)).
  assert (I p2) as Hi2 by by apply Hrestart.
  rewrite (bind_run (st_modify _) _ p1 tt p2) by done. rewrite (bind_run st_get _ p2 p2 p2) by done.
  destruct (ends_selects I HI ParseFloat_ok (input_fuel p2) (left_to_scan p2) p2
    (left_to_scan_fuel p2) (le_n _) Hi2) as (Hi3 & Hp3 & _). done.
Qed.

(** C37: the preprocessor ends on every query: with or without an error, and
    never short of the fuel that two tokens per character are. *)
Theorem Query_ends ParseFloat_ok query : (Query ParseFloat_ok query).2 ≠ Panic.
Proof.
  unfold Query. destruct (Process_keeps (λ _, True) ParseFloat_ok (newProcessor query)) as [_ Hp]; [done..|].
  by destruct (Process ParseFloat_ok (newProcessor query)).
Qed.

(** The mapping names tables legally. Every entry of the mapping a query
    yields leads from a name without [/] and [-] to the reference the name was
    made from, whatever the query. *)
Theorem Query_mapping ParseFloat_ok query name ref :
  (Query ParseFloat_ok query).1.2 !! name = Some ref →
  name = toLegalName ref ∧ Forall (λ c, c ≠ "/"%char ∧ c ≠ "-"%char) (bytes name).
Proof.
  intros Hm. assert (name = toLegalName ref) as ->.
  { destruct (Process_keeps (λ p, ∀ n t, mapping p !! n = Some t → n = toLegalName t) ParseFloat_ok (newProcessor query))
      as [Hi _]; [|done|done|].
    - split; try done. intros p text Hi n t. cbn. rewrite lookup_insert_Some. intros [[<- <-]|[_ Hn]]; [done|by apply Hi].
    - unfold Query in Hm. destruct (Process ParseFloat_ok (newProcessor query)). by apply Hi. }
  split; [done|]. unfold toLegalName. rewrite bytes_of_bytes. unfold replace_all.
  rewrite !Forall_map, Forall_forall. intros c _. cbn.
  destruct (Ascii.eqb c "/") eqn:E1; [done|]. apply Ascii.eqb_neq in E1.
  destruct (Ascii.eqb c "-") eqn:E2; [done|]. by apply Ascii.eqb_neq in E2.
Qed.

(** ** What the scanner keeps *)
(** Printable characters, without the star, spaces and line breaks *)
Definition is_plain (c : ascii) : bool := in_range 33 126 c && negb (Ascii.eqb c "*").
Definition is_clean (c : ascii) : bool := is_plain c || Ascii.eqb c " " || Ascii.eqb c newline.

(** A property of all bytes, by trying them *)
Lemma all_bytes (P : ascii → bool) : forallb (λ n, P (ascii_of_nat n)) (seq 0 256) = true → ∀ c, P c = true.
Proof.
  intros Hall c. rewrite <- (ascii_nat_embedding c). rewrite forallb_forall in Hall. apply Hall.
  apply in_seq. pose proof (nat_ascii_bounded c). lia.
Qed.

Definition starts_none (ps : list (list ascii)) (c : ascii) : bool :=
  forallb (λ p, match p with d :: _ => negb (Ascii.eqb d c) | [] => false end) ps.
Lemma starts_none_spec ps c l : starts_none ps c = true → first_prefix ps (c :: l) = None.
Proof.
  induction ps as [|[|d p] ps IH]; cbn; [done|done|]. rewrite andb_true_iff, negb_true_iff.
  intros [Hd Hps]. apply Ascii.eqb_neq in Hd. by rewrite decide_False by done; apply IH.
Qed.

Lemma plain_not_space c l :
  is_plain c = true →
  first_prefix white_space (c :: l) = None ∧ first_prefix (map reverse white_space) (c :: l) = None.
Proof.
  intros Hc. pose proof (all_bytes (λ c, implb (is_plain c)
    (starts_none white_space c && starts_none (map reverse white_space) c)) ltac:(vm_compute; reflexivity) c) as Hb.
  cbn beta in Hb. rewrite Hc in Hb. cbn [implb] in Hb. apply andb_true_iff in Hb as [H1 H2].
  split; by apply starts_none_spec.
Qed.

Lemma trim_left_plain fuel ps l :
  (∀ c l', l = c :: l' → first_prefix ps l = None) → ps ≠ [] → first_prefix ps [] = None →
  trim_left fuel ps l = l.
Proof.
  intros Hc _ Hnil. destruct fuel as [|fuel]; [done|]. cbn [trim_left].
  destruct l as [|c l]; [by rewrite Hnil|]. by rewrite (Hc c l).
Qed.

Lemma TrimSpace_plain l : Forall (λ c, is_plain c = true) l → TrimSpace l = l.
Proof.
  intros Hl. unfold TrimSpace. rewrite (trim_left_plain _ white_space l); [|intros c l' ->|discriminate|reflexivity].
  - rewrite trim_left_plain; [by rewrite reverse_involutive|intros c l' Heq|discriminate|reflexivity].
    rewrite Heq. refine (proj2 (plain_not_space c l' _)).
    rewrite Forall_forall in Hl. apply Hl. apply elem_of_reverse. rewrite Heq. by left.
  - apply Forall_cons in Hl as [Hc _]. exact (proj1 (plain_not_space c l' Hc)).
Qed.

Lemma newTextualTok_text l : tok_Text (newTextualTok l) = of_bytes (TrimSpace l).
Proof. unfold newTextualTok. by destruct (find_index_from _ _ _) as [[]|]. Qed.

Definition buf_text (buf : option token) : list ascii := from_option (bytes ∘ tok_Text) [] buf.

Lemma delimiter_clean c t : is_clean c = true → delimiter c = Some t → bytes (tok_Text t) = [c] ∧ tok_Type t ≠ eofTok.
Proof.
  unfold delimiter. destruct (Ascii.eqb_spec c newline) as [->|_]; [intros _ [= <-]; done|].
  destruct (Ascii.eqb_spec c "(") as [->|_]; [intros _ [= <-]; done|].
  destruct (Ascii.eqb_spec c ")") as [->|_]; [intros _ [= <-]; done|].
  destruct (Ascii.eqb_spec c ",") as [->|_]; [intros _ [= <-]; done|].
  destruct (Ascii.eqb_spec c " ") as [->|_]; [intros _ [= <-]; done|].
  destruct (Ascii.eqb_spec c zero_rune) as [->|_]; [intros Hc; discriminate Hc|done].
Qed.

Lemma clean_not_dropped c : is_clean c = true →
  Ascii.eqb c carriage = false ∧ Ascii.eqb c "*" = false ∧ Ascii.eqb c tab = false.
Proof.
  intros Hc. pose proof (all_bytes (λ c, implb (is_clean c)
    (negb (Ascii.eqb c carriage) && negb (Ascii.eqb c "*") && negb (Ascii.eqb c tab))) ltac:(vm_compute; reflexivity) c) as Hb.
  cbn beta in Hb. rewrite Hc in Hb. cbn [implb] in Hb. rewrite !andb_true_iff, !negb_true_iff in Hb. tauto.
Qed.

Lemma not_delimiter_plain c : is_clean c = true → delimiter c = None → is_plain c = true.
Proof.
  intros Hc Hd. pose proof (all_bytes (λ c, implb (is_clean c)
    (is_plain c || match delimiter c with Some _ => true | None => false end)) ltac:(vm_compute; reflexivity) c) as Hb.
  cbn beta in Hb. rewrite Hc, Hd in Hb. cbn [implb] in Hb. by rewrite orb_false_r in Hb.
Qed.

Lemma runes_clean l : Forall (λ c, is_clean c = true) l → runes l = l.
Proof.
  induction 1 as [|c l Hc _ IH]; [done|]. cbn [runes].
  pose proof (all_bytes (λ c, implb (is_clean c) (in_range 0 127 c)) ltac:(vm_compute; reflexivity) c) as Hb.
  cbn beta in Hb. rewrite Hc in Hb. cbn [implb] in Hb. by rewrite Hb, IH.
Qed.

(** One scan of clean input: the token, the one kept back and the input left
    are the text. *)
Lemma scan_loop_text text input t buf rest :
  Forall (λ c, is_clean c = true) input → Forall (λ c, is_plain c = true) text →
  scan_loop text input = (t, buf, rest) →
  rev text ++ input = bytes (tok_Text t) ++ buf_text buf ++ rest ∧ Forall (λ c, is_clean c = true) rest ∧
  (tok_Type t = eofTok → text = [] ∧ input = []) ∧
  (∀ t', buf = Some t' → tok_Type t' = eofTok → rest = [] ∧ tok_Text t' = "").
Proof.
  revert text. induction input as [|c input IH]; intros text Hin Htext; cbn [scan_loop].
  - destruct text as [|d text]; intros [= <- <- <-]; [done|].
    rewrite newTextualTok_text, bytes_of_bytes, TrimSpace_plain by exact (List.Forall_rev Htext).
    split_and!; [done|done| |by intros t' [= <-]].
    intros Ht. pose proof (newTextualTok_counts (rev (d :: text))) as Hc.
    cbn [counts] in Hc. by rewrite decide_True in Hc.
  - apply Forall_cons in Hin as [Hc Hin]. destruct (clean_not_dropped c Hc) as (-> & -> & ->).
    destruct (delimiter c) as [d|] eqn:Hd.
    + destruct (delimiter_clean c d Hc Hd) as [Hdt Hdn]. destruct text as [|e text]; intros [= <- <- <-].
      * split_and!; [by rewrite Hdt|done..].
      * rewrite newTextualTok_text, bytes_of_bytes, TrimSpace_plain by exact (List.Forall_rev Htext).
        cbn [buf_text from_option compose]. unfold compose. rewrite Hdt. split_and!; [done|done| |by intros t' [= <-]].
        intros Ht. pose proof (newTextualTok_counts (rev (e :: text))) as Hn.
        cbn [counts] in Hn. by rewrite decide_True in Hn.
    + intros Hs. apply IH in Hs as (Heq & Hrest & He & Hbuf); [|done|].
      * cbn [rev] in Heq. rewrite <- app_assoc in Heq. split_and!; [done|done| |done].
        intros Ht. by destruct (He Ht).
      * constructor; [by apply not_delimiter_plain|done].
Qed.

(** The texts of the tokens up to the end of the input *)
Fixpoint scan_all (fuel : nat) (p : processor) : list ascii :=
  match fuel with
  | O => []
  | S fuel =>
      match scan p with
      | (Ok t, p') => if decide (tok_Type t = eofTok) then [] else bytes (tok_Text t) ++ scan_all fuel p'
      | _ => []
      end
  end.

Lemma scan_all_text fuel p :
  left_to_scan p < fuel → parseBuf p = None → Forall (λ c, is_clean c = true) (r p) →
  (∀ t, scanBuf p = Some t → tok_Type t = eofTok → r p = [] ∧ tok_Text t = "") →
  scan_all fuel p = buf_text (scanBuf p) ++ r p.
Proof.
  revert p. induction fuel as [|fuel IH]; intros p Hf Hpb Hr Hsb; [lia|].
  destruct p as [inp pr mp au al pb sb ne]. cbn in Hpb, Hr, Hsb. subst pb. cbn [scan_all].
  unfold scan. cbn [parseBuf scanBuf r]. destruct sb as [t|].
  - case_decide as Ht.
    + destruct (Hsb t eq_refl Ht) as [-> Htext]. cbn. by rewrite Htext.
    + unfold left_to_scan in Hf. cbn [parseBuf scanBuf r] in Hf. rewrite counts_other in Hf by done.
      rewrite IH; [done| |done|done|done].
      unfold left_to_scan. cbn [parseBuf scanBuf r set_scanBuf]. change (counts None) with 0 in *. lia.
  - destruct (scan_loop [] inp) as [[t buf] rest] eqn:Hs.
    pose proof (scan_loop_counts _ _ _ _ _ Hs) as Hcount.
    destruct (scan_loop_text [] inp t buf rest Hr (Forall_nil_2 _) Hs) as (Heq & Hrest & He & Hbuf).
    cbn [rev app] in Heq. case_decide as Ht; [by destruct (He Ht) as [_ ->]|].
    rewrite IH; [done| |done|done|].
    + unfold left_to_scan in *. cbn [parseBuf scanBuf r set_scanBuf set_r] in *.
      rewrite counts_other in Hcount by done. change (counts None) with 0 in *. lia.
    + intros t' Ht' Hty. exact (Hbuf t' Ht' Hty).
Qed.

(** The scanner keeps clean text. The tokens of a text of printable
    characters, spaces and line breaks without a star spell the text. *)
Theorem scan_lossless s :
  Forall (λ c, is_clean c = true) (bytes s) → of_bytes (scan_all (input_fuel (newProcessor s)) (newProcessor s)) = s.
Proof.
  intros Hs. assert (NewReader s = bytes s) as Hr by by apply runes_clean.
  rewrite scan_all_text; [cbn [scanBuf newProcessor buf_text from_option app r]|apply left_to_scan_fuel|done| |done].
  - rewrite Hr. apply of_bytes_bytes.
  - cbn [r newProcessor]. by rewrite Hr.
Qed.

(** A star or a tab drops the text before it. Whatever text runs up to one,
    the token scanned is the star or the tab, and the text is in no token. *)
Theorem scan_drops_text text rest p :
  Forall (λ c, is_plain c = true ∧ delimiter c = None) text →
  ∀ c, c = "*"%char ∨ c = tab → parseBuf p = None → scanBuf p = None → r p = text ++ c :: rest →
  ∃ ty, scan p = (Ok (mkToken ty (single c)), set_r rest p).
Proof.
  intros Htext c Hc Hpb Hsb Hr. unfold scan. rewrite Hpb, Hsb, Hr.
  assert (∀ acc, ∃ ty, scan_loop acc (text ++ c :: rest) = (mkToken ty (single c), None, rest)) as Hloop.
  { clear Hr. induction Htext as [|d text [Hd Hdel] _ IH]; intros acc; cbn [scan_loop app].
    - by destruct Hc as [-> | ->]; eexists.
    - assert (is_clean d = true) as Hcl by (unfold is_clean; by rewrite Hd).
      destruct (clean_not_dropped d Hcl) as (-> & -> & ->). rewrite Hdel. apply IH. }
  destruct (Hloop []) as [ty ->]. exists ty. do 2 f_equal. destruct p. cbn in *. by subst.
Qed.

Lemma forallb_clean (f : ascii → bool) l : forallb f l = true → Forall (λ c, f c = true) l.
Proof. intros Hl. apply Forall_forall. intros c Hc. apply list_elem_of_In in Hc. by eapply forallb_forall in Hl. Qed.

(** ** The theorems at work *)
Lemma Query_mapping_witness :
  "b5_country_codes" = toLegalName "b5/country-codes".
Proof.
  apply (Query_mapping test_float "select foo from b5/country-codes").
  vm_compute. reflexivity.
Defined.

Lemma scan_lossless_witness :
  of_bytes (scan_all (input_fuel (newProcessor "select a, b from b5/world w")) (newProcessor "select a, b from b5/world w")) =
    "select a, b from b5/world w".
Proof. apply scan_lossless. apply forallb_clean. vm_compute. reflexivity. Defined.

(** A product in a query loses its first factor. *)
Lemma scan_drops_text_witness :
  (∃ ty, scan (newProcessor "price*2") = (Ok (mkToken ty "*"), set_r (bytes "2") (newProcessor "price*2"))) ∧
  query_text "select w.price*2 from b5/world w" = "select *2 from b5_world w".
Proof.
  split; [|vm_compute; reflexivity].
  apply (scan_drops_text (bytes "price") (bytes "2") (newProcessor "price*2"));
    [|by left|reflexivity..].
  repeat (constructor; [split; vm_compute; reflexivity|]). constructor.
Defined.

(** Two references that share a legal name share an entry. *)
Example legal_names_collide :
  (Query test_float "select x.a from b5/sales-2019 x, b5/sales_2019 y").1.2 = {[ "b5_sales_2019" := "b5/sales_2019" ]}.
Proof. vm_compute. reflexivity. Qed.
