(* ===== verification/RegistrySpec.v ===== *)
(** * Theorems of the registry

    Whose profiles a registry holds, what a client's calls do at a server, and
    what the rules do not protect. *)
From S2P Require Export RegistryHttp.

(** ** Every entry is signed by its key *)
Section safety.
Context `{K : Keys, J : RegistryJSON} {S : Type} `{L : ProfilesLaws S}.

Definition verified (m : gmap string Profile) : Prop :=
  ∀ key p, m !! key = Some p → p_Username p = key ∧ accepted p.

(** Computations that keep it *)
Definition safe {A} (m : stM S A) : Prop := ∀ s, verified (entries s) → verified (entries (m s).2).

Lemma safe_same {A} (m : stM S A) : (∀ s, (m s).2 = s) → safe m.
Proof. intros Hm s Hs. by rewrite Hm. Qed.

Lemma safe_bind {A B} (m : stM S A) (k : A → stM S B) : safe m → (∀ a, safe (k a)) → safe (m ≫= k).
Proof.
  intros Hm Hk s Hs. specialize (Hm s Hs). unfold mbind, stM_bind.
  destruct (m s) as [[a|e|] s']; [|done..]. by apply Hk.
Qed.

Lemma safe_answer {A} code (m : stM S A) k : safe m → (∀ a, safe (k a)) → safe (or_status code m k).
Proof.
  intros Hm Hk s Hs. specialize (Hm s Hs). unfold or_status.
  destruct (m s) as [[a|e|] s']; [|done..]. by apply Hk.
Qed.

Lemma verified_insert key p m : p_Username p = key → accepted p → verified m → verified (<[key := p]> m).
Proof. intros Hk Hp Hm k q. intros [[<- <-]|[_ Hq]]%lookup_insert_Some; [done|by apply Hm]. Qed.
Lemma verified_delete key m : verified m → verified (delete key m).
Proof. intros Hm k q. intros [_ Hq]%lookup_delete_Some. by apply Hm. Qed.

Lemma safe_refused {A} p (k : stM S A) : ¬ accepted p → safe (st_lift (Validate p);; st_lift (Verify p);; k).
Proof. intros Hp s Hs. destruct (refused_run p k s Hp) as (r & _ & ->). done. Qed.

Lemma safe_RegisterProfile now p : safe (RegisterProfile now p).
Proof.
  destruct (decide (accepted p)) as [Hacc|Hn]; [|by apply safe_refused].
  intros s Hs. destruct (entries s !! p_Username p) as [q|] eqn:Hq.
  - by rewrite (RegisterProfile_held now p q s Hacc Hq).
  - destruct (RegisterProfile_free now p s Hacc Hq) as (l & s' & _ & _ & -> & Hs').
    cbn [snd]. rewrite Hs'. apply verified_insert; [by destruct p|by apply accepted_Created|].
    case_decide; [by apply verified_delete|done].
Qed.

Lemma safe_UpdateProfile p : safe (UpdateProfile p).
Proof.
  destruct (decide (accepted p)) as [Hacc|Hn]; [|by apply safe_refused].
  intros s Hs. destruct (UpdateProfile_run p s Hacc) as (s' & -> & Hs').
  cbn [snd]. rewrite Hs'. by apply verified_insert.
Qed.

Lemma safe_DeregisterProfile p : safe (DeregisterProfile p).
Proof.
  destruct (decide (accepted p)) as [Hacc|Hn]; [|by apply safe_refused].
  intros s Hs. destruct (DeregisterProfile_run p s Hacc) as (s' & -> & Hs').
  cbn [snd]. rewrite Hs'. by apply verified_delete.
Qed.

(** A lookup does not change the set. *)
Lemma get_profile_same p s : (attempt (get_profile p) s).2 = s.
Proof.
  unfold attempt, get_profile. case_decide.
  - rewrite Load_entries. by destruct (entries s !! _).
  - unfold mbind, stM_bind, st_get. by destruct (Profiles_Range _ _ _) as [[]] eqn:?; destruct p0 as [? []].
Qed.

Lemma safe_ProfileHandler now r : safe (ProfileHandler now r).
Proof.
  unfold ProfileHandler. apply safe_answer; [by apply safe_same|]. intros p.
  repeat case_decide; [|apply safe_answer..|by apply safe_same].
  - apply safe_bind; [apply safe_same, get_profile_same|]. intros a. by apply safe_same.
  - apply safe_RegisterProfile.
  - intros a. by apply safe_same.
  - apply safe_UpdateProfile.
  - intros a. by apply safe_same.
  - apply safe_DeregisterProfile.
  - intros a. by apply safe_same.
Qed.

Lemma safe_ProfilesHandler r : rq_Method r ≠ "POST" → safe (ProfilesHandler r).
Proof.
  intros Hr. unfold ProfilesHandler. rewrite decide_False by done.
  case_decide; [|by apply safe_same].
  apply safe_answer; [apply safe_same; intros s; by rewrite Len_entries|]. intros l.
  apply safe_bind; [by apply safe_same|]. intros s0. case_decide; [by apply safe_same|].
  apply safe_same. intros s. by destruct (Profiles_SortedRange _ _ _) as [[] []].
Qed.

(** A request of the administrator *)
Definition administrative (username password : string) (r : RegRequest) : Prop :=
  rq_Path r = "/registry/profiles" ∧ rq_Method r = "POST" ∧ rq_BasicAuth r = Some (username, password).

(** C24: whatever requests reach a registry, in whatever order and at whatever
    times, as long as none of them bears the administrator's password: every
    profile in it stands under its own username, is complete, and carries a
    signature of that username that verifies with the public key beside it. *)
Theorem registry_verified username password rest reqs (s : S) :
  verified (entries s) → (∀ now r, (now, r) ∈ reqs → ¬ administrative username password r) →
  verified (entries (serve (BAProtector username password) rest reqs s)).
Proof.
  revert s. induction reqs as [|[now r] reqs IH]; intros s Hs Hreqs; [done|].
  cbn [serve]. apply IH; [|intros now' r' Hr; apply (Hreqs now'); set_solver].
  assert (¬ administrative username password r) as Hr by (apply (Hreqs now); set_solver).
  revert s Hs. change (safe (Routes (BAProtector username password) rest now r)). unfold Routes.
  case_decide; [apply safe_ProfileHandler|]. case_decide as Hpath; [|by apply safe_same].
  cbn [ProtectMethods auth_loop]. case_decide as Hauth; [by apply safe_same|].
  apply safe_ProfilesHandler. intros Hpost. apply Hr. split_and!; [done|done|].
  destruct (decide (rq_BasicAuth r = Some (username, password))) as [|Hn]; [done|].
  exfalso. apply Hauth. split; [by left|done].
Qed.
End safety.

(** ** A client at a server *)
Section client.
Context `{K : Keys, !KeysLaws K, J : RegistryJSON, JL : !RegistryJSONLaws J} {S : Type} `{L : ProfilesLaws S}.
Context (pro : Protector) (rest : RegRequest → RegResponse) (urls : string → option error).
Local Existing Instance served_registry.
#[local] Instance served : RegTransport (Server S) := served_registry pro rest urls.

(** A client of the registry [s] at the time [t] *)
Definition at_server (loc : string) (s : S) (t : Z) : option (Client (Server S)) :=
  Some (mkClient loc (mkServer s t)).

(** An address that can be called, and a time that can be written *)
Definition reachable (loc : string) : Prop := loc ≠ "" ∧ urls (loc +:+ "/registry/profile") = None.
Definition writable (t : Z) : Prop := (0 ≤ t ≤ int64_max)%Z.

(** The exchange, once the handler has answered a request with the body of [p] *)
Definition request_of (method d : string) : RegRequest := mkRegRequest method "/registry/profile" "application/json" None d.

Lemma exchange_run method p d loc s t res s' :
  reachable loc → Marshal_Profile p = Ok d → ProfileHandler t (request_of method d) s = (Ok res, s') →
  doJSONProfileReq method p (at_server loc s t) =
    (match Decode_Envelope (rs_Body res) with
     | Ok env =>
         if decide (rs_StatusCode res ≠ 200%Z) then
           if strings_Contains env.2 "taken" then Error ErrUsernameTaken
           else Error (Errorf "registry: %s" [env.2])
         else match env.1 with Some data => Ok (set_p_Peername (p_Username data) data) | None => Panic end
     | Error e => Error e
     | Panic => Panic
     end, at_server loc s' (t + 1)).
Proof.
  intros [Hloc Hurl] Hd Hh. unfold doJSONProfileReq, at_server, do_profile_req.
  unfold mbind at 1, stM_bind at 1, st_get. cbn [Location]. rewrite decide_False by done.
  unfold mbind at 1, stM_bind at 1, st_lift at 1. rewrite Hd.
  change (NewRequest_error (loc +:+ "/registry/profile")) with (urls (loc +:+ "/registry/profile")). rewrite Hurl.
  unfold mbind at 1, stM_bind at 1, st_zoom. cbn [conn Location reg_Do served served_registry srv_now srv_profiles].
  unfold Routes. rewrite decide_True by done. unfold request_of in Hh. rewrite Hh. cbn [set_client_conn Location].
  unfold mbind, stM_bind, st_lift, st_fail, mret, stM_ret.
  destruct (Decode_Envelope (rs_Body res)) as [[data text]|e|]; [|done..]. cbn [fst snd].
  repeat case_decide; [by destruct (strings_Contains text "taken")|by destruct data].
Qed.

(** The two answers of the handler *)
Lemma exchange_accepted method p d loc s t q s' :
  reachable loc → Marshal_Profile p = Ok d → json_keeps q →
  ProfileHandler t (request_of method d) s = (Ok (WriteResponse (OneProfile q)), s') →
  doJSONProfileReq method p (at_server loc s t) = (Ok (set_p_Peername (p_Username q) q), at_server loc s' (t + 1)).
Proof.
  intros Hloc Hd Hq Hh. rewrite (exchange_run _ _ _ _ _ _ _ _ Hloc Hd Hh).
  unfold WriteResponse. destruct (Decode_Marshal_Envelope q Hq) as (d' & -> & Henv).
  cbn [rs_Body rs_StatusCode]. by rewrite Henv.
Qed.

Lemma exchange_refused method p d loc s t e s' :
  reachable loc → Marshal_Profile p = Ok d → keeps_text (error_text e) →
  ProfileHandler t (request_of method d) s = (Ok (WriteErrResponse 400 e), s') →
  doJSONProfileReq method p (at_server loc s t) =
    (Error (if strings_Contains (error_text e) "taken" then ErrUsernameTaken
            else Errorf "registry: %s" [error_text e]), at_server loc s' (t + 1)).
Proof.
  intros Hloc Hd He Hh. rewrite (exchange_run _ _ _ _ _ _ _ _ Hloc Hd Hh).
  unfold WriteErrResponse. destruct (Decode_Marshal_error 400 _ He) as (d' & -> & Henv).
  cbn [rs_Body rs_StatusCode]. rewrite Henv. cbn [fst snd]. rewrite decide_True by done. by case_match.
Qed.

(** The handler on a body it reads *)
Lemma handler_run t method p d s : Decode_Profile d = Ok p →
  ProfileHandler t (request_of method d) s =
    (if decide (method = "GET") then
      found ← attempt (get_profile p);
      mret (match found with Some p => WriteResponse (OneProfile p) | None => NotFoundHandler end)
    else if decide (method = "POST") then
      or_bad_request (RegisterProfile t p) (λ p, mret (WriteResponse (OneProfile p)))
    else if decide (method = "PUT") then
      or_bad_request (UpdateProfile p) (λ _, mret (WriteResponse (OneProfile p)))
    else if decide (method = "DELETE") then
      or_bad_request (DeregisterProfile p) (λ _, mret (WriteResponse (OneProfile p)))
    else mret NotFoundHandler) s.
Proof.
  intros Hd. unfold ProfileHandler, or_bad_request at 1, or_status at 1, st_lift, read_body, request_of.
  cbn [rq_ContentType rq_Body rq_Method]. rewrite decide_True by done. by rewrite Hd.
Qed.

Lemma signed_run method p0 k p loc s t : (ProfileFromPrivateKey k p0).1 = Ok p →
  signed_req method p0 k (at_server loc s t) = doJSONProfileReq method p (at_server loc s t).
Proof. intros Hp. unfold signed_req, nil_client, at_server. unfold mbind, stM_bind, st_lift. by rewrite Hp. Qed.

(** What the server does with a registration of a free name *)
Lemma create_run loc s t name k p :
  reachable loc → writable t → name ≠ "" → (ProfileFromPrivateKey k (named_Profile name)).1 = Ok p → json_keeps p →
  entries s !! name = None →
  ∃ l s', CreateProfile (named_Profile name) k (at_server loc s t) =
      (Ok (set_p_Peername name (set_p_Created t p)), at_server loc s' (t + 1)) ∧
    l ≡ₚ map_to_list (entries s) ∧
    entries s' = <[name := set_p_Created t p]>
      (if decide (prev_name (p_ProfileID p) l "" ≠ "") then delete (prev_name (p_ProfileID p) l "") (entries s)
       else entries s).
Proof.
  intros Hloc Ht Hname Hp Hkeep Hfree.
  assert (p_Username p = name) as Hu by (by apply ProfileFromPrivateKey_fields in Hp as (-> & _)).
  pose proof (ProfileFromPrivateKey_accepted k (named_Profile name) p Hname Hp) as Hacc.
  rewrite <- Hu in Hfree. destruct (RegisterProfile_free t p s Hacc Hfree) as (l & s' & Hl & _ & Hreg & Hs').
  exists l, s'. rewrite Hu in Hs'. split; [|done].
  unfold CreateProfile. rewrite (signed_run _ _ _ _ _ _ _ Hp).
  destruct (Decode_Marshal_Profile p Hkeep) as (d & Hd & Hdec).
  rewrite <- Hu. apply (exchange_accepted "POST" p d loc s t (set_p_Created t p)); [done..|by apply keeps_Created|].
  rewrite (handler_run t "POST" p d s Hdec). unfold or_bad_request, or_status. decide_const. by rewrite Hreg.
Qed.

(** C31: a name that is free can be had. A client with a key registers it at the
    server; the profile it is answered carries the key's identifier, public key
    and signature and the server's time, and whoever asks the registry for the
    name afterwards is answered the same profile. Nobody with another
    identifier loses a name. *)
Theorem CreateProfile_registers loc s t name k p asked :
  reachable loc → writable t → name ≠ "" → (ProfileFromPrivateKey k (named_Profile name)).1 = Ok p → json_keeps p →
  entries s !! name = None → p_Username asked = name → json_keeps asked →
  ∃ s', let answer := Ok (set_p_Peername name (set_p_Created t p)) in
    CreateProfile (named_Profile name) k (at_server loc s t) = (answer, at_server loc s' (t + 1)) ∧
    GetProfile asked (at_server loc s' (t + 1)) = (answer, at_server loc s' (t + 1 + 1)) ∧
    accepted p ∧
    ∀ other q, entries s !! other = Some q → p_ProfileID q ≠ p_ProfileID p → entries s' !! other = Some q.
Proof.
  intros Hloc Ht Hname Hp Hkeep Hfree Hasked Haskedk.
  destruct (create_run loc s t name k p Hloc Ht Hname Hp Hkeep Hfree) as (l & s' & Hcreate & Hl & Hs').
  exists s'. cbv zeta. split_and!; [done| |exact (ProfileFromPrivateKey_accepted k (named_Profile name) p Hname Hp)|].
  - destruct (Decode_Marshal_Profile asked Haskedk) as (d & Hd & Hdec).
    assert (p_Username (set_p_Created t p) = name) as Hu by (by apply ProfileFromPrivateKey_fields in Hp as (? & _)).
    rewrite <- Hu. apply (exchange_accepted "GET" asked d); [done..|by apply keeps_Created|].
    rewrite (handler_run _ "GET" asked d s' Hdec). decide_const.
    unfold mbind, stM_bind, attempt, get_profile. rewrite decide_True by congruence.
    by rewrite Load_entries, Hasked, Hs', lookup_insert_eq.
  - intros other q Hother Hid. rewrite Hs'. rewrite lookup_insert_ne by congruence.
    case_decide as Hprev; [|done]. rewrite lookup_delete_ne; [done|]. intros Heq.
    destruct (prev_name_cases (p_ProfileID p) l "") as [|(q' & Hq' & Hqid)]; [done|].
    rewrite Heq in Hq'. rewrite Hl in Hq'. apply elem_of_map_to_list in Hq'. congruence.
Qed.

(** A name that somebody else has is refused. The client is told that the
    username is taken, and the registry is as it was. *)
Theorem CreateProfile_taken loc s t name k p q :
  reachable loc → name ≠ "" → (ProfileFromPrivateKey k (named_Profile name)).1 = Ok p → json_keeps p →
  keeps_text name → entries s !! name = Some q → p_ProfileID q ≠ p_ProfileID p →
  CreateProfile (named_Profile name) k (at_server loc s t) = (Error ErrUsernameTaken, at_server loc s (t + 1)).
Proof.
  intros Hloc Hname Hp Hkeep Htext Hq Hid.
  assert (p_Username p = name) as Hu by (by apply ProfileFromPrivateKey_fields in Hp as (-> & _)).
  pose proof (ProfileFromPrivateKey_accepted k (named_Profile name) p Hname Hp) as Hacc.
  destruct (Decode_Marshal_Profile p Hkeep) as (d & Hd & Hdec).
  unfold CreateProfile. rewrite (signed_run _ _ _ _ _ _ _ Hp).
  rewrite (exchange_refused "POST" p d loc s t (Errorf "username '%s' is taken" [p_Username p]) s); [|done..| |].
  - do 2 f_equal. replace (strings_Contains _ _) with true; [done|]. symmetry.
    cbn [error_text sprintf Ascii.eqb Bool.eqb head tail default]. apply (strings_Contains_app "username '").
    apply strings_Contains_app. apply (strings_Contains_app "' is "). apply (strings_Contains_self "taken" "").
  - apply keeps_message. by rewrite Hu.
  - rewrite (handler_run t "POST" p d s Hdec). unfold or_bad_request, or_status. decide_const.
    rewrite (RegisterProfile_held t p q s Hacc) by by rewrite Hu. by rewrite decide_False.
Qed.

(** A registration is not protected. Whoever holds any key can remove the
    profile under a name, whoever registered it: signing the name with that key
    is the proof of ownership that is asked for, and the stored profile is not
    looked at. The name is then free to be registered with the same key. *)
Theorem name_taken_over loc s t name q k p :
  reachable loc → writable (t + 1) → name ≠ "" → entries s !! name = Some q →
  (ProfileFromPrivateKey k (named_Profile name)).1 = Ok p → json_keeps p →
  ∃ s1 s2,
    DeleteProfile (named_Profile name) k (at_server loc s t) = (Ok tt, at_server loc s1 (t + 1)) ∧
    entries s1 = delete name (entries s) ∧
    CreateProfile (named_Profile name) k (at_server loc s1 (t + 1)) =
      (Ok (set_p_Peername name (set_p_Created (t + 1) p)), at_server loc s2 (t + 1 + 1)) ∧
    entries s2 !! name = Some (set_p_Created (t + 1) p).
Proof.
  intros Hloc Ht Hname Hq Hp Hkeep.
  assert (p_Username p = name) as Hu by (by apply ProfileFromPrivateKey_fields in Hp as (-> & _)).
  pose proof (ProfileFromPrivateKey_accepted k (named_Profile name) p Hname Hp) as Hacc.
  destruct (DeregisterProfile_run p s Hacc) as (s1 & Hdel & Hs1). rewrite Hu in Hs1.
  destruct (create_run loc s1 (t + 1) name k p Hloc Ht Hname Hp Hkeep) as (l & s2 & Hcreate & _ & Hs2).
  { by rewrite Hs1, lookup_delete_eq. }
  exists s1, s2. split_and!; [|done|done|by rewrite Hs2, lookup_insert_eq].
  destruct (Decode_Marshal_Profile p Hkeep) as (d & Hd & Hdec).
  unfold DeleteProfile, mbind, stM_bind. rewrite (signed_run _ _ _ _ _ _ _ Hp).
  rewrite (exchange_accepted "DELETE" p d loc s t p s1); [done..|].
  rewrite (handler_run t "DELETE" p d s Hdec). unfold or_bad_request, or_status. decide_const. by rewrite Hdel.
Qed.
End client.

(** ** A profile that changes its name *)
Section rename.
Context `{K : Keys, O : MapOrder}.

(** Registering a new name leaves the old one behind. The walk that looks
    for the name a profile has goes on where it finds one and stops where it
    does not, so that it sees no further than the first entry of somebody else:
    with such an entry at the head of the walk nothing is removed, and both
    names stand for the same identifier. *)
Theorem rename_keeps_old_name now p s old q key0 p0 walk :
  accepted p → ps s !! p_Username p = None →
  ps s !! old = Some q → p_ProfileID q = p_ProfileID p →
  map_entries (ps s) = (key0, p0) :: walk → p_ProfileID p0 ≠ p_ProfileID p →
  ∃ s', RegisterProfile now p s = (Ok (set_p_Created now p), s') ∧
    ps s' !! p_Username p = Some (set_p_Created now p) ∧ ps s' !! old = Some q.
Proof.
  intros Hacc Hfree Hold Hid Hwalk Hother.
  destruct (RegisterProfile_free (L := mem_ProfilesLaws) now p s Hacc Hfree) as (l & s' & _ & Hrange & Hreg & Hs').
  assert (prev_name (p_ProfileID p) l "" = "") as Hprev.
  { pose proof (f_equal snd (f_equal (λ run, run "") (Hrange _ (prev_iter (p_ProfileID p))))) as Hsame.
    cbn [Profiles_Range mem_Profiles] in Hsame. unfold mem_Range in Hsame.
    rewrite Hwalk, !range_prev in Hsame. cbn [snd] in Hsame. rewrite <- Hsame.
    cbn [prev_name]. by rewrite decide_False. }
  rewrite Hprev, decide_False in Hs' by tauto. cbn [entries mem_ProfilesLaws] in Hs'.
  exists s'. rewrite Hs', lookup_insert_eq, lookup_insert_ne by congruence. done.
Qed.
End rename.

(** ** The theorems at work *)
Module RegistryDemo.
#[export] Instance keys : Keys := {|
  PrivKey := string;
  PubKey := string;
  priv_Sign k m := Ok (k +:+ ":" +:+ m);
  priv_GetPublic k := k;
  pub_Verify k m s := Ok (bool_decide (s = k +:+ ":" +:+ m));
  pub_Bytes k := Ok ("key " +:+ k);
  crypto_UnmarshalPublicKey d := of_option (Error (Errorf "unexpected EOF" [])) (GoStrings.strip_prefix "key " d);
  multihash_Sum d := Ok d;
  B58String h := "Qm" +:+ h;
|}.
#[export] Instance keys_laws : KeysLaws keys.
Proof.
  split.
  - intros k m s [= <-]. cbn. by rewrite bool_decide_eq_true_2.
  - by intros k d [= <-].
  - intros k m s [= <-]. by destruct k.
  - by intros k d [= <-].
  - done.
Qed.

#[export] Instance order : MapOrder := {| map_entries := map_to_list; map_entries_perm m := reflexivity _ |}.

(** Texts in the place of JSON *)
Definition tuple_of (p : Profile) :=
  (p_Created p, [p_Username p; p_Peername p; p_Email p; p_Password p; p_Photo p; p_Thumb p; p_Name p;
    p_Description p; p_HomeURL p; p_Twitter p; p_ProfileID p; p_PublicKey p; p_Signature p]).
Definition of_tuple (t : Z * list string) : Profile :=
  match t with
  | (c, [u; n; e; w; ph; th; nm; d; h; tw; i; k; s]) => mkProfile c u n e w ph th nm d h tw i k s
  | _ => zero_Profile
  end.
Definition profile_text (p : Profile) : string := bits_of (encode (tuple_of p)).
Definition text_profile (d : string) : outcome Profile :=
  of_option (Error (Errorf "invalid character" [])) (of_tuple <$> decode (of_bits d)).
Definition envelope_text (e : Envelope) : string :=
  bits_of (encode (match env_Data e with OneProfile p => Some (tuple_of p) | _ => None end, env_Error e)).
Definition text_envelope (d : string) : outcome (option Profile * string) :=
  match decode (of_bits d) with
  | Some (t, e) => Ok (of_tuple <$> t, e)
  | None => Error (Errorf "invalid character" [])
  end.
#[export] Instance json : RegistryJSON := {|
  Marshal_Profile p := Ok (profile_text p);
  Decode_Profile := text_profile;
  Decode_Profiles d := p ← text_profile d; Ok [Some p];
  Marshal_Envelope e := inl (envelope_text e);
  MarshalIndent_Envelope e := inl (envelope_text e);
  Decode_Envelope := text_envelope;
|}.
#[export] Instance json_laws : RegistryJSONLaws json.
Proof.
  refine {| json_keeps _ := True; keeps_text _ := True |}; try done.
  - intros p _. eexists. split; [done|]. cbn. unfold text_profile, profile_text.
    rewrite of_bits_of, decode_encode. by destruct p.
  - intros p _. eexists. split; [done|]. cbn. unfold text_envelope, envelope_text. cbn [env_Data env_Error].
    rewrite of_bits_of, decode_encode. by destruct p.
  - intros code text _. eexists. split; [done|]. cbn. unfold text_envelope, envelope_text. cbn [env_Data env_Error].
    by rewrite of_bits_of, decode_encode.
Defined.

Definition ada_key : PrivKey := "ada's".
Definition eve_key : PrivKey := "eve's".
Definition profile_of (k : PrivKey) (name : string) : Profile :=
  match (ProfileFromPrivateKey k (named_Profile name)).1 with Ok p => p | _ => zero_Profile end.
Definition ada : Profile := Eval vm_compute in profile_of ada_key "ada".
Definition eve : Profile := Eval vm_compute in profile_of eve_key "ada".
Definition held : MemProfiles := mkMemProfiles {[ "ada" := ada ]}.
Definition nothing_else (_ : RegRequest) : RegResponse := mkRegResponse 404 "".
#[export] Instance open_server : RegTransport (Server MemProfiles) :=
  served_registry NoopProtector nothing_else (λ _, None).
Definition loc : string := "https://registry.qri.cloud".
Lemma loc_reachable : reachable (λ _, None) loc.
Proof. by split. Qed.
End RegistryDemo.
Import RegistryDemo.

Lemma registry_verified_witness :
  verified (ps (serve (BAProtector "admin" "secret") nothing_else
    [(1%Z, mkRegRequest "POST" "/registry/profile" "application/json" None (profile_text ada));
     (2%Z, mkRegRequest "POST" "/registry/profiles" "application/json" (Some ("admin", "guess")) (profile_text zero_Profile))]
    NewMemProfiles)) ∧
  ps (serve (BAProtector "admin" "secret") nothing_else
    [(1%Z, mkRegRequest "POST" "/registry/profile" "application/json" None (profile_text ada));
     (2%Z, mkRegRequest "POST" "/registry/profiles" "application/json" (Some ("admin", "guess")) (profile_text zero_Profile))]
    NewMemProfiles) !! "ada" = Some (set_p_Created 1 ada).
Proof.
  split; [|vm_compute; reflexivity].
  apply (registry_verified (L := mem_ProfilesLaws) "admin" "secret").
  - intros key p Hp. discriminate Hp.
  - intros now r Hr. rewrite !elem_of_cons in Hr. destruct Hr as [[= -> ->]|[[= -> ->]|Hr]].
    + intros [Hpath _]. discriminate Hpath.
    + intros (_ & _ & Hauth). discriminate Hauth.
    + by apply elem_of_nil in Hr.
Defined.

Lemma CreateProfile_registers_witness :
  ∃ s', let answer := Ok (set_p_Peername "ada" (set_p_Created 5 ada)) in
    CreateProfile (named_Profile "ada") ada_key (at_server loc NewMemProfiles 5) = (answer, at_server loc s' 6) ∧
    GetProfile (named_Profile "ada") (at_server loc s' 6) = (answer, at_server loc s' 7) ∧ accepted ada.
Proof.
  destruct (CreateProfile_registers (L := mem_ProfilesLaws) NoopProtector nothing_else (λ _, None)
    loc NewMemProfiles 5 "ada" ada_key ada (named_Profile "ada")) as (s' & Hc & Hg & Ha & _);
    [exact loc_reachable|split; vm_compute; discriminate|discriminate|vm_compute; reflexivity|exact I|
     reflexivity|reflexivity|exact I|].
  exists s'. cbv zeta. split; [exact Hc|]. split; [exact Hg|exact Ha].
Defined.

Lemma CreateProfile_taken_witness :
  CreateProfile (named_Profile "ada") eve_key (at_server loc held 5) = (Error ErrUsernameTaken, at_server loc held 6).
Proof.
  apply (CreateProfile_taken (L := mem_ProfilesLaws) NoopProtector nothing_else (λ _, None)
    loc held 5 "ada" eve_key eve ada);
    [exact loc_reachable|discriminate|vm_compute; reflexivity|exact I|exact I|reflexivity|discriminate].
Defined.

Lemma name_taken_over_witness :
  ∃ s1 s2,
    DeleteProfile (named_Profile "ada") eve_key (at_server loc held 5) = (Ok tt, at_server loc s1 6) ∧
    CreateProfile (named_Profile "ada") eve_key (at_server loc s1 6) =
      (Ok (set_p_Peername "ada" (set_p_Created 6 eve)), at_server loc s2 7) ∧
    ps s2 !! "ada" = Some (set_p_Created 6 eve).
Proof.
  destruct (name_taken_over (L := mem_ProfilesLaws) NoopProtector nothing_else (λ _, None)
    loc held 5 "ada" ada eve_key eve) as (s1 & s2 & Hd & _ & Hc & Hs2);
    [exact loc_reachable|split; vm_compute; discriminate|discriminate|reflexivity|vm_compute; reflexivity|exact I|].
  exists s1, s2. split; [exact Hd|]. split; [exact Hc|exact Hs2].
Defined.

Definition bob : Profile := Eval vm_compute in profile_of "bob's" "bob".
Definition bob_renamed : Profile := Eval vm_compute in profile_of "bob's" "robert".
Definition two_held : MemProfiles := mkMemProfiles {[ "ada" := ada; "bob" := bob ]}.

Lemma rename_keeps_old_name_witness :
  ∃ s', RegisterProfile 5 bob_renamed two_held = (Ok (set_p_Created 5 bob_renamed), s') ∧
    ps s' !! "robert" = Some (set_p_Created 5 bob_renamed) ∧ ps s' !! "bob" = Some bob.
Proof.
  apply (rename_keeps_old_name 5 bob_renamed two_held "bob" bob "ada" ada [("bob", bob)]);
    [split; vm_compute; reflexivity|reflexivity|reflexivity|reflexivity|vm_compute; reflexivity|discriminate].
Defined.
