(* ===== verification/ProfileStoreSpec.v ===== *)
(** * Theorems of the profile stores

    The store in memory and the store in a file answer alike, and where they
    do not. *)
From S2P Require Export ProfileStoreFacts.

Section agree.
Context `{L : KeyLib, !KeyLibLaws L, P : ProfileIDs, PL : !ProfileIDLaws P, A : Multiaddrs, !MultiaddrLaws A}.
Context {K1 K2 F : Type} `{!KeyStore K1, KL1 : !KeyStoreLaws K1, !KeyStore K2, KL2 : !KeyStoreLaws K2}.
Context `{!LockedFile F, FL : !LockedFileLaws F, J : !PodJSON, JL : !PodJSONLaws J, W : MapWalk}.

(** ** What a program asks of a store *)
Inductive command : Type :=
| CPut (p : Profile)
| CGet (id : string)
| CDelete (id : string).
Inductive answer : Type :=
| Done
| Found (p : Profile).

(** The abstract store; a store shows of a profile what it keeps of it, and has
    an error of its own for one it does not have. *)
Fixpoint spec_answers (missing : error) (shown : Profile → Profile) (cs : list command) (a : spec_store) : list (outcome answer) :=
  match cs with
  | [] => []
  | CPut p :: cs => Ok Done :: spec_answers missing shown cs (spec_Put p a)
  | CGet id :: cs =>
      (match spec_Get id a with Some p => Ok (Found (shown p)) | None => Error missing end) :: spec_answers missing shown cs a
  | CDelete id :: cs => Ok Done :: spec_answers missing shown cs (spec_Delete id a)
  end.

(** The store in memory: a profile that is put is a new object. *)
Definition allocate (p : Profile) : stM (MemStore K1) positive := λ m,
  let l := fresh (dom (m_heap m) : gset positive) in (Ok l, set_m_heap (<[l := p]> (m_heap m)) m).
Definition mem_command (c : command) : stM (MemStore K1) answer :=
  match c with
  | CPut p => l ← allocate p; mem_PutProfile l;; mret Done
  | CGet id => l ← mem_GetProfile id; p ← load_profile l; mret (Found p)
  | CDelete id => mem_DeleteProfile id;; mret Done
  end.

(** The store in a file *)
Definition local_command (c : command) : stM (LocalStore K2 F) answer :=
  match c with
  | CPut p => local_PutProfile p;; mret Done
  | CGet id => p ← st_read (local_GetProfile id); mret (Found p)
  | CDelete id => local_DeleteProfile id;; mret Done
  end.

Fixpoint answers {S} (step : command → stM S answer) (cs : list command) (s : S) : list (outcome answer) :=
  match cs with
  | [] => []
  | c :: cs => (step c s).1 :: answers step cs (step c s).2
  end.

(** Commands both stores take: profiles that a file can hold, under the
    default identifier of their keys *)
Definition acceptable (c : command) : Prop :=
  match c with
  | CPut p => encodable p ∧ default_key p ∧ writable_pod p
  | CGet id | CDelete id => valid_id id
  end.

Context (id_key1 : ∀ id, valid_id id → key_id (K := K1) (ID_String id)).
Context (id_key2 : ∀ id, valid_id id → key_id (K := K2) (ID_String id)).

Lemma mem_allocated p m a : mem_rep (K := K1) m a →
  ∃ l m', allocate p m = (Ok l, m') ∧ mem_rep m' a ∧ m_heap m' !! l = Some p ∧ ∀ id, m_store m' !! id ≠ Some l.
Proof.
  intros [Hkeys Hheld Hnone]. unfold allocate. set (l := fresh _).
  assert (m_heap m !! l = None) as Hl by (apply not_elem_of_dom, is_fresh).
  eexists _, _. split; [done|]. cbn [set_m_heap m_heap m_store]. split_and!.
  - split; [done| |done]. cbn [set_m_heap m_heap m_store]. intros id l' Hl'.
    destruct (Hheld id l' Hl') as (q & Hq & Hrest). exists q. rewrite lookup_insert_ne; [done|]. congruence.
  - apply lookup_insert_eq.
  - intros id Hid. destruct (Hheld id l Hid) as (q & Hq & _). congruence.
Qed.

Lemma mem_answers cs m a : Forall acceptable cs → mem_rep m a →
  answers mem_command cs m = spec_answers ErrProfileNotFound id cs a.
Proof.
  intros Hcs. revert m a. induction Hcs as [|c cs Hc _ IH]; intros m a Hm; [done|].
  destruct c as [p|id|id]; cbn [answers spec_answers mem_command acceptable] in *.
  - destruct Hc as (Henc & Hdef & _).
    destruct (mem_allocated p m a Hm) as (l & m1 & Hal & Hm1 & Hp & Hfresh).
    destruct (mem_Put_run id_key1 l p m1 a Hm1 Hp Hfresh (enc_id p Henc) Hdef) as (m2 & Hput & Hm2).
    rewrite (bind_run _ _ _ _ _ Hal), (bind_run _ _ _ _ _ Hput). cbn [fst snd mret stM_ret]. by rewrite (IH m2 _ Hm2).
  - destruct (m_store m !! id) as [l|] eqn:Hl.
    + destruct (mem_Get_run id l m a Hm Hl) as (m' & p & Hget & Hm' & Hp & ->).
      rewrite (bind_run _ _ _ _ _ Hget), (bind_run (load_profile l) _ m' p m') by (unfold load_profile; by rewrite Hp).
      cbn [fst snd mret stM_ret]. by rewrite (IH m' a Hm').
    + destruct (mem_Get_None id m a Hm Hl) as [Hget ->]. unfold mbind, stM_bind. rewrite Hget.
      cbn [fst snd]. by rewrite (IH m a Hm).
  - destruct (mem_Delete_run id m a Hm) as [Hm' _].
    rewrite (bind_run (mem_DeleteProfile id) _ m tt (mem_DeleteProfile id m).2 eq_refl).
    cbn [fst snd mret stM_ret]. by rewrite (IH _ _ Hm').
Qed.

Lemma local_answers cs s a : Forall acceptable cs → local_rep s a →
  answers local_command cs s = spec_answers qfs_ErrNotFound offline cs a.
Proof.
  intros Hcs. revert s a. induction Hcs as [|c cs Hc _ IH]; intros s a Hs; [done|].
  destruct c as [p|id|id]; cbn [answers spec_answers local_command acceptable] in *.
  - destruct Hc as (Henc & Hdef & Hpod).
    destruct (local_Put_run id_key2 p s a Hs Henc Hdef Hpod) as (s' & Hput & Hs').
    rewrite (bind_run _ _ _ _ _ Hput). cbn [fst snd mret stM_ret]. by rewrite (IH s' _ Hs').
  - unfold mbind, stM_bind, st_read. rewrite (local_Get_run id s a Hs Hc).
    destruct (spec_Get id a) as [p|]; cbn [fst snd mret stM_ret]; by rewrite (IH s a Hs).
  - destruct (local_Delete_run id s a Hs Hc) as (s' & Hdel & Hs').
    rewrite (bind_run _ _ _ _ _ Hdel). cbn [fst snd mret stM_ret]. by rewrite (IH s' _ Hs').
Qed.

(** New stores of one owner *)
Definition owned_keys (owner : Profile) (sk : PrivKey) (kb : keyBook) : keyBook :=
  mkKeyBook (pks kb) (<[ID_String (ID_ owner) := sk]> (sks kb)).

Lemma new_mem_rep l owner sk k heap : heap !! l = Some owner → PrivKey_ owner = Some sk →
  valid_id (ID_ owner) → default_key owner →
  ∃ m, NewMemStore l k heap = Ok m ∧
    mem_rep (K := K1) m (mkSpec {[ ID_ owner := bare owner ]} (owned_keys owner sk (key_contents k))).
Proof.
  intros Hl Hsk Hid Hdef. unfold NewMemStore. rewrite Hl. cbn [of_option mbind outcome_bind].
  unfold ValidOwnerProfile. rewrite Hsk. cbn [mbind outcome_bind]. rewrite (GetKeyID_default owner Hdef).
  destruct (AddPrivKey_contents _ sk k (id_key1 _ Hid)) as (k' & -> & Hk').
  eexists. split; [done|]. split; [done| |].
  - cbn [m_store m_heap sp_profiles]. intros id l' [<- <-]%lookup_singleton_Some.
    exists (with_KeyID owner). rewrite lookup_insert_eq, lookup_singleton_eq.
    split_and!; [done..|by apply with_KeyID_default].
  - cbn [m_store sp_profiles]. intros id Hid'. apply lookup_singleton_None in Hid'. by apply lookup_singleton_None.
Qed.

Lemma new_local_rep file owner sk k : file_content file = None → PrivKey_ owner = Some sk →
  valid_id (ID_ owner) → default_key owner →
  ∃ s, NewLocalStore file owner k = Ok s ∧ local_rep (K := K2) s (mkSpec ∅ (owned_keys owner sk (key_contents k))).
Proof.
  intros Hfile Hsk Hid Hdef. unfold NewLocalStore, ValidOwnerProfile. rewrite Hsk. cbn [mbind outcome_bind].
  rewrite (GetKeyID_default owner Hdef).
  destruct (AddPrivKey_contents _ sk k (id_key2 _ Hid)) as (k' & -> & Hk').
  eexists. split; [done|]. split; [done|]. exists ∅. split.
  - unfold l_profiles. cbn [l_file]. rewrite Lock_free. pose proof (Read_content file) as Hread.
    rewrite Hfile in Hread. by destruct Hread as (e & -> & ->).
  - split; [|done]. intros id c Hc. cbn [sp_profiles] in Hc. by rewrite lookup_empty in Hc.
Qed.

(** C40: the two stores implement one store, with two differences. New stores of
    one owner, in memory and in a file that is not there yet, whose key stores
    hold the same keys, are put the owner and then profiles a file can hold, each
    a new object under the default identifier of its keys, asked for profiles
    and told to delete them in any order. Nothing but a question for a profile
    that is not there is answered with an error; every profile is answered as a
    map of profiles and a book of keys would; but the store in a file forgets
    whether a profile was online, and the errors are not the same error. *)
Theorem stores_agree l owner sk k1 k2 heap file cs :
  heap !! l = Some owner → PrivKey_ owner = Some sk → file_content file = None →
  key_contents k1 = key_contents k2 → acceptable (CPut owner) → Forall acceptable cs →
  let a := mkSpec ∅ (owned_keys owner sk (key_contents k1)) in
  ∃ m s, NewMemStore l k1 heap = Ok m ∧ NewLocalStore file owner k2 = Ok s ∧
    answers mem_command (CPut owner :: cs) m = spec_answers ErrProfileNotFound id (CPut owner :: cs) a ∧
    answers local_command (CPut owner :: cs) s = spec_answers qfs_ErrNotFound offline (CPut owner :: cs) a.
Proof.
  intros Hl Hsk Hfile Hk Howner Hcs a. pose proof Howner as (Henc & Hdef & _).
  destruct (new_mem_rep l owner sk k1 heap Hl Hsk (enc_id owner Henc) Hdef) as (m & Hm & Hmrep).
  destruct (new_local_rep file owner sk k2 Hfile Hsk (enc_id owner Henc) Hdef) as (s & Hs & Hsrep).
  exists m, s. split_and!; [done|done| |].
  - rewrite (mem_answers _ m _ (Forall_cons_2 _ _ _ Howner Hcs) Hmrep).
    cbn [spec_answers]. unfold spec_Put. cbn [sp_profiles sp_keys a]. by rewrite insert_singleton_eq.
  - rewrite (local_answers _ s _ (Forall_cons_2 _ _ _ Howner Hcs) Hsrep). by rewrite <- Hk.
Qed.

(** Where they differ besides: only the store in memory has its owner from the
    start. *)
Theorem owner_not_stored l owner sk k1 k2 heap file :
  heap !! l = Some owner → PrivKey_ owner = Some sk → file_content file = None →
  valid_id (ID_ owner) → default_key owner →
  ∃ m s p, NewMemStore l k1 heap = Ok m ∧ NewLocalStore file owner k2 = Ok s ∧
    (mem_command (CGet (ID_ owner)) m).1 = Ok (Found p) ∧ (local_command (CGet (ID_ owner)) s).1 = Error qfs_ErrNotFound.
Proof.
  intros Hl Hsk Hfile Hid Hdef.
  destruct (new_mem_rep l owner sk k1 heap Hl Hsk Hid Hdef) as (m & Hm & Hmrep).
  destruct (new_local_rep file owner sk k2 Hfile Hsk Hid Hdef) as (s & Hs & Hsrep).
  pose proof (mem_answers [CGet (ID_ owner)] m _ (Forall_cons_2 acceptable (CGet (ID_ owner)) _ Hid (Forall_nil_2 _)) Hmrep) as Hma.
  pose proof (local_answers [CGet (ID_ owner)] s _ (Forall_cons_2 acceptable (CGet (ID_ owner)) _ Hid (Forall_nil_2 _)) Hsrep) as Hla.
  cbn [answers spec_answers] in Hma, Hla. unfold spec_Get in Hma, Hla. cbn [sp_profiles] in Hma, Hla.
  rewrite lookup_singleton_eq in Hma. rewrite lookup_empty in Hla.
  injection Hma as Hma. injection Hla as Hla. exists m, s. eexists. split_and!; [done..|exact Hma|exact Hla].
Qed.

(** A file that does not parse is lost: whatever its text is, after a put the
    file holds the profile put and what had been parsed before the error. *)
Theorem corrupt_file_lost p (s : LocalStore K2 F) data m e :
  file_content (l_file s) = Some data → json_Unmarshal_pods data = (m, Some e) →
  encodable p → default_key p → writable_pod p →
  ∃ s' pod, local_PutProfile p s = (Ok tt, s') ∧ l_profiles s' = Ok (<[ID_String (ID_ p) := Some pod]> m).
Proof.
  intros Hdata Hm Henc Hdef Hpod.
  assert (l_profiles s = Ok m) as Hps.
  { unfold l_profiles. rewrite Lock_free. pose proof (Read_content (l_file s)) as Hread.
    rewrite Hdata in Hread. by rewrite Hread, Hm. }
  destruct (local_Put_file id_key2 p s m Hps Henc Hdef Hpod) as (s' & pod & Hput & _ & _ & Hread & _).
  by exists s', (not_online pod).
Qed.
End agree.

(** ** A concrete instance *)
Module demo.
#[local] Instance key_lib : KeyLib := {|
  PrivKey := string;
  PubKey := string;
  GetPublic sk := "public " +:+ sk;
  MarshalPublicKey pk := inl pk;
  MarshalPrivateKey sk := inl ("8" +:+ sk);
  UnmarshalPublicKey d := inl d;
  UnmarshalPrivateKey d :=
    match d with String "8" sk => inl sk | _ => inr (Errorf "invalid private key" []) end;
  ConfigEncodeKey d := d;
  ConfigDecodeKey d := inl d;
|}.
#[local] Instance key_lib_laws : KeyLibLaws key_lib.
Proof. split; [by intros; eexists..|by intros k d [= <-]|done]. Qed.

#[local] Instance demo_ids : ProfileIDs := {|
  ID_String id := "Qm" +:+ id;
  IDB58Decode s := of_option (Error (Errorf "invalid base58" [])) (strip_prefix "Qm" s);
|}.
#[local] Instance demo_ids_laws : ProfileIDLaws demo_ids.
Proof. by refine {| valid_id _ := True |}. Defined.

#[local] Instance addrs : Multiaddrs := {|
  Multiaddr := string;
  NewMultiaddr s := inl s;
  Multiaddr_String a := a;
|}.
#[local] Instance addrs_laws : MultiaddrLaws addrs.
Proof. done. Qed.

#[local] Instance sorted_walk : MapWalk := {| walk _ m := map_to_list m; walk_perm _ m := Permutation_refl _ |}.

(** JSON: every map has a text of bits. *)
#[local] Instance key_json : KeyJSON := {|
  json_Marshal_keys m := inl (bits_of (encode m));
  json_Unmarshal_keys d :=
    match decode (of_bits d) with Some m => inl m | None => inr (Errorf "invalid character" []) end;
|}.
#[local] Instance key_json_laws : KeyJSONLaws key_json.
Proof.
  refine {| json_text _ := True |}; [done..| |done].
  intros m _. eexists. split; [done|]. cbn. by rewrite of_bits_of, decode_encode.
Defined.

Definition pod_tuple (p : ProfilePod) :=
  (pod_ID p, pod_PrivKey p, pod_Peername p, pod_Created p, pod_Updated p, pod_Type p, pod_Email p, pod_Name p,
   pod_Description p, (pod_HomeURL p, pod_Color p, pod_Thumb p, pod_Photo p, pod_Poster p, pod_Twitter p,
   pod_Online p, pod_PeerIDs p, pod_NetworkAddrs p)).
Definition tuple_pod '(id, sk, pn, c, u, t, e, n, d, (h, co, th, ph, po, tw, on, ps, na)) : ProfilePod :=
  mkPod id sk pn c u t e n d h co th ph po tw on ps na.
Lemma tuple_pod_tuple p : tuple_pod (pod_tuple p) = p.
Proof. by destruct p. Qed.
#[local] Instance pod_eq_dec : EqDecision ProfilePod.
Proof. solve_decision. Defined.
#[local] Instance pod_countable : Countable ProfilePod := inj_countable' pod_tuple tuple_pod tuple_pod_tuple.

#[local] Instance pod_json : PodJSON := {|
  json_Marshal_pods m := inl (bits_of (encode m));
  json_Unmarshal_pods d :=
    match decode (of_bits d) with Some m => (m, None) | None => (∅, Some (Errorf "invalid character" [])) end;
|}.
#[local] Instance pod_json_laws : PodJSONLaws pod_json.
Proof.
  refine {| pod_kept _ := True |}; [|done].
  intros m _. eexists. split; [done|]. cbn. by rewrite of_bits_of, decode_encode.
Defined.

#[local] Instance disk : LockedFile (option string) := {|
  flock_Lock _ := None;
  file_Read f := match f with Some d => inl d | None => inr (ErrSentinel "file does not exist") end;
  file_Write d _ := (Ok tt, Some d);
|}.
#[local] Instance disk_laws : LockedFileLaws (option string).
Proof. refine {| file_content f := f |}; [done|intros [d|]; [done|by eexists]|intros d f; by eexists]. Defined.

Definition ada : Profile :=
  mkProfile (Some "ada's key") (Some "public ada's key") "" "Ada" 1 2 "ada" TypePeer "ada@example.com" "Ada" "" "" ""
    "" "" "" "" true ["Peer"] ["/ip4/127.0.0.1"].
Definition bob : Profile :=
  mkProfile None (Some "bob's public key") "" "Bob" 3 4 "bob" TypeOrganization "" "Bob" "" "" "" "" "" "" "" false [] [].

Lemma acceptable_all (c : command) :
  match c with CPut p => (Type_ p = TypePeer ∨ Type_ p = TypeOrganization) ∧ default_key p | _ => True end → acceptable c.
Proof. destruct c as [p| |]; [|done..]. intros [Ht Hk]. split_and!; [|done|done]. split; [done..|by apply Forall_true]. Qed.

Definition script : list command := [CPut bob; CGet "Ada"; CGet "Bob"; CDelete "Ada"; CGet "Ada"].

Lemma stores_agree_witness :
  ∃ m s, NewMemStore 1%positive newKeyBook {[ 1%positive := ada ]} = Ok m ∧
    NewLocalStore None ada (mkLocalKeys None) = Ok s ∧
    answers mem_command (CPut ada :: script) m =
      [Ok Done; Ok Done; Ok (Found (set_keys (PrivKey_ ada) (PubKey_ ada) "QmAda" ada));
        Ok (Found (set_keys None (PubKey_ bob) "QmBob" bob)); Ok Done; Error ErrProfileNotFound] ∧
    answers local_command (CPut ada :: script) s =
      [Ok Done; Ok Done; Ok (Found (set_keys (PrivKey_ ada) (PubKey_ ada) "QmAda" (offline ada)));
        Ok (Found (set_keys None (PubKey_ bob) "QmBob" bob)); Ok Done; Error qfs_ErrNotFound].
Proof.
  assert (∀ id, valid_id id → key_id (K := keyBook) (ID_String id)) as Hkey1 by done.
  assert (∀ id, valid_id id → key_id (K := localKeys (option string)) (ID_String id)) as Hkey2 by done.
  destruct (stores_agree Hkey1 Hkey2 1%positive ada "ada's key" newKeyBook (mkLocalKeys None) {[ 1%positive := ada ]} None script)
    as (m & s & Hm & Hs & Hmem & Hfile).
  - reflexivity.
  - reflexivity.
  - reflexivity.
  - reflexivity.
  - apply acceptable_all. split; by left.
  - apply Forall_forall. intros c Hc. apply acceptable_all. unfold script in Hc. set_unfold.
    destruct Hc as [->|[->|[->|[->|[->|[]]]]]]; [|done..]. split; [by right|by left].
  - exists m, s. split_and!; [exact Hm|exact Hs|rewrite Hmem; vm_compute; reflexivity|rewrite Hfile; vm_compute; reflexivity].
Defined.
End demo.
