(* ===== verification/DscacheSpec.v ===== *)
(** * Theorems of the dataset cache

    What every event leaves of the cache, against a plain list of entries; the
    cache and the logbook it listens to; and the cache built from a logbook. *)
From S2P Require Export Dscache HistoryFacts LogbookEdits Instances.

(** A disk that never panics, and what is on it after a write that works *)
Class FileWriterLaws (F : Type) `{!FileWriter F} : Type := {
  file_text : F → string → option string;
  WriteFile_ends name data f : (WriteFile name data f).1 ≠ Panic;
  WriteFile_text name data f f' : WriteFile name data f = (Ok tt, f') → file_text f' name = Some data;
}.

(** ** A plain list of entries *)
Record cached : Type := mkCached {
  c_InitID : string;
  c_ProfileID : string;
  c_Name : string;
  c_HeadRef : string;
  c_FsiPath : string;
}.
Definition entry_view (r : RefEntryInfo) : cached :=
  mkCached (re_InitID r) (re_ProfileID r) (re_PrettyName r) (re_HeadRef r) (re_FsiPath r).
Definition view (root : FbDscache) : list cached := map entry_view (fb_refs root).

Definition with_HeadRef (path : string) (c : cached) : cached :=
  mkCached (c_InitID c) (c_ProfileID c) (c_Name c) path (c_FsiPath c).
Definition with_FsiPath (dir : string) (c : cached) : cached :=
  mkCached (c_InitID c) (c_ProfileID c) (c_Name c) (c_HeadRef c) dir.

(** The entries a link is for: by identifier, or by name among the owner's *)
Definition linked_by (owner : string) (act : DsChange) (c : cached) : Prop :=
  (dc_InitID act ≠ "" ∧ c_InitID c = dc_InitID act) ∨
  (dc_InitID act = "" ∧ owner = dc_Username act ∧ c_Name c = dc_PrettyName act).
#[export] Instance linked_by_dec owner act c : Decision (linked_by owner act c).
Proof. unfold linked_by. apply _. Defined.

(** What an event other than the creation of a dataset does to the list *)
Definition spec_event (owner : string) (e : Event DsChange) (l : list cached) : list cached :=
  let act := ev_Payload e in
  if decide (ev_Type e = ETDatasetCommitChange) then
    map (λ c, if decide (c_InitID c = dc_InitID act) then with_HeadRef (dc_HeadRef act) c else c) l
  else if decide (ev_Type e = ETDatasetDeleteAll) then filter (λ c, c_InitID c ≠ dc_InitID act) l
  else if decide (ev_Type e = ETDatasetCreateLink) then
    map (λ c, if decide (linked_by owner act c) then with_FsiPath (dc_Dir act) c else c) l
  else l.

(** How a name is looked up in it *)
Definition spec_resolve (users : list UserAssoc) (l : list cached) (ref : Ref) : outcome string * Ref :=
  let profileID :=
    from_option (λ iu, ua_ProfileID iu.2) (ref_ProfileID ref)
      (find_index_from (λ u, bool_decide (ref_Username ref = ua_Username u)) 0 users) in
  if decide (profileID = "") then (Error ErrRefNotFound, ref)
  else
    match find_index_from (λ c, bool_decide (c_ProfileID c = profileID ∧ c_Name c = ref_Name ref)) 0 l with
    | Some (_, c) =>
        (Ok "", mkRef (c_InitID c) (ref_Username ref) (c_ProfileID c) (ref_Name ref)
                  (if decide (ref_Path ref = "") then c_HeadRef c else ref_Path ref))
    | None => (Error ErrRefNotFound, ref)
    end.

Section cache.
Context `{B : DscacheBytes, BL : !DscacheBytesLaws B} {F : Type} `{!FileWriter F, FL : !FileWriterLaws F}.
Implicit Types d : Dscache F.

(** ** One event *)

(** What a change leaves of a cache besides its root *)
Record rerooted (root : FbDscache) (d d' : Dscache F) : Prop := {
  rr_root : d_Root d' = Some root;
  rr_buffer : d_Buffer d' = fb_finish_Dscache root;
  rr_filename : d_Filename d' = d_Filename d;
  rr_owner : d_DefaultUsername d' = d_DefaultUsername d;
  rr_saved : d_Filename d ≠ "" → (∀ data f, (WriteFile (d_Filename d) data f).1 = Ok tt) →
    file_text (d_disk d') (d_Filename d) = Some (fb_finish_Dscache root);
}.

Lemma install_run root d : ∃ d', ignore_error (install root) d = (Ok tt, d') ∧ rerooted root d d'.
Proof.
  unfold ignore_error, install, Assign. rewrite (bind_run (st_modify _) _ d tt (set_root (Some root) (fb_finish_Dscache root) d) eq_refl).
  unfold save_cache. cbn [set_root d_Filename d_Buffer]. case_decide as Hname.
  - eexists. split; [done|]. by split.
  - unfold st_zoom. cbn [set_root d_disk].
    pose proof (WriteFile_ends (d_Filename d) (fb_finish_Dscache root) (d_disk d)) as Hends.
    pose proof (WriteFile_text (d_Filename d) (fb_finish_Dscache root) (d_disk d)) as Htext.
    destruct (WriteFile _ _ _) as [[[]|e|] f] eqn:Hw; [| |done];
      eexists; (split; [done|]; split; [done..|]); intros _ Hworks; cbn [set_disk d_disk].
    + by apply Htext.
    + specialize (Hworks (fb_finish_Dscache root) (d_disk d)). by rewrite Hw in Hworks.
Qed.

Lemma copy_users_id root : copyUserAssociationList root = fb_users root.
Proof. unfold copyUserAssociationList. rewrite <- map_id. by apply map_ext; intros []. Qed.

Lemma update_refs_run m f root d : d_Root d = Some root →
  ∃ d', ignore_error (update_refs m f) d = (Ok tt, d') ∧
    rerooted (mkFbDscache (fb_users root) (copyReferenceListWithReplacement m f (fb_refs root))) d d'.
Proof.
  intros Hroot. unfold update_refs, ignore_error. rewrite (bind_run st_get _ d d d eq_refl), Hroot.
  rewrite copy_users_id. apply install_run.
Qed.

Lemma copy_view m f refs : map entry_view (copyReferenceListWithReplacement m f refs) =
  flat_map (λ r, if m r then match f with Some f => [entry_view (f (copyReference r))] | None => [] end
                 else [entry_view r]) refs.
Proof.
  induction refs as [|r refs IH]; [done|]. cbn [copyReferenceListWithReplacement flat_map].
  rewrite map_app, <- IH. f_equal. by destruct (m r), f.
Qed.

(** A change that replaces entries, seen in the list *)
Lemma replace_view m f (p : cached → Prop) `{!∀ c, Decision (p c)} g refs :
  (∀ r, m r = true ↔ p (entry_view r)) → (∀ r, entry_view (f (copyReference r)) = g (entry_view r)) →
  map entry_view (copyReferenceListWithReplacement m (Some f) refs) =
    map (λ c, if decide (p c) then g c else c) (map entry_view refs).
Proof.
  intros Hm Hf. rewrite copy_view, map_map. induction refs as [|r refs IH]; [done|]. cbn [flat_map map].
  rewrite IH. destruct (m r) eqn:Hr.
  - rewrite decide_True by (by apply Hm). by rewrite Hf.
  - rewrite decide_False; [done|]. rewrite <- Hm. congruence.
Qed.

Lemma omit_view m (p : cached → Prop) `{!∀ c, Decision (p c)} refs :
  (∀ r, m r = true ↔ ¬ p (entry_view r)) →
  map entry_view (copyReferenceListWithReplacement m None refs) = filter p (map entry_view refs).
Proof.
  intros Hm. rewrite copy_view. induction refs as [|r refs IH]; [done|]. cbn [flat_map map]. rewrite filter_cons, IH.
  specialize (Hm r). destruct (m r); case_decide as Hp; naive_solver.
Qed.

(** Every event but a creation leaves the users, and of the entries what the
    list has. *)
Lemma event_run e root d : d_Root d = Some root → ev_Type e ≠ ETDatasetNameInit →
  ∃ d' root', cache_handler Some e d = (Ok tt, d') ∧ d_Root d' = Some root' ∧
    d_Filename d' = d_Filename d ∧ d_DefaultUsername d' = d_DefaultUsername d ∧
    fb_users root' = fb_users root ∧ view root' = spec_event (d_DefaultUsername d) e (view root).
Proof.
  intros Hroot Hinit. unfold cache_handler, spec_event. rewrite (decide_False (P := ev_Type e = ETDatasetNameInit)) by done.
  set (act := ev_Payload e).
  case_decide as Hcommit; [|case_decide as Hdelete; [|case_decide as Hrename; [|case_decide as Hlink]]].
  - destruct (update_refs_run (λ r, bool_decide (re_InitID r = dc_InitID act)) (Some (change_entry act)) root d Hroot)
      as (d' & Hrun & []). eexists d', _. split_and!; [done..|]. unfold view. cbn [fb_refs].
    apply replace_view; [intros r; apply bool_decide_eq_true|].
    intros r. unfold change_entry. by destruct (dc_Info act).
  - destruct (update_refs_run (λ r, bool_decide (re_InitID r = dc_InitID act)) None root d Hroot)
      as (d' & Hrun & []). eexists d', _. split_and!; [done..|]. unfold view. cbn [fb_refs].
    apply omit_view. intros r. rewrite bool_decide_eq_true. split; [intros Heq Hne; by apply Hne|apply dec_stable].
  - exists d, root. rewrite Hrename. by split_and!.
  - unfold updateCreateLink. unfold ignore_error.
    edestruct (update_refs_run (λ r,
      if decide (dc_InitID act ≠ "") then bool_decide (re_InitID r = dc_InitID act)
      else bool_decide (d_DefaultUsername d = dc_Username act) && bool_decide (re_PrettyName r = dc_PrettyName act))
      (Some (set_FsiPath (dc_Dir act))) root d Hroot) as (d' & Hrun & []).
    eexists d', _. split_and!; [exact Hrun|done..|]. unfold view. cbn [fb_refs].
    apply replace_view; [|done]. intros r. unfold linked_by. cbn [entry_view c_Name c_InitID].
    case_decide as Hid; [rewrite bool_decide_eq_true|rewrite andb_true_iff, !bool_decide_eq_true].
    + naive_solver.
    + naive_solver.
  - exists d, root. by split_and!.
Qed.

(** ** Any events *)
Fixpoint handle_all (es : list (Event DsChange)) : stM (Dscache F) unit :=
  match es with
  | [] => mret tt
  | e :: es => cache_handler Some e;; handle_all es
  end.
Definition spec_events (owner : string) (es : list (Event DsChange)) (l : list cached) : list cached :=
  foldl (λ l e, spec_event owner e l) l es.

Lemma events_run es d root : d_Root d = Some root → Forall (λ e, ev_Type e ≠ ETDatasetNameInit) es →
  ∃ d' root', handle_all es d = (Ok tt, d') ∧ d_Root d' = Some root' ∧
    d_Filename d' = d_Filename d ∧ fb_users root' = fb_users root ∧
    view root' = spec_events (d_DefaultUsername d) es (view root).
Proof.
  intros Hroot Hes. revert d root Hroot. induction Hes as [|e es He _ IH]; intros d root Hroot.
  { exists d, root. by split_and!. }
  destruct (event_run e root d Hroot He) as (d1 & root1 & Hrun & Hroot1 & Hname1 & Howner1 & Husers1 & Hview1).
  destruct (IH d1 root1 Hroot1) as (d2 & root2 & Hrun2 & Hroot2 & Hname2 & Husers2 & Hview2).
  exists d2, root2. cbn [handle_all]. rewrite (bind_run _ _ _ _ _ Hrun), Hname2, Husers2, Hview2, Howner1, Hview1.
  by split_and!.
Qed.

(** The cache answers names as the list does. *)
Lemma resolve_view d root ref : d_Root d = Some root →
  Dscache_ResolveRef (Some d) ref = spec_resolve (fb_users root) (view root) ref.
Proof.
  intros Hroot. unfold Dscache_ResolveRef, Dscache_IsEmpty, LookupByName, spec_resolve, view. rewrite Hroot.
  cbn [of_option mbind outcome_bind].
  rewrite (find_index_from_map _ entry_view).
  replace (match find_index_from (λ u, bool_decide (ref_Username ref = ua_Username u)) 0 (fb_users root) with
           | Some (_, u) => ua_ProfileID u | None => ref_ProfileID ref end)
    with (from_option (λ iu : nat * UserAssoc, ua_ProfileID iu.2) (ref_ProfileID ref)
      (find_index_from (λ u, bool_decide (ref_Username ref = ua_Username u)) 0 (fb_users root)))
    by (by destruct (find_index_from _ _ _) as [[??]|]).
  case_decide; [done|]. cbn [entry_view c_ProfileID c_Name].
  by destruct (find_index_from _ 0 (fb_refs root)) as [[? r]|].
Qed.

(** C7: the cache is the list of its entries. Over any sequence of saves,
    deletes, renames and links, with a disk that may fail at every write, every
    event is taken, and names resolve as they do in the plain list that the
    events change; a rename changes nothing. *)
Theorem events_refined es d root ref :
  d_Root d = Some root → Forall (λ e, ev_Type e ≠ ETDatasetNameInit) es →
  ∃ d', handle_all es d = (Ok tt, d') ∧
    Dscache_ResolveRef (Some d') ref =
      spec_resolve (fb_users root) (spec_events (d_DefaultUsername d) es (view root)) ref.
Proof.
  intros Hroot Hes. destruct (events_run es d root Hroot Hes) as (d' & root' & Hrun & Hroot' & _ & Husers & Hview).
  exists d'. split; [done|]. by rewrite (resolve_view d' root' ref Hroot'), Husers, Hview.
Qed.

(** A cache is reopened as it was, when the last event changed it and its write
    worked. *)
Theorem reopen_cache m f d root username :
  d_Root d = Some root → d_Filename d ≠ "" → (∀ data fs, (WriteFile (d_Filename d) data fs).1 = Ok tt) →
  ∃ d' data, ignore_error (update_refs m f) d = (Ok tt, d') ∧
    file_text (d_disk d') (d_Filename d) = Some data ∧
    d_Root (NewDscache (Ok data) username (d_Filename d) (d_disk d')) = d_Root d'.
Proof.
  intros Hroot Hname Hworks. destruct (update_refs_run m f root d Hroot) as (d' & Hrun & Hre).
  exists d', (fb_finish_Dscache (mkFbDscache (fb_users root) (copyReferenceListWithReplacement m f (fb_refs root)))).
  split; [done|]. split; [by apply (rr_saved _ _ _ Hre)|]. cbn [NewDscache d_Root].
  rewrite root_finish_Dscache. symmetry. apply (rr_root _ _ _ Hre).
Qed.

(** ** Creating a dataset *)
Definition info_view (ce : entryInfo) : cached :=
  let vi := ei_VersionInfo ce in mkCached (vi_InitID vi) (vi_ProfileID vi) (vi_Name vi) (vi_Path vi) (vi_FSIPath vi).

Lemma build_view b : view (Build b).1 ≡ₚ map info_view (bd_infos b).
Proof.
  unfold view, Build, buildDscacheFlatbuffer. cbn [fst fb_refs]. rewrite map_map.
  change (λ x, entry_view (entry_table x)) with info_view. apply fmap_Permutation, merge_sort_Permutation.
Qed.

Lemma copy_infos_run root i n b : i + n ≤ length (fb_refs root) →
  ∃ b', copy_infos root i n b = Ok b' ∧ bd_users b' = bd_users b ∧
    map info_view (bd_infos b') = map info_view (bd_infos b) ++ take n (drop i (view root)).
Proof.
  revert i b. induction n as [|n IH]; intros i b Hlen; cbn [copy_infos].
  { exists b. by rewrite app_nil_r. }
  destruct (lookup_lt_is_Some_2 (fb_refs root) i) as [r Hr]; [lia|]. rewrite Hr. cbn [mbind outcome_bind].
  destruct (IH (S i) (AddDsVersionInfoWithIndexes (convertEntryToVersionInfo r) (re_TopIndex r) (re_CursorIndex r) b))
    as (b' & Hrun & Husers & Hinfos); [lia|].
  exists b'. split_and!; [done..|]. rewrite Hinfos. cbn [AddDsVersionInfoWithIndexes bd_infos].
  rewrite map_app, <- app_assoc. f_equal. rewrite (drop_S (view root) (entry_view r) i); [done|].
  unfold view. by rewrite list_lookup_fmap, Hr.
Qed.

Lemma copy_users us b : foldl (λ b up, AddUser (ua_Username up) (ua_ProfileID up) b) b us =
  mkBuilder (bd_filename b) (bd_users b ++ map (λ u, mkPair (ua_Username u) (ua_ProfileID u)) us) (bd_infos b).
Proof.
  revert b. induction us as [|u us IH]; intros b; cbn [foldl map].
  - rewrite app_nil_r. by destruct b.
  - rewrite IH. cbn [AddUser bd_filename bd_users bd_infos]. by rewrite <- app_assoc.
Qed.

(** Creating a dataset forgets others. A cache with [u] users and at least
    as many entries keeps, when a dataset is created, its first [u] entries and
    the new one: the one-user cache that events make never has more than two
    datasets, and the user of the new one is not added. *)
Theorem init_forgets e d root :
  d_Root d = Some root → ev_Type e = ETDatasetNameInit →
  length (fb_users root) ≤ length (fb_refs root) →
  ∃ d' root', cache_handler Some e d = (Ok tt, d') ∧ d_Root d' = Some root' ∧
    fb_users root' = fb_users root ∧
    view root' ≡ₚ take (length (fb_users root)) (view root) ++
      [mkCached (dc_InitID (ev_Payload e)) (dc_ProfileID (ev_Payload e)) (dc_PrettyName (ev_Payload e)) "" ""] ∧
    length (fb_refs root') = S (length (fb_users root)).
Proof.
  intros Hroot Hty Hlen. unfold cache_handler. rewrite decide_True by done.
  unfold updateInitDataset, ignore_error at 1. rewrite (bind_run st_get _ d d d eq_refl), Hroot.
  rewrite copy_users. set (b0 := mkBuilder _ _ _).
  destruct (copy_infos_run root 0 (length (fb_users root)) b0) as (b1 & Hb1 & Husers & Hinfos); [lia|].
  unfold st_lift. rewrite (bind_run (λ s, (copy_infos _ _ _ _, s)) _ d b1 d) by (by rewrite Hb1).
  set (b2 := AddDsVersionInfo _ b1).
  destruct (install_run (Build b2).1 d) as (d' & -> & Hre). exists d', (Build b2).1.
  assert (view (Build b2).1 ≡ₚ take (length (fb_users root)) (view root) ++
    [mkCached (dc_InitID (ev_Payload e)) (dc_ProfileID (ev_Payload e)) (dc_PrettyName (ev_Payload e)) "" ""]) as Hview.
  { rewrite build_view. cbn [b2 AddDsVersionInfo AddDsVersionInfoWithIndexes bd_infos]. by rewrite map_app, Hinfos. }
  split_and!; [done|apply (rr_root _ _ _ Hre)| |done|].
  - unfold Build, buildDscacheFlatbuffer. cbn [fst fb_users b2 AddDsVersionInfo AddDsVersionInfoWithIndexes bd_users].
    rewrite Husers. cbn [b0 bd_users NewBuilder app]. rewrite map_map. rewrite <- map_id. by apply map_ext; intros [].
  - apply Permutation_length in Hview. unfold view in Hview.
    rewrite length_map, length_app, length_take, length_map in Hview. cbn [length] in Hview. lia.
Qed.
End cache.

(** ** The cache behind a logbook *)
Section follows.
Context `{OpDigest, BookCipher, Entropy} {Fs : Type} `{Filesystem Fs}.
Context `{B : DscacheBytes, BL : !DscacheBytesLaws B} {F : Type} `{!FileWriter F, FL : !FileWriterLaws F}.
Abbreviation cached_book := (Book (F := Fs) (P := bus DsChange (Dscache F) * Dscache F)).

(** A commit event reaches the cache that subscribed, and nothing else. *)
Lemma commit_published payload d :
  Publish ETDatasetCommitChange payload (subscribe_cache NewBus, d) =
    (let '(r, d') := cache_handler Some (mkEvent ETDatasetCommitChange (NewTimestamp 0) "" payload) d in
     (r, (subscribe_cache NewBus, d'))).
Proof.
  unfold Publish, bus_publisher, bus_Publish. rewrite bus_publish_receivers by done.
  assert (receivers ETDatasetCommitChange "" (subscribe_cache NewBus) = [cache_handler (F := F) Some]) as ->.
  { unfold receivers, subscribe_cache, SubscribeTypes, NewBus. cbn [bus_subs bus_idSubs bus_allSubs].
    rewrite handlers_add_all. by rewrite decide_False by (by intros ?). }
  cbn [run_handlers]. unfold mbind, stM_bind. by destruct (cache_handler _ _ d) as [[[]|e|] d'].
Qed.

(** What a commit does to a name that resolves to its dataset *)
Lemma spec_resolve_commit owner users l ref e pid old :
  ev_Type e = ETDatasetCommitChange → ref_Path ref = "" →
  spec_resolve users l ref = (Ok "", mkRef (dc_InitID (ev_Payload e)) (ref_Username ref) pid (ref_Name ref) old) →
  spec_resolve users (spec_event owner e l) ref =
    (Ok "", mkRef (dc_InitID (ev_Payload e)) (ref_Username ref) pid (ref_Name ref) (dc_HeadRef (ev_Payload e))).
Proof.
  intros Hty Hpath. unfold spec_resolve, spec_event. rewrite (decide_True (P := ev_Type e = _)) by done.
  rewrite Hpath. case_decide; [done|]. rewrite find_index_from_map.
  set (p := λ c, bool_decide _). intros Hr. rewrite (find_index_from_ext _ p).
  - revert Hr. destruct (find_index_from p 0 l) as [[i c]|]; [|done]. cbn. intros [= Hid <- <-].
    rewrite !(decide_True (P := c_InitID c = _)) by done. cbn. by rewrite Hid.
  - intros c. unfold p. by destruct (decide (c_InitID c = dc_InitID (ev_Payload e))).
Qed.

(** C8: the cache follows the logbook. When a version is saved through a logbook
    whose bus the cache listens to, and the cache had the dataset under its
    name, the cache and the logbook resolve the name alike afterwards: to the
    version saved. *)
Theorem cache_follows_save initID ds rs cm dd dl lg (b b' : cached_book) k username name profileID d root old :
  wf_journal (b_store b) → cipher (b_pk b) = Ok k →
  Journal_HeadRef [username; name] (b_store b) = Ok dd → deref dd (b_store b) = Ok dl → ID dl = initID →
  Journal_Get initID (b_store b) = Ok dd → length (lg_Logs dl) = 1 →
  owned (dd ++ [0]) b → deref (dd ++ [0]) (b_store b) = Ok lg →
  ds_Commit ds = Some cm → (∀ r, rs = Some r → rs_ID r = cm_RunID cm) → profileID ≠ "" →
  b_publisher b = (subscribe_cache NewBus, d) → d_Root d = Some root →
  Dscache_ResolveRef (Some d) (mkRef "" username profileID name "") = (Ok "", mkRef initID username profileID name old) →
  WriteVersionSave initID ds rs b = (Ok tt, b') →
  Dscache_ResolveRef (Some (b_publisher b').2) (mkRef "" username profileID name "") =
    (Ok "", mkRef initID username profileID name (ds_Path ds)) ∧
  Book_ResolveRef (Some b') (mkRef "" username profileID name "") =
    (Ok "", mkRef initID username profileID name (ds_Path ds)).
Proof.
  intros Hwf Hk Hhead Hdl Hid Hget Hone Ho Hlg Hcm Hrs Hpid Hpub Hroot Hold Hrun.
  assert (∀ payload, ∃ d' root',
    Publish ETDatasetCommitChange payload (subscribe_cache NewBus, d) = (Ok tt, (subscribe_cache NewBus, d')) ∧
    d_Root d' = Some root' ∧ fb_users root' = fb_users root ∧
    view root' = spec_event (d_DefaultUsername d) (mkEvent ETDatasetCommitChange (NewTimestamp 0) "" payload) (view root))
    as Hpublish.
  { intros payload. rewrite commit_published.
    destruct (event_run (mkEvent ETDatasetCommitChange (NewTimestamp 0) "" payload) root d Hroot ltac:(done))
      as (d' & root' & -> & Hroot' & _ & _ & Husers & Hview). by exists d', root'. }
  assert (publishes ETDatasetCommitChange (b_publisher b)) as Hpubs.
  { intros payload. rewrite Hpub. by destruct (Hpublish payload) as (d' & root' & -> & _). }
  split; [|by eapply saved_resolves].
  assert (branchLog initID b = (Ok (dd ++ [0]), b)) as Ha by (apply branchLog_Ok; split; [done|by exists dd, dl]).
  destruct (WriteVersionSave_run initID ds rs cm _ lg b k Hpubs Hwf Hk Ha Ho Hlg Hcm Hrs)
    as (b1 & lg' & op & Hrun1 & _ & _ & _ & _ & _ & Hpub1).
  rewrite Hrun1 in Hrun. injection Hrun as <-. rewrite Hpub1, Hpub.
  edestruct Hpublish as (d' & root' & -> & Hroot' & Husers & Hview). cbn [snd].
  rewrite (resolve_view d' root' _ Hroot'), Husers, Hview. rewrite (resolve_view d root _ Hroot) in Hold.
  by rewrite (spec_resolve_commit _ _ _ _ _ profileID old).
Qed.
End follows.

(** ** The cache built from a logbook *)

(** A branch of saves and deletes *)
Definition save_or_delete (op : Op) : Prop :=
  op_Model op = CommitModel ∧ (op_Type op = OpTypeInit ∨ op_Type op = OpTypeRemove).

Lemma history_refs_live refs vs ops vs' : Forall save_or_delete ops → live vs ops = Some vs' →
  history_refs ops (refs ++ map op_Ref vs) = Ok (refs ++ map op_Ref vs').
Proof.
  intros Hops. revert vs. induction Hops as [|op ops [Hm Ht] _ IH]; intros vs; cbn [live history_refs].
  { by intros [= <-]. }
  unfold live_step at 1. rewrite Hm. destruct Ht as [Ht|Ht]; rewrite Ht; decide_const.
  - cbn [mbind option_bind]. intros Hl. rewrite <- app_assoc. change [op_Ref op] with (map op_Ref [op]).
    rewrite <- map_app. by apply IH.
  - case_decide as Hn; [|done]. cbn [mbind option_bind]. intros Hl.
    rewrite take_minus by (rewrite length_app, length_map; lia). cbn [mbind outcome_bind].
    rewrite <- (IH _ Hl). f_equal.
    rewrite take_app_ge by (rewrite length_app, length_map; lia). f_equal.
    rewrite <- firstn_map. f_equal. rewrite length_app, length_map. lia.
Qed.

(** C32: rebuilding finds the newest version. For a branch of saves and deletes,
    the entry built from the logbook has the path of the version the history
    lists first, or none when it lists none, and its index is the number of
    versions listed. After a delete this is what the name should resolve to,
    where the logbook itself answers a deleted version. *)
Theorem rebuild_listed blog o ops vs :
  lg_Ops blog = o :: ops → op_Model o = BranchModel → op_Type o = OpTypeInit → op_Ref o = "" →
  Forall save_or_delete ops → live [] (o :: ops) = Some vs →
  ∃ all, branchToVersionInfos blog zero_Ref 0 (-1) true = Ok all ∧
    convertHistoryToIndexAndRef blog = Ok (Z.of_nat (length all), from_option vi_Path "" (head all)).
Proof.
  intros Hblog Hm Ht Href Hops Hl. exists (reverse (map (versionInfoFromOp zero_Ref) vs)). split.
  { unfold branchToVersionInfos. rewrite Hblog, (history_run_live0 zero_Ref _ vs); [by apply history_page_eq| |done].
    constructor; [by left|]. eapply Forall_impl; [exact Hops|]. intros op [Hm' [Ht'|Ht']]; right; auto. }
  unfold convertHistoryToIndexAndRef. rewrite Hblog. cbn [history_refs]. rewrite Ht. decide_const. rewrite Href.
  cbn [live] in Hl. unfold live_step at 1 in Hl. rewrite Hm in Hl. decide_const_in Hl. cbn [mbind option_bind] in Hl.
  pose proof (history_refs_live [""] [] ops vs Hops Hl) as Hrun. cbn [map app] in Hrun. cbn [app]. rewrite Hrun.
  cbn [mbind outcome_bind]. rewrite length_reverse, length_map. cbn [length]. rewrite length_map.
  unfold index. rewrite decide_False by lia. replace (Z.to_nat _) with (length vs) by lia.
  destruct vs as [|v vs _] using rev_ind; [done|].
  rewrite length_app, map_app, map_app, reverse_app. cbn [length map app reverse rev_append head from_option].
  replace (length vs + 1) with (S (length vs)) by lia.
  rewrite lookup_cons_ne_0 by lia. cbn [Init.Nat.pred]. rewrite lookup_app_r, length_map, Nat.sub_diag by (by rewrite length_map).
  cbn. do 2 f_equal. lia.
Qed.

(** A branch whose last operation records a push *)
Theorem rebuild_after_push blog ops ts revisions addr refs :
  lg_Ops blog = ops ++ [mkOp OpTypeInit PushModel "" "" [addr] "" "" ts revisions ""] →
  history_refs ops [] = Ok refs →
  convertHistoryToIndexAndRef blog = Ok (Z.of_nat (length refs), "").
Proof.
  intros Hblog Hrefs. unfold convertHistoryToIndexAndRef. rewrite Hblog.
  assert (∀ refs0, history_refs ops refs0 = Ok refs →
    history_refs (ops ++ [mkOp OpTypeInit PushModel "" "" [addr] "" "" ts revisions ""]) refs0 = Ok (refs ++ [""])) as Happ.
  { clear. induction ops as [|op ops IH]; intros refs0; cbn [history_refs app]; [by intros [= ->]|].
    case_decide; [|apply IH]. destruct (slice_to _ _) as [refs1|e|]; [apply IH|done..]. }
  rewrite (Happ [] Hrefs). cbn [mbind outcome_bind]. unfold index. rewrite length_app. cbn [length].
  rewrite decide_False by lia. replace (Z.to_nat _) with (length refs) by lia.
  rewrite lookup_app_r, Nat.sub_diag by lia. cbn. do 2 f_equal. lia.
Qed.

(** ** A concrete instance *)
Module CacheDemo.
Import Demo.

Definition ref_tuple (r : RefEntryInfo) :=
  (re_InitID r, re_ProfileID r, re_TopIndex r, re_CursorIndex r, re_PrettyName r, re_Published r, re_Foreign r,
   re_MetaTitle r, (re_ThemeList r, re_BodySize r, re_BodyRows r, re_BodyFormat r, re_NumErrors r, re_CommitTime r,
   re_NumVersions r, re_HeadRef r, re_FsiPath r)).
Definition tuple_ref '(i, p, t, c, n, pb, fo, m, (th, bs, br, bf, ne, ct, nv, h, fp)) : RefEntryInfo :=
  mkRefEntryInfo i p t c n pb fo m th bs br bf ne ct nv h fp.
Definition cache_text (c : FbDscache) : string :=
  bits_of (encode (map (λ u, (ua_Username u, ua_ProfileID u)) (fb_users c), map ref_tuple (fb_refs c))).
Definition text_cache (s : string) : FbDscache :=
  match decode (of_bits s) with
  | Some (us, rs) => mkFbDscache (map (λ u, mkUserAssoc u.1 u.2) us) (map tuple_ref rs)
  | None => mkFbDscache [] []
  end.
#[export] Instance cache_bytes : DscacheBytes := {|
  fb_finish_Dscache := cache_text;
  fb_root_Dscache := text_cache;
  fb_Refs_beyond _ _ := Panic;
  fb_add_default x := x;
|}.
#[export] Instance cache_bytes_laws : DscacheBytesLaws cache_bytes.
Proof.
  intros [us rs]. cbn. unfold text_cache, cache_text. cbn [fb_users fb_refs]. rewrite of_bits_of, decode_encode. f_equal.
  - rewrite map_map. rewrite <- (map_id us) at 2. by apply map_ext; intros [].
  - rewrite map_map. rewrite <- (map_id rs) at 2. by apply map_ext; intros [].
Qed.

Abbreviation disk := (gmap string string).
#[export] Instance disk_writer : FileWriter disk := λ name data f, (Ok tt, <[name := data]> f).
#[export] Instance disk_laws : FileWriterLaws disk.
Proof.
  refine {| file_text f name := f !! name |}; [done|].
  unfold WriteFile, disk_writer. intros name data f f' [= <-]. apply lookup_insert_eq.
Defined.

Definition entry (id profileID name path : string) : RefEntryInfo :=
  mkRefEntryInfo id profileID 0 0 name false false "" "" 0 0 "" 0 0 0 path "".
Definition root1 : FbDscache :=
  mkFbDscache [mkUserAssoc "alice" "QmAlice"] [entry cities_id "QmAlice" "cities" ""; entry "b" "QmAlice" "rivers" "/r"].
Definition cache1 : Dscache disk := mkDscache "dscache.qfb" (Some root1) "" false None "alice" ∅.

Definition change (typ id path dir : string) : Event DsChange :=
  mkEvent typ 0 "" (mkDsChange id 1 "" "" "" path None dir).
Definition session : list (Event DsChange) :=
  [change ETDatasetCommitChange "b" "/r2" ""; change ETDatasetCreateLink "b" "" "/home/rivers";
   change ETDatasetDeleteAll cities_id "" ""].

Lemma events_refined_witness :
  ∃ d', handle_all session cache1 = (Ok tt, d') ∧
    Dscache_ResolveRef (Some d') (mkRef "" "alice" "" "rivers" "") = (Ok "", mkRef "b" "alice" "QmAlice" "rivers" "/r2").
Proof.
  destruct (events_refined session cache1 root1 (mkRef "" "alice" "" "rivers" "")) as (d' & Hrun & Hres).
  - reflexivity.
  - repeat (apply List.Forall_cons; [discriminate|]). apply List.Forall_nil.
  - exists d'. split; [exact Hrun|]. rewrite Hres. vm_compute. reflexivity.
Defined.

Definition created : Event DsChange :=
  mkEvent ETDatasetNameInit 0 "" (mkDsChange "c" 0 "QmAlice" "alice" "lakes" "" None "").
Lemma init_forgets_witness :
  ∃ d' root', cache_handler Some created cache1 = (Ok tt, d') ∧ d_Root d' = Some root' ∧ length (fb_refs root') = 2.
Proof.
  destruct (init_forgets created cache1 root1) as (d' & root' & Hrun & Hroot & _ & _ & Hlen).
  - reflexivity.
  - reflexivity.
  - vm_compute. lia.
  - exists d', root'. split; [exact Hrun|]. split; [exact Hroot|exact Hlen].
Defined.

Definition cached_inited : Book (F := sink) (P := bus DsChange (Dscache disk) * Dscache disk) :=
  mkBook (b_store inited) (b_pk inited) (b_authorID inited) (b_authorName inited) (b_fsLocation inited) Sink
    (subscribe_cache NewBus, cache1) (b_tick inited).
Definition cities1 : Dataset := version "/ipfs/Qm1" "" 10.
Definition cached_saved := (WriteVersionSave cities_id cities1 None cached_inited).2.

Lemma cache_follows_save_witness :
  Dscache_ResolveRef (Some (b_publisher cached_saved).2) (mkRef "" "alice" "QmAlice" "cities" "") =
    (Ok "", mkRef cities_id "alice" "QmAlice" "cities" "/ipfs/Qm1") ∧
  Book_ResolveRef (Some cached_saved) (mkRef "" "alice" "QmAlice" "cities" "") =
    (Ok "", mkRef cities_id "alice" "QmAlice" "cities" "/ipfs/Qm1").
Proof.
  apply (cache_follows_save cities_id cities1 None (commit 10 "edit") [0; 0]
    (default (InitLog zero_Op) (lookup_addr [0; 0] (j_logs (b_store inited))))
    (default (InitLog zero_Op) (lookup_addr [0; 0; 0] (j_logs (b_store inited)))) cached_inited cached_saved "k"
    "alice" "cities" "QmAlice" cache1 root1 "").
  - repeat first [constructor | discriminate].
  - reflexivity.
  - vm_compute. reflexivity.
  - vm_compute. reflexivity.
  - vm_compute. reflexivity.
  - vm_compute. reflexivity.
  - reflexivity.
  - unfold owned. eexists _, _, _. split_and!; vm_compute; reflexivity.
  - vm_compute. reflexivity.
  - reflexivity.
  - discriminate.
  - discriminate.
  - reflexivity.
  - reflexivity.
  - vm_compute. reflexivity.
  - unfold cached_saved. rewrite (surjective_pairing (WriteVersionSave _ _ _ _)) at 1. f_equal.
Defined.

Definition init_op : Op := mkOp OpTypeInit BranchModel "" "" [] "main" "a" 1 0 "".
Definition save_op (path : string) : Op := mkOp OpTypeInit CommitModel path "" [] "" "" 2 0 "".
Definition delete_op : Op := mkOp OpTypeRemove CommitModel "" "" [] "" "" 3 1 "".
Definition deleted_ops : list Op := [save_op "/a"; save_op "/b"; save_op "/c"; delete_op].
Definition deleted_branch : Log := set_Ops (init_op :: deleted_ops) (InitLog init_op).

Lemma rebuild_listed_witness :
  ∃ all, branchToVersionInfos deleted_branch zero_Ref 0 (-1) true = Ok all ∧
    convertHistoryToIndexAndRef deleted_branch = Ok (Z.of_nat (length all), from_option vi_Path "" (head all)).
Proof.
  apply (rebuild_listed deleted_branch init_op deleted_ops [save_op "/a"; save_op "/b"]).
  - reflexivity.
  - reflexivity.
  - reflexivity.
  - reflexivity.
  - repeat (apply List.Forall_cons; [split; [reflexivity|by first [left; reflexivity|right; reflexivity]]|]).
    apply List.Forall_nil.
  - reflexivity.
Defined.
End CacheDemo.
