(* ===== verification/FillSpec.v ===== *)
(** * Theorems of filling structures

    Filling cannot panic on clean data, is strict about unknown keys, finds
    exactly the data that fit, and reads back what a structure is written as. *)
From S2P Require Export FillFacts.

Section spec.
Context `{FillEnv}.

(** Clean data never panic. Data as a JSON decoder makes them, with nulls in
    objects but not in arrays, fill a structure of exported fields without a
    panic: the call answers the filled structure and the errors found. *)
Theorem Struct_safe fields name setter fs output :
  settable (TStruct name setter fs) → has_type (TStruct name setter fs) output → clean (VMap fields) →
  ∃ p err, Struct fields (TStruct name setter fs) output = Ok (p, err) ∧ has_type (TStruct name setter fs) p.
Proof.
  intros Hset Hold Hclean. unfold Struct. cbn [putFieldsToTargetStruct].
  assert (ends False (has_type (TStruct name setter fs)) (put_struct putValueToPlace name setter fs false fields output)) as Hrun.
  { apply struct_ends; [|done|by right]. apply Forall_forall. intros f _. apply put_fills. }
  specialize (Hrun NewErrorCollector).
  destruct (put_struct _ _ _ _ _ _ _ _) as [[p|e|] c]; [|done..]. destruct Hrun as [Hp _]. by eexists _, _.
Qed.

(** A null in an array of strings, numbers, booleans or of anything panics. *)
Theorem null_in_slice_panics elem old c :
  match elem with TBool | TInt | TInt64 | TUint64 | TFloat64 | TString | TInterface | TTime => True | _ => False end →
  (putValueToPlace (TSlice elem) false (VSlice [VNil]) old c).1 = Panic.
Proof. by destruct elem. Qed.

(** ** Strictness *)
Lemma fields_used m ro fields olds c r c' : fields_loop putValueToPlace m ro fields olds c = (Ok r, c') →
  ∀ k, k ∈ r.2 → ∃ f v, f ∈ fields ∧ field_value m f.1 = Some (k, v).
Proof.
  revert olds c r c'. induction fields as [|f fields IH]; intros [|old olds] c r c'; cbn [fields_loop];
    try (intros [= <- <-] k Hk; by apply not_elem_of_nil in Hk).
  rewrite stM_bind_Ok. intros (one & c1 & Hone & Hrest). apply stM_bind_Ok in Hrest as (rest & c2 & Hrest & [= <- <-]).
  cbn [snd]. intros k [Hk|Hk]%elem_of_app.
  - exists f. destruct (field_value m f.1) as [[key val]|].
    + assert (one.2 = [key]) as Hkey.
      { destruct val; try (apply stM_bind_Ok in Hone as (? & ? & _ & Hone)); by injection Hone as <- _. }
      rewrite Hkey in Hk. apply list_elem_of_singleton in Hk as ->. exists val. split; [by left|done].
    + injection Hone as <- _. by apply not_elem_of_nil in Hk.
  - destruct (IH olds c1 rest c2 Hrest k Hk) as (g & v & Hg & Hv). exists g, v. split; [by right|done].
Qed.

Lemma unknown_used name used m c r c' : unknown_loop name false used m c = (Ok r, c') →
  length (ec_errs c) ≤ length (ec_errs c') ∧ (ec_errs c' = [] → ∀ k, k ∈ m.*1 → k ∈ used).
Proof.
  revert c r. induction m as [|[k v] m IH]; intros c r; cbn [unknown_loop].
  { intros [= <- <-]. split; [done|]. intros _ k Hk. by apply not_elem_of_nil in Hk. }
  case_decide as Hk.
  - intros Hrun. destruct (IH _ _ Hrun) as [Hle Hall]. split; [done|]. intros He k'.
    intros [->|Hk']%elem_of_cons; [done|]. by apply Hall.
  - unfold add_err, mbind at 1, stM_bind, st_modify. intros Hrun. destruct (IH _ _ Hrun) as [Hle _].
    unfold Add in Hle. cbn [ec_errs] in Hle. rewrite length_app in Hle. cbn in Hle.
    split; [lia|]. intros He. rewrite He in Hle. cbn in Hle. lia.
Qed.

Lemma caseMap_key ks n k : caseMap ks !! n = Some k → strings_ToLower k = n ∧ k ∈ ks.
Proof.
  unfold caseMap. assert (∀ (m : gmap string string), (∀ n k, m !! n = Some k → strings_ToLower k = n ∧ k ∈ ks) →
    ∀ l, l ⊆ ks → foldl (λ m k, <[strings_ToLower k := k]> m) m l !! n = Some k → strings_ToLower k = n ∧ k ∈ ks) as Hfold.
  { intros m Hm l. revert m Hm. induction l as [|x l IH]; intros m Hm Hl; cbn [foldl]; [by apply Hm|].
    apply IH; [|set_solver]. intros n' k' [[<- <-]|[_ Hk]]%lookup_insert_Some; [set_solver|by apply Hm]. }
  intros Hk. apply (Hfold ∅ ltac:(by intros ??; rewrite lookup_empty) ks); [done|exact Hk].
Qed.

(** Filling is strict. When a structure that takes no other keys is filled
    without an error, every key of the data is, but for its case, the name of
    a field, or empty. *)
Theorem Struct_strict fields name fs output p k :
  Struct fields (TStruct name false fs) output = Ok (p, None) →
  (∃ ps arb, output = PStruct ps arb) → k ∈ fields.*1 →
  k = "" ∨ ∃ f, f ∈ fs ∧ lower_name f.1 = strings_ToLower k.
Proof.
  intros Hrun (ps & arb & ->) Hk. unfold Struct in Hrun. cbn [putFieldsToTargetStruct put_struct] in Hrun.
  destruct ((r ← fields_loop putValueToPlace fields false fs ps; _) NewErrorCollector) as [[q|e|] c] eqn:Hq; [|done..].
  injection Hrun as -> Herr. apply AsSingleError_None in Herr.
  apply stM_bind_Ok in Hq as (r & c1 & Hr & Hq). apply stM_bind_Ok in Hq as (extra & c2 & Hextra & [= _ ->]).
  destruct (unknown_used _ _ _ _ _ _ Hextra) as [_ Hall]. specialize (Hall Herr k Hk).
  destruct (fields_used _ _ _ _ _ _ _ Hr k Hall) as (f & v & Hf & Hv). unfold field_value in Hv.
  destruct (find_index_from _ _ _) as [[i kv]|] eqn:Hfind; [|done]. injection Hv as ->.
  apply find_index_from_Some in Hfind as (j & _ & _ & Hkey & _). apply bool_decide_eq_true in Hkey. cbn [fst] in Hkey.
  destruct (caseMap fields.*1 !! lower_name f.1) as [key|] eqn:Hcase; cbn [default from_option id] in Hkey; subst; [|by left].
  right. exists f. split; [done|]. symmetry. by apply caseMap_key in Hcase as [? _].
Qed.
End spec.

(** ** Witnesses *)
Module FillDemo.
#[local] Instance demo_env : FillEnv := {|
  fmt_s := λ v, match v with VString s => s | _ => "?" end;
  fmt_v := λ _, "?";
  fmt_sharp_v := λ _, "?";
  time_Parse_RFC3339 := λ s, if decide (s = "2020-01-01T00:00:00Z") then Some 1577836800%Z else None;
  float_out_of_int64 := λ _, int64_min;
  float_out_of_uint64 := λ _, 0%Z;
|}.

(** A dataset's meta, with a list of its contributors *)
Definition user_t : gtype := TStruct "dataset.User" false [(mkField "ID" "id,omitempty" true, TString)].
Definition meta_t : gtype := TStruct "dataset.Meta" false
  [(mkField "Title" "title,omitempty" true, TString);
   (mkField "Size" "" true, TInt);
   (mkField "Created" "created" true, TTime);
   (mkField "Contributors" "contributors" true, TSlice (TPtr user_t))].
Definition meta_data : list (string * data) :=
  [("TITLE", VString "t"); ("size", VFloat (float64_of_int 3)); ("created", VString "2020-01-01T00:00:00Z");
   ("contributors", VSlice [VMap [("id", VString "a")]])].
Definition meta_filled : place :=
  PStruct [PString "t"; PInt 3; PTime 1577836800;
           PSlice (Some [PPtr (Some (PStruct [PString "a"] []))])] [].

Lemma filled : Struct meta_data meta_t (zero_place meta_t) = Ok (meta_filled, None).
Proof. vm_compute. reflexivity. Qed.

Lemma Struct_safe_witness : ∃ p err,
  Struct meta_data meta_t (zero_place meta_t) = Ok (p, err) ∧ has_type meta_t p.
Proof. apply Struct_safe; [cbn; tauto|apply (zero_typed meta_t)|cbn; tauto]. Defined.

Lemma Struct_strict_witness :
  "TITLE" = "" ∨ ∃ f, f ∈ [(mkField "Title" "title,omitempty" true, TString);
    (mkField "Size" "" true, TInt); (mkField "Created" "created" true, TTime);
    (mkField "Contributors" "contributors" true, TSlice (TPtr user_t))] ∧ lower_name f.1 = strings_ToLower "TITLE".
Proof.
  eapply (Struct_strict meta_data "dataset.Meta" _ (zero_place meta_t)); [exact filled|by do 2 eexists|by left].
Defined.
End FillDemo.

(** * Filling reads back what a structure is written as

    [dump] writes a place as decoded data, the way an encoder with the same
    names followed by a decoder does; filling an empty place with it gives the
    place back, without an error. *)
Section dump.
Context `{FillEnv} (time_Format : Z → string).

(** The name a field is written under *)
Definition field_key (f : field_info) : string :=
  if decide (f_json f = "") then f_Name f
  else match strings_Split (f_json f) "," with n :: _ => n | [] => "" end.
Lemma lower_field_key f : lower_name f = strings_ToLower (field_key f).
Proof. unfold lower_name, field_key. by case_decide. Qed.

Definition zip_with2 {A B C} (g : A → B → C) : list A → list B → list C :=
  fix go l k := match l, k with x :: l, y :: k => g x y :: go l k | _, _ => [] end.

Fixpoint dump (t : gtype) (p : place) {struct t} : data :=
  match t, p with
  | TBool, PBool b => VBool b
  | TInt, PInt z => VInt z
  | TInt64, PInt64 z => VInt64 z
  | TUint64, PUint64 z => VUint64 z
  | TFloat64, PFloat64 f => VFloat f
  | TString, PString s => VString s
  | TInterface, PInterface v => v
  | TTime, PTime t => VString (time_Format t)
  | TStruct _ _ fields, PStruct ps _ => VMap (zip_with2 (λ f p, (field_key f.1, dump f.2 p)) fields ps)
  | TMap TString, PStrMap (Some m) => VMap (map (λ kv, (kv.1, VString kv.2)) m)
  | TMap TInterface, PMap (Some m) => VMap m
  | TSlice TByte, PBytes (Some s) => VBytes s
  | TSlice elem, PSlice (Some l) => VSlice (map (dump elem) l)
  | TArray _ elem, PArray l => VSlice (map (dump elem) l)
  | TPtr elem, PPtr (Some p) => dump elem p
  | _, _ => VNil
  end.

(** What can be written: fields are exported and told apart, no element of an
    array and no target of a pointer reads as null, times survive their text,
    and values of no type of their own hold string keys. *)
Fixpoint canon (t : gtype) (p : place) {struct t} : Prop :=
  match t, p with
  | TBool, PBool _ | TInt, PInt _ | TInt64, PInt64 _ | TUint64, PUint64 _ | TFloat64, PFloat64 _ | TString, PString _ => True
  | TInterface, PInterface v => match v with VIMap _ => False | _ => True end
  | TTime, PTime t => time_Parse_RFC3339 (time_Format t) = Some t
  | TStruct _ _ fields, PStruct ps arb =>
      arb = [] ∧ Forall (λ f, f_exported f.1 = true) fields ∧ NoDup (map (λ f, lower_name f.1) fields) ∧
      all2 (λ f, canon f.2) fields ps
  | TMap TString, PStrMap _ => True
  | TMap TInterface, PMap _ => True
  | TSlice TByte, PBytes _ => True
  | TSlice elem, PSlice l =>
      elem ≠ TByte ∧ match l with Some l => Forall (λ p, canon elem p ∧ dump elem p ≠ VNil) l | None => True end
  | TArray n elem, PArray l => length l = n ∧ Forall (λ p, canon elem p ∧ dump elem p ≠ VNil) l
  | TPtr elem, PPtr p => match p with Some p => canon elem p ∧ dump elem p ≠ VNil | None => True end
  | _, _ => False
  end.

Lemma dump_nil t p : canon t p → dump t p = VNil → p = zero_place t.
Proof.
  destruct t as [| | | | | | | | |? ? ?|e|e|? e|e|?], p; cbn; try done; try (by intros _ [= ->]).
  all: try (by destruct e; destruct_or?; repeat case_match; naive_solver).
  all: try (by repeat case_match; naive_solver).
Qed.

(** A run that leaves everything as it was *)
Definition quiet {A} (m : stM ErrorCollector A) (a : A) : Prop := ∀ c, m c = (Ok a, c).
Lemma quiet_ret {A} (a : A) : quiet (mret a) a.
Proof. done. Qed.
Lemma quiet_bind {A B} (m : stM ErrorCollector A) (f : A → stM ErrorCollector B) a b :
  quiet m a → quiet (f a) b → quiet (m ≫= f) b.
Proof. intros Hm Hf c. unfold mbind, stM_bind. rewrite Hm. apply Hf. Qed.
Lemma quiet_in_field {A} name (m : stM ErrorCollector A) a : quiet m a → quiet (in_field name m) a.
Proof.
  intros Hm c. unfold in_field, mbind, stM_bind, st_modify, st_get, st_lift. rewrite Hm.
  unfold PopField. cbn [PushField ec_fields]. rewrite slice_to_drop_last. cbn. by destruct c.
Qed.
Hint Resolve quiet_ret quiet_in_field : qri.

(** ** Keys *)
Lemma caseMap_lookup ks k : NoDup (map strings_ToLower ks) → k ∈ ks → caseMap ks !! strings_ToLower k = Some k.
Proof.
  unfold caseMap. induction ks as [|x ks IH] using rev_ind; [by intros _ ?%not_elem_of_nil|].
  rewrite map_app, foldl_app. cbn. intros (Hnd & Hx & _)%NoDup_app Hk.
  destruct (decide (k = x)) as [->|Hne]; [by rewrite lookup_insert_eq|].
  apply elem_of_app in Hk as [Hk|Hk%list_elem_of_singleton]; [|done].
  rewrite lookup_insert_ne; [by apply IH|]. intros Heq. apply (Hx (strings_ToLower k)); [|rewrite Heq; by left].
  apply list_elem_of_fmap. by exists k.
Qed.

Lemma find_key (m : list (string * data)) k v n : NoDup m.*1 → (k, v) ∈ m →
  snd <$> find_index_from (λ kv, bool_decide (kv.1 = k)) n m = Some (k, v).
Proof.
  revert n. induction m as [|[k' v'] m IH]; intros n; [by intros _ ?%not_elem_of_nil|].
  intros [Hk' Hnd]%NoDup_cons Hin. cbn [find_index_from fst].
  case_bool_decide as Hk.
  - subst. apply elem_of_cons in Hin as [[= ->]|Hin]; [done|]. destruct Hk'. apply list_elem_of_fmap. by exists (k, v).
  - apply elem_of_cons in Hin as [[= -> ->]|Hin]; [done|]. by apply IH.
Qed.

Lemma field_value_written (m : list (string * data)) f v :
  NoDup (map strings_ToLower m.*1) → (field_key f, v) ∈ m → field_value m f = Some (field_key f, v).
Proof.
  intros Hnd Hin. unfold field_value. rewrite lower_field_key, caseMap_lookup;
    [|done|by apply list_elem_of_fmap; exists (field_key f, v)]. cbn [default from_option id].
  apply find_key; [|done]. by eapply NoDup_fmap_1.
Qed.

(** ** Values *)
Context (Hfmt : ∀ s, fmt_s (VString s) = s).

Definition reads (t : gtype) : Prop := ∀ p, canon t p → dump t p ≠ VNil →
  quiet (putValueToPlace t false (dump t p) (zero_place t)) p.

Lemma elems_quiet push e i l : reads e → Forall (λ p, canon e p ∧ dump e p ≠ VNil) l →
  quiet (elems_loop putValueToPlace push e i (map (dump e) l)) l.
Proof.
  intros He Hl. revert i. induction Hl as [|p l [Hp Hne] _ IH]; intros i; cbn [map elems_loop]; [apply quiet_ret|].
  eapply quiet_bind; [|eapply quiet_bind; [apply IH|apply quiet_ret]].
  destruct push; auto using quiet_in_field.
Qed.

Definition written (fields : list (field_info * gtype)) (ps : list place) : list (string * data) :=
  zip_with2 (λ f p, (field_key f.1, dump f.2 p)) fields ps.
Lemma written_keys fields ps : length fields = length ps → (written fields ps).*1 = map (λ f, field_key f.1) fields.
Proof.
  revert ps. induction fields as [|f fields IH]; intros [|p ps]; cbn; try done.
  intros [= Hl]. by rewrite <- (IH ps).
Qed.

Lemma fields_quiet m fields ps :
  Forall (λ f, reads f.2) fields → Forall (λ f, f_exported f.1 = true) fields → Forall2 (λ f p, canon f.2 p) fields ps →
  NoDup (map strings_ToLower m.*1) → written fields ps ⊆ m →
  quiet (fields_loop putValueToPlace m false fields (map (λ f, zero_place f.2) fields))
    (ps, map (λ f, field_key f.1) fields).
Proof.
  intros Hr Hex Hps Hnd. induction Hps as [|f p fields ps Hp Hps IH]; intros Hin; cbn [map fields_loop]; [apply quiet_ret|].
  apply Forall_cons in Hr as [Hf Hr]. apply Forall_cons in Hex as [Hexf Hex]. cbn [written zip_with2] in Hin.
  rewrite (field_value_written m f.1 (dump f.2 p)); [|done|apply Hin; by left].
  apply (quiet_bind _ _ (p, [field_key f.1])); [|eapply quiet_bind; [apply IH; [done..|]|apply quiet_ret]].
  - assert (dump f.2 p = VNil ∨ dump f.2 p ≠ VNil) as [Hnil|Hne] by (destruct (dump f.2 p); by (left + right)).
    + rewrite Hnil, (dump_nil _ _ Hp Hnil). apply quiet_ret.
    + assert (quiet (new ← in_field (f_Name f.1) (putValueToPlace f.2 (false || negb (f_exported f.1)) (dump f.2 p) (zero_place f.2));
        mret (new, [field_key f.1])) (p, [field_key f.1])) as Hq.
      { eapply quiet_bind; [|apply quiet_ret]. apply quiet_in_field. rewrite Hexf. by apply Hf. }
      by destruct (dump f.2 p).
  - intros x Hx. apply Hin. by right.
Qed.

Lemma unknown_quiet name setter used m : m.*1 ⊆ used → quiet (unknown_loop name setter used m) [].
Proof.
  induction m as [|[k v] m IH]; cbn [unknown_loop]; [by intros ??|]. intros Hu.
  rewrite decide_True by (apply Hu; by left). apply IH. intros x Hx. apply Hu. by right.
Qed.

Lemma struct_quiet name setter fields ps arb : Forall (λ f, reads f.2) fields → canon (TStruct name setter fields) (PStruct ps arb) →
  quiet (put_struct putValueToPlace name setter fields false (written fields ps) (zero_place (TStruct name setter fields)))
    (PStruct ps arb).
Proof.
  intros Hr (-> & Hex & Hnd & Hps). apply all2_Forall2 in Hps. cbn [zero_place put_struct].
  pose proof (Forall2_length _ _ _ Hps) as Hlen.
  eapply quiet_bind; [apply fields_quiet; [done..| |done]|].
  { rewrite (written_keys _ ps) by done. rewrite map_map. 
    rewrite (map_ext _ (λ f : field_info * gtype, lower_name f.1)); [done|]. intros f. symmetry. apply lower_field_key. }
  eapply quiet_bind; [|apply quiet_ret]. apply unknown_quiet. by rewrite written_keys.
Qed.

Lemma put_dump t : reads t.
Proof.
  induction t as [t Ht|name setter fields IH|e IH|e IH|n e IH|e IH] using gtype_fields_ind; intros p Hp Hne.
  - destruct t, p; try done; cbn in Hp |- *; try (by apply quiet_ret).
    + by destruct v.
    + by rewrite Hp.
  - destruct p; try done. cbn [dump putValueToPlace toStringMap]. by apply struct_quiet.
  - destruct e, p; try done; cbn in Hne |- *; destruct m as [m|]; try done.

    rewrite map_map. cbn. rewrite (map_ext _ id) by (intros [k v]; cbn; by rewrite Hfmt). rewrite map_id. apply quiet_ret.
  - assert (∀ l, Forall (λ p, canon e p ∧ dump e p ≠ VNil) l → quiet
      (create ← elems_loop putValueToPlace true e 0 (map (dump e) l); set false (PSlice (Some create))) (PSlice (Some l))) as Hrun.
    { intros l Hl. eapply quiet_bind; [by apply elems_quiet|apply quiet_ret]. }
    destruct e, p; cbn in Hp; try (by destruct Hp); destruct_and?; cbn in Hne |- *;
      lazymatch goal with
      | _ : context [match ?o with Some _ => _ | None => VNil end] |- _ => destruct o
      end; try done; first [by apply Hrun|by apply quiet_ret].
  - destruct p as [| | | | | | | | | | | | | | |l| |]; try done. destruct Hp as [<- Hl]. cbn [dump putValueToPlace].
    rewrite decide_True by (by rewrite length_map). eapply quiet_bind; [by apply elems_quiet|apply quiet_ret].
  - destruct p as [| | | | | | | | | | | | | | | |[p|]|]; try done. destruct Hp as [Hp Hnil]. cbn [dump putValueToPlace].
    assert (quiet (inner ← putValueToPlace e false (dump e p) (zero_place e); mret (PPtr (Some inner))) (PPtr (Some p))) as Hq.
    { eapply quiet_bind; [by apply IH|apply quiet_ret]. }
    by destruct (dump e p).
Qed.

(** C18: filling reads back what a structure is written as. The structure has
    exported fields with names of their own, case aside, and no keys besides;
    what it holds is, to any depth, numbers, strings, bytes, times whose text
    parses back, maps to strings or to anything, values that are no map with
    keys of any kind, further such structures, and pointers, slices and arrays
    of such things of which none is written as null ([canon]; a null in a slice
    panics, [null_in_slice_panics]). An empty structure of its type, filled
    with what it is written as, is that structure, and no error is found. *)
Theorem Struct_dump name setter fields ps arb :
  canon (TStruct name setter fields) (PStruct ps arb) →
  Struct (written fields ps) (TStruct name setter fields) (zero_place (TStruct name setter fields)) =
    Ok (PStruct ps arb, None).
Proof.
  intros Hp. unfold Struct. cbn [putFieldsToTargetStruct].
  rewrite (struct_quiet name setter fields ps arb); [done| |done]. apply Forall_forall. intros f _. apply put_dump.
Qed.
End dump.

(** * What filling finds

    Data fit a type when they are a form of a place of that type; filling finds
    that place, or an error. *)

(** Data as a JSON decoder makes them, with nulls in objects only, and with keys
    that are told apart without their case *)
Fixpoint tidy (v : data) : Prop :=
  match v with
  | VNil | VIMap _ => False
  | VMap m =>
      NoDup (map (λ kv, strings_ToLower kv.1) m) ∧ "" ∉ m.*1 ∧
      (fix go (m : list (string * data)) :=
         match m with [] => True | kv :: m => (kv.2 = VNil ∨ tidy kv.2) ∧ go m end) m
  | VSlice l => (fix go l := match l with [] => True | v :: l => tidy v ∧ go l end) l
  | _ => True
  end.
Lemma tidy_entry m k v : tidy (VMap m) → (k, v) ∈ m → v = VNil ∨ tidy v.
Proof.
  intros (_ & _ & Hm). induction m as [|x m IH]; [by intros ?%not_elem_of_nil|].
  destruct Hm as [Hx Hm]. intros [<-|Hin]%elem_of_cons; [done|by apply IH].
Qed.
Lemma tidy_elems l : tidy (VSlice l) → Forall tidy l.
Proof. induction l as [|x l IH]; [constructor|]. intros [Hx Hl]. constructor; [done|by apply IH]. Qed.

Section fits.
Context `{FillEnv}.

(** Entries no field is named by *)
Definition unknown_entry (fields : list (field_info * gtype)) (kv : string * data) : bool :=
  bool_decide (strings_ToLower kv.1 ∉ map (λ f, lower_name f.1) fields).

(** [v] is a form of the place [p] of type [t]: a field is named by a key,
    whatever its case, or is as it was; numbers are numbers of any kind. *)
Fixpoint form (t : gtype) (p : place) (v : data) {struct t} : Prop :=
  match t with
  | TBool => match p, v with PBool b, VBool b' => b = b' | _, _ => False end
  | TInt => match p, v with PInt z, VInt n => z = n | PInt z, VFloat f => z = float64_to_int64 f | _, _ => False end
  | TInt64 =>
      match p, v with
      | PInt64 z, (VInt n | VInt64 n) => z = n | PInt64 z, VFloat f => z = float64_to_int64 f | _, _ => False
      end
  | TUint64 =>
      match p, v with
      | PUint64 z, (VUint n | VUint64 n) => z = n | PUint64 z, VFloat f => z = float64_to_uint64 f | _, _ => False
      end
  | TFloat64 =>
      match p, v with PFloat64 f, VInt n => f = float64_of_int n | PFloat64 f, VFloat g => f = g | _, _ => False end
  | TString => match p, v with PString s, VString s' => s = s' | _, _ => False end
  | TInterface => match p with PInterface w => w = v | _ => False end
  | TTime => match p, v with PTime z, VString s => time_Parse_RFC3339 s = Some z | _, _ => False end
  | TStruct _ setter fields =>
      match p, v with
      | PStruct ps arb, VMap m =>
          all2 (λ f p,
            (∀ k x, (k, x) ∈ m → strings_ToLower k = lower_name f.1 → x ≠ VNil → form f.2 p x) ∧
            ((∀ k x, (k, x) ∈ m → strings_ToLower k = lower_name f.1 → x = VNil) → p = zero_place f.2)) fields ps ∧
          arb = List.filter (unknown_entry fields) m ∧ (setter = false → arb = [])
      | _, _ => False
      end
  | TMap TString => match p, v with PStrMap (Some l), VMap m => l = map (λ kv, (kv.1, fmt_s kv.2)) m | _, _ => False end
  | TMap _ => match p, v with PMap (Some l), VMap m => l = m | _, _ => False end
  | TSlice TByte => match p, v with PBytes (Some s), (VBytes s' | VString s') => s = s' | _, _ => False end
  | TSlice e => match p, v with PSlice (Some l), VSlice vs => all2 (form e) l vs | _, _ => False end
  | TArray n e => match p, v with PArray l, VSlice vs => length vs = n ∧ all2 (form e) l vs | _, _ => False end
  | TPtr e => match p with PPtr (Some p) => form e p v | _ => False end
  | TByte | TOther _ => False
  end.

(** No field that is not exported is set, and no map but of strings or of
    anything; the others panic. *)
Fixpoint sets (t : gtype) (v : data) {struct t} : Prop :=
  match t with
  | TStruct _ _ fields =>
      match v with
      | VMap m =>
          (fix go (fs : list (field_info * gtype)) : Prop :=
             match fs with
             | [] => True
             | f :: fs =>
                 (∀ k x, (k, x) ∈ m → strings_ToLower k = lower_name f.1 → x ≠ VNil → f_exported f.1 = true ∧ sets f.2 x) ∧ go fs
             end) fields
      | _ => True
      end
  | TMap e => match v with VMap _ => e = TString ∨ e = TInterface | _ => True end
  | TSlice e | TArray _ e => match v with VSlice vs => Forall (sets e) vs | _ => True end
  | TPtr e => sets e v
  | _ => True
  end.
Definition sets_field (m : list (string * data)) (f : field_info * gtype) : Prop :=
  ∀ k x, (k, x) ∈ m → strings_ToLower k = lower_name f.1 → x ≠ VNil → f_exported f.1 = true ∧ sets f.2 x.
Lemma sets_fields name setter fields m : sets (TStruct name setter fields) (VMap m) ↔ Forall (sets_field m) fields.
Proof.
  induction fields as [|f fields IH]; [by split; constructor|]. rewrite Forall_cons, <- IH. done.
Qed.

(** A run that ends with [a] and finds [n] errors *)
Definition finds {A} (n : nat) (a : A) (m : stM ErrorCollector A) : Prop :=
  ∀ c, ∃ es, m c = (Ok a, mkErrorCollector (ec_errs c ++ es) (ec_fields c)) ∧ length es = n.
Lemma finds_ret {A} (a : A) : finds 0 a (mret a).
Proof. intros c. exists []. rewrite app_nil_r. by destruct c. Qed.
Lemma finds_bind {A B} n k a b (m : stM ErrorCollector A) (f : A → stM ErrorCollector B) :
  finds n a m → finds k b (f a) → finds (n + k) b (m ≫= f).
Proof.
  intros Hm Hf c. destruct (Hm c) as (es & Hc & <-). destruct (Hf (mkErrorCollector (ec_errs c ++ es) (ec_fields c))) as (es' & Hc' & <-).
  exists (es ++ es'). rewrite length_app. split; [|done]. unfold mbind, stM_bind. rewrite Hc, Hc'. cbn [ec_errs ec_fields].
  by rewrite app_assoc.
Qed.
Lemma finds_add e : finds 1 tt (add_err e).
Proof. intros c. by eexists [_]. Qed.
Lemma finds_error {A} e (a : A) : finds 1 a (add_err e;; mret a).
Proof. apply (finds_bind 1 0 tt); [apply finds_add|apply finds_ret]. Qed.
Lemma finds_FieldError want v (old : place) : v ≠ VNil → finds 1 old (e ← st_lift (FieldError want v); add_err e;; mret old).
Proof.
  intros Hv. assert (∃ e, FieldError want v = Ok e) as [e He] by (unfold FieldError; destruct v; [done|by eexists..]).
  intros c. unfold mbind at 1, stM_bind at 1, st_lift. rewrite He. apply finds_error.
Qed.
Lemma finds_in_field {A} n (a : A) name m : finds n a m → finds n a (in_field name m).
Proof.
  intros Hm c. destruct (Hm (PushField name c)) as (es & Hc & Hl). exists es. split; [|done].
  unfold in_field, mbind, stM_bind, st_modify, st_get, st_lift. rewrite Hc. unfold PopField. cbn [PushField ec_fields ec_errs].
  rewrite slice_to_drop_last. done.
Qed.

(** What a run finds, against the forms of what it is given *)
Definition judges {A} (fits : A → Prop) (m : stM ErrorCollector A) : Prop :=
  ∃ a n, finds n a m ∧ (n = 0 → fits a) ∧ ∀ b, fits b → n = 0 ∧ b = a.
Lemma judges_ret {A} (fits : A → Prop) a : fits a → (∀ b, fits b → b = a) → judges fits (mret a).
Proof. intros Ha Hu. exists a, 0. split; [apply finds_ret|]. split; [done|]. intros b Hb. split; [done|by apply Hu]. Qed.
Lemma judges_error {A} (fits : A → Prop) (a : A) m : finds 1 a m → (∀ b, ¬ fits b) → judges fits m.
Proof. intros Hm Hno. exists a, 1. split; [done|]. split; [done|]. intros b Hb. by destruct (Hno b). Qed.
Lemma judges_bind {A B} (P : A → Prop) (Q : B → Prop) (g : A → B) (m : stM ErrorCollector A) :
  judges P m → (∀ a, P a → Q (g a)) → (∀ b, Q b → ∃ a, P a ∧ b = g a) → judges Q (a ← m; mret (g a)).
Proof.
  intros (a & n & Hm & Hfit & Hu) HPQ HQP. exists (g a), n. split.
  { rewrite <- (Nat.add_0_r n). eapply finds_bind; [exact Hm|apply finds_ret]. }
  split; [by intros ->; apply HPQ, Hfit|]. intros b (a' & Ha' & ->)%HQP. apply Hu in Ha' as [-> ->]. done.
Qed.
Definition fitted (t : gtype) : Prop := ∀ v, tidy v → sets t v → judges (λ p, form t p v) (putValueToPlace t false v (zero_place t)).

(** *** The elements of slices and arrays *)
Lemma elems_judged push e i vs : fitted e → Forall tidy vs → Forall (sets e) vs →
  judges (λ l, all2 (form e) l vs) (elems_loop putValueToPlace push e i vs).
Proof.
  intros He Hvs. revert i. induction Hvs as [|v vs Hv _ IH]; intros i Hs; cbn [elems_loop].
  { apply judges_ret; [done|]. by intros []. }
  apply Forall_cons in Hs as [Hs Hss].
  destruct (He v Hv Hs) as (p & n & Hp & Hfit & Hu). destruct (IH (S i) Hss) as (l & k & Hl & Hfits & Hus).
  exists (p :: l), (n + (k + 0)). split.
  - eapply finds_bind; [destruct push; [by apply finds_in_field|exact Hp]|]. eapply finds_bind; [exact Hl|apply finds_ret].
  - cbn [all2]. split; [intros Hz; split; [apply Hfit|apply Hfits]; lia|].
    intros [|q l'] Hb; [done|]. destruct Hb as [[Hn ->]%Hu [Hk ->]%Hus]. by split; [lia|].
Qed.

(** *** The entry of a field *)
Lemma field_value_named m f : NoDup (map (λ kv, strings_ToLower kv.1) m) → "" ∉ m.*1 →
  ∀ k v, field_value m f = Some (k, v) ↔ (k, v) ∈ m ∧ strings_ToLower k = lower_name f.
Proof.
  intros Hnd Hne k v. assert (NoDup (map strings_ToLower m.*1)) as Hnd' by by rewrite map_map.
  assert (NoDup m.*1) as Hnk by by eapply NoDup_fmap_1.
  unfold field_value. split.
  - destruct (find_index_from _ _ _) as [[i [k' v']]|] eqn:Hfind; [|done]. cbn. intros [= -> ->].
    apply find_index_from_Some in Hfind as (j & _ & Hj & Hk & _). apply bool_decide_eq_true in Hk. cbn in Hk.
    apply list_elem_of_lookup_2 in Hj. split; [done|].
    destruct (caseMap m.*1 !! lower_name f) as [key|] eqn:Hcase; cbn in Hk; [subst k; by apply caseMap_key in Hcase as [? _]|].
    subst k. destruct Hne. apply list_elem_of_fmap. by exists ("", v).
  - intros [Hin <-]. assert (k ∈ m.*1) as Hk by (apply list_elem_of_fmap; by exists (k, v)).
    rewrite (caseMap_lookup m.*1 k Hnd' Hk). cbn. by rewrite (find_key m k v).
Qed.
Lemma field_value_unnamed m f : NoDup (map (λ kv, strings_ToLower kv.1) m) → "" ∉ m.*1 →
  field_value m f = None → ∀ k v, (k, v) ∈ m → strings_ToLower k ≠ lower_name f.
Proof.
  intros Hnd Hne Hnone k v Hin Hk. assert (field_value m f = Some (k, v)) as Hs by by apply field_value_named. congruence.
Qed.

(** *** The fields of a structure *)
Definition field_fits (m : list (string * data)) (f : field_info * gtype) (p : place) : Prop :=
  (∀ k x, (k, x) ∈ m → strings_ToLower k = lower_name f.1 → x ≠ VNil → form f.2 p x) ∧
  ((∀ k x, (k, x) ∈ m → strings_ToLower k = lower_name f.1 → x = VNil) → p = zero_place f.2).
Definition used_by (m : list (string * data)) (f : field_info * gtype) : list string :=
  match field_value m f.1 with Some (k, _) => [k] | None => [] end.

Section fields.
Context (m : list (string * data)) (Hm : tidy (VMap m)).

Lemma tidy_named f k v k' v' : field_value m f = Some (k, v) → (k', v') ∈ m → strings_ToLower k' = lower_name f → v' = v.
Proof.
  destruct Hm as (Hnd & Hne & _). intros Hv Hin Hk. assert (field_value m f = Some (k', v')) as Hv' by by apply field_value_named.
  congruence.
Qed.
Definition judges_using {A} (ks : list string) (fits : A → Prop) (m : stM ErrorCollector (A * list string)) : Prop :=
  ∃ a n, finds n (a, ks) m ∧ (n = 0 → fits a) ∧ ∀ b, fits b → n = 0 ∧ b = a.
Lemma field_judged f : fitted f.2 → sets_field m f →
  judges_using (used_by m f) (field_fits m f)
    (match field_value m f.1 with
     | None => mret (zero_place f.2, [])
     | Some (key, VNil) => mret (zero_place f.2, [key])
     | Some (key, val) =>
         new ← in_field (f_Name f.1) (putValueToPlace f.2 (false || negb (f_exported f.1)) val (zero_place f.2)); mret (new, [key])
     end).
Proof.
  intros Hf Hs. destruct Hm as (Hnd & Hne & _). unfold used_by.
  destruct (field_value m f.1) as [[k v]|] eqn:Hv.
  - assert (v = VNil ∨ v ≠ VNil) as [-> |Hnn] by (destruct v; by (left + right)).
    + exists (zero_place f.2), 0. split; [apply finds_ret|]. split.
      * intros _. split; [|done]. intros k' x Hin Hk Hx. destruct Hx. by eapply tidy_named.
      * intros p [_ Hz]. split; [done|]. apply Hz. intros k' x Hin Hk. by eapply tidy_named.
    + pose proof (proj1 (field_value_named m f.1 Hnd Hne k v) Hv) as [Hin Hk].
      assert (tidy v) as Hvt by by destruct (tidy_entry m k v Hm Hin).
      destruct (Hs k v Hin Hk Hnn) as [-> Hsv]. destruct (Hf v Hvt Hsv) as (p & n & Hp & Hfit & Hu).
      assert (judges_using [k] (field_fits m f)
        (new ← in_field (f_Name f.1) (putValueToPlace f.2 (false || negb true) v (zero_place f.2)); mret (new, [k]))) as Hone.
      { exists p, (n + 0). split; [eapply finds_bind; [by apply finds_in_field|apply finds_ret]|]. split.
        - intros Hn. split; [|intros Hall; by destruct Hnn; eapply Hall].
          intros k' x Hx Hkx _. rewrite (tidy_named _ _ _ _ _ Hv Hx Hkx). apply Hfit. lia.
        - intros q [Hq _]. destruct (Hu q) as [-> ->]; [by eapply Hq|]. done. }
      by destruct v.
  - exists (zero_place f.2), 0. split; [apply finds_ret|]. split.
    + intros _. split; [|done]. intros k x Hin Hk. by destruct (field_value_unnamed m f.1 Hnd Hne Hv k x).
    + intros p [_ Hz]. split; [done|]. apply Hz. intros k x Hin Hk. by destruct (field_value_unnamed m f.1 Hnd Hne Hv k x).
Qed.

Lemma fields_judged fields : Forall (λ f, fitted f.2) fields → Forall (sets_field m) fields →
  judges_using (flat_map (used_by m) fields) (all2 (field_fits m) fields)
    (fields_loop putValueToPlace m false fields (map (λ f, zero_place f.2) fields)).
Proof.
  intros Hf Hs. induction Hf as [|f fields Hf _ IH]; cbn [map fields_loop flat_map].
  { exists [], 0. split; [apply finds_ret|]. split; [done|]. by intros []. }
  apply Forall_cons in Hs as [Hs Hss]. destruct (field_judged f Hf Hs) as (p & n & Hone & Hfit & Hu).
  destruct (IH Hss) as (ps & k & Hrest & Hfits & Hus). exists (p :: ps), (n + (k + 0)). split.
  - eapply finds_bind; [exact Hone|]. eapply finds_bind; [exact Hrest|apply finds_ret].
  - cbn [all2]. split; [intros Hz; split; [apply Hfit|apply Hfits]; lia|].
    intros [|q qs]; [done|]. intros [[-> ->]%Hu [-> ->]%Hus]. done.
Qed.

(** *** The keys that name no field *)
Lemma used_named fields kv : kv ∈ m → (kv.1 ∈ flat_map (used_by m) fields ↔ strings_ToLower kv.1 ∈ map (λ f, lower_name f.1) fields).
Proof.
  destruct Hm as (Hnd & Hne & _). destruct kv as [k v]. intros Hin. rewrite list_elem_of_In, in_flat_map, list_elem_of_fmap. split.
  - intros (f & Hf & Hk). unfold used_by in Hk. destruct (field_value m f.1) as [[k' v']|] eqn:Hv; [|done].
    destruct Hk as [->|[]]. apply field_value_named in Hv as [_ Hk]; [|done..]. exists f. by rewrite list_elem_of_In.
  - intros (f & Hk & Hf). exists f. split; [by apply list_elem_of_In|]. unfold used_by. rewrite (proj2 (field_value_named m f.1 Hnd Hne k v)); [by left|done].
Qed.
Lemma unknown_judged name setter fields l : l ⊆ m →
  judges (λ extra, extra = List.filter (unknown_entry fields) l ∧ (setter = false → extra = []))
    (unknown_loop name setter (flat_map (used_by m) fields) l).
Proof.
  induction l as [|[k v] l IH]; intros Hl; cbn [unknown_loop List.filter].
  { by apply judges_ret; [|by intros b [-> _]]. }
  assert (k ∈ flat_map (used_by m) fields ↔ unknown_entry fields (k, v) = false) as Hk.
  { rewrite (used_named fields (k, v)) by (apply Hl; by left). unfold unknown_entry. rewrite bool_decide_eq_false. cbn. split; [by intros ??|apply dec_stable]. }
  specialize (IH (λ x Hx, Hl x (list_elem_of_further _ _ _ Hx))). case_decide as Hu.
  - by rewrite (proj1 Hk Hu).
  - assert (unknown_entry fields (k, v) = true) as -> by (destruct (unknown_entry fields (k, v)); [done|by destruct Hu; apply Hk]).
    destruct IH as (extra & n & Hrun & Hfit & Huniq). destruct setter.
    + exists ((k, v) :: extra), (n + 0). split; [eapply finds_bind; [exact Hrun|apply finds_ret]|]. split.
      * intros Hn. destruct Hfit as [-> _]; [lia|]. done.
      * intros b [-> _]. destruct (Huniq (List.filter (unknown_entry fields) l)) as [-> <-]; [done|]. done.
    + exists extra, (1 + n). split; [eapply finds_bind; [apply finds_add|exact Hrun]|]. split; [done|]. intros b [-> Hno]. by specialize (Hno eq_refl).
Qed.
End fields.
(** *** Structures, and every type *)
Lemma struct_judged name setter fields m : Forall (λ f, fitted f.2) fields → tidy (VMap m) → sets (TStruct name setter fields) (VMap m) →
  judges (λ p, form (TStruct name setter fields) p (VMap m))
    (put_struct putValueToPlace name setter fields false m (zero_place (TStruct name setter fields))).
Proof.
  intros Hf Hm Hs%sets_fields. cbn [zero_place put_struct].
  destruct (fields_judged m Hm fields Hf Hs) as (ps & n & Hr & Hfit & Hu).
  destruct (unknown_judged m Hm name setter fields m (λ x Hx, Hx)) as (extra & k & Hextra & Hefit & Heu).
  exists (PStruct ps extra), (n + (k + 0)). split; [|split].
  - eapply finds_bind; [exact Hr|]. cbn [fst snd app]. eapply finds_bind; [exact Hextra|apply finds_ret].
  - intros Hz. cbn [form]. split; [apply Hfit; lia|apply Hefit; lia].
  - intros p Hp. destruct p as [| | | | | | | | |qs arb| | | | | | | |]; try done. destruct Hp as [Hqs Harb].
    destruct (Hu qs Hqs) as [-> ->]. by destruct (Heu arb Harb) as [-> ->].
Qed.

Lemma judges_wrong want v (old : place) fits : v ≠ VNil → (∀ b, ¬ fits b) →
  judges fits (e ← st_lift (FieldError want v); add_err e;; mret old).
Proof. intros Hv Hno. eapply judges_error; [by apply finds_FieldError|done]. Qed.
Lemma judges_refused e (old : place) fits : (∀ b, ¬ fits b) → judges fits (add_err e;; mret old).
Proof. intros Hno. eapply judges_error; [apply finds_error|done]. Qed.

Lemma map_judged e v : tidy v → sets (TMap e) v →
  judges (λ p, form (TMap e) p v) (putValueToPlace (TMap e) false v (zero_place (TMap e))).
Proof.
  intros Hv Hs.
  assert (∀ fits p, (∀ q, fits q ↔ q = p) → judges fits (set false p)) as Hset.
  { intros fits p Hq. apply judges_ret; [by apply Hq|]. intros q. apply Hq. }
  destruct v; try done; cbn [putValueToPlace]; try (apply judges_wrong; [done|intros q Hq; by destruct e, q as [| | | | | | | | | |[]|[]| | | | | |]]).
  destruct Hs as [-> | ->]; cbn [put_map form]; apply Hset; intros q; destruct q as [| | | | | | | | | |o|o| | | | | |]; try done;
    destruct o; split; try done; try (by intros ->); by intros [= ->].
Qed.
Lemma slice_judged e v : fitted e → tidy v → sets (TSlice e) v →
  judges (λ p, form (TSlice e) p v) (putValueToPlace (TSlice e) false v (zero_place (TSlice e))).
Proof.
  intros IH Hv Hs.
  assert (∀ vs, Forall tidy vs → Forall (sets e) vs → judges (λ p, match p with PSlice (Some l) => all2 (form e) l vs | _ => False end)
    (create ← elems_loop putValueToPlace true e 0 vs; mret (PSlice (Some create)))) as Helems.
  { intros vs Hvs Hss. eapply judges_bind; [by apply elems_judged|done|].
    intros p. destruct p as [| | | | | | | | | | | | | |o| | |]; try done. destruct o as [l|]; [|done]. intros Hl. by exists l. }
  destruct e; destruct v; try done; cbn [putValueToPlace form];
    first [ by apply Helems; [apply tidy_elems|] | apply judges_refused; cbn; intros q Hq; by destruct q as [| | | | | | | | | | | | |[]|[]| | |] | idtac ];
    (apply judges_ret; [done|]; intros q; destruct q as [| | | | | | | | | | | | |[]| | | |]; try done; by intros ->).
Qed.
Lemma put_fitted t : fitted t.
Proof.
  induction t as [t Ht|name setter fields IH|e IH|e IH|n e IH|e IH] using gtype_fields_ind; intros v Hv Hs.
  - assert (v ≠ VNil) as Hnn by by intros ->.
    destruct t; try done; cbn [putValueToPlace putValueToUnit zero_place];
      destruct v; try done;
      first [ apply judges_wrong; [done|cbn; intros q Hq; by destruct q]
            | apply judges_refused; cbn; intros q Hq; by destruct q
            | apply judges_ret; [done|intros q; destruct q; cbn; try done; by intros ->]
            | idtac ].
    cbn [form]. destruct (time_Parse_RFC3339 s) as [z|] eqn:Hz.
    + apply judges_ret; [done|]. intros q; destruct q; try done. cbn. intros Hq. by simplify_eq.
    + apply judges_refused. cbn; intros q Hq; by destruct q.
  - destruct v; try done; cbn [putValueToPlace toStringMap]; try (apply judges_refused; cbn; intros q Hq; by destruct q).
    by apply struct_judged.
  - by apply map_judged.
  - by apply slice_judged.
  - destruct v; try done; cbn [putValueToPlace form]; try (apply judges_refused; cbn; intros q Hq; by destruct q).
    case_decide as Hn.
    + eapply (judges_bind (λ ps, all2 (form e) ps l)); [apply elems_judged; [done|by apply tidy_elems|done]|by intros ps Hps|].
      intros q. destruct q as [| | | | | | | | | | | | | | |ps| |]; try done. intros [_ Hps]. by exists ps.
    + apply judges_refused. intros q Hq; destruct q; try done. by destruct Hq.
  - assert (judges (λ q, match q with PPtr (Some p) => form e p v | _ => False end)
      (inner ← putValueToPlace e false v (zero_place e); mret (PPtr (Some inner)))) as Hptr.
    { eapply judges_bind; [by apply IH|done|]. intros q. destruct q as [| | | | | | | | | | | | | | | |o|]; try done.
      destruct o as [p|]; [|done]. intros Hp. by exists p. }
    cbn [putValueToPlace form]. by destruct v.
Qed.

(** Data that fit are what a structure is filled with. *)
Lemma Struct_form name setter fs fields q : tidy (VMap fields) → sets (TStruct name setter fs) (VMap fields) →
  form (TStruct name setter fs) q (VMap fields) →
  Struct fields (TStruct name setter fs) (zero_place (TStruct name setter fs)) = Ok (q, None).
Proof.
  intros Hm Hs Hq. destruct (struct_judged name setter fs fields) as (p & n & Hrun & _ & Hu); [|done..|].
  { apply Forall_forall. intros f _. apply put_fitted. }
  destruct (Hu q Hq) as [-> ->]. destruct (Hrun NewErrorCollector) as (es & Hc & Hn). apply nil_length_inv in Hn as ->.
  unfold Struct, putFieldsToTargetStruct. by rewrite Hc.
Qed.

End fits.

Module FitsDemo.
Import FillDemo.
#[local] Existing Instance demo_env.
End FitsDemo.

Module DumpDemo.
Import FillDemo.
#[local] Existing Instance demo_env.
Lemma Struct_dump_witness :
  Struct (written (λ _, "2020-01-01T00:00:00Z") [(mkField "Title" "title,omitempty" true, TString);
    (mkField "Size" "" true, TInt); (mkField "Created" "created" true, TTime);
    (mkField "Contributors" "contributors" true, TSlice (TPtr user_t))]
    [PString "t"; PInt 3; PTime 1577836800; PSlice (Some [PPtr (Some (PStruct [PString "a"] []))])]) meta_t
    (zero_place meta_t) = Ok (meta_filled, None).
Proof.
  apply (Struct_dump (λ _, "2020-01-01T00:00:00Z")); [by intros s|].
  split_and!; [done|by repeat constructor| |].
  - apply (bool_decide_unpack _). vm_compute. exact I.
  - cbn. split_and!; try done. constructor; [|constructor]. cbn. split_and!; try done; [by repeat constructor|].
    apply (bool_decide_unpack _). vm_compute. exact I.
Defined.
End DumpDemo.
