(* ===== verification/PathValueSpec.v ===== *)
(** * Theorems of values at paths

    What is set at a path is what is read there, whatever the path goes
    through, and where a walk panics. *)
From S2P Require Export FillFacts FillSpec PathValue.

(** ** Lookups see keys only *)
Lemma find_key_ext {K V} (p : K → bool) n (l l' : list (K * V)) i kv : l.*1 = l'.*1 →
  find_index_from (λ kv, p kv.1) n l = Some (i, kv) → ∃ kv', find_index_from (λ kv, p kv.1) n l' = Some (i, kv').
Proof.
  revert n l'. induction l as [|[k v] l IH]; intros n [|[k' v'] l']; cbn; try done. intros [= <- Hl].
  destruct (p k); [intros [= <- <-]; by eexists|by apply IH].
Qed.
Lemma find_key_none {K V} (p : K → bool) n (l l' : list (K * V)) : l.*1 = l'.*1 →
  find_index_from (λ kv, p kv.1) n l = None → find_index_from (λ kv, p kv.1) n l' = None.
Proof.
  revert n l'. induction l as [|[k v] l IH]; intros n [|[k' v'] l']; cbn; try done. intros [= <- Hl].
  destruct (p k); [done|by apply IH].
Qed.

Lemma first_of_keys {K V} (ps : list (K → bool)) (l l' : list (K * V)) i kv : l.*1 = l'.*1 →
  first_of (map (λ p : K → bool, find_index_from (λ kv, p kv.1) 0 l) ps) = Some (i, kv) →
  ∃ kv', first_of (map (λ p : K → bool, find_index_from (λ kv, p kv.1) 0 l') ps) = Some (i, kv').
Proof.
  intros Hl. induction ps as [|p ps IH]; cbn; [done|].
  destruct (find_index_from _ 0 l) as [[j y]|] eqn:Hf.
  - intros [= <- <-]. destruct (find_key_ext p 0 l l' j y Hl Hf) as [kv' ->]. by eexists.
  - rewrite (find_key_none p 0 l l' Hl Hf). exact IH.
Qed.

Lemma lookup_keys {V} (m m' : list (string * V)) s i kv : m.*1 = m'.*1 →
  mapLookupCaseInsensitive m s = Some (i, kv) → ∃ kv', mapLookupCaseInsensitive m' s = Some (i, kv').
Proof.
  intros Hm. pose proof (first_of_keys [λ k : string, bool_decide (k = s); λ k : string, bool_decide (k = strings_ToLower s);
    λ k : string, bool_decide (strings_ToLower k = strings_ToLower s)] m m' i kv Hm) as Hf. exact Hf.
Qed.
Lemma ilookup_keys (m m' : list (data * data)) s i kv : m.*1 = m'.*1 →
  imapLookupCaseInsensitive m s = Some (i, kv) → ∃ kv', imapLookupCaseInsensitive m' s = Some (i, kv').
Proof.
  intros Hm. pose proof (first_of_keys [is_string s; is_string (strings_ToLower s);
    λ _ : data, bool_decide (strings_ToLower "<interface {} Value>" = strings_ToLower s)] m m' i kv Hm) as Hf. exact Hf.
Qed.

(** ** A walk after a walk

    When what the first visitor leaves reads as [Q] to the second, so does what
    the first walk leaves to the second, at the same path. *)
Section twice.
Context `{FillEnv} {A1 A2 : Type} (a1 : A1) (Q : A2 → Prop).
Definition reads {S} (m1 : stM S A1) (m2 : stM S A2) : Prop :=
  ∀ s s', m1 s = (Ok a1, s') → ∃ b, Q b ∧ m2 s' = (Ok b, s').

Context (k1 : gtype → bool → bool → string → stM place A1) (ki1 : bool → string → stM (list (data * data)) A1).
Context (k2 : gtype → bool → bool → string → stM place A2) (ki2 : bool → string → stM (list (data * data)) A2).
(** What is of interface type and a map stay so, and nothing is done to the
    bytes of a slice. *)
Definition stays (t : gtype) (p p' : place) : Prop :=
  match t with
  | TInterface => ∃ v, p' = PInterface v
  | TMap _ => (∀ m, p = PMap (Some m) → ∃ m', p' = PMap (Some m')) ∧ (is_nil_map p = false → is_nil_map p' = false)
  | _ => True
  end.
Context (Hk : ∀ t ro addr f, reads (k1 t ro addr f) (k2 t ro addr f)).
Context (Hki : ∀ ro f, reads (ki1 ro f) (ki2 ro f)).
Context (Hstays : ∀ t ro addr f p p', k1 t ro addr f p = (Ok a1, p') → stays t p p').
Context (Hbyte : ∀ ro addr f p, (k1 TByte ro addr f p).1 ≠ Ok a1).

Lemma at_index_inv {S} i (m : stM S A1) l l' : at_index i m l = (Ok a1, l') →
  ∃ x x', l !! i = Some x ∧ m x = (Ok a1, x') ∧ l' = <[i := x']> l.
Proof.
  unfold at_index. destruct (l !! i) as [x|]; [|done]. destruct (m x) as [r x'] eqn:Hm. intros [= -> <-]. by exists x, x'.
Qed.
Lemma at_index_run {S} i (m : stM S A2) l x b : l !! i = Some x → m x = (Ok b, x) → at_index i m l = (Ok b, l).
Proof. intros Hl Hm. unfold at_index. by rewrite Hl, Hm, list_insert_id. Qed.

Lemma reads_index {S} i (m1 : stM S A1) m2 : reads m1 m2 → reads (at_index i m1) (at_index i m2).
Proof.
  intros Hm l l' (x & x' & Hx & Hrun & ->)%at_index_inv. destruct (Hm _ _ Hrun) as (b & Hb & Hrun').
  exists b. split; [done|]. apply (at_index_run i m2 _ x'); [|done].
  apply list_lookup_insert_eq. by eapply lookup_lt_Some.
Qed.
Lemma reads_value {K S} (m1 : stM S A1) m2 : reads m1 m2 → reads (at_value (K := K) m1) (at_value m2).
Proof.
  intros Hm [k v] kv'. unfold at_value, st_zoom. cbn [fst snd]. destruct (m1 v) as [r v'] eqn:Hrun. intros [= -> <-].
  destruct (Hm _ _ Hrun) as (b & Hb & Hrun'). exists b. cbn [fst snd]. by rewrite Hrun'.
Qed.

Lemma reads_slice {S} s (m1 : stM S A1) m2 : reads m1 m2 → reads (at_slice s m1) (at_slice s m2).
Proof.
  intros Hm l l'. unfold at_slice. destruct (coerceToInt s) as [num|e|]; [|done..].
  case_decide as Hlen; [done|]. case_decide as Hneg; [done|]. intros Hrun.
  pose proof (at_index_inv _ _ _ _ Hrun) as (x & x' & _ & _ & Hl').
  apply (reads_index _ _ _ Hm) in Hrun as (b & Hb & Hrun). exists b. split; [done|].
  rewrite decide_False by (by rewrite Hl', length_insert). done.
Qed.

(** A lookup that sees keys only finds the same entry after a change of one. *)
Lemma reads_entry {K S} (look : list (K * S) → option (nat * (K * S))) (m1 : stM S A1) m2 :
  (∀ m m' i kv, m.*1 = m'.*1 → look m = Some (i, kv) → ∃ kv', look m' = Some (i, kv')) →
  reads m1 m2 → reads (λ l, at_entry (look l) m1 l) (λ l, at_entry (look l) m2 l).
Proof.
  intros Hlook Hm l l'. unfold at_entry. destruct (look l) as [[i kv]|] eqn:Hl; [|done]. intros Hrun.
  pose proof (at_index_inv _ _ _ _ Hrun) as ([k v] & [k' v'] & Hx & Hv & Hl').
  unfold at_value, st_zoom in Hv. cbn [fst snd] in Hv. destruct (m1 v) as [r w]. injection Hv as -> <- <-.
  apply (reads_index _ _ _ (reads_value _ _ Hm)) in Hrun as (b & Hb & Hrun). exists b. split; [done|].
  destruct (Hlook l l' i kv) as [kv' ->]; [|done|exact Hrun].
  rewrite Hl', list_fmap_insert. cbn [fst]. symmetry. apply list_insert_id. by rewrite list_lookup_fmap, Hx.
Qed.

Lemma reads_bytes steps ro c c' : at_bytes k1 steps ro c ≠ (Ok a1, c').
Proof. destruct steps; cbn; [|done]. intros [= Hr _]. by eapply Hbyte. Qed.
Lemma slice_bytes s steps ro l l' : at_slice s (at_bytes k1 steps ro) l ≠ (Ok a1, l').
Proof.
  unfold at_slice. destruct (coerceToInt s); [|done..]. repeat case_decide; try done.
  intros (x & x' & _ & Hx & _)%at_index_inv. by eapply reads_bytes.
Qed.

Lemma reads_data steps ro addr : reads (at_data k1 ki1 steps ro addr) (at_data k2 ki2 steps ro addr).
Proof.
  revert ro addr. induction steps as [|s rest IH]; intros ro addr v v'.
  { cbn [at_data]. destruct (k1 _ _ _ _ _) as [r p] eqn:Hrun. intros [= -> <-].
    destruct (Hstays _ _ _ _ _ _ Hrun) as [w ->]. destruct (Hk _ _ _ _ _ _ Hrun) as (b & Hb & Hrun').
    exists b. by rewrite Hrun'. }
  cbn [at_data]. destruct v as [| | | | | | | |bs|m|m|l]; try done.
  - destruct (at_slice _ _ _) as [r l] eqn:Hrun. intros [= -> _]. by apply slice_bytes in Hrun.
  - destruct rest as [|s' rest'].
    + destruct (k1 _ _ _ _ _) as [r p] eqn:Hrun. intros [= -> <-].
      destruct (Hstays _ _ _ _ _ _ Hrun) as [Hmap _]. destruct (Hmap m eq_refl) as [m' ->]. destruct (Hk _ _ _ _ _ _ Hrun) as (b & Hb & Hrun').
      exists b. by rewrite Hrun'.
    + destruct (at_entry _ _ _) as [r m'] eqn:Hrun. intros [= -> <-].
      apply (reads_entry (λ m, mapLookupCaseInsensitive m s) _ _ (λ m m' i kv, lookup_keys m m' s i kv) (IH ro false)) in Hrun
        as (b & Hb & Hrun). exists b. cbv beta in Hrun. by rewrite Hrun.
  - destruct rest as [|s' rest'].
    + destruct (ki1 _ _ _) as [r m'] eqn:Hrun. intros [= -> <-]. destruct (Hki _ _ _ _ Hrun) as (b & Hb & Hrun').
      exists b. by rewrite Hrun'.
    + destruct (at_entry _ _ _) as [r m'] eqn:Hrun. intros [= -> <-].
      apply (reads_entry (λ m, imapLookupCaseInsensitive m s) _ _ (λ m m' i kv, ilookup_keys m m' s i kv) (IH ro false)) in Hrun
        as (b & Hb & Hrun). exists b. cbv beta in Hrun. by rewrite Hrun.
  - destruct (at_slice _ _ _) as [r l'] eqn:Hrun. intros [= -> <-].
    apply (reads_slice _ _ _ (IH ro true)) in Hrun as (b & Hb & Hrun). exists b. by rewrite Hrun.
Qed.

Lemma reads_field (w1 : gtype → bool → bool → stM place A1) w2 fields i ro addr :
  (∀ f, f ∈ fields → ∀ ro addr, reads (w1 f.2 ro addr) (w2 f.2 ro addr)) →
  reads (at_field w1 fields i ro addr) (at_field w2 fields i ro addr).
Proof.
  revert i. induction fields as [|f fields IH]; intros [|i] Hw [|p ps] ps'; cbn [at_field]; try done.
  - destruct (w1 _ _ _ _) as [r p'] eqn:Hrun. intros [= -> <-].
    destruct (Hw f ltac:(by left) _ _ _ _ Hrun) as (b & Hb & Hrun'). exists b. by rewrite Hrun'.
  - destruct (at_field w1 _ _ _ _ _) as [r qs] eqn:Hrun. intros [= -> <-].
    destruct (IH i (λ f Hf, Hw f (list_elem_of_further _ _ _ Hf)) _ _ Hrun) as (b & Hb & Hrun'). exists b. by rewrite Hrun'.
Qed.

Lemma make_map_stays e p p' : stays (TMap e) (make_map p) p' → is_nil_map (make_map p) = false → is_nil_map p' = false ∧ make_map p' = p'.
Proof. intros [_ Hs] Hp. specialize (Hs Hp). split; [done|]. by destruct p' as [| | | | | | | | | |[]|[]|[]| | | | |]. Qed.
Lemma make_map_made p : is_nil_map (make_map p) = false.
Proof. by destruct p as [| | | | | | | | | |[]|[]|[]| | | | |]. Qed.

Definition walks (t : gtype) : Prop := ∀ steps ro addr, reads (at_path k1 ki1 t steps ro addr) (at_path k2 ki2 t steps ro addr).

Lemma path_end t ro addr : reads (at_path k1 ki1 t [] ro addr) (at_path k2 ki2 t [] ro addr).
Proof. intros p p'. by destruct t; cbn [at_path]; apply Hk. Qed.

Lemma path_map e s rest ro addr : walks e →
  reads (at_path k1 ki1 (TMap e) (s :: rest) ro addr) (at_path k2 ki2 (TMap e) (s :: rest) ro addr).
Proof.
  intros He p p'. cbn [at_path]. destruct (_ && _); [done|]. destruct rest as [|s' rest].
  - intros Hrun. destruct (make_map_stays e p p') as [Hnil Hmake]; [by eapply Hstays|apply make_map_made|].
    rewrite Hnil, Hmake. cbn [andb]. exact (Hk _ _ _ _ _ _ Hrun).
  - pose proof (make_map_made p) as Hmade. destruct (make_map p) as [| | | | | | | | | |[m|]|[m|]|[m|]| | | | |]; try done.
    + unfold at_entry, at_index, at_value, st_zoom.
      destruct (mapLookupCaseInsensitive m s) as [[i kv]|]; [|done]. by destruct (m !! i).
    + destruct (at_entry _ _ _) as [r m'] eqn:Hrun. intros [= -> <-].
      apply (reads_entry (λ m, mapLookupCaseInsensitive m s) _ _ (λ m m' i kv, lookup_keys m m' s i kv) (reads_data (s' :: rest) ro false)) in Hrun
        as (b & Hb & Hrun). exists b. cbv beta in Hrun. cbn [is_nil_map andb make_map]. by rewrite Hrun.
    + destruct (at_entry _ _ _) as [r m'] eqn:Hrun. intros [= -> <-].
      apply (reads_entry (λ m, mapLookupCaseInsensitive m s) _ _ (λ m m' i kv, lookup_keys m m' s i kv) (He (s' :: rest) ro false)) in Hrun
        as (b & Hb & Hrun). exists b. cbv beta in Hrun. cbn [is_nil_map andb make_map]. by rewrite Hrun.
Qed.

Lemma path_slice e s rest ro addr : walks e →
  reads (at_path k1 ki1 (TSlice e) (s :: rest) ro addr) (at_path k2 ki2 (TSlice e) (s :: rest) ro addr).
Proof.
  intros He p p'. cbn [at_path]. destruct p as [| | | | | | | | | | | | |bs|l| | |]; try done.
  - destruct (at_slice _ _ _) as [r l] eqn:Hrun. intros [= -> _]. by apply slice_bytes in Hrun.
  - destruct (at_slice _ _ _) as [r l'] eqn:Hrun. intros [= -> <-]. destruct l as [l|].
    + apply (reads_slice _ _ _ (He rest ro true)) in Hrun as (b & Hb & Hrun).
      exists b. cbn [default from_option id]. by rewrite Hrun.
    + exfalso. revert Hrun. unfold at_slice. destruct (coerceToInt s); [|done..]. cbn. repeat case_decide; done.
Qed.

Lemma path_twice t : walks t.
Proof.
  induction t as [t Ht|name setter fields IH|e IH|e IH|n e IH|e IH] using gtype_fields_ind;
    intros [|s rest] ro addr; try (by apply path_end); try (by apply path_map); try (by apply path_slice); intros p p'.
  - destruct t; try done; cbn [at_path]; destruct p; try done.
    destruct (at_data _ _ _ _ _ _) as [r v'] eqn:Hrun. intros [= -> <-].
    apply reads_data in Hrun as (b & Hb & Hrun). exists b. by rewrite Hrun.
  - cbn [at_path]. destruct p as [| | | | | | | | |ps arb| | | | | | | |]; try done.
    destruct (getFieldCaseInsensitive fields s) as [[i f]|]; [|done].
    destruct (at_field _ _ _ _ _ _) as [r ps'] eqn:Hrun. intros [= -> <-].
    apply (reads_field _ (λ t ro addr, at_path k2 ki2 t rest ro addr)) in Hrun as (b & Hb & Hrun).
    + exists b. by rewrite Hrun.
    + intros g Hg ro' addr'. rewrite Forall_forall in IH. by apply IH.
  - done.
  - cbn [at_path]. destruct p as [| | | | | | | | | | | | | | | |[q|]|]; try done.
    + destruct (at_path _ _ _ _ _ _ _) as [r q'] eqn:Hrun. intros [= -> <-].
      apply IH in Hrun as (b & Hb & Hrun). exists b. by rewrite Hrun.
    + destruct ro eqn:Hro, addr; try done. cbn [orb negb]. destruct (at_path _ _ _ _ _ _ _) as [r q'] eqn:Hrun. intros [= -> <-].
      apply IH in Hrun as (b & Hb & Hrun). exists b. by rewrite Hrun.
Qed.
End twice.

(** ** Text set at a path *)

(** What text is read as, by the type of the place it was put in *)
Fixpoint reads_as (s : string) (p : place) : Prop :=
  match p with
  | PString s' => s' = s
  | PBool b => strings_ToLower s = if b then "true" else "false"
  | PInt z => strconv_ParseInt 32 s = Some z
  | PInt64 z => strconv_ParseInt 64 s = Some z
  | PInterface v => v = VString s
  | PPtr (Some p) => reads_as s p
  | _ => False
  end.

Section spec.
Context `{FillEnv}.

Lemma put_text s t ro v p c p' c' :
  coerceToTargetType (VString s) t = Ok v → putValueToPlace t ro v p c = (Ok p', c') → ro = false ∧ reads_as s p'.
Proof.
  revert ro v p c p' c'. induction t; intros ro v p c p' c'; cbn [coerceToTargetType]; try (by intros [=]).
  - repeat case_decide; [intros [= <-]|intros [= <-]|done]; destruct ro; try done; by intros [= <- _].
  - destruct (strconv_ParseInt 32 s) eqn:Hs; [|done]. intros [= <-]. destruct ro; [done|]. by intros [= <- _].
  - destruct (strconv_ParseInt 64 s) eqn:Hs; [|done]. intros [= <-]. destruct ro; [done|]. by intros [= <- _].
  - intros [= <-]. destruct ro; [done|]. by intros [= <- _].
  - intros Hv. assert (v ≠ VNil → (if ro then st_lift Panic else inner ← putValueToPlace t false v (zero_place t);
      mret (PPtr (Some inner))) c = (Ok p', c') → ro = false ∧ reads_as s p') as Hrun.
    { intros _. destruct ro; [done|]. intros (q & c1 & Hq & [= <- _])%stM_bind_Ok. split; [done|]. by eapply IHt in Hq as [_ ?]. }
    destruct v; try (by apply Hrun). exfalso. revert Hv. clear. induction t; cbn; try done; repeat case_match; done.
Qed.

Lemma lookup_inserted {B} (m : list (string * B)) k b :
  ∃ i, mapLookupCaseInsensitive (assoc_insert m k b) k = Some (i, (k, b)).
Proof.
  assert (∃ i, find_index_from (λ kv, bool_decide (kv.1 = k)) 0 (assoc_insert m k b) = Some (i, (k, b))) as [i Hi].
  { unfold assoc_insert. generalize 0. case_decide as Hk.
    - induction m as [|[k' b'] m IH]; intros n; [by apply not_elem_of_nil in Hk|]. cbn.
      case_decide as Hkk; cbn; case_bool_decide; subst; try done; [by eexists|]. apply IH. by apply elem_of_cons in Hk as [->|?].
    - induction m as [|[k' b'] m IH]; intros n; cbn; [by rewrite bool_decide_eq_true_2; [eexists|]|].
      rewrite bool_decide_eq_false_2 by (intros ->; apply Hk; by left). apply IH. intros ?. apply Hk. by right. }
  exists i. unfold mapLookupCaseInsensitive. cbn [first_of foldr]. by rewrite Hi.
Qed.

Lemma is_string_true s v : is_string s v = true ↔ v = VString s.
Proof. destruct v; cbn; try done. rewrite bool_decide_eq_true. naive_solver. Qed.

Lemma ilookup_inserted m k s : ∃ i, imapLookupCaseInsensitive (iset_key k (VString s) m) k = Some (i, (VString k, VString s)).
Proof.
  assert (∃ i, find_index_from (λ kv, is_string k kv.1) 0 (iset_key k (VString s) m) = Some (i, (VString k, VString s))) as [i Hi].
  { cbn [iset_key]. generalize 0. destruct (existsb _ m) eqn:Hk.
    - induction m as [|[k' b'] m IH]; intros n; [done|]. cbn in Hk |- *.
      destruct (is_string k k') eqn:Hkk; cbn [fst]; rewrite Hkk; [|by apply IH].
      apply is_string_true in Hkk as ->. by eexists.
    - induction m as [|[k' b'] m IH]; intros n; cbn; [by rewrite bool_decide_eq_true_2; [eexists|]|].
      cbn in Hk. apply orb_false_iff in Hk as [-> Hk]. by apply IH. }
  exists i. unfold imapLookupCaseInsensitive. cbn [first_of foldr]. by rewrite Hi.
Qed.

Definition reads_text (s : string) (r : gtype * place) : Prop := reads_as s r.2.

Lemma set_key_reads s t f p p' : SetMapIndex t f (VString s) p = (Ok tt, p') → f ≠ "" →
  stays t p p' ∧ ∃ b, reads_text s b ∧ get_place t false false f p' = (Ok b, p').
Proof.
  intros Hrun Hf. unfold get_place. rewrite decide_False by done. unfold SetMapIndex in Hrun.
  destruct t as [| | | | | | | | | |e| | | |]; try done.
  destruct p as [| | | | | | | | | |[m|]|[m|]|[m|]| | | | |]; try done.
  - injection Hrun as <-. split; [done|]. exists (e, PString s). cbn. unfold entry_of.
    by destruct (lookup_inserted m f s) as [i ->].
  - injection Hrun as <-. split; [split; [by eexists|done]|]. exists (e, PInterface (VString s)). cbn. unfold entry_of.
    by destruct (lookup_inserted m f (VString s)) as [i ->].
  - destruct (assign_to e (VString s)) as [q|] eqn:Hq; [|done]. injection Hrun as <-. split; [done|].
    exists (e, q). split; [by unfold assign_to in Hq; repeat case_match; simplify_eq|]. cbn. unfold entry_of.
    by destruct (lookup_inserted m f q) as [i ->].
Qed.

Lemma set_place_reads s c t ro addr f p p' : ec_errs c = [] →
  set_place (VString s) c t ro addr f p = (Ok None, p') →
  stays t p p' ∧ ∃ b, reads_text s b ∧ get_place t ro addr f p' = (Ok b, p').
Proof.
  intros Hc. unfold set_place. case_decide as Hf.
  - destruct (coerceToTargetType (VString s) t) as [v|e|] eqn:Hv; [| |done].
    + destruct (putValueToPlace _ _ _ _ _) as [[q|e|] c'] eqn:Hput; [|done..]. intros [= _ <-].
      destruct (put_text s t _ v p c q c' Hv Hput) as [[-> _]%orb_false_iff Hs].
      split; [by destruct t|]. exists (t, q). split; [done|]. unfold get_place. by rewrite decide_True.
    + intros [= He _]. apply AsSingleError_None in He. unfold Add in He. cbn in He. by rewrite Hc in He.
  - destruct ro; [done|]. intros ([] & p1 & Hrun & [= <-])%stM_bind_Ok. by apply set_key_reads.
Qed.

Lemma set_imap_reads s c ro f : ec_errs c = [] → reads None (reads_text s) (set_imap (VString s) c ro f) (get_imap ro f).
Proof.
  intros Hc m m'. unfold set_imap, get_imap. case_decide as Hf.
  - intros [= He _]. apply AsSingleError_None in He. unfold Add in He. cbn in He. by rewrite Hc in He.
  - destruct ro; [done|]. intros [= <-]. destruct (ilookup_inserted m f s) as [i Hi]. cbn [iset_key] in Hi.
    exists (TInterface, PInterface (VString s)). by rewrite Hi.
Qed.

Lemma pushed_errs steps c : ec_errs (foldl (λ c s, PushField s c) c steps) = ec_errs c.
Proof. revert c. induction steps as [|s steps IH]; intros c; cbn; [done|]. by rewrite IH. Qed.

(** What is set at a path is what is read there. When text is set at a path
    without an error, getting the path answers the text, or the number or
    boolean it is read as, whatever fields, pointers, slices and maps the path
    goes through and however its case was written. *)
Theorem SetPathValue_GetPathValue path s t p p' :
  SetPathValue path (VString s) t p = (Ok None, p') →
  ∃ r, GetPathValue path t true p' = (Ok r, p') ∧ reads_as s r.2.
Proof.
  unfold SetPathValue, GetPathValue. set (c := foldl _ _ _). assert (ec_errs c = []) as Hc by apply pushed_errs.
  destruct (at_path _ _ _ _ _ _ _) as [[o|e|] q] eqn:Hrun; [intros [= -> ->]| |done].
  - eapply (path_twice None (reads_text s) _ _ get_place get_imap) in Hrun as (b & Hb & Hrun).
    + rewrite Hrun. by exists b.
    + intros t' ro addr f r r' Hset. by eapply set_place_reads.
    + intros ro f. by apply set_imap_reads.
    + intros t' ro addr f r r' Hset. by eapply set_place_reads.
    + intros ro addr f r. unfold set_place. case_decide; [|by destruct ro].
      cbn. intros [= He]. apply AsSingleError_None in He. unfold Add in He. cbn in He. by rewrite Hc in He.
  - case_decide; [done|]. intros [= He _]. apply AsSingleError_None in He. unfold Add in He. cbn in He. by rewrite Hc in He.
Qed.

(** [Config.Get] looks into a copy: a path that goes through a section that is
    not there, or a map that was never made, panics. *)
Theorem get_by_value_panics elem path p :
  strings_Split path "." ≠ [] → (p = PPtr None ∨ p = PStrMap None) →
  (GetPathValue path (match p with PPtr _ => TPtr elem | _ => TMap TString end) false p).1 = Panic.
Proof.
  intros Hs Hp. unfold GetPathValue. destruct (strings_Split path ".") as [|s steps]; [done|].
  by destruct Hp as [->| ->].
Qed.

(** A negative index in a path panics, before and after the walk it ends. *)
Theorem negative_index_panics s n rest elem ro addr l {A} (k : gtype → bool → bool → string → stM place A) ki :
  strconv_ParseInt 32 s = Some n → (n < 0)%Z → elem ≠ TByte →
  (at_path k ki (TSlice elem) (s :: rest) ro addr (PSlice (Some l))).1 = Panic.
Proof.
  intros Hs Hn He. cbn [at_path]. unfold at_slice, coerceToInt. rewrite Hs. cbn [default from_option id].
  rewrite decide_False by lia. by rewrite decide_True.
Qed.
End spec.

Module PathDemo.
Import FillDemo.
#[local] Existing Instance demo_env.
(** A configuration with a section that is not there yet *)
Definition api_t : gtype := TStruct "config.API" false
  [(mkField "Enabled" "enabled" true, TBool); (mkField "Ports" "ports" true, TSlice TInt);
   (mkField "Labels" "labels" true, TMap TString)].
Definition config_t : gtype := TStruct "config.Config" false [(mkField "API" "" true, TPtr api_t)].
Definition config_set : place := PStruct [PPtr (Some (PStruct [PBool true; PSlice None; PStrMap None] []))] [].

Lemma SetPathValue_GetPathValue_witness : ∃ r, GetPathValue "api.enabled" config_t true config_set = (Ok r, config_set) ∧ reads_as "TRUE" r.2.
Proof.
  apply (SetPathValue_GetPathValue "api.enabled" "TRUE" config_t (zero_place config_t) config_set).
  vm_compute. reflexivity.
Defined.

(** Other ends of paths *)
Lemma paths_demo :
  (GetPathValue "Api.Labels.Owner" config_t true (SetPathValue "api.labels.owner" (VString "o") config_t (zero_place config_t)).2).1 =
    Ok (TString, PString "o") ∧
  (SetPathValue "api.ports.0" (VString "80") config_t config_set).1 =
    Ok (Some (Errorf ("at " +:+ quoted "%s" +:+ ": %s") ["api.ports.0"; "index outside of range: 0, len is 0"])) ∧
  (SetPathValue "api.nope" (VString "80") config_t (zero_place config_t)).1 =
    Ok (Some (ErrWrap "at %q: %w" ["api.nope"] ErrNotFound)).
Proof. vm_compute. auto. Qed.
End PathDemo.
