(* ===== verification/ChangesSpec.v ===== *)
(** * Theorems of change reports

    Columns are joined by their titles, and a version compared with itself has
    not changed. *)
From S2P Require Export Changes.

(** ** Floats: what is taken away and added back *)
Definition is_zero (f : float64) : Prop := match f with SpecFloat.S754_zero _ => True | _ => False end.
Definition is_finite (f : float64) : Prop :=
  match f with SpecFloat.S754_zero _ | SpecFloat.S754_finite _ _ _ => True | _ => False end.

Lemma cancel_zero f : is_finite f → is_zero (float_add (float_sub float_zero f) f).
Proof.
  destruct f as [s|s| |s m e]; cbn; try done; intros _; [by destruct s|].
  unfold float_add, SpecFloat.SFadd.
  rewrite Z.min_id. destruct (SpecFloat.shl_align m e e) as [m' e']. cbn [fst].
  by destruct s; cbn; rewrite ?Z.add_opp_diag_r, ?Z.add_opp_diag_l.
Qed.
Lemma add_zeros f g : is_zero f → is_zero g → is_zero (float_add f g).
Proof. destruct f as [[]| | |], g as [[]| | |]; cbn; done. Qed.
Lemma zero_eqb f : is_zero f → float_eqb f float_zero = true.
Proof. by destruct f as [[]| | |]. Qed.

(** ** The index of columns *)
Definition titles (cols : list Column) : list string := map col_Title cols.

(** The position of the last column with a title, or -1 *)
Definition last_pos (cols : list Column) (t : string) : Z :=
  (foldl (λ ip c, (S ip.1, if decide (col_Title c = t) then Z.of_nat ip.1 else ip.2)) (0, (-1)%Z) cols).2.

Lemma last_pos_len cols t p :
  (foldl (λ ip c, (S ip.1, if decide (col_Title c = t) then Z.of_nat ip.1 else ip.2)) p cols).1 = p.1 + length cols.
Proof. revert p. induction cols as [|c cols IH]; intros p; cbn [foldl length]; [lia|]. rewrite IH. cbn. lia. Qed.

Lemma last_pos_snoc cols c t :
  last_pos (cols ++ [c]) t = if decide (col_Title c = t) then Z.of_nat (length cols) else last_pos cols t.
Proof. unfold last_pos. rewrite foldl_app. cbn [foldl snd]. by rewrite last_pos_len. Qed.

Lemma titles_snoc cols c t : t ∈ titles (cols ++ [c]) ↔ t ∈ titles cols ∨ t = col_Title c.
Proof. unfold titles. rewrite map_app, elem_of_app. cbn. by rewrite list_elem_of_singleton. Qed.

Lemma last_pos_cases cols t :
  (last_pos cols t = -1 ∧ t ∉ titles cols)%Z ∨
  ∃ i c, last_pos cols t = Z.of_nat i ∧ cols !! i = Some c ∧ col_Title c = t ∧ t ∈ titles cols.
Proof.
  induction cols as [|c cols IH] using rev_ind; [left; split; [done|apply not_elem_of_nil]|].
  rewrite last_pos_snoc. case_decide as Hc.
  - right. exists (length cols), c. rewrite lookup_app_r, Nat.sub_diag by lia. split_and!; [done..|]. apply titles_snoc. by right.
  - destruct IH as [[-> Hn]|(i & x & -> & Hi & Hx & Ht)].
    + left. rewrite titles_snoc. naive_solver.
    + right. exists i, x. split_and!; [done|by apply lookup_app_l_Some|done|]. apply titles_snoc. by left.
Qed.

Definition indexed (m : gmap string (Z * Z)) (L R : list Column) : Prop :=
  ∀ t, m !! t = if decide (t ∈ titles L ∨ t ∈ titles R) then Some (last_pos L t, last_pos R t) else None.

Lemma last_pos_absent cols t : t ∉ titles cols → last_pos cols t = (-1)%Z.
Proof. intros Ht. by destruct (last_pos_cases cols t) as [[? _]|(? & ? & _ & _ & _ & ?)]. Qed.

Lemma indexed_left m L R c : indexed m L R → indexed (set_left (length L) (col_Title c) m) (L ++ [c]) R.
Proof.
  intros Hm t. unfold set_left. rewrite last_pos_snoc.
  destruct (decide (col_Title c = t)) as [<-|Hne].
  - rewrite lookup_insert_eq, decide_True by (rewrite titles_snoc; auto). f_equal. f_equal.
    rewrite (Hm (col_Title c)). case_decide as Ht; [done|]. cbn. symmetry. apply last_pos_absent. tauto.
  - rewrite lookup_insert_ne, (Hm t) by done. apply decide_ext. rewrite titles_snoc. naive_solver.
Qed.
Lemma indexed_right m L R c : indexed m L R → indexed (set_right (length R) (col_Title c) m) L (R ++ [c]).
Proof.
  intros Hm t. unfold set_right. rewrite last_pos_snoc.
  destruct (decide (col_Title c = t)) as [<-|Hne].
  - rewrite lookup_insert_eq, decide_True by (rewrite titles_snoc; auto). f_equal. f_equal.
    rewrite (Hm (col_Title c)). case_decide as Ht; [done|]. cbn. symmetry. apply last_pos_absent. tauto.
  - rewrite lookup_insert_ne, (Hm t) by done. apply decide_ext. rewrite titles_snoc. naive_solver.
Qed.

Lemma take_next {A} (l : list A) n :
  take (S n) l = take n l ++ option_list (l !! n) ∧ (is_Some (l !! n) → length (take n l) = n).
Proof.
  destruct (l !! n) as [x|] eqn:Hl; cbn.
  - split; [by apply take_S_r|]. intros _. apply lookup_lt_Some in Hl. rewrite length_take. lia.
  - apply lookup_ge_None in Hl. rewrite !take_ge by lia. split; [by rewrite app_nil_r|by intros []].
Qed.

Lemma index_prefix L R n : indexed (foldl (index_step L R) ∅ (seq 0 n)) (take n L) (take n R).
Proof.
  induction n as [|n IH].
  { intros t. cbn. rewrite lookup_empty, decide_False; [done|]. by intros [?%not_elem_of_nil|?%not_elem_of_nil]. }
  rewrite seq_S, foldl_app. cbn [foldl Nat.add].
  destruct (take_next L n) as [-> HL], (take_next R n) as [-> HR]. revert IH.
  generalize (foldl (index_step L R) ∅ (seq 0 n)). intros m IH. unfold index_step. assert (indexed (match L !! n with Some c => set_left n (col_Title c) m | None => m end)
    (take n L ++ option_list (L !! n)) (take n R)) as IHL.
  { destruct (L !! n) as [c|]; cbn [option_list]; [|rewrite <- (app_nil_r (take n L)) in IH; exact IH].
    pose proof (indexed_left m _ _ c IH) as Hi. by rewrite HL in Hi by done. }
  destruct (R !! n) as [c|]; cbn [option_list]; [|rewrite <- (app_nil_r (take n R)) in IHL; exact IHL].
  pose proof (indexed_right _ _ _ c IHL) as Hi. by rewrite HR in Hi by done.
Qed.

Lemma colIndex_indexed L R : indexed (colIndex L R) L R.
Proof.
  unfold colIndex. pose proof (index_prefix L R (length L `max` length R)) as Hi.
  by rewrite !take_ge in Hi by lia.
Qed.

Section spec.
Context {W Schema St : Type} `{E : !ReportEnv W Schema St, MW : !MapWalk}.

(** ** Columns are joined *)

(** The statistics at a position, or the empty object *)
Definition stats_at (stats : list object) (pos : Z) : object :=
  if decide (0 ≤ pos)%Z then default ∅ (stats !! Z.to_nat pos) else ∅.

Lemma index_Ok {A} (l : list A) i x : index l i = Ok x → l !! Z.to_nat i = Some x.
Proof. unfold index. case_decide; [done|]. destruct (l !! Z.to_nat i); cbn; naive_solver. Qed.

Lemma side_stats pos stats cols r : side_at pos stats cols = Ok r → r.1 = stats_at stats pos.
Proof.
  unfold side_at, stats_at. case_decide; [|by intros [= <-]].
  destruct (index stats pos) as [s|e|] eqn:Hs; cbn; [|done..]. apply index_Ok in Hs as ->.
  destruct (index cols pos); cbn; [|done..]. by intros [= <-].
Qed.

Lemma column_change_Ok L R ls rs kv c : column_change L R ls rs kv = Ok c →
  cc_Title c = kv.1 ∧ c_Left (cc_Component c) = stats_at ls kv.2.1 ∧ c_Right (cc_Component c) = stats_at rs kv.2.2.
Proof.
  unfold column_change. destruct (side_at kv.2.1 ls L) as [l|e|] eqn:Hl; cbn; [|done..].
  destruct (side_at kv.2.2 rs R) as [r|e|] eqn:Hr; cbn; [|done..].
  destruct (with_message _ _) as [d|e|]; cbn; [|done..]. intros [= <-]. cbn.
  by rewrite (side_stats _ _ _ _ Hl), (side_stats _ _ _ _ Hr).
Qed.

Lemma columns_loop_Ok L R ls rs l cs : columns_loop L R ls rs l = Ok cs →
  Forall2 (λ kv c, column_change L R ls rs kv = Ok c) l cs.
Proof.
  revert cs. induction l as [|kv l IH]; intros cs; cbn [columns_loop]; [by intros [= <-]|].
  destruct (column_change L R ls rs kv) as [c|e|] eqn:Hc; cbn; [|done..].
  destruct (columns_loop L R ls rs l) as [rest|e|]; cbn; [|done..]. intros [= <-]. constructor; auto.
Qed.

(** Columns are joined by their titles. The report has one column for every
    title that either side has, with, on each side, the statistics of the last
    column of that title, and the empty object where there is none. *)
Theorem matchColumns_join leftCols rightCols leftStats rightStats cs :
  matchColumns leftCols rightCols leftStats rightStats = Ok cs →
  NoDup (map cc_Title cs) ∧
  (∀ t, t ∈ map cc_Title cs ↔ t ∈ titles leftCols ∨ t ∈ titles rightCols) ∧
  ∀ c, c ∈ cs →
    c_Left (cc_Component c) = stats_at leftStats (last_pos leftCols (cc_Title c)) ∧
    c_Right (cc_Component c) = stats_at rightStats (last_pos rightCols (cc_Title c)).
Proof.
  intros Hcs%columns_loop_Ok. pose proof (colIndex_indexed leftCols rightCols) as Hix.
  pose proof (walk_perm (colIndex leftCols rightCols)) as Hperm.
  assert (map cc_Title cs = (walk (colIndex leftCols rightCols)).*1) as Htitles.
  { clear Hix Hperm. induction Hcs as [|kv c l cs Hc _ IH]; cbn; [done|]. apply column_change_Ok in Hc as (-> & _). by f_equal. }
  split; [|split].
  - rewrite Htitles, Hperm. apply NoDup_fst_map_to_list.
  - intros t. rewrite Htitles, Hperm, list_elem_of_fmap. split.
    + intros ([k v] & -> & Hkv%elem_of_map_to_list). rewrite (Hix k) in Hkv.
      case_decide as Hd; [exact Hd|done].
    + intros Ht. exists (t, (last_pos leftCols t, last_pos rightCols t)). split; [done|].
      apply elem_of_map_to_list. by rewrite (Hix t), decide_True.
  - intros c Hc. apply list_elem_of_lookup in Hc as [i Hi].
    destruct (Forall2_lookup_r _ _ _ _ _ Hcs Hi) as ([k v] & Hkv & Hchange).
    apply column_change_Ok in Hchange as (-> & -> & ->). cbn [fst snd].
    apply list_elem_of_lookup_2 in Hkv. rewrite Hperm in Hkv. apply elem_of_map_to_list in Hkv.
    rewrite (Hix k) in Hkv. case_decide; [|done]. by injection Hkv as <-.
Qed.

(** ** A version against itself *)

(** A column of a type a report is made for, and statistics as JSON has them *)
Definition supported (c : Column) : Prop :=
  fits ["number"; "integer"] (Some c) = true ∨ fits ["string"] (Some c) = true ∨ fits ["boolean"] (Some c) = true.
Definition numeric (o : object) : Prop :=
  ∀ k, k ∈ ["count"; "max"; "min"; "median"; "mean"; "maxLength"; "minLength"; "unique"; "trueCount"; "falseCount"] →
    match o !! k with None | Some VNil => True | Some (VFloat f) => is_finite f | Some _ => False end.

Lemma delta_self o k : match o !! k with None | Some VNil => True | Some (VFloat f) => is_finite f | Some _ => False end →
  ∃ d, delta_of (Some o) (Some o) k = Ok d ∧ is_zero d.
Proof.
  intros Hk. unfold delta_of, stat_of, stat. destruct (o !! k) as [[]|]; try done; cbn; [by eexists| |by eexists].
  eexists. split; [done|]. by apply cancel_zero.
Qed.
Lemma deltas_self o ks : Forall (λ k, match o !! k with None | Some VNil => True | Some (VFloat f) => is_finite f | Some _ => False end) ks →
  ∃ m, deltas (Some o) (Some o) ks = Ok m ∧ map_Forall (λ _, is_zero) m.
Proof.
  induction 1 as [|k ks Hk _ (m & Hm & Hz)]; cbn [deltas]; [by exists ∅; split; [|apply map_Forall_empty]|].
  destruct (delta_self o k Hk) as (d & -> & Hd). cbn. rewrite Hm. cbn. eexists. split; [done|]. by apply map_Forall_insert_2.
Qed.

Lemma column_self (c : Column) o : supported c → numeric o → parseStatsMap o = Ok o →
  ∃ d, columnStatsDelta o o (Some c) (Some c) = Ok (d, STUnmodified) ∧ map_Forall (λ _, is_zero) d.
Proof.
  intros Hc Ho Hparse. unfold columnStatsDelta, parse_side. rewrite Hparse. cbn [mbind outcome_bind].
  assert (∃ ks, shape (Some c) (Some c) = Ok ks ∧ ks ⊆ ["count"; "max"; "min"; "median"; "mean"; "maxLength"; "minLength"; "unique"; "trueCount"; "falseCount"])
    as (ks & Hks & Hin).
  { unfold shape. destruct (fits ["number"; "integer"] (Some c)) eqn:H1; [eexists; split; [done|set_solver]|].
    destruct (fits ["string"] (Some c)) eqn:H2; [eexists; split; [done|set_solver]|].
    destruct (fits ["boolean"] (Some c)) eqn:H3; [eexists; split; [done|set_solver]|].
    destruct Hc as [Hc|[Hc|Hc]]; congruence. }
  rewrite Hks. cbn [mbind outcome_bind]. destruct (deltas_self o ks) as (d & Hd & Hz).
  { apply Forall_forall. intros k Hk. by apply Ho, Hin. }
  rewrite Hd. cbn. exists d. split; [|done]. do 2 f_equal. rewrite zero_eqb; [done|].
  assert (Forall (λ kd, is_zero kd.2) (walk d)) as Hw.
  { rewrite walk_perm. apply Forall_forall. intros [k f] Hk%elem_of_map_to_list. exact (Hz k f Hk). }
  assert (∀ z, is_zero z → is_zero (foldl (λ sum kd, float_add sum kd.2) z (walk d))) as Hsum; [|by apply Hsum].
  induction Hw as [|kd l Hkd _ IH]; intros z Hz0; cbn; [done|]. by apply IH, add_zeros.
Qed.

Lemma side_at_self i stats cols s c : stats !! i = Some s → cols !! i = Some c → side_at (Z.of_nat i) stats cols = Ok (s, Some c).
Proof.
  intros Hs Hc. unfold side_at, index. rewrite !decide_True, !decide_False, !Nat2Z.id by lia. by rewrite Hs, Hc.
Qed.

Definition same_column (c : ColumnChange) : Prop :=
  c_Status (cc_Component c) = STUnmodified ∧ c_Left (cc_Component c) = c_Right (cc_Component c) ∧
  map_Forall (λ _, is_zero) (cc_Delta c).

Lemma columns_self cols stats : length stats = length cols → Forall supported cols → Forall numeric stats →
  (∀ o, o ∈ stats → parseStatsMap o = Ok o) →
  ∃ cs, matchColumns cols cols stats stats = Ok cs ∧ Forall same_column cs.
Proof.
  intros Hlen Hsup Hnum Hparse. unfold matchColumns.
  assert (Forall (λ kv, ∃ i, kv.2 = (Z.of_nat i, Z.of_nat i) ∧ i < length cols) (walk (colIndex cols cols))) as Hpos.
  { rewrite walk_perm. apply Forall_forall. intros [t v] Ht%elem_of_map_to_list.
    rewrite (colIndex_indexed cols cols t) in Ht. case_decide as Hin; [|done]. injection Ht as <-.
    destruct (last_pos_cases cols t) as [[_ Hn]|(i & c & -> & Hi & _)]; [tauto|].
    exists i. split; [done|]. by eapply lookup_lt_Some. }
  induction Hpos as [|kv l (i & Hkv & Hi) _ (cs & Hcs & Hall)]; cbn [columns_loop]; [by eexists|].
  destruct (lookup_lt_is_Some_2 cols i Hi) as [c Hc]. destruct (lookup_lt_is_Some_2 stats i ltac:(lia)) as [o Ho].
  destruct (column_self c o) as (d & Hd & Hz).
  { eapply (Forall_lookup_1 supported); done. } { eapply (Forall_lookup_1 numeric); done. }
  { apply Hparse. by eapply list_elem_of_lookup_2. }
  unfold column_change at 1. rewrite Hkv. cbn [fst snd]. rewrite (side_at_self i stats cols o c) by done. cbn [mbind outcome_bind fst snd].
  rewrite Hd. cbn [with_message mbind outcome_bind]. rewrite Hcs. cbn. eexists. split; [done|]. by constructor.
Qed.

Lemma status_self b : component_status b b true = if b then STUnmodified else STMissing.
Proof. by destruct b. Qed.

(** No component is told to have changed. *)
Definition kept {A} (o : option (ChangeReportComponent A)) : Prop :=
  ∀ c, o = Some c → c_Left c = c_Right c ∧ (c_Status c = STUnmodified ∨ c_Status c = STMissing).
Lemma kept_option {A} (o : option A) : kept (report_option o o true).
Proof. intros c. unfold report_option. destruct o; cbn; [|done]. intros [= <-]. by split; [|left]. Qed.
Lemma kept_script o : kept (report_script o o).
Proof.
  intros c. unfold report_script. destruct (is_there o || is_there o); [|done]. intros [= <-]. cbn. split; [done|].
  rewrite bool_decide_eq_true_2, status_self by done. destruct (nonempty _); auto.
Qed.
Lemma kept_meta (ds : ReportDataset Schema St) : kept (report_meta ds ds).
Proof.
  intros c. unfold report_meta. destruct (_ || _); [|done]. intros [= <-]. cbn. split; [done|].
  rewrite bool_decide_eq_true_2, status_self by done. destruct (is_there _); auto.
Qed.

(** A version against itself has not changed. For a CSV dataset whose
    columns are of the types a report is made for, the report is made, both
    sides of every part are the same, none is told to be added, removed or
    modified, and every difference of statistics is zero. *)
Theorem Report_self leftRef rightRef src ds sa s cols stats w :
  LoadDataset leftRef src w = (Ok ds, w) → LoadDataset rightRef src w = (Ok ds, w) → ref_Path rightRef ≠ "" →
  check_csv (ds_Structure (rd_Dataset ds)) = Ok tt → parseColumns ds = Ok (s, cols) →
  rd_Stats ds = Some sa → parseStats sa = Ok stats → length stats = length cols →
  Forall supported cols → Forall numeric stats → (∀ o, o ∈ stats → parseStatsMap o = Ok o) →
  ∃ res, Report leftRef rightRef src w = (Ok res, w) ∧
    c_Status (r_VersionInfo res) = STUnmodified ∧
    kept (r_Commit res) ∧ kept (r_Meta res) ∧ kept (r_Readme res) ∧ kept (r_Structure res) ∧ kept (r_Transform res) ∧
    Forall same_column (Columns (r_Stats res)) ∧
    sf_Columns (s_Delta (Summary (r_Stats res))) = 0%Z.
Proof.
  intros Hl Hr Hpath Hcsv Hcols Hsa Hstats Hlen Hsup Hnum Hparse.
  destruct (columns_self cols stats Hlen Hsup Hnum Hparse) as (cs & Hcs & Hsame).
  unfold Report. rewrite (bind_run _ _ _ _ _ Hl), decide_False, (bind_run _ _ _ _ _ Hr) by done.
  rewrite Hcsv, !(bind_run (st_lift (Ok tt)) _ w tt w) by done.
  assert (statsDiff ds ds w = (Ok (mkStatsChange (mkSummary s s (summary_delta s s (length cols) (length cols))) cs), w)) as Hdiff.
  { unfold statsDiff. rewrite Hcols, !(bind_run (st_lift (Ok (s, cols))) _ w (s, cols) w) by done.
    unfold maybeLoadStats. rewrite Hsa, !(bind_run (mret sa) _ w sa w) by done.
    rewrite Hstats, !(bind_run (st_lift (Ok stats)) _ w stats w) by done. cbn [snd]. by rewrite Hcs. }
  rewrite (bind_run _ _ _ _ _ Hdiff). eexists. split; [done|].
  cbn [r_VersionInfo r_Commit r_Meta r_Readme r_Structure r_Transform r_Stats c_Status Columns Summary s_Delta].
  rewrite !bool_decide_eq_true_2 by done.
  split_and!; auto using kept_option, kept_meta, kept_script; [by rewrite decide_True|].
  destruct s; cbn; lia.
Qed.

(** ** Where reports go wrong *)

(** Changes of statistics that add up to nothing pass for no change. *)
Theorem changes_cancel (lCol rCol : Column) deltaCol :
  is_zero (foldl (λ sum kd, float_add sum kd.2) float_zero (walk deltaCol)) →
  column_status (Some lCol) (Some rCol) deltaCol = STUnmodified.
Proof. intros Hz. unfold column_status. by rewrite zero_eqb. Qed.

(** A column that was added or removed panics when it is of any other type. *)
Theorem removed_column_panics left right c : ¬ supported c → parseStatsMap left = Ok left →
  columnStatsDelta left right (Some c) None = Panic.
Proof.
  intros Hc Hl. unfold columnStatsDelta, parse_side. rewrite Hl. cbn [mbind outcome_bind].
  unfold shape, supported in *. cbn [fits] in *. cbn [andb].
  repeat match goal with |- context [if ?b then _ else _] => destruct b eqn:?; [by exfalso; apply Hc; auto|] end. done.
Qed.
End spec.

Module ChangesDemo.
(** One dataset of two columns; its JSON texts are names. *)
Definition city_stats : object := {[ "count" := VFloat (float64_of_int 5); "maxLength" := VFloat (float64_of_int 8) ]}.
Definition age_stats : object := {[ "count" := VFloat (float64_of_int 5); "max" := VFloat (float64_of_int 65); "mean" := VNil ]}.
Definition demo_ds : ReportDataset unit unit :=
  mkReportDataset (mkDataset "peer" "QmP" "cities" "/ipfs/QmV" "" 0 (Some (mkCommit 0 "t" "m" ""))
    (Some (mkMeta "Cities" None)) (Some (mkStructure "csv" 155 5 0)))
    "/ipfs/QmC" "/ipfs/QmM" true "/ipfs/QmS" tt (Some "# readme") None (Some tt).
Definition is_type (t t' : string) : bool := bool_decide (t = t').
#[local] Instance demo_report : ReportEnv unit unit unit := {|
  LoadDataset := λ _ _, mret demo_ds;
  stats_Stats := λ _, mret tt;
  ColumnsFromJSONSchema := λ _, Ok [mkColumn "city" (is_type "string"); mkColumn "avg_age" (is_type "integer")];
  json_Marshal_stats := λ _, Ok "stats";
  json_Unmarshal_objects := λ _, Ok [city_stats; age_stats];
  json_Marshal_object := λ o, Ok (if decide (o !! "max" = None) then "city" else "age");
  json_Unmarshal_object := λ s, Ok (if decide (s = "city") then city_stats else age_stats);
|}.
#[local] Instance demo_walk : MapWalk := {| walk _ m := map_to_list m; walk_perm _ m := Permutation_refl _ |}.

Lemma demo_columns : ∃ cs,
  matchColumns [mkColumn "city" (is_type "string"); mkColumn "avg_age" (is_type "integer")] [mkColumn "city" (is_type "string")]
    [city_stats; age_stats] [city_stats] = Ok cs.
Proof. eexists. vm_compute. reflexivity. Qed.

Lemma matchColumns_join_witness : ∃ cs,
  matchColumns [mkColumn "city" (is_type "string"); mkColumn "avg_age" (is_type "integer")] [mkColumn "city" (is_type "string")]
    [city_stats; age_stats] [city_stats] = Ok cs ∧ NoDup (map cc_Title cs).
Proof. destruct demo_columns as [cs Hcs]. exists cs. split; [exact Hcs|]. apply (matchColumns_join _ _ _ _ _ Hcs). Defined.

Definition keys_of_stats : list string :=
  ["count"; "max"; "min"; "median"; "mean"; "maxLength"; "minLength"; "unique"; "trueCount"; "falseCount"].
Lemma numeric_forall o : Forall (λ k, match o !! k with None | Some VNil => True | Some (VFloat f) => is_finite f | Some _ => False end)
  keys_of_stats → numeric o.
Proof. intros Hall k Hk. rewrite Forall_forall in Hall. by apply Hall. Qed.

Lemma Report_self_witness : ∃ res,
  Report (mkRef "" "peer" "" "cities" "/ipfs/QmV") (mkRef "" "peer" "" "cities" "/ipfs/QmV") "" tt = (Ok res, tt) ∧
  c_Status (r_VersionInfo res) = STUnmodified.
Proof.
  destruct (Report_self (mkRef "" "peer" "" "cities" "/ipfs/QmV") (mkRef "" "peer" "" "cities" "/ipfs/QmV") "" demo_ds tt
    (Some (mkSummaryFields 5 2 155)) [mkColumn "city" (is_type "string"); mkColumn "avg_age" (is_type "integer")]
    [city_stats; age_stats] tt) as (res & Hres & Hstatus & _); try reflexivity; [done| | | |by eauto].
  - constructor; [right; left; reflexivity|]. constructor; [left; reflexivity|constructor].
  - constructor; [|constructor; [|constructor]]; apply numeric_forall; vm_compute; repeat constructor.
  - intros o [->|[->|[]%not_elem_of_nil]%elem_of_cons]%elem_of_cons; vm_compute; reflexivity.
Defined.

(** A column whose smallest value went down by as much as its largest went up
    is told to be unmodified. *)
Definition before : object := {[ "min" := VFloat (float64_of_int 3); "max" := VFloat (float64_of_int 7) ]}.
Definition after : object := {[ "min" := VFloat (float64_of_int 2); "max" := VFloat (float64_of_int 8) ]}.
Definition two_objects : ReportEnv unit unit unit := {|
  LoadDataset := λ _ _, mret demo_ds;
  stats_Stats := λ _, mret tt;
  ColumnsFromJSONSchema := λ _, Ok [];
  json_Marshal_stats := λ _, Ok "stats";
  json_Unmarshal_objects := λ _, Ok [];
  json_Marshal_object := λ o,
    Ok (match o !! "min" with Some (VFloat f) => if float_eqb f (float64_of_int 3) then "before" else "after" | _ => "" end);
  json_Unmarshal_object := λ s, Ok (if decide (s = "before") then before else after);
|}.
Theorem opposite_changes :
  match columnStatsDelta (E := two_objects) before after
    (Some (mkColumn "age" (is_type "integer"))) (Some (mkColumn "age" (is_type "integer"))) with
  | Ok (d, status) => d !! "max" = Some (float64_of_int 1) ∧ status = STUnmodified
  | _ => False
  end.
Proof. vm_compute. auto. Qed.
End ChangesDemo.
