(* ===== verification/CommitSpec.v ===== *)
(** * Theorems of commits

    A save is refused exactly when nothing changed, every commit is described,
    and descriptions tell of the components that changed. *)
From Stdlib Require Import Btauto.
From S2P Require Export Friendly Commit.

(** * Facts of descriptions of changes

    What changed, read off the differences, and what the descriptions make of
    it. *)
(** Induction on differences, through those below *)
Section Delta_ind.
Context (P : Delta → Prop) (Hstep : ∀ t p v ds, Forall P ds → P (mkDelta t p v ds)).
Fixpoint Delta_nested_ind (d : Delta) : P d :=
  match d with
  | mkDelta t p v ds =>
      Hstep t p v ds
        ((fix go (ds : list Delta) : Forall P ds :=
            match ds with [] => Forall_nil_2 _ | d :: ds => Forall_cons_2 _ d ds (Delta_nested_ind d) (go ds) end) ds)
  end.
End Delta_ind.

(** ** What changed *)

(** A change at any depth *)
Fixpoint has_change (d : Delta) : bool :=
  match d with mkDelta t _ _ ds => negb (bool_decide (t = DTContext)) || existsb has_change ds end.
Fixpoint has_body_change (d : Delta) : bool :=
  match d with mkDelta t _ _ ds => is_change t || existsb has_body_change ds end.

(** A difference of a whole component, or one that has differences below *)
Definition changes_component (d : Delta) : bool :=
  match d_Type d with
  | DTContext => match d_Deltas d with [] => false | _ => true end
  | DTInsert | DTDelete | dtReplace => true
  | _ => false
  end.
Definition changes_to (c : string) (d : Delta) : bool := bool_decide (d_Path d = c) && changes_component d.

(** Differences stand for something: below a context that has any there is a
    change. *)
Definition sound (d : Delta) : Prop :=
  d_Type d = DTContext → d_Deltas d = [] ∨ existsb has_change (d_Deltas d) = true.

(** ** Combining insertions with deletions *)
Lemma prep_step_cases build d :
  prep_step build d = build ++ [d] ∨
  ∃ b l, build = b ++ [l] ∧ d_Path l = d_Path d ∧ d_Type l = DTDelete ∧ d_Type d = DTInsert ∧
    prep_step build d = b ++ [mkDelta dtReplace (d_Path l) (d_Value l) (d_Deltas l)].
Proof.
  unfold prep_step. destruct (last build) as [l|] eqn:Hl; [|by left]. case_decide as Hd; [|by left].
  right. apply last_Some in Hl as [b ->]. exists b, l. rewrite removelast_last. destruct Hd as (? & ? & ?). auto.
Qed.

(** A test that holds of a deletion, an insertion and a replacement alike sees
    no difference. *)
Lemma existsb_prep (p : Delta → bool) build ds :
  (∀ l d : Delta, d_Path l = d_Path d → d_Type l = DTDelete → d_Type d = DTInsert →
    p (mkDelta dtReplace (d_Path l) (d_Value l) (d_Deltas l)) = p l || p d) →
  existsb p (foldl prep_step build ds) = existsb p build || existsb p ds.
Proof.
  intros Hp. revert build. induction ds as [|d ds IH]; intros build; cbn [foldl existsb]; [by rewrite orb_false_r|].
  rewrite IH. destruct (prep_step_cases build d) as [->|(b & l & -> & H1 & H2 & H3 & ->)];
    rewrite !existsb_app; cbn [existsb]; rewrite ?(Hp l d H1 H2 H3); btauto.
Qed.

Lemma prep_fields d : d_Type (prep d) = d_Type d ∧ d_Path (prep d) = d_Path d ∧ d_Value (prep d) = d_Value d.
Proof. by destruct d. Qed.

Lemma existsb_map {A B} (p : B → bool) (f : A → B) l : existsb p (map f l) = existsb (λ x, p (f x)) l.
Proof. induction l as [|x l IH]; cbn; congruence. Qed.
Lemma existsb_Forall_ext {A} (p q : A → bool) l : Forall (λ x, p x = q x) l → existsb p l = existsb q l.
Proof. induction 1 as [|x l Hx _ IH]; cbn; congruence. Qed.

Lemma has_change_prep d : has_change (prep d) = has_change d.
Proof.
  induction d as [t p v ds IH] using Delta_nested_ind. cbn [prep has_change]. f_equal.
  rewrite existsb_prep; [|by intros [] [] _; cbn; intros -> ->]. cbn [existsb orb].
  rewrite existsb_map. by apply existsb_Forall_ext.
Qed.
Lemma has_body_change_prep d : has_body_change (prep d) = has_body_change d.
Proof.
  induction d as [t p v ds IH] using Delta_nested_ind. cbn [prep has_body_change]. f_equal.
  rewrite existsb_prep; [|by intros [] [] _; cbn; intros -> ->]. cbn [existsb orb].
  rewrite existsb_map. by apply existsb_Forall_ext.
Qed.

Lemma existsb_preprocess p ds : (∀ d, p (prep d) = p d) →
  (∀ l d : Delta, d_Path l = d_Path d → d_Type l = DTDelete → d_Type d = DTInsert →
    p (mkDelta dtReplace (d_Path l) (d_Value l) (d_Deltas l)) = p l || p d) →
  existsb p (preprocess ds) = existsb p ds.
Proof.
  intros Hprep Hp. unfold preprocess. rewrite existsb_prep by done. cbn [existsb orb]. rewrite existsb_map.
  apply existsb_Forall_ext, Forall_forall. auto.
Qed.

Lemma preprocess_nil ds : preprocess ds = [] ↔ ds = [].
Proof.
  split; [|by intros ->]. intros Hnil. pose proof (existsb_preprocess (λ _, true) ds) as Hex.
  rewrite Hnil in Hex. destruct ds; [done|]. by specialize (Hex ltac:(done) ltac:(done)).
Qed.

Lemma changes_to_prep c d : changes_to c (prep d) = changes_to c d.
Proof.
  destruct d as [t p v ds]. unfold changes_to, changes_component. cbn [prep d_Path d_Type d_Deltas]. destruct t; try done.
  f_equal. pose proof (preprocess_nil ds) as Hnil. unfold preprocess in Hnil. destruct ds; [done|].
  by destruct (foldl _ _ _); [destruct Hnil as [Hnil _]; specialize (Hnil eq_refl)|].
Qed.
Lemma changes_to_preprocess c ds : existsb (changes_to c) (preprocess ds) = existsb (changes_to c) ds.
Proof.
  apply existsb_preprocess; [apply changes_to_prep|].
  intros l d Hpath Hl Hd. unfold changes_to, changes_component. rewrite Hl, Hd, Hpath. cbn. btauto.
Qed.

Lemma sound_prep d : sound d → sound (prep d).
Proof.
  destruct d as [t p v ds]. unfold sound. cbn [prep d_Type d_Deltas]. intros Hs Ht. destruct (Hs Ht) as [->|Hex]; [by left|right].
  change (existsb has_change (preprocess ds) = true).
  rewrite existsb_preprocess; [done|apply has_change_prep|]. by intros [] [] _; cbn; intros -> ->.
Qed.
Lemma sound_preprocess ds : Forall sound ds → Forall sound (preprocess ds).
Proof.
  intros Hs. unfold preprocess. assert (Forall sound (map prep ds)) as Hs'.
  { apply Forall_fmap. eapply Forall_impl; [exact Hs|]. apply sound_prep. }
  clear Hs. assert (∀ build, Forall sound build → Forall sound (foldl prep_step build (map prep ds))) as Hfold;
    [|by apply Hfold].
  induction Hs' as [|d l Hd _ IH]; intros build Hb; cbn [foldl]; [done|]. apply IH.
  destruct (prep_step_cases build d) as [->|(b & x & -> & _ & _ & _ & ->)]; [by apply Forall_app_2; [|constructor]|].
  apply Forall_app in Hb as [Hb _]. apply Forall_app_2; [done|]. by constructor; [|constructor].
Qed.

(** ** What is told of each component *)
Definition told (changes : ComponentChanges) : Prop := EntireMessage changes ≠ "" ∨ Rows changes ≠ [].

Lemma flat_map_some {A B} (f : A → list B) l x : x ∈ l → f x ≠ [] → flat_map f l ≠ [].
Proof.
  intros Hx Hf. induction l as [|y l IH]; [by apply not_elem_of_nil in Hx|]. cbn. intros [Hy Hl]%app_eq_nil.
  apply elem_of_cons in Hx as [->|Hx]; [done|by apply IH].
Qed.
Lemma delta_rows_some parent d : has_change d = true → delta_rows parent d ≠ [].
Proof.
  revert parent. induction d as [t p v ds IH] using Delta_nested_ind. intros parent. cbn [has_change delta_rows].
  case_bool_decide as Ht; [|by rewrite decide_False by done]. rewrite decide_True by done. cbn [negb orb app].
  intros (d & Hd & Hc)%existsb_exists. apply list_elem_of_In in Hd. rewrite Forall_forall in IH.
  by eapply flat_map_some; [|by apply IH].
Qed.

Lemma head_change_lookup m d c : sound d →
  (is_Some (head_change m d !! c) ↔ is_Some (m !! c) ∨ changes_to c d = true) ∧
  (map_Forall (λ _, told) m → map_Forall (λ _, told) (head_change m d)).
Proof.
  intros Hs. unfold changes_to, changes_component, head_change.
  assert (∀ changes, told changes → (is_Some (<[d_Path d := changes]> m !! c) ↔ is_Some (m !! c) ∨ bool_decide (d_Path d = c) && true = true) ∧
    (map_Forall (λ _, told) m → map_Forall (λ _, told) (<[d_Path d := changes]> m))) as Hset.
  { intros changes Hc. split; [|by intros Hm; apply map_Forall_insert_2]. rewrite lookup_insert_is_Some, andb_true_r, bool_decide_eq_true.
    destruct (decide (d_Path d = c)); naive_solver. }
  assert ((is_Some (m !! c) ↔ is_Some (m !! c) ∨ bool_decide (d_Path d = c) && false = true) ∧
    (map_Forall (λ _, told) m → map_Forall (λ _, told) m)) as Hkeep by (rewrite andb_false_r; naive_solver).
  destruct (d_Type d) eqn:Ht; try exact Hkeep; try (apply Hset; by left).
  destruct (d_Deltas d) as [|d' ds] eqn:Hds; [exact Hkeep|]. apply Hset. right. cbn [buildChanges no_changes Rows app].
  destruct (Hs Ht) as [Hnil|Hex]; [by rewrite Hds in Hnil|]. rewrite Hds in Hex.
  apply existsb_exists in Hex as (x & Hx & Hc). eapply flat_map_some; [by apply list_elem_of_In|by apply delta_rows_some].
Qed.

Lemma head_changes_lookup ds c : Forall sound ds →
  (is_Some (foldl head_change ∅ ds !! c) ↔ existsb (changes_to c) ds = true) ∧ map_Forall (λ _, told) (foldl head_change ∅ ds).
Proof.
  intros Hs. induction ds as [|d ds IH] using rev_ind; [cbn; split; [rewrite lookup_empty; split; [by intros []|done]|apply map_Forall_empty]|].
  apply Forall_app in Hs as [Hs Hd]. rewrite Forall_singleton in Hd. destruct (IH Hs) as [IHl IHt].
  rewrite foldl_app. cbn [foldl]. destruct (head_change_lookup (foldl head_change ∅ ds) d c Hd) as [Hl Ht].
  split; [|by apply Ht]. rewrite Hl, IHl, existsb_app, orb_true_iff. cbn. by rewrite orb_false_r.
Qed.

Lemma body_change_counts d : ∀ parent ch,
  if has_body_change d then Num ch < Num (body_change parent ch d) else body_change parent ch d = ch.
Proof.
  induction d as [t p v ds IH] using Delta_nested_ind. intros parent ch. cbn [has_body_change body_change].
  destruct (is_change t); [cbn; lia|]. cbn [orb]. set (q := joinPath parent p). clearbody q. revert ch.
  induction IH as [|d ds Hd _ IH]; intros ch; cbn [existsb foldl]; [done|]. specialize (Hd q ch).
  destruct (has_body_change d); cbn [orb].
  - specialize (IH (body_change q ch d)). destruct (existsb has_body_change ds); [lia|by rewrite IH].
  - rewrite Hd. apply IH.
Qed.
Lemma buildBodyChanges_counts ds : 0 < Num (buildBodyChanges no_changes "" ds) ↔ existsb has_body_change ds = true.
Proof.
  pose proof (body_change_counts (mkDelta DTContext "" VNil ds) "" no_changes) as Hc.
  cbn [has_body_change is_change orb body_change] in Hc. change (joinPath "" "") with "" in Hc. unfold buildBodyChanges.
  destruct (existsb has_body_change ds); [split; [done|]; intros _; exact Hc|]. rewrite Hc. cbn. split; [lia|done].
Qed.

(** ** The reference: which components changed *)
Definition body_changed (bodyDeltas : list Delta) (bodyStats : option DiffStats) (assumeBodyChanged : bool) : bool :=
  assumeBodyChanged || (existsb has_body_change bodyDeltas && match bodyStats with Some _ => true | None => false end).
Definition component_changed (headDeltas bodyDeltas : list Delta) (bodyStats : option DiffStats) (assumeBodyChanged : bool) (c : string) : bool :=
  existsb (changes_to c) headDeltas || (bool_decide (c = "body") && body_changed bodyDeltas bodyStats assumeBodyChanged).

(** A component that is told about has rows or a message, or is the body and
    has statistics. *)
Definition tellable (bodyStats : option DiffStats) (c : string) (changes : ComponentChanges) : Prop :=
  told changes ∨ c = "body" ∧ is_Some bodyStats.

Lemma buildComponentChanges_spec hs bs st assume c : Forall sound hs →
  (is_Some (buildComponentChanges (preprocess hs) (preprocess bs) st assume !! c) ↔ component_changed hs bs st assume c = true) ∧
  map_Forall (tellable st) (buildComponentChanges (preprocess hs) (preprocess bs) st assume).
Proof.
  intros Hs. destruct (head_changes_lookup (preprocess hs) c (sound_preprocess hs Hs)) as [Hl Ht].
  rewrite changes_to_preprocess in Hl. unfold buildComponentChanges, component_changed, body_changed.
  set (m := foldl head_change ∅ (preprocess hs)) in *. clearbody m.
  assert (map_Forall (tellable st) m) as Htell by (eapply map_Forall_impl; [exact Ht|]; by left).
  assert (∀ ch, tellable st "body" ch →
    (is_Some (<["body" := ch]> m !! c) ↔ existsb (changes_to c) hs || bool_decide (c = "body") && true = true) ∧
    map_Forall (tellable st) (<["body" := ch]> m)) as Hset.
  { intros ch Hch. split; [|by apply map_Forall_insert_2]. rewrite lookup_insert_is_Some, Hl, andb_true_r, orb_true_iff, bool_decide_eq_true.
    destruct (decide ("body" = c)); naive_solver. }
  assert ((is_Some (m !! c) ↔ existsb (changes_to c) hs || bool_decide (c = "body") && false = true) ∧ map_Forall (tellable st) m) as Hkeep
    by (rewrite andb_false_r, orb_false_r; done).
  destruct assume; cbn [orb]; [apply Hset; by left; left|].
  assert (existsb has_body_change (preprocess bs) = existsb has_body_change bs) as Hprep.
  { apply existsb_preprocess; [apply has_body_change_prep|]. by intros [] [] _; cbn; intros -> ->. }
  rewrite <- Hprep. pose proof (buildBodyChanges_counts (preprocess bs)) as Hcount.
  destruct st as [s|]; [|rewrite andb_false_r; destruct (preprocess bs); exact Hkeep]. rewrite andb_true_r.
  destruct (preprocess bs) as [|b bs']; [exact Hkeep|].
  destruct (existsb has_body_change (b :: bs')).
  - rewrite decide_True by (by apply Hcount). apply Hset. by right.
  - rewrite decide_False by (rewrite Hcount; done). exact Hkeep.
Qed.

(** ** Descriptions *)

Lemma append_nonempty a b : a ≠ "" → a +:+ b ≠ "".
Proof. by destruct a. Qed.
Lemma rows_message_nonempty c rows : rows_message c rows ≠ "".
Proof.
  unfold rows_message. assert (c +:+ ":" ≠ "") as Hc by (destruct c; done). revert Hc. generalize (c +:+ ":").
  induction rows as [|r rows IH]; intros s Hs; cbn; [done|]. by apply IH, append_nonempty.
Qed.
Lemma list_names_nonempty text names : text ≠ "" → list_names text names ≠ "".
Proof.
  revert text. induction names as [|n names IH]; intros text Ht; cbn; [done|].
  destruct names; [by apply append_nonempty|]. by apply IH, append_nonempty.
Qed.

(** The sides of the body are not both empty. *)
Definition sized (st : option DiffStats) : Prop := ∀ s, st = Some s → (0 < df_Left s ∨ 0 < df_Right s)%Z.

Lemma component_message_some c changes st title : c ≠ "" → tellable st c changes → sized st →
  ∃ r, component_message c changes st title = Ok r ∧ r.1 ≠ "" ∧ r.2 ≠ "".
Proof.
  intros Hc Ht Hst. unfold component_message. case_decide as He; [eexists; split; [done|]; split; by apply append_nonempty|].
  case_decide as Hbody.
  - destruct (Rows changes) as [|row rows] eqn:Hr.
    + destruct Ht as [[?|?]|[_ [s Hs]]]; [done..|]. unfold percentChange. rewrite Hs. specialize (Hst s Hs).
      rewrite (decide_False (P := _ = 0%Z)) by (case_decide; lia). cbn. eexists. split; [done|]. by split; apply append_nonempty.
    + eexists. split; [done|]. split; [apply rows_message_nonempty|by apply append_nonempty].
  - destruct (Rows changes) as [|row [|row' rows]] eqn:Hr.
    + destruct Ht as [[?|?]|[? _]]; done.
    + eexists. split; [done|]. by split; apply append_nonempty.
    + eexists. split; [done|]. split; [apply rows_message_nonempty|by apply append_nonempty].
Qed.

Definition is_told (m : gmap string ComponentChanges) (c : string) : bool :=
  is_there (m !! c).
Lemma describe_told m st names acc : Forall (λ c, c ≠ "") names → map_Forall (tellable st) m → sized st →
  (acc.1.1 = "" ↔ acc.2 = []) → (acc.1.2 = "" ↔ acc.2 = []) →
  ∃ t l, describe m st names acc = Ok (t, l, acc.2 ++ List.filter (is_told m) names) ∧
    (t = "" ↔ acc.2 ++ List.filter (is_told m) names = []) ∧ (l = "" ↔ acc.2 ++ List.filter (is_told m) names = []).
Proof.
  intros Hn Hm Hst. revert acc. induction Hn as [|c names Hc _ IH]; intros [[t l] ch] Ht Hl; cbn [describe List.filter fst snd] in *.
  { rewrite app_nil_r. by eexists _, _. }
  destruct (m !! c) as [changes|] eqn:Hch; (assert (is_told m c = is_there (m !! c)) as -> by done); rewrite Hch; cbn [is_there];
    [|by apply (IH (t, l, ch))].
  destruct (component_message_some c changes st t Hc (Hm _ _ Hch) Hst) as ([msg title] & -> & Hmsg & Htitle).
  cbn [mbind outcome_bind fst snd] in *.
  destruct (IH (title, if decide (l = "") then msg else l +:+ newline +:+ msg, ch ++ [c])) as (t' & l' & Hrun & H1 & H2).
  - split; [done|]. by intros [_ ?]%app_eq_nil.
  - cbn [fst snd]. split; [|by intros [_ ?]%app_eq_nil]. case_decide; [done|]. intros Habs. by apply append_nonempty in Habs.
  - cbn [fst snd] in *. rewrite <- app_assoc in Hrun, H1, H2. by eexists _, _.
Qed.

Lemma title_of_nonempty t ch : (t = "" ↔ ch = []) → (title_of t ch = "" ↔ ch = []).
Proof.
  intros Ht. unfold title_of. destruct ch as [|a [|b [|c ch]]]; [done|done|by split|].
  split; [|done]. intros Habs. by apply list_names_nonempty in Habs.
Qed.

Lemma DiffDescriptions_run headDeltas bodyDeltas st assume :
  Forall sound headDeltas → sized st → headDeltas ≠ [] ∨ bodyDeltas ≠ [] →
  let ch := List.filter (is_told (buildComponentChanges (preprocess headDeltas) (preprocess bodyDeltas) st assume)) componentsToCheck in
  ∃ title message, DiffDescriptions headDeltas bodyDeltas st assume = Ok (title, message) ∧
    (title = "" ↔ ch = []) ∧ (message = "" ↔ ch = []).
Proof.
  intros Hs Hst Hne ch. unfold DiffDescriptions.
  set (m := buildComponentChanges (preprocess headDeltas) (preprocess bodyDeltas) st assume) in *.
  destruct (describe_told m st componentsToCheck ("", "", [])) as (t & l & Hrun & H1 & H2); [by repeat constructor| |done..|].
  { by destruct (buildComponentChanges_spec headDeltas bodyDeltas st assume "" Hs) as [_ ?]. }
  cbn [fst snd app] in *. fold ch in Hrun, H1, H2. exists (title_of t ch), l. split.
  { rewrite Hrun. destruct headDeltas, bodyDeltas; try done. by destruct Hne. }
  split; [by apply title_of_nonempty|done].
Qed.
Lemma DiffDescriptions_described headDeltas bodyDeltas st assume :
  Forall sound headDeltas → sized st → headDeltas ≠ [] ∨ bodyDeltas ≠ [] →
  ∃ title message, DiffDescriptions headDeltas bodyDeltas st assume = Ok (title, message) ∧ (title ≠ "" → message ≠ "").
Proof.
  intros Hs Hst Hne. destruct (DiffDescriptions_run headDeltas bodyDeltas st assume Hs Hst Hne) as (t & m & -> & Ht & Hm).
  exists t, m. split; [done|]. by rewrite Ht, Hm.
Qed.

(** Descriptions tell of what changed. When there is a difference at all, the
    title and the message are made, and they are empty exactly when none of the
    components that are told about was added, removed, replaced or changed in
    a part, at any depth. *)
Theorem DiffDescriptions_told headDeltas bodyDeltas st assume :
  Forall sound headDeltas → sized st → headDeltas ≠ [] ∨ bodyDeltas ≠ [] →
  ∃ title message, DiffDescriptions headDeltas bodyDeltas st assume = Ok (title, message) ∧
    (title ≠ "" ↔ ∃ c, c ∈ componentsToCheck ∧ component_changed headDeltas bodyDeltas st assume c = true) ∧
    (message ≠ "" ↔ title ≠ "").
Proof.
  intros Hs Hst Hne. destruct (DiffDescriptions_run headDeltas bodyDeltas st assume Hs Hst Hne) as (t & m & Hrun & Ht & Hm).
  exists t, m. split; [done|]. rewrite Hm, Ht. split; [|done].
  set (changes := buildComponentChanges (preprocess headDeltas) (preprocess bodyDeltas) st assume) in *.
  assert (∀ c, is_told changes c = true ↔ component_changed headDeltas bodyDeltas st assume c = true) as Htold.
  { intros c. destruct (buildComponentChanges_spec headDeltas bodyDeltas st assume c Hs) as [<- _]. fold changes.
    unfold is_told. destruct (changes !! c); cbn; [by split|]. by split; [|intros []]. }
  split.
  - destruct (List.filter (is_told changes) componentsToCheck) as [|c ch] eqn:Hc; [done|]. intros _. exists c.
    rewrite <- Htold, list_elem_of_In. apply filter_In. rewrite Hc. by left.
  - intros (c & Hin%list_elem_of_In & Hc%Htold) Hnil.
    assert (In c (List.filter (is_told changes) componentsToCheck)) as Habs by (by apply filter_In). by rewrite Hnil in Habs.
Qed.

Section spec.
Context {C : Type} `{E : !CommitEnv C, W : !MapWalk}.




(** ** Every commit is described *)
Definition diff_sound : Prop := ∀ a b ds st, StatDiff a b = Ok (ds, st) → Forall sound ds ∧ sized st.

Lemma diff_bodies_sized p n r : diff_sound → diff_bodies p n = Ok r → sized r.2.
Proof.
  intros Hsound Hr. destruct r as [ds st]. unfold diff_bodies in Hr.
  assert (StatDiff p n = Ok (ds, st) ∨ st = None) as [Hd| ->]; [|by destruct (Hsound _ _ _ _ Hd)|by intros s].
  destruct p; try (by right; injection Hr as <- <-); destruct n; try (by right; injection Hr as <- <-); by left.
Qed.

Lemma describe_data_nonempty bodyAct force prevData nextData t m : diff_sound →
  describe_data bodyAct force prevData nextData = Ok (t, m) → t ≠ "" ∧ m ≠ "".
Proof.
  intros Hsound. unfold describe_data. destruct (StatDiff _ _) as [[head hst]|e|] eqn:Hhead; cbn [mbind outcome_bind]; [|done..].
  destruct (diff_bodies _ _) as [[bs st]|e|] eqn:Hbodies; cbn [mbind outcome_bind fst snd]; [|done..].
  apply diff_bodies_sized in Hbodies; [|done]. cbn [snd] in Hbodies.
  destruct (Hsound _ _ _ _ Hhead) as [Hs _].
  destruct (DiffDescriptions head bs st _) as [[t' m']|e|] eqn:Hd; cbn [mbind outcome_bind fst]; [|done..].
  destruct (decide (t' = "")) as [Ht|Ht]; [destruct force; intros Hr; by simplify_eq|]. intros [= <- <-]. split; [done|].
  assert (head ≠ [] ∨ bs ≠ []) as Hne by (destruct head, bs; try (by (left + right)); by injection Hd as <- _).
  edestruct (DiffDescriptions_described head bs st) as (t1 & m1 & Hd' & Hm); [done..|].
  rewrite Hd in Hd'. injection Hd' as <- <-. by apply Hm.
Qed.

Lemma generate_nonempty bodyAct force s t m s' : diff_sound →
  generateCommitDescriptions bodyAct force s = (Ok (t, m), s') → t ≠ "" ∧ m ≠ "".
Proof.
  intros Hsound. destruct s as [ds [prev|]]; cbn [generateCommitDescriptions]; [|by intros [= <- <- _]].
  destruct (ds_IsEmpty prev); [by intros [= <- <- _]|].
  cbv zeta. destruct (StructToMap (inline_scripts (inline_body bodyAct prev))) as [prevData|e|]; cbn [mbind outcome_bind]; try done.
  destruct (StructToMap (inline_scripts ds)) as [nextData|e|]; cbn [mbind outcome_bind]; try done.
  intros [= Hd _]. by eapply describe_data_nonempty.
Qed.

Lemma with_default_nonempty s d : d ≠ "" → with_default s d ≠ "".
Proof. unfold with_default. by case_decide. Qed.
Lemma from_hint_nonempty hint t : t ≠ "" → from_hint hint t ≠ "".
Proof. unfold from_hint. intros Ht. case_decide; [|done]. by apply append_nonempty. Qed.

Lemma replace_commit (ds : CDataset C) added body : cd_Commit (replaceComponentsWithRefs ds added body) = cd_Commit ds.
Proof.
  unfold replaceComponentsWithRefs. revert ds. induction (walk added) as [|[f a] l IH]; intros ds; cbn [foldl]; [done|].
  rewrite IH. unfold component_ref. repeat (case_decide; [done|]). done.
Qed.

Lemma updateScriptPaths_commit (ds ds' : CDataset C) added : updateScriptPaths ds added = Ok ds' → cd_Commit ds' = cd_Commit ds.
Proof.
  unfold updateScriptPaths. revert ds. induction (walk added) as [|kv l IH]; intros ds; cbn [script_paths]; [by intros [= <-]|].
  destruct (script_path ds kv) as [ds1|e|] eqn:Hs; cbn; [|done..]. intros Hrun. rewrite (IH _ Hrun).
  destruct kv as [f a]. unfold script_path in Hs. repeat (case_decide; [repeat case_match; by simplify_eq|]). by injection Hs as <-.
Qed.

(** C23: every commit is described. When the hook of the commit file succeeds, the
    commit has a title and a message: those it came with, those of a forced
    save, or those made from the differences, whose time and run are kept. *)
Theorem commit_described added body bodyAct hint force (ds : CDataset C) prev s' c : diff_sound →
  cd_Commit ds = Some c → commit_hook added body bodyAct hint force (ds, prev) = (Ok tt, s') →
  ∃ c', cd_Commit s'.1 = Some c' ∧ cm_Title c' ≠ "" ∧ cm_Message c' ≠ "" ∧
    (cm_Title c ≠ "" → cm_Title c' = cm_Title c) ∧ (cm_Message c ≠ "" → cm_Message c' = cm_Message c) ∧
    cm_Timestamp c' = cm_Timestamp c ∧ cm_RunID c' = cm_RunID c.
Proof.
  intros Hsound Hc. unfold commit_hook, st_get. rewrite stM_bind_Ok. intros (s & s0 & [= <- <-] & Hrun).
  apply stM_bind_Ok in Hrun as (ds1 & s1 & [= Hpaths <-] & Hrun). apply updateScriptPaths_commit in Hpaths. cbn [fst] in Hpaths.
  apply stM_bind_Ok in Hrun as ([] & s2 & [= <-] & Hrun).
  apply stM_bind_Ok in Hrun as (ds2 & s3 & [= Hconfirm <-] & Hrun).
  apply stM_bind_Ok in Hrun as ([] & s4 & [= <-] & Hrun).
  apply stM_bind_Ok in Hrun as ([] & s5 & Hensure & [= <-]). cbn [fst snd] in *. rewrite replace_commit.
  assert (∃ c2, cd_Commit ds2 = Some c2 ∧ (cm_Title c ≠ "" → cm_Title c2 = cm_Title c) ∧ (cm_Message c ≠ "" → cm_Message c2 = cm_Message c) ∧
    cm_Timestamp c2 = cm_Timestamp c ∧ cm_RunID c2 = cm_RunID c) as (c2 & Hc2 & Ht2 & Hm2 & Htime & Hrun2).
  { unfold confirmByteChangesExist in Hconfirm. destruct force.
    - rewrite Hpaths, Hc in Hconfirm. injection Hconfirm as <-. eexists. split; [done|]. cbn. unfold with_default.
      split_and!; [by case_decide..|done|done].
    - assert (ds2 = ds1) as -> by (repeat case_match; by simplify_eq/=). exists c. by rewrite Hpaths. }
  unfold ensureCommitTitleAndMessage in Hensure. cbn [fst] in Hensure. rewrite Hc2 in Hensure.
  case_decide as Hset.
  { injection Hensure as <-. cbn [fst]. exists c2. destruct Hset. split_and!; auto. }
  destruct (generateCommitDescriptions bodyAct force (ds2, prev)) as [[[t m]|e|] [ds3 prev3]] eqn:Hgen; [|done..].
  injection Hensure as <-. destruct (generate_nonempty _ _ _ _ _ _ Hsound Hgen) as [Ht Hm]. cbn [fst set_Commit cd_Commit].
  eexists. split; [done|]. cbn [describe_commit cm_Title cm_Message cm_Timestamp cm_RunID].
  split_and!; [by apply with_default_nonempty, from_hint_nonempty..| | |done|done];
    intros Hne; unfold with_default; [rewrite Ht2 by done|rewrite Hm2 by done]; by rewrite decide_False.
Qed.

(** A body that is too large to be compared and has changed passes for no
    change, when nothing else has. *)
Theorem large_body_unnoticed prevData nextData :
  checksum prevData ≠ checksum nextData →
  StatDiff (data_of (comparable_data prevData)) (data_of (comparable_data nextData)) = Ok ([], None) →
  describe_data BodyTooBig false prevData nextData = Error ErrNoChanges.
Proof. intros Hsum Hdiff. unfold describe_data. by rewrite Hdiff. Qed.
End spec.

(** ** A save with a new meta component over a previous version *)
Module CommitDemo.
Definition added_meta (after : data) : list Delta := [mkDelta DTInsert "meta" after []].
#[local] Instance env : CommitEnv string := {|
  no_contents := "";
  ds_IsEmpty _ := false;
  Viz_ShallowCompare _ _ := true;
  Readme_ShallowCompare _ _ := true;
  Transform_ShallowCompare _ _ := true;
  PathMap ds _ := match cd_Meta ds with Some m => {[ "meta" := cc_Path m ]} | None => ∅ end;
  StructToMap ds := Ok (match cd_Meta ds with Some m => {[ "meta" := VMap [("title", VString (cc_Rest m))] ]} | None => ∅ end);
  StatDiff _ after := Ok (added_meta after, Some (mkDiffStats 1 2));
  read_script _ := None;
  read_entries _ _ := None;
|}.
#[local] Instance walk_in_order : MapWalk := {| walk _ m := map_to_list m; walk_perm _ m := Permutation_refl _ |}.
Definition untitled : Commit := mkCommit 7 "" "" "run".
Definition next : CDataset string :=
  mkCDataset (Some untitled) None (Some (mkCComponent "" "Ducks")) None None None None "" None VNil "".
Definition added : gmap string string := {[ Filename PackageFileMeta := "/mem/1" ]}.
Lemma diff_sound_demo : diff_sound (C := string).
Proof.
  intros a b ds st [= <- <-]. split; [by repeat constructor|]. intros s [= <-]. right. cbn. lia.
Qed.

Lemma commit_described_witness :
  ∃ s', commit_hook added "body.csv" BodySame "" false (next, Some empty_dataset) = (Ok tt, s') ∧
    cm_Title <$> cd_Commit s'.1 = Some "meta added" ∧
    ∃ c', cd_Commit s'.1 = Some c' ∧ cm_Title c' ≠ "" ∧ cm_Message c' ≠ "" ∧
      (cm_Title untitled ≠ "" → cm_Title c' = cm_Title untitled) ∧
      (cm_Message untitled ≠ "" → cm_Message c' = cm_Message untitled) ∧
      cm_Timestamp c' = cm_Timestamp untitled ∧ cm_RunID c' = cm_RunID untitled.
Proof.
  eexists. split; [vm_compute; reflexivity|]. split; [reflexivity|].
  apply (commit_described added "body.csv" BodySame "" false next (Some empty_dataset)); [apply diff_sound_demo|reflexivity|].
  vm_compute. reflexivity.
Defined.

Lemma DiffDescriptions_told_witness :
  ∃ title message, DiffDescriptions (added_meta VNil) [] None false = Ok (title, message) ∧
    (title ≠ "" ↔ ∃ c, c ∈ componentsToCheck ∧ component_changed (added_meta VNil) [] None false c = true) ∧
    (message ≠ "" ↔ title ≠ "").
Proof.
  apply DiffDescriptions_told; [by repeat constructor|done|by left].
Defined.
End CommitDemo.
