(* ===== verification/DatasetFilesSpec.v ===== *)
(** * Theorems of datasets as files

    References are read and nothing else changes; the planned files can be
    written in the order in which they are listed. *)
From S2P Require Export DatasetFiles.

Section deref.
Context {K : Type} `{E : !DatasetStore K}.

(** A component that is a reference *)
Definition is_ref (c : option (Component K)) (path : string) : Prop := c = Some (mkComponentRef path None) ∧ path ≠ "".

(** What dereferencing some kinds leaves *)
Definition hydrates (ks : list kind) (ds ds' : StoredDataset K) : Prop :=
  sd_Path ds' = sd_Path ds ∧
  ∀ k, (∀ path, k ∈ ks → is_ref (sd_component ds k) path →
          ∃ contents, load_component k path = Ok contents ∧ sd_component ds' k = Some (mkComponentRef path contents)) ∧
       ((∀ path, k ∈ ks → ¬ is_ref (sd_component ds k) path) → sd_component ds' k = sd_component ds k).

Lemma deref_cases k ds :
  match deref k ds with
  | (Ok _, ds') => hydrates [k] ds ds'
  | (Error e, ds') => ds' = ds ∧ ∃ path e', is_ref (sd_component ds k) path ∧ load_component k path = Error e' ∧ e = deref_error k e'
  | (Panic, ds') => ∃ path, is_ref (sd_component ds k) path ∧ load_component k path = Panic
  end.
Proof.
  unfold deref. destruct (sd_component ds k) as [[path [c|]]|] eqn:Hk.
  - split; [done|]. intros k'. split; [|done]. intros p ->%list_elem_of_singleton [Hc _]. by rewrite Hk in Hc.
  - case_decide as Hp.
    + split; [done|]. intros k'. split; [|done]. intros p ->%list_elem_of_singleton [Hc Hne]. rewrite Hk in Hc. by injection Hc as <-.
    + destruct (load_component k path) as [contents|e|] eqn:Hl; cbn [map_error].
      * split; [done|]. intros k'. cbn [set_component sd_component]. split.
        -- intros p ->%list_elem_of_singleton [Hc _]. rewrite Hk in Hc. injection Hc as <-. exists contents. by rewrite decide_True.
        -- intros Hn. case_decide as Heq; [|done]. subst. exfalso. apply (Hn path); [by left|by split].
      * split; [done|]. exists path, e. split_and!; done.
      * exists path. by split_and!.
  - split; [done|]. intros k'. split; [|done]. intros p ->%list_elem_of_singleton [Hc _]. by rewrite Hk in Hc.
Qed.

Lemma hydrates_app ks ks' ds1 ds2 ds3 : (∀ k, k ∈ ks → k ∉ ks') → hydrates ks ds1 ds2 → hydrates ks' ds2 ds3 → hydrates (ks ++ ks') ds1 ds3.
Proof.
  intros Hdisj [Hp12 H12] [Hp23 H23]. split; [congruence|]. intros k. destruct (H12 k) as [Hr1 Hn1], (H23 k) as [Hr2 Hn2].
  split.
  - intros path [Hk|Hk]%elem_of_app Hc.
    + destruct (Hr1 path Hk Hc) as (contents & Hl & Hd2). exists contents. split; [done|]. rewrite Hn2; [done|].
      intros p Hk' _. by apply (Hdisj k).
    + apply Hr2; [done|]. rewrite Hn1; [done|]. intros p Hk' _. by apply (Hdisj k).
  - intros Hno. assert (sd_component ds2 k = sd_component ds1 k) as Heq.
    { apply Hn1. intros p Hk. apply Hno, elem_of_app. by left. }
    rewrite <- Heq. apply Hn2. intros p Hk. rewrite Heq. apply Hno, elem_of_app. by right.
Qed.

(** Dereferencing the kinds of a list, one after the other *)
Definition deref_all (ks : list kind) : stM (StoredDataset K) unit := foldr (λ k m, deref k;; m) (mret tt) ks.
Definition failed_at (ds : StoredDataset K) (ks : list kind) (e : error) : Prop :=
  ∃ k path e', k ∈ ks ∧ is_ref (sd_component ds k) path ∧ load_component k path = Error e' ∧ e = deref_error k e'.

Lemma deref_all_cases ks ds : NoDup ks →
  match deref_all ks ds with
  | (Ok _, ds') => hydrates ks ds ds'
  | (Error e, _) => failed_at ds ks e
  | (Panic, _) => ∃ k path, k ∈ ks ∧ is_ref (sd_component ds k) path ∧ load_component k path = Panic
  end.
Proof.
  intros Hnd. revert ds. induction Hnd as [|k ks Hk Hnd IH]; intros ds; cbn [deref_all foldr].
  { split; [done|]. intros k. split; [|done]. intros p Hin. by apply not_elem_of_nil in Hin. }
  pose proof (deref_cases k ds) as Hd. fold (deref_all ks). unfold mbind, stM_bind. destruct (deref k ds) as [[[]|e|] ds1].
  - specialize (IH ds1).
    assert (∀ k', k' ∈ ks → sd_component ds1 k' = sd_component ds k') as Hsame.
    { intros k' Hk'. destruct Hd as [_ Hd]. apply Hd. intros p ->%list_elem_of_singleton. done. }
    destruct (deref_all ks ds1) as [[[]|e|] ds2].
    + apply (hydrates_app [k] ks ds ds1 ds2); [|done..]. by intros k' ->%list_elem_of_singleton.
    + destruct IH as (k' & path & e' & Hk' & Hr & ? & ?). exists k', path, e'. rewrite (Hsame k' Hk') in Hr.
      split_and!; [by right|by apply Hr..|done|done].
    + destruct IH as (k' & path & Hk' & Hr & ?). exists k', path. rewrite (Hsame k' Hk') in Hr.
      split_and!; [by right|by apply Hr..|done].
  - destruct Hd as [_ (path & e' & ? & ? & ?)]. exists k, path, e'. split_and!; [by left|done..].
  - destruct Hd as (path & ? & ?). exists k, path. by split_and!; [left|..].
Qed.

Definition all_kinds : list kind := [KMeta; KStructure; KTransform; KViz; KReadme; KStats; KCommit].
Lemma all_kinds_all k : k ∈ all_kinds.
Proof. apply (bool_decide_unpack _). by destruct k. Qed.
Lemma then_ext {S A} (m : stM S unit) (f g : stM S A) s : (∀ s, f s = g s) → (m;; f) s = (m;; g) s.
Proof. intros Hfg. unfold mbind, stM_bind. by destruct (m s) as [[[]|e|] s']. Qed.
Lemma DerefDataset_all ds : DerefDataset ds = deref_all all_kinds ds.
Proof.
  unfold DerefDataset, deref_all, all_kinds. cbn [foldr]. do 6 (apply then_ext; clear ds; intros ds).
  unfold DerefCommit, mbind, stM_bind. by destruct (deref KCommit ds) as [[[]|e|] ds'].
Qed.

(** Loading a dataset reads its references and changes nothing else. A loaded
    dataset has the path it was loaded from; every component of its file that
    is a reference holds what the file it leads to holds, under the same path,
    and every other one is as it was in the file. Loading fails only when the
    dataset's own file or one that is referred to cannot be read, and says
    which component that was. *)
Theorem LoadDataset_reads mux path :
  match LoadDataset mux path with
  | Ok ds => ∃ refs, LoadDatasetRefs mux path = Ok refs ∧ sd_Path ds = path ∧ hydrates all_kinds refs ds
  | Error e =>
      (∃ e', LoadDatasetRefs mux path = Error e' ∧ e = ErrWrap "loading dataset: %w" [] e') ∨
      (∃ refs, LoadDatasetRefs mux path = Ok refs ∧ failed_at refs all_kinds e)
  | Panic =>
      LoadDatasetRefs mux path = Panic ∨ ∃ refs k path', LoadDatasetRefs mux path = Ok refs ∧
        is_ref (sd_component refs k) path' ∧ load_component k path' = Panic
  end.
Proof.
  unfold LoadDataset. destruct (LoadDatasetRefs mux path) as [refs|e|] eqn:Hrefs; cbn [map_error mbind outcome_bind];
    [|left; by eexists|by left].
  rewrite DerefDataset_all. assert (NoDup all_kinds) as Hnd by (apply (bool_decide_unpack _); vm_compute; exact I).
  pose proof (deref_all_cases all_kinds refs Hnd) as Hc. destruct (deref_all all_kinds refs) as [[[]|e|] ds].
  - exists refs. split; [done|]. split; [|done]. destruct Hc as [-> _].
    revert Hrefs. unfold LoadDatasetRefs. destruct (map_error _ (fs_read _)); cbn; [|done..].
    destruct (map_error _ (UnmarshalDataset _)); cbn; [|done..]. by intros [= <-].
  - right. by exists refs.
  - right. destruct Hc as (k & p & _ & ? & ?). by exists refs, k, p.
Qed.
End deref.

(** ** The order of files *)

(** Every file waits for some of the files before it, or for names already written. *)
Fixpoint ordered (seen : list string) (files : list PlannedFile) : Prop :=
  match files with
  | [] => True
  | f :: files => pf_requires f ⊆ seen ∧ ordered (seen ++ [pf_name f]) files
  end.
Lemma ordered_lookup seen files i f : ordered seen files → files !! i = Some f → pf_requires f ⊆ seen ++ filePaths (take i files).
Proof.
  revert seen i. induction files as [|g files IH]; intros seen i; [done|]. intros [Hg Hfs]. destruct i as [|i]; cbn.
  - intros [= ->]. by rewrite app_nil_r.
  - intros Hi. specialize (IH _ _ Hfs Hi). by rewrite <- app_assoc in IH.
Qed.

(** A file that may be there has a name, and waits for some names. *)
Definition slot (o : option PlannedFile) (name : string) (deps : list string) : Prop :=
  ∀ f, o = Some f → pf_name f = name ∧ pf_requires f ⊆ deps.
Lemma slot_None name deps : slot None name deps.
Proof. done. Qed.
Lemma slot_Some name requires deps : requires ⊆ deps → slot (Some (mkFile name requires)) name deps.
Proof. by intros Hr f [= <-]. Qed.
Lemma slot_no_deps name deps : slot (Some (mkFile name [])) name deps.
Proof. apply slot_Some. by intros ? ?%not_elem_of_nil. Qed.
Lemma slot_mono o name deps deps' : slot o name deps → deps ⊆ deps' → slot o name deps'.
Proof. intros Hs Hd f Hf. destruct (Hs f Hf). split; [done|]. set_solver. Qed.

(** Slots that wait for the ones before them *)
Inductive slots : list string → list (option PlannedFile) → list string → Prop :=
| slots_nil seen : slots seen [] []
| slots_cons seen o os name names :
    slot o name seen → slots (seen ++ filePaths (option_list o)) os names → slots seen (o :: os) (name :: names).

Lemma slots_ordered seen os names : slots seen os names → ordered seen (concat (map option_list os)).
Proof.
  induction 1 as [|seen o os name names Ho _ IH]; [done|]. cbn [map concat]. destruct o as [f|]; cbn in *.
  - split; [by apply Ho|done].
  - by rewrite app_nil_r in IH.
Qed.
Lemma slots_names seen os names : slots seen os names → filePaths (concat (map option_list os)) `sublist_of` names.
Proof.
  induction 1 as [|seen o os name names Ho _ IH]; [done|]. cbn [map concat]. destruct o as [f|]; cbn in *.
  - destruct (Ho f) as [-> _]; [done|]. by constructor.
  - by constructor.
Qed.

(** What each step adds *)
Definition names_of (o : option PlannedFile) : list string := filePaths (option_list o).
Lemma addMetaFile_adds p b r v ts t s st vr c d w : addMetaFile p (mkWriteFiles None b r v ts t s st vr c d) = Ok w →
  ∃ m, slot m (Filename PackageFileMeta) [] ∧ w = mkWriteFiles m b r v ts t s st vr c d.
Proof.
  unfold addMetaFile. destruct (wp_meta p) as [json|]; [|intros [= <-]; eexists; split; [apply slot_None|done]].
  intros (_ & _ & [= <-])%outcome_bind_Ok. eexists. split; [by apply slot_Some|done].
Qed.
Lemma addTransformFile_adds p m b r v s st vr c d w : addTransformFile p (mkWriteFiles m b r v None None s st vr c d) = Ok w →
  ∃ ts t, slot ts transformScriptFilename [] ∧ slot t (Filename PackageFileTransform) (names_of ts) ∧
    w = mkWriteFiles m b r v ts t s st vr c d.
Proof.
  unfold addTransformFile. destruct (wp_transform p) as [json|]; [|intros [= <-]; eexists _, _; split_and!; [apply slot_None..|done]].
  intros (_ & _ & Hrun)%outcome_bind_Ok. destruct (wp_transformScript p).
  - injection Hrun as <-. eexists _, _. by split_and!; [apply slot_Some..|].
  - apply outcome_bind_Ok in Hrun as (_ & _ & [= <-]). eexists _, _. split_and!; [apply slot_None|by apply slot_Some|done].
Qed.
Lemma structureFileAddFunc_adds p m b r v ts t st vr c d w :
  structureFileAddFunc p (mkWriteFiles m b r v ts t None st vr c d) = Ok w →
  ∃ s, slot s (Filename PackageFileStructure) (names_of b) ∧ w = mkWriteFiles m b r v ts t s st vr c d.
Proof.
  unfold structureFileAddFunc. destruct (wp_structure p) as [json|]; [|intros [= <-]; eexists; split; [apply slot_None|done]].
  destruct b as [f|]; cbn [wf_body].
  - intros [= <-]. eexists. split; [by apply slot_Some|done].
  - intros (_ & _ & [= <-])%outcome_bind_Ok. eexists. split; [by apply slot_Some|done].
Qed.
Lemma addStatsFile_adds p m b r v ts t s vr c d w : addStatsFile p (mkWriteFiles m b r v ts t s None vr c d) = Ok w →
  ∃ st, slot st (Filename PackageFileStats) (names_of s) ∧ w = mkWriteFiles m b r v ts t s st vr c d.
Proof.
  unfold addStatsFile. cbn [wf_structure wf_body]. destruct s as [f|]; [|intros [= <-]; eexists; split; [apply slot_None|done]].
  destruct (is_there b && wp_body_computes p); intros [= <-]; eexists; (split; [|done]); [by apply slot_Some|apply slot_None].
Qed.
Lemma addReadmeFile_adds p m b v ts t s st vr c d w : addReadmeFile p (mkWriteFiles m b None v ts t s st vr c d) = Ok w →
  ∃ r, slot r (Filename PackageFileReadmeScript) [] ∧ w = mkWriteFiles m b r v ts t s st vr c d.
Proof.
  unfold addReadmeFile. destruct (wp_readmeScript p); intros [= <-]; eexists; (split; [|done]); [by apply slot_Some|apply slot_None].
Qed.
Lemma vizFilesAddFunc_adds p m b r ts t s st c d w :
  c = None → d = None → vizFilesAddFunc p (mkWriteFiles m b r None ts t s st None c d) = Ok w →
  ∃ v vr, slot v (Filename PackageFileVizScript) [] ∧
    slot vr (Filename PackageFileRenderedViz) (filePaths (concat (map option_list [m; b; r; v; ts; t; s; st]))) ∧
    w = mkWriteFiles m b r v ts t s st vr c d.
Proof.
  intros -> ->. unfold vizFilesAddFunc.
  destruct (wp_viz p); [|intros [= <-]; eexists _, _; split_and!; [apply slot_None..|done]].
  destruct (wp_vizScript p), (wp_vizRendered p); cbn [andb]; [| |..];
    try (destruct (wp_ShouldRender p)); intros [= <-]; eexists _, _;
    (split_and!; [| |done]); first [apply slot_None|apply slot_no_deps|apply slot_Some].
  unfold wf_files. cbn [wf_meta wf_body wf_readmeScript wf_vizScript wf_transformScript wf_transform wf_structure wf_stats
    wf_vizRendered wf_commit wf_dataset map concat option_list app]. rewrite !app_nil_r. intros n [->|Hn]%elem_of_cons.
  - unfold filePaths. rewrite !map_app. rewrite !elem_of_app. right. right. right. left. by left.
  - done.
Qed.
Lemma commitFileAddFunc_adds p m b r v ts t s st vr d w :
  d = None → commitFileAddFunc p (mkWriteFiles m b r v ts t s st vr None d) = Ok w →
  ∃ c, slot c (Filename PackageFileCommit) (filePaths (concat (map option_list [m; b; r; v; ts; t; s; st; vr]))) ∧
    w = mkWriteFiles m b r v ts t s st vr c d.
Proof.
  intros ->. unfold commitFileAddFunc. destruct (wp_commit p); intros [= <-]; eexists; (split; [|done]); [|apply slot_None].
  apply slot_Some. done.
Qed.

Lemma addDatasetFile_adds m b r v ts t s st vr c w : addDatasetFile (mkWriteFiles m b r v ts t s st vr c None) = Ok w →
  let others := concat (map option_list [m; b; r; v; ts; t; s; st; vr; c]) in
  others ≠ [] ∧ w = mkWriteFiles m b r v ts t s st vr c (Some (mkFile (Filename PackageFileDataset) (filePaths others))).
Proof.
  intros Hrun others. unfold addDatasetFile, wf_files in Hrun. cbn [wf_meta wf_body wf_readmeScript wf_vizScript
    wf_transformScript wf_transform wf_structure wf_stats wf_vizRendered wf_commit wf_dataset] in Hrun.
  assert (concat (map option_list [m; b; r; v; ts; t; s; st; vr; c; None]) = others) as Heq.
  { unfold others. cbn [map concat option_list app]. by rewrite !app_nil_r. }
  rewrite Heq in Hrun. destruct (filePaths others) as [|n ns] eqn:Hns; [done|]. injection Hrun as <-.
  split; [|done]. by intros Hnil; rewrite Hnil in Hns.
Qed.

(** The names of a package's files, in the order in which they are listed *)
Definition package_names (body : string) : list string :=
  [Filename PackageFileMeta; body; Filename PackageFileReadmeScript; Filename PackageFileVizScript; transformScriptFilename;
   Filename PackageFileTransform; Filename PackageFileStructure; Filename PackageFileStats; Filename PackageFileRenderedViz;
   Filename PackageFileCommit].

Lemma plan_files_slots p files : plan_files p = Ok files →
  ∃ os, files = concat (map option_list os) ++ [mkFile (Filename PackageFileDataset) (filePaths (concat (map option_list os)))] ∧
    concat (map option_list os) ≠ [] ∧ slots [] os (package_names (default "" (wp_body p))).
Proof.
  unfold plan_files. intros Hrun.
  apply outcome_bind_Ok in Hrun as (w1 & (m & Hm & ->)%addMetaFile_adds & Hrun).
  apply outcome_bind_Ok in Hrun as (w2 & (ts & t & Hts & Ht & ->)%addTransformFile_adds & Hrun).
  apply outcome_bind_Ok in Hrun as (w3 & (s & Hs & ->)%structureFileAddFunc_adds & Hrun).
  apply outcome_bind_Ok in Hrun as (w4 & (st & Hst & ->)%addStatsFile_adds & Hrun).
  apply outcome_bind_Ok in Hrun as (w5 & (r & Hr & ->)%addReadmeFile_adds & Hrun).
  apply outcome_bind_Ok in Hrun as (w6 & (v & vr & Hv & Hvr & ->)%vizFilesAddFunc_adds & Hrun); [|done..].
  apply outcome_bind_Ok in Hrun as (w7 & (c & Hc & ->)%commitFileAddFunc_adds & Hrun); [|done].
  apply outcome_bind_Ok in Hrun as (w8 & Hds & [= <-]). apply addDatasetFile_adds in Hds as [Hne ->].
  exists [m; no_deps <$> wp_body p; r; v; ts; t; s; st; vr; c]. split_and!; [|done|].
  { unfold wf_files. cbn [wf_meta wf_body wf_readmeScript wf_vizScript wf_transformScript wf_transform wf_structure wf_stats
      wf_vizRendered wf_commit wf_dataset map concat option_list]. by rewrite !app_nil_r, <- !app_assoc. }
  assert (slot (no_deps <$> wp_body p) (default "" (wp_body p)) []) as Hb.
  { destruct (wp_body p); [apply slot_no_deps|apply slot_None]. }
  repeat (apply slots_cons; [eapply slot_mono; [done|]|]); [..|apply slots_nil];
    unfold names_of, filePaths; cbn [map concat]; rewrite ?map_app; set_solver.
Qed.

Lemma package_names_perm body :
  package_names body ++ [Filename PackageFileDataset] ≡ₚ body :: Filename PackageFileDataset :: delete 1 (package_names body).
Proof. unfold package_names. cbn [delete list_delete app]. solve_Permutation. Qed.
Lemma package_names_NoDup body : body ∉ Filename PackageFileDataset :: delete 1 (package_names body) →
  NoDup (package_names body ++ [Filename PackageFileDataset]).
Proof.
  intros Hbody. rewrite (package_names_perm body), NoDup_cons. split; [done|].
  apply (bool_decide_unpack _). vm_compute. exact I.
Qed.
Lemma ordered_snoc seen files f : ordered seen files → pf_requires f ⊆ seen ++ filePaths files → ordered seen (files ++ [f]).
Proof.
  revert seen. induction files as [|g files IH]; intros seen; cbn; [by rewrite app_nil_r|].
  intros [? ?] Hsub. split; [done|]. apply IH; [done|]. by rewrite <- app_assoc.
Qed.

(** C35: the files of a package can be written in the order in which they are
    listed. Every file waits only for files before it; the last one is the
    dataset's, which waits for all the others, and there are others; and unless
    the body has the name of a package file, no name is listed twice. *)
Theorem plan_files_ordered p files : plan_files p = Ok files →
  (∀ i f, files !! i = Some f → pf_requires f ⊆ filePaths (take i files)) ∧
  (∃ others, others ≠ [] ∧ files = others ++ [mkFile (Filename PackageFileDataset) (filePaths others)]) ∧
  ((∀ name, wp_body p = Some name → name ∉ Filename PackageFileDataset :: delete 1 (package_names name)) →
   NoDup (filePaths files)).
Proof.
  intros (os & -> & Hne & Hslots)%plan_files_slots. split_and!; [| |intros Hbody].
  - intros i f. apply (ordered_lookup []), ordered_snoc; [by eapply slots_ordered|done].
  - by eexists.
  - apply slots_names in Hslots. unfold filePaths in *. rewrite map_app.
    eapply sublist_NoDup; [|apply sublist_app; [exact Hslots|done]]. apply package_names_NoDup.
    destruct (wp_body p) as [name|]; [by apply Hbody|]. apply (bool_decide_unpack _). vm_compute. exact I.
Qed.

Module PlanDemo.
(** A body that computes fields, a structure, a rendered visualization and a commit *)
Definition plan : WritePlan :=
  mkWritePlan None (Some (Ok tt)) (Some "body.csv") true None [] false false true false true true true.
Lemma plan_files_ordered_witness : ∃ files, plan_files plan = Ok files ∧ length files = 7 ∧
  (∀ i f, files !! i = Some f → pf_requires f ⊆ filePaths (take i files)) ∧
  (∃ others, others ≠ [] ∧ files = others ++ [mkFile (Filename PackageFileDataset) (filePaths others)]) ∧
  NoDup (filePaths files).
Proof.
  eexists. split; [vm_compute; reflexivity|]. split; [reflexivity|].
  edestruct (plan_files_ordered plan) as (Hbefore & Hlast & Hnames); [vm_compute; reflexivity|].
  split; [exact Hbefore|]. split; [exact Hlast|]. apply Hnames.
  intros name [= <-]. apply (bool_decide_unpack _). vm_compute. exact I.
Defined.
End PlanDemo.
