(* ===== verification/WorkingDirSpec.v ===== *)
(** * Theorems of working directories

    What a directory's files are listed as; that a dataset which is written to
    a directory is read back unmodified. *)
From S2P Require Import FillSpec.
From S2P Require Export WorkingDir.

Section listing.
Context {V : Type} `{L : !ComponentLib V, O : !OS}.
Implicit Types (d : Disk) (c : @Collection V).

(** ** Listing *)
Lemma lookup_put k name x c : GetSubcomponent k (put_component name x c) = if decide (k = name) then Some x else GetSubcomponent k c.
Proof.
  unfold GetSubcomponent, put_component. cbn. case_decide as Hk; [subst; by rewrite lookup_insert_eq|by rewrite lookup_insert_ne].
Qed.
Lemma lookup_set k name b c : GetSubcomponent name c = None →
  GetSubcomponent k (SetSubcomponent name b c) = if decide (k = name) then new_component name b else GetSubcomponent k c.
Proof.
  intros Hn. unfold SetSubcomponent. destruct (new_component name b) as [x|] eqn:Hx; [by rewrite lookup_put|].
  case_decide as Hk; [by subst|done].
Qed.

(** What a file is listed with, when it is the only one for its component *)
Definition listed_base (dir : string) (d : Disk) (name ext : string) : BaseComponent :=
  let path := filepath_Join [dir; name] in
  mkBase "" "" (from_option (node_time (filepath_Abs path)) 0%Z (d !! path)) (filepath_Abs path) false (normalizeExtensionFormat ext).
Definition component_of (name : string) : option string := fst <$> known_file name.

Lemma list_fold dir d names c k : NoDup (omap component_of names) →
  (∀ name k, name ∈ names → component_of name = Some k → GetSubcomponent k c = None) →
  let r := GetSubcomponent k (foldl (list_step dir d) c names) in
  (∀ name ext, name ∈ names → known_file name = Some (k, ext) → r = new_component k (listed_base dir d name ext)) ∧
  ((∀ name, name ∈ names → component_of name ≠ Some k) → r = GetSubcomponent k c).
Proof.
  revert c. induction names as [|n names IH]; intros c Hnd Hfree; cbn [foldl].
  { split; [|done]. by intros ? ? ?%not_elem_of_nil. }
  destruct (known_file n) as [[kn en]|] eqn:Hn.
  - assert (component_of n = Some kn) as Hcn by (unfold component_of; by rewrite Hn).
    cbn [omap list_omap] in Hnd. rewrite Hcn in Hnd. apply NoDup_cons in Hnd as [Hkn Hnd].
    assert (GetSubcomponent kn c = None) as Hnone by (apply (Hfree n kn); [by left|done]).
    set (c1 := list_step dir d c n).
    assert (c1 = SetSubcomponent kn (listed_base dir d n en) c) as Hc1.
    { unfold c1, list_step. by rewrite Hn, Hnone. }
    assert (∀ k, GetSubcomponent k c1 = if decide (k = kn) then new_component kn (listed_base dir d n en) else GetSubcomponent k c) as Hget
      by (intros; by rewrite Hc1, lookup_set).
    assert (∀ name, name ∈ names → component_of name ≠ Some kn) as Hother.
    { intros name Hin Heq. apply Hkn, list_elem_of_omap. by exists name. }
    destruct (IH c1 Hnd) as [H1 H2].
    { intros name k' Hin Hk'. rewrite Hget. rewrite decide_False; [apply (Hfree name); [by right|done]|].
      intros ->. by apply (Hother name). }
    split.
    + intros name ext [->|Hin]%elem_of_cons Hk; [|by eapply H1].
      rewrite Hn in Hk. injection Hk as -> ->. rewrite H2, Hget by done. by rewrite decide_True.
    + intros Hno. rewrite H2; [|by intros; apply Hno; right]. rewrite Hget, decide_False; [done|].
      intros ->. apply (Hno n); [by left|done].
  - assert (component_of n = None) as Hcn by (unfold component_of; by rewrite Hn).
    cbn [omap list_omap] in Hnd. rewrite Hcn in Hnd.
    assert (list_step dir d c n = c) as -> by (unfold list_step; by rewrite Hn).
    destruct (IH c Hnd) as [H1 H2]; [intros; eapply Hfree; [by right|done]|]. split.
    + intros name ext [->|Hin]%elem_of_cons Hk; [congruence|by eapply H1].
    + intros Hno. apply H2. intros. apply Hno. by right.
Qed.

(** ** Files in a directory

    [files] gives for each component the file it is in and what is in it. *)
Definition write_file (dir : string) (ft : string * string) (d : Disk) : Disk :=
  let path := filepath_Join [dir; ft.1] in <[path := File ft.2 (os_now path ft.2)]> d.
Definition write_files (dir : string) (files : string → option (string * string)) (names : list string) (d : Disk) : Disk :=
  foldl (λ d name, match files name with Some ft => write_file dir ft d | None => d end) d names.
Definition names_files (files : string → option (string * string)) : Prop :=
  ∀ k f t, files k = Some (f, t) → plain f ∧ component_of f = Some k.

Lemma names_files_inj files k k' f t t' : names_files files → files k = Some (f, t) → files k' = Some (f, t') → k = k'.
Proof. intros Hf [_ H1]%Hf [_ H2]%Hf. congruence. Qed.

Lemma write_files_cons dir files n names d :
  write_files dir files (n :: names) d =
  write_files dir files names (match files n with Some ft => write_file dir ft d | None => d end).
Proof. done. Qed.
Lemma write_files_other dir files names d p :
  (∀ k f t, k ∈ names → files k = Some (f, t) → filepath_Join [dir; f] ≠ p) → write_files dir files names d !! p = d !! p.
Proof.
  revert d. induction names as [|n names IH]; intros d Hp; [done|]. rewrite write_files_cons.
  rewrite IH by (intros; eapply Hp; [by right|done]). destruct (files n) as [[f t]|] eqn:Hn; [|done].
  unfold write_file. rewrite lookup_insert_ne; [done|]. eapply Hp; [by left|done].
Qed.
Lemma write_files_lookup dir files names d k f t : dir ≠ "" → names_files files → k ∈ names → files k = Some (f, t) →
  write_files dir files names d !! filepath_Join [dir; f] = Some (File t (os_now (filepath_Join [dir; f]) t)).
Proof.
  intros Hd Hf Hk Hft. revert d Hk. induction names as [|n names IH]; intros d Hk; [by apply not_elem_of_nil in Hk|].
  rewrite write_files_cons. destruct (decide (k ∈ names)) as [Hin|Hin]; [by apply IH|].
  apply elem_of_cons in Hk as [->|?]; [|done]. rewrite Hft.
  rewrite write_files_other; [unfold write_file; cbn [fst snd]; by rewrite lookup_insert_eq|].
  intros k' f' t' Hk' Hft' Heq. apply Join_inj in Heq as ->; [|done|by eapply Hf..].
  destruct (Hf _ _ _ Hft') as [_ H1], (Hf _ _ _ Hft) as [_ H2]. rewrite H1 in H2. by injection H2 as ->.
Qed.

(** What is listed in a directory without known files, after files are written *)
Lemma list_written dir files names d k : clean_dir dir → names_files files → d !! dir = Some Dir →
  (∀ name, name ∈ entry_names dir d → known_file name = None) →
  let d' := write_files dir files names d in
  let r := GetSubcomponent (V := V) k (foldl (list_step dir d') (mkCollection FilesysContainer ∅) (entry_names dir d')) in
  match (if decide (k ∈ names) then files k else None) with
  | Some (f, t) => ∃ ext, known_file f = Some (k, ext) ∧
      r = new_component k (mkBase "" "" (os_now (filepath_Join [dir; f]) t) (filepath_Join [dir; f]) false (normalizeExtensionFormat ext))
  | None => r = None
  end.
Proof.
  intros Hc Hf Hdir Hold d' r. assert (dir ≠ "") as Hne by by apply clean_dir_nonempty.
  assert (∀ name, name ∈ entry_names dir d' → (∃ k t, k ∈ names ∧ files k = Some (name, t)) ∨ known_file name = None) as Hnames.
  { intros name [Hp Hin]%elem_of_entry_names; [|done].
    destruct (decide (name ∈ entry_names dir d)) as [?|Hno]; [right; by apply Hold|]. left.
    destruct (decide (Exists (λ k, fst <$> files k = Some name) names)) as [Hex|Habs].
    { apply Exists_exists in Hex as (k' & Hk' & Hft'). destruct (files k') as [[f t]|] eqn:Hft; [|done].
      injection Hft' as ->. by exists k', t. }
    exfalso. apply Hno, elem_of_entry_names; [done|]. split; [done|].
    revert Hin. unfold d'. rewrite write_files_other; [done|]. intros k' f' t' Hk' Hft' Heq.
    apply Join_inj in Heq as ->; [|done|by eapply Hf|done]. apply Habs, Exists_exists. exists k'. by rewrite Hft'. }
  assert (∀ name k, name ∈ entry_names dir d' → component_of name = Some k → ∃ t, k ∈ names ∧ files k = Some (name, t)) as Hcomp.
  { intros name k' Hin Hk'. destruct (Hnames name Hin) as [(k2 & t & ? & Hft)|Hno].
    - destruct (Hf _ _ _ Hft) as [_ H1]. rewrite Hk' in H1. injection H1 as ->. by exists t.
    - unfold component_of in Hk'. by rewrite Hno in Hk'. }
  destruct (list_fold dir d' (entry_names dir d') (mkCollection FilesysContainer ∅) k) as [H1 H2].
  { pose proof (entry_names_NoDup dir d') as Hnd. revert Hcomp. clear -Hnd.
    induction Hnd as [|x l Hx Hnd IH]; intros Hcomp; cbn [omap list_omap]; [constructor|].
    destruct (component_of x) as [kx|] eqn:Hkx; [|apply IH; intros; apply Hcomp; [by right|done]].
    constructor; [|apply IH; intros; apply Hcomp; [by right|done]].
    intros (y & Hy & Hky)%list_elem_of_omap. destruct (Hcomp x kx ltac:(by left) Hkx) as (t & _ & Ht).
    destruct (Hcomp y kx ltac:(by right) Hky) as (t' & _ & Ht'). rewrite Ht in Ht'. by injection Ht' as ->. }
  { intros. by unfold GetSubcomponent. }
  fold r in H1, H2. case_decide as Hk; [destruct (files k) as [[f t]|] eqn:Hft|].
  - destruct (Hf _ _ _ Hft) as [Hp Hcf]. unfold component_of in Hcf.
    destruct (known_file f) as [[k' ext]|] eqn:Hkf; [|done]. injection Hcf as ->. exists ext. split; [done|].
    pose proof (write_files_lookup dir files names d k f t Hne Hf Hk Hft) as Hat. fold d' in Hat.
    rewrite (H1 f ext); [|apply elem_of_entry_names; [done|]; by rewrite Hat|done].
    unfold listed_base. rewrite Abs_Join by apply Hc. by rewrite Hat.
  - apply H2. intros name Hin Hk'. destruct (Hcomp name k Hin Hk') as (t & _ & Ht). congruence.
  - apply H2. intros name Hin Hk'. by destruct (Hcomp name k Hin Hk') as (t & ? & _).
Qed.

(** ** Writing the components of a collection *)
Definition no_faults : Prop := ∀ op p, os_fault op p = None.
Definition writable (dir : string) (d : Disk) : Prop :=
  d !! dir = Some Dir ∧ ∀ name, plain name → is_Some (known_file name) → d !! filepath_Join [dir; name] ≠ Some Dir.

Lemma Join_ne_dir dir name : clean_dir dir → plain name → filepath_Join [dir; name] ≠ dir.
Proof.
  intros Hc Hp Heq. pose proof (Join_entry dir name Hc Hp) as Hj. rewrite Heq in Hj.
  assert (name ≠ "") as Hne by apply Hp. case_decide as Hd.
  - rewrite Hd in Hj. destruct name; [done|by injection Hj].
  - apply (f_equal String.length) in Hj. rewrite !string_length_app in Hj. cbn in Hj. lia.
Qed.
Lemma WriteFile_there dir d f t : clean_dir dir → no_faults → writable dir d → plain f → is_Some (known_file f) →
  WriteFile (filepath_Join [dir; f]) t d = (Ok tt, write_file dir (f, t) d).
Proof.
  intros Hc Hno [Hdir Hnd] Hp Hf. unfold WriteFile, refused. rewrite Hno.
  destruct (d !! filepath_Join [dir; f]) as [[data time|]|] eqn:Hat; [done|by destruct (Hnd f Hp Hf)|].
  by rewrite Dir_Join, Hdir.
Qed.
Lemma write_file_writable dir d f t : clean_dir dir → plain f → writable dir d → writable dir (write_file dir (f, t) d).
Proof.
  intros Hc Hp [Hdir Hnd]. unfold write_file. cbn [fst snd]. split.
  - rewrite lookup_insert_ne; [done|]. by apply Join_ne_dir.
  - intros name Hpn Hk. destruct (decide (filepath_Join [dir; f] = filepath_Join [dir; name])) as [->|Hne];
      [by rewrite lookup_insert_eq|rewrite lookup_insert_ne by done; by apply Hnd].
Qed.

(** What one component comes to: nothing on both sides, or a file that it is
    written as and that compares equal when it is read *)
Definition written_as (dir name f t : string) (xw : Component (V := V)) : Prop :=
  ∀ d, writable dir d → ∃ r x, WriteTo dir (xw, d) = (Ok r, (x, write_file dir (f, t) d)).
Definition reads_equal (dir name f t ext : string) (xp : Component (V := V)) : Prop :=
  ∀ d time time', d !! filepath_Join [dir; f] = Some (File t time) →
    ∃ xn cs, new_component name (mkBase "" "" time' (filepath_Join [dir; f]) false (normalizeExtensionFormat ext)) = Some xn ∧
      Compare d xp xn = (Ok true, cs).
Definition kept (dir name : string) (xw xp : option (Component (V := V))) (file : option (string * string)) : Prop :=
  match file with
  | None => xw = None ∧ xp = None
  | Some (f, t) => ∃ yw yp ext, xw = Some yw ∧ xp = Some yp ∧ plain f ∧ known_file f = Some (name, ext) ∧
      written_as dir name f t yw ∧ reads_equal dir name f t ext yp
  end.

Lemma kept_write_each dir files cw names d : clean_dir dir → writable dir d →
  (∀ name, name ∈ names → ∃ xp, kept dir name (GetSubcomponent name cw) xp (files name)) →
  write_each dir cw names d = (Ok tt, write_files dir files names d) ∧ writable dir (write_files dir files names d).
Proof.
  intros Hc. revert d. induction names as [|n names IH]; intros d Hw Hk; [done|].
  destruct (Hk n ltac:(by left)) as [xp Hn]. rewrite write_files_cons. cbn [write_each].
  destruct (files n) as [[f t]|]; cbn [kept] in Hn.
  - destruct Hn as (yw & yp & ext & -> & _ & Hp & _ & Hwr & _). destruct (Hwr d Hw) as (r & x & ->).
    apply IH; [by apply write_file_writable|]. intros. apply Hk. by right.
  - destruct Hn as [-> _]. apply IH; [done|]. intros. apply Hk. by right.
Qed.

Lemma kept_names_files dir files cw cp : 
  (∀ name, name ∈ AllSubcomponentNames → kept dir name (GetSubcomponent name cw) (GetSubcomponent name cp) (files name)) →
  (∀ name, name ∉ AllSubcomponentNames → files name = None) → names_files files.
Proof.
  intros Hk Hno k f t Hft. destruct (decide (k ∈ AllSubcomponentNames)) as [Hin|Hin]; [|by rewrite Hno in Hft].
  specialize (Hk k Hin). rewrite Hft in Hk. destruct Hk as (? & ? & ext & _ & _ & ? & Hkf & _). split; [done|].
  unfold component_of. by rewrite Hkf.
Qed.

Lemma transition_kept dir d name f t ext xp b :
  reads_equal dir name f t ext xp → ProblemKind b = "" →
  (∃ time, d !! filepath_Join [dir; f] = Some (File t time)) →
  b = mkBase "" "" (c_ModTime b) (filepath_Join [dir; f]) false (normalizeExtensionFormat ext) →
  ∃ xn item, new_component name b = Some xn ∧ transition d name (Some xp) (Some xn) = Ok [item] ∧ si_Type item = "unmodified".
Proof.
  intros Hr Hpk [time Hat] Hb. destruct (Hr d time (c_ModTime b) Hat) as (xn & [c' n'] & Hnew & Hcmp). rewrite <- Hb in Hnew.
  exists xn. assert (ProblemKind (Base xn) = "") as Hpx.
  { revert Hnew. unfold new_component. repeat case_decide; intros [= <-]; done. }
  eexists. split; [done|]. unfold transition. rewrite decide_False by (rewrite Hpx; by intros []). rewrite Hcmp. done.
Qed.

Lemma transitions_all d names prev next :
  (∀ name, name ∈ names → ∃ items, transition d name (GetSubcomponent name prev) (GetSubcomponent name next) = Ok items ∧
    all_unmodified items = true) →
  ∃ items, transitions d names prev next = Ok items ∧ all_unmodified items = true.
Proof.
  induction names as [|n names IH]; intros Hn; [by exists []|]. cbn [transitions].
  destruct (Hn n ltac:(by left)) as (items & -> & Hi). destruct IH as (rest & -> & Hr); [intros; apply Hn; by right|].
  cbn. exists (items ++ rest). split; [done|]. unfold all_unmodified in *. by rewrite forallb_app, Hi, Hr.
Qed.

Lemma list_container dir d names c : co_container (foldl (list_step dir d) c names) = co_container c.
Proof.
  revert c. induction names as [|n names IH]; intros c; [done|]. cbn [foldl]. rewrite IH.
  unfold list_step. destruct (known_file n) as [[k e]|]; [|done]. destruct (GetSubcomponent k c); [done|].
  unfold SetSubcomponent. by destruct (new_component k _).
Qed.

(** Files whose names are not known stay as they are. *)
Definition others_kept (dir : string) (d d' : Disk) : Prop :=
  ∀ name, plain name → known_file name = None → d' !! filepath_Join [dir; name] = d !! filepath_Join [dir; name].
Lemma write_files_others dir files names d : dir ≠ "" → names_files files → others_kept dir d (write_files dir files names d).
Proof.
  intros Hd Hf name Hp Hk. apply write_files_other. intros k f t _ Hft Heq. apply Hf in Hft as [Hpf Hc].
  apply Join_inj in Heq as ->; [|done..]. unfold component_of in Hc. by rewrite Hk in Hc.
Qed.

Lemma kept_clean dir d files cw cp : clean_dir dir → no_faults → d !! dir = Some Dir →
  (∀ name, name ∈ entry_names dir d → known_file name = None) →
  (∀ name, name ∈ AllSubcomponentNames → kept dir name (GetSubcomponent name cw) (GetSubcomponent name cp) (files name)) →
  (∀ name, name ∉ AllSubcomponentNames → files name = None) → (∃ name, is_Some (files name)) →
  ∃ d' w working items, write_each dir cw AllSubcomponentNames d = (Ok tt, d') ∧
    ListDirectoryComponents dir d' = Ok w ∧ ExpandListedComponents true d' w = Ok working ∧
    CalculateStateTransition d' cp working = Ok items ∧ all_unmodified items = true ∧ others_kept dir d d'.
Proof.
  intros Hc Hnf Hdir Hold Hk Hno [name0 [ft0 Hft0]].
  pose proof (kept_names_files dir files cw cp Hk Hno) as Hf.
  assert (writable dir d) as Hw.
  { split; [done|]. intros name Hp [ke Hke] Hat. rewrite (Hold name) in Hke; [done|].
    apply elem_of_entry_names; [by apply clean_dir_nonempty|]. by rewrite Hat. }
  destruct (kept_write_each dir files cw AllSubcomponentNames d Hc Hw) as [Hwr [Hdir' _]]; [intros; eexists; by apply Hk|].
  set (d' := write_files dir files AllSubcomponentNames d) in *.
  pose proof (λ k, list_written dir files AllSubcomponentNames d k Hc Hf Hdir Hold) as Hlist. cbv zeta in Hlist.
  fold d' in Hlist. set (w := foldl (list_step dir d') (mkCollection FilesysContainer ∅) (entry_names dir d')) in *.
  assert (∀ k, match files k with
    | Some (f, t) => ∃ ext, known_file f = Some (k, ext) ∧ GetSubcomponent k w =
        new_component k (mkBase "" "" (os_now (filepath_Join [dir; f]) t) (filepath_Join [dir; f]) false (normalizeExtensionFormat ext))
    | None => GetSubcomponent k w = None end) as Hget.
  { intros k. specialize (Hlist k). case_decide as Hin; [done|]. by rewrite (Hno k Hin). }
  clear Hlist.
  assert (files "dataset" = None) as Hds by (apply Hno; apply (bool_decide_unpack _); vm_compute; exact I).
  assert (GetSubcomponent "dataset" w = None) as Hwds by (specialize (Hget "dataset"); by rewrite Hds in Hget).
  set (working := expand_dataset true no_dataset zero_base w).
  assert (∀ k, k ≠ "dataset" → GetSubcomponent k working = GetSubcomponent k w) as Hexp.
  { intros k Hk'. unfold working, expand_dataset. cbn [assign_if wd_Commit wd_Meta wd_Structure wd_Readme wd_Transform wd_Body no_dataset].
    by rewrite lookup_put, decide_False. }
  assert (ListDirectoryComponents dir d' = Ok w) as Hl.
  { unfold ListDirectoryComponents, ReadDir, refused. rewrite Hnf. cbn [mbind outcome_bind]. rewrite Hdir'. cbn [mbind outcome_bind].
    fold w. rewrite decide_False; [done|]. intros Hemp. destruct ft0 as [f0 t0]. specialize (Hget name0). rewrite Hft0 in Hget.
    destruct Hget as (ext & Hkf & Hg). unfold GetSubcomponent in Hg. rewrite Hemp, lookup_empty in Hg.
    destruct (decide (name0 ∈ AllSubcomponentNames)) as [Hin|Hin]; [|by rewrite Hno in Hft0].
    specialize (Hk name0 Hin). rewrite Hft0 in Hk. destruct Hk as (yw & yp & ext' & _ & _ & _ & Hkf' & _ & Hr).
    destruct (Hr (<[filepath_Join [dir; f0] := File t0 0]> ∅) 0%Z (os_now (filepath_Join [dir; f0]) t0)) as (xn & _ & Hnew & _);
      [by rewrite lookup_insert_eq|]. rewrite Hkf in Hkf'. injection Hkf' as ->. congruence. }
  assert (ExpandListedComponents true d' w = Ok working) as He.
  { unfold ExpandListedComponents. rewrite Hwds.
    assert (co_container w = FilesysContainer) as -> by apply list_container. done. }
  destruct (transitions_all d' AllSubcomponentNames cp working) as (items & Ht & Hu).
  { intros name Hin. rewrite Hexp by (intros ->; revert Hin; apply (bool_decide_unpack _); vm_compute; exact I).
    specialize (Hk name Hin). specialize (Hget name). destruct (files name) as [[f t]|] eqn:Hft; cbn [kept] in Hk.
    - destruct Hk as (yw & yp & ext & _ & -> & Hp & Hkf & _ & Hr). destruct Hget as (ext' & Hkf' & ->).
      rewrite Hkf in Hkf'. injection Hkf' as <-.
      destruct (transition_kept dir d' name f t ext yp (mkBase "" "" (os_now (filepath_Join [dir; f]) t) (filepath_Join [dir; f]) false
        (normalizeExtensionFormat ext)) Hr eq_refl) as (xn & item & -> & -> & Hty); [|done|].
      + eexists. unfold d'. by apply (write_files_lookup dir files AllSubcomponentNames d name); [apply clean_dir_nonempty|..].
      + exists [item]. split; [done|]. cbn. by rewrite bool_decide_eq_true_2.
    - destruct Hk as [_ ->]. rewrite Hget. by exists []. }
  exists d', w, working, items. split_and!; [done..| |done|by apply write_files_others; [apply clean_dir_nonempty|]].
  unfold CalculateStateTransition. rewrite Ht. cbn [mbind outcome_bind].
  unfold working, expand_dataset. cbn [assign_if wd_Commit wd_Meta wd_Structure wd_Readme wd_Transform wd_Body no_dataset].
  by rewrite lookup_put, decide_True.
Qed.

(** ** What the libraries promise

    Derived values are dropped once. The values of a kind, [of_kind], are those
    of its type in the [dataset] package, with maps of their own whose keys are
    told apart without their case, and without nulls in arrays; the text one is
    encoded as decodes to a form of a value that is encoded the same. That this
    form is what filling finds is [FillSpec.Struct_form]. *)
Class ComponentLaws : Type := {
  drop_derived_value : V → V;
  v_drop_Some v : v_DropDerivedValues (Some v) = Ok (Some (drop_derived_value v));
  of_kind : value_kind → V → Prop;
  value_struct k : ∃ name setter fs, value_type k = TStruct name setter fs;
  value_encodes k v text : of_kind k v → json_MarshalIndent (drop_derived_value v) = Ok text → ∃ fields p out,
    json_Unmarshal text = Ok fields ∧ tidy (VMap fields) ∧ sets (value_type k) (VMap fields) ∧
    form (value_type k) p (VMap fields) ∧
    json_Marshal (Some (drop_derived_value v)) = Ok out ∧ json_Marshal (Some (value_in k p)) = Ok out ∧
    json_Marshal (Some (drop_derived_value (drop_derived_value v))) = Ok out ∧
    json_Marshal (Some (drop_derived_value (value_in k p))) = Ok out;
  ds_drop ds : ds_DropDerivedValues ds =
    mkWDataset (drop_derived_value <$> wd_Commit ds) (drop_derived_value <$> wd_Meta ds) (drop_derived_value <$> wd_Structure ds)
      (drop_derived_value <$> wd_Readme ds) (drop_derived_value <$> wd_Transform ds) (wd_Body ds) (wd_BodyFile ds)
      (wd_BodyPath ds) (wd_Path ds) (wd_Peername ds) (wd_PreviousPath ds);
  drop_Format v : v_Format (drop_derived_value v) = v_Format v;
}.
Context `{CL : !ComponentLaws}.
Abbreviation drop1 := drop_derived_value.

(** What was written of a value is loaded as one that is encoded the same. *)
Lemma value_reads_back k v text : of_kind k v → json_MarshalIndent (drop1 v) = Ok text → ∃ fields v' out,
  json_Unmarshal text = Ok fields ∧ fill_value k fields = (Ok tt, v') ∧
  json_Marshal (Some (drop1 v)) = Ok out ∧ json_Marshal (Some v') = Ok out ∧
  json_Marshal (Some (drop1 (drop1 v))) = Ok out ∧ json_Marshal (Some (drop1 v')) = Ok out.
Proof.
  intros Hk Htext. destruct (value_encodes k v text Hk Htext) as (fields & p & out & Hun & Ht & Hs & Hf & Hout).
  exists fields, (value_in k p), out. split; [done|]. split; [|done]. unfold fill_value, filled.
  destruct (value_struct k) as (name & setter & fs & Heq). rewrite Heq in Hs, Hf |- *. by rewrite (Struct_form _ _ _ _ p).
Qed.

Definition serializable (c : Component (V := V)) : bool :=
  match c with ValueComponent VMeta _ _ true | DatasetComponent _ _ => false | _ => true end.
Lemma WriteTo_run dir (c : Component (V := V)) d : serializable c = true →
  WriteTo dir (c, d) =
  match LoadAndFill d c with
  | (Ok _, c') => let '(r, d') := write_loaded dir c' d in (r, (c', d'))
  | (Error e, c') => (Error e, (c', d))
  | (Panic, c') => (Panic, (c', d))
  end.
Proof.
  intros Hs. unfold WriteTo, load_here, on_disk, st_zoom, st_get, mbind, stM_bind.
  destruct c as [[] ? ? []| | |]; try done; cbn [fst snd]; destruct (LoadAndFill d _) as [[] c']; cbn [mbind outcome_bind fst snd];
    try done; by destruct (write_loaded dir c' d).
Qed.
Lemma ReadFile_there d path t time : no_faults → d !! path = Some (File t time) → ReadFile path d = Ok t.
Proof. intros Hnf Hat. unfold ReadFile, refused. by rewrite Hnf, Hat. Qed.
Lemma load_file_value k d b t fields v : no_faults → IsLoaded b = false → c_Format b = "json" →
  (∃ time, d !! SourceFile b = Some (File t time)) → json_Unmarshal t = Ok fields → fill_value k fields = (Ok tt, v) →
  load_value k d b None false = (Ok true, ValueComponent k (set_loaded b) (Some v) false).
Proof.
  intros Hnf Hl Hb [time Hat] Hun Hfill. unfold load_value, LoadFile. rewrite Hl, (ReadFile_there _ _ _ _ Hnf Hat).
  cbn [set_loaded c_Format]. rewrite decide_True by done. unfold parse_with. by rewrite Hun, Hfill.
Qed.

Lemma kept_value_component dir name k v : clean_dir dir → no_faults →
  name = match k with VCommit => "commit" | VMeta => "meta" | VStructure => "structure" end →
  match k with VMeta => True | _ => v_IsEmpty (drop1 v) = false end → of_kind k v →
  is_Ok (json_MarshalIndent (drop1 v)) = true →
  ∃ text, kept dir name (Some (ValueComponent k zero_base (Some (drop1 v)) false))
    (Some (ValueComponent k zero_base (Some (drop1 v)) false)) (Some (value_file k, text)).
Proof.
  intros Hc Hnf -> Hne Hkind Hm. destruct (json_MarshalIndent (drop1 v)) as [text| |] eqn:Htext; [|done..]. exists text.
  destruct (value_reads_back k v text Hkind Htext) as (fields & v' & out & Hun & Hfill & H1 & H2 & H3 & H4).
  eexists _, _, ".json". split; [done|]. split; [done|].
  split; [destruct k; apply (bool_decide_unpack _); vm_compute; exact I|]. split; [by destruct k|]. split.
  - intros d Hw. eexists _, _. rewrite WriteTo_run by by destruct k. cbn [LoadAndFill load_value zero_base IsLoaded].
    cbn [write_loaded]. assert (match k with VMeta => false | _ => v_IsEmpty (drop1 v) end = false) as -> by by destruct k.
    unfold writeComponentFile. erewrite (bind_run (st_lift _)) by (unfold st_lift; by rewrite Htext).
    erewrite bind_run by (apply WriteFile_there; [done..| |]; destruct k; apply (bool_decide_unpack _); vm_compute; exact I).
    done.
  - intros d time time' Hat. eexists _, _. split; [by destruct k|].
    unfold Compare. assert (∀ b b', same_type (ValueComponent k b (Some (drop1 v)) false) (ValueComponent k b' None false) = true) as ->
      by by destruct k.
    unfold loaded_both. cbn [LoadAndFill].
    change (load_value k d zero_base (Some (drop1 v)) false) with
      (@Ok bool false, ValueComponent k (set_loaded zero_base) (Some (drop1 v)) false).
    erewrite load_file_value; [|done|done|done|by eexists|done..].
    f_equal. destruct k; cbn [compare_loaded]; rewrite ?v_drop_Some; cbn [mbind outcome_bind]; unfold compare_data;
      rewrite ?H1, ?H2, ?H3, ?H4; cbn [mbind outcome_bind]; by rewrite bool_decide_eq_true_2.
Qed.

(** A script that reads back: its text is all there is to it. *)
Definition script_name (k : script_kind) : string := match k with SReadme => "readme" | STransform => "transform" end.
Definition script_format (k : script_kind) : string := match k with SReadme => "md" | STransform => "star" end.
Definition script_reads_back (k : script_kind) (v : V) : Prop := ∃ v1 v' out,
  InlineScriptFile (drop1 v) = Ok v1 ∧ v_IsEmpty v1 = false ∧
  fill_script k [("ScriptBytes", VBytes (v_ScriptBytes v1))] = (Ok tt, v') ∧ v_ScriptBytes v' = v_ScriptBytes v1 ∧
  json_Marshal (Some v1) = Ok out ∧ json_Marshal (Some v') = Ok out.
Definition script_component (k : script_kind) (v : V) : Component :=
  ScriptComponent k (with_format (script_format k)) true (Some (drop1 v)).

Lemma load_file_script k d b t v : no_faults → IsLoaded b = false → c_Format b = script_format k →
  (∃ time, d !! SourceFile b = Some (File t time)) → fill_script k [("ScriptBytes", VBytes t)] = (Ok tt, v) →
  load_script k d b false None = (Ok true, ScriptComponent k (set_loaded (set_loaded b)) false (Some v)).
Proof.
  intros Hnf Hl Hb [time Hat] Hfill. unfold load_script, LoadFile. rewrite Hl, (ReadFile_there _ _ _ _ Hnf Hat).
  cbn [set_loaded c_Format]. rewrite Hb, !decide_False by by destruct k.
  rewrite decide_True by (destruct k; apply (bool_decide_unpack _); vm_compute; exact I). by rewrite Hfill.
Qed.

Lemma kept_script_component dir k v : clean_dir dir → no_faults → script_reads_back k v →
  ∃ text, kept dir (script_name k) (Some (script_component k v)) (Some (script_component k v))
    (Some (script_file k (with_format (script_format k)), text)).
Proof.
  intros Hc Hnf (v1 & v' & out & Hin & Hne & Hfill & Hb & H1 & H2). exists (v_ScriptBytes v1).
  assert (∀ d, load_script k d (with_format (script_format k)) true (Some (drop1 v)) =
    (Ok true, ScriptComponent k (set_loaded (with_format (script_format k))) true (Some v1))) as Hload.
  { intros d. cbn [load_script with_format IsLoaded]. unfold inline_with. by rewrite Hin. }
  eexists _, _, (String "." (script_format k)). split; [done|]. split; [done|].
  split; [destruct k; apply (bool_decide_unpack _); vm_compute; exact I|]. split; [by destruct k|]. split.
  - intros d Hw. eexists _, _. rewrite WriteTo_run by done. cbn [script_component LoadAndFill]. rewrite Hload.
    cbn [write_loaded]. rewrite Hne.
    erewrite bind_run; [|by apply WriteFile_there; [..|destruct k; apply (bool_decide_unpack _); vm_compute|by destruct k]]. done.
  - intros d time time' Hat. eexists _, _. split; [by destruct k|].
    unfold Compare. assert (∀ b' v, same_type (script_component k v) (ScriptComponent k b' false None) = true) as ->
      by by destruct k. unfold loaded_both. cbn [script_component LoadAndFill]. rewrite Hload.
    erewrite load_file_script; [|done|done|by destruct k|by eexists|done].
    f_equal. destruct k; cbn [compare_loaded]; [|by rewrite bool_decide_eq_true_2].
    unfold compare_data. rewrite H1, H2. cbn [mbind outcome_bind]. by rewrite bool_decide_eq_true_2.
Qed.

(** A body that reads back: what it is written as is detected as the same
    entries. *)
Definition body_formats : list string := ["csv"; "json"; "cbor"; "xlsx"].
Definition body_reads_back (st : V) (path text : string) : Prop := ∃ body file body' out,
  v_Format st ∈ body_formats ∧ Resolver_Get path = Ok text ∧ ReadEntries (Some (drop1 st)) text = Ok body ∧
  SerializeBody body (drop1 st) = Ok file ∧ DetectEntries (v_Format st) file = Ok body' ∧
  json_Marshal_body (Some body) = Ok out ∧ json_Marshal_body (Some body') = Ok out.
Definition body_component (st : V) (path : string) (text : option string) : Component :=
  BodyComponent (mkBase "" "" 0 path false (v_Format st)) true text (Some (drop1 st)) None.

Lemma load_body d b r f (st : option V) v : body_entries d b r f st = Ok v →
  LoadAndFill d (BodyComponent b r f st None) = (Ok false, BodyComponent b r f st (Some v)).
Proof. intros Hv. cbn [LoadAndFill]. by rewrite Hv. Qed.

Lemma kept_body_component dir st path text : clean_dir dir → no_faults → body_reads_back st path text →
  ∃ file, kept dir "body" (Some (body_component st path (Some text))) (Some (body_component st path None))
    (Some ("body." +:+ v_Format st, file)).
Proof.
  intros Hc Hnf (body & file & body' & out & Hfmt & Hres & Hread & Hser & Hdet & H1 & H2). exists file.
  assert (plain ("body." +:+ v_Format st) ∧ known_file ("body." +:+ v_Format st) = Some ("body", "." +:+ v_Format st) ∧
    normalizeExtensionFormat ("." +:+ v_Format st) = v_Format st) as (Hp & Hkf & Hnorm).
  { repeat (apply elem_of_cons in Hfmt as [->|Hfmt];
      [split_and!; [apply (bool_decide_unpack _); vm_compute; exact I|reflexivity..]|]). by apply not_elem_of_nil in Hfmt. }
  eexists _, _, ("." +:+ v_Format st). split; [done|]. split; [done|]. split; [done|]. split; [done|]. split.
  - intros d Hw. eexists _, _. rewrite WriteTo_run by done. cbn [body_component LoadAndFill body_entries]. rewrite Hread.
    cbn [write_loaded default from_option id]. erewrite (bind_run (st_lift _)) by (unfold st_lift; by rewrite Hser).
    erewrite bind_run; [|apply WriteFile_there; [done..|unfold body_file; cbn [c_Format]; by rewrite Hkf]]. done.
  - intros d time time' Hat. eexists _, _. split; [done|].
    unfold Compare, body_component. cbn [same_type]. unfold loaded_both.
    erewrite load_body by (unfold body_entries; cbn [SourceFile]; rewrite Hres; cbn [mbind outcome_bind]; exact Hread).
    erewrite load_body by (unfold body_entries; cbn [SourceFile c_Format]; rewrite (ReadFile_there _ _ _ _ Hnf Hat), Hnorm;
      cbn [mbind outcome_bind]; exact Hdet).
    f_equal. cbn [compare_loaded]. unfold compare_data. rewrite H1, H2. cbn [mbind outcome_bind].
    by rewrite bool_decide_eq_true_2.
Qed.

(** ** Collections *)
Definition dropped (x : Component (V := V)) : Component :=
  match x with
  | ValueComponent k b v dis => ValueComponent k b (drop1 <$> v) dis
  | ScriptComponent k b r v => ScriptComponent k b r (drop1 <$> v)
  | BodyComponent b r f st v => x
  | DatasetComponent b v => DatasetComponent b (ds_DropDerivedValues <$> v)
  end.
Definition has_value (x : Component (V := V)) : bool :=
  match x with ValueComponent _ _ None _ | ScriptComponent _ _ _ None => false | _ => true end.
Lemma drop_derived_run c : map_Forall (λ _ x, has_value x = true) (Subcomponents c) →
  drop_derived c = Ok (share_structure (mkCollection (co_container c) (dropped <$> Subcomponents c))).
Proof.
  intros Hv. unfold drop_derived.
  assert (drop_all (map_to_list (Subcomponents c)) = Ok (prod_map id dropped <$> map_to_list (Subcomponents c))) as ->.
  { apply map_Forall_to_list in Hv. induction Hv as [|[name x] l Hx _ IH]; [done|]. cbn [drop_all].
    assert (DropDerivedValues x = Ok (dropped x)) as ->.
    { destruct x as [k b [v|] dis|k b r [v|]| |]; try done; cbn [DropDerivedValues]; by rewrite v_drop_Some. }
    cbn [mbind outcome_bind]. by rewrite IH. }
  cbn [mbind outcome_bind]. by rewrite list_to_map_fmap, list_to_map_to_list.
Qed.

(** The components of a dataset, by name *)
Definition converted (ds : WDataset V) (body : option Component) (name : string) : option Component :=
  if decide (name = "body") then body
  else if decide (name = "transform") then (λ v, ScriptComponent STransform (with_format "star") true (Some v)) <$> wd_Transform ds
  else if decide (name = "readme") then (λ v, ScriptComponent SReadme (with_format "md") true (Some v)) <$> wd_Readme ds
  else if decide (name = "commit") then (λ v, ValueComponent VCommit zero_base (Some v) false) <$> wd_Commit ds
  else if decide (name = "structure") then (λ v, ValueComponent VStructure zero_base (Some v) false) <$> wd_Structure ds
  else if decide (name = "meta") then (λ v, ValueComponent VMeta zero_base (Some v) false) <$> wd_Meta ds
  else if decide (name = "dataset") then Some (DatasetComponent zero_base (Some ds)) else None.
Lemma lookup_add_some {A} (o : option A) n f (m : gmap string (Component (V := V))) k :
  add_some o n f m !! k = if decide (k = n) then match o with Some v => Some (f v) | None => m !! k end else m !! k.
Proof.
  destruct o as [v|]; cbn [add_some]; [|by case_decide].
  case_decide as Hk; [subst; by rewrite lookup_insert_eq|by rewrite lookup_insert_ne].
Qed.
Lemma convert_lookup ds body : body_of ds = Ok body → ∃ c, ConvertDatasetToComponents ds = Ok c ∧
  co_container c = DatasetContainer ∧ ∀ k, GetSubcomponent k c = converted ds body k.
Proof.
  intros Hb. unfold ConvertDatasetToComponents. rewrite Hb. cbn [mbind outcome_bind]. eexists. split; [done|]. split; [done|].
  intros k. unfold GetSubcomponent, converted. cbn [Subcomponents]. rewrite !lookup_add_some.
  destruct (decide (k ∈ ["body"; "transform"; "readme"; "commit"; "structure"; "meta"; "dataset"])) as [Hin|Hno].
  - repeat (apply elem_of_cons in Hin as [->|Hin];
      [repeat first [rewrite decide_True by done|rewrite decide_False by done]; rewrite ?lookup_singleton_ne by done;
       rewrite ?lookup_singleton_eq; repeat case_match; done|]). by apply not_elem_of_nil in Hin.
  - assert (∀ n, n ∈ ["body"; "transform"; "readme"; "commit"; "structure"; "meta"; "dataset"] → k ≠ n) as Hne by (by intros n Hn ->).
    rewrite lookup_singleton_ne by (intros <-; by apply Hno; repeat constructor || apply (bool_decide_unpack _)).
    repeat rewrite decide_False by (apply Hne; apply (bool_decide_unpack _); vm_compute; exact I). done.
Qed.

(** What is written of a dataset, and what it is compared with *)
Definition version_of (ds : WDataset V) (name : string) : option Component :=
  if decide (name = "meta") then (λ v, ValueComponent VMeta zero_base (Some (drop1 v)) false) <$> wd_Meta ds
  else if decide (name = "structure") then (λ v, ValueComponent VStructure zero_base (Some (drop1 v)) false) <$> wd_Structure ds
  else if decide (name = "readme") then script_component SReadme <$> wd_Readme ds
  else if decide (name = "transform") then script_component STransform <$> wd_Transform ds
  else if decide (name = "body") then
    if decide (wd_BodyPath ds = "") then None
    else (λ st, body_component st (wd_BodyPath ds) (wd_BodyFile ds)) <$> wd_Structure ds
  else None.
Definition convertible (ds : WDataset V) : Prop :=
  wd_Body ds = None ∧ (wd_BodyPath ds = "" ∨ is_Some (wd_Structure ds)).

Lemma lookup_share k c : GetSubcomponent k (share_structure c) =
  if decide (k = "body") then
    match GetSubcomponent "body" c, GetSubcomponent "structure" c with
    | Some (BodyComponent b r f (Some _) v), Some (ValueComponent _ _ st _) => Some (BodyComponent b r f st v)
    | x, _ => x
    end
  else GetSubcomponent k c.
Proof.
  unfold share_structure. case_decide as Hk; repeat case_match; subst; rewrite ?lookup_put;
    first [by rewrite decide_True|by rewrite decide_False|congruence].
Qed.

Lemma body_of_convertible ds : convertible ds → body_of ds =
  Ok (if decide (wd_BodyPath ds = "") then None
      else (λ st, BodyComponent (mkBase "" "" 0 (wd_BodyPath ds) false (v_Format st)) true (wd_BodyFile ds) (Some st) None) <$>
             wd_Structure ds).
Proof.
  intros [Hb Hs]. unfold body_of. rewrite Hb. case_decide as Hp; [done|]. destruct Hs as [?|[st ->]]; done.
Qed.

Ltac by_name Hin :=
  repeat (apply elem_of_cons in Hin as [->|Hin]; [|]); [..|by apply not_elem_of_nil in Hin].

Lemma written_version ds : convertible ds →
  ∃ c, ConvertDatasetToComponents ds = Ok c ∧
    ∃ c', drop_derived (RemoveSubcomponent "stats" (RemoveSubcomponent "commit" c)) = Ok c' ∧
    ∀ name, name ∈ AllSubcomponentNames → GetSubcomponent name c' = version_of ds name.
Proof.
  intros Hcv. destruct (convert_lookup ds _ (body_of_convertible ds Hcv)) as (c & Hc & _ & Hget). exists c. split; [done|].
  set (body := if decide (wd_BodyPath ds = "") then None else _) in *.
  assert (∀ k, GetSubcomponent k (RemoveSubcomponent "stats" (RemoveSubcomponent "commit" c)) =
    if decide (k = "commit" ∨ k = "stats") then None else converted ds body k) as Hrem.
  { intros k. unfold GetSubcomponent, RemoveSubcomponent. cbn [Subcomponents]. rewrite <- Hget.
    destruct (decide (k = "stats")) as [->|Hs]; [by rewrite lookup_delete_eq|]. rewrite lookup_delete_ne by done.
    destruct (decide (k = "commit")) as [->|Hk]; [by rewrite lookup_delete_eq|]. rewrite lookup_delete_ne by done.
    by rewrite decide_False by naive_solver. }
  rewrite drop_derived_run.
  2: { intros k x Hk. fold (GetSubcomponent k (RemoveSubcomponent "stats" (RemoveSubcomponent "commit" c))) in Hk.
       rewrite Hrem in Hk. case_decide; [done|]. unfold converted, body in Hk.
       repeat case_decide; destruct (wd_Structure ds), (wd_Meta ds), (wd_Readme ds), (wd_Transform ds), (wd_Commit ds);
         simplify_eq/=; done. }
  eexists. split; [done|].
  set (cd := mkCollection _ (dropped <$> _)).
  assert (∀ k, GetSubcomponent k cd = dropped <$> (if decide (k = "commit" ∨ k = "stats") then None else converted ds body k)) as Hcd.
  { intros k. rewrite <- Hrem. unfold GetSubcomponent, cd. cbn [Subcomponents]. by rewrite lookup_fmap. }
  intros name Hin. rewrite lookup_share, !Hcd. unfold AllSubcomponentNames in Hin. by_name Hin;
    unfold converted, version_of, body;
    repeat first [rewrite decide_True by (done || by (left + right))|rewrite decide_False by (done || by intros [|])];
    try done; destruct (wd_Structure ds), (wd_Meta ds), (wd_Readme ds), (wd_Transform ds); try done; by case_decide.
Qed.

Definition unopened (ds : WDataset V) : WDataset V :=
  mkWDataset (wd_Commit ds) (wd_Meta ds) (wd_Structure ds) (wd_Readme ds) (wd_Transform ds) (wd_Body ds) None
    (wd_BodyPath ds) (wd_Path ds) (wd_Peername ds) (wd_PreviousPath ds).
Lemma stored_version ds : convertible ds →
  ∃ c, ConvertDatasetToComponents (without_commit (ds_DropDerivedValues (unopened ds))) = Ok c ∧
    ∀ name, name ∈ AllSubcomponentNames → GetSubcomponent name c = version_of (unopened ds) name.
Proof.
  intros [Hb Hs]. rewrite ds_drop. set (ds' := without_commit _).
  assert (convertible ds') as Hcv.
  { split; [done|]. destruct Hs as [?|[st Hst]]; [by left|right]. cbn. rewrite Hst. by eexists. }
  destruct (convert_lookup ds' _ (body_of_convertible ds' Hcv)) as (c & Hc & _ & Hget). exists c. split; [done|].
  intros name Hin. rewrite Hget. unfold AllSubcomponentNames in Hin. by_name Hin; unfold converted, version_of;
    repeat first [rewrite decide_True by done|rewrite decide_False by done]; try done; unfold ds'; cbn;
    destruct (wd_Structure ds), (wd_Meta ds), (wd_Readme ds), (wd_Transform ds); try done; cbn;
    case_decide; try done; unfold body_component; by rewrite drop_Format.
Qed.

Lemma choose_files (P : string → option (string * string) → Prop) (names : list string) :
  (∀ name, name ∈ names → ∃ file, P name file) →
  ∃ files, (∀ name, name ∈ names → P name (files name)) ∧ (∀ name, name ∉ names → files name = None).
Proof.
  induction names as [|n names IH]; intros HP.
  { exists (λ _, None). split; [|done]. by intros ? ?%not_elem_of_nil. }
  destruct IH as (files & H1 & H2); [intros; apply HP; by right|]. destruct (HP n ltac:(by left)) as [file Hn].
  exists (λ name, if decide (name = n) then file else files name). split.
  - intros name Hin. case_decide as Heq; [by subst|]. apply elem_of_cons in Hin as [?|?]; [done|by apply H1].
  - intros name Hin. apply not_elem_of_cons in Hin as [Hne Hin]. rewrite decide_False by done. by apply H2.
Qed.

(** A dataset that can be checked out: its meta and its structure are values of
    their kinds and can be encoded, its structure is not empty, its scripts and its body read back, and there is something
    to write. *)
Record checkable (ds : WDataset V) : Prop := mkCheckable {
  ck_convertible : convertible ds;
  ck_meta v : wd_Meta ds = Some v → of_kind VMeta v ∧ is_Ok (json_MarshalIndent (drop1 v)) = true;
  ck_structure v : wd_Structure ds = Some v → v_IsEmpty (drop1 v) = false ∧ of_kind VStructure v ∧ is_Ok (json_MarshalIndent (drop1 v)) = true;
  ck_readme v : wd_Readme ds = Some v → script_reads_back SReadme v;
  ck_transform v : wd_Transform ds = Some v → script_reads_back STransform v;
  ck_body st : wd_BodyPath ds ≠ "" → wd_Structure ds = Some st →
    ∃ text, wd_BodyFile ds = Some text ∧ body_reads_back st (wd_BodyPath ds) text;
  ck_some : ∃ name, name ∈ AllSubcomponentNames ∧ is_Some (version_of ds name);
}.

Lemma checkable_kept dir ds name : clean_dir dir → no_faults → checkable ds → name ∈ AllSubcomponentNames →
  ∃ file, kept dir name (version_of ds name) (version_of (unopened ds) name) file.
Proof.
  intros Hc Hnf [Hcv Hm Hst Hr Ht Hb _] Hin. unfold AllSubcomponentNames in Hin.
  by_name Hin; unfold version_of; repeat first [rewrite decide_True by done|rewrite decide_False by done]; cbn;
    try (by exists None).
  - destruct (wd_Meta ds) as [v|] eqn:Hv; [|by exists None].
    destruct (Hm v eq_refl). destruct (kept_value_component dir "meta" VMeta v Hc Hnf) as [t Ht']; [done..|]. by eexists.
  - destruct (wd_Structure ds) as [v|] eqn:Hv; [|by exists None]. destruct (Hst v eq_refl) as (? & ? & ?).
    destruct (kept_value_component dir "structure" VStructure v Hc Hnf) as [t Ht']; [done..|]. by eexists.
  - destruct (wd_Readme ds) as [v|] eqn:Hv; [|by exists None].
    destruct (kept_script_component dir SReadme v Hc Hnf (Hr v eq_refl)) as [t Ht']. by eexists.
  - destruct (wd_Transform ds) as [v|] eqn:Hv; [|by exists None].
    destruct (kept_script_component dir STransform v Hc Hnf (Ht v eq_refl)) as [t Ht']. by eexists.
  - case_decide as Hp; [by exists None|]. destruct (wd_Structure ds) as [st|] eqn:Hv; [|by exists None].
    destruct (Hb st Hp eq_refl) as (text & Htext & Hrb). rewrite Htext. destruct (kept_body_component dir st _ text Hc Hnf Hrb) as [file Hf].
    by eexists.
Qed.

(** A checkout is clean. When the components of a dataset that can be checked
    out are written to a directory without known files, the status of the
    directory against the stored version lists every component as unmodified. *)
Lemma written_clean ds dir d : clean_dir dir → no_faults → d !! dir = Some Dir →
  (∀ name, name ∈ entry_names dir d → known_file name = None) → checkable ds →
  ∃ d' items, WriteComponents ds dir d = (Ok tt, d') ∧ status_against (unopened ds) dir d' = Ok items ∧
    all_unmodified items = true ∧ others_kept dir d d'.
Proof.
  intros Hc Hnf Hdir Hold Hck. pose proof (ck_convertible _ Hck) as Hcv.
  destruct (written_version ds Hcv) as (c & Hconv & cw & Hdrop & Hcw).
  destruct (stored_version ds Hcv) as (cp & Hstored & Hcp).
  destruct (choose_files _ _ (λ name, checkable_kept dir ds name Hc Hnf Hck)) as (files & Hk & Hno).
  destruct (kept_clean dir d files cw cp Hc Hnf Hdir Hold) as (d' & w & working & items & Hwr & Hl & He & Ht & Hu & Hoth); [|done| |].
  { intros name Hin. rewrite Hcw, Hcp by done. by apply Hk. }
  { destruct (ck_some _ Hck) as (name & Hin & [x Hx]). exists name. specialize (Hk name Hin). rewrite Hx in Hk.
    destruct (files name); [done|]. by destruct Hk. }
  exists d', items. split_and!; [|unfold status_against; rewrite Hl; cbn [mbind outcome_bind]; rewrite He;
    cbn [mbind outcome_bind]; by rewrite Hstored|done..].
  unfold WriteComponents. erewrite (bind_run (st_lift _)) by (unfold st_lift; by rewrite Hconv).
  erewrite (bind_run (st_lift _)) by (unfold st_lift; by rewrite Hdrop). exact Hwr.
Qed.
End listing.

(** A body that is inlined in the file of the dataset is loaded from that file
    as a whole, not from the field. *)
Theorem inlined_body_is_whole_file {V} `{L : !ComponentLib V, O : !OS} ds base body (c : @Collection V) d text :
  wd_Body ds = Some body → GetSubcomponent "body" c = None → ReadFile (SourceFile base) d = Ok text →
  ∃ x, GetSubcomponent "body" (expand_dataset false ds base c) = Some x ∧
    ∀ v, DetectEntries (c_Format base) text = Ok v →
      ∃ b st, LoadAndFill d x = (Ok false, BodyComponent b false None st (Some v)).
Proof.
  intros Hb Hnone Htext. unfold expand_dataset. rewrite Hb. cbn [assign_if].
  set (c' := assign_if (wd_Transform ds) _ _ _ _).
  assert (∀ (o : option V) name f (c : @Collection V), name ≠ "body" →
    GetSubcomponent "body" (assign_if o name base f c) = GetSubcomponent "body" c) as Hother.
  { intros [v|] name f c0 Hne; [|done]. cbn [assign_if]. unfold assignField.
    destruct (GetSubcomponent name c0); [by rewrite lookup_put, decide_False|].
    destruct (new_component name _); [by rewrite lookup_put, decide_False|done]. }
  assert (GetSubcomponent "body" c' = None) as Hc'.
  { unfold c'. by rewrite !Hother, lookup_put, decide_False by done. }
  unfold assignField. rewrite Hc'.
  assert (∀ b, new_component (V := V) "body" b = Some (BodyComponent b false None None None)) as -> by done.
  rewrite lookup_put, decide_True by done. eexists. split; [done|].
  intros v Hv. eexists _, _. apply load_body. unfold body_entries. cbn [SourceFile c_Format]. rewrite Htext. exact Hv.
Qed.

(** ** A directory with the five components of a small dataset *)
Module WorkDemo.
(** Values of the [dataset] package, with one field each that is encoded *)
Inductive value : Type := Commit (title : string) | Meta (title : string) | Structure (format : string) | Script (text : string).
Definition text_of (v : value) : string :=
  match v with Commit t => String "c" t | Meta t => String "m" t | Structure t => String "s" t | Script t => String "r" t end.
Definition fields_of (text : string) : outcome (list (string * data)) :=
  match text with
  | String "s" t => Ok [("format", VString t)]
  | String _ t => Ok [("title", VString t)]
  | "" => Error (Errorf "unexpected end of JSON input" [])
  end.
Definition field_of (p : place) : string := match p with PStruct (PString t :: _) _ | PStruct (PBytes (Some t) :: _) _ => t | _ => "" end.
#[local] Instance lib : ComponentLib value := {|
  json_Unmarshal := fields_of;
  yaml_Unmarshal := fields_of;
  fill_env := FillDemo.demo_env;
  value_type k := match k with
    | VCommit => TStruct "dataset.Commit" false [(mkField "Title" "title,omitempty" true, TString)]
    | VMeta => TStruct "dataset.Meta" true [(mkField "Title" "title,omitempty" true, TString); (mkField "meta" "" false, TMap TInterface)]
    | VStructure => TStruct "dataset.Structure" false [(mkField "Format" "format,omitempty" true, TString)]
    end;
  value_in k p := match k with VCommit => Commit (field_of p) | VMeta => Meta (field_of p) | VStructure => Structure (field_of p) end;
  script_type _ := TStruct "dataset.Readme" false
    [(mkField "ScriptBytes" "scriptBytes,omitempty" true, TSlice TByte); (mkField "scriptFile" "" false, TOther "interface")];
  script_in _ p := Script (field_of p);
  dataset_type := TStruct "dataset.Dataset" false [];
  dataset_in _ := no_dataset;
  json_Marshal v := Ok (default "null" (text_of <$> v));
  json_MarshalIndent v := Ok (text_of v);
  json_Marshal_body v := Ok (match v with Some (VString t) => t | _ => "null" end);
  json_Marshal_ds _ := Ok "{}";
  v_IsEmpty v := match v with Commit t | Meta t | Structure t | Script t => bool_decide (t = "") end;
  v_DropDerivedValues v := Ok v;
  ds_DropDerivedValues ds := ds;
  v_ScriptBytes v := match v with Script t => t | _ => "" end;
  v_Format _ := "csv";
  InlineScriptFile v := Ok v;
  Resolver_Get _ := Ok "a,1";
  ReadEntries _ text := Ok (VString text);
  DetectEntries _ text := Ok (VString text);
  SerializeBody v _ := Ok (match v with VString t => t | _ => "" end);
|}.
#[local] Instance os : OS := {| os_fault _ _ := None; os_now _ _ := 7%Z; os_dir_time _ := 0%Z; os_Getwd := "/" |}.

(** The text of a value of one kind is not that of another: a meta's does not
    fill a structure. *)
Example kinds_apart : (fill_value VStructure [("title", VString "t")]).1 ≠ Ok tt.
Proof. by vm_compute. Qed.
Definition is_kind (k : value_kind) (v : value) : Prop :=
  match k, v with VCommit, Commit _ | VMeta, Meta _ | VStructure, Structure _ => True | _, _ => False end.
Lemma one_text key t f : strings_ToLower key = lower_name f →
  field_fits [(key, VString t)] (f, TString) (PString t) ∧ (f_exported f = true → sets_field [(key, VString t)] (f, TString)).
Proof.
  intros Hk. split; [split|].
  - by intros k x [= -> ->]%list_elem_of_singleton.
  - intros Hall. by specialize (Hall key (VString t) (list_elem_of_here _ _) Hk).
  - intros Hex k x _ _ _. by split.
Qed.
Lemma not_named key v f t : strings_ToLower key ≠ lower_name f →
  field_fits [(key, v)] (f, t) (zero_place t) ∧ sets_field [(key, v)] (f, t).
Proof. intros Hk. split; [split; [|done]|]; by intros k x [= -> ->]%list_elem_of_singleton. Qed.
Lemma encodes k v : is_kind k v → ∃ fields p, fields_of (text_of v) = Ok fields ∧ tidy (VMap fields) ∧
  sets (value_type k) (VMap fields) ∧ form (value_type k) p (VMap fields) ∧ value_in k p = v.
Proof.
  assert (∀ name t, name ≠ "" → tidy (VMap [(name, VString t)])) as Htidy.
  { intros name t Hne. split; [apply NoDup_singleton|]. split; [set_solver|]. split; [by right|done]. }
  set (title := mkField "Title" "title,omitempty" true). set (format := mkField "Format" "format,omitempty" true).
  assert (strings_ToLower "title" = lower_name title) as Ht by by vm_compute.
  assert (strings_ToLower "format" = lower_name format) as Hf by by vm_compute.
  intros Hk. destruct k, v; try done.
  - destruct (one_text "title" title0 title Ht) as [Hfit Hset]. eexists _, (PStruct [PString title0] []).
    split_and!; [done|by apply Htidy| |split; [by split|by split]|done].
    apply sets_fields. by repeat constructor; auto.
  - destruct (one_text "title" title0 title Ht) as [Hfit Hset].
    destruct (not_named "title" (VString title0) (mkField "meta" "" false) (TMap TInterface)) as [Hfit2 Hset2]; [by vm_compute|].
    eexists _, (PStruct [PString title0; PMap None] []).
    split_and!; [done|by apply Htidy| |split; [split; [exact Hfit|by split]|by split]|done].
    apply sets_fields. apply Forall_cons. split; [by apply Hset|]. by apply Forall_singleton.
  - destruct (one_text "format" format0 format Hf) as [Hfit Hset]. eexists _, (PStruct [PString format0] []).
    split_and!; [done|by apply Htidy| |split; [by split|by split]|done].
    apply sets_fields. by repeat constructor; auto.
Qed.
#[local] Instance laws : ComponentLaws (V := value).
Proof.
  refine {| drop_derived_value v := v; of_kind := is_kind |}; try done.
  - intros k. destruct k; by eexists _, _, _.
  - intros k v text Hk [= <-]. destruct (encodes k v Hk) as (fields & p & Hf & Ht & Hs & Hform & <-). by eexists _, _, _.
  - intros []; cbn. by rewrite !option_fmap_id.
Defined.
Definition version (body : option string) (path peername : string) : WDataset value :=
  mkWDataset None (Some (Meta "title")) (Some (Structure "schema")) (Some (Script "# hi")) (Some (Script "load()")) None body "/mem/body" path peername "".
Lemma checkable_version path peername : checkable (version (Some "a,1") path peername).
Proof.
  assert (∀ k t, t ≠ "" → script_reads_back k (Script t)) as Hs.
  { intros k t Ht. exists (Script t), (Script t), (String "r" t). split_and!; try done. cbn. by rewrite bool_decide_eq_false_2. }
  split; try done.
  - split; [done|]. right. by eexists.
  - by intros v [= <-].
  - by intros v [= <-].
  - intros v [= <-]. by apply Hs.
  - intros v [= <-]. by apply Hs.
  - intros st _ [= <-]. exists "a,1". split; [done|]. eexists _, _, _, _. split_and!; try done. by left.
  - exists "meta". split; [right; left|by eexists].
Qed.
End WorkDemo.
