(* ===== verification/LinksSpec.v ===== *)
(** * Theorems of linked directories

    A link is found from both ends; creating a dataset in a directory that
    fails leaves the directory as it was, unless it fails at the events. *)
From S2P Require Export Links WorkingDirSpec DsrefFacts RefstoreSpec Instances.

(** ** Link files *)
Definition visible (c : ascii) : bool := in_range 33 126 c.
Definition heads_invisible (ps : list (list ascii)) : bool :=
  forallb (λ p, match p with c :: _ => negb (visible c) | [] => false end) ps.
Lemma first_prefix_visible ps s : heads_invisible ps = true → Forall (λ c, visible c = true) s → first_prefix ps s = None.
Proof.
  intros Hps Hs. induction ps as [|p ps IH]; [done|]. cbn in *. apply andb_true_iff in Hps as [Hp Hps].
  destruct p as [|c p]; [done|]. destruct Hs as [|d s Hd Hs]; cbn in *; [by apply IH|].
  case_decide; [subst; by rewrite Hd in Hp|by apply IH].
Qed.
Lemma trim_left_visible fuel ps s : heads_invisible ps = true → Forall (λ c, visible c = true) s → trim_left fuel ps s = s.
Proof. intros Hps Hs. destruct fuel; [done|]. cbn. by rewrite first_prefix_visible. Qed.
Lemma TrimSpace_visible s : string_all visible s = true → strings_TrimSpace s = s.
Proof.
  intros Hs. unfold strings_TrimSpace, TrimSpace.
  assert (Forall (λ c, visible c = true) (bytes s)) as Hv.
  { apply Forall_forall. intros c Hc%list_elem_of_In. unfold string_all in Hs. rewrite forallb_forall in Hs. by apply Hs. }
  rewrite (trim_left_visible _ white_space) by done.
  rewrite trim_left_visible by (try done; by apply Forall_reverse).
  by rewrite reverse_involutive, of_bytes_bytes.
Qed.

Lemma is_word_visible c : is_word c = true → visible c = true.
Proof. by destruct c as [[] [] [] [] [] [] [] []]; vm_compute. Qed.
Lemma valid_word_visible s : valid_word s → string_all visible s = true.
Proof.
  destruct s as [|c s]; [done|]. intros [Hc Hs]. unfold string_all. cbn [bytes forallb]. apply andb_true_iff. split.
  - apply is_word_visible. unfold is_word. by rewrite Hc.
  - by eapply string_all_impl, Hs; apply is_word_visible.
Qed.

Definition valid_names (ref : Ref) : Prop :=
  valid_word (ref_Username ref) ∧ valid_word (ref_Name ref) ∧ has_upper (ref_Name ref) = false.
Definition named (ref : Ref) : Ref := mkRef "" (ref_Username ref) "" (ref_Name ref) "".
Lemma refText_named ref : valid_names ref → refText (set_ref_Path "" ref) = Ref_String (named ref).
Proof.
  intros (_ & Hn & _). unfold refText, Ref_String, Alias, Human. cbn. rewrite (proj2 (nonempty_true _)) by by apply valid_word_nonempty.
  by rewrite !string_app_nil_r.
Qed.

(** ** A link from both ends *)
Section links.
Context `{OpDigest, BookCipher, Entropy} {F P : Type} `{Filesystem F, Publisher P, LinkPublisher P}.
Context `{ProfileIDs, ProfileStore PS} (ps : PS) `{!OS}.

Lemma linkfile_reads dir ref d t : valid_names ref → refused "open" (filepath_Join [dir; RefLinkHiddenFilename]) = Ok tt →
  d !! filepath_Join [dir; RefLinkHiddenFilename] = Some (File (refText (set_ref_Path "" ref)) t) →
  GetLinkedFilesysRef dir d = Some (named ref).
Proof.
  intros Hn Href Hat. unfold GetLinkedFilesysRef, linkfile_Read, ReadFile.
  rewrite Href. cbn [mbind outcome_bind]. rewrite Hat. cbn [mbind outcome_bind].
  rewrite refText_named by done. destruct Hn as (Hu & Hnm & Hup). rewrite TrimSpace_visible.
  - unfold Parse. by rewrite parse_print by (split; [by left|done|by left]).
  - unfold Ref_String, Alias, Human. cbn. rewrite (proj2 (nonempty_true _)) by by apply valid_word_nonempty.
    pose proof (valid_word_visible _ Hu) as Hvu. pose proof (valid_word_visible _ Hnm) as Hvn. unfold string_all in *.
    change (String "/" (ref_Name ref)) with ("/" +:+ ref_Name ref).
    by rewrite !string_app_nil_r, !bytes_app, !forallb_app, Hvu, Hvn.
Qed.
Lemma WriteFile_disk path text d r d' : WriteFile path text d = (r, d') →
  match r with Ok _ => ∃ t, d' = <[path := File text t]> d | _ => d' = d end.
Proof.
  unfold WriteFile. destruct (refused _ _) as [[]|e|]; [|by intros [= <- <-]..].
  destruct (d !! path) as [[]|]; [|by intros [= <- <-]|destruct (is_dir _); [|by intros [= <- <-]]];
    intros [= <- <-]; by eexists.
Qed.
Lemma linkfile_written dir ref d d' f : dir ≠ "" → WriteHiddenInDir dir (set_ref_Path "" ref) d = (Ok f, d') →
  f = filepath_Join [dir; RefLinkHiddenFilename] ∧ refused "open" f = Ok tt ∧
  ∃ t, d' = <[f := File (refText (set_ref_Path "" ref)) t]> d.
Proof.
  intros Hd. unfold WriteHiddenInDir, WriteHiddenFile. rewrite Base_Join; [|done|by apply (bool_decide_unpack _)].
  intros (u & d1 & Hw & [= <- <-])%stM_bind_Ok. revert Hw.
  change (strings_HasPrefix _ _) with true. cbn iota. intros Hw.
  assert (refused "open" (filepath_Join [dir; RefLinkHiddenFilename]) = Ok tt) as Href.
  { unfold WriteFile in Hw. by destruct (refused _ _) as [[]|e|]. }
  apply WriteFile_disk in Hw as [t ->]. eauto.
Qed.

(** Identifiers of profiles that are read back from their text form *)
Definition ids_read_back (r : MemRefstore) : Prop :=
  Forall (λ ref, ID_String (dr_ProfileID ref) ≠ "" ∧ IDB58DecodeOrEmpty (ID_String (dr_ProfileID ref)) = dr_ProfileID ref) r.

Lemma Match_same old put get : dr_Peername put = dr_Peername old → dr_ProfileID put = dr_ProfileID old →
  dr_Name put = dr_Name old → dr_Path put = dr_Path old → Match put get = Match old get.
Proof. unfold Match. by intros -> -> -> ->. Qed.

(** What is stored for a reference, with another directory, is found by what
    found the reference, though one before it may be the one it replaces. *)
Lemma put_found get r k old dir r' : ids_read_back r → r !! k = Some old → Match old get = true →
  (∀ j x, j < k → r !! j = Some x → Match x get = false) →
  PutVersionInfoShim ps (set_FSIPath dir (ConvertToVersionInfo old)) r = Ok r' →
  GetRef get r' = Ok (RefFromVersionInfo (set_FSIPath dir (ConvertToVersionInfo old))).
Proof.
  intros Hids Hk Hm Hmin. pose proof (proj1 (Forall_lookup _ _) Hids k old Hk) as [Hne Hid]. unfold PutVersionInfoShim.
  rewrite decide_False by (by intros [? _]). set (put := RefFromVersionInfo _).
  assert (∀ get, Match put get = Match old get) as Hsame by (intros; by apply Match_same).
  intros [(j & x & Hj & Hx & -> & Hbefore)|[Hnone _]]%PutRef_cases.
  - assert (j ≤ k) as Hle.
    { destruct (decide (j ≤ k)) as [|Hlt]; [done|]. specialize (Hbefore k old ltac:(lia) Hk).
      by rewrite <- Hsame, Match_refl in Hbefore. }
    unfold GetRef. rewrite (proj2 (find_index_from_Some _ 0 _ j put)); [done|]. exists j. split_and!; [done| | |].
    + apply list_lookup_insert_eq. by eapply lookup_lt_Some.
    + by rewrite Hsame.
    + intros m y Hmj. rewrite list_lookup_insert_ne by lia. intros Hy. apply (Hmin m y); [lia|done].
  - rewrite Forall_forall in Hnone. specialize (Hnone old (list_elem_of_lookup_2 _ _ _ Hk)).
    by rewrite <- Hsame, Match_refl in Hnone.
Qed.
Lemma GetRef_index get r old : GetRef get r = Ok old →
  ∃ k, r !! k = Some old ∧ Match old get = true ∧ ∀ j x, j < k → r !! j = Some x → Match x get = false.
Proof.
  unfold GetRef. destruct (find_index_from _ 0 r) as [[i x]|] eqn:Hi; [|done]. intros [= ->].
  apply find_index_from_Some in Hi as (k & -> & Hk & Hm & Hmin). eauto.
Qed.
Lemma set_FSIPath_found ref r vi dir r' : ids_read_back r → GetVersionInfoShim ref r = Ok vi →
  PutVersionInfoShim ps (set_FSIPath dir vi) r = Ok r' →
  ∃ vi', GetVersionInfoShim ref r' = Ok vi' ∧ vi_FSIPath vi' = dir.
Proof.
  intros Hids. unfold GetVersionInfoShim. destruct (GetRef _ r) as [old|e|] eqn:Hget; [|done..]. intros [= <-] Hput.
  apply GetRef_index in Hget as (k & Hk & Hm & Hmin). rewrite (put_found _ _ k old dir r') by done.
  by eexists.
Qed.

(** A stored reference that is the only one with its names *)
Definition goes_by (r : MemRefstore) (ref : Ref) (old : Refstore.DatasetRef) : Prop :=
  GetRef (RefFromDsref ref) r = Ok old ∧ Match old (RefFromDsref (named ref)) = true ∧
  ∀ x, x ∈ r → Match x (RefFromDsref (named ref)) = true → x = old.
Lemma named_found ref r old dir r' : ids_read_back r → goes_by r ref old →
  dr_FSIPath old = dir ∧ r' = r ∨ PutVersionInfoShim ps (set_FSIPath dir (ConvertToVersionInfo old)) r = Ok r' →
  ∃ vi, GetVersionInfoShim (named ref) r' = Ok vi ∧ vi_Path vi = dr_Path old ∧ vi_FSIPath vi = dir.
Proof.
  intros Hids (Hget & Hnamed & Honly). apply GetRef_index in Hget as (k & Hk & Hm & Hmin).
  assert (∀ j x, j < k → r !! j = Some x → Match x (RefFromDsref (named ref)) = false) as Hmin'.
  { intros j x Hj Hx. destruct (Match x _) eqn:Hmx; [|done]. rewrite (Honly x) in Hx; [|by eapply list_elem_of_lookup_2|done].
    by rewrite (Hmin j old Hj Hx) in Hm. }
  intros [[Hdir ->]|Hput]; unfold GetVersionInfoShim.
  - unfold GetRef. rewrite (proj2 (find_index_from_Some _ 0 r k old)) by eauto. by eexists.
  - rewrite (put_found _ _ k old dir r') by done. by eexists.
Qed.

Lemma on_refs_run {A} (m : MemRefstore → outcome (A * MemRefstore)) w a (w' : @FSI _ F P) : on_refs m w = (Ok a, w') →
  ∃ r, m (fsi_refs w) = Ok (a, r) ∧ w' = mkFSI r (fsi_book w) (fsi_disk w).
Proof. unfold on_refs. destruct (m (fsi_refs w)) as [[x r]|e|]; intros [= <- <-]; by eexists. Qed.
Lemma on_bus_run {A} (m : stM P A) w r (w' : @FSI _ F P) : on_bus m w = (r, w') →
  fsi_refs w' = fsi_refs w ∧ fsi_disk w' = fsi_disk w.
Proof. unfold on_bus, on_fsi_book, st_zoom. destruct (m _). by intros [= _ <-]. Qed.
Lemma or_undo_run {A} u (m : stM (@FSI _ F P) A) k w vi u' w' : or_undo u m k w = ((Ok vi, u'), w') →
  ∃ a w1, m w = (Ok a, w1) ∧ k a w1 = ((Ok vi, u'), w').
Proof. unfold or_undo. destruct (m w) as [[a|e|] w1]; [eauto|done..]. Qed.

Lemma EnsureRefNotLinked_same ref (w : @FSI _ F P) r w' : EnsureRefNotLinked ref w = (r, w') → w' = w.
Proof. unfold EnsureRefNotLinked. repeat case_match; by intros [= _ <-]. Qed.

Lemma ModifyLinkDirectory_run dir ref w vi (w' : @FSI _ F P) : ModifyLinkDirectory ps dir ref w = (Ok vi, w') →
  fsi_disk w' = fsi_disk w ∧ ∃ old, GetVersionInfoShim ref (fsi_refs w) = Ok old ∧
    (vi_FSIPath old = dir ∧ fsi_refs w' = fsi_refs w ∨ PutVersionInfoShim ps (set_FSIPath dir old) (fsi_refs w) = Ok (fsi_refs w')).
Proof.
  unfold ModifyLinkDirectory, get_info. intros (old & w1 & Hget & Hrest)%stM_bind_Ok.
  apply on_refs_run in Hget as (r & Hr & ->).
  destruct (GetVersionInfoShim ref (fsi_refs w)) as [vi0|e|] eqn:Hvi; [|done..]. injection Hr as <- <-.
  case_decide as Hdir.
  - injection Hrest as <- <-. split; [done|]. exists vi0. by split; [|left].
  - apply stM_bind_Ok in Hrest as (u & w2 & Hput & [= <- <-]). unfold put_info in Hput. apply on_refs_run in Hput as (r & Hr & ->).
    cbn [fsi_refs fsi_disk] in *. destruct (PutVersionInfoShim _ _ _) as [r'|e|] eqn:Hp; [|done..].
    injection Hr as _ ->. split; [done|]. exists vi0. by split; [|right].
Qed.
Lemma CreateLink_run dir ref (w : @FSI _ F P) vi u w' : dir ≠ "" → CreateLink ps dir ref w = ((Ok vi, u), w') →
  let link := filepath_Join [dir; RefLinkHiddenFilename] in
  u = RemoveLinkAndRef link ref ∧ refused "open" link = Ok tt ∧
  (∃ t, fsi_disk w' = <[link := File (refText (set_ref_Path "" ref)) t]> (fsi_disk w)) ∧
  ∃ old, GetVersionInfoShim ref (fsi_refs w) = Ok old ∧
    (vi_FSIPath old = dir ∧ fsi_refs w' = fsi_refs w ∨ PutVersionInfoShim ps (set_FSIPath dir old) (fsi_refs w) = Ok (fsi_refs w')).
Proof.
  intros Hd. unfold CreateLink.
  intros (? & w1 & ->%EnsureRefNotLinked_same & Hk)%or_undo_run. apply or_undo_run in Hk as (vi1 & w2 & Hdir & Hk).
  apply ModifyLinkDirectory_run in Hdir as [Hdisk2 Hfound]. apply or_undo_run in Hk as (f & w3 & Hfile & Hk).
  apply or_undo_run in Hk as (? & w4 & [Hr4 Hd4]%on_bus_run & Hk). apply or_undo_run in Hk as (? & w5 & [Hr5 Hd5]%on_bus_run & Hk).
  injection Hk as _ <- <-. unfold ModifyLinkReference, on_fsi_disk, st_zoom in Hfile.
  destruct (WriteHiddenInDir _ _ _) as [[f'|e|] d3] eqn:Hw; [|done..]. injection Hfile as <- <-.
  apply linkfile_written in Hw as (-> & Href & t & Hd3); [|done]. rewrite Hr5, Hr4, Hd5, Hd4. cbn [fsi_refs fsi_disk].
  split_and!; [done..| |done]. exists t. by rewrite <- Hdisk2.
Qed.

(** C11: a link is found from both ends. When a link is created, for a reference
    of valid names among references whose identifiers read back, the hidden file
    in the directory reads as the reference, the reference is stored with the
    directory, whatever it was linked to before, and no other file changed. *)
Theorem CreateLink_links dir ref (w : @FSI _ F P) vi u w' : dir ≠ "" → valid_names ref → ids_read_back (fsi_refs w) →
  CreateLink ps dir ref w = ((Ok vi, u), w') →
  GetLinkedFilesysRef dir (fsi_disk w') = Some (named ref) ∧
  (∃ vi', GetVersionInfoShim ref (fsi_refs w') = Ok vi' ∧ vi_FSIPath vi' = dir) ∧
  u = RemoveLinkAndRef (filepath_Join [dir; RefLinkHiddenFilename]) ref ∧
  (∀ path, path ≠ filepath_Join [dir; RefLinkHiddenFilename] → fsi_disk w' !! path = fsi_disk w !! path).
Proof.
  intros Hd Hn Hids Hrun. apply CreateLink_run in Hrun as (-> & Href & [t Hdisk] & old & Hold & Hrefs); [|done].
  split_and!; [| |done|].
  - eapply linkfile_reads; [done..|]. by rewrite Hdisk, lookup_insert_eq.
  - destruct Hrefs as [[Hp ->]|Hput]; [by exists old|by eapply set_FSIPath_found].
  - intros path Hp. by rewrite Hdisk, lookup_insert_ne.
Qed.

(** ** Undoing *)
Definition disk_undo (d : Disk) (u : undo) : Disk :=
  match u with
  | UndoMkdir path => (RemoveAll path d).2
  | UndoLog _ => d
  | UndoLink (RemoveLinkAndRef path _) => (Remove path d).2
  | UndoLink _ => d
  | UndoWrite file => if decide (file = "") then d else (Remove file d).2
  end.

Lemma logged_disk (m : stM Disk unit) (w : @FSI _ F P) :
  fsi_disk (logged (on_fsi_disk m) w).2 = (m (fsi_disk w)).2 ∧
  ((m (fsi_disk w)).1 ≠ Panic → (logged (on_fsi_disk m) w).1 = Ok tt).
Proof. unfold logged, on_fsi_disk, st_zoom. by destruct (m _) as [[[]|e|] d]. Qed.
Lemma logged_no_error {S} (m : stM S unit) w e w' : logged m w ≠ (Error e, w').
Proof. unfold logged. by destruct (m w) as [[|?|] ?]. Qed.
Lemma logged_same (m : stM (@FSI _ F P) unit) w : fsi_disk (m w).2 = fsi_disk w → fsi_disk (logged m w).2 = fsi_disk w.
Proof. unfold logged. by destruct (m w) as [[|e|] w']. Qed.
Lemma delete_info_disk ref (w : @FSI _ F P) : fsi_disk (delete_info ps ref w).2 = fsi_disk w.
Proof. unfold delete_info, on_refs. by repeat case_match. Qed.
Lemma Remove_no_panic path d : (Remove path d).1 ≠ Panic.
Proof. unfold Remove, refused. repeat case_match; by simplify_eq. Qed.

Lemma run_undo_disk u (w : @FSI _ F P) : fsi_disk (run_undo ps u w).2 = disk_undo (fsi_disk w) u.
Proof.
  destruct u as [path|ref|[|ref|path ref]|file]; cbn [run_undo disk_undo run_link_undo].
  - apply logged_disk.
  - apply logged_same. unfold on_fsi_book, st_zoom. by destruct (Book_RemoveLog _ _).
  - done.
  - apply logged_same, delete_info_disk.
  - destruct (logged_disk (Remove path) w) as [Hd Hok]. specialize (Hok (Remove_no_panic _ _)). rewrite <- Hd.
    destruct (logged (on_fsi_disk (Remove path)) w) as [r w1] eqn:Hw. cbn [fst snd] in *. subst r.
    rewrite (bind_run _ _ _ tt w1) by done. apply logged_same, delete_info_disk.
  - case_decide; [done|apply logged_disk].
Qed.
Lemma run_undos_disk us (w : @FSI _ F P) : (run_undos ps us w).1 ≠ Panic →
  fsi_disk (run_undos ps us w).2 = foldl disk_undo (fsi_disk w) us.
Proof.
  revert w. induction us as [|u us IH]; intros w; [done|]. cbn [run_undos foldl]. rewrite <- run_undo_disk.
  assert (∀ e w1, run_undo ps u w ≠ (Error e, w1)) as Hne.
  { intros e w1. assert (∀ m : stM (@FSI _ F P) unit, logged m w ≠ (Error e, w1)) as Hl.
    { intros m. unfold logged. by destruct (m w) as [[|?|] ?]. }
    destruct u as [path|ref|[|ref|path ref]|file]; cbn [run_undo run_link_undo]; try apply logged_no_error;
      [done| |by case_decide; [|apply logged_no_error]].
    unfold mbind, stM_bind. destruct (logged (on_fsi_disk (Remove path)) w) as [[a|e'|] w2] eqn:Hw; [|by apply logged_no_error in Hw|done].
    unfold logged. by destruct (delete_info ps ref w2) as [[|?|] ?]. }
  unfold mbind, stM_bind. destruct (run_undo ps u w) as [[[]|e|] w1]; [apply IH|by destruct (Hne e w1)|done].
Qed.

(** What holds between the steps: undoing what was done so far restores the
    disk, and some names are still free in the directory. *)
Definition restores (d0 : Disk) (s : @FSI _ F P * list undo) : Prop := foldl disk_undo (fsi_disk s.1) s.2 = d0.
Definition holds (d0 : Disk) (dir : string) (names : list string) (s : @FSI _ F P * list undo) : Prop :=
  restores d0 s ∧ Forall (λ name, fsi_disk s.1 !! filepath_Join [dir; name] = None) names.
Definition post (d0 : Disk) (Q : @FSI _ F P * list undo → Prop) {A} (r : outcome A) (s : @FSI _ F P * list undo) : Prop :=
  match r with Ok _ => Q s | _ => restores d0 s end.

Lemma wp_run {S A B} (m : stM S A) (f : A → stM S B) Q s a s' : m s = (Ok a, s') → wp (f a) Q s' → wp (m ≫= f) Q s.
Proof. unfold wp. by intros ->%(bind_run _ f). Qed.
Lemma post_bind {A B} d0 Q1 Q2 (m : stM (@FSI _ F P * list undo) A) (f : A → stM _ B) s :
  wp m (post d0 Q1) s → (∀ a s, Q1 s → wp (f a) (post d0 Q2) s) → wp (m ≫= f) (post d0 Q2) s.
Proof. intros Hm Hf. apply wp_bind. eapply wp_mono; [|exact Hm]. intros [a|e|] s' Hs; [by apply Hf|done..]. Qed.
Lemma post_same {A} d0 dir ns (m : stM (@FSI _ F P * list undo) A) s : holds d0 dir ns s →
  fsi_disk (m s).2.1 = fsi_disk s.1 → (m s).2.2 = s.2 → wp m (post d0 (holds d0 dir ns)) s.
Proof.
  intros [Hr Hf] Hd Hu. unfold wp, post, holds, restores in *. rewrite Hd, Hu. by destruct (m s).1.
Qed.
Lemma post_fail {A} d0 Q dir ns e s : holds d0 dir ns s → wp (st_fail (A := A) e) (post d0 Q) s.
Proof. by intros [? _]. Qed.
Lemma post_lift {A} d0 dir ns (m : outcome A) s : holds d0 dir ns s → wp (st_lift m) (post d0 (holds d0 dir ns)) s.
Proof. intros Hs. by apply post_same. Qed.
Lemma post_book {A} d0 dir ns (m : stM (@Book _ F P) A) s : holds d0 dir ns s →
  wp (in_fsi (on_fsi_book m)) (post d0 (holds d0 dir ns)) s.
Proof.
  intros Hs. apply post_same; [done|..]; unfold in_fsi, on_fsi_book, st_zoom; destruct (m _) as [r b]; done.
Qed.
Lemma post_put d0 dir ns vi s : holds d0 dir ns s → wp (in_fsi (put_info ps vi)) (post d0 (holds d0 dir ns)) s.
Proof.
  intros Hs. apply post_same; [done|..]; unfold in_fsi, put_info, on_refs, st_zoom;
    by destruct (PutVersionInfoShim _ _ _).
Qed.
Lemma post_undo_log d0 dir ns ref s : holds d0 dir ns s → wp (undo_with (UndoLog ref)) (post d0 (holds d0 dir ns)) s.
Proof. done. Qed.

(** Removing a file is not refused; whatever else is may be. *)
Definition removals_work : Prop := ∀ path, os_fault "remove" path = None.
Lemma Remove_insert path t m d : removals_work → d !! path = None → (Remove path (<[path := File t m]> d)).2 = d.
Proof. intros Hno Hd. unfold Remove, refused. rewrite Hno, lookup_insert_eq. cbn [snd]. by apply delete_insert_id. Qed.
Lemma post_written d0 dir ns name t m w us w' u : removals_work → dir ≠ "" → NoDup (name :: ns) → Forall plain (name :: ns) →
  holds d0 dir (name :: ns) (w, us) → fsi_disk w' = <[filepath_Join [dir; name] := File t m]> (fsi_disk w) →
  (∀ d, disk_undo d u = (Remove (filepath_Join [dir; name]) d).2) → holds d0 dir ns (w', u :: us).
Proof.
  intros Hno Hd [Hni _]%NoDup_cons [Hp Hps]%Forall_cons [Hr [Hfree Hf]%Forall_cons] Hw' Hu.
  unfold holds, restores in *. cbn [fst snd foldl] in *. rewrite Hu, Hw'. split; [by rewrite Remove_insert|].
  rewrite Forall_forall in Hf, Hps |- *. intros x Hx. rewrite lookup_insert_ne; [by apply Hf|].
  intros ->%Join_inj; [done|done..|by apply Hps].
Qed.

(** Publishing that does not fail *)
Definition publishers_answer : Prop :=
  (∀ dir user name (p : P), (PublishLink dir user name p).1 = Ok tt) ∧ (∀ ev payload (p : P), (Publish ev payload p).1 = Ok tt).
Lemma on_bus_ok {A} (m : stM P A) a (w : @FSI _ F P) : (m (b_publisher (fsi_book w))).1 = Ok a →
  ∃ w', on_bus m w = (Ok a, w') ∧ fsi_disk w' = fsi_disk w.
Proof. unfold on_bus, on_fsi_book, st_zoom. destruct (m _) as [r p]. cbn. intros ->. by eexists. Qed.

Lemma CreateLink_disk dir ref (w : @FSI _ F P) r u w' : dir ≠ "" → publishers_answer → CreateLink ps dir ref w = ((r, u), w') →
  match r with
  | Ok _ => u = RemoveLinkAndRef (filepath_Join [dir; RefLinkHiddenFilename]) ref ∧
      ∃ text t, fsi_disk w' = <[filepath_Join [dir; RefLinkHiddenFilename] := File text t]> (fsi_disk w)
  | _ => fsi_disk w' = fsi_disk w
  end.
Proof.
  intros Hd [Hlink Hpub]. unfold CreateLink, or_undo at 1.
  destruct (EnsureRefNotLinked ref w) as [r1 w1] eqn:He. apply EnsureRefNotLinked_same in He as ->.
  destruct r1 as [[]|e|]; [|by intros [= <- _ <-]..]. unfold or_undo at 1.
  assert (fsi_disk (ModifyLinkDirectory ps dir ref w).2 = fsi_disk w) as Hmod.
  { unfold ModifyLinkDirectory, get_info, put_info, on_refs, mbind, stM_bind. by repeat case_match; simplify_eq. }
  destruct (ModifyLinkDirectory ps dir ref w) as [[vi|e|] w2]; cbn [snd] in Hmod; [|by intros [= <- _ <-]..].
  unfold or_undo at 1, ModifyLinkReference, on_fsi_disk, st_zoom, WriteHiddenInDir, WriteHiddenFile.
  rewrite Base_Join by (done || by apply (bool_decide_unpack _)). change (strings_HasPrefix _ _) with true. cbn iota.
  set (path := filepath_Join _). set (text := refText _). unfold mbind at 1, stM_bind at 1.
  destruct (WriteFile path text (fsi_disk w2)) as [[[]|e|] d] eqn:Hw; apply WriteFile_disk in Hw; cbn iota beta;
    [|intros [= <- _ <-]; cbn [fsi_disk]; congruence..].
  destruct Hw as [t ->]. unfold or_undo at 1. cbn [mret stM_ret].
  match goal with |- context [on_bus ?m ?w] => destruct (on_bus_ok m tt w) as (w4 & -> & Hd4) end; [apply Hlink|].
  unfold or_undo at 1.
  match goal with |- context [on_bus ?m ?w] => destruct (on_bus_ok m tt w) as (w5 & -> & Hd5) end; [apply Hpub|].
  intros [= <- <- <-].
  rewrite Hd5, Hd4, Hmod. cbn [fsi_disk]. eauto.
Qed.
Lemma post_create_link d0 dir ns ref s : removals_work → dir ≠ "" → publishers_answer →
  NoDup (RefLinkHiddenFilename :: ns) → Forall plain (RefLinkHiddenFilename :: ns) →
  holds d0 dir (RefLinkHiddenFilename :: ns) s → wp (create_link ps dir ref) (post d0 (holds d0 dir ns)) s.
Proof.
  intros Hno Hd Hpub Hnd Hp Hs. unfold wp, create_link. destruct s as [w us]. cbn [fst snd].
  destruct (CreateLink ps dir ref w) as [[r u] w'] eqn:Hc. apply CreateLink_disk in Hc; [|done..].
  destruct r as [vi|e|]; cbn [post fst snd]; [|destruct Hs as [Hr _]; unfold restores in *; cbn [fst snd] in *; by rewrite Hc..].
  destruct Hc as (-> & text & t & Hw'). by eapply post_written.
Qed.

(** ** Writing the components of a new dataset *)
Context {V : Type} `{L : !ComponentLib V} (empty_meta : V) (new_structure : string → bool → V)
  (detect_structure : string → string → outcome V) (resolve : Ref → @FSI _ F P → outcome Ref).

Lemma WriteTo_value dir k v d :
  match WriteTo dir (ValueComponent k zero_base (Some v) false, d) with
  | (Ok f, (_, d')) => f = "" ∧ d' = d ∨ f = filepath_Join [dir; value_file k] ∧ ∃ text t, d' = <[f := File text t]> d
  | (_, (_, d')) => d' = d
  end.
Proof.
  assert (WriteTo dir (ValueComponent k zero_base (Some v) false, d) =
    on_disk (write_loaded dir (ValueComponent k (set_loaded zero_base) (Some v) false))
      (ValueComponent k (set_loaded zero_base) (Some v) false, d)) as -> by by destruct k.
  unfold on_disk, st_zoom. cbn [fst snd write_loaded]. destruct (match k with VMeta => false | _ => v_IsEmpty v end); [by left|].
  unfold writeComponentFile. unfold mbind at 1, stM_bind at 1. cbn [st_lift].
  unfold st_lift. destruct (json_MarshalIndent v) as [text|e|]; [|done..]. unfold mbind, stM_bind.
  destruct (WriteFile _ text d) as [[[]|e|] d'] eqn:Hw; apply WriteFile_disk in Hw; [|done..].
  destruct Hw as [t ->]. right. eauto.
Qed.
Lemma WriteTo_body dir b r f st v d : match WriteTo dir (BodyComponent b r f (Some st) v, d) with
  | (Ok _, _) => True | (_, (_, d')) => d' = d end.
Proof.
  unfold WriteTo, load_here, mbind, stM_bind, st_get. cbn [fst snd LoadAndFill].
  assert (∀ (x : Component (V := V)) v', match on_disk (write_loaded dir (BodyComponent b r f (Some st) v')) (x, d) with
     | (Ok _, _) => True | (_, (_, d')) => d' = d end) as Hwr.
  { intros x v'. unfold on_disk, st_zoom, write_loaded, mbind, stM_bind, st_lift. cbn [fst snd].
    destruct (SerializeBody _ _) as [text|e|]; [|done..].
    destruct (WriteFile _ text d) as [[[]|e|] d'] eqn:Hw; apply WriteFile_disk in Hw; done. }
  destruct v as [v|]; [apply Hwr|]. destruct (body_entries d b r f (Some st)) as [v|e|]; [apply Hwr|done..].
Qed.

Lemma init_dataset_parts format bodyPath d ds c : init_dataset empty_meta new_structure detect_structure format bodyPath d = Ok ds →
  ConvertDatasetToComponents ds = Ok c →
  (∀ name, name ∈ ["commit"; "readme"; "viz"; "transform"] → GetSubcomponent name c = None) ∧
  GetSubcomponent "meta" c = Some (ValueComponent VMeta zero_base (Some empty_meta) false) ∧
  (∃ st, GetSubcomponent "structure" c = Some (ValueComponent VStructure zero_base (Some st) false)) ∧
  ∃ b r f st v, GetSubcomponent "body" c = Some (BodyComponent b r f (Some st) v).
Proof.
  intros Hds. assert (∃ st body path, (body ≠ None ∨ path ≠ "") ∧
    ds = mkWDataset None (Some empty_meta) (Some st) None None body None path "" "" "") as (st & body & path & Hb & ->).
  { unfold init_dataset in Hds. case_decide as Hp; [injection Hds as <-; eexists _, _, _; split; [|done]; by left|].
    destruct (ReadFile bodyPath d) as [text|e|]; [|done..]. cbn in Hds.
    destruct (detect_structure format text) as [st|e|]; [|done..]. injection Hds as <-.
    eexists _, _, _. split; [|done]. by right. }
  unfold ConvertDatasetToComponents, body_of, GetSubcomponent. cbn [wd_Meta wd_Structure wd_Commit wd_Readme wd_Transform wd_Body
    wd_BodyPath wd_BodyFile add_some].
  assert (∃ b r f st' v, (match body with
    | Some body => Ok (Some (BodyComponent (with_format (v_Format st)) true None (Some st) (Some body)))
    | None => if decide (path = "") then Ok None else
        Ok (Some (BodyComponent (mkBase "" "" 0 path false (v_Format st)) true None (Some st) None))
    end) = Ok (Some (BodyComponent (V := V) b r f (Some st') v))) as (b & r & f & st' & v & ->).
  { destruct body; [by eexists _, _, _, _, _|]. destruct Hb as [|Hb]; [done|]. rewrite decide_False by done.
    by eexists _, _, _, _, _. }
  cbn [mbind outcome_bind]. intros [= <-]. cbn [Subcomponents add_some]. split_and!.
  - intros name Hname. repeat (apply elem_of_cons in Hname as [->|Hname]; [by simplify_map_eq|]). by apply elem_of_nil in Hname.
  - by simplify_map_eq.
  - eexists. by simplify_map_eq.
  - eexists _, _, _, _, _. by simplify_map_eq.
Qed.

Lemma post_no_component d0 dir Q name names (c : @Collection V) (s : @FSI _ F P * list undo) : GetSubcomponent name c = None →
  wp (init_components dir c names) (post d0 Q) s → wp (init_components dir c (name :: names)) (post d0 Q) s.
Proof. intros Hn. unfold wp. cbn [init_components]. by rewrite Hn. Qed.
Lemma post_value_component d0 dir ns Q name names k v (c : @Collection V) (s : @FSI _ F P * list undo) :
  removals_work → dir ≠ "" → NoDup (value_file k :: ns) → Forall plain (value_file k :: ns) →
  GetSubcomponent name c = Some (ValueComponent k zero_base (Some v) false) → holds d0 dir (value_file k :: ns) s →
  (∀ s, holds d0 dir ns s → wp (init_components dir c names) (post d0 Q) s) →
  wp (init_components dir c (name :: names)) (post d0 Q) s.
Proof.
  intros Hno Hd Hnd Hp Hn Hs Hrest. cbn [init_components]. rewrite Hn. destruct s as [w us]. unfold wp, mbind, stM_bind, in_fsi, on_fsi_disk, st_zoom.
  cbn [fst snd]. pose proof (WriteTo_value dir k v (fsi_disk w)) as Hw.
  destruct (WriteTo _ _) as [[f|e|] [x d']]; cbn [fst snd]; [|destruct Hs as [Hr _]; unfold restores in *; cbn [post fst snd] in *; by subst..].
  apply Hrest. cbn [fst snd]. destruct Hw as [[-> ->]|(-> & text & t & ->)].
  - destruct Hs as [Hr [_ Hf]%Forall_cons]. by split.
  - eapply post_written; [done..|reflexivity|]. intros d. cbn [disk_undo]. rewrite decide_False; [done|].
    destruct (Join_name dir (value_file k) Hd) as [s [->| ->]]; [by apply Forall_cons in Hp as [? _]| |by destruct k].
    intros [_ [? _]%string_app_eq_nil]%string_app_eq_nil. done.
Qed.
(** The body is the last component: nothing fails after it was written. *)
Lemma post_body_component d0 dir ns b r f st v (c : @Collection V) (s : @FSI _ F P * list undo) :
  GetSubcomponent "body" c = Some (BodyComponent b r f (Some st) v) → holds d0 dir ns s →
  wp (init_components dir c ["body"]) (post d0 (λ _, True)) s.
Proof.
  intros Hn [Hr _]. cbn [init_components]. rewrite Hn. destruct s as [w us]. unfold wp, mbind, stM_bind, in_fsi, on_fsi_disk, st_zoom.
  cbn [fst snd]. pose proof (WriteTo_body dir b r f st v (fsi_disk w)) as Hw.
  destruct (WriteTo _ _) as [[g|e|] [x d']]; cbn [fst snd]; [done|cbn [post]; unfold restores in *; cbn [fst snd] in *; by subst..].
Qed.

Lemma post_components d0 dir format bodyPath d ds c (s : @FSI _ F P * list undo) : removals_work → dir ≠ "" →
  init_dataset empty_meta new_structure detect_structure format bodyPath d = Ok ds → ConvertDatasetToComponents ds = Ok c →
  holds d0 dir ["meta.json"; "structure.json"] s → wp (init_components dir c AllSubcomponentNames) (post d0 (λ _, True)) s.
Proof.
  intros Hno Hd Hds Hc Hs. destruct (init_dataset_parts _ _ _ _ _ Hds Hc) as (Hnone & Hm & [st Hst] & b & r & f & st' & v & Hb).
  unfold AllSubcomponentNames. apply post_no_component; [apply Hnone; set_solver|].
  eapply (post_value_component _ _ ["structure.json"] _ _ _ VMeta);
    [done|done|apply (bool_decide_unpack _); by vm_compute|apply (bool_decide_unpack _); by vm_compute|exact Hm|exact Hs|].
  intros s1 Hs1. eapply (post_value_component _ _ [] _ _ _ VStructure);
    [done|done|apply (bool_decide_unpack _); by vm_compute|apply (bool_decide_unpack _); by vm_compute|exact Hst|exact Hs1|].
  intros s2 Hs2. do 3 (apply post_no_component; [apply Hnone; set_solver|]). by eapply post_body_component.
Qed.

Lemma free_names dir bodyPath (w : @FSI _ F P) : CanInitDatasetWorkDir dir bodyPath (fsi_disk w) = Ok tt →
  Forall (λ name, fsi_disk w !! filepath_Join [dir; name] = None) [RefLinkHiddenFilename; "meta.json"; "structure.json"].
Proof.
  unfold CanInitDatasetWorkDir, ExistsInDir. 
  assert (∀ path d, stat_exists path d = false → d !! path = None) as Hno by (unfold stat_exists; intros ??; by case_match).
  destruct (_ || stat_exists (filepath_Join [dir; RefLinkHiddenFilename]) _) eqn:Hl; [done|]. apply orb_false_iff in Hl as [_ Hl].
  destruct (stat_exists (filepath_Join [dir; "meta.json"]) _) eqn:Hm; [done|].
  destruct (stat_exists (filepath_Join [dir; "structure.json"]) _) eqn:Hs; [done|]. intros _.
  repeat constructor; by apply Hno.
Qed.

(** C10: a dataset that cannot be created leaves its directory as it was. In a
    directory that exists, on a disk that refuses what it likes but the removal
    of files, with subscribers that take the events of the link, when creating a
    dataset fails, be it before anything was written or after the link and some
    components were, every file is as it was before. Writes that are refused
    write nothing. When a subscriber refuses the link the link file stays:
    [RefusedDemo]. *)
Theorem InitDataset_restores_disk p (w : @FSI _ F P) e w' : removals_work → publishers_answer →
  (SplitDirByExist (ip_TargetDir p) (fsi_disk w)).2 = "" →
  InitDataset ps empty_meta new_structure detect_structure resolve p w = (Error e, w') → fsi_disk w' = fsi_disk w.
Proof.
  intros Hno Hpub Hsplit.
  assert (wp (init_steps ps empty_meta new_structure detect_structure resolve p) (post (fsi_disk w) (λ _, True)) (w, [])) as Hsteps.
  { assert (∀ dir, holds (fsi_disk w) dir [] (w, [])) as H0s by (intros dir; by split). unfold init_steps.
    destruct (negb _); [apply (post_fail _ _ "" []), H0s|]. case_decide as Hd; [apply (post_fail _ _ "" []), H0s|]. set (dir := ip_TargetDir p) in *.
    assert (make_directory dir (w, []) = (Ok tt, (w, []))) as Hmk.
    { unfold make_directory, mbind, stM_bind, st_get. cbn [fst]. destruct (SplitDirByExist _ _) as [base create].
      cbn in Hsplit. by rewrite decide_True. }
    eapply wp_run; [exact Hmk|]. eapply wp_run; [done|]. cbn [fst].
    destruct (CanInitDatasetWorkDir dir _ _) as [[]|err|] eqn:Hcan; [|done..]. eapply wp_run; [done|].
    apply free_names in Hcan.
    assert (holds (fsi_disk w) dir [RefLinkHiddenFilename; "meta.json"; "structure.json"] (w, [])) as Hs by by split.
    destruct (resolve _ w); [by eapply post_fail| |done].
    eapply post_bind; [by apply post_book|]. intros id s1 Hs1. eapply post_bind; [by apply post_undo_log|].
    intros _ s2 Hs2. destruct (negb _); [by eapply post_fail|]. eapply post_bind; [by apply post_put|]. intros _ s3 Hs3.
    eapply post_bind; [apply post_create_link; [done..| | |exact Hs3]; apply (bool_decide_unpack _); by vm_compute|].
    intros _ s4 Hs4. eapply wp_run; [done|].
    destruct (init_dataset _ _ _ _ _ _) as [ds|err|] eqn:Hds; [|by apply Hs4..]. eapply wp_run; [done|].
    destruct (ConvertDatasetToComponents ds) as [c|err|] eqn:Hc; [|by apply Hs4..]. eapply wp_run; [done|].
    eapply post_bind; [by eapply post_components|]. done. }
  unfold wp in Hsteps. unfold InitDataset. destruct (init_steps _ _ _ _ _ p (w, [])) as [[ref|e2|] [w1 us]]; [done|..];
    cbn [fst snd post] in Hsteps; pose proof (run_undos_disk us w1) as Hrun;
    destruct (run_undos ps us w1) as [[|e3|] w2]; intros [= _ <-]; cbn [fst snd] in Hrun;
    rewrite Hrun by done; exact Hsteps.
Qed.
End links.

(** ** A link and a failed init, on a small disk *)
Module LinkDemo.
Import Demo.
#[local] Existing Instance WorkDemo.lib.
#[local] Existing Instance WorkDemo.os.
#[local] Instance ids : ProfileIDs := {| ID_String id := id; IDB58Decode s := Ok s |}.
#[local] Instance owner : ProfileStore Profile := {|
  Owner p := p;
  GetProfile p id := if decide (id = pro_ID p) then Ok p else Error ErrRepoNotFound;
  PeernameID p name := if decide (name = pro_Peername p) then Ok (pro_ID p) else Error ErrRepoNotFound;
|}.
#[local] Instance link_publisher : LinkPublisher events := λ _ _ _ evs, (Ok tt, evs).
Definition me : Profile := mkProfile "QmAlice" "alice".
Definition cities : Refstore.DatasetRef := mkDatasetRef "alice" "QmAlice" "cities" "/ipfs/Qm1" "" None false false.
Definition ref : Ref := mkRef "" "alice" "" "cities" "/ipfs/Qm1".
Definition stored : FSI := mkFSI [cities] (new_book : book) {[ "/work" := Dir ]}.

Lemma CreateLink_links_witness : ∃ vi u w', CreateLink me "/work" ref stored = ((Ok vi, u), w') ∧
  GetLinkedFilesysRef "/work" (fsi_disk w') = Some (mkRef "" "alice" "" "cities" "").
Proof.
  destruct (CreateLink me "/work" ref stored) as [[[vi|e|] u] w'] eqn:Hc;
    [|exfalso; apply (f_equal (λ r, r.1.1)) in Hc; vm_compute in Hc; discriminate..].
  eexists vi, u, w'. split; [reflexivity|].
  apply (CreateLink_links me "/work" ref stored vi u w'); [discriminate| | |exact Hc].
  - split_and!; [by vm_compute..|reflexivity].
  - apply Forall_singleton. done.
Defined.

(** The body is gone when the link is there already. *)
Definition params : InitParams := mkInitParams "/work" "rivers" "csv" "/gone.csv".
Definition init : FSI → outcome Ref * FSI :=
  InitDataset me (WorkDemo.Meta "") (λ _ _, WorkDemo.Structure "schema") (λ _ _, Ok (WorkDemo.Structure "schema")) (λ _ _, Error ErrRepoNotFound) params.
Lemma InitDataset_restores_disk_witness : ∃ e w', init stored = (Error e, w') ∧ fsi_disk w' = {[ "/work" := Dir ]}.
Proof.
  destruct (init stored) as [[r|e|] w'] eqn:Hi;
    [exfalso; apply (f_equal fst) in Hi; vm_compute in Hi; discriminate| |
     exfalso; apply (f_equal fst) in Hi; vm_compute in Hi; discriminate].
  exists e, w'. split; [reflexivity|].
  apply (InitDataset_restores_disk me (WorkDemo.Meta "") (λ _ _, WorkDemo.Structure "schema") (λ _ _, Ok (WorkDemo.Structure "schema")) (λ _ _, Error ErrRepoNotFound) params stored e w').
  - done.
  - done.
  - by vm_compute.
  - exact Hi.
Defined.
End LinkDemo.

(** Events that are refused: the rollback of [CreateLink] is dropped by its
    caller, and the link file stays, though creating the dataset failed. *)
Module RefusedDemo.
Import Demo LinkDemo.
#[local] Existing Instances WorkDemo.lib WorkDemo.os LinkDemo.ids LinkDemo.owner.
#[local] Instance refusing : LinkPublisher events := λ _ _ _ evs, (Error (Errorf "refused" []), evs).
Definition params : InitParams := mkInitParams "/work" "rivers" "csv" "".
Example refused_event_leaves_link :
  let r := InitDataset me (WorkDemo.Meta "") (λ _ _, WorkDemo.Structure "schema") (λ _ _, Ok (WorkDemo.Structure "schema")) (λ _ _, Error ErrRepoNotFound) params stored in
  r.1 = Error (Errorf "refused" []) ∧
  GetLinkedFilesysRef "/work" (fsi_disk r.2) = Some (mkRef "" "alice" "" "rivers" "") ∧ length (fsi_refs r.2) = 2.
Proof. by vm_compute. Qed.
End RefusedDemo.
