(* ===== verification/LibrarySpec.v ===== *)
(** * Theorems of the library of working directories

    A checkout links a directory from both ends and leaves it clean. *)
From S2P Require Import DatasetFiles.
From S2P Require Export Library LinksSpec.

Section library.
Context `{OpDigest, BookCipher, Entropy} {F P : Type} `{Filesystem F, Publisher P, LinkPublisher P}.
Context `{ProfileIDs, ProfileStore PS} (ps : PS) `{!OS} {V : Type} `{L : !ComponentLib V} `{W : !MapWalk}.
Context `{N : !Network, !DatasetFilesLib V} {K : Type} `{!DatasetStore K} (mux : string) (of_stored : StoredDataset K → WDataset V)
  {CF : Type} (PullDataset : Ref → string → stM (@Instance _ F P CF) Ref).
Context `{CL : !ComponentLaws (V := V)}.

(** A dataset that was loaded has no open body. *)
Context (closed : ∀ s, wd_BodyFile (of_stored s) = None).

(** Opening changes nothing that is compared. *)
Lemma OpenDataset_unopened ds ds' : wd_BodyFile ds = None → OpenDataset ds = Ok ds' → unopened ds' = ds.
Proof.
  unfold OpenDataset. intros Hb. rewrite Hb. destruct (OpenBodyFile ds) as [file|e|]; [|done..].
  cbn [mbind outcome_bind DatasetFiles.map_error]. intros Hrun. destruct ds as [c m st r t body bf bp p n prev]. cbn in Hb. subst bf.
  apply outcome_bind_Ok in Hrun as (? & _ & Hrun). apply outcome_bind_Ok in Hrun as (? & _ & [= <-]). done.
Qed.
Lemma loaded_unopened ref (w : @Instance _ F P CF) ds : IsFSIPath (ref_Path ref) = false → loadLocalDataset mux of_stored ref w = Ok ds →
  ∃ sd, dsfs_LoadDataset mux of_stored (ref_Path ref) = Ok sd ∧ unopened ds = set_Peername (ref_Username ref) sd.
Proof.
  intros Hfsi. unfold loadLocalDataset. rewrite Hfsi. intros (sd & Hsd & Hopen)%outcome_bind_Ok. exists sd. split; [done|].
  apply OpenDataset_unopened; [|done]. unfold dsfs_LoadDataset in Hsd.
  apply outcome_bind_Ok in Hsd as (s & _ & [= <-]). apply closed.
Qed.

Lemma status_Peername sd username dir d : status_against (set_Peername username sd) dir d = status_against sd dir d.
Proof. unfold status_against. by rewrite !ds_drop. Qed.

Lemma on_fsi_run {A} (m : stM (@FSI _ F P) A) (w : @Instance _ F P CF) a w' : on_fsi m w = (Ok a, w') →
  ∃ f, m (inst_fsi w) = (Ok a, f) ∧ inst_fsi w' = f.
Proof. unfold on_fsi, st_zoom. destruct (m _) as [r f]. intros [= -> <-]. by exists f. Qed.
Lemma on_fsi_disk_run {A} (m : stM Disk A) (w : @FSI _ F P) a w' : on_fsi_disk m w = (Ok a, w') →
  ∃ d, m (fsi_disk w) = (Ok a, d) ∧ w' = mkFSI (fsi_refs w) (fsi_book w) d.
Proof. unfold on_fsi_disk, st_zoom. destruct (m _) as [r d]. intros [= -> <-]. by exists d. Qed.

(** What a checkout that succeeds did *)
Lemma Checkout_run dir refStr ref ds (w w' : @Instance _ F P CF) : ParseAndResolveRef refStr "" w = Ok (ref, "") →
  loadLocalDataset mux of_stored ref w = Ok ds → Checkout ps mux of_stored PullDataset dir refStr w = (Ok tt, w') →
  ∃ d1 f2 vi u, Mkdir dir (disk_of w) = (Ok tt, d1) ∧
    CreateLink ps dir ref (mkFSI (refs_of w) (fsi_book (inst_fsi w)) d1) = ((Ok vi, u), f2) ∧
    refs_of w' = fsi_refs f2 ∧ disk_of w' = (WriteComponents ds dir (fsi_disk f2)).2.
Proof.
  intros Hres Hload. unfold Checkout. destruct (negb _); [done|].
  intros (? & ? & [= <- <-] & Hrun)%stM_bind_Ok. destruct (stat_exists _ _); [done|].
  apply stM_bind_Ok in Hrun as (rs & ? & [= Hrs <-] & Hrun). rewrite Hres in Hrs. injection Hrs as <-. cbn [fst snd] in Hrun.
  rewrite decide_False in Hrun by (by intros []).
  apply stM_bind_Ok in Hrun as (? & w1 & Hens & Hrun).
  assert (w1 = w) as ->.
  { unfold on_fsi, st_zoom in Hens. destruct (EnsureRefNotLinked ref (inst_fsi w)) as [r f] eqn:He.
    apply EnsureRefNotLinked_same in He as ->. injection Hens as _ <-. by destruct w. }
  apply stM_bind_Ok in Hrun as (ds' & w1 & Hld & Hrun). unfold LoadDataset in Hld. rewrite decide_True in Hld by done.
  injection Hld as Hld <-. rewrite Hload in Hld. injection Hld as <-.
  apply stM_bind_Ok in Hrun as (? & w1 & Hmk & Hrun). apply on_fsi_run in Hmk as (f1 & (d1 & Hmk & ->)%on_fsi_disk_run & Hw1).
  apply stM_bind_Ok in Hrun as (? & w2 & Hlk & Hrun). apply on_fsi_run in Hlk as (f2 & Hlk & Hw2). rewrite Hw1 in Hlk.
  destruct (CreateLink _ _ _ _) as [[[vi|e|] u] f] eqn:Hc; [|done..]. injection Hlk as _ ->.
  exists d1, f2, vi, u. split; [by destruct x0|]. split; [exact Hc|]. revert Hrun. unfold logged, on_fsi, on_fsi_disk, st_zoom. rewrite Hw2.
  destruct (WriteComponents ds dir (fsi_disk f2)) as [r d3]. by destruct r as [[]|e|]; intros [= <-].
Qed.

(** C9: a checkout is linked and clean. The dataset can be checked out
    ([checkable]): its meta and structure are values of their types, which JSON
    encodes to forms of values that are encoded the same, and its scripts and
    body read back; that filling the structures of the dataset package with what
    was written finds those values is shown of the filling itself. When it is
    checked out, to a path where nothing is, on a disk that refuses nothing,
    under the only stored reference with its names, which are valid and whose
    identifiers read back, at the version that is stored, the directory links to
    the reference, the reference to the directory, and the directory's status
    against the store is clean. *)
Theorem Checkout_clean dir refStr ref old ds (w w' : @Instance _ F P CF) : clean_dir dir → no_faults →
  (∀ name, plain name → disk_of w !! filepath_Join [dir; name] = None) →
  ParseAndResolveRef refStr "" w = Ok (ref, "") → valid_names ref →
  ids_read_back (refs_of w) → goes_by (refs_of w) ref old → dr_Path old = ref_Path ref → ref_Path ref ≠ "" →
  IsFSIPath (ref_Path ref) = false → loadLocalDataset mux of_stored ref w = Ok ds → checkable ds →
  Checkout ps mux of_stored PullDataset dir refStr w = (Ok tt, w') →
  GetLinkedFilesysRef dir (disk_of w') = Some (named ref) ∧
  (∃ vi, GetVersionInfoShim (named ref) (refs_of w') = Ok vi ∧ vi_FSIPath vi = dir) ∧
  IsWorkingDirectoryClean mux of_stored dir w' = Ok tt.
Proof.
  intros Hc Hnf Hfree Hres Hn Hids Hby Hpath Hne Hfsi Hload Hck Hrun. pose proof (clean_dir_nonempty dir Hc) as Hd.
  destruct (Checkout_run dir refStr ref ds w w' Hres Hload Hrun) as (d1 & f2 & vi & u & Hmk & Hlink & Hrefs & Hdisk).
  assert (d1 = <[dir := Dir]> (disk_of w)) as ->.
  { unfold Mkdir, refused in Hmk. rewrite Hnf in Hmk. destruct (_ !! dir); [done|]. destruct (is_dir _); [by injection Hmk|done]. }
  apply CreateLink_run in Hlink as (_ & Href & [t Hf2] & oldvi & Hget & Hput); [|done]. cbn [fsi_refs fsi_disk] in *.
  set (link := filepath_Join [dir; RefLinkHiddenFilename]) in *.
  assert (plain RefLinkHiddenFilename) as Hpl by (apply (bool_decide_unpack _); by vm_compute).
  destruct (written_clean ds dir (fsi_disk f2) Hc Hnf) as (d3 & items & Hwr & Hst & Hun & Hoth); [| |done|].
  { rewrite Hf2, lookup_insert_ne by by apply Join_ne_dir. by rewrite lookup_insert_eq. }
  { intros name [Hp [n Hat]]%elem_of_entry_names; [|done]. destruct (decide (name = RefLinkHiddenFilename)) as [->|Hnn]; [by vm_compute|].
    rewrite Hf2, lookup_insert_ne in Hat by (by intros ?%Join_inj). rewrite lookup_insert_ne in Hat by (symmetry; by apply Join_ne_dir).
    by rewrite Hfree in Hat. }
  rewrite Hwr in Hdisk. cbn [snd] in Hdisk.
  assert (GetLinkedFilesysRef dir (disk_of w') = Some (named ref)) as Hlk.
  { eapply linkfile_reads; [done..|]. rewrite Hdisk, Hoth by (done || by vm_compute). by rewrite Hf2, lookup_insert_eq. }
  destruct (named_found ps ref (refs_of w) old dir (refs_of w') Hids Hby) as (vi' & Hvi & Hvp & Hvd).
  { destruct Hby as [Hgo _]. unfold GetVersionInfoShim in Hget. rewrite Hgo in Hget. injection Hget as <-. by rewrite Hrefs. }
  split_and!; [done|by exists vi'|]. unfold IsWorkingDirectoryClean, Status. rewrite Hlk, Hvi. cbn [mbind outcome_bind].
  rewrite Hvp, Hpath, decide_False by done. destruct (loaded_unopened ref w ds Hfsi Hload) as (sd & -> & Hu).
  cbn [mbind outcome_bind]. rewrite Hu, status_Peername in Hst. rewrite Hdisk, Hst. cbn [mbind outcome_bind]. unfold clean_error. by rewrite Hun.
Qed.

(** A reference that is not stored makes [EnsureRef] look at nothing. *)
Theorem EnsureRef_unknown dir refStr ref e (w : @Instance _ F P CF) : Parse refStr = (ref, None) →
  GetVersionInfoShim ref (refs_of w) = Error e → (EnsureRef ps dir refStr w).1 = Panic.
Proof.
  intros Hp Hget. unfold EnsureRef. rewrite Hp. unfold on_fsi, st_zoom, get_info, on_refs.
  fold (refs_of w). by rewrite Hget.
Qed.
End library.

(** ** A checkout of a small dataset *)
Module CheckoutDemo.
Import Demo LinkDemo.
#[local] Existing Instances WorkDemo.lib WorkDemo.os WorkDemo.laws LinkDemo.ids LinkDemo.owner LinkDemo.link_publisher.
#[local] Instance walk_in_order : MapWalk := {| walk _ m := map_to_list m; walk_perm _ m := Permutation_refl _ |}.
#[local] Instance network : Network := {|
  remote_ResolveRef _ ref := (Error ErrRefNotFound, ref);
  p2p_ResolveRef ref := (Error ErrRefNotFound, ref);
  report_schedule := [0; 1];
|}.
#[local] Instance opener : DatasetFilesLib WorkDemo.value := {|
  OpenBodyFile ds := Ok (if decide (wd_BodyPath ds = "/mem/body") then Some "a,1" else None);
  ScriptFile _ := false;
  OpenScriptFile _ := Ok tt;
|}.
#[local] Instance store : DatasetStore string := {|
  fs_Type := "mux";
  known_fs_types := ["mem"; "ipfs"];
  fs_read path := if decide (path = "/ipfs/Qm1/dataset.json") then Ok "{}" else Error (ErrSentinel "not found");
  UnmarshalDataset _ := Ok (λ k, match k with
    | KMeta => Some (mkComponentRef "" (Some "title"))
    | KStructure => Some (mkComponentRef "" (Some "schema"))
    | KReadme => Some (mkComponentRef "" (Some "# hi"))
    | KTransform => Some (mkComponentRef "" (Some "load()"))
    | _ => None
    end);
  Unmarshal _ text := Ok (Some text);
|}.
Definition contents (s : StoredDataset string) (k : DatasetFiles.kind) : option string := c ← sd_component s k; co_Contents c.
Definition of_stored (s : StoredDataset string) : WDataset WorkDemo.value :=
  mkWDataset (WorkDemo.Commit <$> contents s KCommit) (WorkDemo.Meta <$> contents s KMeta) (WorkDemo.Structure <$> contents s KStructure)
    (WorkDemo.Script <$> contents s KReadme) (WorkDemo.Script <$> contents s KTransform) None None
    "/mem/body" (sd_Path s) "" "".
Definition instance : @Instance _ _ _ unit :=
  mkInstance (mkFSI [cities] (saved : book) {[ "/" := Dir ]}) None "alice" None ∅.
Definition pull (ref : Ref) (source : string) : stM (@Instance _ sink events unit) Ref := st_fail ErrRefNotFound.
Definition checked_out : Instance := (Checkout me "mux" of_stored pull "/work" "me/cities" instance).2.

Example resolves : ParseAndResolveRef "me/cities" "" instance = Ok (mkRef cities_id "alice" "QmAlice" "cities" "/ipfs/Qm1", "").
Proof. by vm_compute. Qed.
Lemma Checkout_clean_witness : IsWorkingDirectoryClean "mux" of_stored "/work" checked_out = Ok tt.
Proof.
  apply (Checkout_clean me "mux" of_stored pull (λ _, eq_refl) "/work" "me/cities" (mkRef cities_id "alice" "QmAlice" "cities" "/ipfs/Qm1")
    cities (WorkDemo.version (Some "a,1") "/ipfs/Qm1" "alice") instance).
  - apply (bool_decide_unpack _). by vm_compute.
  - done.
  - intros name Hp. unfold disk_of, instance. cbn [inst_fsi fsi_disk]. apply lookup_singleton_ne. intros Heq.
    apply (f_equal filepath_Dir) in Heq. rewrite Dir_Join in Heq; [by vm_compute in Heq|apply (bool_decide_unpack _); by vm_compute|done].
  - by vm_compute.
  - split_and!; [by vm_compute..|reflexivity].
  - by apply Forall_singleton.
  - split; [by vm_compute|]. split; [by vm_compute|]. intros x Hx _. by apply list_elem_of_singleton in Hx.
  - reflexivity.
  - discriminate.
  - reflexivity.
  - by vm_compute.
  - apply WorkDemo.checkable_version.
  - by vm_compute.
Defined.
End CheckoutDemo.
