(* ===== verification/RepositorySpec.v ===== *)
(** * The properties of a repository's operations

    Removing versions and renaming change the filesystem, the references and
    the logbook; the theorems say what the three agree on afterwards. *)
From S2P Require Import RefstoreSpec HistoryFacts LogbookEdits Instances LinksSpec LogbookSession DatasetFiles Repository.

(** What the removal of versions relies on of a filesystem: a version that
    reads can be deleted, and deleting one changes no other. *)
Class VersionFSLaws (S K : Type) `{!VersionFS S K} (mux : string) : Prop := {
  delete_readable : ∀ s p ds, load_refs mux p s = Ok ds → ∃ s', fs_Delete p s = (Ok tt, s');
  delete_others : ∀ s s' p q, fs_Delete p s = (Ok tt, s') → q ≠ p → load_refs mux q s' = load_refs mux q s;
}.

(** ** Versions in a filesystem *)
Section versions.
Context {S K : Type} `{!VersionFS S K} (mux : string) (view : StoredDataset K → Dataset) `{!VersionFSLaws S K mux}.
Implicit Types (s : S) (paths : list string).

(** Versions that read, newest first, each naming the one before it *)
Fixpoint chain s paths : Prop :=
  match paths with
  | [] => True
  | p :: rest => p ≠ "" ∧ (∃ ds, load_refs mux p s = Ok ds ∧ ds_PreviousPath (view ds) = default "" (head rest)) ∧ chain s rest
  end.
Fixpoint delete_all paths : stM S unit :=
  match paths with [] => mret tt | p :: paths => fs_Delete p;; delete_all paths end.

Lemma load_refs_path p s ds : load_refs mux p s = Ok ds → sd_Path ds = p.
Proof.
  unfold load_refs, LoadDatasetRefs. destruct (map_error _ _); [|done..]. cbn [mbind outcome_bind].
  destruct (map_error _ _); [|done..]. by intros [= <-].
Qed.
Lemma chain_deleted p s s' paths : fs_Delete p s = (Ok tt, s') → p ∉ paths → chain s paths → chain s' paths.
Proof.
  intros Hdel. induction paths as [|q paths IH]; [done|]. intros Hp%not_elem_of_cons (Hq & (ds & Hds & Hprev) & Hc).
  cbn [chain]. split_and!; [done| |naive_solver]. exists ds. by rewrite (delete_others _ _ _ _ Hdel) by naive_solver.
Qed.

Lemma chain_nonempty s paths q : chain s paths → q ∈ paths → q ≠ "".
Proof. induction paths as [|p paths IH]; intros Hc; [by intros ?%not_elem_of_nil|]. destruct Hc as (Hp & _ & Hc). intros [->|?]%elem_of_cons; auto. Qed.

(** One step of the loop, from a version that is not the oldest *)
Lemma remove_loop_step fuel i p q rest ds s : i ≠ 0%Z → NoDup (p :: q :: rest) → chain s (p :: q :: rest) →
  load_refs mux p s = Ok ds →
  ∃ s1 ds1, fs_Delete p s = (Ok tt, s1) ∧ chain s1 (q :: rest) ∧ load_refs mux q s1 = Ok ds1 ∧
    remove_loop mux view (Datatypes.S fuel) i p ds s = remove_loop mux view fuel (i - 1) q ds1 s1.
Proof.
  intros Hi [Hp _]%NoDup_cons (_ & (ds0 & Hds & Hprev) & Hc) Hld. rewrite Hds in Hld. injection Hld as ->.
  destruct (delete_readable _ _ _ Hds) as [s1 Hdel]. pose proof (chain_deleted _ _ _ _ Hdel Hp Hc) as Hc1.
  pose proof Hc1 as (Hq & (ds1 & Hds1 & _) & _). exists s1, ds1. split_and!; [done..|].
  cbn [remove_loop]. rewrite decide_False by done. rewrite (bind_run _ _ _ _ _ Hdel), Hprev. cbn [head default from_option id].
  rewrite decide_False by done. rewrite (bind_run st_get _ s1 s1 s1) by done. by rewrite Hds1, (load_refs_path _ _ _ Hds1).
Qed.

Lemma remove_loop_chain fuel n p rest ds s : n ≤ length rest → n ≤ fuel → NoDup (p :: rest) → chain s (p :: rest) →
  load_refs mux p s = Ok ds →
  ∃ q s', (p :: rest) !! n = Some q ∧ remove_loop mux view fuel (Z.of_nat n) p ds s = (Ok q, s') ∧
    delete_all (take n (p :: rest)) s = (Ok tt, s') ∧ chain s' (drop n (p :: rest)).
Proof.
  revert fuel p rest ds s. induction n as [|n IH]; intros fuel p rest ds s Hn Hf Hnd Hc Hds.
  { exists p, s. split_and!; [done| |done..]. destruct fuel; cbn [remove_loop]; by rewrite decide_True by lia. }
  destruct rest as [|q rest]; [cbn in Hn; lia|]. destruct fuel as [|fuel]; [lia|].
  destruct (remove_loop_step fuel (Z.of_nat (Datatypes.S n)) p q rest ds s) as (s1 & ds1 & Hdel & Hc1 & Hds1 & ->); [lia|done..|].
  replace (Z.of_nat (Datatypes.S n) - 1)%Z with (Z.of_nat n) by lia. apply NoDup_cons in Hnd as [_ Hnd].
  destruct (IH fuel q rest ds1 s1) as (x & s' & Hx & Hrun & Hall & Hrest); [cbn in Hn; lia|lia|done..|].
  exists x, s'. split_and!; [done..| |done]. cbn [take delete_all]. by rewrite (bind_run _ _ _ _ _ Hdel).
Qed.

(** Without a bound, the loop goes to the oldest version. *)
Lemma remove_loop_all fuel i p rest ds s : (i < 0)%Z → length rest < fuel → NoDup (p :: rest) → chain s (p :: rest) →
  load_refs mux p s = Ok ds →
  ∃ q s', last (p :: rest) = Some q ∧ remove_loop mux view fuel i p ds s = (Ok q, s') ∧
    delete_all (p :: rest) s = (Ok tt, s').
Proof.
  revert fuel i p ds s. induction rest as [|q rest IH]; intros fuel i p ds s Hi Hf Hnd Hc Hds.
  - destruct fuel as [|fuel]; [lia|]. destruct Hc as (_ & (ds0 & Hds0 & Hprev) & _). rewrite Hds in Hds0. injection Hds0 as <-.
    destruct (delete_readable _ _ _ Hds) as [s1 Hdel]. exists p, s1. split_and!; [done| |].
    + cbn [remove_loop]. rewrite decide_False by lia. rewrite (bind_run _ _ _ _ _ Hdel), Hprev. by rewrite decide_True.
    + cbn [delete_all]. by rewrite (bind_run _ _ _ _ _ Hdel).
  - destruct fuel as [|fuel]; [cbn in Hf; lia|].
    destruct (remove_loop_step fuel i p q rest ds s) as (s1 & ds1 & Hdel & Hc1 & Hds1 & ->); [lia|done..|].
    apply NoDup_cons in Hnd as [_ Hnd]. destruct (IH fuel (i - 1)%Z q ds1 s1) as (x & s' & Hx & Hrun & Hall); [lia|cbn in Hf; lia|done..|].
    exists x, s'. split_and!; [done..|]. cbn [delete_all]. by rewrite (bind_run _ _ _ _ _ Hdel).
Qed.
End versions.

(** ** The reference of a dataset *)
Section references.
Context `{ProfileIDs, ProfileStore PS} (ps : PS).
Implicit Types (refs : MemRefstore) (x y stored : Refstore.DatasetRef).

Definition same_names x y : Prop :=
  dr_Peername y = dr_Peername x ∧ dr_ProfileID y = dr_ProfileID x ∧ dr_Name y = dr_Name x.

(** A stored reference with identifiers that are read back and names the
    profiles agree with, where no other one has its names or one of [paths] *)
Record tracked (paths : list string) refs before stored after : Prop := mkTracked {
  tr_refs : refs = before ++ stored :: after;
  tr_id : dr_ProfileID stored ≠ "" ∧ ID_String (dr_ProfileID stored) ≠ "" ∧
          IDB58DecodeOrEmpty (ID_String (dr_ProfileID stored)) = dr_ProfileID stored;
  tr_user : dr_Peername stored ≠ "";
  tr_name : IsValidName (dr_Name stored) = true;
  tr_canonical : ∀ y, same_names stored y → canonicalizeProfile ps y = (Ok tt, y);
  tr_alone : ∀ x y, x ∈ before ++ after → same_names stored y → dr_Path y ∈ paths → Match x y = false;
}.

Lemma tr_name_nonempty paths refs before stored after : tracked paths refs before stored after → dr_Name stored ≠ "".
Proof. intros Ht Hn. pose proof (tr_name _ _ _ _ _ Ht) as Hv. by rewrite Hn in Hv. Qed.

Lemma same_names_Match x y : same_names x y → Match x y = true.
Proof.
  intros (Hp & Hi & Hn). unfold Match. rewrite Hp, Hi, Hn. rewrite (bool_decide_eq_true_2 (dr_Peername x = _)), (bool_decide_eq_true_2 (dr_Name x = _)) by done.
  by rewrite !orb_true_r.
Qed.

Lemma tracked_index paths refs before stored after y : tracked paths refs before stored after →
  same_names stored y → dr_Path y ∈ paths → find_index_from (λ x, Match x y) 0 refs = Some (length before, stored).
Proof.
  intros Ht Hs Hp. rewrite (tr_refs _ _ _ _ _ Ht). apply find_index_from_Some. exists (length before). split_and!; [done| | |].
  - by rewrite lookup_app_r, Nat.sub_diag by lia.
  - by apply same_names_Match.
  - intros j x Hj. rewrite lookup_app_l by done. intros Hx. apply (tr_alone _ _ _ _ _ Ht); [|done..].
    apply elem_of_app. left. by eapply list_elem_of_lookup_2.
Qed.
Lemma tracked_GetRef paths refs before stored after y : tracked paths refs before stored after →
  same_names stored y → dr_Path y ∈ paths → GetRef y refs = Ok stored.
Proof. intros Ht Hs Hp. unfold GetRef. by rewrite (tracked_index _ _ _ _ _ _ Ht Hs Hp). Qed.
Lemma tracked_DeleteRef paths refs before stored after y : tracked paths refs before stored after →
  same_names stored y → dr_Path y ∈ paths → DeleteRef y refs = Ok (before ++ after).
Proof.
  intros Ht Hs Hp. unfold DeleteRef. rewrite (tracked_index _ _ _ _ _ _ Ht Hs Hp). rewrite (tr_refs _ _ _ _ _ Ht).
  by rewrite delete_middle.
Qed.

(** Deleting by a reference with a path answers what was stored. *)
Definition forgets_dataset x : Refstore.DatasetRef :=
  mkDatasetRef (dr_Peername x) (dr_ProfileID x) (dr_Name x) (dr_Path x) (dr_FSIPath x) None (dr_Published x) false.
Lemma tracked_delete paths refs before stored after ref : tracked paths refs before stored after →
  same_names stored (RefFromDsref ref) → ref_Path ref = dr_Path stored → dr_Path stored ∈ paths → dr_Path stored ≠ "" →
  DeleteVersionInfoShim ps ref refs = Ok (ConvertToVersionInfo (forgets_dataset stored), before ++ after).
Proof.
  intros Ht Hs Hp Hin Hne. unfold DeleteVersionInfoShim, canonicalizeDatasetRef. set (y := RefFromDsref ref) in *.
  assert (dr_Path y = dr_Path stored) as Hy by done. pose proof Hs as (Hs1 & Hs2 & Hs3).
  rewrite (bind_run st_get _ y y y) by done.
  assert (DatasetRef_IsEmpty y = false) as ->.
  { unfold DatasetRef_IsEmpty, DatasetRef_Equal. rewrite (bool_decide_eq_false_2 (dr_Path y = _)) by (by rewrite Hy). by rewrite andb_false_r. }
  rewrite (bind_run _ _ y tt y) by by apply (tr_canonical _ _ _ _ _ Ht). rewrite (bind_run st_get _ y y y) by done.
  rewrite (bind_run _ _ y stored y) by (unfold st_lift; by rewrite (tracked_GetRef _ _ _ _ _ _ Ht) by (rewrite ?Hy; done)).
  rewrite (bind_run (st_modify _) _ y tt (fill_from stored y)) by done.
  assert (fill_from stored y = forgets_dataset stored) as ->.
  { unfold fill_from, forgets_dataset. rewrite Hs1, Hs2, Hs3, Hy. rewrite decide_False by (intros [?|?]; [|done]; by apply (tr_user _ _ _ _ _ Ht)).
    unfold nonempty. by repeat case_match. }
  rewrite (bind_run st_get _ (forgets_dataset stored) _ _ eq_refl). cbn [forgets_dataset dr_ProfileID dr_Name].
  rewrite decide_False by naive_solver. rewrite decide_False by done. cbn -[DeleteRef].
  by rewrite (tracked_DeleteRef _ _ _ _ _ (forgets_dataset stored) Ht).
Qed.

(** Putting it back with another name or path, and finding it *)
Lemma put_back vi refs put : RefFromVersionInfo vi = put → vi_ProfileID vi ≠ "" → dr_ProfileID put ≠ "" → dr_Peername put ≠ "" →
  dr_Name put ≠ "" → dr_Path put ≠ "" → (∀ x, x ∈ refs → Match x put = false) →
  PutVersionInfoShim ps vi refs = Ok (merge_sort key_le (refs ++ [put])).
Proof.
  intros Hput Hid H1 H2 H3 H4 Hnone. unfold PutVersionInfoShim. rewrite decide_False by naive_solver. rewrite Hput.
  unfold PutRef. rewrite !decide_False by naive_solver. by rewrite (proj2 (find_index_from_None _ _ _) Hnone).
Qed.
Lemma GetRef_put_back put y l : same_names put y → (∀ x, x ∈ l → Match x y = false) →
  GetRef y (merge_sort key_le (l ++ [put])) = Ok put.
Proof.
  intros Hs Hnone. unfold GetRef. destruct (find_index_from _ 0 _) as [[i x]|] eqn:E.
  - apply find_index_from_Some in E as (j & _ & Hx & Hm & _). apply list_elem_of_lookup_2 in Hx. revert Hx.
    rewrite merge_sort_Permutation, elem_of_app, list_elem_of_singleton. intros [Hx| ->]; [|done]. by rewrite Hnone in Hm.
  - pose proof (proj1 (find_index_from_None _ _ _) E put) as Hm. cbn in Hm. rewrite same_names_Match in Hm by done.
    discriminate Hm. rewrite merge_sort_Permutation. set_solver.
Qed.
End references.

(** ** Removing versions *)
Section repository.
Context `{OpDigest, BookCipher, Entropy} {F P : Type} `{!Filesystem F, !Publisher P} `{ProfileIDs, ProfileStore PS} (ps : PS).
Context {S K : Type} `{!VersionFS S K} (mux : string) (view : StoredDataset K → Dataset) `{!VersionFSLaws S K mux}.
Implicit Types (r : @Repo _ F P S) (paths : list string).

Lemma on_repo_refs_run {A} (m : MemRefstore → outcome (A * MemRefstore)) r a refs : m (r_refs r) = Ok (a, refs) →
  on_repo_refs m r = (Ok a, mkRepo refs (r_book r) (r_store r)).
Proof. unfold on_repo_refs. by intros ->. Qed.
Lemma on_repo_book_run {A} (m : stM (@Book _ F P) A) r a b : m (r_book r) = (a, b) →
  on_repo_book m r = (a, mkRepo (r_refs r) b (r_store r)).
Proof. unfold on_repo_book, st_zoom. by intros ->. Qed.
Lemma on_repo_store_run {A} (m : stM S A) r a s : m (r_store r) = (a, s) →
  on_repo_store m r = (a, mkRepo (r_refs r) (r_book r) s).
Proof. unfold on_repo_store, st_zoom. by intros ->. Qed.

Definition rewound (path : string) (x : Refstore.DatasetRef) : Refstore.DatasetRef :=
  mkDatasetRef (dr_Peername x) (dr_ProfileID x) (dr_Name x) path (dr_FSIPath x) None (dr_Published x) (dr_Foreign x).

Lemma RewindDatasetRef_run paths before stored after curr q r : tracked ps paths (r_refs r) before stored after →
  same_names stored (RefFromDsref curr) → ref_Path curr = dr_Path stored → dr_Path stored ∈ paths → dr_Path stored ≠ "" →
  q ∈ paths → q ≠ "" →
  RewindDatasetRef ps curr (with_path q curr) r =
    (Ok (set_vi_Path q (ConvertToVersionInfo stored)),
     mkRepo (merge_sort key_le ((before ++ after) ++ [rewound q stored])) (r_book r) (r_store r)).
Proof.
  intros Ht Hs Hcp Hin Hne Hq Hqne. pose proof Hs as (Hs1 & Hs2 & Hs3). pose proof (tr_id _ _ _ _ _ _ Ht) as (Hid & Hsid & Hback).
  unfold RewindDatasetRef. cbn [with_path ref_Name ref_Username ref_ProfileID ref_Path].
  cbn in Hs3. rewrite Hs3, (tr_name _ _ _ _ _ _ Ht). cbn [negb]. rewrite decide_False by naive_solver. rewrite decide_False by naive_solver.
  assert (∀ path, path ∈ paths → existing (with_path path curr) r = (Ok (Some (ConvertToVersionInfo stored)), r)) as Hex.
  { intros path Hpath. unfold existing, repo_get.
    rewrite (on_repo_refs_run _ _ (ConvertToVersionInfo stored) (r_refs r)); [by destruct r|].
    unfold GetVersionInfoShim. by rewrite (tracked_GetRef _ _ _ _ _ _ (RefFromDsref (with_path path curr)) Ht). }
  assert (curr = with_path (ref_Path curr) curr) as Hcurr by by destruct curr.
  rewrite (bind_run (existing curr) _ r (Some (ConvertToVersionInfo stored)) r) by (rewrite Hcurr; apply Hex; by rewrite Hcp).
  rewrite (bind_run _ _ _ _ _ (Hex q Hq)).
  assert (DeleteVersionInfoShim ps (SimpleRef (ConvertToVersionInfo stored)) (r_refs r) =
          Ok (ConvertToVersionInfo (forgets_dataset stored), before ++ after)) as Hdel.
  { apply (tracked_delete _ _ _ _ _ _ _ Ht); [|done..]. split_and!; [done| |done]. apply Hback. }
  assert (PutVersionInfoShim ps (set_vi_Path q (ConvertToVersionInfo stored)) (before ++ after) =
          Ok (merge_sort key_le ((before ++ after) ++ [rewound q stored]))) as Hput.
  { apply put_back; try done.
    - unfold RefFromVersionInfo, rewound. cbn. by rewrite Hback.
    - by apply (tr_user _ _ _ _ _ _ Ht).
    - by apply (tr_name_nonempty _ _ _ _ _ _ Ht).
    - intros x Hx. by apply (tr_alone _ _ _ _ _ _ Ht). }
  unfold repo_delete. rewrite (bind_run _ _ _ _ _ (on_repo_refs_run _ _ _ _ Hdel)). unfold repo_put.
  erewrite (bind_run (on_repo_refs _) _ (mkRepo (before ++ after) _ _)) by (apply on_repo_refs_run; cbn [r_refs]; by rewrite Hput).
  done.
Qed.

(** The whole of a removal, from its parts, up to what the logbook says of it *)
Lemma remove_recorded fuel curr n r ds q s' info refs' initID :
  ref_Path curr ≠ "" → (-1 ≤ n)%Z → load_refs mux (ref_Path curr) (r_store r) = Ok ds →
  remove_loop mux view fuel n (ref_Path curr) ds (r_store r) = (Ok q, s') →
  RewindDatasetRef ps curr (with_path q curr) (mkRepo (r_refs r) (r_book r) s') = (Ok info, mkRepo refs' (r_book r) s') →
  RefToInitID curr (r_book r) = (Ok initID, r_book r) →
  RemoveNVersionsFromStore ps mux view fuel curr n r =
    (on_repo_book (WriteVersionDelete initID n);; mret info) (mkRepo refs' (r_book r) s').
Proof.
  intros Hne Hn Hds Hloop Hrew Hid. unfold RemoveNVersionsFromStore. rewrite decide_False by done. rewrite decide_False by lia.
  rewrite (bind_run (st_read _) _ r ds r) by (unfold st_read; by rewrite Hds).
  rewrite (bind_run _ _ _ _ _ (on_repo_store_run _ _ _ _ Hloop)), (bind_run _ _ _ _ _ Hrew).
  by rewrite (bind_run (attempt _) _ _ (inl initID) (mkRepo refs' (r_book r) s'))
    by (unfold attempt; by rewrite (on_repo_book_run _ (mkRepo refs' (r_book r) s') _ _ Hid)).
Qed.
Lemma RemoveNVersionsFromStore_run fuel curr n r ds q s' info refs' initID b' :
  ref_Path curr ≠ "" → (-1 ≤ n)%Z → load_refs mux (ref_Path curr) (r_store r) = Ok ds →
  remove_loop mux view fuel n (ref_Path curr) ds (r_store r) = (Ok q, s') →
  RewindDatasetRef ps curr (with_path q curr) (mkRepo (r_refs r) (r_book r) s') = (Ok info, mkRepo refs' (r_book r) s') →
  RefToInitID curr (r_book r) = (Ok initID, r_book r) → WriteVersionDelete initID n (r_book r) = (Ok tt, b') →
  RemoveNVersionsFromStore ps mux view fuel curr n r = (Ok info, mkRepo refs' b' s').
Proof.
  intros Hne Hn Hds Hloop Hrew Hid Hwr. rewrite (remove_recorded fuel curr n r ds q s' info refs' initID) by done.
  by rewrite (bind_run _ _ _ _ _ (on_repo_book_run _ (mkRepo refs' (r_book r) s') _ _ Hwr)).
Qed.

(** What was done before the logbook denied it stays done. *)
Lemma RemoveNVersionsFromStore_denied fuel curr n r ds q s' info refs' initID e b' :
  ref_Path curr ≠ "" → (-1 ≤ n)%Z → load_refs mux (ref_Path curr) (r_store r) = Ok ds →
  remove_loop mux view fuel n (ref_Path curr) ds (r_store r) = (Ok q, s') →
  RewindDatasetRef ps curr (with_path q curr) (mkRepo (r_refs r) (r_book r) s') = (Ok info, mkRepo refs' (r_book r) s') →
  RefToInitID curr (r_book r) = (Ok initID, r_book r) → WriteVersionDelete initID n (r_book r) = (Error e, b') →
  RemoveNVersionsFromStore ps mux view fuel curr n r = (Error e, mkRepo refs' b' s').
Proof.
  intros Hne Hn Hds Hloop Hrew Hid Hwr. rewrite (remove_recorded fuel curr n r ds q s' info refs' initID) by done.
  unfold mbind, stM_bind. by rewrite (on_repo_book_run _ (mkRepo refs' (r_book r) s') _ _ Hwr).
Qed.

Lemma page_all {A} (l : list A) : page 0 (-1) l = l.
Proof. unfold page. by rewrite decide_True. Qed.

(** C12: removing versions keeps the records of a dataset in step. For a dataset
    whose versions [paths], newest first, are in the filesystem, whose
    reference is at the newest and whose branch lists them all, removing [n] of
    them succeeds: the filesystem had the first [n] deleted, and no more; the
    versions that remain still read; the reference, found by its names, is at
    the newest of these; and the logbook lists exactly them. *)
Theorem RemoveNVersionsFromStore_rewinds fuel curr n paths r before stored after initID a vs :
  publisher_ok (P := P) → tracked ps ("" :: paths) (r_refs r) before stored after →
  same_names stored (RefFromDsref curr) → ref_Path curr = dr_Path stored → head paths = Some (ref_Path curr) →
  NoDup paths → chain mux view (r_store r) paths →
  branch_at initID a vs (r_book r) → length a = 3 → RefToInitID curr (r_book r) = (Ok initID, r_book r) →
  map v_Path vs = reverse paths → n < length paths → n ≤ fuel →
  ∃ info r', RemoveNVersionsFromStore ps mux view fuel curr (Z.of_nat n) r = (Ok info, r') ∧
    delete_all (take n paths) (r_store r) = (Ok tt, r_store r') ∧ chain mux view (r_store r') (drop n paths) ∧
    (∃ vi, GetVersionInfoShim (with_path "" curr) (r_refs r') = Ok vi ∧ head (drop n paths) = Some (vi_Path vi)) ∧
    (∃ items, Items curr 0 (-1) (r_book r') = (Ok items, r_book r') ∧ map vi_Path items = drop n paths).
Proof.
  intros Hpub Ht Hs Hcp Hhead Hnd Hc Hb Hlen Hid Hvs Hn Hf. destruct paths as [|p rest]; [done|]. injection Hhead as ->.
  pose proof Hc as (Hne & (ds & Hds & _) & _).
  destruct (remove_loop_chain mux view fuel n (ref_Path curr) rest ds (r_store r)) as (q & s' & Hq & Hloop & Hdel & Hrest); [cbn in Hn; lia|done..|].
  set (paths := ref_Path curr :: rest) in *.
  assert (q ∈ "" :: paths) as Hin by (apply list_elem_of_further; by eapply list_elem_of_lookup_2).
  assert (q ≠ "") as Hqne.
  { pose proof Hrest as Hrest'. apply (drop_S _ _ _) in Hq. rewrite Hq in Hrest'. apply Hrest'. }
  set (r1 := mkRepo (r_refs r) (r_book r) s').
  pose proof (RewindDatasetRef_run ("" :: paths) before stored after curr q r1 Ht Hs Hcp) as Hrew. cbn [r_refs r_book r_store r1] in Hrew.
  specialize (Hrew ltac:(set_solver) ltac:(congruence) Hin Hqne).
  set (refs' := merge_sort _ _) in *.
  assert (length vs = length paths) as Hlv by by rewrite <- (length_map v_Path), Hvs, length_reverse.
  destruct (command_refines initID a vs (LogbookSession.Delete (Z.of_nat n)) (take (length vs - n) vs) (r_book r)) as (b' & op & Hwr & Hw & Hb');
    [done..| |].
  { cbn. rewrite decide_True by lia. by rewrite Nat2Z.id. }
  exists (set_vi_Path q (ConvertToVersionInfo stored)), (mkRepo refs' b' s'). split_and!.
  - eapply RemoveNVersionsFromStore_run; [done|lia|done..].
  - done.
  - done.
  - exists (ConvertToVersionInfo (rewound q stored)). split.
    + unfold GetVersionInfoShim. cbn [r_refs]. subst refs'. rewrite GetRef_put_back with (put := rewound q stored); [done|done|].
      intros x Hx. apply (tr_alone _ _ _ _ _ _ Ht); [done..|]. cbn. set_solver.
    + cbn. by rewrite head_lookup, lookup_drop, Nat.add_0_r.
  - eexists. split.
    + cbn [r_book]. apply (Items_listed initID a (take (length vs - n) vs)); [done| |lia..].
      by apply (RefToInitID_written _ initID a _ (r_book r) b' (at_wf _ _ _ _ Hb) Hlen Hw).
    + rewrite page_all, map_reverse, map_map. cbn [listed vi_Path]. change (λ x, v_Path x) with v_Path.
      rewrite <- firstn_map, Hvs, Hlv. rewrite take_reverse, reverse_involutive. f_equal. lia.
Qed.

(** Taking more than there is off the end of a branch *)
Lemma referenced_run_app l ops ops' : referenced_run l (ops ++ ops') = l' ← referenced_run l ops; referenced_run l' ops'.
Proof.
  revert l. induction ops as [|op ops IH]; intros l; [done|]. cbn [app referenced_run].
  destruct (if decide (op_Model op = CommitModel) then _ else _); cbn; [apply IH|done..].
Qed.
Lemma slice_to_beyond {A} (l : list A) n : (Z.of_nat (length l) < n)%Z → slice_to l n = Panic.
Proof. intros Hn. unfold slice_to. by rewrite decide_False by lia. Qed.
Lemma removed_below ref blog ops vs k : lg_Ops blog = ops ++ [deleteOp k] → represents ops vs → (k < 0)%Z →
  branchToVersionInfos blog ref 0 (-1) true = Panic ∧ ∀ known, addReferencedPaths blog known = Panic.
Proof.
  intros Hops (Hp & lv & Hl & <-) Hk. split.
  - unfold branchToVersionInfos. rewrite Hops, history_run_app, (history_run_live0 ref ops lv Hp Hl).
    cbn [mbind outcome_bind history_run]. unfold history_step. cbn [deleteOp op_Model op_Type op_Size]. decide_const.
    by rewrite slice_to_beyond by lia.
  - intros known. destruct blog as [? ? ? ? ? bops ?]. cbn in Hops. subst bops. cbn [addReferencedPaths lg_Ops].
    rewrite referenced_run_app, (referenced_run_live0 _ _ Hp Hl). cbn [mbind outcome_bind referenced_run].
    cbn [deleteOp op_Model op_Type op_Size]. decide_const. by rewrite slice_to_beyond by lia.
Qed.

(** Removing every version of a dataset that has one makes its log
    unreadable. The version is deleted and the call succeeds with the reference
    still at its path; but the logbook records that -1 versions were removed,
    and from then on listing the branch, and collecting the paths the logbook
    references, panic. *)
Theorem RemoveNVersionsFromStore_all fuel curr p r before stored after initID a v :
  publisher_ok (P := P) → tracked ps [""; p] (r_refs r) before stored after →
  same_names stored (RefFromDsref curr) → ref_Path curr = dr_Path stored → ref_Path curr = p → chain mux view (r_store r) [p] →
  branch_at initID a [v] (r_book r) → length a = 3 → RefToInitID curr (r_book r) = (Ok initID, r_book r) → 0 < fuel →
  ∃ info r' lg, RemoveNVersionsFromStore ps mux view fuel curr (-1) r = (Ok info, r') ∧ vi_Path info = p ∧
    fs_Delete p (r_store r) = (Ok tt, r_store r') ∧ Items curr 0 (-1) (r_book r') = (Panic, r_book r') ∧
    deref a (b_store (r_book r')) = Ok lg ∧ ∀ known, addReferencedPaths lg known = Panic.
Proof.
  intros Hpub Ht Hs Hcp <- Hc Hb Hlen Hid Hf. pose proof Hc as (Hne & (ds & Hds & _) & _).
  destruct (remove_loop_all mux view fuel (-1)%Z (ref_Path curr) [] ds (r_store r)) as (q & s' & [= <-] & Hloop & Hdel);
    [done|cbn; lia|apply NoDup_singleton|done..|].
  set (r1 := mkRepo (r_refs r) (r_book r) s').
  pose proof (RewindDatasetRef_run [""; ref_Path curr] before stored after curr (ref_Path curr) r1 Ht Hs Hcp) as Hrew.
  cbn [r_refs r_book r_store r1] in Hrew. specialize (Hrew ltac:(set_solver) ltac:(congruence) ltac:(set_solver) Hne).
  set (refs' := merge_sort _ _) in *.
  destruct (delete_runs initID a [v] (-1)%Z (r_book r) Hpub Hb) as (b' & Hwr & Hw).
  destruct Hb as [Hwf _ Ha _ (lg & Hlg & Hrep)]. destruct (edits_deref _ _ _ _ _ (proj1 Hw) Hlg) as (lg' & Hlg' & Hops').
  destruct (removed_below curr lg' (lg_Ops lg) [v] (-1)%Z Hops' Hrep) as [Hlist Hpaths]; [done|].
  exists (set_vi_Path (ref_Path curr) (ConvertToVersionInfo stored)), (mkRepo refs' b' s'), lg'. split_and!; [|done| | |done..].
  - by eapply RemoveNVersionsFromStore_run.
  - cbn [delete_all r_store] in *. apply stM_bind_Ok in Hdel as ([] & s1 & Hd & [= <-]). by rewrite Hd.
  - cbn [r_book]. rewrite (Items_run initID a lg' curr); [by rewrite Hlist| | |done].
    + by apply (RefToInitID_written _ initID a _ (r_book r) b' Hwf Hlen Hw).
    + by eapply written_branchLog.
Qed.
End repository.

(** ** Renaming *)
Definition renameOp (name : string) (ts : Z) : Op := mkOp OpTypeAmend DatasetModel "" "" [] name "" ts 0 "".

Lemma find_named_renamed m i k ls l l' : find_named m i ls = Ok None → ls !! k = Some l → Name l' = Ok m → Removed l' = Ok false →
  find_named m i (alter (λ _, l') k ls) = Ok (Some (i + k, l')).
Proof.
  intros Hnone Hk Hn Hr. revert i k Hnone Hk. induction ls as [|x ls IH]; intros i k Hnone Hk; [done|].
  cbn [find_named] in Hnone. destruct (Name x) as [nm|e|] eqn:Hx; [|done..]. cbn [mbind outcome_bind] in Hnone.
  destruct k as [|k].
  - change (alter (λ _, l') 0 (x :: ls)) with (l' :: ls). cbn [find_named]. rewrite Hn. cbn [mbind outcome_bind].
    rewrite decide_True by done. rewrite Hr. cbn. by rewrite Nat.add_0_r.
  - change (alter (λ _, l') (Datatypes.S k) (x :: ls)) with (x :: alter (λ _, l') k ls). cbn [find_named]. rewrite Hx.
    cbn [mbind outcome_bind]. replace (i + Datatypes.S k) with (Datatypes.S i + k) by lia.
    case_decide; [|by apply IH]. destruct (Removed x) as [[]|e|]; [|done..]. by apply IH.
Qed.
Lemma find_named_no_error m i ls e : find_named m i ls ≠ Error e.
Proof.
  revert i. induction ls as [|x ls IH]; intros i; [done|]. cbn [find_named]. unfold Name, Removed, Model.
  destruct (lg_Ops x); cbn; repeat (case_decide || case_match; cbn); done || apply IH.
Qed.

(** A name that led nowhere leads to the log that has taken it. *)
Lemma headref_renamed u old m i j ls lg lg' : headref_addr [u; old] ls = Ok [i; j] → headref_addr [u; m] ls = Error ErrNotFound →
  lookup_addr [i; j] ls = Some lg → Name lg' = Ok m → Removed lg' = Ok false →
  headref_addr [u; m] (alter_addr (λ _, lg') [i; j] ls) = Ok [i; j].
Proof.
  intros Hold Hnew Hlk Hn Hr. cbn [headref_addr] in Hold, Hnew. destruct (find_named u 0 ls) as [[[i' l]|]|e|] eqn:Hu; [|done..].
  cbn [mbind outcome_bind] in Hold, Hnew. pose proof Hu as (k & Hik & Hl & _)%find_named_Some. cbn in Hik. subst k.
  apply outcome_bind_Ok in Hold as (aj & Hold & [= <- ->]).
  cbn [lookup_addr] in Hlk. rewrite Hl in Hlk. cbn in Hlk. apply bind_Some in Hlk as (lg0 & Hj & [= ->]).
  assert (find_named m 0 (lg_Logs l) = Ok None) as Hm.
  { destruct (find_named m 0 (lg_Logs l)) as [[[q ?]|]|e|] eqn:Hf; [done|done| |done]. by destruct (find_named_no_error _ _ _ _ Hf). }
  cbn [alter_addr headref_addr]. rewrite find_named_alter by done. rewrite Hu. cbn. rewrite decide_True by done. cbn [lg_Logs set_Logs].
  by rewrite (find_named_renamed m 0 j _ _ lg' Hm Hj Hn Hr).
Qed.

Section rename.
Context `{OpDigest, BookCipher, Entropy} {F P : Type} `{!Filesystem F, !Publisher P} `{ProfileIDs, ProfileStore PS} (ps : PS).
Context {S K : Type} `{!VersionFS S K}.
Implicit Types (b : @Book _ F P) (r : @Repo _ F P S).

(** A dataset that can be renamed: its log is the writer's, names lead to it,
    and none leads to [name]. *)
Record renamable (initID user old name : string) (d : addr) b : Prop := mkRenamable {
  ren_wf : wf_journal (b_store b);
  ren_key : ∃ k, cipher (b_pk b) = Ok k;
  ren_get : Journal_Get initID (b_store b) = Ok d;
  ren_owned : owned d b;
  ren_log : ∃ lg o ops, deref d (b_store b) = Ok lg ∧ lg_Ops lg = o :: ops ∧ op_Model o = DatasetModel;
  ren_old : Journal_HeadRef [user; old] (b_store b) = Ok d;
  ren_new : Journal_HeadRef [user; name] (b_store b) = Error ErrNotFound;
}.

Lemma Append_rename name ts lg lg' o ops : name ≠ "" → lg_Ops lg = o :: ops → op_Model o = DatasetModel →
  Append (renameOp name ts) lg = Ok lg' → Removed lg = Ok false → Name lg' = Ok name ∧ Removed lg' = Ok false ∧ ID lg' = ID lg.
Proof.
  intros Hne Hops Hm (o' & ops' & Hops' & ->)%Append_Ok. rewrite Hops in Hops'. injection Hops' as <- <-.
  unfold Removed, Model, Name, ID. rewrite Hops. cbn [renameOp op_Model op_Name op_AuthorID mbind outcome_bind]. rewrite Hm.
  rewrite (decide_True (P := DatasetModel = DatasetModel)) by done. rewrite (decide_False (P := name = "")) by done.
  rewrite (decide_True (P := "" = "")) by done. cbn. rewrite Hm. intros [= Hrem]. split_and!.
  - by rewrite decide_False.
  - f_equal. apply orb_false_iff in Hrem as [Hd Hrem]. rewrite existsb_app. by apply orb_false_intro, orb_false_intro.
  - done.
Qed.

Lemma WriteDatasetRename_run initID user old name d b : publisher_ok (P := P) → renamable initID user old name d b → IsValidName name = true →
  ∃ b', WriteDatasetRename initID name b = (Ok tt, b') ∧
    RefToInitID (mkRef "" user "" name "") b' = (Ok initID, b').
Proof.
  intros Hpub [Hwf [k Hk] Hget Ho (lg & o & ops & Hlg & Hops & Hm) Hold Hnew] Hv.
  assert (name ≠ "") as Hne by (by intros ->).
  destruct (append_at_run d (renameOp name (NewTimestamp (b_tick b))) (tick b) lg Hlg) as (lg' & Hap & Hop).
  { unfold has_init. by rewrite Hops. }
  set (b1 := set_store (store_at d lg' (b_store (tick b))) (tick b)) in *.
  assert (wf_journal (b_store b1)) as Hwf1 by (apply wf_store_at; [done|]; eapply Append_wf; [by eapply wf_deref|done]).
  set (b2 := set_publisher (Publish ETDatasetRename (mkDsChange initID 0 "" "" name "" None "") (b_publisher b1)).2 b1).
  exists (save b2).2. split.
  - unfold WriteDatasetRename. rewrite Hv. cbn [negb]. rewrite (bind_run (datasetLog initID) _ b d b) by (by rewrite datasetLog_run, Hget).
    rewrite (bind_run _ _ _ _ _ (hasWriteAccess_owned _ _ Ho)), now_run.
    rewrite (bind_run (DatasetLog_Append d _) _ (tick b) tt b1) by (by rewrite DatasetLog_Append_eq).
    rewrite (bind_run _ _ _ _ _ (publish_run _ _ b1 Hpub)). by apply (save_run b2 k).
  - assert (b_store (save b2).2 = store_at d lg' (b_store b)) as Hst by (by destruct (save_kept b2) as [-> _]).
    destruct (headref_addr_named [user; old] (j_logs (b_store b)) d) as [lgd Hpath]; [done|exact Hold|].
    pose proof (named_path_lookup _ _ _ _ Hpath) as Hlk. pose proof Hlg as Hlg0. apply deref_Ok in Hlg0. rewrite Hlk in Hlg0. injection Hlg0 as ->.
    apply named_path_end in Hpath as Hend. destruct Hend as [_ Hrem]. apply named_path_length in Hpath.
    destruct d as [|i [|j [|]]]; [done..| |done].
    destruct (Append_rename name _ lg lg' o ops Hne Hops Hm Hop Hrem) as (Hn' & Hr' & Hid').
    unfold RefToInitID. cbn [ref_Username ref_Name]. rewrite Hst. unfold Journal_HeadRef, store_at.
    assert (j_logs (set_j_logs (alter_addr (λ _, lg') [i; j] (j_logs (b_store b))) (b_store b)) =
            alter_addr (λ _, lg') [i; j] (j_logs (b_store b))) as -> by done.
    rewrite (headref_renamed user old name i j _ lg lg') by done. f_equal.
    assert (deref [i; j] (set_j_logs (alter_addr (λ _, lg') [i; j] (j_logs (b_store b))) (b_store b)) = Ok lg') as ->.
    { apply deref_Ok. change (lookup_addr [i; j] (alter_addr (λ _, lg') [i; j] (j_logs (b_store b))) = Some lg').
      by rewrite lookup_alter_addr, Hlk. }
    cbn [mbind outcome_bind]. f_equal. rewrite Hid'. destruct (Get_sound _ _ _ Hget) as (x & Hx & Hxid & _). congruence.
Qed.
Definition renamed_ref (name : string) (x : Refstore.DatasetRef) : Refstore.DatasetRef :=
  mkDatasetRef (dr_Peername x) (dr_ProfileID x) name (dr_Path x) (dr_FSIPath x) None (dr_Published x) false.
Definition with_name (name : string) (ref : Ref) : Ref := mkRef "" (ref_Username ref) (ref_ProfileID ref) name "".

(** A dataset with a version, whose log can be written and is found by its name,
    is renamed to a valid name that leads nowhere: the new name leads to its log,
    and to its stored reference, at the same version; the old name is not stored
    any more. *)
Lemma RenameDatasetRef_run ref name r before stored after d :
  publisher_ok (P := P) → tracked ps [""; dr_Path stored] (r_refs r) before stored after →
  same_names stored (RefFromDsref ref) → ref_Path ref = dr_Path stored → dr_Path stored ≠ "" →
  IsValidName name = true → ref_Name ref ≠ name →
  (∀ x y, x ∈ before ++ after → same_names (renamed_ref name stored) y → dr_Path y ∈ [""; dr_Path stored] → Match x y = false) →
  renamable (ref_InitID ref) (ref_Username ref) (ref_Name ref) name d (r_book r) →
  ∃ r', RenameDatasetRef ps ref name r =
      (Ok (renamed (ref_InitID ref) name (ConvertToVersionInfo (forgets_dataset stored))), r') ∧
    RefToInitID (mkRef "" (ref_Username ref) "" name "") (r_book r') = (Ok (ref_InitID ref), r_book r') ∧
    (∃ found, GetVersionInfoShim (with_name name ref) (r_refs r') = Ok found ∧ vi_Name found = name ∧
       vi_Path found = dr_Path stored ∧ vi_FSIPath found = dr_FSIPath stored) ∧
    GetVersionInfoShim (with_name (ref_Name ref) ref) (r_refs r') = Error ErrRepoNotFound.
Proof.
  intros Hpub Ht Hs Hp Hne Hv Hother Hfresh Hren. pose proof Hs as (Hs1 & Hs2 & Hs3). cbn in Hs1, Hs3.
  pose proof (tr_id _ _ _ _ _ _ Ht) as (Hid & Hsid & Hback). assert (name ≠ "") as Hnn by (by intros ->).
  destruct (WriteDatasetRename_run _ _ _ _ _ _ Hpub Hren Hv) as (b' & Hwr & Hlog).
  assert ((repo_ResolveRef (mkRef "" (ref_Username ref) "" name "") r).1 = Error ErrRefNotFound) as Hres.
  { unfold repo_ResolveRef, ResolveRef, Book_ResolveRef, RefToInitID. cbn [ref_Username ref_Name].
    by rewrite (ren_new _ _ _ _ _ _ Hren). }
  set (put := renamed_ref name stored). set (refs' := merge_sort key_le ((before ++ after) ++ [put])).
  assert (DeleteVersionInfoShim ps ref (r_refs r) = Ok (ConvertToVersionInfo (forgets_dataset stored), before ++ after)) as Hdel
    by (apply (tracked_delete _ _ _ _ _ _ _ Ht); [done..|set_solver|done]).
  set (vi := renamed (ref_InitID ref) name (ConvertToVersionInfo (forgets_dataset stored))).
  assert (PutVersionInfoShim ps vi (before ++ after) = Ok refs') as Hput.
  { apply put_back; try done.
    - unfold RefFromVersionInfo, put, renamed_ref. cbn. by rewrite Hback.
    - by apply (tr_user _ _ _ _ _ _ Ht).
    - intros x Hx. apply Hfresh; [done..|]. cbn. set_solver. }
  exists (mkRepo refs' b' (r_store r)). split_and!.
  - unfold RenameDatasetRef. rewrite Hv. cbn [negb]. rewrite decide_False by done.
    rewrite (bind_run st_get _ r r r) by done. rewrite Hres. cbn iota. change (errors_Is ErrRefNotFound "reference not found") with true. cbn iota.
    rewrite (bind_run _ _ _ _ _ (on_repo_book_run _ r _ _ Hwr)). unfold repo_delete, repo_put.
    rewrite (bind_run (on_repo_refs _) _ (mkRepo (r_refs r) b' _) _ _ (on_repo_refs_run _ (mkRepo (r_refs r) b' _) _ _ Hdel)). cbn [r_book r_store].
    erewrite (bind_run (on_repo_refs _) _ (mkRepo (before ++ after) _ _)) by (apply on_repo_refs_run; cbn [r_refs]; fold vi; by rewrite Hput).
    done.
  - done.
  - exists (ConvertToVersionInfo put). split; [|done]. unfold GetVersionInfoShim. cbn [r_refs]. subst refs'.
    rewrite GetRef_put_back with (put := put); [done|by split_and!|]. intros x Hx. apply Hfresh; [done|by split_and!|]. cbn. set_solver.
  - unfold GetVersionInfoShim, GetRef. cbn [r_refs].
    rewrite (proj2 (find_index_from_None _ _ _)); [done|]. intros x. subst refs'.
    rewrite merge_sort_Permutation, elem_of_app, list_elem_of_singleton. intros [Hx| ->].
    + apply (tr_alone _ _ _ _ _ _ Ht); [done|by split_and!|]. cbn. set_solver.
    + unfold Match. cbn. rewrite andb_false_r. cbn. rewrite (bool_decide_eq_false_2 (name = ref_Name ref)) by done. by rewrite andb_false_r.
Qed.
End rename.

(** ** The theorems at work, in a filesystem that maps versions to the one before *)
Module RepoDemo.
Import Demo.
#[local] Existing Instances LinkDemo.ids LinkDemo.owner.
Definition read (path : string) (s : gmap string string) : outcome string :=
  match s !! path with Some prev => Ok prev | None => Error (ErrSentinel "not found") end.
#[local] Instance versions : VersionFS (gmap string string) string := {|
  store_of s := {|
    fs_Type := "";
    known_fs_types := [];
    fs_read path := read path s;
    UnmarshalDataset prev := Ok (λ _, Some (mkComponentRef prev None));
    Unmarshal _ _ := Ok None;
  |};
  fs_Delete path s := match s !! path with Some _ => (Ok tt, delete path s) | None => (Error (ErrSentinel "not found"), s) end;
  fs_Has path s := Ok (bool_decide (is_Some (s !! path)));
|}.
Definition view (ds : StoredDataset string) : Dataset :=
  mkDataset "" "" "" (sd_Path ds) (from_option co_Path "" (sd_component ds KCommit)) 0 None None None.
#[local] Instance versions_laws : VersionFSLaws (gmap string string) string "mux".
Proof.
  split.
  - intros s p ds. unfold load_refs, LoadDatasetRefs. change (fs_read _) with (read p s). unfold read. cbn [fs_Delete versions].
    destruct (s !! p); [by eexists|done].
  - intros s s' p q. cbn [fs_Delete versions]. destruct (s !! p); [|done]. intros [= <-] Hq. unfold load_refs, LoadDatasetRefs.
    change (fs_read _) with (read q (delete p s)) at 1. change (fs_read _) with (read q s). unfold read. by rewrite lookup_delete_ne.
Qed.

Definition cities (path dir : string) : Refstore.DatasetRef := mkDatasetRef "alice" "QmAlice" "cities" path dir None false false.
Definition rivers : Refstore.DatasetRef := mkDatasetRef "alice" "QmAlice" "rivers" "/ipfs/QmR" "" None false false.
Definition ref (path : string) : Ref := mkRef cities_id "alice" "QmAlice" "cities" path.
Definition two : list string := ["/ipfs/Qm2"; "/ipfs/Qm1"].
Definition saved2 : book := (WriteVersionSave cities_id (version "/ipfs/Qm2" "/ipfs/Qm1" 20) None saved).2.
Definition store1 : gmap string string := {["/ipfs/Qm1" := ""]}.
Definition repo2 := mkRepo [cities "/ipfs/Qm2" ""; rivers] saved2 (<["/ipfs/Qm2" := "/ipfs/Qm1"]> store1).
Definition repo1 := mkRepo [cities "/ipfs/Qm1" "/work"; rivers] (saved : book) store1.

Lemma cities_canonical path dir y : same_names (cities path dir) y → canonicalizeProfile LinkDemo.me y = (Ok tt, y).
Proof. destruct y. intros (Hp & Hi & Hn). cbn in *. by subst. Qed.
Lemma cities_tracked paths path dir : "/ipfs/QmR" ∉ paths →
  tracked LinkDemo.me paths [cities path dir; rivers] [] (cities path dir) [rivers].
Proof.
  intros Hr. split.
  - reflexivity.
  - split_and!; [discriminate|discriminate|reflexivity].
  - discriminate.
  - reflexivity.
  - intros y. apply cities_canonical.
  - intros x y Hx%list_elem_of_singleton (Hp & Hi & Hn) Hin. subst x. unfold Match. rewrite Hp, Hi, Hn. cbn.
    rewrite (bool_decide_eq_false_2 ("/ipfs/QmR" = _)) by congruence. by rewrite andb_false_r.
Qed.

Lemma saved2_branch_at : branch_at cities_id [0; 0; 0] [saved_version; mkVersion "/ipfs/Qm2" 20 0 "edit"] saved2.
Proof.
  split.
  - repeat first [constructor | discriminate].
  - by exists "k".
  - vm_compute. reflexivity.
  - unfold owned. eexists _, _, _. split_and!; vm_compute; reflexivity.
  - eexists. split; [vm_compute; reflexivity|]. split; [|by eexists].
    repeat (apply List.Forall_cons; [first [by left | right; cbv; tauto]|]); apply List.Forall_nil.
Qed.

Lemma RemoveNVersionsFromStore_rewinds_witness :
  ∃ info r', RemoveNVersionsFromStore LinkDemo.me "mux" view 1 (ref "/ipfs/Qm2") 1 repo2 = (Ok info, r') ∧
    map_to_list (r_store r') = [("/ipfs/Qm1", "")] ∧
    map vi_Path <$> (Items (ref "/ipfs/Qm2") 0 (-1) (r_book r')).1 = Ok ["/ipfs/Qm1"].
Proof.
  destruct (RemoveNVersionsFromStore_rewinds LinkDemo.me "mux" view 1 (ref "/ipfs/Qm2") 1 two repo2 [] (cities "/ipfs/Qm2" "") [rivers]
    cities_id [0; 0; 0] [saved_version; mkVersion "/ipfs/Qm2" 20 0 "edit"]) as (info & r' & Hrun & Hdel & _ & _ & items & Hitems & Hpaths).
  - intros typ payload p. discriminate.
  - apply cities_tracked. apply (bool_decide_unpack _). by vm_compute.
  - by split_and!.
  - reflexivity.
  - reflexivity.
  - apply (bool_decide_unpack _). by vm_compute.
  - cbn. split_and!; [discriminate| |discriminate| |done]; (eexists; split; [by vm_compute|by vm_compute]).
  - exact saved2_branch_at.
  - reflexivity.
  - vm_compute. reflexivity.
  - reflexivity.
  - cbn. lia.
  - lia.
  - exists info, r'. split; [exact Hrun|]. split.
    + apply (f_equal snd) in Hdel. cbn [snd] in Hdel. rewrite <- Hdel. by vm_compute.
    + rewrite Hitems. cbn. by rewrite Hpaths.
Defined.

Lemma RemoveNVersionsFromStore_all_witness :
  ∃ info r', RemoveNVersionsFromStore LinkDemo.me "mux" view 1 (ref "/ipfs/Qm1") (-1)%Z repo1 = (Ok info, r') ∧
    (Items (ref "/ipfs/Qm1") 0 (-1) (r_book r')).1 = Panic.
Proof.
  destruct (RemoveNVersionsFromStore_all LinkDemo.me "mux" view 1 (ref "/ipfs/Qm1") "/ipfs/Qm1" repo1 [] (cities "/ipfs/Qm1" "/work") [rivers]
    cities_id [0; 0; 0] saved_version) as (info & r' & lg & Hrun & _ & _ & Hitems & _).
  - intros typ payload p. discriminate.
  - apply cities_tracked. apply (bool_decide_unpack _). by vm_compute.
  - by split_and!.
  - reflexivity.
  - reflexivity.
  - cbn. split_and!; [discriminate| |done]. eexists. split; by vm_compute.
  - exact saved_branch_at.
  - reflexivity.
  - vm_compute. reflexivity.
  - lia.
  - exists info, r'. split; [exact Hrun|]. by rewrite Hitems.
Defined.
End RepoDemo.
