(* ===== verification/RepositoryLog.v ===== *)
(** * The log of a dataset, read from its versions

    A dataset without a log is listed from its versions, each of which names
    the one before it; its owner's logbook then gets a log made of these. The
    history is read newest first and recorded in that order. *)
From S2P Require Import HistoryFacts LogbookEdits LogbookInit LogbookSession Instances LinksSpec DatasetFiles Repository.
From S2P Require Export RepositorySpec.

(** ** The stored history *)
Section history.
Context {S K : Type} `{!VersionFS S K} (mux : string) (view : StoredDataset K → Dataset).
Implicit Types (s : S) (dss : list (StoredDataset K)).

Definition load_version_of (full : bool) (path : string) s : outcome (StoredDataset K) :=
  if full then load_full mux path s else load_refs mux path s.

(** The versions that are read from a path on, newest first *)
Fixpoint reads (full : bool) s (path : string) dss : Prop :=
  match dss with
  | [] => path = ""
  | ds :: dss => path ≠ "" ∧ load_version_of full path s = Ok ds ∧ ds_Path (view ds) = path ∧
                 reads full s (ds_PreviousPath (view ds)) dss
  end.

(** A page of a stored history; a limit that is not positive is none. *)
Definition stored_page {A} (offset limit : Z) (l : list A) : list A :=
  let l := drop (Z.to_nat offset) l in if decide (limit ≤ 0)%Z then l else take (Z.to_nat limit) l.

Lemma stored_page_later {A} offset limit (x : A) l : (0 < offset)%Z →
  stored_page offset limit (x :: l) = stored_page (offset - 1) limit l.
Proof.
  intros Ho. unfold stored_page. by replace (Z.to_nat offset) with (Datatypes.S (Z.to_nat (offset - 1))) by lia.
Qed.
Lemma stored_page_here {A} offset limit (x : A) l : (offset ≤ 0)%Z → limit ≠ 1%Z →
  stored_page offset limit (x :: l) = x :: stored_page (offset - 1) (limit - 1) l.
Proof.
  intros Ho Hl. unfold stored_page. replace (Z.to_nat offset) with 0 by lia. replace (Z.to_nat (offset - 1)) with 0 by lia. cbn [drop].
  repeat case_decide; [done|lia|lia|].
  by replace (Z.to_nat limit) with (Datatypes.S (Z.to_nat (limit - 1))) by lia.
Qed.

Lemma stored_page_single {A} offset limit (x : A) : stored_page offset limit [x] = if bool_decide (offset ≤ 0)%Z then [x] else [].
Proof.
  unfold stored_page. case_bool_decide as Ho.
  - replace (Z.to_nat offset) with 0 by lia. cbn [drop]. case_decide as Hl; [done|].
    assert (∃ n, Z.to_nat limit = Datatypes.S n) as [n ->] by (exists (Z.to_nat limit - 1); lia). cbn. by rewrite take_nil.
  - rewrite drop_ge by (cbn; lia). case_decide; [done|]. by rewrite take_nil.
Qed.

(** Reading it takes no more fuel than there are versions. *)
Lemma stored_history_reads fuel full s path dss offset limit : reads full s path dss → path ≠ "" → length dss ≤ fuel →
  stored_history mux view fuel path offset limit full s = Ok (stored_page offset limit dss).
Proof.
  revert fuel path offset limit. induction dss as [|ds dss IH]; intros fuel path offset limit Hr Hp Hf; [done|].
  destruct fuel as [|fuel]; [cbn in Hf; lia|]. destruct Hr as (_ & Hld & _ & Hr). cbn [stored_history].
  unfold load_version_of in Hld. rewrite Hld. cbn zeta.
  pose proof (stored_page_single offset limit ds) as Hlast.
  destruct (decide (offset ≤ 0 ∧ limit = 1)%Z) as [[Ho ->]|Hmore].
  { rewrite bool_decide_eq_true_2 by done. cbn [andb]. rewrite bool_decide_eq_true_2 by done. f_equal. unfold stored_page.
    by replace (Z.to_nat offset) with 0 by lia. }
  replace (bool_decide (offset ≤ 0)%Z && _) with false.
  2: { symmetry. destruct (bool_decide_reflect (offset ≤ 0)%Z); [|done]. cbn [andb]. apply bool_decide_eq_false_2. lia. }
  destruct (decide (ds_PreviousPath (view ds) = "")) as [Hprev|Hprev].
  - rewrite Hprev in Hr. destruct dss as [|? ?]; [by rewrite Hlast|by destruct Hr].
  - rewrite IH by (done || cbn in Hf; lia). cbn [mbind outcome_bind]. f_equal.
    case_bool_decide as Ho; [by rewrite stored_page_here by lia|by rewrite stored_page_later by lia].
Qed.
End history.

(** ** A log made of versions *)
Section reconstruct.
Context `{OpDigest, BookCipher, Entropy} {F P : Type} `{!Filesystem F, !Publisher P}.
Implicit Types b : @Book _ F P.

Lemma append_history_run a history ops b : owned a b → Forall2 (λ ds op, versionSaveOp ds = Ok op) history ops →
  ∃ b', append_history a history b = (Ok tt, b') ∧ written a ops b b'.
Proof.
  intros Ho Hops. revert b Ho. induction Hops as [|ds op history ops Hop Hops IH]; intros b Ho.
  { exists b. split; [done|]. apply written_refl. }
  destruct (appendVersionSave_written a ds op b Ho Hop) as (b1 & n & Hrun & Hw & _).
  destruct (IH b1) as (b' & Hrun' & Hw'); [by eapply written_owned|]. exists b'. split.
  - cbn [append_history]. by rewrite (bind_run _ _ _ _ _ Hrun).
  - change (op :: ops) with ([op] ++ ops). by eapply written_trans.
Qed.

Lemma versions_saved history : Forall (λ ds, is_Some (ds_Commit ds)) history →
  ∃ ops, Forall2 (λ ds op, versionSaveOp ds = Ok op) history ops ∧ map op_Ref ops = map ds_Path history ∧
    Forall (λ op, op_Model op = CommitModel ∧ op_Type op = OpTypeInit) ops.
Proof.
  induction 1 as [|ds history [cm Hcm] _ (ops & Hops & Hrefs & Hplain)].
  { exists []. split_and!; [constructor|done|constructor]. }
  eexists (_ :: ops). split_and!.
  - constructor; [|done]. unfold versionSaveOp. by rewrite Hcm.
  - cbn. by rewrite Hrefs.
  - by constructor.
Qed.

(** Operations that only save stand for their versions. *)
Lemma saves_live ops vs : Forall (λ op, op_Model op = CommitModel ∧ op_Type op = OpTypeInit) ops → live vs ops = Some (vs ++ ops).
Proof.
  intros Hops. revert vs. induction Hops as [|op ops [Hm Ht] _ IH]; intros vs; cbn [live]; [by rewrite app_nil_r|].
  unfold live_step. rewrite Hm, Ht. decide_const. cbn [mbind option_bind]. by rewrite IH, <- app_assoc.
Qed.
Lemma saves_represent init ops : op_Model init = BranchModel →
  Forall (λ op, op_Model op = CommitModel ∧ op_Type op = OpTypeInit) ops → represents (init :: ops) (map LogbookSession.version_of ops).
Proof.
  intros Hi Hops. split.
  - constructor; [left; by rewrite Hi|]. eapply Forall_impl; [exact Hops|]. intros op [Hm Ht]. right. by auto.
  - exists ops. split; [|done]. cbn [live]. unfold live_step. rewrite Hi. decide_const. cbn [mbind option_bind]. by apply (saves_live ops []).
Qed.
Lemma saves_latest init ops : Forall (λ op, op_Model op = CommitModel ∧ op_Type op = OpTypeInit) ops → ops ≠ [] →
  latestSavePath_loop 0 (reverse (init :: ops)) = default "" (last (map op_Ref ops)).
Proof.
  intros Hops Hne. destruct ops as [|op ops _] using rev_ind; [done|]. apply Forall_app in Hops as [_ [[Hm Ht] _]%Forall_cons].
  rewrite map_app, last_app. cbn [map last]. rewrite app_comm_cons, reverse_snoc. cbn [latestSavePath_loop]. rewrite Hm, Ht. by decide_const.
Qed.
End reconstruct.

(** ** The history before and after *)
Section repository.
Context `{OpDigest, BookCipher, Entropy} {F P : Type} `{!Filesystem F, !Publisher P}.
Context {S K : Type} `{!VersionFS S K} (mux : string) (view : StoredDataset K → Dataset).
Implicit Types (r : @Repo _ F P S) (dss : list (StoredDataset K)).

Lemma reads_paths full (s : S) path dss : reads mux view full s path dss → path ≠ "" → head (map ds_Path (map view dss)) = Some path.
Proof. destruct dss as [|ds dss]; [done|]. intros (_ & _ & <- & _) _. done. Qed.

(** What is listed of a dataset that the logbook does not know *)
Lemma DatasetLog_stored fuel ref limit offset full dss r : (∃ e, (RefToInitID (mkRef "" (ref_Username ref) "" (ref_Name ref) "") (r_book r)).1 = Error e) →
  ref_Path ref ≠ "" → reads mux view full (r_store r) (ref_Path ref) dss → length dss ≤ fuel →
  DatasetLog mux view fuel ref limit offset full r =
    Ok (map (λ ds, named_version ref (view ds)) (stored_page offset limit dss)).
Proof.
  intros [e He] Hne Hr Hf. unfold DatasetLog.
  assert (∃ e, (Items ref offset limit (r_book r)).1 = Error e) as [e' ->].
  { unfold Items, mbind, stM_bind. destruct (RefToInitID _ _) as [[]]; naive_solver. }
  rewrite decide_False by done. by rewrite (stored_history_reads mux view fuel full (r_store r) (ref_Path ref) dss).
Qed.

(** What a book knows of a name that is free *)
Lemma unknown_name ref (b : @Book _ F P) : Journal_HeadRef [ref_Username ref; ref_Name ref] (b_store b) = Error ErrNotFound →
  RefToInitID ref b = (Error ErrLogbookNotFound, b).
Proof. intros Hno. unfold RefToInitID. by rewrite Hno. Qed.

(** C14: a log that is made of a dataset's versions is upside down. For a dataset
    of the logbook's author that the logbook does not know, whose versions read
    from its path on, the history lists them newest first; once the logbook has
    been given a log of them, it lists them oldest first, and the dataset's name
    resolves to its oldest version. *)
Theorem constructed_reversed fuel ref dss r i alog profileID k :
  publisher_ok (P := P) → wf_journal (b_store (r_book r)) → cipher (b_pk (r_book r)) = Ok k →
  ref_Username ref = b_authorName (r_book r) → ref_Name ref ≠ "" → IsValidName (ref_Name ref) = true →
  Journal_HeadRef [b_authorName (r_book r)] (b_store (r_book r)) = Ok [i] →
  Journal_HeadRef [b_authorName (r_book r); ref_Name ref] (b_store (r_book r)) = Error ErrNotFound →
  Journal_Get (b_authorID (r_book r)) (b_store (r_book r)) = Ok [i] → deref [i] (b_store (r_book r)) = Ok alog →
  UserLog_ProfileID alog = Ok profileID → absent (Hash (datasetInitOp (r_book r) (ref_Name ref))) (j_logs (b_store (r_book r))) →
  ref_Path ref ≠ "" → reads mux view true (r_store r) (ref_Path ref) dss → Forall (λ ds, is_Some (ds_Commit (view ds))) dss →
  length dss ≤ fuel → (Z.of_nat (length dss) ≤ 1000000)%Z → ref_ProfileID ref ≠ "" →
  let paths := map (λ ds, ds_Path (view ds)) dss in
  ∃ initID r' before after, constructDatasetLogFromHistory mux view fuel ref r = (Ok tt, r') ∧
    DatasetLog mux view fuel ref (-1) 0 true r = Ok before ∧ map vi_Path before = paths ∧
    Items ref 0 (-1) (r_book r') = (Ok after, r_book r') ∧ map vi_Path after = reverse paths ∧
    Book_ResolveRef (Some (r_book r')) (mkRef "" (ref_Username ref) (ref_ProfileID ref) (ref_Name ref) "") =
      (Ok "", mkRef initID (ref_Username ref) (ref_ProfileID ref) (ref_Name ref) (default "" (last paths))).
Proof.
  intros Hpub Hwf Hk Huser Hne Hv Hu Hno Hget Hlg Hpid Habs Hp Hr Hcm Hf Hmax Hpr paths.
  set (b := r_book r) in *.
  destruct (dataset_created b (ref_Name ref) i alog profileID k) as (id & b1 & a & br & Hinit & Hid & Ha & Ho & Hbr & Hops & _ & Hwf1 & Hk1 & Hlen & _);
    [done..|].
  assert (Forall (λ ds, is_Some (ds_Commit ds)) (map view dss)) as Hcm' by by rewrite Forall_map.
  destruct (versions_saved _ Hcm') as (ops & Hsaved & Hrefs & Hplain).
  destruct (append_history_run a (map view dss) ops b1 Ho Hsaved) as (b2 & Happ & Hw).
  pose proof (edits_wf _ _ _ _ (proj1 Hw) Hwf1) as Hwf2.
  assert (save b2 = (Ok tt, (save b2).2)) as Hsave.
  { apply (save_run b2 k); [done|]. destruct Hw as [_ (_ & -> & _)]. by rewrite Hk1. }
  pose proof (written_kept _ _ _ _ _ Hw (save_kept b2)) as Hw'. set (b3 := (save b2).2) in *.
  destruct (edits_deref _ _ _ _ _ (proj1 Hw') Hbr) as (br' & Hbr' & Hops').
  rewrite Hops in Hops'. cbn [app] in Hops'.
  assert (map op_Ref ops = paths) as Hpaths by (rewrite Hrefs, map_map; done).
  assert (branch_at id a (map LogbookSession.version_of ops) b3) as Hat.
  { split.
    - by apply (edits_wf _ _ _ _ (proj1 Hw')).
    - exists k. destruct Hw' as [_ (_ & -> & _)]. by rewrite Hk1.
    - by eapply written_branchLog.
    - by eapply written_owned.
    - exists br'. split; [done|]. rewrite Hops'. by apply saves_represent. }
  assert (RefToInitID (mkRef "" (ref_Username ref) "" (ref_Name ref) "") b3 = (Ok id, b3)) as Hid3.
  { rewrite Huser. by apply (RefToInitID_written _ id a ops b1 b3). }
  pose proof (unknown_name ref b) as Hunk. rewrite Huser in Hunk. specialize (Hunk Hno).
  exists id, (mkRepo (r_refs r) b3 (r_store r)). eexists _, _. split_and!.
  - unfold constructDatasetLogFromHistory.
    rewrite (bind_run (st_read _) _ r dss r).
    2: { unfold st_read. rewrite (stored_history_reads mux view fuel true (r_store r) (ref_Path ref) dss 0 1000000) by done.
         unfold stored_page. rewrite decide_False by lia. change (Z.to_nat 0) with 0. rewrite drop_0.
         by rewrite take_ge by lia. }
    apply on_repo_book_run. unfold ConstructDatasetLog. fold b. rewrite Hunk.
    rewrite (bind_run _ _ _ _ _ Hinit), (bind_run _ _ _ _ _ Ha), (bind_run _ _ _ _ _ Happ). exact Hsave.
  - apply DatasetLog_stored; [|done..]. fold b. rewrite unknown_name by (cbn; by rewrite Huser). by eexists.
  - unfold stored_page. cbn [Z.to_nat drop]. rewrite decide_True by lia. by rewrite map_map.
  - by apply (Items_listed id a (map LogbookSession.version_of ops)).
  - rewrite page_all, map_reverse, !map_map. by rewrite <- Hpaths.
  - unfold Book_ResolveRef. cbn [r_book].
    replace (RefToInitID _ b3) with (Ok id : outcome string, b3) by (by rewrite <- Hid3). cbn [fst]. unfold resolve_path, resolve_profile. cbn [ref_Path ref_ProfileID]. rewrite decide_True by done.
    rewrite (at_branch _ _ _ _ Hat). cbn [fst mbind outcome_bind]. rewrite Hbr'. cbn [mbind outcome_bind].
    rewrite decide_False by done. unfold latestSavePath. rewrite Hops', saves_latest, Hpaths; [done|done|].
    intros ->. cbn in Hpaths. destruct dss; [by destruct Hp|done].
Qed.
End repository.

(** ** Two versions without a log *)
Module LogDemo.
Import Demo RepoDemo.
#[local] Existing Instances LinkDemo.ids LinkDemo.owner RepoDemo.versions.
Definition committed (ds : StoredDataset string) : Dataset :=
  version (sd_Path ds) (from_option co_Path "" (sd_component ds KCommit)) 10.
Definition unlogged := mkRepo [cities "/ipfs/Qm2" ""] (new_book : book) (<["/ipfs/Qm2" := "/ipfs/Qm1"]> store1).
Definition stored_at (path : string) : StoredDataset string :=
  match load_full "mux" path (r_store unlogged) with Ok ds => ds | _ => mkStored path (λ _, None) end.

Lemma constructed_reversed_witness :
  ∃ r' before after, constructDatasetLogFromHistory "mux" committed 2 (ref "/ipfs/Qm2") unlogged = (Ok tt, r') ∧
    DatasetLog "mux" committed 2 (ref "/ipfs/Qm2") (-1) 0 true unlogged = Ok before ∧ map vi_Path before = ["/ipfs/Qm2"; "/ipfs/Qm1"] ∧
    Items (ref "/ipfs/Qm2") 0 (-1) (r_book r') = (Ok after, r_book r') ∧ map vi_Path after = ["/ipfs/Qm1"; "/ipfs/Qm2"].
Proof.
  destruct (constructed_reversed "mux" committed 2 (ref "/ipfs/Qm2") (stored_at <$> two) unlogged 0
    (default (InitLog zero_Op) (j_logs (b_store (new_book : book)) !! 0)) "QmAlice" "k")
    as (id & r' & before & after & Hrun & Hb & Hbp & Ha & Hap & _).
  - intros typ payload p. discriminate.
  - repeat first [constructor | discriminate].
  - reflexivity.
  - reflexivity.
  - discriminate.
  - reflexivity.
  - vm_compute. reflexivity.
  - vm_compute. reflexivity.
  - vm_compute. reflexivity.
  - vm_compute. reflexivity.
  - reflexivity.
  - intros [|[|j] [|j' y]] x Hx; try discriminate. injection Hx as <-. vm_compute. discriminate.
  - discriminate.
  - cbn. split_and!; [discriminate|by vm_compute|by vm_compute|discriminate|by vm_compute|by vm_compute|by vm_compute].
  - repeat (apply List.Forall_cons; [by eexists|]). apply List.Forall_nil.
  - reflexivity.
  - discriminate.
  - discriminate.
  - exists r', before, after. split; [exact Hrun|]. split; [exact Hb|]. split; [exact Hbp|]. split; [exact Ha|exact Hap].
Defined.
End LogDemo.
