(* ===== verification/DatasetsSpec.v ===== *)
(** * The properties of renaming and removing datasets

    Renaming moves the log, the stored reference and the link of a directory
    together. Removing refuses a directory with changes; removing everything
    leaves the versions where they are. *)
From S2P Require Import DatasetFiles HistoryFacts LogbookEdits Instances.
From S2P Require Export LibrarySpec RepositorySpec Datasets.

Lemma bind_fails {S A B} (m : stM S A) (f : A → stM S B) s e s' : m s = (Error e, s') → (m ≫= f) s = (Error e, s').
Proof. unfold mbind, stM_bind. by intros ->. Qed.

Lemma fsi_path dir : IsFSIPath (PathPrefix +:+ dir) = true.
Proof. unfold IsFSIPath. apply strings_HasPrefix_spec. by exists dir. Qed.
Lemma fsi_path_local dir : FilesystemPathToLocal (PathPrefix +:+ dir) = dir.
Proof. apply strings_TrimPrefix_app. Qed.
Lemma dirty_not_all items : Exists (λ i, si_Type i ≠ "unmodified") items → all_unmodified items = false.
Proof.
  unfold all_unmodified. induction 1 as [i items Hi|i items Hi IH]; cbn.
  - by rewrite bool_decide_eq_false_2.
  - by rewrite IH, andb_false_r.
Qed.

(** Computations that leave a part of the state as it is *)
Definition leaves {S T A} (get : S → T) (m : stM S A) : Prop := ∀ s, get (m s).2 = get s.
Lemma leaves_bind {S T A B} (get : S → T) (m : stM S A) (f : A → stM S B) :
  leaves get m → (∀ a, leaves get (f a)) → leaves get (m ≫= f).
Proof.
  intros Hm Hf s. unfold mbind, stM_bind. specialize (Hm s). destruct (m s) as [[a|e|] s']; [|done..]. by rewrite Hf.
Qed.
Lemma leaves_attempt {S T A} (get : S → T) (m : stM S A) : leaves get m → leaves get (attempt m).
Proof. intros Hm s. unfold attempt. specialize (Hm s). by destruct (m s) as [[a|e|] s']. Qed.
Ltac frame :=
  repeat match goal with
    | |- leaves _ (_ ≫= _) => apply leaves_bind; [|intros ?]
    | |- leaves _ (attempt _) => apply leaves_attempt
    | |- leaves _ (if ?b then _ else _) => destruct b
    | |- leaves _ (let _ := _ in _) => cbn zeta
    | |- leaves _ (match ?x with inl _ => _ | inr _ => _ end) => destruct x
    | |- _ => by intros ?
    end.

(** No item is listed with a limit of none. *)
Lemma history_none lg ref c items : branchToVersionInfos lg ref 0 0 c = Ok items → items = [].
Proof.
  intros Hr. unfold branchToVersionInfos in Hr. apply outcome_bind_Ok in Hr as ([refs n] & _ & Hr).
  rewrite history_page_eq in Hr by lia. by injection Hr as <-.
Qed.

Section datasets.
Context `{OpDigest, BookCipher, Entropy} {F P : Type} `{!Filesystem F, !Publisher P, !LinkPublisher P}.
Context `{ProfileIDs, ProfileStore PS} (ps : PS) `{!OS} {V : Type} `{L : !ComponentLib V} `{W : !MapWalk}.
Context `{N : !Network, !DatasetFilesLib V} {S K : Type} `{!VersionFS S K} (mux : string)
  (of_stored : StoredDataset K → WDataset V) (view : StoredDataset K → Dataset) {CF : Type}.
Implicit Types w : @World _ F P S CF.

(** ** Removing what a directory is linked to *)

(** A directory with changes is not removed. Unless its files are to be kept,
    or it is forced, removing a dataset that is linked to a directory where a
    component differs from the version that is stored fails, whatever number of
    revisions is asked for, and changes nothing. *)
Theorem Remove_refuses_dirty fuel p gen ref src dir items w : rp_Revision p = Some (Revisions.mkRev "ds" gen) → gen ≠ 0%Z →
  rp_KeepFiles p = false → rp_Force p = false →
  ParseAndResolveRefWithWorkingDir (rp_Ref p) "local" (w_inst w) = Ok (ref, src) →
  ref_Path ref = PathPrefix +:+ dir → dir ≠ "" →
  (let E := store_of (w_store w) in Status mux of_stored dir (w_inst w)) = Ok items →
  Exists (λ i, si_Type i ≠ "unmodified") items →
  Remove ps mux of_stored view fuel p w = (Error ErrCantRemoveDirectoryDirty, w).
Proof.
  intros Hrev Hgen Hkeep Hforce Hres Hpath Hdir Hst Hdirty. unfold Remove. rewrite Hrev. rewrite decide_False by done.
  rewrite decide_False by (by intros []). rewrite (bind_run st_get _ w w w) by done. rewrite Hres, Hpath, fsi_path, fsi_path_local.
  rewrite decide_False by done. rewrite Hkeep, Hforce. cbn [orb]. apply bind_fails. unfold st_read, clean_to_remove, directory_clean, IsWorkingDirectoryClean.
  cbn zeta in *. rewrite Hst. cbn [mbind outcome_bind]. unfold clean_error. by rewrite dirty_not_all.
Qed.

(** ** Removing everything *)
Lemma Items_none ref (b : @Book _ F P) items b' : Items ref 0 0 b = (Ok items, b') → items = [].
Proof.
  unfold Items. intros (id & b1 & _ & Hrest)%stM_bind_Ok. apply stM_bind_Ok in Hrest as (a & b2 & _ & Hrest).
  apply stM_bind_Ok in Hrest as (lg & b3 & _ & Hrest). injection Hrest as Hitems _. by eapply history_none.
Qed.

Lemma on_repo_refs_leaves {A} (m : MemRefstore → outcome (A * MemRefstore)) : leaves r_store (on_repo_refs (S := S) (F := F) (P := P) m).
Proof. intros r. unfold on_repo_refs. by destruct (m _) as [[]| |]. Qed.
Lemma on_repo_book_leaves {A} (m : stM (@Book _ F P) A) : leaves r_store (on_repo_book (S := S) m).
Proof. intros r. unfold on_repo_book, st_zoom. by destruct (m _). Qed.
Lemma note_leaves {A} what (m : stM (@Repo _ F P S) A) acc : leaves r_store m → leaves r_store (note what m acc).
Proof. intros Hm. unfold note. by frame. Qed.

(** Without a history, nothing is removed from the filesystem. *)
Lemma RemoveEntireDataset_leaves fuel ref : leaves (r_store (F := F) (P := P)) (RemoveEntireDataset ps mux view fuel ref []).
Proof.
  unfold RemoveEntireDataset. rewrite decide_False by (cbn; lia).
  frame; try apply note_leaves; first [apply on_repo_book_leaves | apply on_repo_refs_leaves].
Qed.

Lemma on_inst_leaves {A} (m : stM (@Instance _ F P CF) A) : leaves w_store (on_inst (S := S) m).
Proof. intros w. unfold on_inst, st_zoom. by destruct (m _). Qed.
Lemma on_repo_leaves {A} (m : stM (@Repo _ F P S) A) : leaves r_store m → leaves w_store (on_repo (CF := CF) m).
Proof.
  intros Hm w. unfold on_repo, st_zoom. specialize (Hm (repo_of w)). destruct (m (repo_of w)) as [r repo]. exact Hm.
Qed.
Lemma unless_missing_leaves (m : stM (@World _ F P S CF) unit) : leaves w_store m → leaves w_store (unless_missing m).
Proof. intros Hm w. unfold unless_missing. specialize (Hm w). destruct (m w) as [[|e|] w']; [done| |done]. by destruct (strings_Contains _ _). Qed.
Lemma remove_all_leaves fuel p ref fsiPath : leaves (w_store (F := F) (P := P) (CF := CF)) (remove_all (V := V) ps mux view fuel p ref fsiPath []).
Proof.
  unfold remove_all, remove_directory, on_disk.
  frame; try apply unless_missing_leaves; first [apply on_inst_leaves | apply on_repo_leaves, RemoveEntireDataset_leaves].
Qed.

(** C29: removing all revisions leaves them where they are. When the logbook lists a
    dataset, removing all of its revisions reads its history with a limit of
    none, finds it empty, and deletes none of its versions: whatever it answers,
    the filesystem holds what it held. *)
Theorem Remove_all_keeps_versions fuel p ref src items w : rp_Revision p = Some Revisions.NewAllRevisions →
  ParseAndResolveRefWithWorkingDir (rp_Ref p) "local" (w_inst w) = Ok (ref, src) →
  (Items ref 0 0 (fsi_book (inst_fsi (w_inst w)))).1 = Ok items →
  w_store (Remove ps mux of_stored view fuel p w).2 = w_store w.
Proof.
  intros Hrev Hres Hitems. unfold Remove. rewrite Hrev. cbn [Revisions.NewAllRevisions]. rewrite decide_False by done.
  rewrite decide_False by (by intros []). rewrite (bind_run st_get _ w w w) by done. rewrite Hres.
  assert (removal mux view fuel Revisions.AllGenerations ref w = Ok (Revisions.AllGenerations, [])) as Hnone.
  { unfold removal, DatasetLog, repo_of. cbn [r_book]. change (Revisions.AllGenerations + 1)%Z with 0%Z.
    destruct (Items ref 0 0 _) as [r b'] eqn:Hit. cbn [fst] in *. subst r. by rewrite (Items_none _ _ _ _ Hit). }
  set (first := if decide _ then _ else _). assert ((first w).2 = w) as Hfirst.
  { subst first. by repeat case_match. }
  unfold mbind at 1, stM_bind. destruct (first w) as [[[]|e|] w1]; cbn [snd] in Hfirst; subst w1; [|done..].
  rewrite (bind_run (st_read _) _ w _ w) by (unfold st_read; by rewrite Hnone). cbn [fst snd].
  rewrite decide_True by done. apply remove_all_leaves.
Qed.

(** ** Renaming *)
Lemma on_repo_run {A} (m : stM (@Repo _ F P S) A) w r repo : m (repo_of w) = (r, repo) → on_repo m w = (r, set_repo repo w).
Proof. unfold on_repo, st_zoom. by intros ->. Qed.

(** Writing the hidden file of a directory that is linked already *)
Lemma relinked dir ref text t (d : Disk) : no_faults → d !! filepath_Join [dir; RefLinkHiddenFilename] = Some (File text t) →
  dir ≠ "" → ∃ f d' t', WriteHiddenInDir dir (set_ref_Path "" ref) d = (Ok f, d') ∧
    d' = <[filepath_Join [dir; RefLinkHiddenFilename] := File (refText (set_ref_Path "" ref)) t']> d.
Proof.
  intros Hnf Hat Hdir. unfold WriteHiddenInDir, WriteHiddenFile. rewrite Base_Join; [|done|by apply (bool_decide_unpack _)].
  change (strings_HasPrefix _ _) with true. cbn iota. eexists _, _, _. split; [|done]. erewrite bind_run; [done|].
  unfold WriteFile, refused. by rewrite Hnf, Hat.
Qed.

(** C13: renaming moves the log, the stored reference and the link together. A
    dataset with a version, linked to a directory, whose log can be written,
    is renamed to a valid name that leads nowhere: the new name leads to its log
    and to its stored reference, which keeps its version and its directory; the
    directory's hidden file reads as the new name; the old one is not stored. *)
Theorem Rename_moves Current Next ref0 src ref next w before stored after d text t :
  publisher_ok (P := P) → no_faults → parse_current Current = Ok ref0 → ResolveReference "local" (w_inst w) ref0 = (Ok src, ref) →
  parse_next Next = Ok next → ref_Username next ∈ [ref_Username ref; "me"] →
  tracked ps [""; dr_Path stored] (refs_of (w_inst w)) before stored after →
  same_names stored (RefFromDsref ref) → ref_Path ref = dr_Path stored → dr_Path stored ≠ "" →
  IsValidName (ref_Name next) = true → ref_Name ref ≠ ref_Name next → valid_names (with_name (ref_Name next) ref) →
  (∀ x y, x ∈ before ++ after → same_names (renamed_ref (ref_Name next) stored) y → dr_Path y ∈ [""; dr_Path stored] → Match x y = false) →
  renamable (ref_InitID ref) (ref_Username ref) (ref_Name ref) (ref_Name next) d (fsi_book (inst_fsi (w_inst w))) →
  dr_FSIPath stored ≠ "" →
  disk_of (w_inst w) !! filepath_Join [dr_FSIPath stored; RefLinkHiddenFilename] = Some (File text t) →
  ∃ vi w', Rename ps Current Next w = (Ok vi, w') ∧
    RefToInitID (mkRef "" (ref_Username ref) "" (ref_Name next) "") (fsi_book (inst_fsi (w_inst w'))) =
      (Ok (ref_InitID ref), fsi_book (inst_fsi (w_inst w'))) ∧
    (∃ found, GetVersionInfoShim (with_name (ref_Name next) ref) (refs_of (w_inst w')) = Ok found ∧ vi_Name found = ref_Name next ∧
       vi_Path found = dr_Path stored ∧ vi_FSIPath found = dr_FSIPath stored) ∧
    GetLinkedFilesysRef (dr_FSIPath stored) (disk_of (w_inst w')) = Some (named (with_name (ref_Name next) ref)) ∧
    GetVersionInfoShim (with_name (ref_Name ref) ref) (refs_of (w_inst w')) = Error ErrRepoNotFound.
Proof.
  intros Hpub Hnf Hcur Hres Hnext Huser Ht Hs Hp Hne Hv Hother Hnames Hfresh Hren Hdir Hat.
  destruct (RenameDatasetRef_run ps ref (ref_Name next) (repo_of w) before stored after d) as (r' & Hrun & Hlog & Hfound & Hgone); [done..|].
  set (vi := renamed _ _ _) in Hrun. set (dir := dr_FSIPath stored) in *. set (w1 := set_repo r' w).
  assert (ref_Username ref = dr_Peername stored) as Hu by apply Hs.
  destruct (relinked dir (SimpleRef vi) text t (disk_of (w_inst w)) Hnf Hat Hdir) as (f & disk & t' & Hwrite & Hdisk).
  pose proof (linkfile_written _ _ _ _ _ Hdir Hwrite) as (Hf & Hopen & _). subst f.
  eexists vi, _. split.
  - unfold Rename. rewrite decide_False by (intros ->; discriminate Hcur).
    rewrite (bind_run (st_lift _) _ w ref0 w) by (unfold st_lift; by rewrite Hcur).
    rewrite (bind_run (st_read _) _ w (ref, src) w) by (unfold st_read; by rewrite Hres). cbn [fst].
    rewrite (bind_run (st_lift _) _ w next w) by (unfold st_lift; by rewrite Hnext).
    rewrite decide_False by set_solver. rewrite (bind_run _ _ _ _ _ (on_repo_run _ _ _ _ Hrun)). fold w1.
    rewrite decide_False by done. unfold on_inst, on_fsi, ModifyLinkReference, on_fsi_disk, st_zoom.
    unfold mbind, stM_bind, mret, stM_ret. change (fsi_disk (inst_fsi (w_inst w1))) with (disk_of (w_inst w)).
    change (vi_FSIPath vi) with dir. by rewrite Hwrite.
  - cbn. split; [exact Hlog|]. split; [exact Hfound|]. split; [|exact Hgone].
    unfold disk_of. cbn. rewrite Hdisk.
    replace (named (with_name (ref_Name next) ref)) with (named (SimpleRef vi)) by (unfold named; cbn; by rewrite Hu).
    eapply linkfile_reads; [|exact Hopen|by rewrite lookup_insert_eq].
    destruct Hnames as (Hn1 & Hn2 & Hn3). split_and!; [cbn; by rewrite <- Hu|done..].
Qed.
End datasets.

(** ** A linked dataset that is renamed, kept because it has changes, and removed *)
Module DatasetsDemo.
Import Demo LinkDemo CheckoutDemo RepoDemo.
#[local] Existing Instances WorkDemo.lib WorkDemo.os LinkDemo.ids LinkDemo.owner LinkDemo.link_publisher.
#[local] Existing Instances CheckoutDemo.walk_in_order CheckoutDemo.network CheckoutDemo.opener RepoDemo.versions.
Definition titled (s : StoredDataset string) : WDataset WorkDemo.value :=
  mkWDataset None (Some (WorkDemo.Meta "title")) None None None None None "" (sd_Path s) "" "".
Definition linked_disk : Disk := {[ "/" := Dir; "/work" := Dir; "/work/.qri-ref" := File "alice/cities" 1; "/work/meta.json" := File "other" 1 ]}.
Definition world_of (refs : MemRefstore) (d : Disk) :=
  mkWorld (CF := unit) (mkInstance (mkFSI refs (saved : book) d) None "alice" None ∅) store1.
Definition linked := world_of [RepoDemo.cities "/ipfs/Qm1" "/work"; rivers] linked_disk.
Definition unlinked := world_of [RepoDemo.cities "/ipfs/Qm1" ""; rivers] linked_disk.
Definition remove_everything : RemoveParams := mkRemoveParams "me/cities" (Some Revisions.NewAllRevisions) false false.

Lemma Remove_refuses_dirty_witness :
  Remove me "mux" titled RepoDemo.view 9 remove_everything linked = (Error ErrCantRemoveDirectoryDirty, linked).
Proof.
  eapply (Remove_refuses_dirty me "mux" titled RepoDemo.view 9 remove_everything (-1)
    (mkRef cities_id "alice" "QmAlice" "cities" "/fsi/work") "" "/work").
  - reflexivity.
  - discriminate.
  - reflexivity.
  - reflexivity.
  - vm_compute. reflexivity.
  - reflexivity.
  - discriminate.
  - vm_compute. reflexivity.
  - apply List.Exists_cons_hd. discriminate.
Defined.

Lemma Remove_all_keeps_versions_witness :
  let '(r, w) := Remove me "mux" titled RepoDemo.view 9 remove_everything unlinked in
  rr_Message <$> r = Ok "logbook, refstore" ∧ w_store w = store1.
Proof.
  rewrite (surjective_pairing (Remove _ _ _ _ _ _ _)). split; [vm_compute; reflexivity|].
  apply (Remove_all_keeps_versions me "mux" titled RepoDemo.view 9 remove_everything
    (mkRef cities_id "alice" "QmAlice" "cities" "/ipfs/Qm1") "" []).
  - reflexivity.
  - vm_compute. reflexivity.
  - vm_compute. reflexivity.
Defined.

Lemma Rename_moves_witness :
  ∃ vi w', Rename me "me/cities" "me/towns" linked = (Ok vi, w') ∧
    GetLinkedFilesysRef "/work" (disk_of (w_inst w')) = Some (mkRef "" "alice" "" "towns" "").
Proof.
  destruct (Rename_moves me "me/cities" "me/towns" (mkRef "" "me" "" "cities" "") ""
    (mkRef cities_id "alice" "QmAlice" "cities" "/ipfs/Qm1") (mkRef "" "me" "" "towns" "") linked [] (RepoDemo.cities "/ipfs/Qm1" "/work")
    [rivers] [0; 0] "alice/cities" 1) as (vi & w' & Hrun & _ & _ & Hlink & _).
  - intros typ payload p. discriminate.
  - done.
  - by vm_compute.
  - by vm_compute.
  - by vm_compute.
  - apply (bool_decide_unpack _). by vm_compute.
  - apply cities_tracked. apply (bool_decide_unpack _). by vm_compute.
  - by split_and!.
  - reflexivity.
  - discriminate.
  - reflexivity.
  - discriminate.
  - split_and!; [by vm_compute..|reflexivity].
  - intros x y Hx%list_elem_of_singleton (Hp & Hi & Hn) Hin. subst x. unfold Match. rewrite Hp, Hi, Hn. cbn in *.
    rewrite (bool_decide_eq_false_2 ("/ipfs/QmR" = _)); [by rewrite andb_false_r|].
    intros Hp'. rewrite <- Hp' in Hin. by apply (bool_decide_pack _) in Hin.
  - split.
    + repeat first [constructor | discriminate].
    + by exists "k".
    + vm_compute. reflexivity.
    + eexists _, _, _. split_and!; vm_compute; reflexivity.
    + eexists _, _, _. split_and!; vm_compute; reflexivity.
    + vm_compute. reflexivity.
    + vm_compute. reflexivity.
  - discriminate.
  - by vm_compute.
  - exists vi, w'. split; [exact Hrun|]. exact Hlink.
Defined.
End DatasetsDemo.
