(* ===== verification/RemoteSpec.v ===== *)
(** * The properties of a remote

    What the signature, the policy and the limit of a remote guard, and what they
    do not. *)
From S2P Require Import Access DatasetFiles HistoryFacts LogbookFacts LogbookEdits LinksSpec SyncInstances.
From S2P Require Export RepositorySpec Remote.

(** ** Sizes of blocks *)
Definition sum_sizes (sizes : list Z) : Z := foldr Z.add 0%Z sizes.
Lemma total_size_sum sizes : total_size sizes = (sum_sizes sizes mod 2 ^ 64)%Z.
Proof.
  unfold total_size, sum_sizes. assert (∀ acc, foldl add_uint64 (acc mod 2 ^ 64) sizes = (acc + foldr Z.add 0 sizes) mod 2 ^ 64)%Z as Hacc.
  { induction sizes as [|s sizes IH]; intros acc; cbn [foldl foldr]; [by rewrite Z.add_0_r|].
    unfold add_uint64 at 2. rewrite Zplus_mod_idemp_l, IH. f_equal. lia. }
  exact (Hacc 0%Z).
Qed.

(** ** Parameters *)

(** Those the claims of a request are read from *)
Definition claims : list string := ["username"; "peername"; "name"; "profileID"; "path"; "pid"; "subject_username"].
Definition same_claims (meta meta' : Params) : Prop := Forall (λ key, meta !! key = meta' !! key) claims.

Section params.
Context `{C : BookCipher, Sg : !LogSigning, Kb : !KeyBytes Sg, Hsh : !KeyHash, !LogSigningLaws Sg} `{ProfileIDs}.

Lemma subjAndRefFromMeta_claims meta meta' : same_claims meta meta' → subjAndRefFromMeta meta = subjAndRefFromMeta meta'.
Proof.
  intros Hs. unfold same_claims, claims in Hs. rewrite !Forall_cons in Hs. destruct Hs as (H1 & H2 & H3 & H4 & H5 & H6 & H7 & _).
  unfold subjAndRefFromMeta, param. by rewrite H1, H2, H3, H4, H5, H6, H7.
Qed.

Lemma sigParams_subject unix_now pk username ref params pid id : sigParams unix_now pk username ref = Ok params →
  calcProfileID pk = Ok pid → IDB58Decode pid = Ok id →
  subjAndRefFromMeta params = Ok (mkSubject id username,
    mkRef "" (ref_Username ref) (if decide (ref_ProfileID ref = "") then ID_String id else ref_ProfileID ref) (ref_Name ref) (ref_Path ref)).
Proof.
  intros Hparams Hpid Hid. unfold sigParams in Hparams. rewrite Hpid in Hparams. cbn [mbind outcome_bind] in Hparams.
  apply outcome_bind_Ok in Hparams as (b64 & _ & [= Hm]).
  assert (∀ key v, params !! key = Some v → param key params = v) as Hparam by (intros key v Hv; unfold param; by rewrite Hv).
  unfold subjAndRefFromMeta. rewrite (Hparam "username" (ref_Username ref)), (Hparam "peername" (ref_Username ref)), (Hparam "pid" pid),
    (Hparam "profileID" (ref_ProfileID ref)), (Hparam "subject_username" username), (Hparam "name" (ref_Name ref)),
    (Hparam "path" (ref_Path ref)) by (by rewrite <- Hm; vm_compute).
  rewrite Hid. cbn [mbind outcome_bind]. by case_decide as Hu; [rewrite Hu|].
Qed.

(** C27: a remote reads what a client signed. The parameters a client signs for a
    reference verify with its public key, and the remote reads them as the
    client's identifier and name, and the same reference; a profile that was
    not given is the client's own. *)
Theorem sigParams_read_back unix_now pk username ref params pid id : sigParams unix_now pk username ref = Ok params →
  calcProfileID pk = Ok pid → IDB58Decode pid = Ok id →
  VerifySigParams (pk_GetPublic pk) params = Ok true ∧
  subjAndRefFromMeta params = Ok (mkSubject id username,
    mkRef "" (ref_Username ref) (if decide (ref_ProfileID ref = "") then ID_String id else ref_ProfileID ref) (ref_Name ref) (ref_Path ref)).
Proof.
  intros Hparams Hpid Hid. pose proof Hparams as Hall. unfold sigParams in Hparams. rewrite Hpid in Hparams. cbn [mbind outcome_bind] in Hparams.
  apply outcome_bind_Ok in Hparams as (b64 & Hsign & [= Hm]). unfold signString in Hsign.
  destruct (pk_Sign pk _) as [sig|e|] eqn:Hsig; [|done..]. injection Hsign as Hb64.
  split.
  - unfold VerifySigParams, need_param.
    replace (params !! "timestamp") with (Some (strconv_Itoa unix_now)) by (by rewrite <- Hm; vm_compute).
    replace (params !! "pid") with (Some pid) by (by rewrite <- Hm; vm_compute). replace (params !! "path") with (Some (ref_Path ref)) by (by rewrite <- Hm; vm_compute).
    replace (params !! "signature") with (Some b64) by (by rewrite <- Hm; vm_compute).
    replace (params !! "subject_username") with (Some username) by (by rewrite <- Hm; vm_compute). cbn [mbind outcome_bind].
    subst b64. rewrite base64_Decode_Encode. cbn [mbind outcome_bind]. rewrite decide_False by (intros Hne; by apply Hne).
    by apply Verify_Sign.
  - by eapply sigParams_subject.
Qed.
End params.

(** ** What is checked, and what is not *)
Section remote.
Context `{OpDigest, C : BookCipher, Sg : !LogSigning, Kb : !KeyBytes Sg, Hsh : !KeyHash, Entropy} {F P : Type} `{!Filesystem F, !Publisher P}.
Context `{ProfileIDs, ProfileStore PS} (ps : PS).
Context {S K : Type} `{!VersionFS S K} (mux : string) (view : StoredDataset K → Dataset) {HS : Type}.
Context (localResolver : @Repo _ F P S → stM Ref string).
Implicit Types (r : @RemoteNode HS) (meta : Params) (n : @Node _ F P S HS).

Lemma bind_stops {T A B} (m : stM T A) (f : A → stM T B) s e s' : m s = (Error e, s') → (m ≫= f) s = (Error e, s').
Proof. unfold mbind, stM_bind. by intros ->. Qed.

(** Without hooks, a step that is denied stops there. *)
Lemma lift_stops {T A B} (m : outcome A) (f : A → stM T B) s e : m = Error e → (st_lift m ≫= f) s = (Error e, s).
Proof. intros ->. by apply bind_stops. Qed.
Lemma lift_runs {T A B} (m : outcome A) (f : A → stM T B) s a : m = Ok a → (st_lift m ≫= f) s = f a s.
Proof. intros ->. by apply bind_run. Qed.

(** The policy of a remote replaced by another *)
Definition set_policy (p : option Policy) r : RemoteNode :=
  mkRemoteNode (acceptSizeMax r) p (datasetPushPreCheck r) (datasetPushFinalCheck r) (datasetPushed r) (datasetRemovePreCheck r)
    (datasetRemoved r) (datasetPulled r) (FeedPreCheck r) (PreviewPreCheck r).

(** C15: the policy guards pushes, removals and the logs that are pulled; not the
    blocks. When the policy denies the subject that a request names, removing a
    dataset, starting to push one, and the check of dsync's removals fail and
    change nothing; when it denies the author of a request of log
    synchronization, so do putting logs, getting them, which is the first step
    of pulling a dataset, and deleting them. But the check of dsync before the
    blocks of a version are sent is the same under every policy. *)
Theorem policy_guards r o fuel sizes meta subj ref author data ref' b s n : subjAndRefFromMeta meta = Ok (subj, ref) →
  let asks action e := ∃ pid, author_pid author = Ok pid ∧ enforce r (mkSubject pid (Author_Username author)) ref' action = Error e in
  let logs := remote_logsync (F := F) (P := P) r o b s in
  (∀ e, enforce r subj ref "remote:remove" = Error e →
     RemoveDataset ps mux view localResolver r fuel meta n = (Error e, n) ∧ dsRemovePreCheck r meta n = (Error e, n)) ∧
  (∀ e, enforce r subj ref "remote:push" = Error e → dsPushPreCheck r sizes meta n = (Error e, n)) ∧
  (∀ e, asks "remote:push" e → logsync_put author ref' data logs = (Error e, logs)) ∧
  (∀ e, asks "remote:pull" e → logsync_get fuel author ref' logs = (Error e, logs)) ∧
  (∀ e, asks "remote:remove" e → logsync_del author ref' logs = (Error e, logs)) ∧
  (∀ p, dsGetDagInfo (set_policy p r) meta n = dsGetDagInfo r meta n).
Proof.
  intros Hmeta asks logs.
  assert (∀ hook action h (e : error) A (k : unit → stM _ A), hook logs = Some (logPreCheckHook r action h) → asks action e →
    (check_hook hook author ref' None ≫= k) logs = (Error e, logs)) as Hlogs.
  { intros hook action h e A k Hh (pid & Hpid & He). apply bind_stops. unfold check_hook. rewrite Hh. unfold st_zoom, logPreCheckHook.
    rewrite (lift_runs _ _ _ _ Hpid). by rewrite (lift_stops _ _ _ _ He). }
  split_and!.
  - intros e He. unfold RemoveDataset, dsRemovePreCheck. rewrite !(lift_runs _ _ _ _ Hmeta). cbn [fst snd]. by rewrite !(lift_stops _ _ _ _ He).
  - intros e He. unfold dsPushPreCheck. rewrite (lift_runs _ _ _ _ Hmeta). cbn [fst snd]. by rewrite (lift_stops _ _ _ _ He).
  - intros e. by apply (Hlogs pushPreCheck "remote:push" (LogPushPreCheck o)).
  - intros e. by apply (Hlogs pullPreCheck "remote:pull" (LogPullPreCheck o)).
  - intros e. by apply (Hlogs removePreCheck "remote:remove" (LogRemovePreCheck o)).
  - done.
Qed.

(** Whoever claims to be allowed is. Nothing a remote does with a request
    depends on its signature: parameters with the same claims and no signature,
    which do not verify with any key, are obeyed as the signed ones are, when a
    dataset is removed, pushed, or pulled. *)
Theorem unsigned_obeyed r fuel sizes meta key n : let unsigned := delete "signature" meta in
  VerifySigParams key unsigned ≠ Ok true ∧
  RemoveDataset ps mux view localResolver r fuel unsigned n = RemoveDataset ps mux view localResolver r fuel meta n ∧
  dsPushPreCheck r sizes unsigned n = dsPushPreCheck r sizes meta n ∧ dsPushFinalCheck r unsigned n = dsPushFinalCheck r meta n ∧
  dsPushComplete ps localResolver r unsigned n = dsPushComplete ps localResolver r meta n ∧
  dsRemovePreCheck r unsigned n = dsRemovePreCheck r meta n ∧ dsGetDagInfo r unsigned n = dsGetDagInfo r meta n.
Proof.
  intros unsigned. assert (subjAndRefFromMeta unsigned = subjAndRefFromMeta meta) as Hsame.
  { apply subjAndRefFromMeta_claims. unfold same_claims, claims. repeat constructor; by apply lookup_delete_ne. }
  split.
  - assert (need_param "signature" unsigned = Error (Errorf "params need key %s" ["'signature'"])) as Hnone
      by (unfold need_param, unsigned; by rewrite lookup_delete_eq).
    unfold VerifySigParams. rewrite Hnone. destruct (need_param "timestamp" _), (need_param "pid" _), (need_param "path" _); done.
  - unfold RemoveDataset, dsPushPreCheck, dsPushFinalCheck, dsPushComplete, dsRemovePreCheck, dsGetDagInfo. by rewrite Hsame.
Qed.

(** The size that is accepted. Without a hook, a push the policy allows is
    accepted exactly when the remote accepts datasets and either sets no limit
    or the sum of the sizes of the blocks is below it, both taken modulo 2^64;
    blocks of 2^64 bytes together count as none. *)
Theorem dsPushPreCheck_accepts r sizes meta subj ref n : subjAndRefFromMeta meta = Ok (subj, ref) →
  enforce r subj ref "remote:push" = Ok tt → datasetPushPreCheck r = None →
  dsPushPreCheck r sizes meta n = (Ok tt, n) ↔
  acceptSizeMax r ≠ 0%Z ∧ (acceptSizeMax r = (-1)%Z ∨ (sum_sizes sizes mod 2 ^ 64 < acceptSizeMax r mod 2 ^ 64)%Z).
Proof.
  intros Hmeta He Hhook. unfold dsPushPreCheck. rewrite (lift_runs _ _ _ _ Hmeta). cbn [fst snd]. rewrite (lift_runs _ _ _ _ He), Hhook.
  unfold accepts_size, to_uint64. rewrite total_size_sum. repeat case_decide.
  - rewrite (lift_stops _ _ _ _ eq_refl). naive_solver.
  - rewrite (lift_runs _ _ _ _ eq_refl). naive_solver.
  - rewrite (lift_stops _ _ _ _ eq_refl). split; [done|]. intros [_ [?|?]]; [done|lia].
  - rewrite (lift_runs _ _ _ _ eq_refl). split; [|done]. intros _. split; [done|]. right. lia.
Qed.
End remote.

(** ** A removal that stops half way *)
Section half_done.
Context `{OpDigest, C : BookCipher, Sg : !LogSigning, Kb : !KeyBytes Sg, Hsh : !KeyHash, Entropy} {F P : Type} `{!Filesystem F, !Publisher P}.
Context `{ProfileIDs, ProfileStore PS} (ps : PS).
Context {S K : Type} `{!VersionFS S K} (mux : string) (view : StoredDataset K → Dataset) {HS : Type} `{!VersionFSLaws S K mux}.
Context (localResolver : @Repo _ F P S → stM Ref string).
Implicit Types (r : @RemoteNode HS) (meta : Params) (n : @Node _ F P S HS).

(** C28: a remote that holds another's log cannot finish removing its dataset. When
    the removal is allowed, the reference resolves, and the log of the dataset
    here is someone else's, all of its versions are deleted, the reference stays
    at the oldest of them, the logbook is as it was, and the answer is that
    access is denied. *)
Theorem RemoveDataset_half_done r fuel meta subj ref ref' source p rest before stored after initID a lg o ops n :
  subjAndRefFromMeta meta = Ok (subj, ref) → enforce r subj ref "remote:remove" = Ok tt → datasetRemovePreCheck r = None →
  localResolver (n_repo n) ref = (Ok source, ref') →
  tracked ps ("" :: p :: rest) (r_refs (n_repo n)) before stored after →
  same_names stored (RefFromDsref ref') → ref_Path ref' = dr_Path stored → ref_Path ref' = p → NoDup (p :: rest) →
  chain mux view (r_store (n_repo n)) (p :: rest) → length rest < fuel →
  RefToInitID ref' (r_book (n_repo n)) = (Ok initID, r_book (n_repo n)) → branchLog initID (r_book (n_repo n)) = (Ok a, r_book (n_repo n)) →
  deref a (b_store (r_book (n_repo n))) = Ok lg → lg_Ops lg = o :: ops → op_AuthorID o ≠ b_authorID (r_book (n_repo n)) →
  ∃ e n', RemoveDataset ps mux view localResolver r fuel meta n = (Error e, n') ∧ errors_Is e "access denied" = true ∧
    delete_all (p :: rest) (r_store (n_repo n)) = (Ok tt, r_store (n_repo n')) ∧ r_book (n_repo n') = r_book (n_repo n) ∧
    ∃ vi, GetVersionInfoShim (with_path "" ref') (r_refs (n_repo n')) = Ok vi ∧ last (p :: rest) = Some (vi_Path vi).
Proof.
  intros Hmeta He Hhook Hres Ht Hs Hcp <- Hnd Hc Hf Hid Ha Hlg Hops Hauth. destruct n as [repo hooks]. cbn [n_repo] in *.
  pose proof Hc as (Hne & (ds & Hds & _) & _). set (paths := "" :: ref_Path ref' :: rest) in *.
  destruct (remove_loop_all mux view fuel (-1) (ref_Path ref') rest ds (r_store repo)) as (q & s' & Hq & Hloop & Hdel); [lia|done..|].
  assert (q ∈ ref_Path ref' :: rest) as Hqin by by apply last_Some_elem_of.
  assert (q ≠ "") as Hqne by (by eapply chain_nonempty).
  pose proof (RewindDatasetRef_run ps paths before stored after ref' q (mkRepo (r_refs repo) (r_book repo) s') Ht Hs Hcp) as Hrew.
  cbn [r_refs r_book r_store] in Hrew. specialize (Hrew ltac:(set_solver) ltac:(congruence) ltac:(set_solver) Hqne).
  set (refs' := merge_sort _ _) in *. set (denied := ErrWrap "%w: you do not have write access" [] ErrAccessDenied).
  assert (WriteVersionDelete initID (-1) (r_book repo) = (Error denied, r_book repo)) as Hden.
  { unfold WriteVersionDelete. rewrite (bind_run _ _ _ _ _ Ha). by apply bind_stops, (hasWriteAccess_denied a _ lg o ops). }
  exists denied, (mkNode (mkRepo refs' (r_book repo) s') hooks). split_and!.
  - unfold RemoveDataset. rewrite (lift_runs _ _ _ _ Hmeta). cbn [fst snd]. rewrite (lift_runs _ _ _ _ He), Hhook.
    rewrite (bind_run (run_hook None _ _) _ _ tt (mkNode repo hooks)) by done.
    rewrite (bind_run (st_read _) _ _ ref' (mkNode repo hooks)) by (unfold st_read, resolve_to_remove; cbn [n_repo]; by rewrite Hres).
    apply bind_stops. unfold on_node_repo, st_zoom. cbn [n_repo n_hooks].
    erewrite RemoveNVersionsFromStore_denied by done. done.
  - done.
  - done.
  - done.
  - exists (ConvertToVersionInfo (rewound q stored)). split; [|by rewrite Hq]. unfold GetVersionInfoShim. cbn [n_repo r_refs]. subst refs'.
    rewrite GetRef_put_back with (put := rewound q stored); [done|done|].
    intros x Hx. apply (tr_alone _ _ _ _ _ _ Ht); [done..|]. cbn. set_solver.
Qed.
End half_done.

(** ** A remote with a policy, and another's dataset *)
Module RemoteDemo.
Import Demo SyncDemo RepoDemo.
#[local] Existing Instances LinkDemo.owner RepoDemo.versions RepoDemo.versions_laws.
#[local] Instance key_hash : KeyHash := λ data, Ok ("Qm" +:+ data).

Definition key : @PrivKey bookcipher := "k".
Definition bobs (path : string) : Ref := mkRef "" "bob" "QmBob" "birds" path.
Definition resolver (repo : @Repo _ sink events (gmap string string)) : stM Ref string := ResolveRef (Some (r_book repo)).
Definition guarded (limit : Z) (p : option Policy) : @RemoteNode unit :=
  mkRemoteNode limit p None None None None None None None None.
Definition stored_birds : Refstore.DatasetRef := mkDatasetRef "bob" "QmBob" "birds" "/ipfs/Qm1" "" None true false.
Definition remote_repo := mkRepo [stored_birds] (shared : book) store1.
Definition node := mkNode remote_repo tt.
Definition birds_branch : Log := Eval vm_compute in default (InitLog zero_Op) (lookup_addr [1; 0; 0] (j_logs (b_store shared))).
Definition asked : Params := list_to_map
  [("username", "bob"); ("name", "birds"); ("path", "/ipfs/Qm1"); ("profileID", "QmBob"); ("pid", "QmEve"); ("subject_username", "bob")].

Lemma sigParams_read_back_witness :
  VerifySigParams (pk_GetPublic key) <$> sigParams 5 key "bob" (bobs "/ipfs/Qm1") = Ok (Ok true) ∧
  subjAndRefFromMeta <$> sigParams 5 key "bob" (bobs "/ipfs/Qm1") = Ok (Ok (mkSubject "Qmk" "bob", bobs "/ipfs/Qm1")).
Proof.
  assert (match sigParams 5 key "bob" (bobs "/ipfs/Qm1") with Ok _ => True | _ => False end) as Hok by (vm_compute; exact I).
  destruct (sigParams 5 key "bob" (bobs "/ipfs/Qm1")) as [params|e|] eqn:Hp; [|done..].
  destruct (sigParams_read_back 5 key "bob" (bobs "/ipfs/Qm1") params "Qmk" "Qmk" Hp) as [Hv Hs]; [reflexivity|reflexivity|].
  split; [exact (f_equal Ok Hv)|exact (f_equal Ok Hs)].
Defined.

Lemma policy_guards_witness :
  let asked_logs := remote_logsync (guarded 10 (Some demo_policy)) (mkLogOptions None None None None None None None) (saved : book) tt in
  RemoveDataset LinkDemo.me "mux" RepoDemo.view resolver (guarded 10 (Some demo_policy)) 9 asked node = (Error access_ErrAccessDenied, node) ∧
  logsync_get 9 (mkAuthor "" (pk_GetPublic key) "eve") (bobs "") asked_logs = (Error access_ErrAccessDenied, asked_logs).
Proof.
  destruct (policy_guards LinkDemo.me "mux" RepoDemo.view resolver (guarded 10 (Some demo_policy)) (mkLogOptions None None None None None None None)
    9 [] asked (mkSubject "QmEve" "bob") (bobs "/ipfs/Qm1") (mkAuthor "" (pk_GetPublic key) "eve") "" (bobs "")
    (saved : book) tt node) as (Hremove & _ & _ & Hget & _).
  - vm_compute. reflexivity.
  - split.
    + apply (Hremove access_ErrAccessDenied). vm_compute. reflexivity.
    + apply (Hget access_ErrAccessDenied). exists "Qmk". split; vm_compute; reflexivity.
Defined.

Lemma dsPushPreCheck_accepts_witness :
  dsPushPreCheck (guarded 10 (Some demo_policy)) [(2 ^ 63)%Z; (2 ^ 63)%Z] asked node = (Ok tt, node).
Proof.
  apply (dsPushPreCheck_accepts (guarded 10 (Some demo_policy)) _ asked (mkSubject "QmEve" "bob") (bobs "/ipfs/Qm1") node).
  - vm_compute. reflexivity.
  - vm_compute. reflexivity.
  - reflexivity.
  - split; [discriminate|]. right. vm_compute. reflexivity.
Defined.

Lemma RemoveDataset_half_done_witness :
  ∃ e n', RemoveDataset LinkDemo.me "mux" RepoDemo.view resolver (guarded 10 None) 9 asked node = (Error e, n') ∧
    errors_Is e "access denied" = true ∧ map_to_list (r_store (n_repo n')) = [].
Proof.
  destruct (RemoveDataset_half_done LinkDemo.me "mux" RepoDemo.view resolver (guarded 10 None) 9 asked (mkSubject "QmEve" "bob")
    (bobs "/ipfs/Qm1") (mkRef birds_id "bob" "QmBob" "birds" "/ipfs/Qm1") "" "/ipfs/Qm1" [] [] stored_birds [] birds_id [1; 0; 0]
    birds_branch (default zero_Op (head (lg_Ops birds_branch))) (tail (lg_Ops birds_branch)) node)
    as (e & n' & Hrun & Hden & Hdel & _).
  - vm_compute. reflexivity.
  - reflexivity.
  - reflexivity.
  - vm_compute. reflexivity.
  - split.
    + reflexivity.
    + split_and!; [discriminate|discriminate|reflexivity].
    + discriminate.
    + reflexivity.
    + intros [] (Hp & Hi & Hn). cbn in *. by subst.
    + intros x y Hx. by apply not_elem_of_nil in Hx.
  - by split_and!.
  - reflexivity.
  - reflexivity.
  - apply NoDup_singleton.
  - cbn. split_and!; [discriminate| |done]. eexists. split; by vm_compute.
  - cbn. lia.
  - vm_compute. reflexivity.
  - vm_compute. reflexivity.
  - vm_compute. reflexivity.
  - vm_compute. reflexivity.
  - vm_compute. discriminate.
  - exists e, n'. split; [exact Hrun|]. split; [exact Hden|]. apply (f_equal snd) in Hdel. cbn [snd] in Hdel. rewrite <- Hdel. by vm_compute.
Defined.
End RemoteDemo.
