(* ===== verification/ClientSpec.v ===== *)
(** * The properties of the client of remotes

    What a remote is asked over the network is what it would answer at home;
    removing a dataset removes all of it; and a pull replaces the reference
    that is here. *)
From S2P Require Import Access DatasetFiles HistoryFacts LogbookFacts LogbookEdits LogbookInit LinksSpec SyncInstances.
From S2P Require Export RepositorySpec RepositoryLog RemoteSpec Client.

(** ** Removing a log by its name *)
Lemma find_name_Some n i ls k : find_name n i ls = Ok (Some k) ↔
  ∃ m x, k = i + m ∧ ls !! m = Some x ∧ Name x = Ok n ∧ Forall (λ y, ∃ m, Name y = Ok m ∧ m ≠ n) (take m ls).
Proof.
  revert i k. induction ls as [|y ls IH]; intros i k; cbn [find_name].
  { split; [done|]. by intros (m & x & _ & Hx & _). }
  destruct (Name y) as [nm|e|] eqn:Hy; cbn [mbind outcome_bind].
  - case_decide as Hn.
    + split.
      * intros [= <-]. exists 0, y. split_and!; [lia|done|by rewrite Hy, Hn|constructor].
      * intros ([|m] & x & -> & Hx & Hxn & Hall); [by rewrite Nat.add_0_r|]. cbn [take] in Hall.
        apply Forall_cons in Hall as [(m' & Hm & Hne) _]. congruence.
    + rewrite IH. split.
      * intros (m & x & -> & Hx & Hxn & Hall). exists (S m), x. split_and!; [lia|done..|]. cbn [take]. constructor; [by exists nm|done].
      * intros ([|m] & x & -> & Hx & Hxn & Hall).
        { cbn in Hx. congruence. }
        exists m, x. split_and!; [lia|done..|]. cbn [take] in Hall. by apply Forall_cons in Hall as [_ Hall].
  - split; [done|]. intros ([|m] & x & -> & Hx & Hxn & Hall); [cbn in Hx; congruence|].
    cbn [take] in Hall. apply Forall_cons in Hall as [(m' & Hm & _) _]. congruence.
  - split; [done|]. intros ([|m] & x & -> & Hx & Hxn & Hall); [cbn in Hx; congruence|].
    cbn [take] in Hall. apply Forall_cons in Hall as [(m' & Hm & _) _]. congruence.
Qed.

Definition other_name (n : string) (l : Log) : Prop := ∃ m, Name l = Ok m ∧ m ≠ n.
Lemma find_named_others n i ls : Forall (other_name n) ls → find_named n i ls = Ok None.
Proof.
  intros Hls. revert i. induction Hls as [|l ls (m & Hm & Hne) _ IH]; intros i; [done|].
  cbn [find_named]. rewrite Hm. cbn [mbind outcome_bind]. by rewrite decide_False.
Qed.
Lemma find_named_removed n i pre l ls : Forall (other_name n) pre → Name l = Ok n → Removed l = Ok true →
  find_named n i (pre ++ l :: ls) = find_named n (i + S (length pre)) ls.
Proof.
  intros Hpre Hl Hr. rewrite (find_named_app _ _ _ _ (find_named_others n i pre Hpre)). cbn [find_named]. rewrite Hl. cbn [mbind outcome_bind].
  rewrite decide_True, Hr by done. cbn [mbind outcome_bind]. f_equal. lia.
Qed.
Lemma find_named_live n i pre l ls : Forall (other_name n) pre → Name l = Ok n → Removed l = Ok false →
  find_named n i (pre ++ l :: ls) = Ok (Some (i + length pre, l)).
Proof.
  intros Hpre Hl Hr. rewrite (find_named_app _ _ _ _ (find_named_others n i pre Hpre)). cbn [find_named]. rewrite Hl. cbn [mbind outcome_bind].
  by rewrite decide_True, Hr.
Qed.

(** Where a name leads below a log whose children are replaced *)
Lemma headref_children u n j i l ls : Journal_HeadRef [u] j = Ok [i] → deref [i] j = Ok l →
  Journal_HeadRef [u; n] (store_at [i] (set_Logs ls l) j) =
    (found ← find_named n 0 ls; match found with Some (k, _) => Ok [i; k] | None => Error ErrNotFound end).
Proof.
  intros Hu Hl. apply deref_Ok in Hl. cbn in Hl. destruct (j_logs j !! i) as [l0|] eqn:Hi; [|done]. injection Hl as ->.
  unfold Journal_HeadRef, store_at in *. cbn [j_logs set_j_logs alter_addr].
  change (headref_addr [u; n] (alter (λ _, set_Logs ls l) i (j_logs j)) = (found ← find_named n 0 ls; match found with Some (k, _) => Ok [i; k] | None => Error ErrNotFound end)).
  cbn [headref_addr] in *. rewrite find_named_alter by (intros x Hx; by simplify_eq).
  destruct (find_named u 0 (j_logs j)) as [[[k x]|]|e|]; cbn [mbind outcome_bind] in *; [|done..]. injection Hu as ->.
  cbn. rewrite decide_True by done. cbn [lg_Logs set_Logs]. by destruct (find_named n 0 ls) as [[[k' x']|]|e|].
Qed.
Lemma RemoveLog_run u n j i l k : Journal_HeadRef [u] j = Ok [i] → deref [i] j = Ok l → find_name n 0 (lg_Logs l) = Ok (Some k) →
  RemoveLog [u; n] j = Ok (store_at [i] (set_Logs (delete k (lg_Logs l)) l) j).
Proof.
  intros Hu Hl Hk. unfold RemoveLog. cbn [last removelast]. rewrite Hu. cbn [mbind outcome_bind]. rewrite Hl. cbn [mbind outcome_bind].
  unfold remove_named. by rewrite Hk.
Qed.

(** C25: removing a log removes the first that ever had its name. When one log of
    an author has the name, nothing is found under it afterwards; but when the
    dataset was deleted and made again, the record of the deletion goes, and the
    name leads to the same log as before. *)
Theorem RemoveLog_first u n j i l pre old mid live post :
  Journal_HeadRef [u] j = Ok [i] → deref [i] j = Ok l → Name live = Ok n → Removed live = Ok false →
  Forall (other_name n) pre → Forall (other_name n) mid →
  (lg_Logs l = pre ++ live :: mid →
     ∃ j', RemoveLog [u; n] j = Ok j' ∧ Journal_HeadRef [u; n] j = Ok [i; length pre] ∧
       Journal_HeadRef [u; n] j' = Error ErrNotFound) ∧
  (lg_Logs l = pre ++ old :: mid ++ live :: post → Name old = Ok n → Removed old = Ok true →
     ∃ j', RemoveLog [u; n] j = Ok j' ∧ Journal_HeadRef [u; n] j = Ok [i; S (length pre + length mid)] ∧
       Journal_HeadRef [u; n] j' = Ok [i; length pre + length mid] ∧ deref [i; length pre + length mid] j' = Ok live).
Proof.
  intros Hu Hl Hn Hr Hpre Hmid.
  assert (∀ ls, lg_Logs l = ls → Journal_HeadRef [u; n] j =
    (found ← find_named n 0 ls; match found with Some (k, _) => Ok [i; k] | None => Error ErrNotFound end)) as Hhead.
  { intros ls Hls. rewrite <- (headref_children u n j i l ls Hu Hl). f_equal. rewrite <- Hls.
    destruct j as [id logs]. apply deref_Ok in Hl. cbn in Hl. destruct (logs !! i) as [l0|] eqn:Hi; [|done]. injection Hl as ->.
    unfold store_at, set_j_logs. cbn. f_equal. symmetry. apply list_eq. intros k. destruct (decide (k = i)) as [->|Hk].
    - rewrite list_lookup_alter_eq, Hi. cbn. by destruct l.
    - by rewrite list_lookup_alter_ne. }
  split.
  - intros Hls. assert (find_name n 0 (lg_Logs l) = Ok (Some (length pre))) as Hk.
    { apply find_name_Some. exists (length pre), live. rewrite Hls. split_and!; [done|by rewrite lookup_app_r, Nat.sub_diag by lia|done|].
      by rewrite take_app_length. }
    eexists. split; [by apply RemoveLog_run|]. split.
    + rewrite (Hhead _ Hls), find_named_live by done. done.
    + rewrite (headref_children u n j i l _ Hu Hl), Hls, delete_middle, find_named_others; [done|]. by apply Forall_app.
  - intros Hls Hon Hor. assert (find_name n 0 (lg_Logs l) = Ok (Some (length pre))) as Hk.
    { apply find_name_Some. exists (length pre), old. rewrite Hls. split_and!; [done|by rewrite lookup_app_r, Nat.sub_diag by lia|done|].
      by rewrite take_app_length. }
    assert (Forall (other_name n) (pre ++ mid)) as Hboth by by apply Forall_app.
    eexists. split; [by apply RemoveLog_run|]. rewrite Hls, delete_middle, app_assoc. split_and!.
    + rewrite (Hhead _ Hls), find_named_removed, find_named_live by done. cbn. by do 3 f_equal.
    + rewrite (headref_children u n j i l _ Hu Hl), find_named_live by done. cbn. by rewrite length_app.
    + apply deref_Ok. unfold store_at. cbn [j_logs set_j_logs].
      apply deref_Ok in Hl. change (lookup_addr ([i] ++ [length pre + length mid])
        (alter_addr (λ _, set_Logs ((pre ++ mid) ++ live :: post) l) [i] (j_logs j)) = Some live).
      erewrite lookup_addr_app; [| |done].
      2: { rewrite lookup_alter_addr, Hl. done. }
      cbn [lg_Logs set_Logs lookup_addr]. rewrite <- length_app, lookup_app_r, Nat.sub_diag by lia. done.
Qed.

(** ** Resolving at a remote *)
Section served.
Context `{OpDigest, C : BookCipher, Sg : !LogSigning, Kb : !KeyBytes Sg, Hsh : !KeyHash, Entropy} {F P : Type} `{!Filesystem F, !Publisher P, !RemotePublisher P}.
Context `{ProfileIDs, !MultihashLib, ProfileStore PS} (ps : PS).
Context {S K : Type} `{!VersionFS S K, J : !ClientJSON} (mux : string) (view : StoredDataset K → Dataset) {HS : Type}.
Context (peer_IDB58Decode : string → option string) (version : string).
Context (localResolver : @Repo _ F P S → stM Ref string) (json_Ref : Ref → outcome string).
Context (base : RemoteNetwork S (@Node _ F P S HS)) (urls : string → option error) (r : @RemoteNode HS) (o : @LogOptions HS) (fuel : nat).
Implicit Types (n : @Node _ F P S HS) (ref : Ref).

#[local] Instance network : RemoteNetwork S (@Node _ F P S HS) := served_network ps mux view localResolver json_Ref base urls r o fuel.

(** What decoding leaves of a reference: fields that are empty are not sent. *)
Definition overlay (found old : Ref) : Ref :=
  let keep (get : Ref → string) := if decide (get found = "") then get old else get found in
  mkRef (keep ref_InitID) (keep ref_Username) (keep ref_ProfileID) (keep ref_Name) (keep ref_Path).
Definition json_laws : Prop := ∀ found text old, json_Ref found = Ok text → decode_Ref old text = (Ok tt, overlay found old).

Definition refs_query ref : Params := list_to_map [("username", ref_Username ref); ("name", ref_Name ref); ("path", ref_Path ref)].
Lemma refs_query_param ref : param "username" (refs_query ref) = ref_Username ref ∧ param "name" (refs_query ref) = ref_Name ref ∧
  param "path" (refs_query ref) = ref_Path ref.
Proof. unfold param. by split_and!. Qed.

(** C26: a reference resolves over the network as it does at the remote. What the
    remote's own resolver answers for the names and path of a reference is what
    the client gets, with the fields the remote leaves empty kept; a reference
    the remote does not know is not found, other errors come with their text,
    and the remote stays as it was. *)
Theorem resolve_served ref addr n : json_laws → addressType peer_IDB58Decode addr = "http" →
  net_Parse (S := S) (Replaced addr "/remote/refs" (refs_query ref)) = None →
  let asked := mkRef "" (ref_Username ref) "" (ref_Name ref) (ref_Path ref) in
  (∀ source found text, localResolver (n_repo n) asked = (Ok source, found) → json_Ref found = Ok text →
     remote_ResolveRef (S := S) peer_IDB58Decode ref addr n = ((Ok addr, overlay found ref), n)) ∧
  (∀ e found, localResolver (n_repo n) asked = (Error e, found) →
     remote_ResolveRef (S := S) peer_IDB58Decode ref addr n =
       ((Error (if decide (error_text e = error_text ErrRefNotFound) then ErrRefNotFound
                else Errorf "resolving dataset ref from remote %s failed: %s" [addr; error_text e]), ref), n)).
Proof.
  intros Hj Hhttp Hparse asked. destruct (refs_query_param ref) as (Hu & Hn & Hp).
  assert (addr ≠ "") as Hne.
  { intros ->. unfold addressType in Hhttp. by destruct (peer_IDB58Decode ""). }
  assert (∀ res, respond (RefsHTTPHandler ps mux view localResolver json_Ref r fuel "GET" (refs_query ref)) n = (Ok res, n) →
    remote_ResolveRef (S := S) peer_IDB58Decode ref addr n =
      (let '(d, ref') := if decide (res_StatusCode res ≠ StatusOK) then
           (Error (if decide (res_Body res = error_text ErrRefNotFound) then ErrRefNotFound
                   else Errorf "resolving dataset ref from remote %s failed: %s" [addr; res_Body res]), ref)
         else decode_Ref ref (res_Body res) in (_ ← d; Ok addr, ref'), n)) as Hres.
  { intros res Hres. unfold remote_ResolveRef. rewrite decide_False by done. rewrite decide_True by done.
    unfold resolveRefHTTP. fold (refs_query ref). rewrite Hparse. cbn [net_Do network served_network serve].
    rewrite decide_True by done. rewrite Hres. case_decide; [done|]. by destruct (decode_Ref _ _). }
  split.
  - intros source found text Hloc Htext. rewrite (Hres (mkResponse 200 ∅ text)).
    + cbn [res_StatusCode res_Body]. rewrite decide_False by (intros Hs; by apply Hs). by rewrite (Hj _ _ _ Htext).
    + unfold respond, RefsHTTPHandler. rewrite decide_True by done. rewrite (bind_run st_get _ n n n) by done.
      rewrite Hu, Hn, Hp. fold asked. rewrite Hloc, Htext. cbn. by rewrite string_app_nil_r.
  - intros e found Hloc. rewrite (Hres (mkResponse 404 ∅ (error_text e))).
    + cbn [res_StatusCode res_Body]. by rewrite decide_True.
    + unfold respond, RefsHTTPHandler. rewrite decide_True by done. rewrite (bind_run st_get _ n n n) by done.
      rewrite Hu, Hn, Hp. fold asked. rewrite Hloc. cbn. by rewrite string_app_nil_r.
Qed.
End served.

(** ** Pulling *)
Section pull.
Context `{OpDigest, C : BookCipher, Sg : !LogSigning, Kb : !KeyBytes Sg, Hsh : !KeyHash, Entropy} {F P : Type} `{!Filesystem F, !Publisher P, !RemotePublisher P}.
Context `{ProfileIDs, ProfileStore PS}.
Context {S K T : Type} `{!VersionFS S K, !RemoteNetwork S T, !ClientJSON} (mux : string) (view : StoredDataset K → Dataset).
Context (peer_IDB58Decode : string → option string).
Implicit Types (r : @Repo _ F P S) (s : @Side _ F P S T) (ref : Ref).

Definition names_of ref : Refstore.DatasetRef := mkDatasetRef (ref_Username ref) "" (ref_Name ref) "" "" None false false.
Definition committed_at (path : string) (ds : StoredDataset K) (t : Z) (st : S) : Prop :=
  load_full mux path st = Ok ds ∧ ∃ cm, ds_Commit (view ds) = Some cm ∧ cm_Timestamp cm = t.

Lemma first_match {A} (p : A → bool) before x after i : Forall (λ y, p y = false) before → p x = true →
  find_index_from p i (before ++ x :: after) = Some (i + length before, x).
Proof.
  intros Hb Hx. apply find_index_from_Some. exists (length before). split_and!; [done|by rewrite lookup_app_r, Nat.sub_diag by lia|done|].
  intros j y Hj Hy. rewrite lookup_app_l in Hy by done. rewrite Forall_forall in Hb. apply Hb. by eapply list_elem_of_lookup_2.
Qed.

Lemma same_user_Match x y : dr_Peername x = dr_Peername y → dr_Name x = dr_Name y → Match x y = true.
Proof.
  intros Hu Hn. unfold Match. rewrite Hu, Hn. rewrite (bool_decide_eq_true_2 (dr_Peername y = _)), (bool_decide_eq_true_2 (dr_Name y = _)) by done.
  by rewrite !orb_true_r.
Qed.

(** What is stored after a version was pulled, of a dataset that is here *)
Lemma store_pulled_run ref r before prev after old new t t' : r_refs r = before ++ prev :: after →
  Forall (λ x, Match x (names_of ref) = false) before → Forall (λ x, Match x (RefFromDsref ref) = false) before →
  dr_Peername prev = ref_Username ref → dr_Name prev = ref_Name ref →
  dr_ProfileID (RefFromDsref ref) ≠ "" → ref_Username ref ≠ "" → ref_Name ref ≠ "" → ref_Path ref ≠ "" →
  committed_at (dr_Path prev) old t (r_store r) → committed_at (ref_Path ref) new t' (r_store r) →
  store_pulled mux view ref r =
    (Ok new, mkRepo (if decide (t ≤ t')%Z then before ++ set_dr_Dataset (view new) (RefFromDsref ref) :: after else r_refs r)
               (r_book r) (r_store r)).
Proof.
  intros Hrefs Hb1 Hb2 Hu Hn Hid Hun Hnn Hp (Hold & cm & Hcm & <-) (Hnew & cm' & Hcm' & <-).
  unfold store_pulled.
  rewrite (bind_run (attempt _) _ r (inl prev) r).
  2: { unfold attempt. rewrite (on_repo_refs_run _ r prev (r_refs r)); [by destruct r|].
       unfold GetRef. fold (names_of ref). rewrite Hrefs at 1. by rewrite first_match by first [exact Hb1 | by apply same_user_Match]. }
  rewrite (bind_run (failing_with _ _) _ r old r) by (unfold failing_with, st_read; by rewrite Hold).
  rewrite (bind_run (failing_with _ _) _ r new r) by (unfold failing_with, st_read; by rewrite Hnew).
  unfold ReplaceRefIfMoreRecent, commit_time. cbn [set_dr_Dataset dr_Dataset mbind option_bind]. rewrite Hcm', Hcm. cbn [mbind option_bind].
  case_decide as Ht.
  - set (put := set_dr_Dataset (view new) (RefFromDsref ref)) in *.
    assert (PutRef put (r_refs r) = Ok (before ++ put :: after)) as Hput.
    { unfold PutRef. do 3 rewrite decide_False by first [exact Hid | exact Hun | exact Hnn]. rewrite decide_False by (intros [Hnil _]; exact (Hp Hnil)). rewrite Hrefs, first_match.
      - cbn [Nat.add]. f_equal. rewrite insert_app_r_alt by lia. by rewrite Nat.sub_diag.
      - eapply Forall_impl; [exact Hb2|]. intros x. done.
      - by apply same_user_Match. }
    unfold repo_PutRef. unfold mbind, stM_bind.
    rewrite (on_repo_refs_run _ r tt (before ++ put :: after)); [done|]. by rewrite Hput.
  - rewrite (bind_run (mret tt) _ r tt r) by done. by destruct r.
Qed.

Definition bus_ok : Prop := ∀ typ ev (p : P), (PublishRemote typ ev p).1 = Ok tt.
Lemma published_run typ ev s : bus_ok → ∃ s', events_Publish typ ev s = (Ok tt, s') ∧ r_refs (cs_repo s') = r_refs (cs_repo s) ∧
  r_store (cs_repo s') = r_store (cs_repo s) ∧ b_store (r_book (cs_repo s')) = b_store (r_book (cs_repo s)) ∧ cs_net s' = cs_net s.
Proof.
  intros Hbus. unfold events_Publish, on_client_repo, on_repo_book, st_zoom. specialize (Hbus typ ev (b_publisher (r_book (cs_repo s)))).
  destruct (PublishRemote typ ev _) as [res p]. cbn in Hbus. subst res. by eexists.
Qed.

(** C17: a pull leaves the newer version, and forgets the directory. When the logs
    and the version were fetched, of a dataset that is stored here with an older
    commit, or one of the same time, the stored reference becomes that of the
    version that was fetched, without the directory it was linked to; a newer
    one stays as it is. The answer is the version that was fetched. *)
Theorem PullDataset_keeps_newest unix_now c ref addr s s1 ref' s2 before prev after old new t t' : bus_ok →
  pullLogs peer_IDB58Decode c ref addr s = (Ok tt, s1) →
  pullDatasetVersion peer_IDB58Decode unix_now c ref addr s1 = (Ok ref', s2) →
  r_refs (cs_repo s2) = before ++ prev :: after →
  Forall (λ x, Match x (names_of ref') = false) before → Forall (λ x, Match x (RefFromDsref ref') = false) before →
  dr_Peername prev = ref_Username ref' → dr_Name prev = ref_Name ref' →
  dr_ProfileID (RefFromDsref ref') ≠ "" → ref_Username ref' ≠ "" → ref_Name ref' ≠ "" → ref_Path ref' ≠ "" →
  committed_at (dr_Path prev) old t (r_store (cs_repo s2)) → committed_at (ref_Path ref') new t' (r_store (cs_repo s2)) →
  ∃ s', PullDataset mux view peer_IDB58Decode unix_now (Some c) ref addr s = (Ok (ref', new), s') ∧
    r_store (cs_repo s') = r_store (cs_repo s2) ∧ b_store (r_book (cs_repo s')) = b_store (r_book (cs_repo s2)) ∧
    ∃ found, GetRef (names_of ref') (r_refs (cs_repo s')) = Ok found ∧
      ((t ≤ t')%Z → dr_Path found = ref_Path ref' ∧ dr_FSIPath found = "") ∧ ((t' < t)%Z → found = prev).
Proof.
  intros Hbus Hlogs Hpull Hrefs Hb1 Hb2 Hu Hn Hid Hun Hnn Hp Hold Hnew.
  destruct (published_run ETRemoteClientPullDatasetCompleted (mkRemoteEvent ref' addr None) s2 Hbus) as (s3 & Hev & Hr3 & Hs3 & Hbk3 & _).
  rewrite <- Hr3 in Hrefs. rewrite <- Hs3 in Hold, Hnew.
  pose proof (store_pulled_run ref' (cs_repo s3) before prev after old new t t') as Hstore.
  specialize (Hstore Hrefs Hb1 Hb2 Hu Hn Hid Hun Hnn Hp Hold Hnew). set (refs' := if decide (t ≤ t')%Z then _ else _) in Hstore.
  exists (mkSide (mkRepo refs' (r_book (cs_repo s3)) (r_store (cs_repo s3))) (cs_net s3)). split_and!; [|done..|].
  - unfold PullDataset, client_guard. rewrite (bind_run _ _ _ _ _ Hlogs), (bind_run _ _ _ _ _ Hpull), (bind_run _ _ _ _ _ Hev).
    rewrite (bind_run (on_client_repo _) _ s3 new (mkSide (mkRepo refs' (r_book (cs_repo s3)) (r_store (cs_repo s3))) (cs_net s3))); [done|].
    unfold on_client_repo, st_zoom. by rewrite Hstore.
  - cbn [cs_repo r_refs]. subst refs'. unfold GetRef. case_decide as Ht.
    + rewrite first_match; [|exact Hb1|by apply same_user_Match]. eexists. split; [done|]. split; [done|lia].
    + rewrite Hrefs, first_match; [|exact Hb1|by apply same_user_Match]. exists prev. split; [done|]. split; [lia|done].
Qed.
End pull.


Section removing.
Context `{OpDigest, C : BookCipher, Sg : !LogSigning, Kb : !KeyBytes Sg, Hsh : !KeyHash, Entropy} {F P : Type} `{!Filesystem F, !Publisher P, !RemotePublisher P}.
Context `{ProfileIDs, ProfileStore PS} (ps : PS).
Context {S K : Type} `{!VersionFS S K, J : !ClientJSON} (mux : string) (view : StoredDataset K → Dataset) `{!VersionFSLaws S K mux} {HS : Type}.
Context (localResolver : @Repo _ F P S → stM Ref string) (json_Ref : Ref → outcome string).
Implicit Types (repo : @Repo _ F P S) (b : @Logbook.Book _ F P) (ref : Ref) (n : @Node _ F P S HS).




End removing.

(** ** The client's removal, over a network with a remote behind it *)
Section removed.
Context `{OpDigest, C : BookCipher, Sg : !LogSigning, Kb : !KeyBytes Sg, Hsh : !KeyHash, Entropy, !LogSigningLaws Sg, !KeyBytesLaws Kb} {F P : Type}.
Context `{!Filesystem F, !Publisher P, !RemotePublisher P} `{ProfileIDs, !MultihashLib, ProfileStore PS} (ps : PS).
Context {S K : Type} `{!VersionFS S K, J : !ClientJSON} (mux : string) (view : StoredDataset K → Dataset) `{!VersionFSLaws S K mux} {HS : Type}.
Context (peer_IDB58Decode : string → option string).
Context (localResolver : @Repo _ F P S → stM Ref string) (json_Ref : Ref → outcome string).
Context (base : RemoteNetwork S (@Node _ F P S HS)) (urls : string → option error) (r : @RemoteNode HS) (o : @LogOptions HS) (fuel : nat).
Implicit Types (repo : @Repo _ F P S) (ref : Ref) (c : @Client C).







End removed.

(** ** The theorems at work *)
Module ClientDemo.
Import Demo SyncDemo RepoDemo.
#[local] Existing Instances LinkDemo.owner RepoDemo.versions RepoDemo.versions_laws RemoteDemo.key_hash.
#[local] Instance no_bus : RemotePublisher events := λ _ _ p, (Ok tt, p).

(** A dataset that was deleted and made again *)
Definition recreated : book := Eval vm_compute in (WriteDatasetInit "cities" (WriteDatasetDelete cities_id saved).2).2.
Definition authors_log : Log := Eval vm_compute in default (InitLog zero_Op) (j_logs (b_store recreated) !! 0).
Definition log_at (k : nat) : Log := default (InitLog zero_Op) (lg_Logs authors_log !! k).

Lemma RemoveLog_first_witness :
  ∃ j', RemoveLog ["alice"; "cities"] (b_store recreated) = Ok j' ∧
    Journal_HeadRef ["alice"; "cities"] (b_store recreated) = Ok [0; 1] ∧ Journal_HeadRef ["alice"; "cities"] j' = Ok [0; 0].
Proof.
  destruct (RemoveLog_first "alice" "cities" (b_store recreated) 0 authors_log [] (log_at 0) [] (log_at 1) []) as [_ Htwice].
  - vm_compute. reflexivity.
  - vm_compute. reflexivity.
  - vm_compute. reflexivity.
  - vm_compute. reflexivity.
  - apply List.Forall_nil.
  - apply List.Forall_nil.
  - destruct Htwice as (j' & Hrun & Hbefore & Hafter & _).
    + vm_compute. reflexivity.
    + vm_compute. reflexivity.
    + vm_compute. reflexivity.
    + exists j'. split; [exact Hrun|]. split; [exact Hbefore|exact Hafter].
Defined.

(** Ada's dataset, and a remote of Bob that has it *)
Definition at_remote : Ref := mkRef ada_cities "ada" "QmAda" "cities" "/ipfs/Qm1".
Definition remote_node : @Node _ sink events (gmap string string) unit := mkNode (mkRepo
  [mkDatasetRef "ada" "QmAda" "cities" "/ipfs/Qm1" "" None true false]
  (Book_MergeLog (Ok tt) ada_author bob_book).2 store1) tt.
Definition text_of (ref : Ref) : outcome string := if decide (ref = at_remote) then Ok "cities" else Error (Errorf "no text" []).
#[local] Instance texts : ClientJSON := {|
  decode_feeds _ := Error (Errorf "no feeds" []); decode_feed _ := Error (Errorf "no feed" []);
  decode_preview _ := Error (Errorf "no preview" []);
  decode_Ref old text := if decide (text = "cities") then (Ok tt, overlay at_remote old) else (Error (Errorf "no reference" []), old);
|}.
Lemma texts_laws : json_laws text_of.
Proof.
  intros found text old. unfold text_of. case_decide as Hf; [|done]. intros [= <-]. subst found. cbn [decode_Ref texts]. by rewrite decide_True.
Qed.
Definition nothing {A B} : stM A B := st_fail (Errorf "not connected" []).
Definition wires : RemoteNetwork (gmap string string) (@Node _ sink events (gmap string string) unit) := {|
  net_logsync _ := {| rem_addr _ := Ok ""; rem_put _ _ _ := nothing; rem_get _ _ := nothing; rem_del _ _ := nothing |};
  net_Parse _ := None;
  net_Path _ := "";
  net_Do _ _ _ := nothing;
  dsync_NewPush _ _ _ := Ok tt; dsync_Push _ _ _ := mret tt; dsync_NewPull _ _ _ := Ok tt; dsync_Pull _ _ _ := mret tt;
  ipfs_Pin := None;
|}.
Definition no_peer : string → option string := λ _, None.
Definition open_remote := RemoteDemo.guarded 10 None.
Definition no_log_hooks : @LogOptions unit := mkLogOptions None None None None None None None.
Definition ada_client : @Client bookcipher := mkClient "k" "ada" false.

Lemma resolve_served_witness : let N := served_network LinkDemo.me "mux" RepoDemo.view RemoteDemo.resolver text_of wires (λ _, None) open_remote no_log_hooks 9 in
  remote_ResolveRef (RemoteNetwork0 := N) no_peer (mkRef "" "ada" "" "cities" "") "http://bob" remote_node = ((Ok "http://bob", at_remote), remote_node).
Proof.
  destruct (resolve_served LinkDemo.me "mux" RepoDemo.view no_peer RemoteDemo.resolver text_of wires (λ _, None) open_remote no_log_hooks 9
    (mkRef "" "ada" "" "cities" "") "http://bob" remote_node texts_laws) as [Hfound _]; [reflexivity|reflexivity|].
  exact (Hfound "" at_remote "cities" ltac:(vm_compute; reflexivity) ltac:(reflexivity)).
Defined.


(** Ada pulls from a node of hers: the log of its book, the blocks of its store. *)
Definition other_side : Logsync.Logsync (C := bookcipher) (F := sink) (P := events) unit := mkLogsync ada tt None None None None None None None.
Definition lines : RemoteNetwork (gmap string string) (Logsync.Logsync (C := bookcipher) (F := sink) (P := events) unit) := {|
  net_logsync _ := Logsync_Remote unit 2;
  net_Parse _ := None;
  net_Path _ := "";
  net_Do _ _ _ := nothing;
  dsync_NewPush _ _ _ := Ok tt; dsync_Push _ _ _ := mret tt; dsync_NewPull _ _ _ := Ok tt;
  dsync_Pull path _ _ := λ '(st, t), (Ok tt, (<[path := "/ipfs/Qm0"]> st, t));
  ipfs_Pin := None;
|}.
Definition linked : Refstore.DatasetRef := mkDatasetRef "ada" "QmAda" "cities" "/ipfs/Qm0" "/work" None false false.
Definition stamped (ds : StoredDataset string) : Dataset :=
  version (sd_Path ds) "" (if decide (sd_Path ds = "/ipfs/Qm0") then 5 else 10).
Definition behind := mkSide (mkRepo [linked; rivers] bob_book ({["/ipfs/Qm0" := ""]} : gmap string string)) other_side.
Definition stored_in (path : string) (st : gmap string string) : StoredDataset string :=
  match load_full "mux" path st with Ok ds => ds | _ => mkStored path (λ _, None) end.

Lemma PullDataset_keeps_newest_witness :
  ∃ new s' found, PullDataset (RemoteNetwork0 := lines) "mux" stamped no_peer 5 (Some ada_client) ada_ref "http://bob" behind = (Ok (ada_ref, new), s') ∧
    GetRef (names_of ada_ref) (r_refs (cs_repo s')) = Ok found ∧ dr_FSIPath linked = "/work" ∧ dr_Path found = "/ipfs/Qm1" ∧ dr_FSIPath found = "".
Proof.
  pose (pulled := pullLogs (RemoteNetwork0 := lines) no_peer ada_client ada_ref "http://bob" behind).
  pose (got := pullDatasetVersion (RemoteNetwork0 := lines) no_peer 5 ada_client ada_ref "http://bob" pulled.2).
  destruct (PullDataset_keeps_newest (RemoteNetwork0 := lines) "mux" stamped no_peer 5 ada_client ada_ref "http://bob" behind pulled.2 ada_ref got.2
    [] linked [rivers] (stored_in "/ipfs/Qm0" (r_store (cs_repo got.2))) (stored_in "/ipfs/Qm1" (r_store (cs_repo got.2))) 5 10)
    as (s' & Hrun & _ & _ & found & Hget & Hnewer & _).
  - intros typ ev p. reflexivity.
  - vm_cast_no_check (eq_refl pulled).
  - vm_cast_no_check (eq_refl got).
  - vm_compute. reflexivity.
  - apply List.Forall_nil.
  - apply List.Forall_nil.
  - reflexivity.
  - reflexivity.
  - discriminate.
  - discriminate.
  - discriminate.
  - discriminate.
  - split; [vm_compute; reflexivity|]. eexists. split; vm_compute; reflexivity.
  - split; [vm_compute; reflexivity|]. eexists. split; vm_compute; reflexivity.
  - destruct (Hnewer ltac:(lia)) as [Hp Hd]. exists (stored_in "/ipfs/Qm1" (r_store (cs_repo got.2))), s', found.
    split; [exact Hrun|]. split; [exact Hget|]. split; [reflexivity|]. split; [exact Hp|exact Hd].
Defined.
End ClientDemo.
